(* ===== verification/_CoqProject ===== *)
-Q . S2P
Prelude.v
Digits.v
CMem.v
MemFns.v
CStr.v
Ctype.v
Strtol.v
Alloc.v
Links.v
Sep.v
KHeap.v
PhysMem.v
Paging.v
SimpleMm.v
Fs.v
FsProofs.v
FsTree.v
Process.v
ProcessProofs.v
Syscall.v
Console.v
Libc.v
Printf.v
PrintfSpec.v
PrintfProofs.v
PrintfSinks.v
PrintfMain.v
Libcall.v
LibcallProofs.v
Malloc.v
MallocProofs.v
MallocFree.v
Fileops.v
FileopsProofs.v
Stdlib.v
StdlibProofs.v
Interrupts.v
Gpu.v
GpuProofs.v
GpuRecord.v
GpuCalls.v
CssObj.v
DomObj.v
Scan.v
Dom.v
DomTree.v
DomSpec.v
DomSep.v
DomProofs.v
Css.v
CssSpec.v
CssScan.v
CssProofs.v
CssPrint.v
CssParse.v
CssExamples.v
Html.v
HtmlSpec.v
HtmlScan.v
HtmlTree.v
HtmlProofs.v
HtmlPrint.v
HtmlParse.v
HtmlDestroy.v
HtmlQuery.v
SourceFile.v
Screen.v
Desktop.v
DesktopProofs.v
DesktopExamples.v
SimpleKernel.v
