(* ===== verification/Prelude.v ===== *)
(** * PrismaticOS: a verification development

    PrismaticOS is a small operating system in C: a kernel, a C library, a
    graphics back end, and HTML and CSS parsers.  This library models them as
    executable functions and proves what they do.

    ** The parts and how they call one another

    - The C library (libc/src): memory and string functions, character
      classes, number conversion; above them the heap, formatted output,
      streams and system call wrappers.  Streams format with printf.c, keep
      their structures in blocks of the heap and reach the system through the
      wrappers, as does the heap for the program break.
    - The memory manager (kernel/mm.c): a heap with headers in memory, a bitmap
      of page frames allocated from the heap, and four-level page tables with
      their address spaces, whose tables come from the heap and whose pages
      come from the bitmap.
    - kernel/Makefile builds a 32-bit kernel of main.c, console.c, desktop.c,
      kernel_graphics.c, kernel_html.c, kernel_js.c and the files simple_mm.c,
      simple_process.c, simple_fs.c, simple_interrupts.c and simple_syscall.c,
      whose heap is a bump allocator.  The full parts of the kernel (mm.c,
      fs.c, process.c, interrupts.c, syscall.c) and simple_graphics.c are in
      no list of a Makefile; they are modelled as the sources stand.
    - The file system (kernel/fs.c), the process manager (kernel/process.c)
      and the desktop (kernel/desktop.c) allocate their objects from whichever
      of the two is linked.
    - The console (kernel/console.c) and the interrupt code
      (kernel/interrupts.c), whose handlers print on the console and call the
      scheduler.
    - The system calls (kernel/syscall.c): the way from a wrapper to the
      [syscall] instruction, and from the handler through the table of calls
      to the kernel functions.  Nothing in the source leads from the
      instruction to the handler.
    - The desktop and the page display (kernel/kernel_html.c) draw through
      functions that two files define: kernel_graphics.c, which is linked and
      draws nothing, and simple_graphics.c, which is not and draws.
    - The graphics back end (graphics/src/gpu/gpu_backend.c): buffers,
      textures and recorded commands in memory.
    - The HTML library (html/src): the DOM tree (dom/dom.c), the parser that
      builds it from text (html/html_parser.c), and the CSS parser
      (css/css_parser.c), over the allocator of the C library.

    ** Files

    - [Prelude]: machine integers ([wrap], [swrap]), the monad of programs
      [prog] with [wp], loops, tactics.  [CMem]: the byte memory.  [Digits]:
      numbers as digits, for the console and for formatted output.
    - [MemFns] (string/memcpy.c), [CStr] (string/strlen.c), [Ctype]
      (ctype/ctype.c), [Strtol] (stdlib/atoi.c).
    - [Alloc]: the interfaces to the allocators: the classes [KAlloc] (the
      operations), [KAllocLaws] and [KFreeLaws] (what clients in the kernel
      rely on), [LibcHeap] and [LibcHeapLaws] for user code.
    - [Links]: doubly linked lists of objects in a store, as a class.
    - [KHeap], [PhysMem], [Paging]: mm.c in three parts over the state
      [KHeap.mm], whose fields are the static variables of mm.c, the memory,
      and the processor's page table register and flushes.  [KHeap] implements
      [KAlloc] with [KAllocLaws]; [kfree_merge_overruns] is why it does not
      have [KFreeLaws].
    - [SimpleMm] (simple_mm.c): implements all three classes.
    - [Fs]: fs.c as programs over any [KAlloc]; the state [fs] has a store of
      typed objects per structure, keyed by address, and the static variables.
      [FsProofs]: files, descriptors, reading, writing and seeking.  [FsTree]:
      paths, the directory tree, lookup and creation.
    - [Process]: process.c over any [KAlloc] and any [KSpaces] (the address
      spaces, implemented by [Paging]), on any [Platform] (the context switch
      and other code that is not in these files).  [ProcessProofs]: the ready
      queue, the scheduler, mutexes, processes, signals.
    - [Syscall] (syscall.c, syscall.h, simple_syscall.c): over any [Kernel].
    - [Console] (console.c) and [Interrupts] (interrupts.c), which runs on the
      states of [Console] and [Process].
    - [Libc]: the state of a process as the C library sees it.  [Printf]
      (stdio/printf.c) over any [FWrite]; [PrintfSpec]: formats as lists of
      directives and the text they stand for; [PrintfProofs]: the formatter,
      for any place the output goes to; [PrintfSinks], [PrintfMain]: the
      entry points.
    - [Libcall] (syscall/syscall_wrappers.c, errno.c) over any [RawCalls];
      [LibcallProofs]: the contract of the wrappers, and of [sbrk].  [Malloc]
      (stdlib/malloc.c) on [sbrk], [MallocProofs], [MallocFree].  [Fileops]
      (stdio/fileops.c) on [Libcall] and [Malloc], and an instance of
      [FWrite]; [FileopsProofs].  [Stdlib] (stdlib/stdlib.c), [StdlibProofs].
    - [Gpu] (gpu_backend.c) over any [LibcHeap]: resources as typed objects,
      command buffers as words.  [GpuProofs]: well-formed states.
      [GpuRecord]: recording commands and decoding them.  [GpuCalls]:
      textures, and the whole interface.
    - [Sep]: a separation logic for programs over a store of objects, as an
      instance of the interface of the Iris proof mode; [swp] is its weakest
      precondition, and [swp_adequate] turns a specification into a statement
      about runs.  It is linear: what a specification does not give back has
      been freed.
    - [CssObj], [DomObj]: the structures of css.h, dom.h and html.h as typed
      objects at addresses, and the accesses to them, over any [LibcHeap].
      [Scan]: prefixes of texts, for both tokenizers.
    - [Dom]: dom.c.  [DomTree]: the links of the nodes form a forest; removing
      keeps it, and appending does unless the new parent is below the node.  [DomSpec]: attribute lists and class lists.
      [DomSep], [DomProofs]: the access rules in [Sep], runs of a parser
      ([run_loaded]); attributes, classes, the creation of nodes.
    - [Css]: css_parser.c.  [CssSpec]: the tokenizer [css_scan] and the rules
      of a sheet, [sheet_of], as functions of texts.  [CssScan]: the tokenizer
      refines [css_scan].  [CssProofs]: the parser refines [sheet_of], and the
      objects it builds can be freed.  [CssPrint]: writing sheets.
      [CssParse]: parsing as a run, round trip, colours.  [CssExamples]: the
      interfaces with concrete functions, and runs that fault.
    - [Html]: html_parser.c over [Dom].  [HtmlSpec]: the tokenizer [scan] and
      the tree construction [html_tree] as functions of texts.  [HtmlScan]:
      the tokenizer refines [scan].  [HtmlTree]: trees and open elements in
      memory.  [HtmlProofs]: the tree builder refines [html_tree].
      [HtmlPrint]: writing trees as HTML.  [HtmlParse]: parsing as a run, and
      the round trip.  [HtmlDestroy], [HtmlQuery]: freeing a tree, and finding
      an element in it.
    - [Screen]: the interface [Graphics] of the drawing functions, its
      implementation on the frame buffer (simple_graphics.c) and the one of
      stubs ([Screen.Kernel], kernel_graphics.c); [paint], what
      drawing does to the memory.  [Desktop]: desktop.c, kernel_html.c and
      kernel_js.c over any [KAlloc] and any [Graphics].  [DesktopProofs]: the [scene] of the
      windows, its pixels on the frame buffer, pages, scripts.
      [DesktopExamples].
    - [SourceFile]: [html_parser_parse_file] and [css_parser_parse_file] over
      any [Stdio].  [SimpleKernel]: simple_main.c, minimal_main.c and
      simple_process.c, over any [KAlloc].

    Definitions have the names of the C functions, and come first in each
    file; specifications, lemmas and theorems follow; concrete instances that
    show that the hypotheses of a theorem can hold are named after it with
    [_witness].

    ** The model

    A C function is a [prog S A]: from a state it gives a value and a state,
    or [Fault] (an access the program may not make: unmapped memory, a null
    or dangling pointer, an index out of range), or [Spin] (a loop or
    recursion that outlives its bound).  [wp p Q s] says that [p] from [s]
    terminates, without fault, in a result with [Q]: it is total correctness,
    so every theorem of the form [p s = Ok ..] includes termination and memory
    safety.  An integer of the program is a [Z], wrapped to its width wherever
    the code can leave it; undefined signed overflow wraps.

    A loop is [loop body x] with the bound [loop_bound] = 2 ^ 65 turns, more
    than a loop can make that counts a 64-bit number or walks through memory;
    [wp_loop] and [wp_loop_n] prove termination with a measure, and no
    theorem depends on the bound being hit.  The recursions of
    [vfs_destroy_node], [process_destroy] and the signal functions carry fuel
    computed from the number of objects ([destroy_fuel], [signal_fuel]): each
    nested call handles another object.  The recursion of [realloc] and [free]
    has its depth as a parameter, and [free_diverges] holds for every depth.

    The byte-level modules ([CMem] to [Paging], and the C library) have one
    flat memory; in [Fs], [Process], [Gpu], [Desktop] and [DomObj] a structure
    is a typed object at its address, and freeing takes it out of its store,
    so that a later use is a [Fault].  In [DomObj] a string is one object too,
    the list of its characters before the 0.
    The laws of the C library's allocator ([LibcHeapLaws]) say that requests
    succeed where the HTML and CSS code does not check the results.  The DOM
    and CSS recursions have the number of objects as fuel
    ([Dom.destroy_fuel], [Css.css_fuel]): they go down structures whose nodes
    are objects of their own.  Lengths of texts are below 2 ^ 60
    ([DomSep.short]), and below 2 ^ 59 for style sheets ([CssProofs.half_short]:
    a value gets a blank after every token), so that sizes do not wrap.  The
    fuel of the specifications of the tokenizers is the length of the text:
    every token takes a character ([css_scan_length], [HtmlSpec.scan_length]).

    ** What is shown

    - Memory: [kmalloc] returns a fresh block of the size asked for and keeps
      every other block ([KHeap.kmalloc_correct]); frames are handed out once
      and counted exactly ([PhysMem]); mapping and unmapping a page change
      exactly the translations through its entry ([Paging]).
    - The C library: the word-wise routines equal the byte-wise ones; strings
      are copied, compared, split and measured as specified; [strtol] parses
      and clamps, and reads back what [snprintf] prints; formatted output is
      the text of its directives, in memory and through a stream down to the
      system call, where a number is followed by what lies behind the array of
      [format_int]; the wrappers make their calls; blocks of the heap are
      disjoint within a chunk; lines are read, streams opened; [rand] has its
      full period.
    - Files: what is written is read back; a write changes only its range of
      its file; a path resolves in the directory tree, and a created file with a
      name of 1 to 255 characters is found under its path.
    - Processes: the scheduler runs the head of a well-formed queue; the owner
      of a mutex hands it over.
    - System calls: on the registers of each wrapper the handler runs its
      kernel function with its arguments.  Console: the screen after each character; numbers are
      printed with their digits.  Interrupts: the vectors lead to their stubs,
      but for two that have no gate.
    - Graphics: every call on live handles is safe and keeps the resources
      well formed ([GpuCalls.exec_safe]); recorded commands are decoded again
      ([GpuRecord.record_decode]); levels of textures lie inside their block
      when a pixel has 4 bytes.  Rectangles and texts paint exactly their
      pixels ([Screen]); the desktop draws its scene ([DesktopProofs]).
    - The DOM and HTML: [html_parser_parse] on every text ends without a fault
      and builds exactly the specified tree, leaking nothing; a printed tree
      is read back, and a file is read to its end and parsed
      ([html_parser_parse_file_correct]); a tree is freed node by node; removing a node
      keeps a forest, and appending one does, unless it closes a cycle;
      attributes that were set are found, and elements by their id.
    - CSS: [css_parser_parse] builds exactly the specified sheet and leaves
      exactly the specified number of tokens behind; a printed sheet is read
      back; a parsed sheet is freed, and its declarations are handed over to
      [css_declaration_destroy]; colours have their parts.
    - The small kernels: a panic shows its message and never returns; the
      processes of a history have distinct numbers ([pids_distinct]).
    - Where the code does something else than it means to, the theorem states
      what it does: [kfree_merge_overruns], [new_table_misplaced],
      [user_mappings_shared], [strncpy_overruns], [strtoul_ignores_sign],
      [kmalloc_size_wraps], [lseek_zeroes], [mutex_lock_loses_queue],
      [process_create_loses], [waitpid_reads_freed],
      [exception_handler_faults], [malloc_overlaps], [malloc_large_short],
      [realloc_truncates], [free_diverges], [mode_flags],
      [snprintf_number_faults], [map_texture_outside], [map_texture_shifts],
      [css_missing_semicolon], [css_comma_faults], [css_rule_destroy_faults],
      [redraw_oldest_on_top], [kernel_redraw_blank],
      [graphics_draw_text_above], and lemmas beside them;
      [dom_node_unref_correct] and [css_parser_parse_correct] state what stays
      allocated, and [dom_document_get_element_by_id_correct] where the search
      ends.

    ** What is not modelled

    Assembly (boot code, context switch, interrupt stubs, the system call
    instruction) enters as parameters.  So do the functions that src/ calls
    and defines nowhere: [html_document_create], [strcasecmp] and
    [strncasecmp] of [Html] ([HtmlLibLaws], [StrcaseLaws]), [strncasecmp],
    [strtod] and three functions of the CSS parser ([CssStrings], [CssLib],
    with what is relied on in [StrncaseLaws], [CssNumberLaws] and
    [CssLibLaws]), [strerror], [sigemptyset], [_exit] and [raise] of the C
    library.  The streams that [SourceFile] reads are an interface: those of [Fileops]
    lie in another state than the objects of the parsers.  [kernel_main] of
    main.c calls the initialisations, each of which is modelled on the state of
    its own part; simple_html.c and simple_js.c repeat kernel_html.c and
    kernel_js.c but for two messages.  Of the headers for layout, rendering and scripts (layout.h,
    render.h, js.h, os/graphics.h) there is no implementation. *)

From stdpp Require Export base gmap list strings.
From Stdlib Require Export ZArith Lia.

#[global] Open Scope Z_scope.

(** ** Machine integers

    A C integer of width [w] is a [Z]; every place where the code can wrap
    applies [wrap] (unsigned) or [swrap] (two's complement) explicitly. *)

Definition wrap (w x : Z) : Z := x mod 2 ^ w.
Definition swrap (w x : Z) : Z := (x + 2 ^ (w - 1)) mod 2 ^ w - 2 ^ (w - 1).

Abbreviation u8 := (wrap 8).
Abbreviation u16 := (wrap 16).
Abbreviation u32 := (wrap 32).
Abbreviation u64 := (wrap 64).
Abbreviation s8 := (swrap 8).
Abbreviation s32 := (swrap 32).
Abbreviation s64 := (swrap 64).

Definition SIZE_MAX : Z := 2 ^ 64 - 1.

Create Rewrite HintDb word.

Lemma wrap_small w x : 0 <= x < 2 ^ w -> wrap w x = x.
Proof. apply Z.mod_small. Qed.

Lemma wrap_bound w x : 0 <= w -> 0 <= wrap w x < 2 ^ w.
Proof. intros; apply Z.mod_pos_bound; lia. Qed.

Lemma wrap_wrap w x : wrap w (wrap w x) = wrap w x.
Proof. apply Zmod_mod. Qed.

Lemma wrap_add_l w x y : wrap w (wrap w x + y) = wrap w (x + y).
Proof. apply Zplus_mod_idemp_l. Qed.

Lemma swrap_small w x :
  0 < w -> - 2 ^ (w - 1) <= x < 2 ^ (w - 1) -> swrap w x = x.
Proof.
  intros Hw Hx. unfold swrap.
  assert (2 ^ w = 2 * 2 ^ (w - 1)) as E
    by (rewrite <- Z.pow_succ_r by lia; f_equal; lia).
  rewrite Z.mod_small; lia.
Qed.

Lemma swrap_bound w x : 0 < w -> - 2 ^ (w - 1) <= swrap w x < 2 ^ (w - 1).
Proof.
  intros Hw. unfold swrap.
  assert (2 ^ w = 2 * 2 ^ (w - 1)) as E
    by (rewrite <- Z.pow_succ_r by lia; f_equal; lia).
  pose proof (Z.mod_pos_bound (x + 2 ^ (w - 1)) (2 ^ w)). lia.
Qed.

#[export] Hint Rewrite wrap_wrap wrap_add_l : word.

(** ** Programs

    A component is modelled as functions of type [prog S A]: explicit state
    passing with two failure outcomes.  [Fault] is an access the C program is
    not allowed to make (an unmapped address, an index out of range, a null
    or dangling pointer); [Spin] is a loop that outlives its bound. *)

Inductive res (A : Type) : Type :=
  | Ok (a : A)
  | Fault
  | Spin.
Arguments Ok {A} a.
Arguments Fault {A}.
Arguments Spin {A}.

Definition prog (S A : Type) : Type := S -> res (A * S).

Section Programs.
Context {S : Type}.

Definition ret {A} (a : A) : prog S A := fun s => Ok (a, s).
Definition bind {A B} (m : prog S A) (k : A -> prog S B) : prog S B :=
  fun s => match m s with
           | Ok (a, s') => k a s'
           | Fault => Fault
           | Spin => Spin
           end.
Definition fault {A} : prog S A := fun _ => Fault.
Definition spin {A} : prog S A := fun _ => Spin.
Definition get : prog S S := fun s => Ok (s, s).
Definition put (s : S) : prog S unit := fun _ => Ok (tt, s).
Definition gets {A} (f : S -> A) : prog S A := fun s => Ok (f s, s).
Definition modify (f : S -> S) : prog S unit := fun s => Ok (tt, f s).

(** [getf f]: read a part of the state that may be absent (a dereference). *)
Definition getf {A} (f : S -> option A) : prog S A :=
  fun s => match f s with Some a => Ok (a, s) | None => Fault end.

(** Total-correctness weakest precondition: [m] run from [s] terminates
    without faulting, in a value and a state satisfying [Q]. *)
Definition wp {A} (m : prog S A) (Q : A -> S -> Prop) (s : S) : Prop :=
  match m s with Ok (a, s') => Q a s' | _ => False end.

Lemma wp_ret {A} (a : A) Q s : Q a s -> wp (ret a) Q s.
Proof. done. Qed.

Lemma wp_bind {A B} (m : prog S A) (k : A -> prog S B) Q s :
  wp m (fun a s' => wp (k a) Q s') s -> wp (bind m k) Q s.
Proof. unfold wp, bind. by destruct (m s) as [[? ?]| |]. Qed.

Lemma wp_mono {A} (m : prog S A) (P Q : A -> S -> Prop) s :
  wp m P s -> (forall a s', P a s' -> Q a s') -> wp m Q s.
Proof. unfold wp. destruct (m s) as [[? ?]| |]; eauto. Qed.

Lemma wp_get (Q : S -> S -> Prop) s : Q s s -> wp get Q s.
Proof. done. Qed.
Lemma wp_put s' (Q : unit -> S -> Prop) s : Q tt s' -> wp (put s') Q s.
Proof. done. Qed.
Lemma wp_gets {A} (f : S -> A) Q s : Q (f s) s -> wp (gets f) Q s.
Proof. done. Qed.
Lemma wp_modify f (Q : unit -> S -> Prop) s : Q tt (f s) -> wp (modify f) Q s.
Proof. done. Qed.
Lemma wp_getf {A} (f : S -> option A) a Q s :
  f s = Some a -> Q a s -> wp (getf f) Q s.
Proof. unfold wp, getf. by intros ->. Qed.

Lemma wp_run {A} (m : prog S A) Q s :
  wp m Q s <-> exists a s', m s = Ok (a, s') /\ Q a s'.
Proof.
  unfold wp. split.
  - destruct (m s) as [[a s']| |]; naive_solver.
  - by intros (a & s' & -> & HQ).
Qed.

Lemma bind_inv {A B} (m : prog S A) (k : A -> prog S B) s b s'' :
  bind m k s = Ok (b, s'') -> exists a s', m s = Ok (a, s') /\ k a s' = Ok (b, s'').
Proof. unfold bind. destruct (m s) as [[a s']| |]; [eauto|done..]. Qed.

(** The part of a program behind one that has run. *)
Lemma bind_ok {A B} (m : prog S A) a (k : A -> prog S B) s s' : m s = Ok (a, s') -> bind m k s = k a s'.
Proof. unfold bind. by intros ->. Qed.

(** A program that faults after a part that does not. *)
Lemma bind_faults {A B} (m : prog S A) (k : A -> prog S B) P s :
  wp m P s -> (forall a s', P a s' -> k a s' = Fault) -> bind m k s = Fault.
Proof. unfold wp, bind. destruct (m s) as [[a s']| |]; [eauto|done..]. Qed.

Lemma wp_det {A} (m : prog S A) a s s' :
  wp m (fun r t => r = a /\ t = s') s <-> m s = Ok (a, s').
Proof. rewrite wp_run. split; [by intros (? & ? & ? & -> & ->)|eauto 6]. Qed.

Lemma wp_unit (m : prog S unit) (P : S -> Prop) s :
  wp m (fun _ t => P t) s <-> exists t, m s = Ok (tt, t) /\ P t.
Proof. rewrite wp_run. split; [intros ([] & t & ?); eauto|intros (t & ?); eauto]. Qed.
End Programs.

Declare Scope prog_scope.
Delimit Scope prog_scope with prog.
#[global] Open Scope prog_scope.

Notation "'let*' x ':=' m 'in' k" := (bind m (fun x => k))
  (at level 10, x pattern, m at level 100, k at level 200,
   format "'[v' 'let*'  x  ':='  m  'in' '/' k ']'") : prog_scope.
Notation "m ;; k" := (bind m (fun _ => k))
  (at level 100, k at level 200, right associativity) : prog_scope.

(** ** Loops

    A C loop is the iteration of its body on the loop's local variables; the
    body answers [Next x] (go round again with [x]) or [Done r] (leave).  The
    iteration bound is [loop_bound = 2 ^ 65]: a C loop driven by a 64-bit
    counter or an address turns at most [2 ^ 64] times, so the bound is never
    what stops a loop of the source that terminates.  It is a binary numeral,
    and the iteration stops at the first [Done], so programs still evaluate. *)

Inductive step (X R : Type) : Type :=
  | Next (x : X)
  | Done (r : R).
Arguments Next {X R} x.
Arguments Done {X R} r.

Definition loop_bound : positive := 36893488147419103232.

Section Loops.
Context {S X R : Type}.
Implicit Types (body : X -> prog S (step X R)).

Fixpoint iterate (p : positive) body (x : X) : prog S (step X R) :=
  match p with
  | xH => body x
  | xO q =>
      let* r := iterate q body x in
      match r with
      | Next x1 => iterate q body x1
      | Done _ => ret r
      end
  | xI q =>
      let* r := body x in
      match r with
      | Next x0 =>
          let* r1 := iterate q body x0 in
          match r1 with
          | Next x1 => iterate q body x1
          | Done _ => ret r1
          end
      | Done _ => ret r
      end
  end.

Definition loop body (x : X) : prog S R :=
  let* r := iterate loop_bound body x in
  match r with
  | Next _ => spin
  | Done r => ret r
  end.

Lemma bind_ext {A B} (m : prog S A) (k1 k2 : A -> prog S B) s :
  (forall a s, k1 a s = k2 a s) -> bind m k1 s = bind m k2 s.
Proof using Type. intros H. unfold bind. by destruct (m s) as [[a s']| |]. Qed.

Lemma iterate_ext body1 body2 p :
  (forall x s, body1 x s = body2 x s) ->
  forall x s, iterate p body1 x s = iterate p body2 x s.
Proof using Type.
  intros H. induction p as [p IH|p IH|]; intros x s; cbn [iterate]; unfold bind.
  - rewrite H. destruct (body2 x s) as [[[x1|r] s1]| |]; try done.
    rewrite IH. by destruct (iterate p body2 x1 s1) as [[[x2|r] s2]| |].
  - rewrite IH. by destruct (iterate p body2 x s) as [[[x2|r] s2]| |].
  - apply H.
Qed.

Lemma loop_ext body1 body2 x s :
  (forall x s, body1 x s = body2 x s) -> loop body1 x s = loop body2 x s.
Proof using Type.
  intros H. unfold loop, bind. by rewrite (iterate_ext body1 body2).
Qed.

Lemma wp_loop_ext body1 body2 x Q s :
  (forall x s, body1 x s = body2 x s) -> wp (loop body1 x) Q s -> wp (loop body2 x) Q s.
Proof using Type. intros H. unfold wp. by rewrite (loop_ext body1 body2). Qed.

(** The loop rule: an invariant indexed by a bound on the turns left, which
    every turn decreases. *)
Section Rule.
Context (body : X -> prog S (step X R)).
Context (I : Z -> X -> S -> Prop) (Q : R -> S -> Prop).

Definition turn (P : X -> S -> Prop) (r : step X R) (s : S) : Prop :=
  match r with Next x => P x s | Done r => Q r s end.

Hypothesis turn_ok : forall n x s, I n x s ->
  wp (body x) (turn (fun x' s' => exists n', I n' x' s' /\ 0 <= n' < n)) s.

Lemma wp_iterate p : forall n x s, I n x s ->
  wp (iterate p body x)
     (turn (fun x' s' => exists n', I n' x' s' /\ 0 <= n' /\ n' + Zpos p <= n)) s.
Proof.
  induction p as [p IH|p IH|]; intros n x s Hx; cbn [iterate].
  - apply wp_bind. eapply wp_mono; [by eapply turn_ok|].
    intros [x1|r] s1 H1; [|by apply wp_ret]. destruct H1 as (n1 & H1 & Hm1).
    apply wp_bind. eapply wp_mono; [by eapply IH|].
    intros [x2|r] s2 H2; [|by apply wp_ret]. destruct H2 as (n2 & H2 & P2 & Hm2).
    eapply wp_mono; [by eapply IH|].
    intros [x3|r] s3 H3; [|done]. destruct H3 as (n3 & H3 & P3 & Hm3).
    cbn [turn]. exists n3. split; [done|]. lia.
  - apply wp_bind. eapply wp_mono; [by eapply IH|].
    intros [x2|r] s2 H2; [|by apply wp_ret]. destruct H2 as (n2 & H2 & P2 & Hm2).
    eapply wp_mono; [by eapply IH|].
    intros [x3|r] s3 H3; [|done]. destruct H3 as (n3 & H3 & P3 & Hm3).
    cbn [turn]. exists n3. split; [done|]. lia.
  - eapply wp_mono; [by eapply turn_ok|].
    intros [x1|r] s1 H1; [|done]. destruct H1 as (n1 & H1 & Hm1).
    cbn [turn]. exists n1. split; [done|]. lia.
Qed.

Lemma wp_loop_n n x s : I n x s -> n < 2 ^ 65 -> wp (loop body x) Q s.
Proof.
  intros Hx Hm. unfold loop. apply wp_bind.
  eapply wp_mono; [by eapply wp_iterate|].
  intros [x1|r] s1 H1; [|by apply wp_ret]. destruct H1 as (n1 & _ & ? & Hm1).
  exfalso. unfold loop_bound in Hm1. lia.
Qed.
End Rule.

(** The same with the bound computed from the state. *)
Lemma wp_loop body (I : X -> S -> Prop) (m : X -> S -> Z) (Q : R -> S -> Prop) x s :
  (forall x s, I x s ->
     wp (body x) (turn Q (fun x' s' => I x' s' /\ 0 <= m x' s' < m x s)) s) ->
  I x s -> m x s < 2 ^ 65 -> wp (loop body x) Q s.
Proof.
  intros Hturn Hx Hm.
  apply (wp_loop_n body (fun n x s => I x s /\ n = m x s) Q) with (m x s); [|done..].
  intros n y t [Hy ->]. eapply wp_mono; [by apply Hturn|].
  intros [z|r] t' Ht; [|done]. cbn [turn] in *. exists (m z t'). tauto.
Qed.

(** What holds of every way out of the body holds of the loop's result. *)
Lemma iterate_post body (Q : R -> Prop) p :
  (forall x s r s', body x s = Ok (Done r, s') -> Q r) ->
  forall x s r s', iterate p body x s = Ok (Done r, s') -> Q r.
Proof using Type.
  intros HQ. induction p as [p IH|p IH|]; intros x s r s'; cbn [iterate]; unfold bind; [| |apply HQ].
  - destruct (body x s) as [[[x1|r1] s1]| |] eqn:E1; [|intros [= -> ->]; by eapply HQ|done..].
    destruct (iterate p body x1 s1) as [[[x2|r2] s2]| |] eqn:E2; [|intros [= -> ->]; by eapply IH|done..].
    apply IH.
  - destruct (iterate p body x s) as [[[x2|r2] s2]| |] eqn:E2; [|intros [= -> ->]; by eapply IH|done..].
    apply IH.
Qed.

Lemma loop_post body (Q : R -> Prop) x s r s' :
  (forall x s r s', body x s = Ok (Done r, s') -> Q r) -> loop body x s = Ok (r, s') -> Q r.
Proof using Type.
  intros HQ. unfold loop, bind.
  destruct (iterate loop_bound body x s) as [[[x1|r1] s1]| |] eqn:E; [done| |done..].
  intros [= -> ->]. by eapply iterate_post.
Qed.

(** The dual rule: a loop that cannot leave, and whose turns run out, faults. *)
Section FaultRule.
Context (body : X -> prog S (step X R)).
Context (I : X -> S -> Prop) (m : X -> S -> Z).

Definition fturn (P : X -> S -> Prop) (o : res (step X R * S)) : Prop :=
  match o with Ok (Next x, s) => P x s | Fault => True | _ => False end.

Hypothesis turn_faults : forall x s, I x s ->
  fturn (fun x' s' => I x' s' /\ 0 <= m x' s' < m x s) (body x s).

Lemma iterate_faults p : forall x s, I x s ->
  fturn (fun x' s' => I x' s' /\ 0 <= m x' s' /\ m x' s' + Zpos p <= m x s)
        (iterate p body x s).
Proof.
  induction p as [p IH|p IH|]; intros x s Hx; cbn [iterate]; unfold bind.
  - specialize (turn_faults x s Hx).
    destruct (body x s) as [[[x1|r] s1]| |]; try done. destruct turn_faults as [H1 L1].
    specialize (IH x1 s1 H1) as IH1.
    destruct (iterate p body x1 s1) as [[[x2|r] s2]| |]; try done.
    destruct IH1 as (H2 & P2 & L2). specialize (IH x2 s2 H2) as IH2.
    destruct (iterate p body x2 s2) as [[[x3|r] s3]| |]; try done.
    destruct IH2 as (H3 & P3 & L3). simpl. split; [done|]. lia.
  - specialize (IH x s Hx) as IH1.
    destruct (iterate p body x s) as [[[x2|r] s2]| |]; try done.
    destruct IH1 as (H2 & P2 & L2). specialize (IH x2 s2 H2) as IH2.
    destruct (iterate p body x2 s2) as [[[x3|r] s3]| |]; try done.
    destruct IH2 as (H3 & P3 & L3). simpl. split; [done|]. lia.
  - specialize (turn_faults x s Hx).
    destruct (body x s) as [[[x1|r] s1]| |]; try done.
    destruct turn_faults. simpl. split; [done|]. lia.
Qed.

Lemma loop_faults x s : I x s -> m x s < 2 ^ 65 -> loop body x s = Fault.
Proof.
  intros Hx Hm. unfold loop, bind.
  pose proof (iterate_faults loop_bound x s Hx) as H.
  destruct (iterate loop_bound body x s) as [[[x1|r] s1]| |]; try done.
  destruct H as (_ & ? & ?). unfold loop_bound in *. lia.
Qed.
End FaultRule.

(** A loop whose every turn leads to the next one never ends. *)
Lemma loop_spins body (I : X -> S -> Prop) x s :
  (forall x s, I x s -> exists x' s', body x s = Ok (Next x', s') /\ I x' s') -> I x s -> loop body x s = Spin.
Proof using Type.
  intros Hturn Hx. assert (forall p x s, I x s -> exists x' s', iterate p body x s = Ok (Next x', s') /\ I x' s') as Hp.
  { intros p. induction p as [p IH|p IH|]; intros y t Hy; cbn [iterate]; unfold bind; [|..|by apply Hturn].
    - destruct (Hturn y t Hy) as (y1 & t1 & -> & H1). destruct (IH y1 t1 H1) as (y2 & t2 & -> & H2). by apply IH.
    - destruct (IH y t Hy) as (y1 & t1 & -> & H1). by apply IH. }
  unfold loop, bind. by destruct (Hp loop_bound x s Hx) as (x' & s' & -> & _).
Qed.
End Loops.

#[global] Arguments loop : simpl never.
#[global] Opaque loop.
#[global] Arguments wrap : simpl never.
#[global] Arguments swrap : simpl never.

(** [for_ lo hi body]: [for (i = lo; i < hi; i++) body(i)]. *)
Definition for_ {S} (lo hi : Z) (body : Z -> prog S unit) : prog S unit :=
  loop (fun i => if i <? hi then body i ;; ret (Next (i + 1)) else ret (Done tt)) lo.

Lemma wp_for {S} (lo hi : Z) (body : Z -> prog S unit) (I : Z -> S -> Prop) Q s :
  lo <= hi -> hi - lo < 2 ^ 64 ->
  I lo s ->
  (forall i s, lo <= i < hi -> I i s -> wp (body i) (fun _ s' => I (i + 1) s') s) ->
  (forall s, I hi s -> Q tt s) ->
  wp (for_ lo hi body) Q s.
Proof.
  intros Hlo Hb H0 Hbody HQ. unfold for_.
  apply wp_loop with (I := fun i s => lo <= i <= hi /\ I i s)
                     (m := fun i _ => hi - i); [|auto with lia|lia].
  intros i t [Hi Ht]. destruct (Z.ltb_spec i hi).
  - apply wp_bind. eapply wp_mono; [apply Hbody; auto with lia|].
    intros u t' Ht'. apply wp_ret. cbn [turn]. split; [split; [lia|done]|lia].
  - apply wp_ret. apply HQ. assert (i = hi) as -> by lia. done.
Qed.

(** Symbolic execution: one primitive command of the goal's program. *)
Ltac wp_step :=
  lazymatch goal with
  | |- wp (bind _ _) _ _ => apply wp_bind
  | |- wp (ret _) _ _ => apply wp_ret
  | |- wp get _ _ => apply wp_get
  | |- wp (put _) _ _ => apply wp_put
  | |- wp (gets _) _ _ => apply wp_gets
  | |- wp (modify _) _ _ => apply wp_modify
  | |- wp (match ?b with true => _ | false => _ end) _ _ =>
      let b' := eval cbn [negb andb orb Z.eqb Pos.eqb] in b in
      first [ constr_eq b' true; change b with true; cbv iota
            | constr_eq b' false; change b with false; cbv iota
            | let E := fresh "E" in destruct b eqn:E ]
  | |- wp (let '(_, _) := ?p in _) _ _ => destruct p
  end; cbn beta iota.
Ltac wp_steps := repeat wp_step.
