(* ===== verification/Digits.v ===== *)
(** * Numbers as digits

    Positional notation as [console_print_uint] (kernel/console.c) and
    [format_int] (libc/src/stdio/printf.c) produce it: [numeral base v ds]
    says that [ds] are the digits of [v], [partial] describes a conversion in
    progress, and [to_digits] computes the digits. *)

From S2P Require Import Prelude.

(** The value of digits, most significant first. *)
Definition digits_value (base : Z) (ds : list Z) : Z := fold_left (fun acc d => acc * base + d) ds 0.

Lemma digits_value_cons base d ds :
  digits_value base (d :: ds) = d * base ^ Z.of_nat (length ds) + digits_value base ds.
Proof.
  assert (forall ds a, fold_left (fun acc d => acc * base + d) ds a =
                       a * base ^ Z.of_nat (length ds) + fold_left (fun acc d => acc * base + d) ds 0) as Hf.
  { clear. induction ds as [|e ds IH]; intros a; cbn [fold_left length]; [lia|].
    rewrite IH, (IH (0 * base + e)), Nat2Z.inj_succ, Z.pow_succ_r by lia. lia. }
  unfold digits_value. cbn [fold_left]. by rewrite Hf.
Qed.

(** [ds] are the digits of [v], without leading zeros. *)
Record numeral (base v : Z) (ds : list Z) : Prop := {
  nu_digits : Forall (fun d => 0 <= d < base) ds;
  nu_value : digits_value base ds = v;
  nu_lead : v <> 0 -> exists d ds', ds = d :: ds' /\ d <> 0;
}.

(** In the middle of the conversion: [rest] is still to be converted. *)
Record partial (base v rest : Z) (ds : list Z) : Prop := {
  pa_digits : Forall (fun d => 0 <= d < base) ds;
  pa_rest : 0 <= rest;
  pa_value : rest * base ^ Z.of_nat (length ds) + digits_value base ds = v;
  pa_lead : rest = 0 -> v <> 0 -> exists d ds', ds = d :: ds' /\ d <> 0;
}.

Lemma digits_value_nonneg base ds : 0 < base -> Forall (fun d => 0 <= d < base) ds -> 0 <= digits_value base ds.
Proof.
  intros Hb. induction 1 as [|d ds Hd Hds IH]; [done|]. rewrite digits_value_cons.
  assert (0 <= base ^ Z.of_nat (length ds)) by (apply Z.pow_nonneg; lia). nia.
Qed.

Lemma partial_step base v rest ds : 2 <= base -> 0 < rest -> partial base v rest ds ->
  partial base v (rest / base) (rest mod base :: ds).
Proof.
  intros Hb Hr [H1 H2 H3 H4]. pose proof (Z.mod_pos_bound rest base ltac:(lia)).
  pose proof (Z.div_mod rest base ltac:(lia)). constructor.
  - by constructor.
  - apply Z.div_pos; lia.
  - rewrite digits_value_cons. cbn [length]. rewrite Nat2Z.inj_succ, Z.pow_succ_r by lia. rewrite <- H3.
    rewrite H0 at 3. nia.
  - intros E _. exists (rest mod base), ds. split; [done|]. lia.
Qed.

(** A number below [2 ^ k] has at most [k] digits. *)
Lemma partial_short k base v rest ds : 2 <= base -> v < 2 ^ Z.of_nat k -> 0 < rest -> partial base v rest ds ->
  (length ds < k)%nat.
Proof.
  intros Hb Hv Hr [H1 H2 H3 H4]. pose proof (digits_value_nonneg base ds ltac:(lia) H1).
  assert (2 ^ Z.of_nat (length ds) <= base ^ Z.of_nat (length ds)) by (apply Z.pow_le_mono_l; lia).
  destruct (decide (length ds < k)%nat) as [|Hge]; [done|].
  assert (2 ^ Z.of_nat k <= 2 ^ Z.of_nat (length ds)) by (apply Z.pow_le_mono_r; lia). nia.
Qed.

Lemma partial_done base v ds : partial base v 0 ds -> numeral base v ds.
Proof. intros [H1 H2 H3 H4]. constructor; [done|lia|auto]. Qed.

(** ** The digits of a number *)

(** The last [k] digits; all of them when [v < base ^ k]. *)
Fixpoint to_digits (k : nat) (base v : Z) : list Z :=
  match k with
  | O => []
  | S k => if v <=? 0 then [] else to_digits k base (v / base) ++ [v mod base]
  end.

Lemma digits_value_app base ds1 ds2 :
  digits_value base (ds1 ++ ds2) = digits_value base ds1 * base ^ Z.of_nat (length ds2) + digits_value base ds2.
Proof.
  induction ds1 as [|d ds1 IH]; [done|]. cbn [app]. rewrite !digits_value_cons, IH, length_app, Nat2Z.inj_add.
  rewrite Z.pow_add_r by lia. lia.
Qed.

Lemma to_digits_numeral k base : 2 <= base -> forall v, 0 <= v < 2 ^ Z.of_nat k -> numeral base v (to_digits k base v).
Proof.
  intros Hb. induction k as [|k IH]; intros v Hv; cbn [to_digits].
  { assert (v = 0) as -> by (change (2 ^ Z.of_nat 0) with 1 in Hv; lia). by constructor. }
  destruct (Z.leb_spec v 0); [assert (v = 0) as -> by lia; by constructor|].
  pose proof (Z.mod_pos_bound v base ltac:(lia)). pose proof (Z.div_mod v base ltac:(lia)).
  rewrite Nat2Z.inj_succ, Z.pow_succ_r in Hv by lia.
  assert (0 <= v / base < 2 ^ Z.of_nat k) as Hq.
  { split; [apply Z.div_pos; lia|]. apply Z.div_lt_upper_bound; nia. }
  destruct (IH _ Hq) as [Hd Hval Hlead]. constructor.
  - apply Forall_app. auto.
  - rewrite digits_value_app, Hval. unfold digits_value. cbn [length fold_left]. lia.
  - intros _. destruct (decide (v / base = 0)) as [E|E].
    + exists (v mod base), []. split; [|lia]. rewrite E. by destruct k.
    + destruct (Hlead E) as (d & ds' & -> & Hnz). by exists d, (ds' ++ [v mod base]).
Qed.

Lemma to_digits_nonzero k base v : 0 < v -> k <> O -> to_digits k base v <> [].
Proof.
  intros Hv Hk. destruct k; [done|]. cbn. rewrite (proj2 (Z.leb_gt v 0)) by done. by destruct (to_digits _ _ _).
Qed.

Lemma to_digits_length k base v : (length (to_digits k base v) <= k)%nat.
Proof.
  revert v. induction k as [|k IH]; intros v; cbn; [done|]. destruct (v <=? 0); [cbn; lia|].
  rewrite length_app. specialize (IH (v / base)). cbn. lia.
Qed.

(** The character of a digit: 0 to 9, then A to Z. *)
Definition digit_char (d : Z) : Z := if d <? 10 then 48 + d else 65 + d - 10.

Lemma to_digits_short k base n : 2 <= base -> forall v, v < base ^ Z.of_nat n -> (length (to_digits k base v) <= n)%nat.
Proof.
  intros Hb. revert n. induction k as [|k IH]; intros n v Hv; cbn [to_digits]; [cbn; lia|].
  destruct (Z.leb_spec v 0); [cbn; lia|]. destruct n as [|n]; [change (base ^ Z.of_nat 0) with 1 in Hv; lia|].
  rewrite Nat2Z.inj_succ, Z.pow_succ_r in Hv by lia. rewrite length_app. cbn [length].
  specialize (IH n (v / base)). assert (v / base < base ^ Z.of_nat n) by (apply Z.div_lt_upper_bound; lia). 
  specialize (IH H0). lia.
Qed.
