(* ===== verification/CMem.v ===== *)
(** * Byte-addressed memory

    The memory of a C program as the string functions of [libc/src/string/]
    and the heap of [kernel/mm.c] see it: a finite map from addresses to
    bytes.  An address outside the map is unmapped: reading or writing it is
    [Fault].  64-bit accesses are little endian and may be unaligned, as on
    the x86-64 the code is compiled for. *)

From S2P Require Import Prelude.

Abbreviation mem := (gmap Z Z).

(** ** Access *)

Definition load8 (a : Z) : prog mem Z := getf (fun m => m !! a).

Definition store8 (a v : Z) : prog mem unit :=
  fun m => match m !! a with
           | Some _ => Ok (tt, <[a := u8 v]> m)
           | None => Fault
           end.

(** Little-endian words. *)
Fixpoint le_join (l : list Z) : Z :=
  match l with
  | [] => 0
  | b :: l => b + 256 * le_join l
  end.

Fixpoint le_bytes (n : nat) (w : Z) : list Z :=
  match n with
  | O => []
  | S n => w mod 256 :: le_bytes n (w / 256)
  end.

Fixpoint loads (n : nat) (a : Z) : prog mem (list Z) :=
  match n with
  | O => ret []
  | S n => let* b := load8 a in let* l := loads n (a + 1) in ret (b :: l)
  end.

Fixpoint stores (a : Z) (l : list Z) : prog mem unit :=
  match l with
  | [] => ret tt
  | b :: l => store8 a b ;; stores (a + 1) l
  end.

Definition load64 (a : Z) : prog mem Z :=
  let* l := loads 8 a in ret (le_join l).

Definition store64 (a w : Z) : prog mem unit := stores a (le_bytes 8 w).

(** [*p] for a [const char *p]: [char] is signed on x86. *)
Definition load_char (a : Z) : prog mem Z :=
  let* b := load8 a in ret (s8 b).

(** ** Specification vocabulary *)

(** The bytes [l] lie at [a]. *)
Definition bytes_at (m : mem) (a : Z) (l : list Z) : Prop :=
  forall i b, l !! i = Some b -> m !! (a + Z.of_nat i) = Some b.

(** [n] bytes from [a] are mapped. *)
Definition mapped (m : mem) (a n : Z) : Prop :=
  forall k, a <= k < a + n -> is_Some (m !! k).

Definition byte (b : Z) : Prop := 0 <= b < 256.

(** Memory [m] with the bytes [l] written at [a]. *)
Fixpoint write (a : Z) (l : list Z) (m : mem) : mem :=
  match l with
  | [] => m
  | b :: l => write (a + 1) l (<[a := b]> m)
  end.

(** ** Lemmas *)

Section Bytes.
Implicit Types (m : mem) (a k : Z) (l : list Z).

Lemma write_lookup_out l : forall a m k,
  k < a \/ a + Z.of_nat (length l) <= k -> write a l m !! k = m !! k.
Proof.
  induction l as [|b l IH]; intros a m k Hk; [done|].
  cbn [write length] in *. rewrite IH by lia. apply lookup_insert_ne. lia.
Qed.

Lemma write_lookup_in l : forall a m i b,
  l !! i = Some b -> write a l m !! (a + Z.of_nat i) = Some b.
Proof.
  induction l as [|c l IH]; intros a m i b Hi; [done|].
  destruct i as [|i]; cbn [write].
  - simplify_eq/=. rewrite write_lookup_out by lia.
    rewrite Z.add_0_r. apply lookup_insert_eq.
  - replace (a + Z.of_nat (S i)) with (a + 1 + Z.of_nat i) by lia.
    by apply IH.
Qed.

Lemma write_bytes_at a l m : bytes_at (write a l m) a l.
Proof. intros i b. apply write_lookup_in. Qed.

Lemma write_app l1 : forall l2 a m,
  write a (l1 ++ l2) m = write (a + Z.of_nat (length l1)) l2 (write a l1 m).
Proof.
  induction l1 as [|b l1 IH]; intros l2 a m; simpl.
  - by rewrite Z.add_0_r.
  - rewrite IH. f_equal. lia.
Qed.

Lemma write_mapped a l m b n : mapped m b n -> mapped (write a l m) b n.
Proof.
  intros H k Hk.
  destruct (decide (a <= k < a + Z.of_nat (length l))) as [Hin|].
  - destruct (lookup_lt_is_Some_2 l (Z.to_nat (k - a))) as [c Hc]; [lia|].
    exists c. rewrite <- (write_lookup_in l a m _ _ Hc). f_equal. lia.
  - rewrite write_lookup_out by lia. by apply H.
Qed.

Lemma bytes_at_mapped m a l : bytes_at m a l -> mapped m a (Z.of_nat (length l)).
Proof.
  intros H k Hk.
  destruct (lookup_lt_is_Some_2 l (Z.to_nat (k - a))) as [c Hc]; [lia|].
  exists c. rewrite <- (H _ _ Hc). f_equal. lia.
Qed.

Lemma bytes_at_cons m a b l :
  bytes_at m a (b :: l) <-> m !! a = Some b /\ bytes_at m (a + 1) l.
Proof.
  split.
  - intros H. split; [specialize (H 0%nat b eq_refl); by rewrite Z.add_0_r in H|].
    intros i c Hi. rewrite <- (H (S i) c Hi). f_equal. lia.
  - intros [Hb H] [|i] c Hi; simplify_eq/=; [by rewrite Z.add_0_r|].
    rewrite <- (H i c Hi). f_equal. lia.
Qed.

Lemma bytes_at_app m a l1 l2 :
  bytes_at m a (l1 ++ l2) <->
  bytes_at m a l1 /\ bytes_at m (a + Z.of_nat (length l1)) l2.
Proof.
  revert a. induction l1 as [|b l1 IH]; intros a; simpl.
  - rewrite Z.add_0_r. split; [|tauto]. intros H; split; [|done].
    intros i c Hi; done.
  - rewrite !bytes_at_cons, IH.
    replace (a + Z.of_nat (S (length l1))) with (a + 1 + Z.of_nat (length l1)) by lia.
    tauto.
Qed.

Lemma bytes_at_write_out m a l b l' :
  bytes_at m b l' ->
  (b + Z.of_nat (length l') <= a \/ a + Z.of_nat (length l) <= b) ->
  bytes_at (write a l m) b l'.
Proof.
  intros H Hd i c Hi. apply lookup_lt_Some in Hi as Hlt.
  rewrite write_lookup_out by lia. by apply H.
Qed.

Lemma mapped_le m a n b k : mapped m a n -> a <= b -> b + k <= a + n -> mapped m b k.
Proof. intros H ?? j Hj. apply H. lia. Qed.

Lemma le_bytes_join l : Forall byte l -> le_bytes (length l) (le_join l) = l.
Proof.
  unfold byte. induction 1 as [|b l Hb Hl IH]; [done|]; cbn [le_join le_bytes length].
  assert ((b + 256 * le_join l) mod 256 = b) as ->
    by (rewrite Z.mul_comm, Z_mod_plus_full; by apply Z.mod_small).
  assert ((b + 256 * le_join l) / 256 = le_join l) as ->
    by (rewrite Z.mul_comm, Z.div_add, Z.div_small by lia; lia).
  by rewrite IH.
Qed.

Lemma le_bytes_byte n : forall w, Forall byte (le_bytes n w).
Proof.
  induction n; intros w; simpl; constructor; [|done].
  apply Z.mod_pos_bound. lia.
Qed.

Lemma le_bytes_length n : forall w, length (le_bytes n w) = n.
Proof. induction n; intros; simpl; auto. Qed.

Lemma le_join_bound l : Forall byte l -> 0 <= le_join l < 256 ^ Z.of_nat (length l).
Proof.
  unfold byte. induction 1 as [|b l Hb Hl IH]; cbn [le_join length]; [done|].
  rewrite Nat2Z.inj_succ, Z.pow_succ_r by lia. lia.
Qed.

Lemma le_join_inj l1 l2 :
  Forall byte l1 -> Forall byte l2 -> length l1 = length l2 ->
  le_join l1 = le_join l2 -> l1 = l2.
Proof.
  intros H1 H2 Hl He.
  rewrite <- (le_bytes_join l1), <- (le_bytes_join l2) by done. by rewrite Hl, He.
Qed.
End Bytes.

(** ** Access rules *)

Section Access.
Implicit Types (m : mem) (a : Z).

Lemma wp_load8 a b Q m : m !! a = Some b -> Q b m -> wp (load8 a) Q m.
Proof. intros. by apply wp_getf with b. Qed.

Lemma wp_load_char a b Q m : m !! a = Some b -> Q (s8 b) m -> wp (load_char a) Q m.
Proof. intros. apply wp_bind, wp_load8 with b; [done|]. by apply wp_ret. Qed.

Lemma wp_store8 a v (Q : unit -> mem -> Prop) m :
  is_Some (m !! a) -> Q tt (<[a := u8 v]> m) -> wp (store8 a v) Q m.
Proof. unfold wp, store8. by intros [c ->]. Qed.

Lemma wp_loads l : forall a (Q : list Z -> mem -> Prop) m,
  bytes_at m a l -> Q l m -> wp (loads (length l) a) Q m.
Proof.
  induction l as [|b l IH]; intros a Q m H HQ; cbn [loads length]; [by apply wp_ret|].
  apply bytes_at_cons in H as [Hb H].
  apply wp_bind, wp_load8 with b; [done|]. apply wp_bind, IH; [done|]. by apply wp_ret.
Qed.

Lemma wp_stores l : forall a (Q : unit -> mem -> Prop) m,
  mapped m a (Z.of_nat (length l)) -> Forall byte l -> Q tt (write a l m) ->
  wp (stores a l) Q m.
Proof.
  induction l as [|b l IH]; intros a Q m H Hl HQ; cbn [stores write length] in *;
    [by apply wp_ret|].
  apply Forall_cons in Hl as [Hb Hl].
  assert (u8 b = b) as Eb by (apply wrap_small; exact Hb).
  apply wp_bind, wp_store8; [apply H; lia|]. rewrite Eb.
  apply IH; [|done|done]. apply write_mapped with (a := a) (l := [b]).
  apply mapped_le with (1 := H); lia.
Qed.

Lemma wp_load64 l a (Q : Z -> mem -> Prop) m :
  bytes_at m a l -> length l = 8%nat -> Q (le_join l) m -> wp (load64 a) Q m.
Proof.
  intros Hb Hl HQ. unfold load64. rewrite <- Hl.
  apply wp_bind, wp_loads; [done|]. by apply wp_ret.
Qed.

(** Storing a word read as [l] writes the bytes [l] back. *)
Lemma wp_store64 l a (Q : unit -> mem -> Prop) m :
  Forall byte l -> length l = 8%nat -> mapped m a 8 -> Q tt (write a l m) ->
  wp (store64 a (le_join l)) Q m.
Proof.
  intros Hb Hl Hm HQ. unfold store64. rewrite <- Hl, le_bytes_join by done.
  apply wp_stores; [by rewrite Hl|done|done].
Qed.
End Access.

(** Memory cleared from [a] on, for examples. *)
Lemma zeros_mapped a n m : mapped (write a (replicate n 0) m) a (Z.of_nat n).
Proof.
  pose proof (bytes_at_mapped _ _ _ (write_bytes_at a (replicate n 0) m)) as H.
  by rewrite length_replicate in H.
Qed.
