(* ===== verification/MemFns.v ===== *)
(** * The memory routines of [libc/src/string/memcpy.c]

    [memcpy], [memmove], [memset], [memcmp], [memchr] and [memrchr] over the
    byte memory of [CMem], each loop of the source a [loop], each 8-byte
    access a [load64]/[store64].  The theorems give each routine its
    mathematical effect: the word-at-a-time code computes what the
    byte-at-a-time specification says, without touching any byte outside its
    arguments. *)

From S2P Require Import Prelude CMem.

(** ** Definitions *)

(** [while (n--) *d++ = *s++;] *)
Definition copy_forward (d s n : Z) : prog mem unit :=
  loop (fun '(d, s, n) =>
    if n =? 0 then ret (Done tt)
    else let* b := load8 s in
         store8 d b ;;
         ret (Next (d + 1, s + 1, n - 1))) (d, s, n).

(** [while (((uintptr_t)d & 7) && n)] of [memcpy]. *)
Definition copy_align (d s n : Z) : prog mem (Z * Z * Z) :=
  loop (fun '(d, s, n) =>
    if negb (Z.land d 7 =? 0) && negb (n =? 0)
    then let* b := load8 s in
         store8 d b ;;
         ret (Next (d + 1, s + 1, n - 1))
    else ret (Done (d, s, n))) (d, s, n).

(** [while (n >= 8)] of [memcpy]. *)
Definition copy_words (d s n : Z) : prog mem (Z * Z * Z) :=
  loop (fun '(d, s, n) =>
    if 8 <=? n
    then let* w := load64 s in
         store64 d w ;;
         ret (Next (d + 8, s + 8, n - 8))
    else ret (Done (d, s, n))) (d, s, n).

Definition memcpy (dest src n : Z) : prog mem Z :=
  if n <? 8 then
    copy_forward dest src n ;; ret dest
  else
    let* (d, s, n) := copy_align dest src n in
    let* (d, s, n) := copy_words d s n in
    copy_forward d s n ;;
    ret dest.

Definition memmove (dest src n : Z) : prog mem Z :=
  if (dest <=? src) || (src + n <=? dest) then memcpy dest src n
  else
    loop (fun '(d, s, n) =>
      if n =? 0 then ret (Done tt)
      else let* b := load8 s in
           store8 d b ;;
           ret (Next (d - 1, s - 1, n - 1)))
      (dest + (n - 1), src + (n - 1), n) ;;
    ret dest.

(** The 64-bit pattern [value64] of [memset]. *)
Definition value64 (value : Z) : Z :=
  Z.lor (Z.shiftl value 56) (Z.lor (Z.shiftl value 48) (Z.lor (Z.shiftl value 40)
    (Z.lor (Z.shiftl value 32) (Z.lor (Z.shiftl value 24) (Z.lor (Z.shiftl value 16)
      (Z.lor (Z.shiftl value 8) value)))))).

Definition memset (s c n : Z) : prog mem Z :=
  let value := u8 c in
  let* (p, n) := loop (fun '(p, n) =>
    if negb (Z.land p 7 =? 0) && negb (n =? 0)
    then store8 p value ;; ret (Next (p + 1, n - 1))
    else ret (Done (p, n))) (s, n) in
  let* (p, n) := loop (fun '(p, n) =>
    if 8 <=? n
    then store64 p (value64 value) ;; ret (Next (p + 8, n - 8))
    else ret (Done (p, n))) (p, n) in
  loop (fun '(p, n) =>
    if n =? 0 then ret (Done tt)
    else store8 p value ;; ret (Next (p + 1, n - 1))) (p, n) ;;
  ret s.

(** The byte scan inside [memcmp]'s word loop: the first difference among
    [p1[i..7]] and [p2[i..7]], if any. *)
Definition memcmp_word (p1 p2 : Z) : prog mem (option Z) :=
  loop (fun i =>
    if i <? 8 then
      let* c1 := load8 (p1 + i) in
      let* c2 := load8 (p2 + i) in
      if c1 =? c2 then ret (Next (i + 1)) else ret (Done (Some (c1 - c2)))
    else ret (Done None)) 0.

Definition memcmp (s1 s2 n : Z) : prog mem Z :=
  let* r := loop (fun '(p1, p2, n) =>
    if 8 <=? n then
      let* v1 := load64 p1 in
      let* v2 := load64 p2 in
      let* d := (if v1 =? v2 then ret None else memcmp_word p1 p2) in
      match d with
      | Some c => ret (Done (inr c))
      | None => ret (Next (p1 + 8, p2 + 8, n - 8))
      end
    else ret (Done (inl (p1, p2, n)))) (s1, s2, n) in
  match r with
  | inr c => ret c
  | inl x =>
      loop (fun '(p1, p2, n) =>
        if n =? 0 then ret (Done 0)
        else
          let* c1 := load8 p1 in
          let* c2 := load8 p2 in
          if c1 =? c2 then ret (Next (p1 + 1, p2 + 1, n - 1))
          else ret (Done (c1 - c2))) x
  end.

Definition memchr (s c n : Z) : prog mem Z :=
  let value := u8 c in
  loop (fun '(p, n) =>
    if n =? 0 then ret (Done 0)
    else
      let* b := load8 p in
      if b =? value then ret (Done p) else ret (Next (p + 1, n - 1))) (s, n).

Definition memrchr (s c n : Z) : prog mem Z :=
  let value := u8 c in
  loop (fun '(p, n) =>
    if n =? 0 then ret (Done 0)
    else
      let* b := load8 p in
      if b =? value then ret (Done p) else ret (Next (p - 1, n - 1))) (s + n - 1, n).

(** ** Specifications on lists *)

(** The difference of the first two bytes that differ, else 0. *)
Fixpoint cmp_bytes (l1 l2 : list Z) : Z :=
  match l1, l2 with
  | b1 :: l1, b2 :: l2 => if b1 =? b2 then cmp_bytes l1 l2 else b1 - b2
  | _, _ => 0
  end.

(** ** Copying *)

(** The copies in progress that will end in memory [M]: [l] is still to be
    copied from [s] to [d], and the part of the source not yet read does not
    meet the part of the destination about to be written. *)
Definition copying (M : mem) (x : Z * Z * Z) (m : mem) : Prop :=
  let '(d, s, n) := x in
  exists l, n = Z.of_nat (length l) /\ n < 2 ^ 64 /\ Forall byte l /\
    bytes_at m s l /\ mapped m d n /\ (d <= s \/ s + n <= d) /\ write d l m = M.

Section Copying.
Context (M : mem).
Implicit Types (m : mem) (d s n : Z).

Lemma copying_byte d s n m :
  copying M (d, s, n) m -> n <> 0 ->
  exists b, m !! s = Some b /\ is_Some (m !! d) /\
    copying M (d + 1, s + 1, n - 1) (<[d := u8 b]> m).
Proof.
  intros (l & -> & Hn & Hl & Hs & Hd & Hov & HM) Hn0.
  destruct l as [|b l]; [done|]. cbn [length] in *.
  apply Forall_cons in Hl as [Hb Hl]. apply bytes_at_cons in Hs as [Hsb Hs].
  exists b. split; [done|]. split; [apply Hd; lia|].
  assert (u8 b = b) as -> by (apply wrap_small; exact Hb).
  exists l. repeat split; [lia|lia|done| | |lia|done].
  - apply (bytes_at_write_out m d [b]); [done|]. cbn [length]. lia.
  - apply (write_mapped d [b]). apply mapped_le with (1 := Hd); lia.
Qed.

Lemma copying_word d s n m :
  copying M (d, s, n) m -> 8 <= n ->
  exists l8, length l8 = 8%nat /\ Forall byte l8 /\ bytes_at m s l8 /\ mapped m d 8 /\
    copying M (d + 8, s + 8, n - 8) (write d l8 m).
Proof.
  intros (l & -> & Hn & Hl & Hs & Hd & Hov & HM) Hn8.
  assert (length (take 8 l) = 8%nat) as H8 by (rewrite length_take; lia).
  assert (length (drop 8 l) = (length l - 8)%nat) as Hr by (rewrite length_drop; lia).
  pose proof (take_drop 8 l) as El.
  rewrite <- El in Hs, Hl, HM. apply bytes_at_app in Hs as [Hs8 Hs].
  apply Forall_app in Hl as [Hl8 Hl]. rewrite write_app in HM. rewrite H8 in Hs, HM.
  exists (take 8 l). repeat split; [done..|apply mapped_le with (1 := Hd); lia|].
  exists (drop 8 l). repeat split; [lia|lia|done| | |lia|done].
  - apply bytes_at_write_out; [done|]. lia.
  - apply write_mapped, mapped_le with (1 := Hd); lia.
Qed.

Lemma copying_done d s m : copying M (d, s, 0) m -> m = M.
Proof. intros (l & Hl & _ & _ & _ & _ & _ & HM). by destruct l. Qed.

Lemma copying_bound d s n m : copying M (d, s, n) m -> 0 <= n < 2 ^ 64.
Proof. intros (l & -> & ? & _). lia. Qed.

Lemma wp_copy_forward d s n m :
  copying M (d, s, n) m -> wp (copy_forward d s n) (fun _ m' => m' = M) m.
Proof.
  intros H. unfold copy_forward.
  apply wp_loop with (I := copying M) (m := fun '(_, _, n) _ => n);
    [clear|done|apply copying_bound in H; lia].
  intros [[d s] n] m H. apply copying_bound in H as Hb. wp_step.
  - apply Z.eqb_eq in E as ->. apply wp_ret. by apply copying_done in H.
  - apply Z.eqb_neq in E. apply copying_byte in H as (b & Hs & Hd & H); [|done].
    apply wp_bind, wp_load8 with b; [done|]. apply wp_bind, wp_store8; [done|].
    apply wp_ret. split; [done|lia].
Qed.

Lemma wp_copy_align d s n m :
  copying M (d, s, n) m -> wp (copy_align d s n) (copying M) m.
Proof.
  intros H. unfold copy_align.
  apply wp_loop with (I := copying M) (m := fun '(_, _, n) _ => n);
    [clear|done|apply copying_bound in H; lia].
  intros [[d s] n] m H. apply copying_bound in H as Hb. wp_step.
  - apply andb_prop in E as [_ E]. apply negb_true_iff, Z.eqb_neq in E.
    apply copying_byte in H as (b & Hs & Hd & H); [|done].
    apply wp_bind, wp_load8 with b; [done|]. apply wp_bind, wp_store8; [done|].
    apply wp_ret. split; [done|lia].
  - by apply wp_ret.
Qed.

Lemma wp_copy_words d s n m :
  copying M (d, s, n) m -> wp (copy_words d s n) (copying M) m.
Proof.
  intros H. unfold copy_words.
  apply wp_loop with (I := copying M) (m := fun '(_, _, n) _ => n);
    [clear|done|apply copying_bound in H; lia].
  intros [[d s] n] m H. apply copying_bound in H as Hb. wp_step.
  - apply Z.leb_le in E.
    apply copying_word in H as (l8 & H8 & Hl8 & Hs & Hd & H); [|done].
    apply wp_bind, wp_load64 with l8; [done..|].
    apply wp_bind, wp_store64; [done..|].
    apply wp_ret. split; [done|lia].
  - by apply wp_ret.
Qed.

Lemma wp_memcpy d s n m :
  copying M (d, s, n) m -> wp (memcpy d s n) (fun r m' => r = d /\ m' = M) m.
Proof.
  intros H. unfold memcpy. wp_step.
  - wp_step. eapply wp_mono; [by apply wp_copy_forward|].
    intros _ m' ->. by apply wp_ret.
  - wp_step. eapply wp_mono; [by apply wp_copy_align|]. intros [[d1 s1] n1] m1 H1.
    wp_step. eapply wp_mono; [by apply wp_copy_words|]. intros [[d2 s2] n2] m2 H2.
    wp_step. eapply wp_mono; [by apply wp_copy_forward|].
    intros _ m' ->. by apply wp_ret.
Qed.
End Copying.

(** A copy whose destination is not ahead of an overlapping source. *)
Lemma memcpy_ok d s l m :
  Forall byte l -> Z.of_nat (length l) < 2 ^ 64 ->
  bytes_at m s l -> mapped m d (Z.of_nat (length l)) ->
  (d <= s \/ s + Z.of_nat (length l) <= d) ->
  memcpy d s (Z.of_nat (length l)) m = Ok (d, write d l m).
Proof.
  intros. apply wp_det, wp_memcpy. exists l. auto 8.
Qed.

Lemma write_insert_comm l : forall a k b m,
  k < a \/ a + Z.of_nat (length l) <= k ->
  write a l (<[k := b]> m) = <[k := b]> (write a l m).
Proof.
  induction l as [|c l IH]; intros a k b m Hk; [done|]. cbn [write length] in *.
  rewrite insert_insert_ne by lia. apply IH. lia.
Qed.

(** [memmove] copies the bytes of the source to the destination,
    however the two ranges overlap, and returns the destination. *)
Theorem memmove_correct d s l m :
  Forall byte l -> Z.of_nat (length l) < 2 ^ 64 ->
  bytes_at m s l -> mapped m d (Z.of_nat (length l)) ->
  memmove d s (Z.of_nat (length l)) m = Ok (d, write d l m).
Proof.
  intros Hl Hlen Hs Hd. unfold memmove.
  destruct ((d <=? s) || (s + Z.of_nat (length l) <=? d)) eqn:E.
  { apply orb_prop in E. apply memcpy_ok; auto.
    destruct E as [E|E]; apply Z.leb_le in E; auto. }
  apply orb_false_elim in E as [E1 E2]. apply Z.leb_gt in E1, E2.
  apply wp_det, wp_bind.
  apply wp_mono with (P := fun _ m' => m' = write d l m); [|intros _ ? ->; by apply wp_ret].
  apply wp_loop with (m := fun '(_, _, n) _ => n)
    (I := fun '(d', s', n) m' => exists l', n = Z.of_nat (length l') /\
       d' = d + (n - 1) /\ s' = s + (n - 1) /\ Forall byte l' /\
       bytes_at m' s l' /\ mapped m' d n /\ write d l' m' = write d l m);
    [|by exists l; auto 8|lia].
  clear Hs Hd Hl. intros [[d' s'] n] m' (l' & -> & -> & -> & Hl & Hs & Hd & HM). wp_step.
  { destruct l'; [|done]. by apply wp_ret. }
  destruct l' as [|b l0 _] using rev_ind; [done|].
  rewrite length_app in *. cbn [length] in *. rewrite Nat2Z.inj_add in *.
  apply Forall_app in Hl as [Hl Hb]. apply Forall_cons in Hb as [Hb _].
  apply bytes_at_app in Hs as [Hs Hsb]. rewrite bytes_at_cons in Hsb. destruct Hsb as [Hsb _].
  assert (u8 b = b) as Eb by (apply wrap_small; exact Hb).
  apply wp_bind, wp_load8 with b; [rewrite <- Hsb; f_equal; lia|].
  apply wp_bind, wp_store8; [apply Hd; lia|]. rewrite Eb. apply wp_ret.
  split; [|lia]. exists l0. repeat split; [lia..|done| | |].
  - apply (bytes_at_write_out m' _ [b]); [done|]. cbn [length]. lia.
  - apply (write_mapped _ [b]), mapped_le with (1 := Hd); lia.
  - rewrite write_app in HM. cbn [write] in HM. rewrite <- HM.
    rewrite write_insert_comm by lia. f_equal. lia.
Qed.

(** ** Filling *)

Lemma value64_join v : byte v -> value64 v = le_join (replicate 8 v).
Proof.
  unfold byte. intros Hv.
  assert (forallb (fun i => value64 (Z.of_nat i) =? le_join (replicate 8 (Z.of_nat i)))
                  (seq 0 256) = true) as H by (vm_compute; reflexivity).
  rewrite forallb_forall in H. apply Z.eqb_eq. rewrite <- (Z2Nat.id v) by lia.
  apply H, in_seq. lia.
Qed.

(** The fills in progress that will end in memory [M]. *)
Definition filling (v : Z) (M : mem) (x : Z * Z) (m : mem) : Prop :=
  let '(p, n) := x in
  0 <= n < 2 ^ 64 /\ mapped m p n /\ write p (replicate (Z.to_nat n) v) m = M.

Section Filling.
Context (v : Z) (M : mem) (Hv : byte v).

Lemma filling_step k p n m :
  filling v M (p, n) m -> Z.of_nat k <= n ->
  filling v M (p + Z.of_nat k, n - Z.of_nat k) (write p (replicate k v) m).
Proof using.
  intros (Hn & Hm & HM) Hk. split; [lia|]. split.
  - apply write_mapped, mapped_le with (1 := Hm); lia.
  - rewrite <- HM. replace (Z.to_nat n) with (k + Z.to_nat (n - Z.of_nat k))%nat by lia.
    by rewrite replicate_add, write_app, length_replicate.
Qed.

Lemma wp_fill_byte p n m (Q : unit -> mem -> Prop) :
  filling v M (p, n) m -> n <> 0 ->
  (forall m', filling v M (p + 1, n - 1) m' -> Q tt m') ->
  wp (store8 p v) Q m.
Proof using Hv.
  intros H Hn HQ. apply wp_store8.
  - destruct H as (? & Hm & _). apply Hm. lia.
  - assert (u8 v = v) as -> by (apply wrap_small; exact Hv).
    pose proof H as [? _].
    apply HQ. apply (filling_step 1) with (p := p) (n := n); [done|lia].
Qed.

Lemma wp_fill_word p n m (Q : unit -> mem -> Prop) :
  filling v M (p, n) m -> 8 <= n ->
  (forall m', filling v M (p + 8, n - 8) m' -> Q tt m') ->
  wp (store64 p (value64 v)) Q m.
Proof using Hv.
  intros H Hn HQ. rewrite value64_join by done. apply wp_store64.
  - by apply Forall_replicate.
  - done.
  - destruct H as (? & Hm & _). apply mapped_le with (1 := Hm); lia.
  - apply HQ. by apply (filling_step 8).
Qed.
End Filling.

Lemma memset_ok s c n m :
  0 <= n < 2 ^ 64 -> mapped m s n ->
  memset s c n m = Ok (s, write s (replicate (Z.to_nat n) (u8 c)) m).
Proof.
  intros Hn Hm. apply wp_det. unfold memset. set (v := u8 c).
  assert (byte v) as Hv by (apply wrap_bound; lia).
  set (M := write s (replicate (Z.to_nat n) v) m).
  assert (filling v M (s, n) m) as H by done.
  wp_step. apply wp_mono with (P := filling v M).
  { apply wp_loop with (I := filling v M) (m := fun '(_, n) _ => n); [|done|lia].
    clear H Hm Hn. intros [p k] m1 H. pose proof H as (? & _). wp_step.
    - apply andb_prop in E as [_ E]. apply negb_true_iff, Z.eqb_neq in E.
      wp_step. eapply wp_fill_byte; [done..|]. intros m2 H2. wp_step. split; [done|lia].
    - by wp_step. }
  clear H Hm Hn. intros [p k] m1 H. wp_step. apply wp_mono with (P := filling v M).
  { apply wp_loop with (I := filling v M) (m := fun '(_, n) _ => n); [|done|destruct H; lia].
    clear H. intros [p' k'] m2 H. pose proof H as (? & _). wp_step.
    - apply Z.leb_le in E. wp_step. eapply wp_fill_word; [done..|].
      intros m3 H3. wp_step. split; [done|lia].
    - by wp_step. }
  clear H. intros [p' k'] m2 H. wp_step. apply wp_mono with (P := fun _ m' => m' = M).
  { apply wp_loop with (I := filling v M) (m := fun '(_, n) _ => n); [|done|destruct H; lia].
    clear H. intros [q j] m3 H. pose proof H as (? & _). wp_step.
    - apply Z.eqb_eq in E as ->. wp_step. apply H.
    - apply Z.eqb_neq in E. wp_step. eapply wp_fill_byte; [done..|].
      intros m4 H4. wp_step. split; [done|lia]. }
  intros _ m3 ->. by wp_step.
Qed.

(** [memset], with its byte, word and byte phases, writes the low
    byte of its argument [n] times and nothing else. *)
Theorem memset_correct s c n m :
  0 <= n < 2 ^ 64 -> mapped m s n ->
  memset s c n m = Ok (s, write s (replicate (Z.to_nat n) (u8 c)) m).
Proof. apply memset_ok. Qed.

(** ** Comparing and searching *)

Lemma cmp_bytes_app a1 : forall a2 b1 b2, length a1 = length a2 ->
  cmp_bytes (a1 ++ b1) (a2 ++ b2) =
  if decide (a1 = a2) then cmp_bytes b1 b2 else cmp_bytes a1 a2.
Proof.
  induction a1 as [|x a1 IH]; intros [|y a2] b1 b2 Hl; simplify_eq/=; [done|].
  destruct (Z.eqb_spec x y) as [->|Hne].
  - rewrite IH by done. repeat case_decide; naive_solver.
  - case_decide; naive_solver.
Qed.

Lemma cmp_bytes_eq_0 l1 : forall l2,
  length l1 = length l2 -> cmp_bytes l1 l2 = 0 <-> l1 = l2.
Proof.
  induction l1 as [|x l1 IH]; intros [|y l2] Hl; simplify_eq/=; [done|].
  destruct (Z.eqb_spec x y) as [->|Hne].
  - rewrite IH by done. split; [by intros ->|by intros [= ->]].
  - split; [lia|by intros [= ? _]].
Qed.

(** Two readable strings still to be compared with the answer [r]. *)
Definition comparing (r : Z) (x : Z * Z * Z) (m : mem) : Prop :=
  let '(p1, p2, n) := x in
  exists l1 l2, n = Z.of_nat (length l1) /\ n < 2 ^ 64 /\ length l1 = length l2 /\
    Forall byte l1 /\ Forall byte l2 /\ bytes_at m p1 l1 /\ bytes_at m p2 l2 /\
    cmp_bytes l1 l2 = r.

Lemma wp_memcmp_word l1 l2 p1 p2 m :
  length l1 = 8%nat -> length l2 = 8%nat -> l1 <> l2 ->
  bytes_at m p1 l1 -> bytes_at m p2 l2 ->
  wp (memcmp_word p1 p2) (fun r m' => r = Some (cmp_bytes l1 l2) /\ m' = m) m.
Proof.
  intros H1 H2 Hne Hb1 Hb2. unfold memcmp_word.
  apply wp_loop with (m := fun i _ => 8 - i)
    (I := fun i m' => 0 <= i <= 8 /\ m' = m /\ take (Z.to_nat i) l1 = take (Z.to_nat i) l2);
    [|done|lia].
  intros i m' (Hi & -> & Hp). wp_step.
  - apply Z.ltb_lt in E.
    destruct (lookup_lt_is_Some_2 l1 (Z.to_nat i)) as [b1 E1]; [lia|].
    destruct (lookup_lt_is_Some_2 l2 (Z.to_nat i)) as [b2 E2]; [lia|].
    apply wp_bind, wp_load8 with b1; [rewrite <- (Hb1 _ _ E1); f_equal; lia|].
    apply wp_bind, wp_load8 with b2; [rewrite <- (Hb2 _ _ E2); f_equal; lia|].
    wp_step; wp_step.
    + apply Z.eqb_eq in E0 as ->. split; [|lia]. split; [lia|]. split; [done|].
      replace (Z.to_nat (i + 1)) with (S (Z.to_nat i)) by lia.
      by rewrite (take_S_r _ _ _ E1), (take_S_r _ _ _ E2), Hp.
    + split; [|done]. f_equal. apply Z.eqb_neq in E0.
      rewrite <- (take_drop_middle l1 _ _ E1), <- (take_drop_middle l2 _ _ E2), Hp.
      rewrite cmp_bytes_app by done. rewrite decide_True by done. simpl.
      by rewrite (proj2 (Z.eqb_neq b1 b2)).
  - apply Z.ltb_ge in E. exfalso. apply Hne.
    rewrite !take_ge in Hp by lia. done.
Qed.

Lemma comparing_bound r p1 p2 n m : comparing r (p1, p2, n) m -> 0 <= n < 2 ^ 64.
Proof. intros (l1 & l2 & -> & ? & _). lia. Qed.

Lemma comparing_word r p1 p2 n m :
  comparing r (p1, p2, n) m -> 8 <= n ->
  exists l1 l2, length l1 = 8%nat /\ length l2 = 8%nat /\ Forall byte l1 /\ Forall byte l2 /\
    bytes_at m p1 l1 /\ bytes_at m p2 l2 /\
    (l1 = l2 -> comparing r (p1 + 8, p2 + 8, n - 8) m) /\
    (l1 <> l2 -> r = cmp_bytes l1 l2).
Proof.
  intros (l1 & l2 & -> & Hn & Hl & Hb1 & Hb2 & H1 & H2 & Hr) H8.
  assert (length (take 8 l1) = 8%nat) as T1 by (rewrite length_take; lia).
  assert (length (take 8 l2) = 8%nat) as T2 by (rewrite length_take; lia).
  assert (length (drop 8 l1) = (length l1 - 8)%nat) as D1 by (rewrite length_drop; lia).
  assert (length (drop 8 l2) = (length l1 - 8)%nat) as D2 by (rewrite length_drop; lia).
  rewrite <- (take_drop 8 l1) in Hb1, H1, Hr. rewrite <- (take_drop 8 l2) in Hb2, H2, Hr.
  rewrite cmp_bytes_app in Hr by congruence.
  apply Forall_app in Hb1 as [Hb1 Hb1'], Hb2 as [Hb2 Hb2'].
  apply bytes_at_app in H1 as [H1 H1'], H2 as [H2 H2']. rewrite T1 in H1'. rewrite T2 in H2'.
  exists (take 8 l1), (take 8 l2). repeat split; [done..| |].
  - intros He. rewrite decide_True in Hr by done.
    exists (drop 8 l1), (drop 8 l2). repeat split; [lia|lia|congruence|done..].
  - intros Hne. by rewrite decide_False in Hr.
Qed.

(** [memcmp], which compares words first, returns the difference of
    the first two bytes that differ, and 0 when there are none. *)
Theorem memcmp_correct s1 s2 l1 l2 m :
  Forall byte l1 -> Forall byte l2 -> length l1 = length l2 ->
  Z.of_nat (length l1) < 2 ^ 64 ->
  bytes_at m s1 l1 -> bytes_at m s2 l2 ->
  memcmp s1 s2 (Z.of_nat (length l1)) m = Ok (cmp_bytes l1 l2, m).
Proof.
  intros. apply wp_det. unfold memcmp. set (r := cmp_bytes l1 l2). wp_step.
  apply wp_mono with (P := fun x m' => m' = m /\
    match x with inl x => comparing r x m | inr c => c = r end).
  { apply wp_loop with (m := fun '(_, _, n) _ => n)
      (I := fun x m' => m' = m /\ comparing r x m); [|split; [done|by exists l1, l2]|lia].
    intros [[p1 p2] n] m' [-> Hc]. apply comparing_bound in Hc as Hb. wp_step; [|by wp_step].
    apply Z.leb_le in E.
    apply comparing_word in Hc as (k1 & k2 & T1 & T2 & B1 & B2 & H1' & H2' & He & Hd); [|done].
    apply wp_bind, wp_load64 with k1; [done..|]. apply wp_bind, wp_load64 with k2; [done..|].
    wp_step. destruct (Z.eqb_spec (le_join k1) (le_join k2)) as [E'|E'].
    - apply le_join_inj in E'; [|done..|congruence]. wp_step. wp_step. split; [auto|lia].
    - eapply wp_mono; [apply wp_memcmp_word with (l1 := k1) (l2 := k2); try done; by intros ->|].
      intros ? ? [-> ->]. wp_step. split; [done|]. rewrite Hd; [done|by intros ->]. }
  intros [x|c] m' [-> Hx]; [|by wp_step].
  apply wp_loop with (m := fun '(_, _, n) _ => n)
    (I := fun x m' => m' = m /\ comparing r x m);
    [|done|destruct x as [[??]?]; apply comparing_bound in Hx; lia].
  clear x Hx. intros [[p1 p2] n] m' [-> Hc]. apply comparing_bound in Hc as Hb.
  destruct Hc as (k1 & k2 & -> & Hn & Hl & B1 & B2 & K1 & K2 & Hr). wp_step.
  { apply Z.eqb_eq in E. destruct k1; [|done]. by wp_step. }
  apply Z.eqb_neq in E. destruct k1 as [|b1 k1], k2 as [|b2 k2]; [done..|].
  apply bytes_at_cons in K1 as [L1 K1], K2 as [L2 K2].
  apply Forall_cons in B1 as [? B1], B2 as [? B2]. cbn [cmp_bytes length] in *.
  apply wp_bind, wp_load8 with b1; [done|]. apply wp_bind, wp_load8 with b2; [done|].
  destruct (b1 =? b2); wp_step; [|done]. split; [|lia]. split; [done|].
  exists k1, k2. repeat split; [lia|lia|lia|done..].
Qed.

Theorem memchr_correct s c l m :
  Z.of_nat (length l) < 2 ^ 64 -> bytes_at m s l ->
  memchr s c (Z.of_nat (length l)) m =
  Ok (match list_find (eq (u8 c)) l with Some (i, _) => s + Z.of_nat i | None => 0 end, m).
Proof.
  intros Hl Hs. apply wp_det. unfold memchr. set (v := u8 c).
  set (r := match list_find (eq v) l with Some (i, _) => s + Z.of_nat i | None => 0 end).
  apply wp_loop with (m := fun '(_, n) _ => n)
    (I := fun '(p, n) m' => m' = m /\ exists k, n = Z.of_nat (length k) /\ bytes_at m p k /\
        r = match list_find (eq v) k with Some (i, _) => p + Z.of_nat i | None => 0 end);
    [|split; [done|by exists l]|lia].
  intros [p n] m' (-> & k & -> & Hp & Hr). wp_step.
  { apply Z.eqb_eq in E. destruct k; [|done]. by wp_step. }
  apply Z.eqb_neq in E. destruct k as [|b k]; [done|]. apply bytes_at_cons in Hp as [Hb Hp].
  apply wp_bind, wp_load8 with b; [done|]. cbn [list_find length] in *.
  destruct (Z.eqb_spec b v) as [->|Hne]; wp_step.
  - rewrite decide_True in Hr by done. split; [lia|done].
  - rewrite decide_False in Hr by congruence. split; [|lia]. split; [done|].
    exists k. split; [lia|]. split; [done|]. rewrite Hr.
    destruct (list_find _ k) as [[i x]|]; [|done]. simpl. lia.
Qed.

(** ** Witnesses *)

Definition demo_bytes : mem := write 4096 [1; 2; 3; 4; 5] (write 4100 [9; 9; 9; 9] ∅).

(** An overlapping move two bytes up. *)
Lemma memmove_correct_witness :
  memmove 4098 4096 3 demo_bytes = Ok (4098, write 4098 [1; 2; 3] demo_bytes).
Proof.
  apply (memmove_correct 4098 4096 [1; 2; 3]); [|done| |].
  - repeat (constructor; [unfold byte; lia|]). constructor.
  - intros i b H. do 3 (destruct i as [|i]; [injection H as <-; reflexivity|]). done.
  - intros k Hk. assert (k = 4098 \/ k = 4099 \/ k = 4100) as [->|[->| ->]] by (simpl in Hk; lia);
      by eexists.
Defined.

Lemma memset_correct_witness :
  memset 4096 258 3 demo_bytes = Ok (4096, write 4096 [2; 2; 2] demo_bytes).
Proof.
  apply (memset_correct 4096 258 3); [lia|].
  intros k Hk. assert (k = 4096 \/ k = 4097 \/ k = 4098) as [->|[->| ->]] by lia; by eexists.
Defined.

Lemma memcmp_correct_witness : memcmp 4096 4098 2 demo_bytes = Ok (-2, demo_bytes).
Proof.
  apply (memcmp_correct 4096 4098 [1; 2] [3; 4]); [repeat (constructor; [unfold byte; lia|]); constructor..|done|done| |];
    intros i b H; do 2 (destruct i as [|i]; [injection H as <-; reflexivity|]); done.
Defined.
