(* ===== verification/CStr.v ===== *)
(** * The string routines of [libc/src/string/strlen.c]

    C strings over the byte memory of [CMem]: the definitions follow the
    source loop by loop (post-decrements of a [size_t] wrap, [char] is
    signed), the theorems relate them to functions on lists of bytes.  Those
    list functions ([strcmp_spec], [tokens], ...) are what the file system
    and the HTML parser of this development are written with. *)

From S2P Require Import Prelude CMem MemFns.

(** ** Definitions *)

(** The zero-byte test of [strlen]. *)
Definition has_zero (word : Z) : bool :=
  negb (Z.land (Z.land (u64 (word - 0x0101010101010101)) (u64 (Z.lnot word)))
               0x8080808080808080 =? 0).

Definition strlen (s : Z) : prog mem Z :=
  let* p := loop (fun p =>
    if negb (Z.land p 7 =? 0)
    then let* c := load_char p in
         if negb (c =? 0) then ret (Next (p + 1)) else ret (Done p)
    else ret (Done p)) s in
  loop (fun p =>
    let* word := load64 p in
    if has_zero word then
      if Z.land word 0xFF =? 0 then ret (Done (p - s))
      else if Z.land word 0xFF00 =? 0 then ret (Done (p - s + 1))
      else if Z.land word 0xFF0000 =? 0 then ret (Done (p - s + 2))
      else if Z.land word 0xFF000000 =? 0 then ret (Done (p - s + 3))
      else if Z.land word 0xFF00000000 =? 0 then ret (Done (p - s + 4))
      else if Z.land word 0xFF0000000000 =? 0 then ret (Done (p - s + 5))
      else if Z.land word 0xFF000000000000 =? 0 then ret (Done (p - s + 6))
      else if Z.land word 0xFF00000000000000 =? 0 then ret (Done (p - s + 7))
      else ret (Next (p + 8))
    else ret (Next (p + 8))) p.

(** Copy bytes up to and including the terminator. *)
Definition copy_string (d src : Z) : prog mem unit :=
  loop (fun '(d, src) =>
    let* c := load8 src in
    store8 d c ;;
    if negb (c =? 0) then ret (Next (d + 1, src + 1)) else ret (Done tt)) (d, src).

Definition strcpy (dest src : Z) : prog mem Z :=
  copy_string dest src ;; ret dest.

Definition strncpy (dest src n : Z) : prog mem Z :=
  let* (d, n) := loop (fun '(d, src, n) =>
    let n' := u64 (n - 1) in
    if n =? 0 then ret (Done (d, n'))
    else
      let* c := load8 src in
      store8 d c ;;
      if negb (c =? 0) then ret (Next (d + 1, src + 1, n'))
      else ret (Done (d + 1, n'))) (dest, src, n) in
  loop (fun '(d, n) =>
    let n' := u64 (n - 1) in
    if n =? 0 then ret (Done tt)
    else store8 d 0 ;; ret (Next (d + 1, n'))) (d, n) ;;
  ret dest.

(** Step to the terminator. *)
Definition find_end (d : Z) : prog mem Z :=
  loop (fun d =>
    let* c := load8 d in
    if negb (c =? 0) then ret (Next (d + 1)) else ret (Done d)) d.

Definition strcat (dest src : Z) : prog mem Z :=
  let* d := find_end dest in
  copy_string d src ;;
  ret dest.

Definition strncat (dest src n : Z) : prog mem Z :=
  let* d := find_end dest in
  let* d := loop (fun '(d, src, n) =>
    let n' := u64 (n - 1) in
    if n =? 0 then ret (Done d)
    else
      let* c := load8 src in
      if negb (c =? 0)
      then store8 d c ;; ret (Next (d + 1, src + 1, n'))
      else ret (Done d)) (d, src, n) in
  store8 d 0 ;;
  ret dest.

Definition strcmp (s1 s2 : Z) : prog mem Z :=
  let* (s1, s2) := loop (fun '(s1, s2) =>
    let* c1 := load_char s1 in
    if c1 =? 0 then ret (Done (s1, s2))
    else
      let* c2 := load_char s2 in
      if negb (c2 =? 0) && (c1 =? c2) then ret (Next (s1 + 1, s2 + 1))
      else ret (Done (s1, s2))) (s1, s2) in
  let* c1 := load8 s1 in
  let* c2 := load8 s2 in
  ret (c1 - c2).

Definition strncmp (s1 s2 n : Z) : prog mem Z :=
  let* (s1, s2, n) := loop (fun '(s1, s2, n) =>
    let n' := u64 (n - 1) in
    if n =? 0 then ret (Done (s1, s2, n'))
    else
      let* c1 := load_char s1 in
      if c1 =? 0 then ret (Done (s1, s2, n'))
      else
        let* c2 := load_char s2 in
        if negb (c2 =? 0) && (c1 =? c2) then ret (Next (s1 + 1, s2 + 1, n'))
        else ret (Done (s1, s2, n'))) (s1, s2, n) in
  if n =? SIZE_MAX then ret 0
  else
    let* c1 := load8 s1 in
    let* c2 := load8 s2 in
    ret (c1 - c2).

(** [ch] is an [unsigned char] and [*s] a signed [char]: the comparison is
    between their integer promotions. *)
Definition strchr (s c : Z) : prog mem Z :=
  let ch := u8 c in
  loop (fun s =>
    let* x := load_char s in
    if x =? 0 then ret (Done 0)
    else if x =? ch then ret (Done s) else ret (Next (s + 1))) s.

Definition strrchr (s c : Z) : prog mem Z :=
  let ch := u8 c in
  loop (fun '(s, last) =>
    let* x := load_char s in
    if x =? 0 then ret (Done last)
    else ret (Next (s + 1, if x =? ch then s else last))) (s, 0).

Definition strstr (haystack needle : Z) : prog mem Z :=
  let* n0 := load_char needle in
  if n0 =? 0 then ret haystack
  else
    let* needle_len := strlen needle in
    loop (fun haystack =>
      let* h := load_char haystack in
      if h =? 0 then ret (Done 0)
      else
        let* n0 := load_char needle in
        if h =? n0 then
          let* r := strncmp haystack needle needle_len in
          if r =? 0 then ret (Done haystack) else ret (Next (haystack + 1))
        else ret (Next (haystack + 1))) haystack.

(** The inner scan of [strpbrk], [strcspn] and [strspn]: does [c] occur in
    the string at [a]? *)
Definition char_in (c a : Z) : prog mem bool :=
  loop (fun a =>
    let* x := load_char a in
    if x =? 0 then ret (Done false)
    else if c =? x then ret (Done true) else ret (Next (a + 1))) a.

Definition strpbrk (s accept : Z) : prog mem Z :=
  loop (fun s =>
    let* c := load_char s in
    if c =? 0 then ret (Done 0)
    else
      let* found := char_in c accept in
      if (found : bool) then ret (Done s) else ret (Next (s + 1))) s.

Definition strcspn (s reject : Z) : prog mem Z :=
  loop (fun '(s, count) =>
    let* c := load_char s in
    if c =? 0 then ret (Done count)
    else
      let* found := char_in c reject in
      if (found : bool) then ret (Done count) else ret (Next (s + 1, count + 1))) (s, 0).

Definition strspn (s accept : Z) : prog mem Z :=
  loop (fun '(s, count) =>
    let* c := load_char s in
    if c =? 0 then ret (Done count)
    else
      let* found := char_in c accept in
      if (found : bool) then ret (Next (s + 1, count + 1)) else ret (Done count)) (s, 0).

(** [saveptr] is the address of a pointer variable. *)
Definition strtok_r (str delim saveptr : Z) : prog mem Z :=
  if saveptr =? 0 then ret 0
  else
    (if negb (str =? 0) then store64 saveptr str else ret tt) ;;
    let* p := load64 saveptr in
    let* at_end := (if p =? 0 then ret true
                    else let* c := load_char p in ret (c =? 0)) in
    if (at_end : bool) then ret 0
    else
      let* token := loop (fun token =>
        let* c := load_char token in
        if c =? 0 then ret (Done token)
        else
          let* k := strcspn token delim in
          if k =? 0 then ret (Next (token + 1)) else ret (Done token)) p in
      let* c := load_char token in
      if c =? 0 then store64 saveptr 0 ;; ret 0
      else
        let* k := strcspn token delim in
        let stop := token + k in
        let* e := load_char stop in
        (if negb (e =? 0) then store8 stop 0 ;; store64 saveptr (stop + 1)
         else store64 saveptr 0) ;;
        ret token.

(** [strtok] keeps its position in the static [strtok_last], at the address
    [strtok_last] of the data segment. *)
Definition strtok (strtok_last str delim : Z) : prog mem Z :=
  strtok_r str delim strtok_last.

Definition strnlen (s maxlen : Z) : prog mem Z :=
  loop (fun '(s, len) =>
    if len <? maxlen then
      let* c := load_char s in
      if negb (c =? 0) then ret (Next (s + 1, len + 1)) else ret (Done len)
    else ret (Done len)) (s, 0).

Section Dup.
(** The [malloc] the library is linked with. *)
Context (malloc : Z -> prog mem Z).

Definition strdup (s : Z) : prog mem Z :=
  let* len := strlen s in
  let len := u64 (len + 1) in
  let* dup := malloc len in
  (if negb (dup =? 0) then memcpy dup s len ;; ret tt else ret tt) ;;
  ret dup.

Definition strndup (s n : Z) : prog mem Z :=
  let* len := strnlen s n in
  let len := u64 (len + 1) in
  let* dup := malloc len in
  (if negb (dup =? 0)
   then memcpy dup s (u64 (len - 1)) ;; store8 (dup + len - 1) 0
   else ret tt) ;;
  ret dup.
End Dup.

(** ** C strings *)

(** A character of a C string: any byte but the terminator. *)
Definition cchar (b : Z) : Prop := 0 < b < 256.

(** The C string [l] lies at [a]. *)
Definition cstr (m : mem) (a : Z) (l : list Z) : Prop :=
  Forall cchar l /\ bytes_at m a (l ++ [0]).

Lemma cchar_byte b : cchar b -> byte b.
Proof. unfold cchar, byte. lia. Qed.

Lemma cchars_bytes l : Forall cchar l -> Forall byte l.
Proof. intros H. eapply Forall_impl; [exact H|]. apply cchar_byte. Qed.

Lemma s8_inj b c : byte b -> byte c -> (s8 b =? s8 c) = (b =? c).
Proof.
  unfold byte, swrap. intros. change (2 ^ (8 - 1)) with 128. change (2 ^ 8) with 256.
  assert (forall x, 0 <= x < 256 ->
            (x + 128) mod 256 = if x <? 128 then x + 128 else x - 128) as E.
  { intros x Hx. destruct (Z.ltb_spec x 128); [apply Z.mod_small; lia|].
    rewrite <- (Z_mod_plus_full (x + 128) (-1) 256), Z.mod_small; lia. }
  rewrite !E by done.
  destruct (Z.ltb_spec b 128), (Z.ltb_spec c 128), (Z.eqb_spec b c);
    apply Z.eqb_eq || apply Z.eqb_neq; lia.
Qed.

Lemma s8_zero b : byte b -> (s8 b =? 0) = (b =? 0).
Proof. intros Hb. by rewrite <- (s8_inj b 0) by (done || unfold byte; lia). Qed.

Lemma cstr_nil m a : cstr m a [] <-> m !! a = Some 0.
Proof.
  unfold cstr. simpl. rewrite bytes_at_cons. split; [tauto|]. intros H.
  split; [constructor|]. split; [done|]. by intros [].
Qed.

Lemma cstr_cons m a b l : cstr m a (b :: l) <-> cchar b /\ m !! a = Some b /\ cstr m (a + 1) l.
Proof. unfold cstr. rewrite <- app_comm_cons, bytes_at_cons, Forall_cons. tauto. Qed.

Lemma cstr_drop m a l1 l2 :
  cstr m a (l1 ++ l2) -> cstr m (a + Z.of_nat (length l1)) l2.
Proof.
  unfold cstr. rewrite <- app_assoc, bytes_at_app, Forall_app. tauto.
Qed.

Lemma cstr_write_out m a l b l' :
  cstr m b l' ->
  (b + Z.of_nat (length l') < a \/ a + Z.of_nat (length l) <= b) ->
  cstr (write a l m) b l'.
Proof.
  intros [H1 H2] H. split; [done|]. apply bytes_at_write_out; [done|].
  rewrite length_app. cbn [length]. lia.
Qed.

(** The character at the head of a string, read as [*p]. *)
Lemma wp_load_head a l (Q : Z -> mem -> Prop) m :
  cstr m a l ->
  (l = [] -> Q 0 m) ->
  (forall b l', l = b :: l' -> cchar b -> cstr m (a + 1) l' -> (s8 b =? 0) = false -> Q (s8 b) m) ->
  wp (load_char a) Q m.
Proof.
  intros H H0 H1. destruct l as [|b l].
  - apply cstr_nil in H. apply wp_load_char with 0; [done|]. by apply H0.
  - apply cstr_cons in H as (Hb & Ha & H). apply wp_load_char with b; [done|].
    eapply H1; [done..|]. rewrite s8_zero by (by apply cchar_byte).
    apply Z.eqb_neq. unfold cchar in Hb. lia.
Qed.

(** ** [strlen] *)

Lemma le_join_nth l : forall k b, Forall byte l -> l !! k = Some b ->
  (le_join l / 2 ^ (8 * Z.of_nat k)) mod 256 = b.
Proof.
  unfold byte. induction l as [|c l IH]; intros [|k] b Hl Hk; simplify_eq/=;
    apply Forall_cons in Hl as [Hc Hl].
  - rewrite Z.div_1_r, Z.mul_comm, Z_mod_plus_full. by apply Z.mod_small.
  - rewrite <- (IH k b Hl Hk). f_equal.
    replace (8 * Z.of_nat (S k)) with (8 + 8 * Z.of_nat k) by lia.
    rewrite Z.pow_add_r, <- Z.div_div by lia. f_equal.
    change (2 ^ 8) with 256. rewrite Z.mul_comm, Z.div_add, Z.div_small; lia.
Qed.

(** The [k]-th masked test of [strlen]. *)
Lemma land_byte l k b : Forall byte l -> l !! k = Some b ->
  (Z.land (le_join l) (Z.shiftl 255 (8 * Z.of_nat k)) =? 0) = (b =? 0).
Proof.
  intros Hl Hk. set (w := le_join l). set (n := 8 * Z.of_nat k).
  assert (Z.land w (Z.shiftl 255 n) = b * 2 ^ n) as ->.
  { rewrite <- Z.shiftl_mul_pow2 by lia. rewrite <- (le_join_nth l k b Hl Hk).
    fold w n. rewrite <- Z.shiftr_div_pow2 by lia.
    change 256 with (2 ^ 8). rewrite <- Z.land_ones by lia. change (Z.ones 8) with 255.
    apply Z.bits_inj'. intros i Hi. rewrite Z.land_spec.
    destruct (decide (i < n)).
    - by rewrite !Z.shiftl_spec_low, andb_false_r by done.
    - rewrite !Z.shiftl_spec, Z.land_spec, Z.shiftr_spec by lia.
      do 2 f_equal. lia. }
  assert (0 < 2 ^ n) by (apply Z.pow_pos_nonneg; lia).
  destruct (Z.eqb_spec b 0) as [->|Hb]; [done|]. apply Z.eqb_neq. nia.
Qed.

Lemma le_join_app l1 l2 : le_join (l1 ++ l2) = le_join l1 + 2 ^ (8 * Z.of_nat (length l1)) * le_join l2.
Proof.
  induction l1 as [|b l1 IH]; cbn [app le_join length]; [simpl; lia|].
  rewrite IH. replace (8 * Z.of_nat (S (length l1))) with (8 + 8 * Z.of_nat (length l1)) by lia.
  rewrite Z.pow_add_r by lia. change (2 ^ 8) with 256. lia.
Qed.

Lemma le_join_ones l : Forall cchar l -> le_join (replicate (length l) 1) <= le_join l.
Proof.
  unfold cchar. induction 1 as [|b l Hb Hl IH]; simpl; lia.
Qed.

(** A word with a zero byte passes the test (no zero byte is missed). *)
Lemma has_zero_complete l :
  length l = 8%nat -> Forall byte l -> 0 ∈ l -> has_zero (le_join l) = true.
Proof.
  intros H8 Hl H0.
  assert (exists l1 l2, l = l1 ++ 0 :: l2 /\ Forall cchar l1) as (l1 & l2 & -> & Hl1).
  { clear H8. induction Hl as [|b l Hb Hl IH]; [by apply elem_of_nil in H0|].
    destruct (decide (b = 0)) as [->|Hb0]; [by exists [], l|].
    apply elem_of_cons in H0 as [?|H0]; [done|].
    destruct (IH H0) as (l1 & l2 & -> & H). exists (b :: l1), l2. split; [done|].
    constructor; [unfold cchar, byte in *; lia|done]. }
  rewrite length_app in H8. cbn [length] in H8. set (k := length l1) in *.
  set (W := le_join (l1 ++ 0 :: l2)). set (n := 8 * Z.of_nat k).
  assert (W = le_join l1 + 2 ^ n * (256 * le_join l2)) as EW.
  { unfold W. rewrite le_join_app. done. }
  set (C1 := le_join (replicate k 1)). set (C2 := le_join (replicate (7 - k) 1)).
  assert (0x0101010101010101 = C1 + 2 ^ n * (1 + 256 * C2)) as EC.
  { transitivity (le_join (replicate 8 1)); [done|].
    replace 8%nat with (k + S (7 - k))%nat at 1 by lia.
    rewrite replicate_add, le_join_app, length_replicate. done. }
  assert (0 <= le_join l1 - C1 < 2 ^ n) as Hd.
  { pose proof (le_join_ones l1 Hl1) as H1. apply cchars_bytes, le_join_bound in Hl1.
    change 256 with (2 ^ 8) in Hl1. rewrite <- Z.pow_mul_r in Hl1 by lia.
    assert (0 <= C1) by (apply le_join_bound, Forall_replicate; done).
    unfold C1, n, k in *. lia. }
  assert (0 <= le_join l1 < 2 ^ n) as Hl1b.
  { apply cchars_bytes, le_join_bound in Hl1.
    change 256 with (2 ^ 8) in Hl1. by rewrite <- Z.pow_mul_r in Hl1 by lia. }
  unfold has_zero. apply negb_true_iff, Z.eqb_neq. intros Hz.
  assert (Z.testbit (Z.land (Z.land (u64 (W - 0x0101010101010101)) (u64 (Z.lnot W)))
            0x8080808080808080) (n + 7) = true) as Ht; [|by rewrite Hz, Z.bits_0 in Ht].
  unfold wrap. rewrite !Z.land_spec, !Z.mod_pow2_bits_low by lia.
  rewrite Z.lnot_spec by lia.
  assert (forall x, Z.testbit x (n + 7) = Z.testbit (x / 2 ^ n) 7) as Esh.
  { intros x. rewrite <- Z.shiftr_div_pow2, Z.shiftr_spec by lia. f_equal. lia. }
  assert (forall x, Z.testbit x 7 = Z.testbit (x mod 2 ^ 8) 7) as Elow.
  { intros x. by rewrite Z.mod_pow2_bits_low. }
  rewrite !andb_true_iff. split; [split|].
  - rewrite Esh, EW, EC.
    replace (le_join l1 + 2 ^ n * (256 * le_join l2) - (C1 + 2 ^ n * (1 + 256 * C2)))
      with (le_join l1 - C1 + (-1 + (le_join l2 - C2) * 256) * 2 ^ n) by lia.
    rewrite Z.div_add, Z.div_small, Z.add_0_l by lia.
    rewrite Elow. change (2 ^ 8) with 256. by rewrite Z_mod_plus_full.
  - rewrite Esh, EW. rewrite (Z.mul_comm (2 ^ n)), Z.div_add, Z.div_small, Z.add_0_l by lia.
    rewrite Elow. change (2 ^ 8) with 256. by rewrite Z.mul_comm, Z_mod_mult.
  - unfold n. assert (k = 0 \/ k = 1 \/ k = 2 \/ k = 3 \/ k = 4 \/ k = 5 \/ k = 6 \/ k = 7)%nat
      as Hk by lia. clear - Hk. destruct_or! Hk; by rewrite Hk.
Qed.

(** The chain of masked tests of [strlen] on a word with bytes [b0..b7]. *)
Lemma masked_tests b0 b1 b2 b3 b4 b5 b6 b7 :
  let w := le_join [b0; b1; b2; b3; b4; b5; b6; b7] in
  Forall byte [b0; b1; b2; b3; b4; b5; b6; b7] ->
  (Z.land w 0xFF =? 0) = (b0 =? 0) /\ (Z.land w 0xFF00 =? 0) = (b1 =? 0) /\
  (Z.land w 0xFF0000 =? 0) = (b2 =? 0) /\ (Z.land w 0xFF000000 =? 0) = (b3 =? 0) /\
  (Z.land w 0xFF00000000 =? 0) = (b4 =? 0) /\ (Z.land w 0xFF0000000000 =? 0) = (b5 =? 0) /\
  (Z.land w 0xFF000000000000 =? 0) = (b6 =? 0) /\
  (Z.land w 0xFF00000000000000 =? 0) = (b7 =? 0).
Proof.
  intros w Hl.
  pose proof (land_byte _ 0 b0 Hl eq_refl). pose proof (land_byte _ 1 b1 Hl eq_refl).
  pose proof (land_byte _ 2 b2 Hl eq_refl). pose proof (land_byte _ 3 b3 Hl eq_refl).
  pose proof (land_byte _ 4 b4 Hl eq_refl). pose proof (land_byte _ 5 b5 Hl eq_refl).
  pose proof (land_byte _ 6 b6 Hl eq_refl). pose proof (land_byte _ 7 b7 Hl eq_refl).
  auto 10.
Qed.

Ltac rewrite_masked_tests Hw :=
  lazymatch type of Hw with
  | Forall byte [?b0; ?b1; ?b2; ?b3; ?b4; ?b5; ?b6; ?b7] =>
      destruct (masked_tests b0 b1 b2 b3 b4 b5 b6 b7 Hw)
        as (-> & -> & -> & -> & -> & -> & -> & ->)
  end.

(** The string [l] at [a], with [7] readable bytes after its terminator. *)
Definition cstr_padded (m : mem) (a : Z) (l : list Z) : Prop :=
  cstr m a l /\ exists tail, length tail = 7%nat /\ Forall byte tail /\
    bytes_at m (a + Z.of_nat (length l) + 1) tail.

Lemma cstr_padded_tl m a b l : cstr_padded m a (b :: l) -> cstr_padded m (a + 1) l.
Proof.
  intros [H (tail & Ht & Hb & H')]. apply cstr_cons in H as (_ & _ & H). split; [done|].
  exists tail. split; [done|]. split; [done|].
  replace (a + 1 + Z.of_nat (length l) + 1) with (a + Z.of_nat (length (b :: l)) + 1)
    by (cbn [length]; lia). done.
Qed.

(** The word at the head of a padded string. *)
Lemma cstr_word m a l : cstr_padded m a l ->
  exists w, length w = 8%nat /\ Forall byte w /\ bytes_at m a w /\
    ((length l < 8)%nat -> exists w', w = l ++ 0 :: w') /\
    ((8 <= length l)%nat -> exists l', l = w ++ l' /\ cstr_padded m (a + 8) l').
Proof.
  intros [[Hc Hs] (tail & Ht & Hb & Htail)].
  set (all := l ++ 0 :: tail).
  assert (bytes_at m a all) as Hall.
  { unfold all. change (0 :: tail) with ([0] ++ tail). rewrite app_assoc.
    apply bytes_at_app. split; [done|]. rewrite length_app. cbn [length].
    by replace (a + Z.of_nat (length l + 1)) with (a + Z.of_nat (length l) + 1) by lia. }
  assert (Forall byte all) as Hbytes.
  { apply Forall_app. split; [by apply cchars_bytes|]. constructor; [unfold byte; lia|done]. }
  assert (length (take 8 all) = 8%nat) as Hlen.
  { rewrite length_take. unfold all. rewrite length_app. cbn [length]. lia. }
  pose proof (take_drop 8 all) as Etd. exists (take 8 all).
  rewrite <- Etd in Hall, Hbytes. apply bytes_at_app in Hall as [Hall _].
  apply Forall_app in Hbytes as [Hbytes _]. repeat split; [done..| |].
  - intros Hl. exists (take (7 - length l) tail). unfold all.
    rewrite take_app, take_ge by lia. f_equal.
    by replace (8 - length l)%nat with (S (7 - length l)) by lia.
  - intros Hl. exists (drop 8 l). unfold all. rewrite take_app_le by lia.
    rewrite take_drop. split; [done|].
    assert (length (drop 8 l) = (length l - 8)%nat) as Hd by apply length_drop.
    split; [split|].
    + by apply Forall_drop.
    + rewrite <- (take_drop 8 l), <- app_assoc in Hs. apply bytes_at_app in Hs as [_ Hs].
      by rewrite length_take_le in Hs.
    + exists tail. split; [done|]. split; [done|]. rewrite Hd.
      by replace (a + 8 + Z.of_nat (length l - 8) + 1) with (a + Z.of_nat (length l) + 1) by lia.
Qed.

Lemma cchar_neq b : cchar b -> (b =? 0) = false.
Proof. unfold cchar. intros. apply Z.eqb_neq. lia. Qed.

(** [strlen] returns the length of the string, provided the string is
    followed by enough mapped bytes for its last word-sized read. *)
Theorem strlen_correct s l m :
  Z.of_nat (length l) < 2 ^ 64 -> cstr_padded m s l ->
  strlen s m = Ok (Z.of_nat (length l), m).
Proof.
  intros Hlen Hs. apply wp_det. unfold strlen. set (n := Z.of_nat (length l)) in *. wp_step.
  set (I := fun p m' => m' = m /\ exists k, cstr_padded m p k /\ p = s + (n - Z.of_nat (length k)) /\
              Forall cchar k /\ Z.of_nat (length k) <= n).
  assert (I s m) as HI.
  { split; [done|]. exists l. unfold n. split; [done|]. split; [lia|]. split; [apply Hs|done]. }
  apply wp_mono with (P := I).
  { apply wp_loop with (I := I) (m := fun p _ => s + n - p);
      [|done|lia].
    intros p m' (-> & k & Hk & Hp & Hc & Hkn). wp_step; [|wp_step; split; eauto].
    wp_step. eapply wp_load_head; [apply Hk| |].
    - intros ->. wp_step. wp_step. split; eauto.
    - intros b k' -> Hb Hk' ->. wp_step. wp_step. apply cstr_padded_tl in Hk.
      cbn [length] in *. apply Forall_cons in Hc as [_ Hc]. split; [|lia].
      split; [done|]. exists k'. split; [exact Hk|]. split; [lia|]. split; [done|lia]. }
  intros p m' HI'.
  apply wp_loop with (I := I) (m := fun p _ => s + n - p); [|done|destruct HI' as (_ & k & ? & ? & ? & ?); lia].
  clear p m' HI' HI. intros p m' (-> & k & Hk & Hp & Hc & Hkn).
  destruct (cstr_word m p k Hk) as (w & H8 & Hw & Hpw & Hshort & Hlong).
  apply wp_bind, wp_load64 with w; [done..|].
  destruct (decide (length k < 8)%nat) as [Hk8|Hk8].
  - destruct (Hshort Hk8) as [w' ->].
    rewrite has_zero_complete; [|done|done|apply elem_of_app; right; apply elem_of_cons; by left].
    clear Hshort Hlong Hpw.
    destruct k as [|c0 [|c1 [|c2 [|c3 [|c4 [|c5 [|c6 [|c7 k]]]]]]]]; [..|exfalso; cbn in Hk8; lia];
      repeat (destruct w' as [|? w']; try done);
      cbn [app] in *; rewrite_masked_tests Hw;
      rewrite ?Forall_cons in Hc; destruct_and? Hc;
      rewrite ?cchar_neq by done; cbn [length] in *;
      change (0 =? 0) with true; cbv iota; apply wp_ret; (split; [lia|done]).
  - destruct (Hlong ltac:(lia)) as (k' & -> & Hk'). clear Hshort Hlong.
    apply Forall_app in Hc as [Hcw Hc]. rewrite length_app in *.
    assert (I (p + 8) m /\ 0 <= s + n - (p + 8) < s + n - p) as Hnext.
    { split; [|lia]. split; [done|]. exists k'. split; [done|]. split; [lia|]. split; [done|lia]. }
    destruct w as [|c0 [|c1 [|c2 [|c3 [|c4 [|c5 [|c6 [|c7 [|? ?]]]]]]]]]; try done.
    rewrite_masked_tests Hw.
    rewrite !Forall_cons in Hcw. destruct_and? Hcw. rewrite !cchar_neq by done.
    destruct (has_zero _); wp_step; exact Hnext.
Qed.

(** An unaligned empty string whose next byte is unmapped makes [strlen]
    read past it. *)
Theorem strlen_overreads s m :
  Z.land s 7 <> 0 -> m !! s = Some 0 -> m !! (s + 1) = None -> strlen s m = Fault.
Proof.
  intros Ha H0 H1. apply Z.eqb_neq in Ha. unfold strlen, bind at 1.
  match goal with |- context [loop ?b s m] =>
    assert (loop b s m = Ok (s, m)) as -> end.
  { apply wp_det.
    apply wp_loop with (I := fun p m' => p = s /\ m' = m) (m := fun _ _ => 0); [|done|lia].
    intros p m' [-> ->]. rewrite Ha. simpl. apply wp_bind, wp_load_char with 0; [done|].
    by apply wp_ret. }
  apply loop_faults with (I := fun p m' => p = s /\ m' = m) (m := fun _ _ => 0); [|done|lia].
  intros p m' [-> ->]. unfold bind at 1, load64, loads, load8, getf. unfold bind.
  by rewrite H0, H1.
Qed.

(** ** [strcpy], [strncpy] *)

(** The copies in progress that end in [M]: the string [k] is still to be
    copied from [s] to [d]. *)
Definition copying_string (M : mem) (k : list Z) (d s : Z) (m : mem) : Prop :=
  cstr m s k /\ mapped m d (Z.of_nat (length k) + 1) /\
  (d <= s \/ s + Z.of_nat (length k) < d) /\ write d (k ++ [0]) m = M.

Lemma copying_string_step M b k d s m :
  copying_string M (b :: k) d s m ->
  cchar b /\ m !! s = Some b /\ is_Some (m !! d) /\ u8 b = b /\
  copying_string M k (d + 1) (s + 1) (<[d := b]> m).
Proof.
  intros (Hs & Hd & Hov & HM). apply cstr_cons in Hs as (Hb & Hsb & Hs). cbn [length] in *.
  split; [done|]. split; [done|]. split; [apply Hd; lia|].
  split; [by apply wrap_small, cchar_byte|]. split; [|split; [|split; [lia|done]]].
  - apply (cstr_write_out m d [b]); [done|]. cbn [length]. lia.
  - apply (write_mapped d [b]), mapped_le with (1 := Hd); lia.
Qed.

Lemma copying_string_end M d s m :
  copying_string M [] d s m -> m !! s = Some 0 /\ is_Some (m !! d) /\ <[d := 0]> m = M.
Proof.
  intros (Hs & Hd & _ & HM). apply cstr_nil in Hs. split; [done|]. split; [|done].
  apply Hd. cbn [length]. lia.
Qed.

(** [strcpy] copies the string and its terminator, and nothing else,
    to a destination with room for them that does not lie inside the source. *)
Theorem strcpy_correct d s l m :
  cstr m s l -> Z.of_nat (length l) < 2 ^ 64 ->
  mapped m d (Z.of_nat (length l) + 1) ->
  (d <= s \/ s + Z.of_nat (length l) < d) ->
  strcpy d s m = Ok (d, write d (l ++ [0]) m).
Proof.
  intros Hs Hlen Hd Hov. apply wp_det. unfold strcpy, copy_string. wp_step.
  set (M := write d (l ++ [0]) m).
  apply wp_mono with (P := fun _ m' => m' = M); [|intros _ ? ->; by wp_step].
  apply wp_loop with (m := fun '(_, s') _ => s + Z.of_nat (length l) - s')
    (I := fun '(d', s') m' => exists k, copying_string M k d' s' m' /\
       s' = s + Z.of_nat (length l) - Z.of_nat (length k)); [|exists l; split; [done|lia]|lia].
  clear. intros [d' s'] m' (k & Hk & Hs'). destruct k as [|b k].
  - apply copying_string_end in Hk as (Hs0 & Hd0 & HM).
    apply wp_bind, wp_load8 with 0; [done|]. apply wp_bind, wp_store8; [done|]. by wp_steps.
  - apply copying_string_step in Hk as (Hb & Hs0 & Hd0 & Eb & Hk). cbn [length] in *.
    apply wp_bind, wp_load8 with b; [done|]. apply wp_bind, wp_store8; [done|].
    rewrite Eb, cchar_neq by done. wp_steps. split; [|lia]. exists k. split; [done|lia].
Qed.

(** When the source is shorter than [n], [strncpy] copies it and pads with
    zero bytes up to [n]. *)
Theorem strncpy_short d s l n m :
  cstr m s l -> Z.of_nat (length l) < n -> n < 2 ^ 64 ->
  mapped m d n -> (d <= s \/ s + Z.of_nat (length l) < d) ->
  strncpy d s n m = Ok (d, write d (l ++ replicate (Z.to_nat n - length l) 0) m).
Proof.
  intros Hs Hlen Hn Hd Hov. apply wp_det. unfold strncpy. wp_step.
  set (pad := n - Z.of_nat (length l) - 1). set (M := write d (l ++ [0]) m).
  set (e := d + Z.of_nat (length l) + 1).
  assert (write e (replicate (Z.to_nat pad) 0) M
          = write d (l ++ replicate (Z.to_nat n - length l) 0) m) as <-.
  { replace (Z.to_nat n - length l)%nat with (1 + Z.to_nat pad)%nat by lia.
    rewrite replicate_add, app_assoc, write_app. unfold M. f_equal.
    rewrite length_app. cbn [length replicate]. lia. }
  apply wp_mono with (P := fun '(d', n') m' => d' = e /\ n' = pad /\ m' = M).
  { apply wp_loop with (m := fun '(_, _, n') _ => n')
      (I := fun '(d', s', n') m' => exists k, copying_string M k d' s' m' /\
         d' + Z.of_nat (length k) + 1 = e /\ n' = pad + 1 + Z.of_nat (length k) /\ n' <= n);
      [|exists l; split; [split; [done|split; [apply mapped_le with (1 := Hd); lia|done]]|lia]|lia].
    intros [[d' s'] n'] m' (k & Hk & He & En & Hle). cbn zeta.
    rewrite (proj2 (Z.eqb_neq n' 0)), (wrap_small 64) by lia. destruct k as [|b k].
    - apply copying_string_end in Hk as (Hs0 & Hd0 & HM).
      apply wp_bind, wp_load8 with 0; [done|]. apply wp_bind, wp_store8; [done|].
      wp_steps. cbn [length] in *. split; [lia|]. split; [lia|done].
    - apply copying_string_step in Hk as (Hb & Hs0 & Hd0 & Eb & Hk). cbn [length] in *.
      apply wp_bind, wp_load8 with b; [done|]. apply wp_bind, wp_store8; [done|].
      rewrite Eb, cchar_neq by done. wp_steps. split; [|lia]. exists k. split; [done|lia]. }
  intros [d' n'] m' (-> & -> & ->). wp_step.
  set (M' := write e (replicate (Z.to_nat pad) 0) M).
  apply wp_mono with (P := fun _ m' => m' = M'); [|intros _ ? ->; by wp_step].
  apply wp_loop with (I := filling 0 M') (m := fun '(_, n') _ => n'); [| |lia].
  - clear. intros [p k] m1 H. pose proof H as (Hk & _). cbn zeta. wp_step.
    + apply Z.eqb_eq in E as ->. wp_step. by destruct H as (_ & _ & H).
    + apply Z.eqb_neq in E. wp_step. eapply wp_fill_byte; [by unfold byte|done..|].
      intros m2 H2. wp_step. rewrite (wrap_small 64) by lia. split; [done|lia].
  - split; [lia|]. split; [|done].
    apply write_mapped, mapped_le with (1 := Hd); lia.
Qed.

(** When the source has [n] characters or more, the padding loop starts from
    [n = SIZE_MAX]: [strncpy] writes past the destination until it faults. *)
Theorem strncpy_overruns d s l k m :
  Forall cchar l -> Z.of_nat (length l) < 2 ^ 64 -> bytes_at m s l ->
  mapped m d (Z.of_nat (length l)) -> (d <= s \/ s + Z.of_nat (length l) <= d) ->
  d + Z.of_nat (length l) <= k < d + Z.of_nat (length l) + SIZE_MAX -> m !! k = None ->
  strncpy d s (Z.of_nat (length l)) m = Fault.
Proof.
  intros Hl Hlen Hs Hd Hov Hk HNone. unfold strncpy. set (e := d + Z.of_nat (length l)) in *.
  apply bind_faults with (P := fun '(d', n') m' => d' = e /\ n' = SIZE_MAX /\ m' !! k = None).
  - apply wp_loop with (m := fun '(_, _, n') _ => n')
      (I := fun '(d', s', n') m' => exists l', n' = Z.of_nat (length l') /\ n' < 2 ^ 64 /\
         Forall cchar l' /\ bytes_at m' s' l' /\ mapped m' d' n' /\
         (d' <= s' \/ s' + n' <= d') /\ d' + n' = e /\ m' !! k = None);
      [|by exists l; auto 10|lia].
    intros [[d' s'] n'] m' (l' & -> & Hn & Hl' & Hs' & Hd' & Hov' & He & HN'). cbn zeta.
    destruct l' as [|b l'].
    + cbn [length] in *. change (Z.of_nat 0) with 0 in *. wp_steps. split; [lia|done].
    + rewrite (proj2 (Z.eqb_neq _ 0)) by (cbn [length]; lia).
      apply Forall_cons in Hl' as [Hb Hl']. apply bytes_at_cons in Hs' as [Hsb Hs'].
      cbn [length] in *.
      apply wp_bind, wp_load8 with b; [done|].
      apply wp_bind, wp_store8; [apply Hd'; lia|].
      rewrite cchar_neq, (wrap_small 64) by (done || lia). wp_steps.
      replace (u8 b) with b by (symmetry; by apply wrap_small, cchar_byte).
      split; [|lia]. exists l'. split; [lia|]. split; [lia|]. split; [done|].
      split; [apply (bytes_at_write_out m' d' [b]); [done|cbn [length]; lia]|].
      split; [apply (write_mapped d' [b]), mapped_le with (1 := Hd'); lia|].
      split; [lia|]. split; [lia|]. by rewrite lookup_insert_ne by lia.
  - clear Hs Hd HNone. intros [d' n'] m' (-> & -> & HN). unfold bind at 1.
    rewrite loop_faults with (m := fun '(_, n') _ => n')
      (I := fun '(d', n') m' => d' <= k < d' + n' /\ n' < 2 ^ 64 /\ m' !! k = None);
      [done| |unfold SIZE_MAX in *; split; [lia|split; [lia|done]]|unfold SIZE_MAX; lia].
    clear. intros [d' n'] m' (Hk & Hn & HN). cbn zeta.
    rewrite (proj2 (Z.eqb_neq _ 0)), (wrap_small 64) by lia. unfold bind, store8, ret.
    destruct (m' !! d') eqn:E; [|done]. cbn [fturn].
    assert (k <> d') by congruence. rewrite lookup_insert_ne by done. split; [split; [lia|split; [lia|done]]|lia].
Qed.

(** ** Comparison *)

(** The answer of [strcmp]: the difference of the first two characters that
    differ, the terminator counting as the character 0. *)
Definition strcmp_spec (l1 l2 : list Z) : Z := cmp_bytes (l1 ++ [0]) (l2 ++ [0]).

Lemma strcmp_spec_eq_0 l1 : forall l2,
  Forall cchar l1 -> Forall cchar l2 -> strcmp_spec l1 l2 = 0 <-> l1 = l2.
Proof.
  unfold strcmp_spec, cchar. induction l1 as [|a l1 IH]; intros [|b l2] H1 H2; cbn [app cmp_bytes].
  - done.
  - apply Forall_cons in H2 as [Hb _]. rewrite (proj2 (Z.eqb_neq 0 b)) by lia.
    split; [lia|done].
  - apply Forall_cons in H1 as [Ha _]. rewrite (proj2 (Z.eqb_neq a 0)) by lia.
    split; [lia|done].
  - apply Forall_cons in H1 as [Ha H1], H2 as [Hb H2].
    destruct (Z.eqb_spec a b) as [->|Hne].
    + rewrite IH by done. split; [by intros ->|by intros [= ->]].
    + split; [lia|by intros [= ? _]].
Qed.

(** A string being read: its first byte, and where to go from there. *)
Lemma cstr_head m a l : cstr m a l ->
  exists b, m !! a = Some b /\ byte b /\ l ++ [0] = b :: tail (l ++ [0]) /\
    (b = 0 <-> l = []) /\ (b <> 0 -> l = b :: tail l /\ cchar b /\ cstr m (a + 1) (tail l)).
Proof.
  destruct l as [|b l]; intros H.
  - apply cstr_nil in H. exists 0. unfold byte. repeat split; auto; lia.
  - apply cstr_cons in H as (Hb & Ha & H). exists b.
    unfold cchar, byte in *. repeat split; auto; try lia; done || apply H.
Qed.

(** [strcmp] returns the difference of the first characters (as
    unsigned bytes) in which the strings differ, and 0 when they are equal. *)
Theorem strcmp_correct s1 s2 l1 l2 m :
  cstr m s1 l1 -> cstr m s2 l2 -> Z.of_nat (length l1) < 2 ^ 64 ->
  strcmp s1 s2 m = Ok (strcmp_spec l1 l2, m).
Proof.
  intros H1 H2 Hn. apply wp_det. unfold strcmp. wp_step.
  set (r := strcmp_spec l1 l2). set (e := s1 + Z.of_nat (length l1)).
  apply wp_mono with (P := fun '(p1, p2) m' => m' = m /\ exists b1 b2,
    m !! p1 = Some b1 /\ m !! p2 = Some b2 /\ r = b1 - b2).
  { apply wp_loop with (m := fun '(p1, _) _ => e - p1)
      (I := fun '(p1, p2) m' => m' = m /\ exists k1 k2, cstr m p1 k1 /\ cstr m p2 k2 /\
         r = strcmp_spec k1 k2 /\ e = p1 + Z.of_nat (length k1));
      [|split; [done|]; by exists l1, l2|lia].
    intros [p1 p2] m' (-> & k1 & k2 & K1 & K2 & Hr & He).
    apply cstr_head in K1 as (b1 & Hb1 & B1 & E1 & Z1 & C1).
    apply cstr_head in K2 as (b2 & Hb2 & B2 & E2 & Z2 & C2).
    unfold strcmp_spec in Hr. rewrite E1, E2 in Hr. cbn [cmp_bytes] in Hr.
    apply wp_bind, wp_load_char with b1; [done|]. rewrite s8_zero by done.
    destruct (Z.eqb_spec b1 0) as [Hz1|Hz1].
    - wp_step. split; [done|]. exists b1, b2. split; [done|]. split; [done|].
      destruct (Z.eqb_spec b1 b2) as [Heq|]; [|done]. subst b1. subst b2.
      rewrite (proj1 Z1), (proj1 Z2) in Hr by done. done.
    - apply wp_bind, wp_load_char with b2; [done|]. rewrite s8_zero, s8_inj by done.
      destruct (C1 Hz1) as (Ek1 & _ & Hk1).
      destruct (Z.eqb_spec b2 0) as [Hz2|Hz2]; [|destruct (Z.eqb_spec b1 b2) as [Heq|Hne]].
      + wp_steps. split; [done|]. exists b1, b2. split; [done|]. split; [done|].
        by rewrite (proj2 (Z.eqb_neq b1 b2)) in Hr by congruence.
      + destruct (C2 Hz2) as (Ek2 & _ & Hk2). wp_steps.
        assert (length k1 = S (length (tail k1))) as Hl by (rewrite Ek1 at 1; done).
        split; [|lia]. split; [done|]. exists (tail k1), (tail k2).
        split; [done|]. split; [done|]. split; [|lia]. rewrite Hr.
        unfold strcmp_spec. rewrite Ek1, Ek2 at 1. done.
      + wp_steps. split; [done|]. by exists b1, b2. }
  intros [p1 p2] m' (-> & b1 & b2 & Hb1 & Hb2 & Hr). wp_step.
  apply wp_load8 with b1; [done|]. wp_step. apply wp_load8 with b2; [done|]. by wp_step.
Qed.

(** ** Scanning for a set of characters *)

Definition mem_char (l : list Z) (c : Z) : bool := bool_decide (c ∈ l).

Fixpoint span_len (P : Z -> bool) (l : list Z) : nat :=
  match l with
  | [] => 0
  | b :: l => if P b then S (span_len P l) else 0
  end.

Lemma wp_char_in c a l m :
  byte c -> cstr m a l -> Z.of_nat (length l) < 2 ^ 64 ->
  wp (char_in (s8 c) a) (fun r m' => m' = m /\ r = mem_char l c) m.
Proof.
  intros Hc Ha Hl. unfold char_in. set (r := mem_char l c). set (e := a + Z.of_nat (length l)).
  apply wp_loop with (m := fun p _ => e - p)
    (I := fun p m' => m' = m /\ exists k, cstr m p k /\ e = p + Z.of_nat (length k) /\
       r = mem_char k c); [|split; [done|]; by exists l|lia].
  intros p m' (-> & k & Hk & He & Hr). wp_step. eapply wp_load_head; [exact Hk| |].
  - intros ->. wp_steps. split; [done|]. rewrite Hr. done.
  - intros b k' -> Hb Hk' Ez. rewrite Ez, s8_inj by (done || by apply cchar_byte).
    cbn [length] in *. unfold mem_char in Hr.
    destruct (Z.eqb_spec c b) as [->|Hne]; wp_step.
    + split; [done|]. rewrite Hr. symmetry. apply bool_decide_eq_true, elem_of_cons. by left.
    + split; [|lia]. split; [done|]. exists k'. split; [done|]. split; [lia|].
      rewrite Hr. unfold mem_char. apply bool_decide_ext. rewrite elem_of_cons. tauto.
Qed.

(** [strcspn] and [strspn] measure the longest prefix outside, respectively
    inside, the character set. *)
Lemma wp_span (keep : bool) a r l rl m :
  cstr m a l -> cstr m r rl ->
  Z.of_nat (length l) < 2 ^ 64 -> Z.of_nat (length rl) < 2 ^ 64 ->
  wp (loop (fun '(s, count) =>
        let* c := load_char s in
        if c =? 0 then ret (Done count)
        else
          let* found := char_in c r in
          if eqb found keep then ret (Next (s + 1, count + 1)) else ret (Done count)) (a, 0))
     (fun k m' => m' = m /\ k = Z.of_nat (span_len (fun b => eqb (mem_char rl b) keep) l)) m.
Proof.
  intros Ha Hr Hl Hrl. set (P := fun b => eqb (mem_char rl b) keep). set (e := a + Z.of_nat (length l)).
  apply wp_loop with (m := fun '(p, _) _ => e - p)
    (I := fun '(p, count) m' => m' = m /\ exists k, cstr m p k /\ e = p + Z.of_nat (length k) /\
       Z.of_nat (span_len P l) = count + Z.of_nat (span_len P k));
    [|split; [done|]; by exists l|lia].
  intros [p count] m' (-> & k & Hk & He & Hc). wp_step. eapply wp_load_head; [exact Hk| |].
  - intros ->. wp_steps. cbn [span_len] in Hc. split; [done|]. lia.
  - intros b k' -> Hb Hk' ->. cbn [length span_len] in *. wp_steps.
    eapply wp_mono; [apply wp_char_in; [by apply cchar_byte|done|done]|].
    intros ? ? [-> ->]. fold (P b). destruct (P b); wp_step.
    + split; [|lia]. split; [done|]. exists k'. split; [done|]. lia.
    + split; [done|]. lia.
Qed.

Lemma span_len_ext (P P' : Z -> bool) l : (forall b, P b = P' b) -> span_len P l = span_len P' l.
Proof. intros H. induction l as [|b l IH]; simpl; [done|]. by rewrite H, IH. Qed.

Lemma wp_strcspn a r l rl m :
  cstr m a l -> cstr m r rl ->
  Z.of_nat (length l) < 2 ^ 64 -> Z.of_nat (length rl) < 2 ^ 64 ->
  wp (strcspn a r)
     (fun k m' => m' = m /\ k = Z.of_nat (span_len (fun b => negb (mem_char rl b)) l)) m.
Proof.
  intros Ha Hr Hl Hrl.
  rewrite (span_len_ext _ (fun b => eqb (mem_char rl b) false)) by (intros b; by destruct mem_char).
  unfold strcspn. eapply wp_loop_ext; [|exact (wp_span false a r l rl m Ha Hr Hl Hrl)].
  intros [s count] m'. apply bind_ext. intros c m1. destruct (c =? 0); [done|].
  apply bind_ext. by intros [] m2.
Qed.

Lemma wp_strspn a r l rl m :
  cstr m a l -> cstr m r rl ->
  Z.of_nat (length l) < 2 ^ 64 -> Z.of_nat (length rl) < 2 ^ 64 ->
  wp (strspn a r) (fun k m' => m' = m /\ k = Z.of_nat (span_len (mem_char rl) l)) m.
Proof.
  intros Ha Hr Hl Hrl.
  rewrite (span_len_ext _ (fun b => eqb (mem_char rl b) true)) by (intros b; by destruct mem_char).
  unfold strspn. eapply wp_loop_ext; [|exact (wp_span true a r l rl m Ha Hr Hl Hrl)].
  intros [s count] m'. apply bind_ext. intros c m1. destruct (c =? 0); [done|].
  apply bind_ext. by intros [] m2.
Qed.

Theorem strcspn_correct a r l rl m :
  cstr m a l -> cstr m r rl ->
  Z.of_nat (length l) < 2 ^ 64 -> Z.of_nat (length rl) < 2 ^ 64 ->
  strcspn a r m = Ok (Z.of_nat (span_len (fun b => negb (mem_char rl b)) l), m) /\
  strspn a r m = Ok (Z.of_nat (span_len (mem_char rl) l), m).
Proof.
  intros Ha Hr Hl Hrl. split; apply wp_det.
  - eapply wp_mono; [by apply wp_strcspn|]. by intros ? ? [-> ->].
  - eapply wp_mono; [by apply wp_strspn|]. by intros ? ? [-> ->].
Qed.

(** ** [strtok_r] *)

(** The pointer variable at [a] holds [p]. *)
Definition ptr_at (m : mem) (a p : Z) : Prop := 0 <= p < 2 ^ 64 /\ bytes_at m a (le_bytes 8 p).

Lemma le_join_bytes n : forall w, 0 <= w < 256 ^ Z.of_nat n -> le_join (le_bytes n w) = w.
Proof.
  induction n as [|n IH]; intros w Hw; cbn [le_bytes le_join].
  - simpl in Hw. lia.
  - rewrite Nat2Z.inj_succ, Z.pow_succ_r in Hw by lia.
    rewrite IH; [|split; [apply Z.div_pos; lia|apply Z.div_lt_upper_bound; lia]].
    pose proof (Z.div_mod w 256 ltac:(lia)). lia.
Qed.

Lemma wp_load_ptr a p (Q : Z -> mem -> Prop) m : ptr_at m a p -> Q p m -> wp (load64 a) Q m.
Proof.
  intros [Hp H] HQ. apply wp_load64 with (le_bytes 8 p); [done|apply le_bytes_length|].
  by rewrite le_join_bytes.
Qed.

Lemma wp_store_ptr a p (Q : unit -> mem -> Prop) m :
  mapped m a 8 -> (forall m', m' = write a (le_bytes 8 p) m -> Q tt m') -> wp (store64 a p) Q m.
Proof. intros Hm HQ. apply wp_stores; [done|apply le_bytes_byte|by apply HQ]. Qed.

Lemma ptr_at_write m a p : 0 <= p < 2 ^ 64 -> ptr_at (write a (le_bytes 8 p) m) a p.
Proof. intros Hp. split; [done|]. apply write_bytes_at. Qed.

(** The first token of [l]: what is skipped before it, the token, and what is
    left after the delimiter that ends it, if one does. *)
Definition next_token (delim l : list Z) : option (nat * list Z * option (list Z)) :=
  let k := span_len (mem_char delim) l in
  let l' := drop k l in
  let n := span_len (fun b => negb (mem_char delim b)) l' in
  match l' with
  | [] => None
  | _ => Some (k, take n l', match drop n l' with [] => None | _ :: rest => Some rest end)
  end.

Lemma span_len_le P l : (span_len P l <= length l)%nat.
Proof. induction l as [|b l IH]; simpl; [done|]. destruct (P b); lia. Qed.

Lemma span_len_drop P l b rest : drop (span_len P l) l = b :: rest -> P b = false.
Proof.
  induction l as [|c l IH]; simpl; [done|]. destruct (P c) eqn:E; simpl; [done|]. by intros [= -> _].
Qed.

(** The loop that skips leading delimiters. *)
Lemma wp_skip delim p l dl m :
  cstr m p l -> cstr m delim dl ->
  Z.of_nat (length l) < 2 ^ 64 -> Z.of_nat (length dl) < 2 ^ 64 ->
  wp (loop (fun token =>
        let* c := load_char token in
        if c =? 0 then ret (Done token)
        else
          let* k := strcspn token delim in
          if k =? 0 then ret (Next (token + 1)) else ret (Done token)) p)
     (fun t m' => m' = m /\ t = p + Z.of_nat (span_len (mem_char dl) l)) m.
Proof.
  intros Hp Hd Hl Hdl. set (e := p + Z.of_nat (length l)).
  set (q := p + Z.of_nat (span_len (mem_char dl) l)).
  apply wp_loop with (m := fun t _ => e - t)
    (I := fun t m' => m' = m /\ p <= t /\ exists k, cstr m t k /\ e = t + Z.of_nat (length k) /\
       q = t + Z.of_nat (span_len (mem_char dl) k)); [|split; [done|]; split; [lia|]; by exists l|lia].
  intros t m' (-> & Hpt & k & Hk & He & Hq). wp_step. eapply wp_load_head; [exact Hk| |].
  - intros ->. wp_steps. split; [done|]. simpl in Hq. lia.
  - intros b k' -> Hb Hk' ->. cbn [length span_len] in *. wp_steps.
    eapply wp_mono; [apply wp_strcspn; [exact Hk|exact Hd|cbn [length]; lia|done]|].
    intros ? ? [-> ->]. cbn [span_len]. destruct (mem_char dl b); cbn [negb].
    + change (Z.of_nat 0 =? 0) with true. wp_step. split; [|lia]. split; [done|]. split; [lia|]. exists k'.
      split; [done|]. lia.
    + rewrite (proj2 (Z.eqb_neq (Z.of_nat (S (span_len _ k'))) 0)) by lia. wp_step. split; [done|]. lia.
Qed.

(** Writing a terminator into a string cuts it in two. *)
Lemma cstr_cut m a l1 b l2 :
  cstr m a (l1 ++ b :: l2) ->
  cstr (<[a + Z.of_nat (length l1) := 0]> m) a l1 /\
  cstr (<[a + Z.of_nat (length l1) := 0]> m) (a + Z.of_nat (length l1) + 1) l2.
Proof.
  intros H. pose proof (cstr_drop _ _ _ _ H) as H2. apply cstr_cons in H2 as (_ & _ & H2).
  destruct H as [Hc Hb]. apply Forall_app in Hc as [Hc _].
  rewrite <- app_assoc in Hb. apply bytes_at_app in Hb as [Hb _].
  change (<[?k := 0]> m) with (write k [0] m). split.
  - split; [done|]. apply bytes_at_app. split.
    + apply bytes_at_write_out; [done|]. lia.
    + apply write_bytes_at.
  - apply cstr_write_out; [done|]. cbn [length]. lia.
Qed.

Lemma cstr_insert_out m a v b l :
  cstr m b l -> a < b \/ b + Z.of_nat (length l) < a -> cstr (<[a := v]> m) b l.
Proof.
  intros H Ha. change (<[a := v]> m) with (write a [v] m). apply cstr_write_out; [done|].
  cbn [length]. lia.
Qed.

Lemma cstr_save m s q a l :
  cstr m a l -> s + 8 <= a \/ a + Z.of_nat (length l) + 1 <= s ->
  cstr (write s (le_bytes 8 q) m) a l.
Proof. intros H Hs. apply cstr_write_out; [done|]. rewrite le_bytes_length. lia. Qed.

Section Strtok.
Context (delim saveptr p : Z) (l dl : list Z).
Hypothesis l_small : Z.of_nat (length l) < 2 ^ 64.
Hypothesis dl_small : Z.of_nat (length dl) < 2 ^ 64.
Hypothesis p_small : 0 < p /\ p + Z.of_nat (length l) < 2 ^ 64.
Hypothesis saveptr_apart :
  saveptr + 8 <= p \/ p + Z.of_nat (length l) + 1 <= saveptr.
Hypothesis delim_apart_saveptr :
  saveptr + 8 <= delim \/ delim + Z.of_nat (length dl) + 1 <= saveptr.
Hypothesis delim_apart :
  p + Z.of_nat (length l) <= delim \/ delim + Z.of_nat (length dl) + 1 <= p.

(** What a call finds once the string is the one at [p]. *)
Definition strtok_ready (m : mem) : Prop :=
  ptr_at m saveptr p /\ mapped m saveptr 8 /\ cstr m p l /\ cstr m delim dl.

(** What it leaves. *)
Definition strtok_left (r : Z) (m : mem) : Prop :=
  cstr m delim dl /\
  match next_token dl l with
  | None => r = 0 /\ (l <> [] -> ptr_at m saveptr 0)
  | Some (k, tok, rest) =>
      r = p + Z.of_nat k /\ cstr m r tok /\
      match rest with
      | None => ptr_at m saveptr 0
      | Some rest =>
          ptr_at m saveptr (r + Z.of_nat (length tok) + 1) /\
          cstr m (r + Z.of_nat (length tok) + 1) rest
      end
  end.


Lemma wp_strtok_saved m :
  strtok_ready m -> saveptr <> 0 -> wp (strtok_r 0 delim saveptr) strtok_left m.
Proof using All.
  intros (Hs & Hm & Hp & Hd) Hn. unfold strtok_r.
  rewrite (proj2 (Z.eqb_neq saveptr 0)) by done. wp_steps.
  eapply wp_load_ptr; [exact Hs|]. rewrite (proj2 (Z.eqb_neq p 0)) by lia. wp_steps.
  eapply wp_load_head; [exact Hp| |].
  { intros El. wp_steps. split; [done|]. rewrite El. unfold next_token. simpl. done. }
  intros b l' El Hb _ ->. wp_steps.
  eapply wp_mono; [by apply (wp_skip delim p l dl)|]. intros ? ? [-> ->].
  set (k := span_len (mem_char dl) l). set (t := p + Z.of_nat k).
  pose proof (span_len_le (mem_char dl) l) as Lk. fold k in Lk.
  assert (length (take k l) = k) as Lt by (rewrite length_take; lia).
  assert (cstr m t (drop k l)) as Ht.
  { unfold t. rewrite <- Lt at 1. apply cstr_drop. by rewrite take_drop. }
  assert (length (drop k l) = (length l - k)%nat) as Ld by apply length_drop.
  unfold strtok_left, next_token. fold k.
  wp_steps. eapply wp_load_head; [exact Ht| |].
  { intros ->. wp_steps. apply wp_store_ptr; [done|]. intros m' ->. wp_steps.
    split; [by apply cstr_save|]. split; [done|]. intros _. by apply ptr_at_write. }
  intros c l1 El1 Hc _ ->. rewrite El1. rewrite El1 in Ht, Ld. wp_steps.
  eapply wp_mono; [apply wp_strcspn; [exact Ht|exact Hd|lia|done]|]. intros ? ? [-> ->].
  set (n := span_len _ (c :: l1)). wp_steps.
  assert (n <= length (c :: l1))%nat as Ln by apply span_len_le.
  assert (length (take n (c :: l1)) = n) as Ltn by (rewrite length_take; lia).
  assert (length (drop n (c :: l1)) = (length (c :: l1) - n)%nat) as Ldn by apply length_drop.
  pose proof (take_drop n (c :: l1)) as Etd. rewrite Ltn.
  assert (cstr m (t + Z.of_nat n) (drop n (c :: l1))) as He.
  { rewrite <- Ltn at 1. apply cstr_drop. by rewrite Etd. }
  set (tok := take n (c :: l1)) in *. set (rest := drop n (c :: l1)) in *. clearbody tok rest n.
  rewrite <- Etd in Ht.
  eapply wp_load_head; [exact He| |].
  - intros ->. rewrite app_nil_r in Ht. wp_steps. apply wp_store_ptr; [done|].
    intros m' ->. wp_steps. split; [by apply cstr_save|]. split; [done|].
    split; [apply cstr_save; [done|]; lia|by apply ptr_at_write].
  - intros e rest' -> _ He' ->. cbn [length] in Ldn, Ld. wp_steps.
    apply wp_store8; [exists e; by apply cstr_cons in He as (_ & ? & _)|]. change (u8 0) with 0.
    apply cstr_cut in Ht as [Ht1 Ht2]. rewrite Ltn in Ht1, Ht2. wp_steps.
    apply wp_store_ptr; [by apply (write_mapped _ [0])|]. intros m' ->. wp_steps.
    split; [apply cstr_save; [|done]; apply cstr_insert_out; [done|]; lia|].
    split; [done|]. split; [apply cstr_save; [done|]; lia|].
    split; [by apply ptr_at_write; lia|]. apply cstr_save; [done|]. lia.
Qed.
End Strtok.

Lemma strtok_r_start str delim saveptr m :
  saveptr <> 0 -> str <> 0 ->
  strtok_r str delim saveptr m = bind (store64 saveptr str) (fun _ => strtok_r 0 delim saveptr) m.
Proof.
  intros H1 H2. unfold strtok_r.
  rewrite (proj2 (Z.eqb_neq saveptr 0)), (proj2 (Z.eqb_neq str 0)) by done. done.
Qed.

(** [strtok_r], on the first call of a scan and on every later one,
    splits off the next token: it returns the address of the first character
    outside the delimiter set, terminates the token in place, and leaves in
    the save pointer the address just behind the delimiter it overwrote, or
    null when the string ends. *)
Theorem strtok_r_correct str delim saveptr p l dl m :
  Z.of_nat (length l) < 2 ^ 64 -> Z.of_nat (length dl) < 2 ^ 64 ->
  0 < p /\ p + Z.of_nat (length l) < 2 ^ 64 ->
  saveptr + 8 <= p \/ p + Z.of_nat (length l) + 1 <= saveptr ->
  saveptr + 8 <= delim \/ delim + Z.of_nat (length dl) + 1 <= saveptr ->
  p + Z.of_nat (length l) <= delim \/ delim + Z.of_nat (length dl) + 1 <= p ->
  saveptr <> 0 -> mapped m saveptr 8 -> cstr m p l -> cstr m delim dl ->
  str = p \/ str = 0 /\ ptr_at m saveptr p ->
  wp (strtok_r str delim saveptr) (strtok_left delim saveptr p l dl) m.
Proof.
  intros ?????? Hs Hm Hp Hd [->|[-> Hsp]].
  - unfold wp. rewrite strtok_r_start by lia. apply wp_bind, wp_store_ptr; [done|].
    intros m' ->. apply wp_strtok_saved; try done.
    split; [apply ptr_at_write; lia|]. split; [by apply write_mapped|].
    split; by apply cstr_save.
  - by apply wp_strtok_saved.
Qed.

(** A string just written. *)
Lemma cstr_written a l m : Forall cchar l -> cstr (write a (l ++ [0]) m) a l.
Proof. intros H. split; [done|]. apply write_bytes_at. Qed.

(** ** Checking a concrete memory *)

Fixpoint has_bytes (m : mem) (a : Z) (l : list Z) : bool :=
  match l with
  | [] => true
  | b :: l => bool_decide (m !! a = Some b) && has_bytes m (a + 1) l
  end.

Lemma has_bytes_at m l : forall a, has_bytes m a l = true -> bytes_at m a l.
Proof.
  induction l as [|b l IH]; intros a H; [by intros i c Hi|]. cbn in H. apply andb_true_iff in H as [Hb H].
  apply bytes_at_cons. split; [by apply bool_decide_eq_true in Hb|auto].
Qed.

Definition is_cchar (c : Z) : bool := (0 <? c) && (c <? 256).

Lemma all_cchars l : forallb is_cchar l = true -> Forall cchar l.
Proof.
  induction l as [|c l IH]; intros H; [done|]. cbn in H. apply andb_true_iff in H as [Hc H].
  unfold is_cchar in Hc. constructor; [unfold cchar; lia|auto].
Qed.

Lemma has_cstr m a l : forallb is_cchar l && has_bytes m a (l ++ [0]) = true -> cstr m a l.
Proof. rewrite andb_true_iff. intros [Hc Hb]. split; [by apply all_cchars|by apply has_bytes_at]. Qed.

Lemma has_cstr_padded m a l :
  forallb is_cchar l && has_bytes m a (l ++ replicate 8 0) = true -> cstr_padded m a l.
Proof.
  rewrite andb_true_iff. intros [Hc Hb]. apply has_bytes_at in Hb.
  change (replicate 8 0) with ([0] ++ replicate 7 0) in Hb. rewrite app_assoc in Hb. apply bytes_at_app in Hb as [H1 H2].
  split; [split; [by apply all_cchars|done]|].
  exists (replicate 7 0). split; [done|]. split; [by repeat constructor|].
  rewrite length_app in H2. cbn [length] in H2. by replace (a + Z.of_nat (length l) + 1) with (a + Z.of_nat (length l + 1)) by lia.
Qed.

Lemma has_mapped m a n : has_bytes m a (replicate (Z.to_nat n) 0) = true -> mapped m a n.
Proof.
  intros H. apply has_bytes_at, bytes_at_mapped in H. rewrite length_replicate in H. apply (mapped_le _ _ _ _ _ H); lia.
Qed.

Lemma has_ptr m a v : (0 <=? v) && (v <? 2 ^ 64) && has_bytes m a (le_bytes 8 v) = true -> ptr_at m a v.
Proof. rewrite !andb_true_iff. intros [[H1 H2] H3]. split; [lia|by apply has_bytes_at]. Qed.

(** ** Witnesses *)

(** ["ab"] at 4096, zero-filled up to 4112. *)
Definition demo_ab : mem := write 4096 ([97; 98] ++ replicate 14 0) ∅.

Lemma demo_ab_cstr : cstr demo_ab 4096 [97; 98].
Proof.
  split; [repeat constructor|]. intros i b H.
  do 3 (destruct i as [|i]; [injection H as <-; reflexivity|]). done.
Qed.

Lemma strlen_correct_witness : strlen 4096 demo_ab = Ok (2, demo_ab).
Proof.
  apply (strlen_correct 4096 [97; 98]); [simpl; lia|]. split; [exact demo_ab_cstr|].
  exists (replicate 7 0). split; [done|]. split; [apply Forall_replicate; unfold byte; lia|].
  intros i b H. do 7 (destruct i as [|i]; [injection H as <-; reflexivity|]). done.
Defined.

Lemma strcpy_correct_witness :
  strcpy 4104 4096 demo_ab = Ok (4104, write 4104 [97; 98; 0] demo_ab).
Proof.
  apply (strcpy_correct 4104 4096 [97; 98]); [exact demo_ab_cstr|simpl; lia| |simpl; lia].
  intros k Hk. assert (k = 4104 \/ k = 4105 \/ k = 4106) as [->|[->| ->]] by (simpl in Hk; lia);
    by eexists.
Defined.

(** Two characters into two bytes, with the byte at 5000 unmapped. *)
Lemma strncpy_overruns_witness : strncpy 4104 4096 2 demo_ab = Fault.
Proof.
  apply (strncpy_overruns 4104 4096 [97; 98] 5000);
    [repeat constructor|simpl; lia| | |simpl; lia|unfold SIZE_MAX; simpl; lia|reflexivity].
  - intros i b H. do 2 (destruct i as [|i]; [injection H as <-; reflexivity|]). done.
  - intros k Hk. assert (k = 4104 \/ k = 4105) as [->| ->] by (simpl in Hk; lia); by eexists.
Defined.

Lemma strcmp_correct_witness : strcmp 4096 4097 demo_ab = Ok (-1, demo_ab).
Proof.
  apply (strcmp_correct 4096 4097 [97; 98] [98]); [exact demo_ab_cstr| |simpl; lia].
  apply (cstr_drop demo_ab 4096 [97] [98]). exact demo_ab_cstr.
Defined.

(** The path ["/a/b"] cut at the slashes, with the save pointer at 5000. *)
Definition demo_path : mem :=
  write 5000 (replicate 8 0) (write 4000 [47; 0] (write 4096 ([47; 97; 47; 98] ++ [0]) ∅)).

Lemma strtok_r_correct_witness :
  wp (strtok_r 4096 4000 5000) (strtok_left 4000 5000 4096 [47; 97; 47; 98] [47]) demo_path.
Proof.
  apply strtok_r_correct; try (simpl; lia).
  - intros k Hk. unfold demo_path. apply (zeros_mapped 5000 8). lia.
  - unfold demo_path. apply cstr_write_out; [|simpl; lia]. apply cstr_write_out; [|simpl; lia].
    apply cstr_written. repeat constructor.
  - unfold demo_path. apply cstr_write_out; [|simpl; lia].
    apply (cstr_written 4000 [47]). repeat constructor.
Defined.
