(* ===== verification/Ctype.v ===== *)
(** * Character classification (libc/src/ctype/ctype.c, libc/include/ctype.h)

    The functions of [<ctype.h>] on an [int] argument; the [_C_] macros they
    expand to are inlined.  A predicate is a [bool], the truth of the [int]
    the C function returns.  Characters are written as their ASCII codes. *)

From S2P Require Import Prelude.

(** ** Definitions *)

Definition isdigit (c : Z) : bool := (48 <=? c) && (c <=? 57).
Definition isalpha (c : Z) : bool :=
  ((65 <=? c) && (c <=? 90)) || ((97 <=? c) && (c <=? 122)).
Definition isalnum (c : Z) : bool := isalpha c || isdigit c.
(** [(unsigned int)(c) <= 127]. *)
Definition isascii (c : Z) : bool := u32 c <=? 127.
Definition isblank (c : Z) : bool := (c =? 32) || (c =? 9).
Definition iscntrl (c : Z) : bool := ((0 <=? c) && (c <=? 31)) || (c =? 127).
Definition isgraph (c : Z) : bool := (33 <=? c) && (c <=? 126).
Definition islower (c : Z) : bool := (97 <=? c) && (c <=? 122).
Definition isprint (c : Z) : bool := (32 <=? c) && (c <=? 126).
Definition ispunct (c : Z) : bool :=
  ((33 <=? c) && (c <=? 47)) || ((58 <=? c) && (c <=? 64)) ||
  ((91 <=? c) && (c <=? 96)) || ((123 <=? c) && (c <=? 126)).
Definition isspace (c : Z) : bool :=
  (c =? 32) || (c =? 12) || (c =? 10) || (c =? 13) || (c =? 9) || (c =? 11).
Definition isupper (c : Z) : bool := (65 <=? c) && (c <=? 90).
Definition isxdigit (c : Z) : bool :=
  isdigit c || ((65 <=? c) && (c <=? 70)) || ((97 <=? c) && (c <=? 102)).

Definition tolower (c : Z) : Z := if isupper c then c + 32 else c.
Definition toupper (c : Z) : Z := if islower c then c - 32 else c.

(** ** Lemmas *)

(** Case analysis on every comparison of the goal and the context. *)
Ltac ctype_cases :=
  unfold isalnum, isalpha, isdigit, isblank, iscntrl, isgraph, islower, isprint,
    ispunct, isspace, isupper, isxdigit in *;
  repeat match goal with
    | |- context [?x <=? ?y] => destruct (Z.leb_spec x y); cbn [andb orb negb]
    | |- context [?x =? ?y] => destruct (Z.eqb_spec x y); cbn [andb orb negb]
    end; try (done || lia).

Lemma isdigit_spec c : isdigit c = true <-> 48 <= c <= 57.
Proof. unfold isdigit. rewrite andb_true_iff, !Z.leb_le. done. Qed.

Lemma isalpha_split c : isalpha c = isupper c || islower c.
Proof. done. Qed.

Lemma isupper_spec c : isupper c = true <-> 65 <= c <= 90.
Proof. unfold isupper. rewrite andb_true_iff, !Z.leb_le. done. Qed.

Lemma islower_spec c : islower c = true <-> 97 <= c <= 122.
Proof. unfold islower. rewrite andb_true_iff, !Z.leb_le. done. Qed.

Lemma isascii_spec c : - 2 ^ 31 <= c < 2 ^ 31 -> isascii c = true <-> 0 <= c <= 127.
Proof.
  intros Hc. unfold isascii. rewrite Z.leb_le. unfold wrap. split; intros H.
  - destruct (decide (0 <= c)) as [|Hn]; [rewrite Z.mod_small in H; lia|].
    rewrite <- (Z_mod_plus_full c 1), Z.mod_small in H; lia.
  - rewrite Z.mod_small; lia.
Qed.

(** The classes partition the ASCII characters as the C standard
    lays them out: a character of an [int] argument is ASCII exactly when it
    is a control character or printable, the two exclude each other,
    printable is graphic or space, graphic is alphanumeric or punctuation,
    and those exclude each other; [tolower] and [toupper] move letters to the
    other case, keep every other character, and undo each other on letters. *)
Theorem ctype_partition c : - 2 ^ 31 <= c < 2 ^ 31 ->
  isascii c = iscntrl c || isprint c /\ iscntrl c && isprint c = false /\
  isprint c = isgraph c || (c =? 32) /\
  isgraph c = isalnum c || ispunct c /\ isalnum c && ispunct c = false /\
  (isupper c = true -> islower (tolower c) = true /\ toupper (tolower c) = c) /\
  (islower c = true -> isupper (toupper c) = true /\ tolower (toupper c) = c) /\
  (isalpha c = false -> tolower c = c /\ toupper c = c).
Proof.
  intros Hc. assert (isascii c = (0 <=? c) && (c <=? 127)) as ->.
  { apply eq_true_iff_eq. rewrite isascii_spec by done.
    by rewrite andb_true_iff, !Z.leb_le. }
  unfold tolower, toupper.
  split; [by ctype_cases|]. split; [by ctype_cases|]. split; [by ctype_cases|].
  split; [by ctype_cases|]. split; [by ctype_cases|].
  split; [|split].
  - intros Hu. rewrite Hu. apply isupper_spec in Hu.
    assert (islower (c + 32) = true) as -> by (apply islower_spec; lia). split; [done|lia].
  - intros Hl. rewrite Hl. apply islower_spec in Hl.
    assert (isupper (c - 32) = true) as -> by (apply isupper_spec; lia). split; [done|lia].
  - rewrite isalpha_split, orb_false_iff. by intros [-> ->].
Qed.

Lemma ctype_partition_witness :
  islower (tolower 65) = true /\ toupper (tolower 65) = 65.
Proof. apply (ctype_partition 65); [lia|done]. Defined.
