(* ===== verification/Strtol.v ===== *)
(** * String to integer conversion (libc/src/stdlib/atoi.c)

    [strtol], [strtoll], [strtoul], [strtoull] and the [atoi] family over the
    byte memory of [CMem].  [long] and [long long] have 64 bits.  The four
    converters of the source repeat the same scanning code; its phases are
    the definitions [skip_space], [take_sign], [take_prefix] and
    [scan_digits], and each converter composes them as its body does. *)

From S2P Require Import Prelude CMem CStr Ctype.

Definition LONG_MAX : Z := 2 ^ 63 - 1.
Definition LONG_MIN : Z := - 2 ^ 63.
Definition ULONG_MAX : Z := 2 ^ 64 - 1.

(** ** Definitions *)

(** [do { c = *s++; } while (isspace(c));] *)
Definition skip_space (s : Z) : prog mem (Z * Z) :=
  loop (fun s =>
    let* c := load_char s in
    if isspace c then ret (Next (s + 1)) else ret (Done (c, s + 1))) s.

(** The sign: whether the number is negated, the next character, and where
    the one after it lies. *)
Definition take_sign (c s : Z) : prog mem (bool * Z * Z) :=
  if c =? 45 then let* c := load_char s in ret (true, c, s + 1)
  else if c =? 43 then let* c := load_char s in ret (false, c, s + 1)
  else ret (false, c, s).

(** The base prefix: next character, position, base. *)
Definition take_prefix (c s base : Z) : prog mem (Z * Z * Z) :=
  let* hex :=
    if ((base =? 0) || (base =? 16)) && (c =? 48) then
      let* x := load_char s in
      if x =? 120 then ret true else let* x := load_char s in ret (x =? 88)
    else ret false in
  if (hex : bool) then let* c := load_char (s + 1) in ret (c, s + 2, 16)
  else if base =? 0 then ret (c, s, if c =? 48 then 8 else 10)
  else ret (c, s, base).

(** The value of a digit character, if it is one. *)
Definition digit_of (c : Z) : option Z :=
  if isdigit c then Some (c - 48)
  else if isalpha c then Some (c - (if isupper c then 65 - 10 else 97 - 10))
  else None.

(** The accumulation loop: [acc], [any] and the position after it. *)
Definition scan_digits (cutoff cutlim base c s : Z) : prog mem (Z * Z * Z) :=
  loop (fun '(acc, any, c, s) =>
    match digit_of c with
    | None => ret (Done (acc, any, s))
    | Some d =>
        if base <=? d then ret (Done (acc, any, s))
        else
          let '(acc, any) :=
            if (any <? 0) || (cutoff <? acc) || ((acc =? cutoff) && (cutlim <? d))
            then (acc, -1)
            else (u64 (u64 (acc * base) + d), 1) in
          let* c := load_char s in
          ret (Next (acc, any, c, s + 1))
    end) (0, 0, c, s).

(** [if (endptr) *endptr = p;] *)
Definition set_endptr (endptr p : Z) : prog mem unit :=
  if negb (endptr =? 0) then store64 endptr p else ret tt.

Definition strtol (nptr endptr base : Z) : prog mem Z :=
  let* (c, s) := skip_space nptr in
  let* (neg, c, s) := take_sign c s in
  let* (c, s, base) := take_prefix c s base in
  if (base <? 2) || (36 <? base) then set_endptr endptr nptr ;; ret 0
  else
    let cutoff := if (neg : bool) then u64 (- u64 LONG_MIN) else LONG_MAX in
    let cutlim := cutoff mod base in
    let cutoff := cutoff / base in
    let* (acc, any, s) := scan_digits cutoff cutlim base c s in
    let acc := if any <? 0 then (if neg then u64 LONG_MIN else LONG_MAX)
               else if neg then u64 (- acc) else acc in
    set_endptr endptr (if negb (any =? 0) then s - 1 else nptr) ;;
    ret (s64 acc).

Definition strtoll (nptr endptr base : Z) : prog mem Z :=
  let* (c, s) := skip_space nptr in
  let* (neg, c, s) := take_sign c s in
  let* (c, s, base) := take_prefix c s base in
  if (base <? 2) || (36 <? base) then set_endptr endptr nptr ;; ret 0
  else
    let cutoff := if (neg : bool) then u64 (- u64 LONG_MIN) else LONG_MAX in
    let cutlim := cutoff mod base in
    let cutoff := cutoff / base in
    let* (acc, any, s) := scan_digits cutoff cutlim base c s in
    let acc := if any <? 0 then (if neg then u64 LONG_MIN else LONG_MAX)
               else if neg then u64 (- acc) else acc in
    set_endptr endptr (if negb (any =? 0) then s - 1 else nptr) ;;
    ret (s64 acc).

Definition strtoul (nptr endptr base : Z) : prog mem Z :=
  let* (c, s) := skip_space nptr in
  let* (neg, c, s) := take_sign c s in
  let* (c, s, base) := take_prefix c s base in
  if (base <? 2) || (36 <? base) then set_endptr endptr nptr ;; ret 0
  else
    let cutoff := ULONG_MAX / base in
    let cutlim := ULONG_MAX mod base in
    let* (acc, any, s) := scan_digits cutoff cutlim base c s in
    let acc := if any <? 0 then ULONG_MAX else acc in
    set_endptr endptr (if negb (any =? 0) then s - 1 else nptr) ;;
    ret acc.

Definition strtoull (nptr endptr base : Z) : prog mem Z :=
  let* (c, s) := skip_space nptr in
  let* (neg, c, s) := take_sign c s in
  let* (c, s, base) := take_prefix c s base in
  if (base <? 2) || (36 <? base) then set_endptr endptr nptr ;; ret 0
  else
    let cutoff := ULONG_MAX / base in
    let cutlim := ULONG_MAX mod base in
    let* (acc, any, s) := scan_digits cutoff cutlim base c s in
    let acc := if any <? 0 then ULONG_MAX else acc in
    set_endptr endptr (if negb (any =? 0) then s - 1 else nptr) ;;
    ret acc.

Definition atoi (nptr : Z) : prog mem Z := let* v := strtol nptr 0 10 in ret (s32 v).
Definition atol (nptr : Z) : prog mem Z := strtol nptr 0 10.
Definition atoll (nptr : Z) : prog mem Z := strtoll nptr 0 10.

(** [strtod] is declared in stdlib.h and defined nowhere. *)
Definition atof {D : Type} (strtod : Z -> Z -> prog mem D) (nptr : Z) : prog mem D := strtod nptr 0.

(** ** Specification *)

(** [b] is a digit character of the base. *)
Definition is_digit (base b : Z) : bool :=
  match digit_of (s8 b) with Some d => d <? base | None => false end.

Definition digit_value (b : Z) : Z := default 0 (digit_of (s8 b)).

(** The value of a digit string, with no bound. *)
Definition value_from (base v : Z) (ds : list Z) : Z :=
  foldl (fun v b => v * base + digit_value b) v ds.
Definition value (base : Z) (ds : list Z) : Z := value_from base 0 ds.

(** The prefix [pre] in front of [body] that makes [base] out of the [base]
    argument [b0]. *)
Definition prefixed (b0 base : Z) (pre body : list Z) : Prop :=
  (exists x, pre = [48; x] /\ (x = 120 \/ x = 88) /\ (b0 = 0 \/ b0 = 16) /\ base = 16) \/
  (pre = [] /\
   base = (if b0 =? 0 then if bool_decide (head body = Some 48) then 8 else 10 else b0) /\
   (b0 = 0 \/ b0 = 16 -> forall x r, body = 48 :: x :: r -> x <> 120 /\ x <> 88)).

(** The text of a number: white space, an optional sign, the prefix, digits,
    and whatever follows the longest run of digits. *)
Record numeral (b0 base : Z) (ws sg pre ds rest : list Z) : Prop := {
  num_ws : Forall (fun b => isspace (s8 b) = true) ws;
  num_sg : sg = [] \/ sg = [45] \/ sg = [43];
  num_pre : prefixed b0 base pre (ds ++ rest);
  num_ds : Forall (fun b => is_digit base b = true) ds;
  num_ne : ds <> [];
  num_rest : forall b r, rest = b :: r -> is_digit base b = false;
  num_base : 2 <= base <= 36;
}.

Definition signed_value (sg : list Z) (v : Z) : Z :=
  if bool_decide (sg = [45]) then - v else v.

(** ** Lemmas *)

Lemma isspace_0 : isspace 0 = false.
Proof. done. Qed.

Lemma digit_of_0 : digit_of 0 = None.
Proof. done. Qed.

Lemma digit_of_bound c d : digit_of c = Some d -> 0 <= d < 36 /\ 48 <= c <= 122.
Proof.
  unfold digit_of. rewrite isalpha_split.
  destruct (isdigit c) eqn:E1; [apply isdigit_spec in E1; intros [= <-]; lia|].
  destruct (isupper c) eqn:E2; cbn [orb]; [apply isupper_spec in E2; intros [= <-]; lia|].
  destruct (islower c) eqn:E3; [apply islower_spec in E3; intros [= <-]; lia|done].
Qed.

Lemma is_digit_spec base b :
  is_digit base b = true -> digit_of (s8 b) = Some (digit_value b) /\ 0 <= digit_value b < base.
Proof.
  unfold is_digit, digit_value. destruct (digit_of (s8 b)) as [d|] eqn:E; [|done].
  rewrite Z.ltb_lt. apply digit_of_bound in E. intros Hd. cbn. split; [done|]. lia.
Qed.

(** A digit is none of the characters the earlier phases look for. *)
Lemma is_digit_plain base b :
  is_digit base b = true -> isspace (s8 b) = false /\ s8 b <> 45 /\ s8 b <> 43.
Proof.
  intros H. apply is_digit_spec in H as [H _]. apply digit_of_bound in H as [_ H].
  split; [|lia]. unfold isspace.
  repeat (rewrite (proj2 (Z.eqb_neq _ _)) by lia). done.
Qed.

Lemma value_from_app base v ds b :
  value_from base v (ds ++ [b]) = value_from base v ds * base + digit_value b.
Proof. unfold value_from. by rewrite foldl_app. Qed.

Lemma value_nonneg base ds :
  0 <= base -> Forall (fun b => is_digit base b = true) ds -> 0 <= value base ds.
Proof.
  intros Hb. unfold value. induction ds as [|b ds IH] using rev_ind; [done|].
  intros [H1 H2]%Forall_app. apply Forall_cons in H2 as [H2 _].
  apply is_digit_spec in H2 as [_ ?]. specialize (IH H1). rewrite value_from_app. nia.
Qed.

Lemma s8_ascii b : 0 <= b < 128 -> s8 b = b.
Proof. intros. apply swrap_small; lia. Qed.

(** The character read at [a], one before the position [s]. *)
Definition at_char (m : mem) (c s : Z) (l : list Z) : Prop :=
  cstr m (s - 1) l /\ c = s8 (default 0 (head l)).

(** Replace a character read by its value. *)
Ltac read_char H :=
  let E := fresh in pose proof (proj2 H) as E; cbn in E;
  match type of E with ?c = _ => subst c end.

Lemma wp_next_char s l (Q : Z -> mem -> Prop) m :
  cstr m s l -> (forall c, at_char m c (s + 1) l -> Q c m) -> wp (load_char s) Q m.
Proof.
  intros H HQ. eapply wp_load_head; [exact H| |].
  - intros ->. apply HQ. split; [by replace (s + 1 - 1) with s by lia|done].
  - intros b l' -> Hb Hl _. apply HQ. split; [by replace (s + 1 - 1) with s by lia|done].
Qed.

Lemma at_char_tail m c s b l : at_char m c s (b :: l) -> cstr m s l.
Proof.
  intros [H _]. apply cstr_cons in H as (_ & _ & H). by replace (s - 1 + 1) with s in H by lia.
Qed.

Lemma at_char_first m c s b l k :
  at_char m c s (b :: l) -> 0 <= k < 128 -> (c =? k) = (b =? k).
Proof.
  intros [H E] Hk. cbn in E. subst c. apply cstr_cons in H as [Hb%cchar_byte _].
  rewrite <- (s8_ascii k) at 1 by done. apply s8_inj; [done|]. unfold byte. lia.
Qed.

Lemma bool_decide_some_eq (b k : Z) : bool_decide (Some b = Some k) = (b =? k).
Proof.
  apply eq_true_iff_eq. rewrite bool_decide_eq_true, Z.eqb_eq. split; [by intros [= ->]|by intros ->].
Qed.

Lemma wp_skip_space s ws b l m :
  cstr m s (ws ++ b :: l) -> Forall (fun b => isspace (s8 b) = true) ws ->
  isspace (s8 b) = false -> Z.of_nat (length ws) < 2 ^ 64 ->
  wp (skip_space s)
     (fun '(c, s') m' => m' = m /\ s' = s + Z.of_nat (length ws) + 1 /\ at_char m c s' (b :: l)) m.
Proof.
  intros Hs Hws Hb Hl. set (e := s + Z.of_nat (length ws)).
  apply wp_loop with (m := fun p _ => e - p)
    (I := fun p m' => m' = m /\ exists k, cstr m p (k ++ b :: l) /\ e = p + Z.of_nat (length k) /\
            Forall (fun b => isspace (s8 b) = true) k); [|split; [done|]; by exists ws|lia].
  intros p m' (-> & k & Hk & He & Hsp). wp_step. eapply wp_next_char; [exact Hk|].
  intros c Hc. destruct k as [|b' k]; simpl in *.
  - read_char Hc. rewrite Hb. wp_steps.
    split; [done|]. split; [lia|]. by replace (s + Z.of_nat (length ws)) with p by lia.
  - apply Forall_cons in Hsp as [Hb' Hsp]. pose proof (at_char_tail _ _ _ _ _ Hc) as Hk'.
    read_char Hc. rewrite Hb'. wp_step.
    split; [|lia]. split; [done|]. exists k. split; [done|]. split; [lia|done].
Qed.

Lemma wp_take_sign c s sg b l m :
  at_char m c s (sg ++ b :: l) -> sg = [] \/ sg = [45] \/ sg = [43] ->
  s8 b <> 45 -> s8 b <> 43 ->
  wp (take_sign c s)
     (fun '(neg, c, s') m' => m' = m /\ neg = bool_decide (sg = [45]) /\
        s' = s + Z.of_nat (length sg) /\ at_char m c s' (b :: l)) m.
Proof.
  intros Hc Hsg H45 H43. unfold take_sign.
  destruct Hsg as [->|Hsg].
  - read_char Hc. rewrite (proj2 (Z.eqb_neq _ 45)), (proj2 (Z.eqb_neq _ 43)) by done.
    wp_steps. rewrite Z.add_0_r. done.
  - assert (exists g, sg = [g] /\ (g = 45 \/ g = 43)) as (g & -> & Hg)
      by (destruct Hsg as [-> | ->]; eauto).
    cbn [app] in *. pose proof (at_char_tail _ _ _ _ _ Hc) as Ht.
    destruct Hg as [-> | ->]; read_char Hc; simpl; wp_steps; (eapply wp_next_char; [exact Ht|]);
      intros c' Hc'; wp_steps; done.
Qed.

Lemma wp_take_prefix c s b0 base pre ds rest m :
  at_char m c s (pre ++ ds ++ rest) -> prefixed b0 base pre (ds ++ rest) -> ds <> [] ->
  wp (take_prefix c s b0)
     (fun '(c, s', base') m' => m' = m /\ base' = base /\
        s' = s + Z.of_nat (length pre) /\ at_char m c s' (ds ++ rest)) m.
Proof.
  intros Hc Hp Hds. unfold take_prefix.
  destruct Hp as [(x & -> & Hx & Hb & ->)|(-> & -> & Hx)].
  - assert ((b0 =? 0) || (b0 =? 16) = true) as ->
      by (rewrite orb_true_iff, !Z.eqb_eq; done).
    pose proof (at_char_tail _ _ _ _ _ Hc) as Ht. read_char Hc.
    change (s8 _ =? 48) with true. cbn [andb app].
    assert (cstr m (s + 1) (ds ++ rest)) as Hr by (by apply cstr_cons in Ht as (_ & _ & ?)).
    wp_steps. eapply wp_next_char; [exact Ht|]. intros c Hcx. read_char Hcx.
    destruct Hx as [-> | ->]; simpl; wp_steps.
    + eapply wp_next_char; [exact Hr|]. intros c Hc'. wp_steps.
      split; [done|]. split; [done|]. split; [lia|]. by replace (s + 2) with (s + 1 + 1) by lia.
    + eapply wp_next_char; [exact Ht|]. intros c Hcx'. read_char Hcx'. simpl. wp_steps.
      eapply wp_next_char; [exact Hr|]. intros c Hc'. wp_steps.
      split; [done|]. split; [done|]. split; [lia|]. by replace (s + 2) with (s + 1 + 1) by lia.
  - destruct ds as [|d ds]; [done|]. cbn [app head] in *.
    pose proof (at_char_tail _ _ _ _ _ Hc) as Ht. pose proof (at_char_first _ _ _ _ _ 48 Hc) as E48.
    cbn in E48. rewrite E48 by lia. rewrite bool_decide_some_eq.
    destruct (((b0 =? 0) || (b0 =? 16)) && (d =? 48)) eqn:Eb.
    + apply andb_true_iff in Eb as [Hb%orb_true_iff Hd]. apply Z.eqb_eq in Hd as ->.
      rewrite !Z.eqb_eq in Hb. specialize (Hx Hb).
      wp_steps. eapply wp_next_char; [exact Ht|]. intros x Hx'. cbn beta.
      assert ((x =? 120) = false) as ->.
      { destruct (ds ++ rest) as [|y r]; [by read_char Hx'|].
        rewrite (at_char_first _ _ _ _ _ 120 Hx') by lia. apply Z.eqb_neq. by eapply Hx. }
      wp_steps. eapply wp_next_char; [exact Ht|]. intros x2 Hx2. wp_step.
      assert ((x2 =? 88) = false) as ->.
      { destruct (ds ++ rest) as [|y r]; [by read_char Hx2|].
        rewrite (at_char_first _ _ _ _ _ 88 Hx2) by lia. apply Z.eqb_neq. by eapply Hx. }
      wp_steps; rewrite Z.add_0_r; done.
    + wp_steps; rewrite Z.add_0_r; done.
Qed.

(** The accumulator after the digits [done], against the limit [L]. *)
Definition scanned (L base : Z) (done : list Z) (acc any : Z) : Prop :=
  if L <? value base done then any = -1
  else acc = value base done /\ any = (if bool_decide (done = []) then 0 else 1).

Lemma value_snoc base ds b : value base (ds ++ [b]) = value base ds * base + digit_value b.
Proof. apply value_from_app. Qed.

Lemma scanned_step L base cutoff cutlim ds acc any b :
  L = cutoff * base + cutlim -> 0 <= cutlim < base -> L < 2 ^ 64 ->
  Forall (fun b => is_digit base b = true) ds -> is_digit base b = true ->
  scanned L base ds acc any ->
  let '(acc', any') :=
    if (any <? 0) || (cutoff <? acc) || ((acc =? cutoff) && (cutlim <? digit_value b))
    then (acc, -1)
    else (u64 (u64 (acc * base) + digit_value b), 1) in
  scanned L base (ds ++ [b]) acc' any'.
Proof.
  intros EL Hlim HL Hds [_ Hd]%is_digit_spec Hs.
  pose proof (value_nonneg base ds ltac:(lia) Hds) as Hv. unfold scanned in *.
  rewrite value_snoc. rewrite bool_decide_eq_false_2 by (by destruct ds).
  destruct (Z.ltb_spec L (value base ds)) as [Hgt|Hle].
  - subst any. cbn [Z.ltb Z.compare orb].
    rewrite (proj2 (Z.ltb_lt L _)); [done|]. nia.
  - destruct Hs as [-> ->].
    assert (((if bool_decide (ds = []) then 0 else 1) <? 0) = false) as ->
      by (by destruct (bool_decide _)).
    cbn [orb].
    destruct ((cutoff <? value base ds) || (value base ds =? cutoff) && (cutlim <? digit_value b)) eqn:E.
    + rewrite (proj2 (Z.ltb_lt L _)); [done|].
      rewrite orb_true_iff, andb_true_iff, !Z.ltb_lt, Z.eqb_eq in E. nia.
    + rewrite orb_false_iff, andb_false_iff, !Z.ltb_ge, Z.eqb_neq in E.
      assert (value base ds * base + digit_value b <= L) as Hle' by nia.
      rewrite (proj2 (Z.ltb_ge L _)) by done. split; [|done].
      rewrite (wrap_small 64 (value base ds * base)) by nia. apply wrap_small. nia.
Qed.

Lemma wp_scan_digits L base cutoff cutlim c s ds rest m :
  L = cutoff * base + cutlim -> 0 <= cutlim < base -> L < 2 ^ 64 ->
  Z.of_nat (length ds) < 2 ^ 64 ->
  Forall (fun b => is_digit base b = true) ds ->
  (forall b r, rest = b :: r -> is_digit base b = false) -> 0 <= L ->
  at_char m c s (ds ++ rest) ->
  wp (scan_digits cutoff cutlim base c s)
     (fun '(acc, any, s') m' => m' = m /\ s' = s + Z.of_nat (length ds) /\
        scanned L base ds acc any) m.
Proof.
  intros EL Hlim HL Hlen Hds Hrest HL0 Hc. set (e := s + Z.of_nat (length ds)).
  apply wp_loop with (m := fun '(_, _, _, p) _ => e - p)
    (I := fun '(acc, any, c, p) m' => m' = m /\ exists l1 l2, ds = l1 ++ l2 /\
            p = s + Z.of_nat (length l1) /\ at_char m c p (l2 ++ rest) /\
            scanned L base l1 acc any).
  - intros [[[acc any] c'] p] m' (-> & l1 & l2 & E & -> & Hc' & Hs). rewrite E in Hds.
    apply Forall_app in Hds as [Hds1 Hds2].
    destruct l2 as [|b l2].
    + rewrite app_nil_r in E. subst l1.
      assert (is_digit base (default 0 (head rest)) = false) as Hnd.
      { destruct rest as [|b r]; [|by apply (Hrest b r)]. done. }
      pose proof (proj2 Hc') as Ec. cbn [app] in Ec. unfold is_digit in Hnd. rewrite <- Ec in Hnd.
      destruct (digit_of c') as [d|]; [|by wp_step].
      apply Z.ltb_ge, Z.leb_le in Hnd. rewrite Hnd. by wp_step.
    + apply Forall_cons in Hds2 as [Hb Hds2].
      pose proof (at_char_tail _ _ _ _ _ Hc') as Ht. read_char Hc'.
      destruct (is_digit_spec _ _ Hb) as [-> Hd].
      rewrite (proj2 (Z.leb_gt base (digit_value b))) by lia.
      pose proof (scanned_step L base cutoff cutlim l1 acc any b EL Hlim HL Hds1 Hb Hs) as Hs'.
      match goal with |- context [if ?b then (acc, -1) else ?y] =>
        destruct (if b then (acc, -1) else y) as [acc' any'] end. wp_step.
      eapply wp_next_char; [exact Ht|]. intros c' Hc2. wp_step. unfold e.
      split; [|rewrite E, length_app; cbn [length]; lia]. split; [done|].
      exists (l1 ++ [b]), l2. rewrite <- app_assoc, length_app. cbn [length app].
      split; [done|]. split; [lia|]. done.
  - split; [done|]. exists [], ds. split; [done|]. split; [simpl; lia|]. split; [done|].
    unfold scanned. change (value base []) with 0. by rewrite (proj2 (Z.ltb_ge L 0)).
  - lia.
Qed.

(** The bounds of the address arithmetic: the text lies in memory. *)
Section Numeral.
Context (nptr b0 base : Z) (ws sg pre ds rest : list Z) (m : mem).
Context (endptr : Z).
Hypothesis num : numeral b0 base ws sg pre ds rest.
Hypothesis text : cstr m nptr (ws ++ sg ++ pre ++ ds ++ rest).
Hypothesis text_small : Z.of_nat (length (ws ++ sg ++ pre ++ ds ++ rest)) < 2 ^ 64.
Hypothesis endptr_ok : endptr = 0 \/ mapped m endptr 8.

(** Where the digits end, and the memory once the end pointer is stored. *)
Definition numeral_end : Z := nptr + Z.of_nat (length (ws ++ sg ++ pre ++ ds)).
Definition stored : mem :=
  if endptr =? 0 then m else write endptr (le_bytes 8 numeral_end) m.

Lemma wp_set_endptr (Q : unit -> mem -> Prop) : Q tt stored -> wp (set_endptr endptr numeral_end) Q m.
Proof using endptr_ok.
  intros HQ. unfold set_endptr, stored in *. destruct (Z.eqb_spec endptr 0) as [|Hn]; cbn [negb].
  - by apply wp_ret.
  - destruct endptr_ok as [|Hm]; [done|]. apply wp_store_ptr; [done|]. by intros m' ->.
Qed.

(** The phases before the digits. *)
Lemma wp_numeral {A} (k : bool -> Z -> Z -> Z -> prog mem A) Q :
  (forall c s, s - 1 + Z.of_nat (length ds) = numeral_end ->
     at_char m c s (ds ++ rest) -> wp (k (bool_decide (sg = [45])) c s base) Q m) ->
  wp (let* (c, s) := skip_space nptr in
      let* (neg, c, s) := take_sign c s in
      let* (c, s, base) := take_prefix c s b0 in k neg c s base) Q m.
Proof using num text text_small.
  intros Hk. destruct num as [Hws Hsg Hpre Hds Hne Hrest Hbase].
  rewrite !length_app in text_small.
  assert (exists b l, pre ++ ds ++ rest = b :: l /\
            isspace (s8 b) = false /\ s8 b <> 45 /\ s8 b <> 43) as (b & l & Ebl & Hb).
  { destruct Hpre as [(x & -> & _)|(-> & _)]; [by eexists _, _|].
    destruct ds as [|d ds']; [done|]. apply Forall_cons in Hds as [Hd _].
    exists d, (ds' ++ rest). split; [done|]. by apply is_digit_plain in Hd. }
  assert (exists b1 l1, sg ++ b :: l = b1 :: l1 /\ isspace (s8 b1) = false) as (b1 & l1 & E1 & Hb1).
  { destruct Hsg as [->|[-> | ->]]; simpl; eexists _, _; (split; [done|]); [apply Hb|done|done]. }
  wp_step. rewrite Ebl, E1 in text. eapply wp_mono; [apply (wp_skip_space _ _ _ _ _ text Hws Hb1); lia|].
  intros [c s] m1 (-> & -> & Hc). rewrite <- E1 in Hc. wp_step.
  eapply wp_mono; [by apply (wp_take_sign _ _ _ _ _ _ Hc Hsg); apply Hb|].
  intros [[neg c1] s1] m1 (-> & -> & -> & Hc1). rewrite <- Ebl in Hc1. wp_step.
  eapply wp_mono; [by apply (wp_take_prefix _ _ _ _ _ _ _ _ Hc1 Hpre)|].
  intros [[c2 s2] base2] m1 (-> & -> & -> & Hc2). apply Hk; [|done].
  unfold numeral_end. rewrite !length_app. lia.
Qed.

Lemma numeral_digits L cutoff cutlim c s (Q : Z * Z * Z -> mem -> Prop) :
  at_char m c s (ds ++ rest) -> s - 1 + Z.of_nat (length ds) = numeral_end ->
  L = cutoff * base + cutlim -> 0 <= cutlim < base -> 0 <= L < 2 ^ 64 ->
  (L < value base ds -> forall acc, Q (acc, -1, numeral_end + 1) m) ->
  (value base ds <= L -> Q (value base ds, 1, numeral_end + 1) m) ->
  wp (scan_digits cutoff cutlim base c s) Q m.
Proof using num text_small.
  intros Hc Hs EL Hlim HL Hgt Hle. destruct num as [_ _ _ Hds Hne Hrest Hbase].
  rewrite !length_app in text_small.
  eapply wp_mono; [apply (wp_scan_digits L base _ _ _ _ ds rest); try done; lia|].
  intros [[acc any] s'] m1 (-> & -> & Hsc). unfold scanned in Hsc.
  rewrite bool_decide_eq_false_2 in Hsc by done.
  replace (s + Z.of_nat (length ds)) with (numeral_end + 1) by lia.
  destruct (Z.ltb_spec L (value base ds)); [subst; auto|]. destruct Hsc as [-> ->]. auto.
Qed.

Lemma base_valid : (base <? 2) || (36 <? base) = false.
Proof using num. destruct num. rewrite orb_false_iff, !Z.ltb_ge. lia. Qed.
End Numeral.

Lemma wp_strtol nptr endptr b0 base ws sg pre ds rest m :
  numeral b0 base ws sg pre ds rest ->
  cstr m nptr (ws ++ sg ++ pre ++ ds ++ rest) ->
  Z.of_nat (length (ws ++ sg ++ pre ++ ds ++ rest)) < 2 ^ 64 ->
  endptr = 0 \/ mapped m endptr 8 ->
  wp (strtol nptr endptr b0) (fun r m' =>
    r = Z.max LONG_MIN (Z.min LONG_MAX (signed_value sg (value base ds))) /\
    m' = stored nptr ws sg pre ds m endptr) m.
Proof.
  intros Hn Ht Hl He. unfold strtol. eapply wp_numeral; [done..|].
  intros c s Hs Hc. rewrite (base_valid b0 base ws sg pre ds rest) by done. cbv iota.
  assert (0 <= value base ds) as Hv by (destruct Hn; apply value_nonneg; [lia|done]).
  assert (2 <= base <= 36) as Hbase by apply Hn.
  set (neg := bool_decide (sg = [45])).
  assert (signed_value sg (value base ds) = if neg then - value base ds else value base ds) as -> by done.
  set (L := if neg then u64 (- u64 LONG_MIN) else LONG_MAX).
  assert (L = if neg then 2 ^ 63 else 2 ^ 63 - 1) as EL by (by destruct neg).
  apply wp_bind. eapply (numeral_digits nptr b0 base ws sg pre ds rest) with (L := L); try done.
  - rewrite (Z.div_mod L base) at 1 by lia. lia.
  - apply Z.mod_pos_bound. lia.
  - rewrite EL. destruct neg; lia.
  - intros Hgt acc. cbn [Z.ltb Z.compare Z.eqb negb]. apply wp_bind.
    replace (numeral_end nptr ws sg pre ds + 1 - 1) with (numeral_end nptr ws sg pre ds) by lia.
    apply wp_set_endptr; [done|]. wp_step. split; [|done]. rewrite EL in Hgt.
    destruct neg; [change (s64 (u64 LONG_MIN)) with LONG_MIN|change (s64 LONG_MAX) with LONG_MAX];
      unfold LONG_MIN, LONG_MAX; lia.
  - intros Hle. cbn [Z.ltb Z.compare Z.eqb negb]. apply wp_bind.
    replace (numeral_end nptr ws sg pre ds + 1 - 1) with (numeral_end nptr ws sg pre ds) by lia.
    apply wp_set_endptr; [done|]. wp_step. split; [|done]. rewrite EL in Hle. 
    unfold LONG_MIN, LONG_MAX. destruct neg.
    + unfold swrap. unfold wrap. rewrite Zplus_mod_idemp_l.
      destruct (Z.eq_dec (value base ds) 0) as [->|]; [done|].
      change (64 - 1) with 63. rewrite Z.mod_small; lia.
    + rewrite swrap_small; lia.
Qed.

(** C20: [strtol] on the text of a number (white space, sign, base prefix,
    digits, anything) returns its value clamped to the range of [long], with
    the end pointer, when one is asked for, just behind the last digit. *)
Theorem strtol_correct nptr endptr b0 base ws sg pre ds rest m :
  numeral b0 base ws sg pre ds rest ->
  cstr m nptr (ws ++ sg ++ pre ++ ds ++ rest) ->
  Z.of_nat (length (ws ++ sg ++ pre ++ ds ++ rest)) < 2 ^ 64 ->
  endptr = 0 \/ mapped m endptr 8 ->
  strtol nptr endptr b0 m =
    Ok (Z.max LONG_MIN (Z.min LONG_MAX (signed_value sg (value base ds))),
        stored nptr ws sg pre ds m endptr).
Proof. intros. apply wp_det. by eapply wp_strtol. Qed.

Lemma strtoul_run nptr endptr b0 base ws sg pre ds rest m :
  numeral b0 base ws sg pre ds rest ->
  cstr m nptr (ws ++ sg ++ pre ++ ds ++ rest) ->
  Z.of_nat (length (ws ++ sg ++ pre ++ ds ++ rest)) < 2 ^ 64 ->
  endptr = 0 \/ mapped m endptr 8 ->
  strtoul nptr endptr b0 m =
    Ok (Z.min ULONG_MAX (value base ds), stored nptr ws sg pre ds m endptr).
Proof.
  intros Hn Ht Hl He. apply wp_det. unfold strtoul. eapply wp_numeral; [done..|].
  intros c s Hs Hc. rewrite (base_valid b0 base ws sg pre ds rest) by done. cbv iota.
  assert (2 <= base <= 36) as Hbase by apply Hn.
  apply wp_bind. eapply (numeral_digits nptr b0 base ws sg pre ds rest) with (L := ULONG_MAX); try done.
  - rewrite (Z.div_mod ULONG_MAX base) at 1 by lia. lia.
  - apply Z.mod_pos_bound. lia.
  - intros Hgt acc. cbn [Z.ltb Z.compare Z.eqb negb]. apply wp_bind.
    replace (numeral_end nptr ws sg pre ds + 1 - 1) with (numeral_end nptr ws sg pre ds) by lia.
    apply wp_set_endptr; [done|]. wp_step. split; [lia|done].
  - intros Hle. cbn [Z.ltb Z.compare Z.eqb negb]. apply wp_bind.
    replace (numeral_end nptr ws sg pre ds + 1 - 1) with (numeral_end nptr ws sg pre ds) by lia.
    apply wp_set_endptr; [done|]. wp_step. split; [lia|done].
Qed.

(** [strtoul] returns the value clamped to [ULONG_MAX]; it reads a
    sign and drops it, so that ["-1"] is 1 and not the [ULONG_MAX] of the C
    standard. *)
Theorem strtoul_ignores_sign nptr endptr b0 base ws sg pre ds rest m :
  numeral b0 base ws sg pre ds rest ->
  cstr m nptr (ws ++ sg ++ pre ++ ds ++ rest) ->
  Z.of_nat (length (ws ++ sg ++ pre ++ ds ++ rest)) < 2 ^ 64 ->
  endptr = 0 \/ mapped m endptr 8 ->
  strtoul nptr endptr b0 m =
    Ok (Z.min ULONG_MAX (value base ds), stored nptr ws sg pre ds m endptr).
Proof. apply strtoul_run. Qed.

(** [" -42z"] at address 4096. *)
Definition minus_42 : mem := write 4096 ([32; 45; 52; 50; 122] ++ [0]) ∅.

Lemma minus_42_numeral : numeral 0 10 [32] [45] [] [52; 50] [122].
Proof.
  constructor; [by repeat constructor|by auto| |by repeat constructor|done| |lia].
  - right. split; [done|]. split; [done|]. by intros _ x r [= ].
  - by intros b r [= <- _].
Qed.

Lemma strtol_correct_witness : strtol 4096 0 0 minus_42 = Ok (-42, minus_42).
Proof.
  rewrite (strtol_correct 4096 0 0 10 [32] [45] [] [52; 50] [122]); [reflexivity|..].
  - exact minus_42_numeral.
  - apply cstr_written. repeat constructor.
  - reflexivity.
  - left. reflexivity.
Defined.

Lemma strtoul_ignores_sign_witness : strtoul 4096 0 0 minus_42 = Ok (42, minus_42).
Proof.
  rewrite (strtoul_ignores_sign 4096 0 0 10 [32] [45] [] [52; 50] [122]); [reflexivity|..].
  - exact minus_42_numeral.
  - apply cstr_written. repeat constructor.
  - reflexivity.
  - left. reflexivity.
Defined.
