(* ===== verification/Alloc.v ===== *)
(** * What the kernel expects of its allocator

    The file system, the process manager and the rest of the kernel call
    [kmalloc] and [kfree] (declared in kernel/mm.h) without depending on which
    of the two implementations is linked.  [KAlloc] is the interface: the two
    operations on an allocator state [H]; [KAllocLaws] is what clients rely
    on: [owned h L] says that the addresses in [L] are in use in [h], and
    [kmalloc] never returns one of them.  [KFreeLaws] adds that giving an
    address back keeps the others. *)

From S2P Require Import Prelude.

Class KAlloc (H : Type) : Type := {
  kmalloc_op : Z -> prog H Z;
  kfree_op : Z -> prog H unit;
}.

Class KAllocLaws (H : Type) `{KAlloc H} : Type := {
  owned : H -> gset Z -> Prop;
  kmalloc_law : forall h L n, owned h L -> 0 < n < 2 ^ 31 ->
    wp (kmalloc_op n) (fun p h' =>
      p = 0 /\ owned h' L \/ 0 < p /\ (p ∉ L) /\ owned h' ({[p]} ∪ L)) h;
}.

Class KFreeLaws (H : Type) `{KAllocLaws H} : Type := {
  kfree_law : forall h L p, owned h L -> p ∈ L ->
    wp (kfree_op p) (fun _ h' => owned h' (L ∖ {[p]})) h;
}.

(** ** What user code expects of malloc

    The DOM and the HTML parser call [malloc], [realloc] and [free].  Most of
    their calls do not look at the result, so the laws speak of an allocator
    that has memory left: [used h L] says that the addresses in [L] are in use
    in [h] and that requests succeed. *)

Class LibcHeap (H : Type) : Type := {
  malloc_op : Z -> prog H Z;
  realloc_op : Z -> Z -> prog H Z;
  free_op : Z -> prog H unit;
}.

Class LibcHeapLaws (H : Type) `{LibcHeap H} : Type := {
  used : H -> gset Z -> Prop;
  malloc_law : forall h L n, used h L -> 0 < n ->
    wp (malloc_op n) (fun p h' => 0 < p /\ (p ∉ L) /\ used h' ({[p]} ∪ L)) h;
  realloc_law : forall h L p n, used h L -> p ∈ L -> 0 < n ->
    wp (realloc_op p n) (fun q h' => 0 < q /\ (q ∉ L ∖ {[p]}) /\ used h' ({[q]} ∪ L ∖ {[p]})) h;
  free_law : forall h L p, used h L -> p ∈ L ->
    wp (free_op p) (fun _ h' => used h' (L ∖ {[p]})) h;
}.

(** An allocator that never gives an address out twice. *)
Definition counter_heap : LibcHeap Z := {|
  malloc_op := fun _ h => Ok (h, h + 16);
  realloc_op := fun _ _ h => Ok (h, h + 16);
  free_op := fun _ => ret tt;
|}.

Definition counter_used (h : Z) (L : gset Z) : Prop := 0 < h /\ forall a, a ∈ L -> a < h.

Lemma counter_used_fresh h L n : counter_used h L -> 0 < n ->
  0 < h /\ (h ∉ L) /\ counter_used (h + 16) ({[h]} ∪ L).
Proof.
  intros [H0 HL] _. split; [done|]. split; [intros Hin; specialize (HL h Hin); lia|]. split; [lia|].
  intros a [->%elem_of_singleton|Ha]%elem_of_union; [|specialize (HL a Ha)]; lia.
Qed.

Lemma counter_used_le h L L' : L' ⊆ L -> counter_used h L -> counter_used h L'.
Proof. intros Hs [H0 HL]. split; [done|]. intros a Ha. apply HL. by apply Hs. Qed.

Lemma counter_heap_laws : @LibcHeapLaws Z counter_heap.
Proof.
  refine {| used := counter_used |}.
  - exact counter_used_fresh.
  - intros h L p n HL _ Hn. apply (counter_used_fresh h _ n); [|done].
    apply (counter_used_le h L); [set_solver|done].
  - intros h L p HL _. apply (counter_used_le h L); [set_solver|done].
Defined.
