(* ===== verification/Links.v ===== *)
(** * Doubly linked lists of objects in a store

    Several parts of the system chain their objects through a pair of links:
    the ready queue of kernel/process.c through threads, the children of a DOM
    node through nodes.  [Linked T] says where a [T] keeps its two links;
    [seg] says that the links of the objects in a store run through a given
    list of addresses, and the lemmas say what writing one link does. *)

From S2P Require Import Prelude.

Class Linked (T : Type) : Type := {
  l_next : T -> Z;
  l_prev : T -> Z;
  l_set_next : Z -> T -> T;
  l_set_prev : Z -> T -> T;
  l_next_next : forall v t, l_next (l_set_next v t) = v;
  l_prev_next : forall v t, l_prev (l_set_next v t) = l_prev t;
  l_next_prev : forall v t, l_next (l_set_prev v t) = l_next t;
  l_prev_prev : forall v t, l_prev (l_set_prev v t) = v;
}.

Section Seg.
Context {T : Type} {LT : Linked T}.
Implicit Types (m : gmap Z T) (t : T).

(** The links from [p], behind [prev], go through [l] to [q]. *)
Fixpoint seg (m : gmap Z T) (prev p : Z) (l : list Z) (q : Z) : Prop :=
  match l with
  | [] => p = q
  | a :: l => p = a /\ a <> 0 /\ exists t, m !! a = Some t /\ l_prev t = prev /\ seg m a (l_next t) l q
  end.

Definition last_or (d : Z) (l : list Z) : Z := default d (last l).

Lemma last_or_cons d a l : last_or d (a :: l) = last_or a l.
Proof using Type. unfold last_or. rewrite last_cons. by destruct (last l). Qed.

Lemma last_or_app d l1 l2 : last_or d (l1 ++ l2) = last_or (last_or d l1) l2.
Proof using Type.
  unfold last_or. rewrite last_app. destruct (last l2); [done|]. cbn. by destruct (last l1).
Qed.

Lemma last_or_in d l : l <> [] -> last_or d l ∈ l.
Proof using Type.
  intros Hl. unfold last_or. destruct (last l) as [a|] eqn:E; [|by apply last_None in E].
  apply last_Some in E as [l' ->]. cbn. apply elem_of_app. right. by left.
Qed.

Lemma seg_app m prev p l1 l2 q :
  seg m prev p (l1 ++ l2) q <-> exists r, seg m prev p l1 r /\ seg m (last_or prev l1) r l2 q.
Proof using Type.
  revert prev p. induction l1 as [|a l1 IH]; intros prev p; cbn [app seg].
  - unfold last_or. cbn. naive_solver.
  - setoid_rewrite last_or_cons. setoid_rewrite IH. naive_solver.
Qed.

Lemma seg_insert_ne m prev p l q a t : a ∉ l -> seg m prev p l q -> seg (<[a := t]> m) prev p l q.
Proof using Type.
  revert prev p. induction l as [|b l IH]; intros prev p Ha; [done|]. cbn [seg].
  apply not_elem_of_cons in Ha as [Hab Ha]. intros (-> & Hb & u & Hu & Hp & Hs).
  split; [done|]. split; [done|]. exists u. rewrite lookup_insert_ne by done. auto.
Qed.

(** The last thread of a segment gets a new successor. *)
Lemma seg_set_next m prev p l b q q' t : b ∉ l -> m !! b = Some t ->
  seg m prev p (l ++ [b]) q -> seg (<[b := l_set_next q' t]> m) prev p (l ++ [b]) q'.
Proof using Type.
  intros Hb Ht Hs. apply seg_app in Hs as (r & H1 & H2). apply seg_app. exists r.
  split; [by apply seg_insert_ne|]. cbn [seg] in *. destruct H2 as (-> & H0 & u & Hu & Hp & _).
  assert (u = t) as -> by congruence.
  split; [done|]. split; [done|]. eexists. rewrite lookup_insert_eq. split; [done|].
  by rewrite l_prev_next, l_next_next.
Qed.

(** The first thread of a segment gets a new predecessor. *)
Lemma seg_set_prev m prev prev' p c l q t : c ∉ l -> m !! c = Some t ->
  seg m prev p (c :: l) q -> seg (<[c := l_set_prev prev' t]> m) prev' p (c :: l) q.
Proof using Type.
  intros Hc Ht. cbn [seg]. intros (-> & H0 & u & Hu & Hp & Hs).
  assert (u = t) as -> by congruence.
  split; [done|]. split; [done|]. eexists. rewrite lookup_insert_eq. split; [done|].
  rewrite l_prev_prev, l_next_prev. split; [done|]. by apply seg_insert_ne.
Qed.

Lemma seg_lookup m prev p l q a : seg m prev p l q -> a ∈ l -> a <> 0 /\ is_Some (m !! a).
Proof using Type.
  revert prev p. induction l as [|b l IH]; intros prev p Hs Ha; [by apply elem_of_nil in Ha|].
  destruct Hs as (-> & Hb & t & Ht & _ & Hs). apply elem_of_cons in Ha as [->|Ha]; [by eauto|].
  by eapply IH.
Qed.
(** A segment depends on the links of its objects only. *)
Lemma seg_ext m m' prev p l q :
  (forall a t, a ∈ l -> m !! a = Some t ->
     exists t', m' !! a = Some t' /\ l_next t' = l_next t /\ l_prev t' = l_prev t) ->
  seg m prev p l q -> seg m' prev p l q.
Proof using Type.
  revert prev p. induction l as [|a l IH]; intros prev p Hm; [done|]. cbn [seg].
  intros (-> & Ha & t & Ht & Hp & Hs). split; [done|]. split; [done|].
  destruct (Hm a t ltac:(by left) Ht) as (t' & Ht' & En & Ep). exists t'. rewrite En, Ep.
  split; [done|]. split; [done|]. apply IH; [|done]. intros b u Hb. apply Hm. by right.
Qed.

(** Where an object in the middle of a segment points. *)
Lemma seg_mid m prev p l1 a l2 q : seg m prev p (l1 ++ a :: l2) q ->
  exists t, m !! a = Some t /\ a <> 0 /\ l_prev t = last_or prev l1 /\
    seg m prev p l1 a /\ seg m a (l_next t) l2 q.
Proof using Type.
  intros Hs. apply seg_app in Hs as (r & H1 & -> & Ha & t & Ht & Hp & H2). by exists t.
Qed.

Lemma seg_head m prev p l q : seg m prev p l q -> p = match l with [] => q | a :: _ => a end.
Proof using Type. destruct l; [done|]. by intros [-> _]. Qed.
End Seg.

(** ** Taking an object out, and putting one at the end *)

Section Relink.
Context {T : Type} {LT : Linked T}.
Implicit Types (m : gmap Z T) (t : T).

(** The links of the neighbours of [t] go past it. *)
Definition cut_links (t : T) (m : gmap Z T) : gmap Z T :=
  let m1 := if l_prev t =? 0 then m else alter (l_set_next (l_next t)) (l_prev t) m in
  if l_next t =? 0 then m1 else alter (l_set_prev (l_prev t)) (l_next t) m1.

Lemma alter_insert m (f : T -> T) a t : m !! a = Some t -> alter f a m = <[a := f t]> m.
Proof using Type.
  intros Ha. apply map_eq. intros i. destruct (decide (i = a)) as [->|Hi].
  - by rewrite lookup_alter_eq, lookup_insert_eq, Ha.
  - by rewrite lookup_alter_ne, lookup_insert_ne by done.
Qed.

Lemma alter_alter m (f g : T -> T) a : alter g a (alter f a m) = alter (fun t => g (f t)) a m.
Proof using Type.
  apply map_eq. intros i. destruct (decide (i = a)) as [->|Hi].
  - rewrite !lookup_alter_eq. by destruct (m !! a).
  - by rewrite !lookup_alter_ne by done.
Qed.

Lemma seg_cut m p l1 c l2 t : seg m 0 p (l1 ++ c :: l2) 0 -> NoDup (l1 ++ c :: l2) -> m !! c = Some t ->
  seg (cut_links t m) 0 (if l_prev t =? 0 then l_next t else p) (l1 ++ l2) 0.
Proof using Type.
  intros Hs Hnd Ht. apply seg_mid in Hs as (t' & Ht' & Hc & Hp & H1 & H2).
  assert (t' = t) as -> by congruence. clear Ht'.
  apply NoDup_app in Hnd as (N1 & N12 & N2). apply NoDup_cons in N2 as [Nc N2].
  unfold cut_links. set (m1 := if l_prev t =? 0 then m else alter (l_set_next (l_next t)) (l_prev t) m).
  assert (seg m1 0 (if l_prev t =? 0 then l_next t else p) l1 (l_next t) /\ seg m1 c (l_next t) l2 0) as [H1' H2'].
  { destruct l1 as [|b l1 _] using rev_ind.
    - cbn in Hp. subst m1. rewrite Hp. cbn [Z.eqb]. by split.
    - unfold last_or in Hp. rewrite last_snoc in Hp. cbn in Hp.
      destruct (seg_lookup _ _ _ _ _ b H1 ltac:(set_solver)) as [Hb [tb Htb]].
      subst m1. rewrite Hp, (proj2 (Z.eqb_neq b 0)) by done. rewrite (alter_insert _ _ _ tb) by done. split.
      + apply (seg_set_next m 0 p l1 b c (l_next t) tb); [|done|done].
        apply NoDup_app in N1 as (_ & N1 & _). intros Hin. apply (N1 b Hin). by left.
      + apply seg_insert_ne; [|done]. intros Hin. apply (N12 b ltac:(set_solver)). by right. }
  clearbody m1. apply seg_app. destruct l2 as [|d l2].
  - cbn [seg] in H2. rewrite H2 in *. cbn [Z.eqb]. by exists 0.
  - pose proof H2' as (Ed & Hd & td & Htd & _). rewrite Ed in *. rewrite (proj2 (Z.eqb_neq d 0)) by done.
    rewrite (alter_insert _ _ _ td) by done. exists d. apply NoDup_cons in N2 as [Nd _]. split.
    + apply seg_insert_ne; [|done]. intros Hin. apply (N12 d Hin). right. by left.
    + rewrite Hp. by apply (seg_set_prev m1 c (last_or 0 l1) d d l2 0 td).
Qed.

(** The links of a new last object, when the list is not empty. *)
Lemma seg_snoc m p l b c t : seg m 0 p (l ++ [b]) 0 -> NoDup (l ++ [b]) -> c ∉ l ++ [b] -> c <> 0 ->
  m !! c = Some t -> l_next t = 0 ->
  seg (alter (l_set_prev b) c (alter (l_set_next c) b m)) 0 p ((l ++ [b]) ++ [c]) 0.
Proof using Type.
  intros Hs Hnd Hc H0 Ht Hn. destruct (seg_lookup _ _ _ _ _ b Hs ltac:(set_solver)) as [Hb [tb Htb]].
  rewrite (alter_insert m _ b tb) by done.
  assert (b <> c) as Hbc by (intros ->; set_solver).
  rewrite (alter_insert _ _ _ t) by (by rewrite lookup_insert_ne).
  apply seg_app. exists c. split.
  - apply seg_insert_ne; [done|]. apply (seg_set_next m 0 p l b 0 c tb); [|done|done].
    apply NoDup_app in Hnd as (_ & Hnd & _). intros Hin. apply (Hnd b Hin). by left.
  - cbn [seg]. split; [done|]. split; [done|]. eexists. rewrite lookup_insert_eq. split; [done|].
    rewrite l_prev_prev, l_next_prev. unfold last_or. by rewrite last_snoc.
Qed.
End Relink.
