(* ===== verification/Sep.v ===== *)
(** * Separation logic for programs over one store of objects

    The HTML engine allocates many small objects that own one another.  The
    programs that handle them are specified with separation logic: an
    assertion [sprop O] is a predicate of a finite part of the store, [P ∗ Q]
    splits that part in two, and [emp] is the empty part, so that what an
    operation leaves behind is stated exactly and a leak would show.  The
    assertions form a [bi] of Iris, whose proof mode drives the proofs.

    [swp p Q] is the weakest precondition in this logic of a program whose
    state contains a store and an allocator: it is total correctness as
    [Prelude.wp] is, and [swp_adequate] turns it into a statement about runs. *)

From iris.proofmode Require Export proofmode.
From iris.prelude Require Import options.
From S2P Require Import Prelude.

(** ** Assertions *)

Record sprop (O : Type) : Type := Pred { sprop_holds :> gmap Z O -> Prop }.
Arguments Pred {O} _.
Arguments sprop_holds {O} _ _ : simpl never.

Section Assertions.
Context {O : Type}.
Implicit Types (P Q R : sprop O) (σ : gmap Z O).

Inductive sprop_equiv' (P Q : sprop O) : Prop := { sprop_in_equiv : forall σ, P σ <-> Q σ }.
Local Instance sprop_equiv : Equiv (sprop O) := sprop_equiv'.
Local Instance sprop_equivalence : Equivalence (≡@{sprop O}).
Proof.
  split; [by split| |].
  - intros P Q [H]. split=> σ. by rewrite H.
  - intros P Q R [H1] [H2]. split=> σ. by rewrite H1.
Qed.
Canonical Structure spropO := discreteO (sprop O).

Inductive sprop_entails (P Q : sprop O) : Prop := { sprop_in_entails : forall σ, P σ -> Q σ }.

Definition sprop_emp : sprop O := Pred (fun σ => σ = ∅).
Definition sprop_pure (φ : Prop) : sprop O := Pred (fun _ => φ).
Definition sprop_and P Q : sprop O := Pred (fun σ => P σ /\ Q σ).
Definition sprop_or P Q : sprop O := Pred (fun σ => P σ \/ Q σ).
Definition sprop_impl P Q : sprop O := Pred (fun σ => P σ -> Q σ).
Definition sprop_forall {A} (Φ : A -> sprop O) : sprop O := Pred (fun σ => forall a, Φ a σ).
Definition sprop_exist {A} (Φ : A -> sprop O) : sprop O := Pred (fun σ => exists a, Φ a σ).
Definition sprop_sep P Q : sprop O :=
  Pred (fun σ => exists σ1 σ2, σ = σ1 ∪ σ2 /\ σ1 ##ₘ σ2 /\ P σ1 /\ Q σ2).
Definition sprop_wand P Q : sprop O :=
  Pred (fun σ => forall σ', σ ##ₘ σ' -> P σ' -> Q (σ ∪ σ')).
Definition sprop_persistently P : sprop O := sprop_pure (sprop_entails sprop_emp P).
Definition sprop_later P : sprop O := P.

Ltac sprop_unfold :=
  rewrite /sprop_emp /sprop_pure /sprop_and /sprop_or /sprop_impl /sprop_forall /sprop_exist
    /sprop_sep /sprop_wand /sprop_holds /=.

Lemma sprop_bi_mixin :
  BiMixin sprop_entails sprop_emp sprop_pure sprop_and sprop_or sprop_impl
    (@sprop_forall) (@sprop_exist) sprop_sep sprop_wand.
Proof.
  split.
  - split; [by split|]. intros P Q R [H1] [H2]. split=> σ ?. eauto.
  - intros P Q. split.
    + intros [H]. split; split=> σ; apply H.
    + intros [[H1] [H2]]. split=> σ. split; eauto.
  - intros n φ ψ H. by split=> σ.
  - intros n P P' [HP] Q Q' [HQ]. split=> σ. sprop_unfold. split; intros [??]; split; by [apply HP|apply HQ].
  - intros n P P' [HP] Q Q' [HQ]. split=> σ. sprop_unfold. split; intros [?|?]; by [left; apply HP|right; apply HQ].
  - intros n P P' [HP] Q Q' [HQ]. split=> σ. sprop_unfold. split; intros H ?; apply HQ, H, HP; done.
  - intros A n Φ Ψ H. split=> σ. sprop_unfold. split; intros H' a; apply (H a), H'.
  - intros A n Φ Ψ H. split=> σ. sprop_unfold. split; intros [a ?]; exists a; by apply (H a).
  - intros n P P' [HP] Q Q' [HQ]. split=> σ. sprop_unfold.
    split; intros (σ1 & σ2 & -> & ? & ? & ?); exists σ1, σ2; naive_solver.
  - intros n P P' [HP] Q Q' [HQ]. split=> σ. sprop_unfold. split; intros H σ' ? ?; apply HQ, H, HP; done.
  - intros φ P ?. by split=> σ.
  - intros φ P H. split=> σ ?. by destruct (H ltac:(done)) as [H1]; apply H1.
  - intros P Q. split=> σ. by intros [? _].
  - intros P Q. split=> σ. by intros [_ ?].
  - intros P Q R [H1] [H2]. split=> σ ?. split; auto.
  - intros P Q. split=> σ. by left.
  - intros P Q. split=> σ. by right.
  - intros P Q R [H1] [H2]. split=> σ [?|?]; auto.
  - intros P Q R [H]. split=> σ ? ?. by apply H.
  - intros P Q R [H]. split=> σ [? ?]. by apply H.
  - intros A P Ψ H. split=> σ ? a. by destruct (H a) as [Ha]; apply Ha.
  - intros A Ψ a. split=> σ H. apply (H a).
  - intros A Ψ a. split=> σ H. by exists a.
  - intros A Φ Q H. split=> σ [a ?]. by destruct (H a) as [Ha]; apply Ha.
  - intros P P' Q Q' [H1] [H2]. split; intros σ (σ1 & σ2 & -> & ? & ? & ?). exists σ1, σ2. auto.
  - intros P. split=> σ ?. exists ∅, σ. rewrite left_id_L. split; [done|]. split; [apply map_disjoint_empty_l|done].
  - intros P. split; intros σ (σ1 & σ2 & -> & ? & -> & ?). by rewrite left_id_L.
  - intros P Q. split; intros σ (σ1 & σ2 & -> & ? & ? & ?). exists σ2, σ1. rewrite map_union_comm //.
  - intros P Q R. split; intros σ (σ1 & σ3 & -> & Hd & (σ2 & σ4 & -> & ? & ? & ?) & ?).
    apply map_disjoint_union_l in Hd as [??]. exists σ2, (σ4 ∪ σ3). rewrite assoc_L.
    split; [done|]. split; [by apply map_disjoint_union_r|]. split; [done|]. by exists σ4, σ3.
  - intros P Q R [H]. split=> σ ? σ' ? ?. apply H. by exists σ, σ'.
  - intros P Q R [H]. split; intros σ (σ1 & σ2 & -> & ? & ? & ?). by apply H.
Qed.

Lemma sprop_persistently_mixin :
  BiPersistentlyMixin sprop_entails sprop_emp sprop_and (@sprop_exist) sprop_sep sprop_persistently.
Proof.
  eapply bi_persistently_mixin_discrete, sprop_bi_mixin; [done| |done].
  intros A Φ [H]. destruct (H ∅) as [x Hx]; [done|]. exists x. split=> σ ->. done.
Qed.

Lemma sprop_later_mixin :
  BiLaterMixin sprop_entails sprop_pure sprop_or sprop_impl (@sprop_forall) (@sprop_exist)
    sprop_sep sprop_persistently sprop_later.
Proof. eapply bi_later_mixin_id, sprop_bi_mixin. done. Qed.

Canonical Structure spropI : bi :=
  {| bi_ofe_mixin := ofe_mixin_of (sprop O);
     bi_bi_mixin := sprop_bi_mixin;
     bi_bi_persistently_mixin := sprop_persistently_mixin;
     bi_bi_later_mixin := sprop_later_mixin |}.

(** The object [o] lies at [a], and that is all. *)
Definition pt (a : Z) (o : O) : sprop O := Pred (fun σ => σ = {[a := o]}).
End Assertions.
Arguments spropI _ : clear implicits.

Notation "a ↦ o" := (pt a o) (at level 20, format "a  ↦  o") : bi_scope.
Notation "⌈ φ ⌉" := (<affine> ⌜φ⌝)%I (at level 0, φ at level 200, format "⌈ φ ⌉") : bi_scope.

(** Two objects lie at two addresses. *)
Lemma pt_ne {O} (a b : Z) (o o' : O) : a ↦ o ∗ b ↦ o' ⊢@{spropI O} ⌈a <> b⌉ ∗ a ↦ o ∗ b ↦ o'.
Proof.
  split. intros σ (σ1 & σ2 & -> & Hd & -> & ->). exists ∅, ({[a := o]} ∪ {[b := o']}).
  split; [by rewrite left_id_L|]. split; [apply map_disjoint_empty_l|]. split.
  - split; [done|]. intros ->. by apply map_disjoint_singleton_l in Hd; rewrite lookup_singleton_eq in Hd.
  - by exists {[a := o]}, {[b := o']}.
Qed.

(** A store that an assertion holds of, object by object. *)
Lemma pt_insert {O} a (o : O) (P : spropI O) σ : σ !! a = None -> P σ -> (a ↦ o ∗ P)%I (<[a := o]> σ).
Proof.
  intros Ha HP. exists {[a := o]}, σ. split; [by rewrite insert_union_singleton_l|].
  split; [by apply map_disjoint_singleton_l|]. by split.
Qed.

Lemma holds_mono {O} (P Q : spropI O) σ : (P ⊢ Q) -> P σ -> Q σ.
Proof. intros [H]. apply H. Qed.

(** ** Weakest preconditions *)

(** What a state has: a store of objects, and a condition under which its
    allocator answers for the addresses in the store. *)
Class Store (S O : Type) : Type := {
  store : S -> gmap Z O;
  set_store : gmap Z O -> S -> S;
  sound : S -> Prop;
  store_set : forall m s, store (set_store m s) = m;
  sound_set : forall m s, dom m = dom (store s) -> sound s -> sound (set_store m s);
}.

Section Swp.
Context {S O : Type} {ST : Store S O}.
Implicit Types (σ : gmap Z O) (s : S).

(** From every state whose store has a part with this assertion, [p] ends
    without fault, changes that part only, and leaves [Q] there. *)
Definition swp_post {A} (Q : A -> sprop O) (σf : gmap Z O) (a : A) (s : S) : Prop :=
  sound s /\ exists σ, σ ##ₘ σf /\ store s = σ ∪ σf /\ Q a σ.
Definition swp {A} (p : prog S A) (Q : A -> sprop O) : sprop O :=
  Pred (fun σ => forall s σf, σ ##ₘ σf -> store s = σ ∪ σf -> sound s -> wp p (swp_post Q σf) s).

Lemma swp_ret {A} (a : A) Q : Q a ⊢ swp (ret a) Q.
Proof using Type. split=> σ HQ s σf Hd Hs Hw. apply wp_ret. split; [done|]. by exists σ. Qed.

Lemma swp_bind {A B} (m : prog S A) (k : A -> prog S B) Q :
  swp m (fun a => swp (k a) Q) ⊢ swp (bind m k) Q.
Proof using Type.
  split=> σ Hm s σf Hd Hs Hw. apply wp_bind. eapply wp_mono; [by apply Hm|].
  intros a s' (Hw' & σ' & Hd' & Hs' & Hk). by apply (Hk s' σf).
Qed.

Lemma swp_wand {A} (p : prog S A) (P Q : A -> sprop O) :
  swp p P ⊢ (∀ a, P a -∗ Q a) -∗ swp p Q.
Proof using Type.
  apply bi.wand_intro_r. split. intros σ (σ1 & σ2 & -> & Hd12 & Hp & HQ) s σf Hd Hs Hw.
  apply map_disjoint_union_l in Hd as [Hd1 Hd2].
  eapply wp_mono; [apply (Hp s (σ2 ∪ σf)); [by apply map_disjoint_union_r|by rewrite assoc_L|done]|].
  intros a s' (Hw' & σ' & Hd' & Hs' & HP). apply map_disjoint_union_r in Hd' as [Hd2' Hdf'].
  split; [done|]. exists (σ' ∪ σ2). split; [by apply map_disjoint_union_l|].
  rewrite Hs' assoc_L. split; [done|]. rewrite map_union_comm //. by apply (HQ a).
Qed.

Lemma swp_mono {A} (p : prog S A) (P Q : A -> sprop O) :
  (forall a, P a ⊢ Q a) -> swp p P ⊢ swp p Q.
Proof using Type.
  intros HPQ. iIntros "H". iApply (swp_wand with "H"). iIntros (a) "H". by iApply HPQ.
Qed.

(** The access rules; [F] is what the caller keeps. *)
Lemma swp_load a o (Q : O -> sprop O) :
  a ↦ o ∗ (a ↦ o -∗ Q o) ⊢ swp (getf (fun s => store s !! a)) Q.
Proof using Type.
  split. intros σ (σ1 & σ2 & -> & Hd12 & -> & HQ) s σf Hd Hs Hw.
  apply wp_getf with o.
  - rewrite Hs. apply lookup_union_Some_l, lookup_union_Some_l, lookup_singleton_eq.
  - split; [done|]. exists ({[a := o]} ∪ σ2). split; [done|]. split; [done|].
    rewrite map_union_comm //. by apply HQ.
Qed.

Lemma swp_store a o o' (Q : unit -> sprop O) :
  a ↦ o ∗ (a ↦ o' -∗ Q tt) ⊢ swp (modify (fun s => set_store (<[a := o']> (store s)) s)) Q.
Proof using Type.
  split. intros σ (σ1 & σ2 & -> & Hd12 & -> & HQ) s σf Hd Hs Hw. apply wp_modify.
  assert (store s !! a = Some o) as Ha
    by (rewrite Hs; apply lookup_union_Some_l, lookup_union_Some_l, lookup_singleton_eq).
  apply map_disjoint_union_l in Hd as [Hd1 Hd2].
  apply map_disjoint_singleton_l in Hd12 as Ha2. apply map_disjoint_singleton_l in Hd1 as Haf.
  split; [apply sound_set; [|done]; apply dom_insert_lookup_L; by rewrite Ha|].
  exists ({[a := o']} ∪ σ2).
  split; [apply map_disjoint_union_l; split; [by apply map_disjoint_singleton_l|done]|].
  rewrite store_set Hs. split.
  - rewrite -!assoc_L insert_union_l insert_singleton_eq. done.
  - rewrite map_union_comm; [|by apply map_disjoint_singleton_l].
    apply HQ; [|done]. by apply map_disjoint_singleton_r.
Qed.

(** The loop rule of [Prelude.wp_loop_n]: every turn decreases a bound. *)
Definition sturn {X R} (P : X -> sprop O) (Q : R -> sprop O) (r : step X R) : sprop O :=
  match r with Next x => P x | Done r => Q r end.

Lemma swp_loop {X R} (body : X -> prog S (step X R)) (I : Z -> X -> sprop O) Q n x :
  (forall n x, I n x ⊢ swp (body x) (sturn (fun x' => ∃ n', ⌈0 <= n' < n⌉ ∗ I n' x') Q)) ->
  n < 2 ^ 65 -> I n x ⊢ swp (loop body x) Q.
Proof using Type.
  intros Hbody Hn. split=> σ HI s σf Hd Hs Hw.
  apply (wp_loop_n body (fun n x s => sound s /\ exists σ, σ ##ₘ σf /\ store s = σ ∪ σf /\ I n x σ)
    (swp_post Q σf)) with n; [|split; [done|]; by exists σ|done].
  intros m y t (Hw' & σ' & Hd' & Hs' & HI'). destruct (Hbody m y) as [Hb].
  eapply wp_mono; [by apply (Hb σ' HI' t σf)|]. intros [z|r] t' (Hw'' & σ'' & Hd'' & Hs'' & H''); [|by split; eauto].
  destruct H'' as (n' & σ1 & σ2 & -> & _ & [-> Hn'] & HI''). cbn [turn]. exists n'.
  rewrite left_id_L in Hd'', Hs''. split; [|exact Hn']. split; [done|]. by exists σ2.
Qed.

(** A triple as a statement about runs: nothing outside [P]'s part of the
    store is touched. *)
Lemma swp_adequate {A} (p : prog S A) P Q s σ σf :
  (P ⊢ swp p Q) -> P σ -> σ ##ₘ σf -> store s = σ ∪ σf -> sound s ->
  exists a s' σ', p s = Ok (a, s') /\ σ' ##ₘ σf /\ store s' = σ' ∪ σf /\ Q a σ' /\ sound s'.
Proof using Type.
  intros [Hp] HP Hd Hs Hw. destruct (proj1 (wp_run _ _ _) (Hp σ HP s σf Hd Hs Hw)) as (a & s' & Hr & Hw' & σ' & ?).
  exists a, s', σ'. tauto.
Qed.
End Swp.

(** One step of a program under [swp]: the first instruction of a sequence. *)
Ltac sstep := first [iApply swp_bind | iApply swp_ret].
