(* ===== verification/KHeap.v ===== *)
(** * The kernel heap (kernel/mm.c, lines 5-18 and 330-423)

    The globals of [kernel/mm.c] as the record [mm], with the machine's memory
    [ram]; [kmalloc], [kfree] and [krealloc] work on [struct heap_block]
    headers stored in that memory:

      size at +0 (8 bytes), used at +8 (1 byte), next at +16 (8 bytes). *)

From S2P Require Import Prelude CMem MemFns CStr Alloc.

Record mm : Type := Mm {
  ram : mem;
  memory_bitmap : Z;
  memory_bitmap_size : Z;
  memory_total_pages : Z;
  memory_used_pages : Z;
  memory_base : Z;
  kernel_heap_start : Z;
  kernel_heap_end : Z;
  kernel_heap_current : Z;
  heap_free_list : Z;
  kernel_pml4 : Z;      (* the address of the static array *)
  cr3 : Z;              (* the page table the processor walks; 0: paging off *)
  invlpg : list Z;      (* the addresses flushed from the TLB, latest first *)
}.

Definition with_ram (v : mem) (s : mm) : mm :=
  Mm v (memory_bitmap s) (memory_bitmap_size s) (memory_total_pages s) (memory_used_pages s)
     (memory_base s) (kernel_heap_start s) (kernel_heap_end s) (kernel_heap_current s)
     (heap_free_list s) (kernel_pml4 s) (cr3 s) (invlpg s).
Definition with_heap (cur free : Z) (s : mm) : mm :=
  Mm (ram s) (memory_bitmap s) (memory_bitmap_size s) (memory_total_pages s) (memory_used_pages s)
     (memory_base s) (kernel_heap_start s) (kernel_heap_end s) cur
     free (kernel_pml4 s) (cr3 s) (invlpg s).

(** A memory operation, run on [ram]. *)
Definition on_ram {A} (p : prog mem A) : prog mm A :=
  fun s => match p (ram s) with
           | Ok (a, m) => Ok (a, with_ram m s)
           | Fault => Fault
           | Spin => Spin
           end.

Definition sizeof_heap_block : Z := 24.

(** [size = (size + 7) & ~7;] *)
Definition align8 (size : Z) : Z := Z.land (u64 (size + 7)) (u64 (-8)).

Definition load_used (block : Z) : prog mm bool :=
  let* b := on_ram (load8 (block + 8)) in ret (negb (b =? 0)).
Definition load_size (block : Z) : prog mm Z := on_ram (load64 block).
Definition load_next (block : Z) : prog mm Z := on_ram (load64 (block + 16)).
Definition store_used (block : Z) (v : bool) : prog mm unit :=
  on_ram (store8 (block + 8) (Z.b2z v)).
Definition store_size (block v : Z) : prog mm unit := on_ram (store64 block v).
Definition store_next (block v : Z) : prog mm unit := on_ram (store64 (block + 16) v).

(** The block split off when a free block is too large. *)
Definition split_block (block size : Z) : prog mm unit :=
  let* bsize := load_size block in
  if u64 (size + sizeof_heap_block) <? bsize then
    let new_block := u64 (block + sizeof_heap_block + size) in
    let* bsize := load_size block in
    store_size new_block (u64 (bsize - size - sizeof_heap_block)) ;;
    store_used new_block false ;;
    let* next := load_next block in
    store_next new_block next ;;
    store_size block size ;;
    store_next block new_block
  else ret tt.

Definition kmalloc (size : Z) : prog mm Z :=
  if size =? 0 then ret 0
  else
    let size := align8 size in
    let* free := gets heap_free_list in
    let* found := loop (fun block =>
      if block =? 0 then ret (Done None)
      else
        let* used := load_used block in
        let* fits := (if negb used then let* bsize := load_size block in ret (size <=? bsize)
                      else ret false) in
        if (fits : bool) then
          store_used block true ;;
          split_block block size ;;
          ret (Done (Some (u64 (block + sizeof_heap_block))))
        else
          let* next := load_next block in
          ret (Next next)) free in
    match found with
    | Some p => ret p
    | None =>
        let* current := gets kernel_heap_current in
        let* heap_end := gets kernel_heap_end in
        if heap_end <? u64 (current + size + sizeof_heap_block) then ret 0
        else
          let block := current in
          store_size block size ;;
          store_used block true ;;
          let* free := gets heap_free_list in
          store_next block free ;;
          modify (with_heap (u64 (current + (size + sizeof_heap_block))) block) ;;
          ret (u64 (block + sizeof_heap_block))
    end.

Definition kfree (ptr : Z) : prog mm unit :=
  if ptr =? 0 then ret tt
  else
    let block := u64 (ptr - sizeof_heap_block) in
    store_used block false ;;
    let* next := load_next block in
    let* merge := (if negb (next =? 0) then let* used := load_used next in ret (negb used)
                   else ret false) in
    if (merge : bool) then
      let* size := load_size block in
      let* next_size := load_size next in
      store_size block (u64 (size + (next_size + sizeof_heap_block))) ;;
      let* next_next := load_next next in
      store_next block next_next
    else ret tt.

Definition krealloc (ptr new_size : Z) : prog mm Z :=
  if ptr =? 0 then kmalloc new_size
  else if new_size =? 0 then kfree ptr ;; ret 0
  else
    let block := u64 (ptr - sizeof_heap_block) in
    let* bsize := load_size block in
    if new_size <=? bsize then ret ptr
    else
      let* new_ptr := kmalloc new_size in
      if new_ptr =? 0 then ret 0
      else
        let* bsize := load_size block in
        let copy_size := if bsize <? new_size then bsize else new_size in
        on_ram (memcpy new_ptr ptr copy_size) ;;
        kfree ptr ;;
        ret new_ptr.

(** ** Well-formed heaps *)

Record block : Type := Block { baddr : Z; bsize : Z; bused : bool }.

Definition bdata (b : block) : Z := baddr b + sizeof_heap_block.
Definition bend (b : block) : Z := bdata b + bsize b.

(** The header of [b], linked to [next], lies in memory. *)
Definition header (m : mem) (b : block) (next : Z) : Prop :=
  ptr_at m (baddr b) (bsize b) /\ m !! (baddr b + 8) = Some (Z.b2z (bused b)) /\
  ptr_at m (baddr b + 16) next.

Definition first_or (q : Z) (l : list block) : Z :=
  match l with [] => q | b :: _ => baddr b end.

(** The headers of [l] linked in this order, the last one to [q]. *)
Fixpoint chain (m : mem) (l : list block) (q : Z) : Prop :=
  match l with
  | [] => True
  | b :: l => header m b (first_or q l) /\ chain m l q
  end.

(** Two blocks whose extents, headers included, do not meet. *)
Definition apart (b c : block) : Prop := bend b <= baddr c \/ bend c <= baddr b.

Fixpoint all_apart (l : list block) : Prop :=
  match l with
  | [] => True
  | b :: l => Forall (apart b) l /\ all_apart l
  end.

Definition block_ok (start current : Z) (b : block) : Prop :=
  start <= baddr b /\ bend b <= current /\ 0 < bsize b /\
  (8 | baddr b) /\ (8 | bsize b).

(** The heap of [s] is well formed, with the blocks [l] in list order. *)
Record heap_blocks (s : mm) (l : list block) : Prop := {
  hb_first : heap_free_list s = first_or 0 l;
  hb_chain : chain (ram s) l 0;
  hb_apart : all_apart l;
  hb_ok : Forall (block_ok (kernel_heap_start s) (kernel_heap_current s)) l;
  hb_bounds : 0 < kernel_heap_start s <= kernel_heap_current s /\
              kernel_heap_current s <= kernel_heap_end s /\ kernel_heap_end s < 2 ^ 63;
  hb_aligned : (8 | kernel_heap_current s);
  hb_mapped : mapped (ram s) (kernel_heap_start s) (kernel_heap_end s - kernel_heap_start s);
}.

(** The allocations in use: payload address and size. *)
Definition live_of (l : list block) : gmap Z Z :=
  foldr (fun b lv => if bused b then <[bdata b := bsize b]> lv else lv) ∅ l.

(** ** Lemmas *)

Lemma wp_on_ram {A} (p : prog mem A) Q s :
  wp p (fun a m => Q a (with_ram m s)) (ram s) -> wp (on_ram p) Q s.
Proof. unfold wp, on_ram. by destruct (p (ram s)) as [[a m]| |]. Qed.

Lemma with_ram_ram m s : ram (with_ram m s) = m.
Proof. done. Qed.

Lemma with_ram_twice m1 m2 s : with_ram m2 (with_ram m1 s) = with_ram m2 s.
Proof. done. Qed.

Lemma with_ram_id s : with_ram (ram s) s = s.
Proof. by destruct s. Qed.

Section HeaderOps.
Implicit Types (b : block) (m : mem) (s : mm).

Lemma wp_load_size b nx (Q : Z -> mm -> Prop) s :
  header (ram s) b nx -> Q (bsize b) s -> wp (load_size (baddr b)) Q s.
Proof.
  intros (H & _ & _) HQ. apply wp_on_ram. eapply wp_load_ptr; [exact H|].
  by rewrite with_ram_id.
Qed.

Lemma wp_load_used b nx (Q : bool -> mm -> Prop) s :
  header (ram s) b nx -> Q (bused b) s -> wp (load_used (baddr b)) Q s.
Proof.
  intros (_ & H & _) HQ. apply wp_bind, wp_on_ram. apply wp_load8 with (Z.b2z (bused b)); [done|].
  rewrite with_ram_id. apply wp_ret. by destruct (bused b).
Qed.

Lemma wp_load_next b nx (Q : Z -> mm -> Prop) s :
  header (ram s) b nx -> Q nx s -> wp (load_next (baddr b)) Q s.
Proof.
  intros (_ & _ & H) HQ. apply wp_on_ram. eapply wp_load_ptr; [exact H|].
  by rewrite with_ram_id.
Qed.

Lemma wp_store_size a v (Q : unit -> mm -> Prop) s :
  mapped (ram s) a 8 -> Q tt (with_ram (write a (le_bytes 8 v) (ram s)) s) ->
  wp (store_size a v) Q s.
Proof. intros Hm HQ. apply wp_on_ram, wp_store_ptr; [done|]. by intros m ->. Qed.

Lemma wp_store_next a v (Q : unit -> mm -> Prop) s :
  mapped (ram s) (a + 16) 8 -> Q tt (with_ram (write (a + 16) (le_bytes 8 v) (ram s)) s) ->
  wp (store_next a v) Q s.
Proof. intros Hm HQ. apply wp_on_ram, wp_store_ptr; [done|]. by intros m ->. Qed.

Lemma wp_store_used a v (Q : unit -> mm -> Prop) s :
  is_Some (ram s !! (a + 8)) -> Q tt (with_ram (write (a + 8) [Z.b2z v] (ram s)) s) ->
  wp (store_used a v) Q s.
Proof.
  intros Hm HQ. apply wp_on_ram, wp_store8; [done|]. rewrite wrap_small; [done|].
  destruct v; simpl; lia.
Qed.

(** What the header fields are after a store to one of them. *)
Lemma ptr_at_out m a l p v :
  ptr_at m p v -> p + 8 <= a \/ a + Z.of_nat (length l) <= p -> ptr_at (write a l m) p v.
Proof.
  intros [Hv H] Hd. split; [done|]. apply bytes_at_write_out; [done|].
  rewrite le_bytes_length. lia.
Qed.

Lemma header_out m a l b nx :
  header m b nx -> bdata b <= a \/ a + Z.of_nat (length l) <= baddr b ->
  header (write a l m) b nx.
Proof.
  unfold bdata, sizeof_heap_block. intros (H1 & H2 & H3) Hd. split; [|split].
  - apply ptr_at_out; [done|]. lia.
  - rewrite write_lookup_out by lia. done.
  - apply ptr_at_out; [done|]. lia.
Qed.

Lemma header_frame m m' b nx :
  header m b nx -> (forall k, baddr b <= k < bdata b -> m' !! k = m !! k) -> header m' b nx.
Proof.
  unfold header, ptr_at, bytes_at, bdata, sizeof_heap_block. intros ([H1 H1'] & H2 & H3 & H3') Hf.
  split; [|split].
  - split; [done|]. intros i c Hi. pose proof (lookup_lt_Some _ _ _ Hi) as L.
    rewrite le_bytes_length in L. rewrite Hf by lia. auto.
  - rewrite Hf by lia. done.
  - split; [done|]. intros i c Hi. pose proof (lookup_lt_Some _ _ _ Hi) as L.
    rewrite le_bytes_length in L. rewrite Hf by lia. auto.
Qed.

Lemma header_set_size m b nx v :
  header m b nx -> 0 <= v < 2 ^ 64 ->
  header (write (baddr b) (le_bytes 8 v) m) (Block (baddr b) v (bused b)) nx.
Proof.
  intros (H1 & H2 & H3) Hv. split; [|split]; cbn [baddr bsize bused].
  - by apply ptr_at_write.
  - rewrite write_lookup_out by (rewrite le_bytes_length; lia). done.
  - apply ptr_at_out; [done|]. rewrite le_bytes_length. lia.
Qed.

Lemma header_set_used m b nx v :
  header m b nx ->
  header (write (baddr b + 8) [Z.b2z v] m) (Block (baddr b) (bsize b) v) nx.
Proof.
  intros (H1 & H2 & H3). split; [|split]; cbn [baddr bsize bused].
  - apply ptr_at_out; [done|]. lia.
  - apply lookup_insert_eq.
  - apply ptr_at_out; [done|]. simpl. lia.
Qed.

Lemma header_set_next m b nx v :
  header m b nx -> 0 <= v < 2 ^ 64 ->
  header (write (baddr b + 16) (le_bytes 8 v) m) b v.
Proof.
  intros (H1 & H2 & H3) Hv. split; [|split].
  - apply ptr_at_out; [done|]. lia.
  - rewrite write_lookup_out by lia. done.
  - by apply ptr_at_write.
Qed.

Lemma header_mapped m b nx : header m b nx ->
  mapped m (baddr b) 8 /\ is_Some (m !! (baddr b + 8)) /\ mapped m (baddr b + 16) 8.
Proof.
  intros ([_ H1] & H2 & [_ H3]). split; [|split; [by eexists|]].
  - apply bytes_at_mapped in H1. by rewrite le_bytes_length in H1.
  - apply bytes_at_mapped in H3. by rewrite le_bytes_length in H3.
Qed.

(** A header written field by field. *)
Lemma header_new m a v u nx :
  0 <= v < 2 ^ 64 -> 0 <= nx < 2 ^ 64 ->
  header (write (a + 16) (le_bytes 8 nx) (write (a + 8) [Z.b2z u] (write a (le_bytes 8 v) m)))
         (Block a v u) nx.
Proof.
  intros Hv Hn. split; [|split]; cbn [baddr bsize bused].
  - apply ptr_at_out; [|rewrite le_bytes_length; lia].
    apply ptr_at_out; [|simpl; lia]. by apply ptr_at_write.
  - rewrite write_lookup_out by lia. apply lookup_insert_eq.
  - by apply ptr_at_write.
Qed.
End HeaderOps.

(** Read a field of the block whose header is [H]. *)
Ltac heap_load H :=
  cbv beta;
  lazymatch goal with
  | |- wp (load_size _) _ ?s => apply (wp_load_size _ _ _ s H)
  | |- wp (load_used _) _ ?s => apply (wp_load_used _ _ _ s H)
  | |- wp (load_next _) _ ?s => apply (wp_load_next _ _ _ s H)
  end.

(** Memory unchanged outside [lo, hi). *)
Definition agree_out (lo hi : Z) (m m' : mem) : Prop :=
  forall k, k < lo \/ hi <= k -> m' !! k = m !! k.

Lemma agree_out_refl lo hi m : agree_out lo hi m m.
Proof. by intros k _. Qed.

Lemma agree_out_write lo hi m m' a l :
  agree_out lo hi m m' -> lo <= a -> a + Z.of_nat (length l) <= hi ->
  agree_out lo hi m (write a l m').
Proof. intros H ?? k Hk. rewrite write_lookup_out by lia. by apply H. Qed.

Section Chains.
Implicit Types (b c : block) (m : mem) (l : list block).

Lemma first_or_app q l1 l2 : first_or q (l1 ++ l2) = first_or (first_or q l2) l1.
Proof. by destruct l1. Qed.

Lemma chain_app m l1 l2 q :
  chain m (l1 ++ l2) q <-> chain m l1 (first_or q l2) /\ chain m l2 q.
Proof.
  induction l1 as [|b l1 IH]; simpl; [tauto|]. rewrite IH, first_or_app. tauto.
Qed.

Lemma all_apart_app l1 l2 :
  all_apart (l1 ++ l2) <->
  all_apart l1 /\ all_apart l2 /\ Forall (fun b => Forall (apart b) l2) l1.
Proof.
  induction l1 as [|b l1 IH]; simpl.
  - split; [|tauto]. intros H. split; [done|]. split; [done|]. constructor.
  - rewrite IH, Forall_app, Forall_cons. tauto.
Qed.

(** Blocks away from a range keep their headers when only it changes. *)
Definition clear_of (lo hi : Z) (c : block) : Prop := bend c <= lo \/ hi <= baddr c.

Lemma chain_agree lo hi m m' l q :
  agree_out lo hi m m' -> Forall (clear_of lo hi) l -> Forall (fun c => 0 < bsize c) l ->
  chain m l q -> chain m' l q.
Proof.
  intros Ha. induction l as [|c l IH]; simpl; [done|].
  rewrite !Forall_cons. intros [Hc Hl] [Hs Hss] [Hh Ht]. split; [|by apply IH].
  eapply header_frame; [exact Hh|]. intros k Hk. apply Ha.
  unfold clear_of, bend in Hc. lia.
Qed.

Lemma live_of_app l1 l2 : live_of (l1 ++ l2) = live_of l1 ∪ live_of l2.
Proof.
  induction l1 as [|b l1 IH]; simpl; [by rewrite (left_id_L ∅ (∪))|].
  rewrite IH. destruct (bused b); [|done]. by rewrite insert_union_l.
Qed.

Lemma live_of_clear l b : Forall (apart b) l -> Forall (fun c => 0 < bsize c) l ->
  0 < bsize b -> live_of l !! bdata b = None.
Proof.
  intros Ha Hs Hb. induction l as [|c l IH]; simpl; [done|].
  apply Forall_cons in Ha as [Hc Ha]. apply Forall_cons in Hs as [Hsc Hs].
  destruct (bused c); [|by apply IH]. rewrite lookup_insert_ne; [by apply IH|].
  unfold apart, bend, bdata, sizeof_heap_block in *. lia.
Qed.

Lemma live_of_mid l1 b l2 : bused b = true -> Forall (apart b) l1 ->
  Forall (fun c => 0 < bsize c) l1 -> 0 < bsize b ->
  live_of (l1 ++ b :: l2) = <[bdata b := bsize b]> (live_of (l1 ++ l2)).
Proof.
  intros Hu Ha Hs Hb. rewrite !live_of_app. simpl. rewrite Hu.
  rewrite insert_union_r; [done|]. by apply live_of_clear.
Qed.

Lemma live_of_mid_free l1 b l2 : bused b = false ->
  live_of (l1 ++ b :: l2) = live_of (l1 ++ l2).
Proof. intros Hu. rewrite !live_of_app. simpl. by rewrite Hu. Qed.

Lemma apart_sym b c : apart b c -> apart c b.
Proof. unfold apart. tauto. Qed.

(** Everything in the list but [b] lies clear of [b]. *)
Lemma apart_mid l1 b l2 :
  all_apart (l1 ++ b :: l2) -> Forall (apart b) l1 /\ Forall (apart b) l2 /\ all_apart (l1 ++ l2).
Proof.
  rewrite !all_apart_app. cbn [all_apart]. intros (H1 & (Hb & H2) & H12).
  split; [|split; [done|]].
  - eapply Forall_impl; [exact H12|]. intros c Hc. apply Forall_cons in Hc as [Hc _].
    by apply apart_sym.
  - split; [done|]. split; [done|]. eapply Forall_impl; [exact H12|].
    intros c Hc. by apply Forall_cons in Hc as [_ Hc].
Qed.

Lemma apart_insert l1 b l2 :
  Forall (apart b) l1 -> Forall (apart b) l2 -> all_apart (l1 ++ l2) -> all_apart (l1 ++ b :: l2).
Proof.
  rewrite !all_apart_app. cbn [all_apart]. intros H1 H2 (Ha & Hb & H12).
  split; [done|]. split; [done|]. apply Forall_forall. intros c Hc. constructor.
  - apply apart_sym. by eapply Forall_forall in H1.
  - by eapply Forall_forall in H12.
Qed.

Lemma apart_sub b b' l :
  baddr b <= baddr b' -> bend b' <= bend b -> Forall (apart b) l -> Forall (apart b') l.
Proof. intros H1 H2 H. eapply Forall_impl; [exact H|]. unfold apart. intros c. lia. Qed.
End Chains.

(** ** [kmalloc] *)

Definition split_result (a sz size nx : Z) (m m' : mem) : Prop :=
  agree_out a (a + sizeof_heap_block + sz) m m' /\
  (sz <= size + sizeof_heap_block /\ header m' (Block a sz true) nx \/
   size + sizeof_heap_block < sz /\
   header m' (Block a size true) (a + sizeof_heap_block + size) /\
   header m' (Block (a + sizeof_heap_block + size) (sz - size - sizeof_heap_block) false) nx).

Lemma wp_split_block a sz size nx s (Q : unit -> mm -> Prop) :
  header (ram s) (Block a sz true) nx -> mapped (ram s) a (sizeof_heap_block + sz) ->
  0 < a -> 0 < size <= sz -> a + sizeof_heap_block + sz < 2 ^ 63 ->
  (forall m', split_result a sz size nx (ram s) m' ->
     (forall b k, mapped (ram s) b k -> mapped m' b k) -> Q tt (with_ram m' s)) ->
  wp (split_block a size) Q s.
Proof.
  unfold sizeof_heap_block. intros Hh Hm Ha Hsz Hb HQ. unfold split_block, sizeof_heap_block.
  wp_step. heap_load Hh. cbn [bsize].
  rewrite (wrap_small 64 (size + 24)) by lia. destruct (Z.ltb_spec (size + 24) sz) as [Hlt|Hge].
  2: { wp_step. rewrite <- (with_ram_id s) at 1. apply HQ; [|done].
       split; [apply agree_out_refl|]. left. done. }
  rewrite (wrap_small 64 (a + 24 + size)) by lia. set (nb := a + 24 + size).
  wp_step. heap_load Hh. cbn [bsize].
  rewrite (wrap_small 64 (sz - size - 24)) by lia. set (rest := sz - size - 24).
  set (m1 := write nb (le_bytes 8 rest) (ram s)).
  set (m2 := write (nb + 8) [Z.b2z false] m1).
  set (m3 := write (nb + 16) (le_bytes 8 nx) m2).
  set (m4 := write a (le_bytes 8 size) m3).
  set (m5 := write (a + 16) (le_bytes 8 nb) m4).
  assert (0 <= nx < 2 ^ 64) as Hnx by apply Hh.
  assert (header m2 (Block a sz true) nx) as H2.
  { apply header_out; [apply header_out; [done|]|]; unfold bdata; simpl;
      rewrite ?le_bytes_length; unfold sizeof_heap_block; lia. }
  wp_step. apply wp_store_size; [eapply mapped_le; [exact Hm|lia..]|].
  wp_step. apply wp_store_used.
  { cbn [ram with_ram]. apply (write_mapped nb _ _ a (24 + sz)); [done|lia]. }
  rewrite with_ram_ram, with_ram_twice. fold m1. fold m2.
  wp_step. apply (wp_load_next (Block a sz true) nx); [done|].
  wp_step. apply wp_store_next.
  { cbn [ram with_ram]. apply write_mapped, write_mapped. eapply mapped_le; [exact Hm|lia..]. }
  rewrite with_ram_ram, with_ram_twice. fold m3.
  assert (header m3 (Block nb rest false) nx) as H3 by (apply header_new; lia).
  assert (header m3 (Block a sz true) nx) as H3a.
  { apply header_out; [done|]. unfold bdata, sizeof_heap_block. simpl. lia. }
  wp_step. apply wp_store_size; [apply (header_mapped _ _ _ H3a)|].
  rewrite with_ram_ram, with_ram_twice. fold m4.
  apply (header_set_size _ _ _ size) in H3a; [|lia]. cbn [baddr bused] in H3a. fold m4 in H3a.
  apply wp_store_next; [apply (header_mapped _ _ _ H3a)|].
  rewrite with_ram_ram, with_ram_twice. fold m5.
  apply (header_set_next _ _ _ nb) in H3a; [|lia]. cbn [baddr] in H3a. fold m5 in H3a.
  apply HQ.
  - unfold split_result, sizeof_heap_block. split.
    + repeat (apply agree_out_write; [|rewrite ?le_bytes_length; simpl; lia..]).
      apply agree_out_refl.
    + right. split; [done|]. split; [done|]. fold nb rest.
      apply header_out; [apply header_out; [done|]|]; rewrite le_bytes_length; simpl; lia.
  - intros b k Hbk. by repeat apply write_mapped.
Qed.

Lemma block_ok_size start cur b : block_ok start cur b -> 0 < bsize b.
Proof. by intros (_ & _ & H & _). Qed.

Lemma ok_sizes start cur l : Forall (block_ok start cur) l -> Forall (fun c => 0 < bsize c) l.
Proof. intros H. eapply Forall_impl; [exact H|]. apply block_ok_size. Qed.

(** Carving a block of the list into [bs], changing only its own extent. *)
Lemma heap_replace s l1 b l2 bs m' :
  heap_blocks s (l1 ++ b :: l2) ->
  agree_out (baddr b) (bend b) (ram s) m' ->
  (forall a k, mapped (ram s) a k -> mapped m' a k) ->
  chain m' bs (first_or 0 l2) ->
  (forall q, first_or q bs = baddr b) ->
  all_apart bs ->
  Forall (fun c => baddr b <= baddr c /\ bend c <= bend b /\
                   0 < bsize c /\ (8 | baddr c) /\ (8 | bsize c)) bs ->
  heap_blocks (with_ram m' s) (l1 ++ bs ++ l2).
Proof.
  intros [Hf Hc Ha Hok Hb Hal Hm] Hag Hmap Hcb Hfb Hab Hbs.
  apply Forall_app in Hok as [Hok1 Hok2]. apply Forall_cons in Hok2 as [Hokb Hok2].
  apply apart_mid in Ha as (Ha1 & Ha2 & Ha).
  apply chain_app in Hc as [Hc1 Hc2]. cbn [first_or chain] in *. destruct Hc2 as [_ Hc2].
  constructor; cbn [with_ram ram heap_free_list kernel_heap_start kernel_heap_current kernel_heap_end].
  - rewrite Hf, !first_or_app, Hfb. done.
  - rewrite !chain_app, first_or_app, Hfb. split; [|split; [done|]].
    + eapply (chain_agree _ _ _ _ _ _ Hag); [|by eapply ok_sizes|done].
      eapply Forall_impl; [exact Ha1|]. unfold apart, clear_of. intros c. lia.
    + eapply (chain_agree _ _ _ _ _ _ Hag); [|by eapply ok_sizes|done].
      eapply Forall_impl; [exact Ha2|]. unfold apart, clear_of. intros c. lia.
  - clear Hcb Hfb. induction bs as [|c bs IH]; [done|]. destruct Hab as [Hcbs Hab].
    apply Forall_cons in Hbs as [(Hc' & Hc'' & _) Hbs]. cbn [app].
    apply apart_insert; [|apply Forall_app; split; [done|]|by apply IH];
      eapply (apart_sub b); done.
  - rewrite !Forall_app. split; [done|]. split; [|done].
    eapply Forall_impl; [exact Hbs|]. intros c (? & ? & ? & ? & ?).
    destruct Hokb as (? & ? & _). split; [lia|]. split; [lia|done].
  - done.
  - done.
  - by apply Hmap.
Qed.

(** What an allocation promises. *)
Record kmalloc_post (size : Z) (s : mm) (l : list block) (p : Z) (s' : mm) : Prop := {
  km_blocks : exists l1 b l2, heap_blocks s' (l1 ++ b :: l2) /\ bused b = true /\
    p = bdata b /\ size <= bsize b /\ live_of (l1 ++ b :: l2) = <[p := bsize b]> (live_of l) /\
    live_of l !! p = None;
  km_ram : forall c k, c ∈ l -> bused c = true -> baddr c <= k < bend c ->
    ram s' !! k = ram s !! k;
  km_outside : forall k, k < kernel_heap_start s \/ kernel_heap_end s <= k ->
    ram s' !! k = ram s !! k;
  km_mapped : forall a k, mapped (ram s) a k -> mapped (ram s') a k;
  km_globals : s' = with_ram (ram s') (with_heap (kernel_heap_current s') (heap_free_list s') s);
}.

(** [l] has no free block for [size] bytes. *)
Definition unfit (size : Z) (c : block) : Prop := bused c = true \/ bsize c < size.

Lemma align8_ge size : 0 < size -> size + 7 < 2 ^ 64 ->
  size <= align8 size < size + 8 /\ (8 | align8 size).
Proof.
  intros Hs Hb. unfold align8. rewrite wrap_small by lia.
  change (u64 (-8)) with (Z.shiftl (Z.ones 61) 3).
  assert (Z.land (size + 7) (Z.shiftl (Z.ones 61) 3) = (size + 7) / 8 * 8) as ->.
  { change 8 with (2 ^ 3). rewrite <- Z.shiftr_div_pow2, <- Z.shiftl_mul_pow2 by lia.
    apply Z.bits_inj'. intros i Hi. rewrite Z.land_spec.
    destruct (decide (i < 3)).
    - by rewrite !Z.shiftl_spec_low, andb_false_r by lia.
    - rewrite !Z.shiftl_spec, Z.shiftr_spec by lia. replace (i - 3 + 3) with i by lia.
      destruct (decide (i < 64)).
      + rewrite Z.ones_spec_low by lia. apply andb_true_r.
      + rewrite (Z.bits_above_log2 (size + 7) i); [done|lia|].
        enough (Z.log2 (size + 7) < 64) by lia. apply Z.log2_lt_pow2; lia. }
  pose proof (Z.div_mod (size + 7) 8 ltac:(lia)). pose proof (Z.mod_pos_bound (size + 7) 8 ltac:(lia)).
  split; [lia|]. apply Z.divide_factor_r.
Qed.

Lemma block_ok_range s c l : heap_blocks s l -> c ∈ l ->
  0 < baddr c /\ kernel_heap_start s <= baddr c /\ bend c <= kernel_heap_end s /\
  bend c < 2 ^ 63 /\ 0 < bsize c.
Proof.
  intros H Hc. pose proof (hb_ok _ _ H) as Hok. rewrite Forall_forall in Hok.
  specialize (Hok c Hc). pose proof (hb_bounds _ _ H). destruct Hok as (? & ? & ? & _). lia.
Qed.

(** Reusing the free block [b]. *)
Lemma wp_take_block {A} s l1 b l2 size (rest : prog mm A) (Q : A -> mm -> Prop) :
  heap_blocks s (l1 ++ b :: l2) -> bused b = false -> 0 < size <= bsize b -> (8 | size) ->
  (forall s', kmalloc_post size s (l1 ++ b :: l2) (bdata b) s' -> wp rest Q s') ->
  wp (store_used (baddr b) true ;; split_block (baddr b) size ;; rest) Q s.
Proof.
  intros H Hu Hs H8 HQ.
  assert (b ∈ l1 ++ b :: l2) as Hin by (apply elem_of_app; right; left).
  pose proof (block_ok_range _ _ _ H Hin) as (Rb0 & Rb1 & Rb2 & Rb3 & Rb4).
  pose proof (hb_chain _ _ H) as Hc. apply chain_app in Hc as [_ [Hh _]].
  pose proof (hb_ok _ _ H) as Hok. apply Forall_app in Hok as [_ Hok].
  apply Forall_cons in Hok as [(_ & _ & _ & Ba8 & Bs8) _].
  pose proof (apart_mid _ _ _ (hb_apart _ _ H)) as (Ap1 & Ap2 & _).
  pose proof (ok_sizes _ _ _ (hb_ok _ _ H)) as Hsizes. apply Forall_app in Hsizes as [Hsz1 Hsz2].
  apply Forall_cons in Hsz2 as [_ Hsz2].
  wp_step. apply wp_store_used; [apply (proj1 (proj2 (header_mapped _ _ _ Hh)))|].
  cbv beta. set (m1 := write (baddr b + 8) [Z.b2z true] (ram s)). apply (header_set_used _ _ _ true) in Hh. fold m1 in Hh.
  unfold bend, bdata, sizeof_heap_block in Rb2, Rb3.
  assert (mapped m1 (baddr b) (sizeof_heap_block + bsize b)) as Hmb.
  { apply write_mapped. eapply mapped_le; [apply (hb_mapped _ _ H)|done|].
    unfold sizeof_heap_block. lia. }
  assert (agree_out (baddr b) (bend b) (ram s) m1) as Hag1.
  { apply agree_out_write; [apply agree_out_refl|lia|unfold bend, bdata, sizeof_heap_block; simpl; lia]. }
  wp_step. apply (wp_split_block (baddr b) (bsize b) _ (first_or 0 l2)); cbn [ram with_ram]; try done;
    [unfold sizeof_heap_block; lia..|].
  intros m' [Hag Hsplit] Hmap. rewrite with_ram_twice.
  assert (agree_out (baddr b) (bend b) (ram s) m') as Hag2.
  { intros k Hk. rewrite (Hag k) by (unfold bend, bdata in Hk; lia). by apply Hag1. }
  assert (forall a k, mapped (ram s) a k -> mapped m' a k) as Hmap'
    by (intros; by apply Hmap, write_mapped).
  apply HQ.
  assert (exists bs b', bs = b' :: tail bs /\ baddr b' = baddr b /\ bused b' = true /\
            size <= bsize b' /\ live_of (tail bs) = ∅ /\
            heap_blocks (with_ram m' s) (l1 ++ bs ++ l2)) as (bs & b' & Ebs & Eb & Eu & Hsb & Hlv & Hwf).
  { destruct Hsplit as [[Hle Hh']|(Hlt & Hh1 & Hh2)].
    - exists [Block (baddr b) (bsize b) true], (Block (baddr b) (bsize b) true).
      do 3 (split; [done|]). split; [simpl; lia|]. split; [done|].
      eapply heap_replace; try done.
      constructor; [|constructor]. simpl. unfold bend, bdata. simpl. split_and!; [lia..|done|done].
    - set (nb := Block (baddr b + sizeof_heap_block + size) (bsize b - size - sizeof_heap_block) false).
      exists [Block (baddr b) size true; nb], (Block (baddr b) size true).
      do 3 (split; [done|]). split; [simpl; lia|]. split; [done|].
      unfold sizeof_heap_block in *.
      eapply heap_replace; try done.
      + simpl. split; [|split; [|done]; constructor]. constructor; [|constructor].
        left. unfold bend, bdata, nb, sizeof_heap_block. simpl. lia.
      + assert (8 | 24) as H24 by by exists 3.
        constructor; [|constructor; [|constructor]]; unfold nb, bend, bdata, sizeof_heap_block; simpl.
        * split_and!; try done; lia.
        * split_and!; [lia..| |].
          -- repeat apply Z.divide_add_r; done.
          -- repeat apply Z.divide_sub_r; done. }
  rewrite Ebs in Hwf. cbn [app] in Hwf.
  constructor; cbn [ram with_ram]; try done.
  - exists l1, b', (tail bs ++ l2). split; [done|]. split; [done|].
    assert (bdata b' = bdata b) as Ed by (unfold bdata; by rewrite Eb).
    split; [done|]. split; [done|].
    rewrite <- Ed. split.
    + pose proof (apart_mid _ _ _ (hb_apart _ _ Hwf)) as (A1 & _).
      rewrite live_of_mid by (done || lia). f_equal.
      rewrite (live_of_mid_free l1 b l2) by done.
      rewrite !live_of_app, Hlv. by rewrite (left_id_L ∅ (∪)).
    + rewrite Ed, live_of_mid_free by done. apply live_of_clear; [|by rewrite Forall_app|done].
      by apply Forall_app. 
  - intros c j Hc Hcu Hk. apply Hag2. rewrite elem_of_app, elem_of_cons in Hc.
    destruct Hc as [Hc|[->|Hc]]; [|congruence|].
    + rewrite Forall_forall in Ap1. specialize (Ap1 _ Hc). unfold apart in Ap1. lia.
    + rewrite Forall_forall in Ap2. specialize (Ap2 _ Hc). unfold apart in Ap2. lia.
  - intros k Hk. apply Hag2. unfold bend, bdata, sizeof_heap_block. lia.
Qed.


(** The heap grows by one block. *)
Lemma wp_grow_heap s l size (Q : Z -> mm -> Prop) :
  heap_blocks s l -> 0 < size -> (8 | size) -> size < 2 ^ 63 ->
  kernel_heap_current s + size + sizeof_heap_block <= kernel_heap_end s ->
  (forall s', kmalloc_post size s l (kernel_heap_current s + sizeof_heap_block) s' ->
     Q (kernel_heap_current s + sizeof_heap_block) s') ->
  wp (store_size (kernel_heap_current s) size ;;
      store_used (kernel_heap_current s) true ;;
      let* free := gets heap_free_list in
      store_next (kernel_heap_current s) free ;;
      modify (with_heap (u64 (kernel_heap_current s + (size + sizeof_heap_block)))
                        (kernel_heap_current s)) ;;
      ret (u64 (kernel_heap_current s + sizeof_heap_block))) Q s.
Proof.
  intros H Hs H8 Hs63 Hfit HQ. pose proof (hb_bounds _ _ H) as (Hb1 & Hb2 & Hb3).
  unfold sizeof_heap_block in *. set (a := kernel_heap_current s) in *.
  assert (mapped (ram s) a (24 + size)) as Hma.
  { eapply mapped_le; [apply (hb_mapped _ _ H)|lia|lia]. }
  set (nx := heap_free_list s).
  assert (0 <= nx < 2 ^ 64) as Hnx.
  { unfold nx. rewrite (hb_first _ _ H). destruct l as [|c l]; simpl; [lia|].
    pose proof (block_ok_range _ c _ H ltac:(left)). unfold bend, bdata, sizeof_heap_block in *. lia. }
  set (m3 := write (a + 16) (le_bytes 8 nx) (write (a + 8) [Z.b2z true] (write a (le_bytes 8 size) (ram s)))).
  wp_step. apply wp_store_size; [eapply mapped_le; [exact Hma|lia..]|].
  wp_step. apply wp_store_used.
  { cbn [ram with_ram]. apply (write_mapped a _ _ a (24 + size)); [done|lia]. }
  wp_steps. apply wp_store_next.
  { cbn [ram with_ram]. apply write_mapped, write_mapped. eapply mapped_le; [exact Hma|lia..]. }
  rewrite !with_ram_ram, !with_ram_twice. cbn [heap_free_list with_ram]. fold nx m3.
  wp_steps. rewrite !wrap_small by lia. apply HQ. clear HQ.
  set (b := Block a size true). set (s' := with_heap _ _ _).
  assert (agree_out a (a + 24) (ram s) m3) as Hag.
  { repeat (apply agree_out_write; [|rewrite ?le_bytes_length; simpl; lia..]). apply agree_out_refl. }
  assert (Forall (apart b) l) as Hab.
  { apply Forall_forall. intros c Hc. right. pose proof (hb_ok _ _ H) as Hok.
    rewrite Forall_forall in Hok. destruct (Hok _ Hc) as (_ & Hc2 & _). done. }
  pose proof (ok_sizes _ _ _ (hb_ok _ _ H)) as Hsizes.
  assert (forall b k, mapped (ram s) b k -> mapped m3 b k) as Hmap.
  { intros ?? Hbk. by repeat apply write_mapped. }
  constructor; cbn [ram with_ram with_heap s'].
  - exists [], b, l. split; [|split; [done|split; [done|split; [simpl; lia|]]]].
    + constructor; cbn; try done.
      * split; [|].
        -- rewrite <- (hb_first _ _ H). apply header_new; [lia|done].
        -- eapply chain_agree; [exact Hag| |done|apply (hb_chain _ _ H)].
           eapply Forall_impl; [exact Hab|]. unfold apart, clear_of. cbn. unfold bend, bdata, sizeof_heap_block.
           intros c. cbn. lia.
      * split; [done|apply (hb_apart _ _ H)].
      * constructor.
        -- unfold block_ok, bend, bdata, sizeof_heap_block. cbn. split_and!; [lia..| |done].
           apply (hb_aligned _ _ H).
        -- eapply Forall_impl; [apply (hb_ok _ _ H)|]. intros c (? & ? & ? & ? & ?).
           split_and!; try done; unfold a; lia.
      * lia.
      * apply Z.divide_add_r; [apply (hb_aligned _ _ H)|]. apply Z.divide_add_r; [done|]. by exists 3.
      * apply Hmap, (hb_mapped _ _ H).
    + split; [done|]. by apply (live_of_clear l b).
  - intros c k Hc _ Hk. apply Hag. pose proof (hb_ok _ _ H) as Hok.
    rewrite Forall_forall in Hok. destruct (Hok _ Hc) as (_ & Hc2 & _). fold a in Hc2. lia.
  - intros k Hk. apply Hag. lia.
  - exact Hmap.
  - by destruct s.
Qed.

(** The scan of the list for a free block that fits. *)
Lemma wp_find_block s l size (Q : option Z -> mm -> Prop) :
  heap_blocks s l -> 0 < size -> (8 | size) -> Z.of_nat (length l) < 2 ^ 64 ->
  (Forall (unfit size) l -> Q None s) ->
  (forall p s', 0 < p -> kmalloc_post size s l p s' -> Q (Some p) s') ->
  wp (loop (fun block =>
        if block =? 0 then ret (Done None)
        else
          let* used := load_used block in
          let* fits := (if negb used then let* bsize := load_size block in ret (size <=? bsize)
                        else ret false) in
          if (fits : bool) then
            store_used block true ;;
            split_block block size ;;
            ret (Done (Some (u64 (block + sizeof_heap_block))))
          else
            let* next := load_next block in
            ret (Next next)) (first_or 0 l)) Q s.
Proof.
  intros H Hs H8 Hlen HN HS.
  apply wp_loop_n with (n := Z.of_nat (length l))
    (I := fun n p s' => s' = s /\ exists l1 l2, l = l1 ++ l2 /\ p = first_or 0 l2 /\
            n = Z.of_nat (length l2) /\ Forall (unfit size) l1);
    [|split; [done|]; exists [], l; auto|lia].
  intros n p s' (-> & l1 & l2 & -> & -> & -> & Hl1). destruct l2 as [|b l2].
  - rewrite app_nil_r in HN. cbn [first_or]. wp_steps. by apply HN.
  - cbn [first_or]. pose proof (block_ok_range _ b _ H) as Rb.
    destruct Rb as (Rb0 & Rb1 & Rb2 & Rb3 & Rb4); [apply elem_of_app; right; left|].
    rewrite (proj2 (Z.eqb_neq (baddr b) 0)) by lia.
    pose proof (hb_chain _ _ H) as Hc. apply chain_app in Hc as [_ [Hh _]].
    assert (unfit size b ->
      wp (let* next := load_next (baddr b) in ret (Next next))
        (turn Q (fun x' s' => exists n', (s' = s /\ exists k1 k2, l1 ++ b :: l2 = k1 ++ k2 /\
           x' = first_or 0 k2 /\ n' = Z.of_nat (length k2) /\ Forall (unfit size) k1) /\
           0 <= n' < Z.of_nat (length (b :: l2)))) s) as Hnext.
    { intros Hu. wp_step. heap_load Hh. wp_step.
      exists (Z.of_nat (length l2)). split; [|cbn [length]; lia]. split; [done|].
      exists (l1 ++ [b]), l2. rewrite <- app_assoc. do 3 (split; [done|]).
      apply Forall_app. auto. }
    wp_step. heap_load Hh. destruct (bused b) eqn:Eu; cbn [negb].
    { do 2 wp_step. apply Hnext. by left. }
    do 2 wp_step. heap_load Hh. wp_step.
    destruct (Z.leb_spec size (bsize b)) as [Hfit|Hnf]; [|apply Hnext; right; lia].
    apply (wp_take_block s l1 b l2 size); [done|done|lia|done|]. intros s' Hs'.
    rewrite wrap_small by (unfold bend, bdata, sizeof_heap_block in *; lia). wp_step.
    apply HS; [|done]. unfold sizeof_heap_block. lia.
Qed.

(** Sizes whose rounding and header stay below 2^63. *)
Definition size_ok (size : Z) : Prop := 0 < size < 2 ^ 62.

(** Memory is exhausted for [size] bytes. *)
Definition exhausted (size : Z) (s : mm) (l : list block) : Prop :=
  Forall (unfit (align8 size)) l /\
  kernel_heap_end s < kernel_heap_current s + align8 size + sizeof_heap_block.

Lemma kmalloc_post_le size size' s l p s' :
  size <= size' -> kmalloc_post size' s l p s' -> kmalloc_post size s l p s'.
Proof.
  intros Hle [(l1 & b & l2 & H1 & H2 & H3 & H4 & H5) ? ? ? ?]. split; try done.
  exists l1, b, l2. do 3 (split; [done|]). split; [lia|done].
Qed.

Lemma heap_blocks_length s l : heap_blocks s l -> Z.of_nat (length l) < 2 ^ 64.
Proof.
  intros H. pose proof (hb_bounds _ _ H) as (Hb1 & Hb2 & Hb3).
  assert (NoDup (baddr <$> l)) as Hnd.
  { pose proof (ok_sizes _ _ _ (hb_ok _ _ H)) as Hs. pose proof (hb_apart _ _ H) as Ha. clear H.
    induction l as [|b l IH]; simpl; constructor.
    - intros [c [Ec Hc]]%list_elem_of_fmap. destruct Ha as [Ha _].
      rewrite Forall_forall in Ha. specialize (Ha c Hc). apply Forall_cons in Hs as [Hs1 Hs2].
      rewrite Forall_forall in Hs2. specialize (Hs2 c Hc).
      unfold apart, bend, bdata, sizeof_heap_block in Ha. lia.
    - apply IH; [by apply Forall_cons in Hs as [_ ?]|by destruct Ha]. }
  assert (baddr <$> l ⊆+ seqZ 0 (kernel_heap_current s)) as Hsub.
  { apply NoDup_submseteq; [done|]. intros x [c [-> Hc]]%list_elem_of_fmap. apply elem_of_seqZ.
    pose proof (hb_ok _ _ H) as Hok. rewrite Forall_forall in Hok. destruct (Hok c Hc) as (? & ? & ? & _).
    unfold bend, bdata, sizeof_heap_block in *. lia. }
  apply submseteq_length in Hsub. rewrite length_fmap, length_seqZ in Hsub. lia.
Qed.

Lemma wp_kmalloc s l size (Q : Z -> mm -> Prop) :
  heap_blocks s l -> size_ok size ->
  (exhausted size s l -> Q 0 s) ->
  (forall p s', 0 < p -> kmalloc_post size s l p s' -> Q p s') ->
  wp (kmalloc size) Q s.
Proof.
  intros H [Hs Hs2] H0 H1. unfold kmalloc. rewrite (proj2 (Z.eqb_neq size 0)) by lia.
  destruct (align8_ge size) as [Ha8 Hd8]; [lia..|]. set (asize := align8 size) in *.
  pose proof (hb_bounds _ _ H) as (Hb1 & Hb2 & Hb3).
  do 2 wp_step. rewrite (hb_first _ _ H). wp_step.
  apply (wp_find_block s l asize); [done|lia|done|by eapply heap_blocks_length|..].
  - intros Hl. do 4 wp_step. rewrite wrap_small by (unfold sizeof_heap_block; lia).
    destruct (Z.ltb_spec (kernel_heap_end s) (kernel_heap_current s + asize + sizeof_heap_block))
      as [Hfull|Hroom].
    + wp_step. apply H0. split; [done|]. fold asize. lia.
    + apply wp_grow_heap with l; [done|lia|done|lia|done|]. intros s' Hs'.
      apply H1; [unfold sizeof_heap_block; lia|].
      eapply kmalloc_post_le; [|done]. lia.
  - intros p s' Hp Hs'. wp_step. apply H1; [done|]. eapply kmalloc_post_le; [|done]. lia.
Qed.

(** ** [kfree] *)

Definition mark_free (b : block) : block := Block (baddr b) (bsize b) false.

Lemma live_of_delete l1 b l2 :
  Forall (apart b) (l1 ++ l2) -> Forall (fun c => 0 < bsize c) (l1 ++ l2) -> 0 < bsize b ->
  bused b = true -> live_of (l1 ++ l2) = delete (bdata b) (live_of (l1 ++ b :: l2)).
Proof.
  intros Ha Hs Hb Hu. pose proof Ha as [Ha1 _]%Forall_app. pose proof Hs as [Hs1 _]%Forall_app.
  rewrite (live_of_mid l1 b l2) by done. rewrite delete_insert_id; [done|]. by apply live_of_clear.
Qed.

(** Giving back a block whose successor in the list, if it has one, is in
    use: the block becomes free and nothing else changes. *)
Lemma wp_kfree s l1 b l2 (Q : unit -> mm -> Prop) :
  heap_blocks s (l1 ++ b :: l2) -> bused b = true ->
  (forall c l3, l2 = c :: l3 -> bused c = true) ->
  (forall m', heap_blocks (with_ram m' s) (l1 ++ mark_free b :: l2) ->
     agree_out (baddr b) (bdata b) (ram s) m' -> Q tt (with_ram m' s)) ->
  wp (kfree (bdata b)) Q s.
Proof.
  intros H Hu Hnext HQ. pose proof (block_ok_range _ b _ H) as Rb.
  destruct Rb as (Rb0 & Rb1 & Rb2 & Rb3 & Rb4); [apply elem_of_app; right; left|].
  pose proof (hb_chain _ _ H) as Hc. apply chain_app in Hc as [_ [Hh Hc2]].
  pose proof (hb_ok _ _ H) as Hok. apply Forall_app in Hok as [_ Hok].
  apply Forall_cons in Hok as [(_ & _ & _ & Ba8 & Bs8) _].
  unfold kfree. rewrite (proj2 (Z.eqb_neq (bdata b) 0)) by (unfold bdata, sizeof_heap_block; lia).
  rewrite wrap_small by (unfold bend, bdata, sizeof_heap_block in *; lia).
  replace (bdata b - sizeof_heap_block) with (baddr b) by (unfold bdata; lia).
  wp_step. apply wp_store_used; [apply (proj1 (proj2 (header_mapped _ _ _ Hh)))|].
  cbv beta. set (m1 := write (baddr b + 8) [Z.b2z false] (ram s)).
  assert (agree_out (baddr b) (bdata b) (ram s) m1) as Hag.
  { apply agree_out_write; [apply agree_out_refl|lia|unfold bdata, sizeof_heap_block; simpl; lia]. }
  assert (heap_blocks (with_ram m1 s) (l1 ++ [mark_free b] ++ l2)) as H'.
  { eapply heap_replace; [exact H| | |split; [by apply header_set_used|done]|done|
      split; [constructor|done]|].
    - intros k Hk. apply Hag. unfold bend in Hk. lia.
    - intros ?? Hbk. by apply write_mapped.
    - constructor; [|constructor]. unfold mark_free, bend, bdata. cbn. split_and!; try done; lia. }
  pose proof (hb_chain _ _ H') as Hc'. apply chain_app in Hc' as [_ [Hh' Hc2']].
  wp_step. heap_load Hh'. cbn [ram with_ram].
  destruct l2 as [|c l2].
  - cbn [first_or app]. do 3 wp_step. by apply HQ.
  - cbn [first_or app] in *. pose proof (block_ok_range _ c _ H) as Rc.
    destruct Rc as (Rc0 & _); [apply elem_of_app; right; right; left|].
    rewrite (proj2 (Z.eqb_neq (baddr c) 0)) by lia. cbn [negb]. do 2 wp_step.
    destruct Hc2' as [Hhc _]. heap_load Hhc.
    rewrite (Hnext c l2) by done. cbn [negb]. do 2 wp_step. by apply HQ.
Qed.

(** A free successor in the list is merged into the block that is freed,
    whether or not it lies behind it. *)
Lemma wp_kfree_merge s l1 b c l2 (Q : unit -> mm -> Prop) :
  heap_blocks s (l1 ++ b :: c :: l2) -> bused b = true -> bused c = false ->
  (forall m', chain m' (Block (baddr b) (bsize b + bsize c + sizeof_heap_block) false :: l2) 0 ->
     agree_out (baddr b) (bdata b) (ram s) m' -> 
     (forall a k, mapped (ram s) a k -> mapped m' a k) -> Q tt (with_ram m' s)) ->
  wp (kfree (bdata b)) Q s.
Proof.
  intros H Hu Hcu HQ. pose proof (block_ok_range _ b _ H) as Rb.
  destruct Rb as (Rb0 & Rb1 & Rb2 & Rb3 & Rb4); [apply elem_of_app; right; left|].
  pose proof (block_ok_range _ c _ H) as Rc.
  destruct Rc as (Rc0 & Rc1 & Rc2 & Rc3 & Rc4); [apply elem_of_app; right; right; left|].
  pose proof (hb_apart _ _ H) as Hap. apply all_apart_app in Hap as (_ & (Hap & Hap') & _).
  apply Forall_cons in Hap as [Hbc Hb2].
  pose proof (hb_chain _ _ H) as Hc. apply chain_app in Hc as [_ [Hh [Hhc Hc2]]].
  pose proof (ok_sizes _ _ _ (hb_ok _ _ H)) as Hsizes. apply Forall_app in Hsizes as [_ Hsizes].
  apply Forall_cons in Hsizes as [_ [_ Hsizes]%Forall_cons].
  cbn [first_or] in Hh.
  unfold kfree. rewrite (proj2 (Z.eqb_neq (bdata b) 0)) by (unfold bdata, sizeof_heap_block; lia).
  rewrite wrap_small by (unfold bend, bdata, sizeof_heap_block in *; lia).
  replace (bdata b - sizeof_heap_block) with (baddr b) by (unfold bdata; lia).
  wp_step. apply wp_store_used; [apply (proj1 (proj2 (header_mapped _ _ _ Hh)))|].
  cbv beta. set (m1 := write (baddr b + 8) [Z.b2z false] (ram s)).
  unfold apart, bend, bdata, sizeof_heap_block in *.
  apply (header_set_used _ _ _ false) in Hh. fold m1 in Hh.
  assert (forall a v m, header m c (first_or 0 l2) -> baddr b <= a -> a + Z.of_nat (length v) <= baddr b + 24 ->
            header (write a v m) c (first_or 0 l2)) as Hout.
  { intros a v m Hm ??. apply header_out; [done|]. unfold bdata, sizeof_heap_block. lia. }
  assert (header m1 c (first_or 0 l2)) as Hc1 by (apply Hout; [done|lia|simpl; lia]).
  wp_step. heap_load Hh.
  rewrite (proj2 (Z.eqb_neq (baddr c) 0)) by lia. cbn [negb]. do 2 wp_step.
  heap_load Hc1. rewrite Hcu. cbn [negb]. do 2 wp_step.
  heap_load Hh. wp_step.
  heap_load Hc1. wp_step.
  cbn [bsize]. rewrite wrap_small by lia.
  apply wp_store_size; [apply (header_mapped _ _ _ Hh)|]. rewrite with_ram_ram, with_ram_twice.
  set (v := bsize b + (bsize c + 24)). set (m2 := write (baddr b) (le_bytes 8 v) m1).
  apply (header_set_size _ _ _ v) in Hh; [|lia]. cbn [baddr bused] in Hh. fold m2 in Hh.
  assert (header m2 c (first_or 0 l2)) as Hc2' by (apply Hout; [done|lia|rewrite le_bytes_length; lia]).
  wp_step. heap_load Hc2'. cbv beta.
  apply wp_store_next; [apply (header_mapped _ _ _ Hh)|]. rewrite with_ram_ram, with_ram_twice.
  assert (0 <= first_or 0 l2 < 2 ^ 64) as Hnx by apply Hc2'.
  apply (header_set_next _ _ _ (first_or 0 l2)) in Hh; [|done]. cbn [baddr] in Hh.
  set (m3 := write (baddr b + 16) _ m2) in *.
  assert (agree_out (baddr b) (baddr b + 24) (ram s) m3) as Hag.
  { repeat (apply agree_out_write; [|rewrite ?le_bytes_length; simpl; lia..]). apply agree_out_refl. }
  apply HQ; [|done|].
  - cbn [chain]. split; [by replace (bsize b + bsize c + 24) with v by (unfold v; lia)|].
    eapply chain_agree; [exact Hag| |exact Hsizes|done].
    apply Forall_forall. intros d Hd. rewrite Forall_forall in Hb2, Hsizes. specialize (Hb2 d Hd).
    specialize (Hsizes d Hd). unfold clear_of, bend, bdata, sizeof_heap_block in *. lia.
  - intros a k Hm. by repeat apply write_mapped.
Qed.

(** Writing inside the payload of a block keeps the heap well formed. *)
Lemma heap_payload s l b m' :
  heap_blocks s l -> b ∈ l -> agree_out (bdata b) (bend b) (ram s) m' ->
  (forall a k, mapped (ram s) a k -> mapped m' a k) -> heap_blocks (with_ram m' s) l.
Proof.
  intros H Hb Hag Hmap. pose proof (ok_sizes _ _ _ (hb_ok _ _ H)) as Hs.
  apply list_elem_of_split in Hb as (l1 & l2 & ->).
  pose proof (apart_mid _ _ _ (hb_apart _ _ H)) as (A1 & A2 & _).
  destruct H as [Hf Hc Ha Hok Hbd Hal Hm]. constructor; try done; [|by apply Hmap].
  apply Forall_app in Hs as [Hs1 [Hsb Hs2]%Forall_cons].
  apply chain_app in Hc as [Hc1 [Hh Hc2]]. cbn [ram with_ram]. apply chain_app.
  assert (forall l q, Forall (apart b) l -> Forall (fun c => 0 < bsize c) l ->
            chain (ram s) l q -> chain m' l q) as Hother.
  { intros l q Hap Hsz. eapply chain_agree; [exact Hag| |done].
    eapply Forall_impl; [exact Hap|]. unfold apart, clear_of, bend, bdata, sizeof_heap_block.
    intros c. lia. }
  split; [by apply Hother|]. split; [|by apply Hother].
  eapply header_frame; [exact Hh|]. intros k Hk. apply Hag. lia.
Qed.

(** An empty heap with room grows. *)
Lemma wp_kmalloc_empty s size (Q : Z -> mm -> Prop) :
  heap_blocks s [] -> size_ok size ->
  kernel_heap_current s + align8 size + sizeof_heap_block <= kernel_heap_end s ->
  (forall s', kmalloc_post size s [] (kernel_heap_current s + sizeof_heap_block) s' ->
     Q (kernel_heap_current s + sizeof_heap_block) s') ->
  wp (kmalloc size) Q s.
Proof.
  intros H [Hs Hs2] Hroom HQ. unfold kmalloc. rewrite (proj2 (Z.eqb_neq size 0)) by lia.
  destruct (align8_ge size) as [Ha8 Hd8]; [lia..|]. set (asize := align8 size) in *.
  pose proof (hb_bounds _ _ H) as (Hb1 & Hb2 & Hb3).
  do 2 wp_step. rewrite (hb_first _ _ H). wp_step.
  apply wp_loop_n with (n := 0) (I := fun n p s' => n = 0 /\ p = 0 /\ s' = s); [|done|lia].
  intros n p s' (-> & -> & ->). wp_steps. cbn [turn]. do 4 wp_step.
  unfold sizeof_heap_block in *. rewrite wrap_small by lia. rewrite (proj2 (Z.ltb_ge _ _)) by lia.
  apply wp_grow_heap with []; [done|lia|done|lia|unfold sizeof_heap_block; lia|]. intros s' Hs'.
  apply HQ. eapply kmalloc_post_le; [|done]. lia.
Qed.

(** ** The allocator interface

    The heap keeps the promise of [kmalloc]; the promise of [kfree] it breaks
    ([kfree_merge_overruns] below), so there is no [KFreeLaws] instance. *)

Definition heap_owned (s : mm) (L : gset Z) : Prop :=
  exists l, heap_blocks s l /\ forall p, p ∈ L -> is_Some (live_of l !! p).

#[export] Instance heap_alloc : KAlloc mm := {| kmalloc_op := kmalloc; kfree_op := kfree |}.

#[export] Instance heap_alloc_laws : KAllocLaws mm.
Proof.
  refine {| owned := heap_owned |}. intros s L n (l & Hl & HL) Hn.
  apply wp_kmalloc with l; [done|unfold size_ok; lia| |].
  - intros _. left. split; [done|]. by exists l.
  - intros p s' Hp [(l1 & b & l2 & Hb & _ & Ep & _ & Elv & Hnew) _ _ _ _]. right.
    split; [done|]. split; [intros Hin; destruct (HL p Hin); congruence|].
    exists (l1 ++ b :: l2). split; [done|]. intros q Hq. rewrite Elv.
    rewrite elem_of_union, elem_of_singleton in Hq. destruct Hq as [->|Hq].
    + rewrite lookup_insert_eq. by eexists.
    + destruct (decide (q = p)) as [->|Hne]; [rewrite lookup_insert_eq; by eexists|].
      rewrite lookup_insert_ne by congruence. by apply HL.
Defined.

(** ** Properties *)

(** C3: [kmalloc] on a well-formed heap either finds it exhausted and
    changes nothing, or returns a block of at least the size asked for that
    was not in use: the heap stays well formed (so the block lies inside the
    heap, eight-byte aligned, clear of every other block), the table of
    allocations gains exactly this one, the contents of the blocks in use and
    the memory outside the heap are untouched. *)
Theorem kmalloc_correct s l size :
  heap_blocks s l -> size_ok size ->
  exists p s', kmalloc size s = Ok (p, s') /\
    (p = 0 /\ s' = s /\ exhausted size s l \/ 0 < p /\ kmalloc_post size s l p s').
Proof.
  intros H Hs. apply (proj1 (wp_run (kmalloc size)
    (fun p s' => p = 0 /\ s' = s /\ exhausted size s l \/ 0 < p /\ kmalloc_post size s l p s') s)).
  apply wp_kmalloc with l; auto.
Qed.

(** [kfree] of a block whose successor in the block list is in use
    (or which is the last) frees exactly that block: the heap stays well
    formed, the table of allocations loses this one, and memory changes only
    inside the block's header. *)
Theorem kfree_correct s l1 b l2 :
  heap_blocks s (l1 ++ b :: l2) -> bused b = true ->
  (forall c l3, l2 = c :: l3 -> bused c = true) ->
  exists m', kfree (bdata b) s = Ok (tt, with_ram m' s) /\
    heap_blocks (with_ram m' s) (l1 ++ mark_free b :: l2) /\
    live_of (l1 ++ mark_free b :: l2) = delete (bdata b) (live_of (l1 ++ b :: l2)) /\
    agree_out (baddr b) (bdata b) (ram s) m'.
Proof.
  intros H Hu Hn.
  pose proof (apart_mid _ _ _ (hb_apart _ _ H)) as (A1 & A2 & _).
  pose proof (ok_sizes _ _ _ (hb_ok _ _ H)) as Hs. apply Forall_app in Hs as [Hs1 Hs2].
  apply Forall_cons in Hs2 as [Hsb Hs2].
  assert (wp (kfree (bdata b)) (fun _ s' => exists m', s' = with_ram m' s /\
    heap_blocks (with_ram m' s) (l1 ++ mark_free b :: l2) /\
    live_of (l1 ++ mark_free b :: l2) = delete (bdata b) (live_of (l1 ++ b :: l2)) /\
    agree_out (baddr b) (bdata b) (ram s) m') s) as Hw.
  { apply wp_kfree with l1 l2; try done. intros m' H' Hag. exists m'.
    do 2 (split; [done|]). split; [|done].
    rewrite live_of_mid_free by done. apply live_of_delete; try done; by apply Forall_app. }
  apply wp_run in Hw as ([] & s' & E & m' & -> & Hw). by exists m'.
Qed.

(** Freeing the newest block when its successor in the list, the
    block just below it in memory, is free merges the two as if the successor
    lay above: the block now claims memory beyond the end of the allocated
    heap, and the next [kmalloc] of the merged size hands that memory out,
    while [kernel_heap_current] still points into it. *)
Theorem kfree_merge_overruns s b c l2 :
  heap_blocks s (b :: c :: l2) -> bused b = true -> bused c = false ->
  bend b = kernel_heap_current s -> (8 | bsize b + bsize c + sizeof_heap_block) ->
  exists s' s'', kfree (bdata b) s = Ok (tt, s') /\
    kmalloc (bsize b + bsize c + sizeof_heap_block) s' = Ok (bdata b, s'') /\
    kernel_heap_current s'' = bdata b + bsize b.
Proof.
  intros H Hu Hcu Hend H8.
  assert (wp (kfree (bdata b)) (fun _ s' => wp (kmalloc (bsize b + bsize c + sizeof_heap_block))
    (fun p s'' => p = bdata b /\ kernel_heap_current s'' = bdata b + bsize b) s') s) as Hw.
  2: { apply wp_run in Hw as ([] & s' & E1 & Hw).
       apply wp_run in Hw as (p & s'' & E2 & -> & E3). by exists s', s''. }
  pose proof (block_ok_range _ b _ H ltac:(left)) as (Rb0 & Rb1 & Rb2 & Rb3 & Rb4).
  pose proof (block_ok_range _ c _ H ltac:(right; left)) as (Rc0 & Rc1 & Rc2 & Rc3 & Rc4).
  unfold bend, bdata, sizeof_heap_block in *.
  apply (wp_kfree_merge s [] b c l2); try done. intros m' [Hh _] Hag Hmap.
  unfold kmalloc. unfold sizeof_heap_block in *. set (v := bsize b + bsize c + 24) in *.
  rewrite (proj2 (Z.eqb_neq v 0)) by lia.
  assert (align8 v = v) as ->.
  { destruct (align8_ge v) as [Hv [k Hk]]; [lia..|]. destruct H8 as [k' Hk']. lia. }
  wp_steps. cbn [heap_free_list with_ram]. rewrite (hb_first _ _ H). cbn [first_or].
  apply wp_loop_n with (n := 0) (I := fun n p s' => n = 0 /\ p = baddr b /\ s' = with_ram m' s);
    [|done|lia].
  intros n p s' (-> & -> & ->). rewrite (proj2 (Z.eqb_neq (baddr b) 0)) by lia.
  wp_step. heap_load Hh. cbn [bused negb]. wp_steps.
  heap_load Hh. cbn [bsize]. rewrite Z.leb_refl. do 2 wp_step.
  apply wp_store_used; [apply (proj1 (proj2 (header_mapped _ _ _ Hh)))|].
  apply (header_set_used _ _ _ true) in Hh. cbn [baddr bsize] in Hh. wp_step. unfold split_block.
  wp_step. heap_load Hh. cbn [bsize].
  unfold sizeof_heap_block. rewrite wrap_small by lia. rewrite (proj2 (Z.ltb_ge (v + 24) v)) by lia.
  wp_steps. cbn [turn]. wp_step. rewrite wrap_small by lia. split; [done|]. cbn. lia.
Qed.

(** The rounding of the size wraps: asked for [SIZE_MAX] bytes, an
    empty heap with room for one header answers with a block of no bytes. *)
Theorem kmalloc_size_wraps s :
  heap_blocks s [] -> kernel_heap_current s + sizeof_heap_block <= kernel_heap_end s ->
  exists s', kmalloc SIZE_MAX s = Ok (kernel_heap_current s + sizeof_heap_block, s') /\
    kernel_heap_current s' = kernel_heap_current s + sizeof_heap_block /\
    header (ram s') (Block (kernel_heap_current s) 0 true) 0.
Proof.
  intros H Hroom. pose proof (hb_bounds _ _ H) as (Hb1 & Hb2 & Hb3).
  assert (wp (kmalloc SIZE_MAX) (fun p s' => p = kernel_heap_current s + sizeof_heap_block /\
    kernel_heap_current s' = kernel_heap_current s + sizeof_heap_block /\
    header (ram s') (Block (kernel_heap_current s) 0 true) 0) s) as Hw.
  2: { apply wp_run in Hw as (p & s' & E & -> & Hw). by exists s'. }
  unfold kmalloc. change (SIZE_MAX =? 0) with false. cbv iota. change (align8 SIZE_MAX) with 0.
  unfold sizeof_heap_block in *. wp_steps. rewrite (hb_first _ _ H). cbn [first_or].
  apply wp_loop_n with (n := 0) (I := fun n p s' => n = 0 /\ p = 0 /\ s' = s); [|done|lia].
  intros n p s' (-> & -> & ->). wp_steps. cbn [turn]. do 4 wp_step.
  rewrite (wrap_small 64 (_ + 0 + 24)) by lia. rewrite (proj2 (Z.ltb_ge _ _)) by lia.
  assert (mapped (ram s) (kernel_heap_current s) 24) as Hm.
  { eapply mapped_le; [apply (hb_mapped _ _ H)|lia|lia]. }
  wp_step. apply wp_store_size; [eapply mapped_le; [exact Hm|lia..]|].
  wp_step. apply wp_store_used.
  { cbn [ram with_ram]. apply (write_mapped (kernel_heap_current s) _ _ (kernel_heap_current s) 24); [done|lia]. }
  wp_steps. apply wp_store_next.
  { cbn [ram with_ram]. apply write_mapped, write_mapped. eapply mapped_le; [exact Hm|lia..]. }
  wp_steps. rewrite !wrap_small by lia. split; [done|]. split; [cbn; lia|]. cbn.
  rewrite (hb_first _ _ H). apply header_new; lia.
Qed.

(** ** Witnesses *)

(** A heap of 256 bytes at 4096, with one block of 16 bytes in use above a
    free one of 8. *)
Definition demo_zero : mem := write 4096 (replicate 256 0) ∅.
Definition demo_low : mem :=
  write (4096 + 16) (le_bytes 8 0)
    (write (4096 + 8) [Z.b2z false] (write 4096 (le_bytes 8 8) demo_zero)).
Definition demo_high : mem :=
  write (4128 + 16) (le_bytes 8 4096)
    (write (4128 + 8) [Z.b2z true] (write 4128 (le_bytes 8 16) demo_low)).
Definition demo (m : mem) (current free : Z) : mm :=
  Mm m 0 0 0 0 0 4096 4352 current free 0 0 [].

Lemma demo_empty : heap_blocks (demo demo_zero 4096 0) [].
Proof.
  constructor; cbn; [done|done|done|constructor|lia|by exists 512|].
  exact (zeros_mapped 4096 256 ∅).
Qed.

Lemma demo_chain : chain demo_high [Block 4128 16 true; Block 4096 8 false] 0.
Proof.
  split; [apply (header_new demo_low 4128 16 true 4096); lia|]. split; [|done]. unfold demo_high.
  do 3 (apply header_out; [|unfold bdata, sizeof_heap_block; simpl; lia]).
  apply (header_new demo_zero 4096 8 false 0); lia.
Qed.

Lemma demo_mapped : mapped demo_high 4096 256.
Proof. unfold demo_high, demo_low. do 6 apply write_mapped. exact (zeros_mapped 4096 256 ∅). Qed.

Lemma demo_two :
  heap_blocks (demo demo_high 4168 4128) [Block 4128 16 true; Block 4096 8 false].
Proof.
  constructor; [done|exact demo_chain| | | |by exists 521|exact demo_mapped].
  - split; [|split; [constructor|done]]. constructor; [|constructor].
    right. unfold bend, bdata, sizeof_heap_block. simpl. lia.
  - constructor; [|constructor; [|constructor]]; unfold block_ok, bend, bdata, sizeof_heap_block;
      cbn; (split_and!; [lia..| |]); [by exists 516|by exists 2|by exists 512|by exists 1].
  - cbn. lia.
Qed.

Lemma kmalloc_correct_witness :
  exists p s', kmalloc 10 (demo demo_zero 4096 0) = Ok (p, s') /\
    (p = 0 /\ s' = demo demo_zero 4096 0 /\ exhausted 10 (demo demo_zero 4096 0) [] \/
     0 < p /\ kmalloc_post 10 (demo demo_zero 4096 0) [] p s').
Proof. apply (kmalloc_correct _ [] 10); [exact demo_empty|unfold size_ok; lia]. Defined.

Lemma kfree_merge_overruns_witness :
  exists s' s'', kfree 4152 (demo demo_high 4168 4128) = Ok (tt, s') /\
    kmalloc 48 s' = Ok (4152, s'') /\ kernel_heap_current s'' = 4168.
Proof.
  apply (kfree_merge_overruns _ (Block 4128 16 true) (Block 4096 8 false) []);
    [exact demo_two|reflexivity|reflexivity|reflexivity|by exists 6].
Defined.

Lemma kmalloc_size_wraps_witness :
  exists s', kmalloc SIZE_MAX (demo demo_zero 4096 0) = Ok (4120, s') /\
    kernel_heap_current s' = 4120 /\ header (ram s') (Block 4096 0 true) 0.
Proof. apply kmalloc_size_wraps; [exact demo_empty|done]. Defined.

Definition demo_one : mem :=
  write (4096 + 16) (le_bytes 8 0)
    (write (4096 + 8) [Z.b2z true] (write 4096 (le_bytes 8 8) demo_zero)).

Lemma demo_single : heap_blocks (demo demo_one 4128 4096) [Block 4096 8 true].
Proof.
  constructor; [done| | | | |by exists 516|].
  - split; [apply (header_new demo_zero 4096 8 true 0); lia|done].
  - split; [constructor|done].
  - constructor; [|constructor]. unfold block_ok, bend, bdata, sizeof_heap_block.
    cbn. split_and!; [lia..| |]; [by exists 512|by exists 1].
  - cbn. lia.
  - change (mapped demo_one 4096 256). unfold demo_one. do 3 apply write_mapped.
    exact (zeros_mapped 4096 256 ∅).
Qed.

Lemma kfree_correct_witness :
  exists m', kfree 4120 (demo demo_one 4128 4096) = Ok (tt, with_ram m' (demo demo_one 4128 4096)) /\
    heap_blocks (with_ram m' (demo demo_one 4128 4096)) [Block 4096 8 false] /\
    live_of [Block 4096 8 false] = delete 4120 (live_of [Block 4096 8 true]) /\
    agree_out 4096 4120 demo_one m'.
Proof.
  apply (kfree_correct (demo demo_one 4128 4096) [] (Block 4096 8 true) []);
    [exact demo_single|reflexivity|by intros c l3 [=]].
Defined.
