(* ===== verification/PhysMem.v ===== *)
(** * Physical page allocator (kernel/mm.c, lines 20-86 and 439-441)

    A bitmap with one bit per page frame, kept in kernel memory: bit [i] of
    byte [i / 8] is set when frame [i] is in use. *)

From S2P Require Import Prelude CMem MemFns CStr KHeap.

(** ** Definitions *)

Definition PAGE_SIZE : Z := 4096.
Definition PAGE_ALIGN (addr : Z) : Z := Z.land (u64 (addr + PAGE_SIZE - 1)) (u64 (Z.lnot (PAGE_SIZE - 1))).

Definition with_region (base total size : Z) (s : mm) : mm :=
  Mm (ram s) (memory_bitmap s) size total (memory_used_pages s)
     base (kernel_heap_start s) (kernel_heap_end s) (kernel_heap_current s)
     (heap_free_list s) (kernel_pml4 s) (cr3 s) (invlpg s).
Definition with_bitmap (p : Z) (s : mm) : mm :=
  Mm (ram s) p (memory_bitmap_size s) (memory_total_pages s) (memory_used_pages s)
     (memory_base s) (kernel_heap_start s) (kernel_heap_end s) (kernel_heap_current s)
     (heap_free_list s) (kernel_pml4 s) (cr3 s) (invlpg s).
Definition with_used (v : Z) (s : mm) : mm :=
  Mm (ram s) (memory_bitmap s) (memory_bitmap_size s) (memory_total_pages s) v
     (memory_base s) (kernel_heap_start s) (kernel_heap_end s) (kernel_heap_current s)
     (heap_free_list s) (kernel_pml4 s) (cr3 s) (invlpg s).

(** [panic] stops the kernel: nothing after it runs. *)
Definition panic {A} : prog mm A := fault.

Definition bitmap_set_bit (bit : Z) : prog mm unit :=
  let* bm := gets memory_bitmap in
  let* b := on_ram (load8 (bm + bit / 8)) in
  on_ram (store8 (bm + bit / 8) (Z.lor b (Z.shiftl 1 (bit mod 8)))).

Definition bitmap_clear_bit (bit : Z) : prog mm unit :=
  let* bm := gets memory_bitmap in
  let* b := on_ram (load8 (bm + bit / 8)) in
  on_ram (store8 (bm + bit / 8) (Z.land b (Z.lnot (Z.shiftl 1 (bit mod 8))))).

Definition bitmap_test_bit (bit : Z) : prog mm bool :=
  let* bm := gets memory_bitmap in
  let* b := on_ram (load8 (bm + bit / 8)) in
  ret (negb (Z.land b (Z.shiftl 1 (bit mod 8)) =? 0)).

Definition bitmap_find_free_page : prog mm Z :=
  let* total := gets memory_total_pages in
  loop (fun i =>
    if i <? total then
      let* used := bitmap_test_bit i in
      if negb used then ret (Done i) else ret (Next (i + 1))
    else ret (Done (u64 (-1)))) 0.

Definition pm_init_region (start size : Z) : prog mm unit :=
  let total := size / PAGE_SIZE in
  let bitmap_size := u64 (total + 7) / 8 in
  modify (with_region start total bitmap_size) ;;
  let* p := kmalloc bitmap_size in
  modify (with_bitmap p) ;;
  (if p =? 0 then panic else ret tt) ;;
  on_ram (memset p 0 bitmap_size) ;;
  let* kernel_end := gets kernel_heap_end in
  let kernel_pages := PAGE_ALIGN kernel_end / PAGE_SIZE in
  loop (fun i =>
    if (i <? kernel_pages) && (i <? total) then
      bitmap_set_bit i ;;
      let* used := gets memory_used_pages in
      modify (with_used (u64 (used + 1))) ;;
      ret (Next (i + 1))
    else ret (Done tt)) 0.

Definition pm_alloc_page : prog mm Z :=
  let* page_index := bitmap_find_free_page in
  if page_index =? u64 (-1) then ret 0
  else
    bitmap_set_bit page_index ;;
    let* used := gets memory_used_pages in
    modify (with_used (u64 (used + 1))) ;;
    let* base := gets memory_base in
    ret (u64 (base + page_index * PAGE_SIZE)).

Definition pm_free_page (phys_addr : Z) : prog mm unit :=
  let* base := gets memory_base in
  let page_index := u64 (phys_addr - base) / PAGE_SIZE in
  let* total := gets memory_total_pages in
  let* used := (if page_index <? total then bitmap_test_bit page_index else ret false) in
  if (used : bool) then
    bitmap_clear_bit page_index ;;
    let* n := gets memory_used_pages in
    modify (with_used (u64 (n - 1)))
  else ret tt.

Definition mm_get_available_memory : prog mm Z :=
  let* total := gets memory_total_pages in
  let* used := gets memory_used_pages in
  ret (u64 (u64 (total - used) * PAGE_SIZE)).

(** ** Specification *)

(** The bit of frame [i] in the bytes [l]. *)
Definition frame_used (l : list Z) (i : Z) : bool :=
  Z.testbit (l !!! Z.to_nat (i / 8)) (i mod 8).

Definition frames_used (l : list Z) (total : Z) : Z :=
  Z.of_nat (length (filter (fun i => frame_used l i = true) (seqZ 0 total))).

(** The bitmap of [s] holds the bytes [l], and the counter agrees with it. *)
Record frames (s : mm) (l : list Z) : Prop := {
  fr_bytes : bytes_at (ram s) (memory_bitmap s) l;
  fr_byte : Forall byte l;
  fr_length : Z.of_nat (length l) = (memory_total_pages s + 7) / 8;
  fr_used : memory_used_pages s = frames_used l (memory_total_pages s);
  fr_total : 0 <= memory_total_pages s;
  fr_base : 0 < memory_base s /\
            memory_base s + memory_total_pages s * PAGE_SIZE < 2 ^ 64;
}.

(** The bytes with the bit of frame [i] set to [v]. *)
Definition set_frame (l : list Z) (i : Z) (v : bool) : list Z :=
  let b := l !!! Z.to_nat (i / 8) in
  <[Z.to_nat (i / 8) :=
      if v then Z.lor b (Z.shiftl 1 (i mod 8)) else Z.land b (Z.lnot (Z.shiftl 1 (i mod 8)))]> l.

(** ** Bits *)

Lemma testbit_one k i : 0 <= k -> 0 <= i -> Z.testbit (Z.shiftl 1 k) i = (i =? k).
Proof.
  intros Hk Hi. rewrite Z.shiftl_1_l. rewrite Z.pow2_bits_eqb by done. apply Z.eqb_sym.
Qed.

Lemma land_one b k : 0 <= k -> negb (Z.land b (Z.shiftl 1 k) =? 0) = Z.testbit b k.
Proof.
  intros Hk. destruct (Z.testbit b k) eqn:E.
  - apply negb_true_iff, Z.eqb_neq. intros H0.
    assert (Z.testbit (Z.land b (Z.shiftl 1 k)) k = true) as Hb.
    { by rewrite Z.land_spec, E, testbit_one, Z.eqb_refl by done. }
    by rewrite H0, Z.bits_0 in Hb.
  - apply negb_false_iff, Z.eqb_eq, Z.bits_inj'. intros i Hi.
    rewrite Z.land_spec, testbit_one, Z.bits_0 by done.
    destruct (Z.eqb_spec i k) as [->|]; [by rewrite E|apply andb_false_r].
Qed.

Lemma byte_lor b k : byte b -> 0 <= k < 8 -> byte (Z.lor b (Z.shiftl 1 k)).
Proof.
  unfold byte. intros Hb Hk. assert (0 <= Z.shiftl 1 k) by (apply Z.shiftl_nonneg; lia).
  split; [apply Z.lor_nonneg; lia|].
  destruct (Z.eq_dec (Z.lor b (Z.shiftl 1 k)) 0) as [->|]; [lia|].
  change 256 with (2 ^ 8). apply Z.log2_lt_pow2; [assert (0 <= Z.lor b (Z.shiftl 1 k)) by (apply Z.lor_nonneg; lia); lia|].
  rewrite Z.log2_lor by lia. apply Z.max_lub_lt.
  - destruct (Z.eq_dec b 0) as [->|]; [done|]. apply Z.log2_lt_pow2; lia.
  - rewrite Z.shiftl_1_l, Z.log2_pow2; lia.
Qed.

Lemma byte_land_lnot b c : byte b -> byte (Z.land b (Z.lnot c)).
Proof.
  unfold byte. intros Hb.
  assert (b = Z.land b (Z.ones 8)) as -> by (rewrite Z.land_ones, Z.mod_small; lia).
  rewrite <- Z.land_assoc, (Z.land_comm (Z.ones 8)), Z.land_assoc, Z.land_ones by lia.
  apply Z.mod_pos_bound. lia.
Qed.

Section Frames.
Implicit Types (l : list Z) (i j total : Z).

Lemma frame_index i : 0 <= i -> 0 <= i / 8 /\ 0 <= i mod 8 < 8 /\ i = 8 * (i / 8) + i mod 8.
Proof.
  intros. split; [apply Z.div_pos; lia|]. split; [apply Z.mod_pos_bound; lia|].
  apply Z.div_mod. lia.
Qed.

Lemma set_frame_used l i j v :
  0 <= i -> 0 <= j -> i / 8 < Z.of_nat (length l) ->
  frame_used (set_frame l i v) j = if i =? j then v else frame_used l j.
Proof.
  intros Hi Hj Hl. destruct (frame_index i Hi) as (Hi1 & Hi2 & Hi3).
  destruct (frame_index j Hj) as (Hj1 & Hj2 & Hj3).
  unfold frame_used, set_frame.
  destruct (Z.eq_dec (i / 8) (j / 8)) as [E|E].
  - rewrite <- E. rewrite list_lookup_total_insert_eq by lia.
    set (b := l !!! Z.to_nat (i / 8)).
    assert ((i =? j) = (j mod 8 =? i mod 8)) as ->
      by (destruct (Z.eqb_spec i j), (Z.eqb_spec (j mod 8) (i mod 8)); lia).
    destruct v.
    + rewrite Z.lor_spec, testbit_one by lia. destruct (Z.eqb_spec (j mod 8) (i mod 8)) as [->|].
      * apply orb_true_r.
      * apply orb_false_r.
    + rewrite Z.land_spec, Z.lnot_spec, testbit_one by lia.
      destruct (Z.eqb_spec (j mod 8) (i mod 8)) as [->|]; [apply andb_false_r|apply andb_true_r].
  - rewrite list_lookup_total_insert_ne by lia.
    rewrite (proj2 (Z.eqb_neq i j)) by congruence. done.
Qed.

Lemma set_frame_byte l i v : 0 <= i -> Forall byte l -> Forall byte (set_frame l i v).
Proof.
  intros Hi Hl. apply Forall_insert; [done|].
  assert (byte (l !!! Z.to_nat (i / 8))) as Hb.
  { destruct (l !! Z.to_nat (i / 8)) as [b|] eqn:E.
    - rewrite (list_lookup_total_correct _ _ _ E). by eapply Forall_lookup_1.
    - rewrite list_lookup_total_alt, E. unfold byte. simpl. lia. }
  destruct v; [apply byte_lor; [done|apply Z.mod_pos_bound; lia]|by apply byte_land_lnot].
Qed.

(** Counting, when a predicate changes at exactly one element. *)
Lemma count_flip (P Q : Z -> bool) i (xs : list Z) :
  NoDup xs -> P i = false -> Q i = true -> (forall j, j ∈ xs -> j <> i -> P j = Q j) ->
  length (filter (fun j => Q j = true) xs) =
  ((if decide (i ∈ xs) then 1 else 0) + length (filter (fun j => P j = true) xs))%nat.
Proof.
  intros Hnd HP HQ Hj. induction Hnd as [|x xs Hx Hnd IH]; [done|].
  assert (forall j, j ∈ xs -> j <> i -> P j = Q j) as Hj' by (intros; apply Hj; [by right|done]).
  specialize (IH Hj'). rewrite !filter_cons. destruct (decide (x = i)) as [->|Hne].
  - rewrite HP, HQ. rewrite (decide_True (P := true = true)) by done.
    rewrite (decide_False (P := false = true)) by done.
    rewrite (decide_True (P := i ∈ i :: xs)) by (rewrite elem_of_cons; by left).
    cbn [length]. rewrite IH, decide_False by done. done.
  - rewrite <- (Hj x); [|rewrite elem_of_cons; by left|done].
    assert ((if decide (i ∈ x :: xs) then 1 else 0)%nat = (if decide (i ∈ xs) then 1 else 0)%nat) as ->.
    { destruct (decide (i ∈ xs)); [rewrite decide_True; [done|rewrite elem_of_cons; by right]|].
      rewrite decide_False; [done|]. rewrite elem_of_cons. intros [?|?]; congruence. }
    destruct (decide (P x = true)); cbn [length]; rewrite IH; lia.
Qed.

Lemma frames_used_set l total i :
  0 <= i < total -> i / 8 < Z.of_nat (length l) -> frame_used l i = false ->
  frames_used (set_frame l i true) total = frames_used l total + 1.
Proof.
  intros Hi Hl Hu. unfold frames_used.
  rewrite (count_flip (frame_used l) (frame_used (set_frame l i true)) i (seqZ 0 total)).
  - rewrite decide_True by (apply elem_of_seqZ; lia). lia.
  - apply NoDup_seqZ.
  - done.
  - rewrite set_frame_used, Z.eqb_refl by lia. done.
  - intros j Hj Hne. apply elem_of_seqZ in Hj. rewrite set_frame_used by lia.
    rewrite (proj2 (Z.eqb_neq i j)) by congruence. done.
Qed.

Lemma frames_used_clear l total i :
  0 <= i < total -> i / 8 < Z.of_nat (length l) -> frame_used l i = true ->
  frames_used (set_frame l i false) total = frames_used l total - 1.
Proof.
  intros Hi Hl Hu. unfold frames_used.
  rewrite (count_flip (frame_used (set_frame l i false)) (frame_used l) i (seqZ 0 total)).
  - rewrite decide_True by (apply elem_of_seqZ; lia). lia.
  - apply NoDup_seqZ.
  - rewrite set_frame_used, Z.eqb_refl by lia. done.
  - done.
  - intros j Hj Hne. apply elem_of_seqZ in Hj. rewrite set_frame_used by lia.
    rewrite (proj2 (Z.eqb_neq i j)) by congruence. done.
Qed.

Lemma frames_used_bound l total : 0 <= total -> 0 <= frames_used l total <= total.
Proof.
  intros. unfold frames_used. split; [lia|].
  pose proof (length_filter (fun i => frame_used l i = true) (seqZ 0 total)) as H'.
  rewrite length_seqZ in H'. lia.
Qed.

Lemma frame_byte_index s l i : frames s l -> 0 <= i < memory_total_pages s ->
  0 <= i / 8 < Z.of_nat (length l) /\ 0 <= i mod 8 < 8 /\
  l !! Z.to_nat (i / 8) = Some (l !!! Z.to_nat (i / 8)) /\
  ram s !! (memory_bitmap s + i / 8) = Some (l !!! Z.to_nat (i / 8)).
Proof.
  intros H Hi. destruct (frame_index i) as (H1 & H2 & H3); [lia|].
  assert (i / 8 < Z.of_nat (length l)) as Hlt.
  { rewrite (fr_length _ _ H). apply Z.div_lt_upper_bound; [lia|].
    pose proof (Z.div_mod (memory_total_pages s + 7) 8 ltac:(lia)).
    pose proof (Z.mod_pos_bound (memory_total_pages s + 7) 8 ltac:(lia)). lia. }
  assert (l !! Z.to_nat (i / 8) = Some (l !!! Z.to_nat (i / 8))) as E
    by (apply list_lookup_lookup_total_lt; lia).
  do 3 (split; [done|]). rewrite <- (fr_bytes _ _ H _ _ E). f_equal. lia.
Qed.

(** Writing a byte of the bitmap. *)
Lemma bytes_at_insert m a l k v :
  bytes_at m a l -> (k < length l)%nat -> bytes_at (<[a + Z.of_nat k := v]> m) a (<[k := v]> l).
Proof.
  intros H Hk i b Hi. destruct (decide (i = k)) as [->|Hne].
  - rewrite list_lookup_insert_eq in Hi by done. injection Hi as <-. apply lookup_insert_eq.
  - rewrite list_lookup_insert_ne in Hi by done. rewrite lookup_insert_ne by lia. by apply H.
Qed.
End Frames.

(** ** Operations *)

Definition flip_frame (s : mm) (l : list Z) (i : Z) (v : bool) : mm :=
  with_used (frames_used (set_frame l i v) (memory_total_pages s))
    (with_ram (<[memory_bitmap s + i / 8 := set_frame l i v !!! Z.to_nat (i / 8)]> (ram s)) s).

Lemma set_frame_at l i v : i / 8 < Z.of_nat (length l) -> 0 <= i ->
  set_frame l i v !!! Z.to_nat (i / 8) =
  let b := l !!! Z.to_nat (i / 8) in
  if v then Z.lor b (Z.shiftl 1 (i mod 8)) else Z.land b (Z.lnot (Z.shiftl 1 (i mod 8))).
Proof.
  intros Hl Hi. unfold set_frame. rewrite list_lookup_total_insert_eq; [done|].
  pose proof (frame_index i Hi). lia.
Qed.

Lemma flip_frames s l i v :
  frames s l -> 0 <= i < memory_total_pages s -> frames (flip_frame s l i v) (set_frame l i v).
Proof.
  intros H Hi. destruct (frame_byte_index s l i H Hi) as (H1 & H2 & H3 & H4).
  constructor; cbn [flip_frame with_used with_ram ram memory_bitmap memory_total_pages
                    memory_used_pages memory_base]; try done.
  - replace (i / 8) with (Z.of_nat (Z.to_nat (i / 8))) at 1 by lia.
    unfold set_frame at 2. rewrite set_frame_at by lia. apply bytes_at_insert; [apply H|lia].
  - apply set_frame_byte; [lia|apply H].
  - unfold set_frame. rewrite length_insert. apply H.
  - apply H.
  - apply H.
Qed.

Lemma wp_bitmap_test_bit s l i (Q : bool -> mm -> Prop) :
  frames s l -> 0 <= i < memory_total_pages s -> Q (frame_used l i) s ->
  wp (bitmap_test_bit i) Q s.
Proof.
  intros H Hi HQ. destruct (frame_byte_index s l i H Hi) as (H1 & H2 & H3 & H4).
  unfold bitmap_test_bit. wp_steps. apply wp_on_ram. eapply wp_load8; [exact H4|].
  rewrite with_ram_id. wp_step. by rewrite land_one by lia.
Qed.

(** Setting or clearing a bit, then adjusting the counter. *)
Lemma wp_bitmap_put_bit {A} s l i v (k : prog mm A) (Q : A -> mm -> Prop) :
  frames s l -> 0 <= i < memory_total_pages s ->
  wp k Q (with_ram (<[memory_bitmap s + i / 8 := set_frame l i v !!! Z.to_nat (i / 8)]> (ram s)) s) ->
  wp ((if v then bitmap_set_bit i else bitmap_clear_bit i) ;; k) Q s.
Proof.
  intros H Hi HQ. destruct (frame_byte_index s l i H Hi) as (H1 & H2 & H3 & H4).
  assert (byte (set_frame l i v !!! Z.to_nat (i / 8))) as Hb.
  { pose proof (set_frame_byte l i v ltac:(lia) (fr_byte _ _ H)) as Hb.
    apply (Forall_lookup_1 _ _ (Z.to_nat (i / 8)) _ Hb). apply list_lookup_lookup_total_lt.
    unfold set_frame. rewrite length_insert. lia. }
  rewrite set_frame_at in HQ, Hb by lia.
  destruct v; unfold bitmap_set_bit, bitmap_clear_bit; wp_steps; apply wp_on_ram;
    (eapply wp_load8; [exact H4|]); rewrite with_ram_id; apply wp_on_ram;
    (apply wp_store8; [by eexists|]); rewrite wrap_small by exact Hb; exact HQ.
Qed.

Lemma wp_find_free s l (Q : Z -> mm -> Prop) :
  frames s l ->
  ((forall i, 0 <= i < memory_total_pages s -> frame_used l i = true) -> Q (u64 (-1)) s) ->
  (forall i, 0 <= i < memory_total_pages s -> frame_used l i = false ->
     (forall j, 0 <= j < i -> frame_used l j = true) -> Q i s) ->
  wp bitmap_find_free_page Q s.
Proof.
  intros H HN HS. unfold bitmap_find_free_page. wp_steps.
  pose proof (fr_total _ _ H). pose proof (fr_base _ _ H) as [_ Hb]. unfold PAGE_SIZE in Hb.
  apply wp_loop with (m := fun i _ => memory_total_pages s - i)
    (I := fun i s' => s' = s /\ 0 <= i <= memory_total_pages s /\
            forall j, 0 <= j < i -> frame_used l j = true); [|split; [done|]; split; [lia|]; lia|].
  - intros i s' (-> & Hi & Hj). destruct (Z.ltb_spec i (memory_total_pages s)) as [Hlt|Hge].
    + wp_step. apply wp_bitmap_test_bit with l; [done|lia|]. cbv beta.
      destruct (frame_used l i) eqn:E; cbn [negb]; wp_step.
      * split; [|lia]. split; [done|]. split; [lia|]. intros j Hj'.
        destruct (decide (j = i)) as [->|]; [done|]. apply Hj. lia.
      * apply HS; [lia|done|done].
    + wp_step. apply HN. intros j Hj'. apply Hj. lia.
  - pose proof (fr_base _ _ H). lia.
Qed.

Lemma wp_pm_alloc_page s l (Q : Z -> mm -> Prop) :
  frames s l ->
  ((forall i, 0 <= i < memory_total_pages s -> frame_used l i = true) -> Q 0 s) ->
  (forall i, 0 <= i < memory_total_pages s -> frame_used l i = false ->
     (forall j, 0 <= j < i -> frame_used l j = true) ->
     Q (memory_base s + i * PAGE_SIZE) (flip_frame s l i true)) ->
  wp pm_alloc_page Q s.
Proof.
  intros H HN HS. unfold pm_alloc_page. wp_step.
  pose proof (fr_base _ _ H) as [Hb1 Hb2]. unfold PAGE_SIZE in *.
  apply wp_find_free with l; [done| |].
  - intros Hall. rewrite Z.eqb_refl. wp_step. auto.
  - intros i Hi Hu Hj. rewrite (proj2 (Z.eqb_neq i (u64 (-1)))).
    2: { change (u64 (-1)) with (2 ^ 64 - 1). lia. }
    apply (wp_bitmap_put_bit s l i true); [done..|]. wp_steps.
    destruct (frame_byte_index s l i H Hi) as (H1 & _).
    pose proof (frames_used_bound l (memory_total_pages s) (fr_total _ _ H)).
    cbn [memory_used_pages with_ram with_used memory_base].
    rewrite (wrap_small 64 (memory_base s + _)) by lia.
    rewrite (fr_used _ _ H), (wrap_small 64 (frames_used _ _ + 1)) by lia.
    specialize (HS i Hi Hu Hj). unfold flip_frame in HS.
    by rewrite frames_used_set in HS by (done || lia).
Qed.

Lemma wp_pm_free_page s l i off (Q : unit -> mm -> Prop) :
  frames s l -> 0 <= i < memory_total_pages s -> 0 <= off < PAGE_SIZE ->
  (frame_used l i = true -> Q tt (flip_frame s l i false)) ->
  (frame_used l i = false -> Q tt s) ->
  wp (pm_free_page (memory_base s + i * PAGE_SIZE + off)) Q s.
Proof.
  intros H Hi Hoff HT HF. unfold pm_free_page. unfold PAGE_SIZE in *.
  pose proof (fr_base _ _ H) as [Hb1 Hb2]. unfold PAGE_SIZE in *. do 4 wp_step.
  replace (memory_base s + i * 4096 + off - memory_base s) with (i * 4096 + off) by lia.
  rewrite wrap_small by lia. rewrite Z.div_add_l, Z.div_small, Z.add_0_r by lia.
  rewrite (proj2 (Z.ltb_lt i _)) by lia. wp_step. apply wp_bitmap_test_bit with l; [done..|].
  destruct (frame_used l i) eqn:E; [|wp_step; auto].
  apply (wp_bitmap_put_bit s l i false); [done..|]. wp_steps.
  destruct (frame_byte_index s l i H Hi) as (H1 & _).
  pose proof (frames_used_bound l (memory_total_pages s) (fr_total _ _ H)) as Hub.
  pose proof (frames_used_clear l (memory_total_pages s) i Hi ltac:(lia) E) as Hcl.
  pose proof (frames_used_bound (set_frame l i false) (memory_total_pages s) (fr_total _ _ H)).
  cbn [memory_used_pages with_ram]. rewrite wrap_small by (rewrite (fr_used _ _ H); lia).
  specialize (HT eq_refl). unfold flip_frame in HT. rewrite Hcl in HT. by rewrite (fr_used _ _ H).
Qed.

(** ** Properties *)

(** C15: [pm_alloc_page] hands out the lowest free page frame: its bit was
    clear, its bit is the only one that changes, the counter of used frames
    stays the number of set bits; it returns 0 and changes nothing exactly
    when every frame is in use. *)
Theorem pm_alloc_page_correct s l :
  frames s l ->
  pm_alloc_page s = Ok (0, s) /\
    (forall i, 0 <= i < memory_total_pages s -> frame_used l i = true) \/
  exists i, 0 <= i < memory_total_pages s /\ frame_used l i = false /\
    (forall j, 0 <= j < i -> frame_used l j = true) /\
    pm_alloc_page s = Ok (memory_base s + i * PAGE_SIZE, flip_frame s l i true) /\
    frames (flip_frame s l i true) (set_frame l i true) /\
    (forall j, 0 <= j -> frame_used (set_frame l i true) j = if i =? j then true else frame_used l j).
Proof.
  intros H.
  assert (wp pm_alloc_page (fun p s' => p = 0 /\ s' = s /\
      (forall i, 0 <= i < memory_total_pages s -> frame_used l i = true) \/
    exists i, 0 <= i < memory_total_pages s /\ frame_used l i = false /\
      (forall j, 0 <= j < i -> frame_used l j = true) /\
      p = memory_base s + i * PAGE_SIZE /\ s' = flip_frame s l i true) s) as Hw.
  { apply wp_pm_alloc_page with l; [done|auto|]. intros i Hi Hu Hj. right. exists i. auto. }
  apply wp_run in Hw as (p & s' & E & [(-> & -> & Hall)|(i & Hi & Hu & Hj & -> & ->)]); [by left|].
  right. exists i. destruct (frame_byte_index s l i H Hi) as (H1 & _).
  do 3 (split; [done|]). split; [done|]. split; [by apply flip_frames|].
  intros j Hj'. apply set_frame_used; lia.
Qed.

Lemma set_frame_undo l i :
  0 <= i -> i / 8 < Z.of_nat (length l) -> frame_used l i = false ->
  set_frame (set_frame l i true) i false = l.
Proof.
  intros Hi Hl Hu. pose proof (frame_index i Hi) as (H1 & H2 & _).
  unfold set_frame at 1. rewrite set_frame_at by done. cbn zeta.
  unfold set_frame. rewrite list_insert_insert_eq.
  assert (l !! Z.to_nat (i / 8) = Some (l !!! Z.to_nat (i / 8))) as E
    by (apply list_lookup_lookup_total_lt; lia).
  unfold frame_used in Hu. set (b := l !!! Z.to_nat (i / 8)) in *.
  assert (Z.land (Z.lor b (Z.shiftl 1 (i mod 8))) (Z.lnot (Z.shiftl 1 (i mod 8))) = b) as ->.
  { apply Z.bits_inj'. intros j Hj. rewrite Z.land_spec, Z.lor_spec, Z.lnot_spec, testbit_one by lia.
    destruct (Z.eqb_spec j (i mod 8)) as [->|]; [by rewrite Hu|].
    by rewrite orb_false_r, andb_true_r. }
  by apply list_insert_id.
Qed.

(** Allocating a frame and freeing it gives back the very state, the
    bitmap bytes and the counter included. *)
Theorem pm_alloc_free s l p s' :
  frames s l -> pm_alloc_page s = Ok (p, s') -> p <> 0 -> pm_free_page p s' = Ok (tt, s).
Proof.
  intros H E Hp.
  assert (wp pm_alloc_page (fun p s' => p <> 0 -> pm_free_page p s' = Ok (tt, s)) s) as Hw.
  2: { unfold wp in Hw. rewrite E in Hw. auto. }
  apply wp_pm_alloc_page with l; [done|done|]. clear E Hp p s'. intros i Hi Hu Hj _.
  destruct (frame_byte_index s l i H Hi) as (H1 & H2 & H3 & H4).
  pose proof (flip_frames s l i true H Hi) as H'.
  apply wp_det. replace (memory_base s + i * PAGE_SIZE)
    with (memory_base (flip_frame s l i true) + i * PAGE_SIZE + 0) by (cbn; lia).
  apply wp_pm_free_page with (set_frame l i true); [done|done|unfold PAGE_SIZE; lia| |].
  - intros _. split; [done|]. unfold flip_frame. rewrite set_frame_undo by (done || lia).
    cbn [memory_total_pages with_used with_ram memory_bitmap ram].
    rewrite <- (fr_used _ _ H), insert_insert_eq, insert_id by done. by destruct s.
  - rewrite set_frame_used, Z.eqb_refl by lia. done.
Qed.

(** Loading the bitmap once it is allocated. *)
Lemma wp_pm_mark s l n :
  frames s l -> 0 <= n ->
  (forall i, 0 <= i < memory_total_pages s -> frame_used l i = false) ->
  wp (loop (fun i =>
        if (i <? n) && (i <? memory_total_pages s) then
          bitmap_set_bit i ;;
          let* used := gets memory_used_pages in
          modify (with_used (u64 (used + 1))) ;;
          ret (Next (i + 1))
        else ret (Done tt)) 0)
     (fun _ s' => exists l', frames s' l' /\
        (forall i, 0 <= i < memory_total_pages s -> frame_used l' i = (i <? n)) /\
        length l' = length l /\ memory_bitmap s' = memory_bitmap s /\
        memory_total_pages s' = memory_total_pages s /\ memory_base s' = memory_base s /\
        s' = with_used (memory_used_pages s') (with_ram (ram s') s) /\
        agree_out (memory_bitmap s) (memory_bitmap s + Z.of_nat (length l)) (ram s) (ram s') /\
        (forall a k, mapped (ram s) a k -> mapped (ram s') a k)) s.
Proof.
  intros H Hn Hfree. pose proof (fr_base _ _ H) as [Hb1 Hb2]. unfold PAGE_SIZE in Hb2.
  pose proof (fr_total _ _ H) as Ht. set (T := memory_total_pages s) in *.
  apply wp_loop with (m := fun i _ => T - i)
    (I := fun i s' => 0 <= i <= T /\ i <= Z.max 0 (Z.min n T) /\ exists l', frames s' l' /\
        (forall j, 0 <= j < T -> frame_used l' j = (j <? i)) /\
        length l' = length l /\ memory_bitmap s' = memory_bitmap s /\
        memory_total_pages s' = T /\ memory_base s' = memory_base s /\
        s' = with_used (memory_used_pages s') (with_ram (ram s') s) /\
        agree_out (memory_bitmap s) (memory_bitmap s + Z.of_nat (length l)) (ram s) (ram s') /\
        (forall a k, mapped (ram s) a k -> mapped (ram s') a k)).
  - intros i s' (Hi & Hi' & l' & H' & Hl' & Hlen & Hbm & Htot & Hbase & Hs' & Hag & Hmap).
    destruct (Z.ltb_spec i n) as [Hin|Hin]; [destruct (Z.ltb_spec i T) as [HiT|HiT]|]; cbn [andb].
    + assert (0 <= i < memory_total_pages s') as Hir by lia.
      destruct (frame_byte_index s' l' i H' Hir) as (H1 & _).
      assert (frame_used l' i = false) as Hu by (rewrite Hl' by lia; apply Z.ltb_irrefl).
      apply (wp_bitmap_put_bit s' l' i true); [done..|]. wp_steps.
      pose proof (flip_frames s' l' i true H' Hir) as H''.
      pose proof (frames_used_bound l' T Ht). pose proof (fr_used _ _ H') as Hfu.
      rewrite Htot in Hfu. cbn [memory_used_pages with_ram].
      assert (u64 (memory_used_pages s' + 1) = frames_used (set_frame l' i true) (memory_total_pages s')) as ->.
      { rewrite Htot, frames_used_set by (done || lia). rewrite Hfu. apply wrap_small. lia. }
      fold (flip_frame s' l' i true). cbn [turn]. split; [|lia]. split; [lia|]. split; [lia|].
      exists (set_frame l' i true). split; [done|]. split.
      { intros j Hj. rewrite set_frame_used by lia. rewrite Hl' by done.
        destruct (Z.eqb_spec i j), (Z.ltb_spec j i), (Z.ltb_spec j (i + 1)); lia || done. }
      split; [unfold set_frame; by rewrite length_insert|].
      cbn [flip_frame memory_bitmap memory_total_pages memory_base memory_used_pages with_used with_ram ram].
      do 3 (split; [done|]). split; [rewrite Hs'; done|]. split.
      * intros k Hk. rewrite lookup_insert_ne by lia. by apply Hag.
      * intros a k Hm. apply Hmap in Hm. by apply (write_mapped _ [_]).
    + wp_step. exists l'. split; [done|]. split; [|done]. intros j Hj. rewrite Hl' by done.
      destruct (Z.ltb_spec j i), (Z.ltb_spec j n); lia || done.
    + wp_step. exists l'. split; [done|]. split; [|done]. intros j Hj. rewrite Hl' by done.
      destruct (Z.ltb_spec j i), (Z.ltb_spec j n); lia || done.
  - split; [lia|]. split; [lia|]. exists l. split; [done|]. split.
    { intros j Hj. rewrite Hfree by done. destruct (Z.ltb_spec j 0); lia || done. }
    do 4 (split; [done|]). split; [by destruct s|]. split; [apply agree_out_refl|done].
  - lia.
Qed.

Lemma frame_used_zeros n i : 0 <= i < 8 * Z.of_nat n -> frame_used (replicate n 0) i = false.
Proof.
  intros Hi. unfold frame_used. rewrite lookup_total_replicate_2; [apply Z.testbit_0_l|].
  pose proof (Z.div_lt_upper_bound i 8 (Z.of_nat n) ltac:(lia) ltac:(lia)).
  pose proof (Z.div_pos i 8). lia.
Qed.

Lemma frames_used_zeros n total : total <= 8 * Z.of_nat n -> frames_used (replicate n 0) total = 0.
Proof.
  intros Ht. unfold frames_used.
  assert (forall xs, Forall (fun i => 0 <= i < 8 * Z.of_nat n) xs ->
            filter (fun i => frame_used (replicate n 0) i = true) xs = []) as Hf.
  { induction 1 as [|x xs Hx Hxs IH]; [done|].
    rewrite filter_cons, decide_False; [done|]. by rewrite frame_used_zeros. }
  rewrite Hf; [done|]. apply Forall_forall. intros i Hi. apply elem_of_seqZ in Hi. lia.
Qed.

Lemma heap_blocks_globals s s' l :
  heap_blocks s l -> ram s' = ram s -> heap_free_list s' = heap_free_list s ->
  kernel_heap_start s' = kernel_heap_start s -> kernel_heap_end s' = kernel_heap_end s ->
  kernel_heap_current s' = kernel_heap_current s -> heap_blocks s' l.
Proof.
  intros [] E1 E2 E3 E4 E5. constructor; by rewrite ?E1, ?E2, ?E3, ?E4, ?E5.
Qed.

(** Clearing a bitmap that lies in a block of the heap. *)
Lemma wp_clear_bitmap s l1 b l2 T N (Q : Z -> mm -> Prop) :
  heap_blocks s (l1 ++ b :: l2) -> bused b = true -> N <= bsize b -> 0 <= T <= 8 * N -> N = (T + 7) / 8 ->
  memory_bitmap s = bdata b -> memory_total_pages s = T -> memory_used_pages s = 0 ->
  0 < memory_base s -> memory_base s + T * PAGE_SIZE < 2 ^ 64 -> T < 2 ^ 64 ->
  (forall r s', frames s' (replicate (Z.to_nat N) 0) -> heap_blocks s' (l1 ++ b :: l2) ->
     s' = with_ram (ram s') s -> Q r s') ->
  wp (on_ram (memset (bdata b) 0 N)) Q s.
Proof.
  intros H Hbu HN HT EN Ebm ET EU Hb1 Hb2 HT2 HQ.
  assert (b ∈ l1 ++ b :: l2) as Hin by (apply elem_of_app; right; left).
  pose proof (block_ok_range _ b _ H Hin) as (Rb0 & Rb1 & Rb2 & Rb3 & Rb4).
  assert (mapped (ram s) (bdata b) N) as Hm.
  { eapply mapped_le; [apply (hb_mapped _ _ H)|..]; try unfold bend, bdata, sizeof_heap_block in *; lia. }
  set (m3 := write (bdata b) (replicate (Z.to_nat N) 0) (ram s)). apply wp_on_ram.
  apply wp_mono with (P := fun _ m => m = m3).
  { apply wp_run. exists (bdata b), m3. split; [|done]. apply memset_ok; [|done].
    unfold bend, bdata, sizeof_heap_block in *. lia. }
  intros r m ->. apply HQ; [| |done].
  - constructor; cbn [ram with_ram memory_bitmap memory_total_pages memory_used_pages memory_base].
    + rewrite Ebm. apply write_bytes_at.
    + apply Forall_replicate. unfold byte. lia.
    + rewrite length_replicate, ET. lia.
    + rewrite EU, ET, frames_used_zeros; [done|lia].
    + lia.
    + rewrite ET. lia.
  - apply heap_payload with b; [done|done| |intros; by apply write_mapped].
    intros k Hk. apply write_lookup_out. rewrite length_replicate. unfold bend in Hk. lia.
Qed.

(** [pm_init_region] builds the frame bitmap in a block of the kernel
    heap: afterwards the bitmap is consistent, exactly the frames below
    [PAGE_ALIGN (kernel_heap_end) / PAGE_SIZE] are marked in use, and the heap
    is still well formed.  It needs the counter at 0 and a heap with room. *)
Theorem pm_init_region_correct s blocks start size :
  heap_blocks s blocks -> memory_used_pages s = 0 ->
  size_ok ((size / PAGE_SIZE + 7) / 8) -> ~ exhausted ((size / PAGE_SIZE + 7) / 8) s blocks ->
  0 <= size -> 0 < start -> start + size < 2 ^ 64 ->
  exists s' l blocks', pm_init_region start size s = Ok (tt, s') /\ frames s' l /\
    heap_blocks s' blocks' /\ memory_base s' = start /\ memory_total_pages s' = size / PAGE_SIZE /\
    (forall i, 0 <= i < size / PAGE_SIZE ->
       frame_used l i = (i <? PAGE_ALIGN (kernel_heap_end s) / PAGE_SIZE)).
Proof.
  intros H Hu Hsz Hroom Hs0 Hst Hss. set (T := size / PAGE_SIZE) in *.
  assert (0 <= T <= size) as HT.
  { unfold T, PAGE_SIZE. split; [apply Z.div_pos; lia|]. apply Z.div_le_upper_bound; lia. }
  assert (T * PAGE_SIZE <= size) as HTs by (unfold T, PAGE_SIZE; pose proof (Z.mul_div_le size 4096); lia).
  assert (T <= 8 * ((T + 7) / 8)) as HN by
    (pose proof (Z.div_mod (T + 7) 8 ltac:(lia)); pose proof (Z.mod_pos_bound (T + 7) 8 ltac:(lia)); lia).
  set (N := (T + 7) / 8) in *. set (P := PAGE_ALIGN (kernel_heap_end s) / PAGE_SIZE) in *.
  enough (wp (pm_init_region start size) (fun _ s' => exists l blocks', frames s' l /\
    heap_blocks s' blocks' /\ memory_base s' = start /\ memory_total_pages s' = T /\
    (forall i, 0 <= i < T -> frame_used l i = (i <? P))) s) as Hw.
  { apply wp_run in Hw as ([] & s' & E & l & blocks' & Hw). by exists s', l, blocks'. }
  unfold pm_init_region. fold T. unfold size_ok in Hsz.
  rewrite (wrap_small 64 (T + 7)) by (unfold PAGE_SIZE in HTs; lia). fold N. wp_steps.
  set (s0 := with_region start T N s).
  assert (heap_blocks s0 blocks) as H0 by (by apply (heap_blocks_globals s)).
  apply wp_kmalloc with blocks; [done|done|by intros He; destruct Hroom|].
  intros p s1 Hp [(l1 & b & l2 & Hb & Hbu & -> & Hbs & _) Hkr Hko Hkm Hkg].
  wp_steps; [by apply Z.eqb_eq in E; lia|]. set (s2 := with_bitmap (bdata b) s1).
  assert (heap_blocks s2 (l1 ++ b :: l2)) as H2 by (by apply (heap_blocks_globals s1)).
  apply (wp_clear_bitmap s2 l1 b l2 T N); try (cbn; by rewrite Hkg); try done; try lia;
    [cbn; rewrite Hkg; cbn; lia..|].
  intros r s3 H3 H3h E3. wp_steps.
  assert (memory_total_pages s3 = T /\ memory_base s3 = start /\ kernel_heap_end s3 = kernel_heap_end s)
    as (ET & EB & ->) by (rewrite E3; cbn; by rewrite Hkg). fold P.
  rewrite <- ET. eapply wp_mono.
  { apply (wp_pm_mark s3 _ P H3); [|intros i Hi; apply frame_used_zeros; lia].
    unfold P, PAGE_SIZE. apply Z.div_pos; [|lia]. unfold PAGE_ALIGN. apply Z.land_nonneg.
    left. apply wrap_bound. lia. }
  intros _ s4 (l' & H4 & Hl' & Hlen & Ebm & Etot & Eb & Es4 & Hag & Hmap).
  exists l', (l1 ++ b :: l2). split; [done|]. split.
  { apply (heap_blocks_globals (with_ram (ram s4) s3)); try (rewrite Es4; done).
    apply heap_payload with b; [done|apply elem_of_app; right; left| |done].
    assert (memory_bitmap s3 = bdata b) as Ep by (by rewrite E3). rewrite Ep, length_replicate in Hag.
    intros k Hk. apply Hag. unfold bend in Hk. lia. }
  rewrite Eb, Etot, EB, ET. split; [done|]. split; [done|]. intros i Hi. apply Hl'. lia.
Qed.

(** ** Witnesses *)

(** Sixteen frames from 1 MB on, the first nine of them in use. *)
Definition demo_frames : mm :=
  Mm (write 4096 [255; 1] ∅) 4096 2 16 9 1048576 4096 4352 4096 0 0 0 [].

Lemma demo_frames_ok : frames demo_frames [255; 1].
Proof.
  constructor; try done.
  - apply (write_bytes_at 4096 [255; 1]).
  - repeat (constructor; [unfold byte; lia|]). constructor.
Qed.

Lemma pm_alloc_page_correct_witness :
  pm_alloc_page demo_frames = Ok (1048576 + 9 * 4096, flip_frame demo_frames [255; 1] 9 true).
Proof.
  destruct (pm_alloc_page_correct demo_frames [255; 1] demo_frames_ok)
    as [[_ Hall]|(i & Hi & Hu & Hj & E & _)].
  - specialize (Hall 9 ltac:(cbn; lia)). discriminate Hall.
  - assert (i = 9) as ->; [|exact E].
    assert (~ 9 < i) by (intros H9; specialize (Hj 9 ltac:(lia)); discriminate Hj).
    assert (i = 0 \/ i = 1 \/ i = 2 \/ i = 3 \/ i = 4 \/ i = 5 \/ i = 6 \/ i = 7 \/ i = 8 \/ i = 9)
      as Hc by (cbn in Hi; lia).
    repeat destruct Hc as [->|Hc]; try discriminate Hu. exact Hc.
Defined.

Lemma pm_alloc_free_witness :
  pm_free_page (1048576 + 9 * 4096) (flip_frame demo_frames [255; 1] 9 true) = Ok (tt, demo_frames).
Proof.
  apply (pm_alloc_free demo_frames [255; 1]); [exact demo_frames_ok| |done].
  vm_compute. reflexivity.
Defined.

Lemma pm_init_region_correct_witness :
  exists s' l blocks', pm_init_region 1048576 65536 (demo demo_zero 4096 0) = Ok (tt, s') /\
    frames s' l /\ heap_blocks s' blocks' /\ memory_base s' = 1048576 /\
    memory_total_pages s' = 16 /\
    (forall i, 0 <= i < 16 -> frame_used l i = (i <? 2)).
Proof.
  apply (pm_init_region_correct (demo demo_zero 4096 0) [] 1048576 65536);
    [exact demo_empty|done|done| |lia|lia|lia].
  intros [_ H]. vm_compute in H. discriminate H.
Defined.
