(* ===== verification/Paging.v ===== *)
(** * Page tables and address spaces (kernel/mm.c, lines 88-328 and 425-437)

    Four levels of 512 eight-byte entries in memory; [memory_space_t] and
    [memory_region_t] are structures in kernel memory:

      memory_space_t:  pml4 +0, regions +8, heap_start +16, heap_end +24,
                       stack_start +32, stack_end +40 (48 bytes);
      memory_region_t: start +0, end +8, flags +16 (4 bytes), name +20 (32),
                       next +56 (64 bytes). *)

From S2P Require Import Prelude CMem MemFns CStr KHeap PhysMem.

(** ** Constants *)

Definition MEM_WRITE : Z := 2.
Definition MEM_EXEC : Z := 4.
Definition PTE_PRESENT : Z := 1.
Definition PTE_WRITE : Z := 2.
Definition PTE_USER : Z := 4.
Definition PTE_GLOBAL : Z := 256.
Definition PTE_NX : Z := 9223372036854775808.
Definition sizeof_memory_region : Z := 64.
Definition sizeof_memory_space : Z := 48.

(** ** Definitions *)

Definition with_cr3 (v : Z) (s : mm) : mm :=
  Mm (ram s) (memory_bitmap s) (memory_bitmap_size s) (memory_total_pages s) (memory_used_pages s)
     (memory_base s) (kernel_heap_start s) (kernel_heap_end s) (kernel_heap_current s)
     (heap_free_list s) (kernel_pml4 s) v (invlpg s).
Definition with_invlpg (va : Z) (s : mm) : mm :=
  Mm (ram s) (memory_bitmap s) (memory_bitmap_size s) (memory_total_pages s) (memory_used_pages s)
     (memory_base s) (kernel_heap_start s) (kernel_heap_end s) (kernel_heap_current s)
     (heap_free_list s) (kernel_pml4 s) (cr3 s) (va :: invlpg s).
Definition with_heap_range (start end_ : Z) (s : mm) : mm :=
  Mm (ram s) (memory_bitmap s) (memory_bitmap_size s) (memory_total_pages s) (memory_used_pages s)
     (memory_base s) start end_ start
     (heap_free_list s) (kernel_pml4 s) (cr3 s) (invlpg s).

Definition load (a : Z) : prog mm Z := on_ram (load64 a).
Definition store (a v : Z) : prog mm unit := on_ram (store64 a v).

(** [entry & ~0xFFFULL] *)
Definition table_of (entry : Z) : Z := Z.land entry (u64 (Z.lnot 4095)).
Definition present (entry : Z) : bool := negb (Z.land entry PTE_PRESENT =? 0).

Definition pml4_index (va : Z) : Z := Z.land (Z.shiftr va 39) 511.
Definition pdpt_index (va : Z) : Z := Z.land (Z.shiftr va 30) 511.
Definition pd_index (va : Z) : Z := Z.land (Z.shiftr va 21) 511.
Definition pt_index (va : Z) : Z := Z.land (Z.shiftr va 12) 511.

(** A cleared page for a table: [kmalloc(PAGE_SIZE); memset(.., 0, PAGE_SIZE)]. *)
Definition new_table : prog mm Z :=
  let* t := kmalloc PAGE_SIZE in
  on_ram (memset t 0 PAGE_SIZE) ;;
  ret t.

Definition init_page_tables : prog mm unit :=
  let* pml4 := gets kernel_pml4 in
  for_ 0 512 (fun i =>
    if i =? 0 then
      let* pdpt := new_table in
      store (pml4 + 8 * i) (Z.lor (Z.lor pdpt PTE_PRESENT) PTE_WRITE) ;;
      for_ 0 512 (fun j =>
        if j <? 4 then
          let* pd := new_table in
          store (pdpt + 8 * j) (Z.lor (Z.lor pd PTE_PRESENT) PTE_WRITE) ;;
          for_ 0 512 (fun k =>
            let phys_addr := i * 512 * 512 * PAGE_SIZE + j * 512 * PAGE_SIZE + k * PAGE_SIZE in
            store (pd + 8 * k)
              (Z.lor (Z.lor (Z.lor phys_addr PTE_PRESENT) PTE_WRITE) PTE_GLOBAL))
        else ret tt)
    else ret tt) ;;
  modify (with_cr3 pml4).

Definition mm_create_space : prog mm Z :=
  let* space := kmalloc sizeof_memory_space in
  if space =? 0 then ret 0
  else
    let* pml4 := kmalloc PAGE_SIZE in
    store space pml4 ;;
    let* pml4 := load space in
    if pml4 =? 0 then kfree space ;; ret 0
    else
      let* new_pml4 := load space in
      let* kernel_pml4_ptr := gets kernel_pml4 in
      for_ 0 256 (fun i =>
        let* e := load (kernel_pml4_ptr + 8 * i) in
        store (new_pml4 + 8 * i) e) ;;
      for_ 256 512 (fun i => store (new_pml4 + 8 * i) 0) ;;
      store (space + 8) 0 ;;
      store (space + 16) 4294967296 ;;
      let* heap_start := load (space + 16) in
      store (space + 24) heap_start ;;
      store (space + 32) 140737471578112 ;;
      let* stack_start := load (space + 32) in
      store (space + 40) stack_start ;;
      ret space.

(** One level of the walk of [mm_map_page]: the entry at [table + 8 * index],
    filled with a fresh table when it is absent; the table it names. *)
Definition ensure_level (table index : Z) : prog mm Z :=
  let* e := load (table + 8 * index) in
  (if negb (present e) then
     let* t := new_table in
     store (table + 8 * index) (Z.lor (Z.lor (Z.lor t PTE_PRESENT) PTE_WRITE) PTE_USER)
   else ret tt) ;;
  let* e := load (table + 8 * index) in
  ret (table_of e).

(** The leaf entry for a frame and region flags. *)
Definition leaf_entry (phys_addr flags : Z) : Z :=
  let entry := Z.lor (Z.lor phys_addr PTE_PRESENT) PTE_USER in
  let entry := if negb (Z.land flags MEM_WRITE =? 0) then Z.lor entry PTE_WRITE else entry in
  if Z.land flags MEM_EXEC =? 0 then Z.lor entry PTE_NX else entry.

Definition mm_map_page (space virt_addr phys_addr flags : Z) : prog mm Z :=
  let* pml4 := load space in
  let* pdpt := ensure_level pml4 (pml4_index virt_addr) in
  let* pd := ensure_level pdpt (pdpt_index virt_addr) in
  let* pt := ensure_level pd (pd_index virt_addr) in
  store (pt + 8 * pt_index virt_addr) (leaf_entry phys_addr flags) ;;
  modify (with_invlpg virt_addr) ;;
  ret virt_addr.

Definition mm_unmap_page (space virt_addr : Z) : prog mm unit :=
  let* pml4 := load space in
  let* e := load (pml4 + 8 * pml4_index virt_addr) in
  if negb (present e) then ret tt
  else
    let* e := load (pml4 + 8 * pml4_index virt_addr) in
    let pdpt := table_of e in
    let* e := load (pdpt + 8 * pdpt_index virt_addr) in
    if negb (present e) then ret tt
    else
      let* e := load (pdpt + 8 * pdpt_index virt_addr) in
      let pd := table_of e in
      let* e := load (pd + 8 * pd_index virt_addr) in
      if negb (present e) then ret tt
      else
        let* e := load (pd + 8 * pd_index virt_addr) in
        let pt := table_of e in
        store (pt + 8 * pt_index virt_addr) 0 ;;
        modify (with_invlpg virt_addr).

(** [for (addr = start; addr < end; addr += PAGE_SIZE) mm_unmap_page(space, addr);]
    where [end] is read again on every turn. *)
Definition unmap_range (space region : Z) : prog mm unit :=
  let* start := load region in
  loop (fun addr =>
    let* end_ := load (region + 8) in
    if addr <? end_ then mm_unmap_page space addr ;; ret (Next (u64 (addr + PAGE_SIZE)))
    else ret (Done tt)) start.

Definition mm_destroy_space (space : Z) : prog mm unit :=
  let* region := load (space + 8) in
  loop (fun region =>
    if negb (region =? 0) then
      let* next := load (region + 56) in
      unmap_range space region ;;
      kfree region ;;
      ret (Next next)
    else ret (Done tt)) region ;;
  let* pml4 := load space in
  kfree pml4 ;;
  kfree space.

(** The search for an address outside every region, from [addr] up. *)
Definition find_gap (space addr : Z) : prog mm Z :=
  let* region := load (space + 8) in
  loop (fun '(addr, region) =>
    if negb (region =? 0) then
      let* start := load region in
      let* inside := (if start <=? addr then let* end_ := load (region + 8) in ret (addr <? end_)
                      else ret false) in
      if (inside : bool) then
        let* end_ := load (region + 8) in
        let* first := load (space + 8) in
        ret (Next (end_, first))
      else
        let* next := load (region + 56) in
        ret (Next (addr, next))
    else ret (Done addr)) (addr, region).

(** ["user_region"], the name [strcpy] copies. *)
Definition user_region_name : list Z := [117; 115; 101; 114; 95; 114; 101; 103; 105; 111; 110; 0].

Definition mm_alloc_region (space size flags : Z) : prog mm Z :=
  let size := PAGE_ALIGN size in
  let* addr := load (space + 24) in
  let* addr := find_gap space addr in
  let* mapped := loop (fun i =>
    if i <? size then
      let* phys_addr := pm_alloc_page in
      if phys_addr =? 0 then
        loop (fun j =>
          if j <? i then
            let old_phys := 0 in
            pm_free_page old_phys ;;
            mm_unmap_page space (u64 (addr + j)) ;;
            ret (Next (u64 (j + PAGE_SIZE)))
          else ret (Done tt)) 0 ;;
        ret (Done false)
      else
        mm_map_page space (u64 (addr + i)) phys_addr flags ;;
        ret (Next (u64 (i + PAGE_SIZE)))
    else ret (Done true)) 0 in
  if negb mapped then ret 0
  else
    let* new_region := kmalloc sizeof_memory_region in
    store new_region addr ;;
    store (new_region + 8) (u64 (addr + size)) ;;
    on_ram (stores (new_region + 16) (le_bytes 4 flags)) ;;
    on_ram (stores (new_region + 20) user_region_name) ;;
    let* regions := load (space + 8) in
    store (new_region + 56) regions ;;
    store (space + 8) new_region ;;
    store (space + 24) (u64 (addr + size)) ;;
    ret addr.

Definition mm_free_region (space addr size : Z) : prog mm unit :=
  let* region := load (space + 8) in
  loop (fun '(prev, region) =>
    if negb (region =? 0) then
      let* start := load region in
      let* hit := (if start =? addr then let* end_ := load (region + 8) in ret (end_ =? u64 (addr + size))
                   else ret false) in
      if (hit : bool) then
        let* next := load (region + 56) in
        (if negb (prev =? 0) then store (prev + 56) next else store (space + 8) next) ;;
        unmap_range space region ;;
        kfree region ;;
        ret (Done tt)
      else
        let prev := region in
        let* next := load (region + 56) in
        ret (Next (prev, next))
    else ret (Done tt)) (0, region).

(** [kernel_end] is the linker symbol behind the kernel image. *)
Definition mm_init (kernel_end : Z) : prog mm unit :=
  let start := u32 (PAGE_ALIGN (u32 kernel_end)) in
  modify (with_heap_range start (u64 (start + 1048576))) ;;
  init_page_tables ;;
  pm_init_region 1048576 268435456.

(** ** The walk of the processor *)

(** The eight-byte entry at [a]. *)
Definition entry (m : mem) (a : Z) : option Z :=
  match load64 a m with Ok (v, _) => Some v | _ => None end.

Definition present_entry (m : mem) (a : Z) : option Z :=
  match entry m a with
  | Some e => if present e then Some e else None
  | None => None
  end.

(** The addresses of the three upper entries met by the walk for [va], as far
    as it gets, and the address of the leaf entry if it gets there. *)
Definition walk_path (m : mem) (pml4 va : Z) : list Z * option Z :=
  let a1 := pml4 + 8 * pml4_index va in
  match present_entry m a1 with
  | None => ([a1], None)
  | Some e1 =>
      let a2 := table_of e1 + 8 * pdpt_index va in
      match present_entry m a2 with
      | None => ([a1; a2], None)
      | Some e2 =>
          let a3 := table_of e2 + 8 * pd_index va in
          match present_entry m a3 with
          | None => ([a1; a2; a3], None)
          | Some e3 => ([a1; a2; a3], Some (table_of e3 + 8 * pt_index va))
          end
      end
  end.

Definition walk (m : mem) (pml4 va : Z) : option Z := (walk_path m pml4 va).2.

(** The leaf entry the processor finds for [va] under [pml4]. *)
Definition translate (m : mem) (pml4 va : Z) : option Z :=
  match walk m pml4 va with
  | Some slot => present_entry m slot
  | None => None
  end.

(** ** Lemmas *)

#[local] Arguments write : simpl never.
#[local] Arguments le_bytes : simpl never.

Lemma wp_load a v (Q : Z -> mm -> Prop) s :
  entry (ram s) a = Some v -> Q v s -> wp (load a) Q s.
Proof.
  intros H HQ. apply wp_on_ram. unfold wp, entry in *.
  assert (forall n a m, match loads n a m with Ok (_, m') => m' = m | _ => True end) as Hl.
  { clear. induction n as [|n IH]; intros a m; cbn [loads]; [done|].
    unfold bind, load8, getf. destruct (m !! a); [|done]. specialize (IH (a + 1) m).
    destruct (loads n (a + 1) m) as [[? ?]| |]; done. }
  specialize (Hl 8%nat a (ram s)). unfold load64, bind in *.
  destruct (loads 8 a (ram s)) as [[l m]| |]; [|done..]. cbn in H. injection H as ->. subst m.
  cbn. by rewrite with_ram_id.
Qed.

Lemma wp_store a v (Q : unit -> mm -> Prop) s :
  mapped (ram s) a 8 -> Q tt (with_ram (write a (le_bytes 8 v) (ram s)) s) -> wp (store a v) Q s.
Proof. apply wp_store_size. Qed.

Lemma loads_agree n a m m' :
  (forall k, a <= k < a + Z.of_nat n -> m' !! k = m !! k) ->
  match loads n a m, loads n a m' with
  | Ok (l, _), Ok (l', _) => l = l'
  | Fault, Fault => True
  | _, _ => False
  end.
Proof.
  revert a. induction n as [|n IH]; intros a H; cbn [loads]; [done|].
  unfold bind, load8, getf. rewrite (H a) by lia. destruct (m !! a) as [b|]; [|done].
  specialize (IH (a + 1)). destruct (loads n (a + 1) m) as [[l ?]| |],
    (loads n (a + 1) m') as [[l' ?]| |]; try (apply IH; intros; apply H; lia).
  rewrite IH; [done|]. intros k Hk. apply H. lia.
Qed.

Lemma entry_agree m m' a :
  (forall k, a <= k < a + 8 -> m' !! k = m !! k) -> entry m' a = entry m a.
Proof.
  intros H. unfold entry, load64, bind. pose proof (loads_agree 8 a m m' H) as Hl.
  destruct (loads 8 a m) as [[l ?]| |], (loads 8 a m') as [[l' ?]| |]; try done.
  cbn. by rewrite Hl.
Qed.

Lemma entry_of_ptr m a v : ptr_at m a v -> entry m a = Some v.
Proof.
  intros H. pose proof (wp_load_ptr a v (fun r _ => r = v) m H eq_refl) as Hw.
  unfold wp, entry in *. destruct (load64 a m) as [[r ?]| |]; [by subst|done..].
Qed.

Lemma entry_write_same m a v : 0 <= v < 2 ^ 64 -> entry (write a (le_bytes 8 v) m) a = Some v.
Proof. intros. by apply entry_of_ptr, ptr_at_write. Qed.

Lemma entry_write_other m a b v :
  (8 | a) -> (8 | b) -> a <> b -> entry (write a (le_bytes 8 v) m) b = entry m b.
Proof.
  intros [x Hx] [y Hy] Hne. apply entry_agree. intros k Hk.
  apply write_lookup_out. rewrite le_bytes_length. lia.
Qed.

Lemma table_of_aligned e : (8 | table_of e).
Proof.
  unfold table_of. exists (Z.shiftr (table_of e) 3). unfold table_of.
  change 8 with (2 ^ 3). rewrite <- Z.shiftl_mul_pow2 by lia.
  apply Z.bits_inj'. intros i Hi. destruct (decide (i < 3)).
  - rewrite Z.shiftl_spec_low by lia. rewrite Z.land_spec.
    change (u64 (Z.lnot 4095)) with (Z.shiftl (Z.ones 52) 12).
    rewrite Z.shiftl_spec_low by lia. apply andb_false_r.
  - rewrite Z.shiftl_spec, Z.shiftr_spec by lia. f_equal. lia.
Qed.

Lemma entry_address_aligned a i : (8 | a) -> (8 | a + 8 * i).
Proof. intros H. apply Z.divide_add_r; [done|]. apply Z.divide_factor_l. Qed.

#[export] Hint Resolve table_of_aligned entry_address_aligned : core.

Lemma present_entry_other m a b v :
  (8 | a) -> (8 | b) -> a <> b -> present_entry (write a (le_bytes 8 v) m) b = present_entry m b.
Proof. intros. unfold present_entry. by rewrite entry_write_other. Qed.

(** A store to [a] leaves alone every walk that does not read [a]. *)
Lemma walk_path_other m a v pml4 va :
  (8 | pml4) -> (8 | a) -> a ∉ (walk_path m pml4 va).1 ->
  walk_path (write a (le_bytes 8 v) m) pml4 va = walk_path m pml4 va.
Proof.
  intros Hp Ha. unfold walk_path. set (a1 := pml4 + _).
  assert (8 | a1) as H1 by (unfold a1; auto).
  destruct (present_entry m a1) as [e1|] eqn:E1.
  2: { cbn. intros Hn. rewrite not_elem_of_cons in Hn.
       rewrite present_entry_other, E1 by tauto. done. }
  set (a2 := table_of e1 + _). assert (8 | a2) as H2 by (unfold a2; auto).
  destruct (present_entry m a2) as [e2|] eqn:E2.
  2: { cbn. intros Hn. rewrite !not_elem_of_cons in Hn.
       rewrite present_entry_other, E1 by tauto. fold a2.
       rewrite present_entry_other, E2 by tauto. done. }
  set (a3 := table_of e2 + _). assert (8 | a3) as H3 by (unfold a3; auto).
  intros Hn. assert (a <> a1 /\ a <> a2 /\ a <> a3) as (N1 & N2 & N3)
    by (destruct (present_entry m a3); cbn in Hn; rewrite !not_elem_of_cons in Hn; tauto).
  rewrite (present_entry_other _ _ a1), E1 by done. fold a2.
  rewrite (present_entry_other _ _ a2), E2 by done. fold a3.
  by rewrite (present_entry_other _ _ a3) by done.
Qed.

Lemma walk_leaf_aligned m pml4 va slot : walk m pml4 va = Some slot -> (8 | slot).
Proof.
  unfold walk, walk_path. destruct (present_entry m _); [|done].
  destruct (present_entry m _); [|done]. destruct (present_entry m _); [|done].
  cbn. intros [= <-]. auto.
Qed.

(** What translations become when a leaf entry is stored at [slot]. *)
Lemma translate_store m slot v pml4 va :
  (8 | pml4) -> (8 | slot) -> 0 <= v < 2 ^ 64 -> slot ∉ (walk_path m pml4 va).1 ->
  translate (write slot (le_bytes 8 v) m) pml4 va =
    if decide (walk m pml4 va = Some slot) then (if present v then Some v else None)
    else translate m pml4 va.
Proof.
  intros Hp Hs Hv Hn. unfold translate. unfold walk at 1. rewrite walk_path_other by done. fold (walk m pml4 va).
  destruct (decide (walk m pml4 va = Some slot)) as [->|Hne].
  - unfold present_entry. by rewrite entry_write_same.
  - destruct (walk m pml4 va) as [slot'|] eqn:E; [|done].
    apply present_entry_other; [done|by eapply walk_leaf_aligned|congruence].
Qed.

Lemma present_entry_inv m a e : present_entry m a = Some e -> entry m a = Some e /\ present e = true.
Proof.
  unfold present_entry. destruct (entry m a) as [e'|]; [|done]. destruct (present e') eqn:E; [|done].
  by intros [= ->].
Qed.

(** A level that is present is only read. *)
Lemma wp_ensure_level s table index e (Q : Z -> mm -> Prop) :
  present_entry (ram s) (table + 8 * index) = Some e -> Q (table_of e) s ->
  wp (ensure_level table index) Q s.
Proof.
  intros [He Hp]%present_entry_inv HQ. unfold ensure_level.
  wp_step. apply (wp_load _ e); [done|]. rewrite Hp. cbn [negb]. wp_steps.
  apply (wp_load _ e); [done|]. by wp_step.
Qed.

Lemma lor_bit0 a b : Z.testbit a 0 = true -> Z.testbit (Z.lor a b) 0 = true.
Proof. intros H. by rewrite Z.lor_spec, H. Qed.

Lemma present_leaf phys flags : present (leaf_entry phys flags) = true.
Proof.
  unfold present, PTE_PRESENT. rewrite (land_one _ 0) by lia. unfold leaf_entry.
  assert (Z.testbit (Z.lor (Z.lor phys PTE_PRESENT) PTE_USER) 0 = true) as H.
  { apply lor_bit0. rewrite Z.lor_spec. apply orb_true_r. }
  destruct (negb _), (Z.land flags MEM_EXEC =? 0); auto using lor_bit0.
Qed.

Lemma lor_lt a b n : 0 <= n -> 0 <= a < 2 ^ n -> 0 <= b < 2 ^ n -> 0 <= Z.lor a b < 2 ^ n.
Proof.
  intros Hn Ha Hb. assert (0 <= Z.lor a b) by (apply Z.lor_nonneg; lia). split; [done|].
  destruct (Z.eq_dec (Z.lor a b) 0) as [->|]; [lia|]. apply Z.log2_lt_pow2; [lia|].
  rewrite Z.log2_lor by lia.
  assert (forall c, 0 <= c < 2 ^ n -> c = 0 \/ Z.log2 c < n) as Hl.
  { intros c Hc. destruct (Z.eq_dec c 0); [auto|]. right. apply Z.log2_lt_pow2; lia. }
  pose proof (Z.log2_nonneg a). pose proof (Z.log2_nonneg b).
  destruct (Hl a Ha) as [->|], (Hl b Hb) as [->|]; [done|change (Z.log2 0) with 0; lia..|lia].
Qed.

Lemma leaf_bound phys flags : 0 <= phys < 2 ^ 64 -> 0 <= leaf_entry phys flags < 2 ^ 64.
Proof.
  intros H. unfold leaf_entry, PTE_PRESENT, PTE_USER, PTE_WRITE, PTE_NX.
  destruct (negb _), (Z.land flags MEM_EXEC =? 0); repeat apply lor_lt; lia.
Qed.

(** ** Properties *)

Definition mapped_state (s : mm) (slot v va : Z) : mm :=
  with_invlpg va (with_ram (write slot (le_bytes 8 v) (ram s)) s).

Lemma wp_mm_map_page s space pml4 va phys flags slot (Q : Z -> mm -> Prop) :
  entry (ram s) space = Some pml4 -> walk (ram s) pml4 va = Some slot ->
  mapped (ram s) slot 8 -> Q va (mapped_state s slot (leaf_entry phys flags) va) ->
  wp (mm_map_page space va phys flags) Q s.
Proof.
  intros Hsp Hw Hm HQ. unfold walk, walk_path in Hw.
  destruct (present_entry _ _) as [e1|] eqn:E1 in Hw; [|done].
  destruct (present_entry _ _) as [e2|] eqn:E2 in Hw; [|done].
  destruct (present_entry _ _) as [e3|] eqn:E3 in Hw; [|done].
  cbn in Hw. injection Hw as Hslot. unfold mm_map_page.
  wp_step. apply (wp_load _ pml4); [done|].
  wp_step. apply (wp_ensure_level _ _ _ e1); [done|].
  wp_step. apply (wp_ensure_level _ _ _ e2); [done|].
  wp_step. apply (wp_ensure_level _ _ _ e3); [done|].
  rewrite Hslot. wp_step. apply wp_store; [done|]. wp_steps. exact HQ.
Qed.

(** C7: [mm_map_page], where the three upper tables exist, stores exactly
    one leaf entry and flushes the page: in every address space, a translation
    whose walk ends in that entry becomes the new one, and every other one
    whose walk does not read the entry as a table stays what it was. *)
Theorem mm_map_page_correct s space pml4 va phys flags slot :
  entry (ram s) space = Some pml4 -> walk (ram s) pml4 va = Some slot ->
  mapped (ram s) slot 8 -> 0 <= phys < 2 ^ 64 ->
  let e := leaf_entry phys flags in
  let s' := mapped_state s slot e va in
  mm_map_page space va phys flags s = Ok (va, s') /\
  forall pml4' va', (8 | pml4') -> slot ∉ (walk_path (ram s) pml4' va').1 ->
    translate (ram s') pml4' va' =
      if decide (walk (ram s) pml4' va' = Some slot) then Some e
      else translate (ram s) pml4' va'.
Proof.
  intros Hsp Hw Hm Hp e s'. split.
  - apply wp_det. by eapply wp_mm_map_page.
  - intros pml4' va' H8 Hn. cbn [s' mapped_state with_invlpg with_ram ram].
    rewrite translate_store; [|done|by eapply walk_leaf_aligned|by apply leaf_bound|done].
    unfold e. by rewrite present_leaf.
Qed.

Lemma wp_mm_unmap_page s space pml4 va (Q : unit -> mm -> Prop) :
  entry (ram s) space = Some pml4 ->
  (forall a, a ∈ (walk_path (ram s) pml4 va).1 -> is_Some (entry (ram s) a)) ->
  match walk (ram s) pml4 va with
  | Some slot => mapped (ram s) slot 8 /\ Q tt (mapped_state s slot 0 va)
  | None => Q tt s
  end ->
  wp (mm_unmap_page space va) Q s.
Proof.
  intros Hsp Hread HQ. unfold walk, walk_path in *. unfold mm_unmap_page.
  wp_step. apply (wp_load _ pml4); [done|]. cbv beta.
  set (a1 := pml4 + _) in *.
  assert (is_Some (entry (ram s) a1)) as [v1 Hv1].
  { apply Hread. destruct (present_entry _ a1); [|by left].
    destruct (present_entry _ _); [|by left]. destruct (present_entry _ _); by left. }
  wp_step. apply (wp_load _ v1); [done|]. cbv beta. unfold present_entry in *. rewrite Hv1 in *.
  destruct (present v1) eqn:P1; cbn [negb]; [|wp_step; done].
  wp_step. apply (wp_load _ v1); [done|]. cbv beta zeta.
  set (a2 := table_of v1 + _) in *.
  assert (is_Some (entry (ram s) a2)) as [v2 Hv2].
  { apply Hread. destruct (match entry (ram s) a2 with Some _ => _ | None => _ end); [|by right; left].
    destruct (match entry (ram s) _ with Some _ => _ | None => _ end); by right; left. }
  wp_step. apply (wp_load _ v2); [done|]. cbv beta. rewrite Hv2 in *.
  destruct (present v2) eqn:P2; cbn [negb]; [|wp_step; done].
  wp_step. apply (wp_load _ v2); [done|]. cbv beta zeta.
  set (a3 := table_of v2 + _) in *.
  assert (is_Some (entry (ram s) a3)) as [v3 Hv3].
  { apply Hread. destruct (match entry (ram s) a3 with Some _ => _ | None => _ end); by right; right; left. }
  wp_step. apply (wp_load _ v3); [done|]. cbv beta. rewrite Hv3 in *.
  destruct (present v3) eqn:P3; cbn [negb]; [|wp_step; done].
  wp_step. apply (wp_load _ v3); [done|]. cbv beta zeta. cbn in HQ. destruct HQ as [Hm HQ].
  wp_step. apply wp_store; [done|]. wp_steps. exact HQ.
Qed.

(** [mm_unmap_page] leaves an address whose walk is incomplete alone;
    otherwise it clears the leaf entry: no walk that ends there translates any
    more, and the others are unchanged. *)
Theorem mm_unmap_page_correct s space pml4 va :
  entry (ram s) space = Some pml4 ->
  (forall a, a ∈ (walk_path (ram s) pml4 va).1 -> is_Some (entry (ram s) a)) ->
  (forall slot, walk (ram s) pml4 va = Some slot -> mapped (ram s) slot 8) ->
  match walk (ram s) pml4 va with
  | None => mm_unmap_page space va s = Ok (tt, s)
  | Some slot =>
      mm_unmap_page space va s = Ok (tt, mapped_state s slot 0 va) /\
      forall pml4' va', (8 | pml4') -> slot ∉ (walk_path (ram s) pml4' va').1 ->
        translate (ram (mapped_state s slot 0 va)) pml4' va' =
          if decide (walk (ram s) pml4' va' = Some slot) then None
          else translate (ram s) pml4' va'
  end.
Proof.
  intros Hsp Hread Hm. destruct (walk (ram s) pml4 va) as [slot|] eqn:E.
  - split.
    + apply wp_det, wp_mm_unmap_page with pml4; [done|done|]. rewrite E. split; [by apply Hm|done].
    + intros pml4' va' H8 Hn. cbn [mapped_state with_invlpg with_ram ram].
      rewrite translate_store; [done|done|by eapply walk_leaf_aligned|lia|done].
  - apply wp_det, wp_mm_unmap_page with pml4; [done|done|]. by rewrite E.
Qed.

Lemma walk_path_shared m p q va e :
  present_entry m (p + 8 * pml4_index va) = Some e ->
  present_entry m (q + 8 * pml4_index va) = Some e -> walk m p va = walk m q va.
Proof.
  intros Hp Hq. unfold walk, walk_path. rewrite Hp, Hq.
  destruct (present_entry m (table_of e + _)) as [e2|]; [|done].
  by destruct (present_entry m (table_of e2 + _)).
Qed.

(** Address spaces do not isolate: [mm_create_space] copies the lower
    256 entries of the kernel's top-level table, and user addresses are in
    that half, so two spaces name the same second-level table; a page mapped
    in one of them appears in the other. *)
Theorem user_mappings_shared s space pml4 pml4' va phys flags slot e :
  entry (ram s) space = Some pml4 -> (8 | pml4') ->
  present_entry (ram s) (pml4 + 8 * pml4_index va) = Some e ->
  present_entry (ram s) (pml4' + 8 * pml4_index va) = Some e ->
  walk (ram s) pml4 va = Some slot -> mapped (ram s) slot 8 -> 0 <= phys < 2 ^ 64 ->
  slot ∉ (walk_path (ram s) pml4' va).1 ->
  exists s', mm_map_page space va phys flags s = Ok (va, s') /\
    translate (ram s') pml4' va = Some (leaf_entry phys flags).
Proof.
  intros Hsp H8 He He' Hw Hm Hp Hn. exists (mapped_state s slot (leaf_entry phys flags) va). split.
  - apply wp_det. by eapply wp_mm_map_page.
  - cbn [mapped_state with_invlpg with_ram ram].
    rewrite translate_store; [|done|by eapply walk_leaf_aligned|by apply leaf_bound|done].
    rewrite <- (walk_path_shared _ pml4 pml4' va e), decide_True by done. by rewrite present_leaf.
Qed.

Lemma table_of_round e : 0 <= e < 2 ^ 64 -> table_of e = e / 4096 * 4096.
Proof.
  intros He. unfold table_of. change (u64 (Z.lnot 4095)) with (Z.shiftl (Z.ones 52) 12).
  change 4096 with (2 ^ 12). rewrite <- Z.shiftr_div_pow2, <- Z.shiftl_mul_pow2 by lia.
  apply Z.bits_inj'. intros i Hi. rewrite Z.land_spec. destruct (decide (i < 12)).
  - by rewrite !Z.shiftl_spec_low, andb_false_r by lia.
  - rewrite !Z.shiftl_spec, Z.shiftr_spec by lia. replace (i - 12 + 12) with i by lia.
    destruct (decide (i < 64)).
    + rewrite Z.ones_spec_low by lia. apply andb_true_r.
    + destruct (Z.eq_dec e 0) as [->|]; [by rewrite Z.bits_0|].
      rewrite (Z.bits_above_log2 e i); [done|lia|].
      enough (Z.log2 e < 64) by lia. apply Z.log2_lt_pow2; lia.
Qed.

Lemma table_of_flags a f : 0 <= f < 4096 -> table_of (Z.lor a f) = table_of a.
Proof.
  intros Hf. unfold table_of. rewrite Z.land_lor_distr_l.
  enough (Z.land f (u64 (Z.lnot 4095)) = 0) as -> by apply Z.lor_0_r.
  rewrite <- (Z.mod_small f (2 ^ 12)), <- Z.land_ones, <- Z.land_assoc by lia. apply Z.land_0_r.
Qed.

(** The tables [kmalloc] provides are not page aligned: in a heap
    that starts on a page, the first table lies 24 bytes into it, behind its
    block header, while the entry made for it names the page itself; the walk
    reads, and later stores overwrite, the header of the block. *)
Theorem new_table_misplaced s :
  heap_blocks s [] -> (4096 | kernel_heap_current s) ->
  kernel_heap_current s + PAGE_SIZE + sizeof_heap_block <= kernel_heap_end s ->
  exists s' l1 b l2, new_table s = Ok (bdata b, s') /\ heap_blocks s' (l1 ++ b :: l2) /\
    baddr b = kernel_heap_current s /\
    table_of (Z.lor (Z.lor (Z.lor (bdata b) PTE_PRESENT) PTE_WRITE) PTE_USER) = baddr b.
Proof.
  intros H Hpg Hroom. set (c := kernel_heap_current s) in *.
  pose proof (hb_bounds _ _ H) as (Hb1 & Hb2 & Hb3). fold c in Hb1, Hb2.
  assert (wp new_table (fun p s' => exists l1 b l2, p = bdata b /\ baddr b = c /\
            heap_blocks s' (l1 ++ b :: l2)) s) as Hw.
  { unfold new_table. wp_step. apply wp_kmalloc_empty; [done|unfold size_ok, PAGE_SIZE; lia|done|].
    intros s' [(l1 & b & l2 & Hb & _ & Ep & Hsz & _) _ _ _ _]. fold c in Ep |- *.
    assert (baddr b = c) as Eb by (unfold bdata in Ep; lia).
    assert (b ∈ l1 ++ b :: l2) as Hin by (apply elem_of_app; right; left).
    pose proof (block_ok_range _ b _ Hb Hin) as (Rb0 & Rb1 & Rb2 & Rb3 & Rb4).
    rewrite Ep. unfold PAGE_SIZE in *. wp_step. apply wp_on_ram.
    eapply wp_mono; [apply wp_det, memset_ok; [lia|]|].
    { eapply mapped_le; [apply (hb_mapped _ _ Hb)|unfold bdata, sizeof_heap_block in *; lia|].
      unfold bend in *. lia. }
    intros r m [_ ->]. wp_step. exists l1, b, l2. split; [done|]. split; [done|].
    apply heap_payload with b; [done|done| |intros; by apply write_mapped].
    intros k Hk. apply write_lookup_out. rewrite length_replicate. unfold bend in Hk. lia. }
  apply wp_run in Hw as (p & s' & E & l1 & b & l2 & -> & Eb & Hwf). exists s', l1, b, l2.
  do 3 (split; [done|]). unfold bdata in *. rewrite Eb.
  rewrite !table_of_flags by (unfold PTE_PRESENT, PTE_WRITE, PTE_USER; lia).
  unfold sizeof_heap_block, PAGE_SIZE in *. rewrite table_of_round by lia.
  destruct Hpg as [q Hq]. rewrite Hq. rewrite Z.div_add_l by lia. change (24 / 4096) with 0. lia.
Qed.

(** ** Witnesses *)

(** Two spaces with top-level tables at 0x1000 and 0x5000 sharing the second
    level at 0x2000; the first one's structure lies at 0x6000. *)
Definition demo_tables : mm :=
  let m := write 24576 (le_bytes 8 4096) ∅ in
  let m := write 4096 (le_bytes 8 8199) m in
  let m := write 20480 (le_bytes 8 8199) m in
  let m := write 8192 (le_bytes 8 12295) m in
  let m := write 12288 (le_bytes 8 16391) m in
  let m := write 16384 (le_bytes 8 0) m in
  Mm m 0 0 0 0 0 4096 4352 4096 0 0 0 [].

Lemma demo_walk p : p = 4096 \/ p = 20480 ->
  walk_path (ram demo_tables) p 0 = ([p; 8192; 12288], Some 16384).
Proof. intros [-> | ->]; vm_compute; reflexivity. Qed.

Lemma demo_slot : mapped (ram demo_tables) 16384 8.
Proof.
  intros k Hk. assert (k = 16384 \/ k = 16385 \/ k = 16386 \/ k = 16387 \/ k = 16388 \/ k = 16389 \/
    k = 16390 \/ k = 16391) as Hc by lia.
  repeat destruct Hc as [->|Hc]; try (by eexists). subst k. by eexists.
Qed.

Lemma demo_slot_apart p : p = 4096 \/ p = 20480 -> 16384 ∉ (walk_path (ram demo_tables) p 0).1.
Proof.
  intros Hp. rewrite demo_walk by done. cbn. rewrite !not_elem_of_cons, elem_of_nil. lia.
Qed.

(** Mapping the frame at 7 MB, writable, at address 0 of the first space. *)
Lemma mm_map_page_correct_witness :
  translate (ram (mapped_state demo_tables 16384 (leaf_entry 7340032 2) 0)) 4096 0
  = Some (leaf_entry 7340032 2).
Proof.
  rewrite (proj2 (mm_map_page_correct demo_tables 24576 4096 0 7340032 2 16384
             eq_refl eq_refl demo_slot ltac:(lia)) 4096 0
             ltac:(by exists 512) (demo_slot_apart 4096 ltac:(auto))).
  reflexivity.
Defined.

Lemma mm_unmap_page_correct_witness :
  mm_unmap_page 24576 0 demo_tables = Ok (tt, mapped_state demo_tables 16384 0 0).
Proof.
  pose proof (mm_unmap_page_correct demo_tables 24576 4096 0) as H.
  assert (walk (ram demo_tables) 4096 0 = Some 16384) as E by (unfold walk; by rewrite demo_walk by auto).
  rewrite E in H. apply H.
  - reflexivity.
  - rewrite demo_walk by auto. cbn [fst]. intros a Ha. rewrite !elem_of_cons, elem_of_nil in Ha.
    destruct Ha as [->|[->|[->|[]]]]; eexists; vm_compute; reflexivity.
  - intros slot [= <-]. exact demo_slot.
Defined.

Lemma user_mappings_shared_witness :
  exists s', mm_map_page 24576 0 7340032 2 demo_tables = Ok (0, s') /\
    translate (ram s') 20480 0 = Some (leaf_entry 7340032 2).
Proof.
  apply (user_mappings_shared demo_tables 24576 4096 20480 0 7340032 2 16384 8199);
    [reflexivity|by exists 2560|reflexivity|reflexivity|reflexivity|exact demo_slot|lia|].
  apply demo_slot_apart. auto.
Defined.

(** A page-aligned heap of two pages. *)
Definition demo_pages : mm :=
  Mm (write 8192 (replicate (Z.to_nat 8192) 0) ∅) 0 0 0 0 0 8192 16384 8192 0 0 0 [].

Lemma new_table_misplaced_witness :
  exists s' l1 b l2, new_table demo_pages = Ok (bdata b, s') /\ heap_blocks s' (l1 ++ b :: l2) /\
    baddr b = 8192 /\
    table_of (Z.lor (Z.lor (Z.lor (bdata b) PTE_PRESENT) PTE_WRITE) PTE_USER) = baddr b.
Proof.
  apply (new_table_misplaced demo_pages); [|by exists 2|cbv; discriminate].
  constructor; cbn [demo_pages heap_free_list kernel_heap_start kernel_heap_current kernel_heap_end ram];
    [done|done|done|constructor|lia|by exists 1024|].
  pose proof (zeros_mapped 8192 (Z.to_nat 8192) ∅) as Hm.
  rewrite Z2Nat.id in Hm by lia. exact Hm.
Defined.
