(* ===== verification/SimpleMm.v ===== *)
(** * The bump allocator of the 32-bit kernel (kernel/simple_mm.c)

    The memory and string functions of the freestanding kernel and its heap:
    16 MB from address 0x1000000 on, handed out in order and never reused.
    [size_t] has 32 bits here. *)

From S2P Require Import Prelude CMem MemFns CStr KHeap Alloc.

(** ** Definitions *)

Definition memset (s c n : Z) : prog mem Z :=
  for_ 0 n (fun i => store8 (s + i) (u8 c)) ;;
  ret s.

Definition memcpy (dest src n : Z) : prog mem Z :=
  for_ 0 n (fun i => let* b := load8 (src + i) in store8 (dest + i) b) ;;
  ret dest.

Definition strncpy (dest src n : Z) : prog mem Z :=
  let* i := loop (fun i =>
    let* more := (if i <? n then let* c := load8 (src + i) in ret (negb (c =? 0)) else ret false) in
    if (more : bool) then
      let* c := load8 (src + i) in
      store8 (dest + i) c ;;
      ret (Next (i + 1))
    else ret (Done i)) 0 in
  for_ i n (fun i => store8 (dest + i) 0) ;;
  ret dest.

Definition strstr (haystack needle : Z) : prog mem Z :=
  let* none := (if needle =? 0 then ret true else let* c := load8 needle in ret (c =? 0)) in
  if (none : bool) then ret haystack
  else
    loop (fun haystack =>
      let* c := load8 haystack in
      if c =? 0 then ret (Done 0)
      else
        let* n := loop (fun '(h, n) =>
          let* cn := load8 n in
          if cn =? 0 then ret (Done n)
          else
            let* ch := load8 h in
            if ch =? 0 then ret (Done n)
            else if ch =? cn then ret (Next (h + 1, n + 1))
            else ret (Done n)) (haystack, needle) in
        let* cn := load8 n in
        if cn =? 0 then ret (Done haystack) else ret (Next (haystack + 1))) haystack.

Record smm : Type := Smm { sram : mem; heap_size : Z }.

Definition on_sram {A} (p : prog mem A) : prog smm A :=
  fun s => match p (sram s) with
           | Ok (a, m) => Ok (a, Smm m (heap_size s))
           | Fault => Fault
           | Spin => Spin
           end.

Definition kernel_heap : Z := 16777216.
Definition max_heap_size : Z := 16777216.

Definition mm_init : prog smm unit := modify (fun s => Smm (sram s) 0).

Definition mm_get_available_memory : prog smm Z :=
  let* n := gets heap_size in ret (u32 (max_heap_size - n)).

Definition kmalloc (size : Z) : prog smm Z :=
  let* n := gets heap_size in
  if max_heap_size <? u32 (n + size) then ret 0
  else
    let ptr := u32 (kernel_heap + n) in
    modify (fun s => Smm (sram s) (u32 (n + size))) ;;
    ret ptr.

Definition kfree (ptr : Z) : prog smm unit := ret tt.

Definition kcalloc (nmemb size : Z) : prog smm Z :=
  let total := u32 (nmemb * size) in
  let* ptr := kmalloc total in
  (if negb (ptr =? 0) then on_sram (memset ptr 0 total) ;; ret tt else ret tt) ;;
  ret ptr.

Definition krealloc (ptr size : Z) : prog smm Z :=
  let* new_ptr := kmalloc size in
  (if negb (new_ptr =? 0) && negb (ptr =? 0)
   then on_sram (memcpy new_ptr ptr size) ;; ret tt else ret tt) ;;
  ret new_ptr.

(** ** Lemmas *)

Lemma wp_on_sram {A} (p : prog mem A) Q s :
  wp p (fun a m => Q a (Smm m (heap_size s))) (sram s) -> wp (on_sram p) Q s.
Proof. unfold wp, on_sram. by destruct (p (sram s)) as [[a m]| |]. Qed.

(** The heap holds only addresses below the break. *)
Definition bump_owned (s : smm) (L : gset Z) : Prop :=
  0 <= heap_size s <= max_heap_size /\
  forall p, p ∈ L -> kernel_heap <= p < kernel_heap + heap_size s.

Lemma wp_bump_kmalloc s size (Q : Z -> smm -> Prop) :
  0 <= heap_size s <= max_heap_size -> 0 <= size < 2 ^ 31 ->
  (max_heap_size < heap_size s + size -> Q 0 s) ->
  (heap_size s + size <= max_heap_size ->
     Q (kernel_heap + heap_size s) (Smm (sram s) (heap_size s + size))) ->
  wp (kmalloc size) Q s.
Proof.
  unfold kmalloc, max_heap_size, kernel_heap. intros Hh Hs H0 H1. do 2 wp_step.
  rewrite (wrap_small 32 (heap_size s + size)) by lia.
  destruct (Z.ltb_spec 16777216 (heap_size s + size)); wp_steps; [auto|].
  rewrite wrap_small by lia. auto.
Qed.

#[export] Instance bump_alloc : KAlloc smm := {| kmalloc_op := kmalloc; kfree_op := kfree |}.

#[export] Instance bump_alloc_laws : KAllocLaws smm.
Proof.
  refine {| owned := bump_owned |}. intros s L n [Hh HL] Hn.
  apply wp_bump_kmalloc; [done|lia| |]; intros Hroom.
  - by left.
  - right. unfold bump_owned, kernel_heap, max_heap_size in *. cbn [heap_size].
    split; [lia|]. split; [intros Hin; apply HL in Hin; lia|]. split; [lia|].
    intros p Hp. rewrite elem_of_union, elem_of_singleton in Hp.
    destruct Hp as [->|Hp]; [lia|]. apply HL in Hp. lia.
Defined.

#[export] Instance bump_free_laws : KFreeLaws smm.
Proof.
  constructor. intros s L p [Hh HL] Hp. apply wp_ret. split; [done|].
  intros q Hq. apply HL. by apply elem_of_difference in Hq as [? _].
Qed.

(** ** [memset], [memcpy] *)

Lemma wp_fill s c n m (Q : unit -> mem -> Prop) :
  0 <= n < 2 ^ 64 -> mapped m s n -> Q tt (write s (replicate (Z.to_nat n) (u8 c)) m) ->
  wp (for_ 0 n (fun i => store8 (s + i) (u8 c))) Q m.
Proof.
  intros Hn Hm HQ. apply wp_for with
    (I := fun i m' => m' = write s (replicate (Z.to_nat i) (u8 c)) m); [lia|lia|done| |by intros ? ->].
  intros i m' Hi ->. apply wp_store8; [apply (write_mapped _ _ _ s n); [done|lia]|].
  replace (Z.to_nat (i + 1)) with (Z.to_nat i + 1)%nat by lia.
  rewrite replicate_add, write_app, length_replicate. cbn [replicate write].
  rewrite wrap_wrap. by rewrite Z2Nat.id by lia.
Qed.

Lemma wp_copy dest src l m (Q : unit -> mem -> Prop) :
  Forall byte l -> Z.of_nat (length l) < 2 ^ 64 ->
  bytes_at m src l -> mapped m dest (Z.of_nat (length l)) ->
  dest <= src \/ src + Z.of_nat (length l) <= dest ->
  Q tt (write dest l m) ->
  wp (for_ 0 (Z.of_nat (length l)) (fun i => let* b := load8 (src + i) in store8 (dest + i) b)) Q m.
Proof.
  intros Hb Hl Hs Hd Hov HQ. apply wp_for with
    (I := fun i m' => m' = write dest (take (Z.to_nat i) l) m); [lia|lia|by rewrite take_0| |].
  - intros i m' Hi ->. destruct (lookup_lt_is_Some_2 l (Z.to_nat i)) as [b Eb]; [lia|].
    wp_step. apply wp_load8 with b.
    { rewrite write_lookup_out by (rewrite length_take; lia). rewrite <- (Hs _ _ Eb). f_equal. lia. }
    apply wp_store8; [apply (write_mapped _ _ _ _ _ Hd); lia|].
    replace (Z.to_nat (i + 1)) with (S (Z.to_nat i)) by lia.
    rewrite (take_S_r _ _ _ Eb), write_app, length_take. cbn [write].
    rewrite wrap_small by (by eapply Forall_lookup_1 in Hb).
    f_equal. lia.
  - intros m' ->. rewrite Nat2Z.id, take_ge by lia. done.
Qed.

(** ** [strncpy] *)

(** The kernel's [strncpy] fills the [n] bytes of the destination: the
    string cut to [n] characters, then zero bytes up to [n]; nothing beyond. *)
Theorem strncpy_fills dest src l n m :
  cstr m src l -> 0 <= n < 2 ^ 32 -> mapped m dest n ->
  dest + n <= src \/ src + Z.of_nat (length l) < dest ->
  strncpy dest src n m = Ok (dest, write dest (resize (Z.to_nat n) 0 l) m).
Proof.
  intros [Hc Hs] Hn Hd Hov. apply wp_det. unfold strncpy.
  set (k := Z.min n (Z.of_nat (length l))). wp_step.
  apply wp_mono with (P := fun i m' => i = k /\ m' = write dest (take (Z.to_nat k) l) m).
  - apply wp_loop with (m := fun i _ => k - i)
      (I := fun i m' => 0 <= i <= k /\ m' = write dest (take (Z.to_nat i) l) m);
      [|split; [lia|by rewrite take_0]|lia].
    intros i m' [Hi ->].
    assert (forall b, (l ++ [0]) !! Z.to_nat i = Some b ->
              write dest (take (Z.to_nat i) l) m !! (src + i) = Some b) as Hrd.
    { intros b Eb. rewrite write_lookup_out by (rewrite length_take; lia).
      rewrite <- (Hs _ _ Eb). f_equal. lia. }
    destruct (Z.ltb_spec i n) as [Hin|Hin].
    + destruct (decide (i < Z.of_nat (length l))) as [Hil|Hil].
      * destruct (lookup_lt_is_Some_2 l (Z.to_nat i)) as [b Eb]; [lia|].
        assert (cchar b) as Hbc by (by eapply Forall_lookup_1 in Hc).
        assert ((l ++ [0]) !! Z.to_nat i = Some b) as Eb' by (by apply lookup_app_l_Some).
        do 2 wp_step. apply wp_load8 with b; [by apply Hrd|]. rewrite (cchar_neq b) by done. cbn [negb].
        wp_steps. apply wp_load8 with b; [by apply Hrd|]. wp_step.
        apply wp_store8; [apply (write_mapped _ _ _ _ _ Hd); lia|]. wp_step. split; [|lia].
        split; [lia|]. replace (Z.to_nat (i + 1)) with (S (Z.to_nat i)) by lia.
        rewrite (take_S_r _ _ _ Eb), write_app, length_take. cbn [write].
        rewrite wrap_small by (unfold cchar in Hbc; lia). f_equal. lia.
      * assert (i = Z.of_nat (length l)) as -> by lia.
        do 2 wp_step. apply wp_load8 with 0; [apply Hrd; rewrite Nat2Z.id; by apply list_lookup_middle|].
        cbn [Z.eqb negb]. wp_steps. split; [lia|]. f_equal. f_equal. lia.
    + wp_steps. assert (i = k) as -> by lia. done.
  - intros i m' [-> ->]. wp_step.
    apply wp_for with (I := fun i m' => k <= i <= n /\
      m' = write dest (take (Z.to_nat k) l ++ replicate (Z.to_nat (i - k)) 0) m); [lia|lia| | |].
    + split; [lia|]. by rewrite Z.sub_diag, app_nil_r.
    + intros i m' Hi [_ ->]. apply wp_store8; [apply (write_mapped _ _ _ _ _ Hd); lia|].
      split; [lia|]. replace (Z.to_nat (i + 1 - k)) with (Z.to_nat (i - k) + 1)%nat by lia.
      rewrite replicate_add, app_assoc. rewrite (write_app (_ ++ _) (replicate 1 0)).
      cbn [replicate write]. rewrite length_app, length_take, length_replicate.
      by replace (dest + Z.of_nat (Z.to_nat k `min` length l + Z.to_nat (i - k))) with (dest + i) by lia.
    + intros m' [_ ->]. wp_step. split; [done|]. f_equal.
      destruct (decide (n <= Z.of_nat (length l))).
      * rewrite resize_le by lia. replace k with n by lia. by rewrite Z.sub_diag, app_nil_r.
      * rewrite resize_ge by lia. rewrite take_ge by lia. f_equal. f_equal. lia.
Qed.

(** ** [strstr] *)

(** The first position at which [needle] occurs. *)
Fixpoint find_sub (needle hay : list Z) : option nat :=
  match hay with
  | [] => None
  | _ :: tl => if decide (needle `prefix_of` hay) then Some 0%nat else S <$> find_sub needle tl
  end.

Lemma wp_load_head8 a l (Q : Z -> mem -> Prop) m :
  cstr m a l ->
  (l = [] -> Q 0 m) ->
  (forall b l', l = b :: l' -> (b =? 0) = false -> cstr m (a + 1) l' -> Q b m) ->
  wp (load8 a) Q m.
Proof.
  intros H H0 H1. destruct l as [|b l].
  - apply cstr_nil in H. apply wp_load8 with 0; auto.
  - apply cstr_cons in H as (Hb & Ha & H). apply wp_load8 with b; [done|].
    eapply H1; [done| |done]. by apply cchar_neq.
Qed.

Lemma wp_match hay needle h n m :
  cstr m h hay -> cstr m n needle -> Z.of_nat (length hay) < 2 ^ 64 ->
  wp (loop (fun '(h, n) =>
        let* cn := load8 n in
        if cn =? 0 then ret (Done n)
        else
          let* ch := load8 h in
          if ch =? 0 then ret (Done n)
          else if ch =? cn then ret (Next (h + 1, n + 1))
          else ret (Done n)) (h, n))
     (fun n' m' => m' = m /\ exists rest, cstr m n' rest /\ (rest = [] <-> needle `prefix_of` hay)) m.
Proof.
  intros Hh Hn Hl. set (P := needle `prefix_of` hay).
  apply wp_loop_n with (n := Z.of_nat (length hay))
    (I := fun i '(h', n') m' => m' = m /\ exists hay' needle', cstr m h' hay' /\ cstr m n' needle' /\
       i = Z.of_nat (length hay') /\ (P <-> needle' `prefix_of` hay'));
    [|split; [done|]; by exists hay, needle|lia].
  intros i [h' n'] m' (-> & hay' & needle' & Hh' & Hn' & -> & HP).
  wp_step. eapply wp_load_head8; [exact Hn'| |].
  { intros ->. wp_step. split; [done|]. exists []. split; [done|]. split; [|done].
    intros _. apply HP, prefix_nil. }
  intros b k -> Eb Hk. rewrite Eb. wp_step. eapply wp_load_head8; [exact Hh'| |].
  { intros ->. wp_step. split; [done|]. exists (b :: k). split; [done|]. split; [done|].
    intros HPt. apply HP in HPt. by apply prefix_nil_not in HPt. }
  intros c hk -> Ec Hhk. rewrite Ec. cbv iota. destruct (Z.eqb_spec c b) as [->|Hne]; wp_step.
  - exists (Z.of_nat (length hk)). cbn [length]. split; [|lia]. split; [done|]. exists hk, k.
    do 3 (split; [done|]). rewrite HP. split; [apply prefix_cons_inv_2|apply prefix_cons].
  - split; [done|]. exists (b :: k). split; [done|]. split; [done|]. intros HPt. apply HP in HPt.
    by apply prefix_cons_inv_1 in HPt.
Qed.

(** [strstr] returns the address of the first occurrence of the
    needle, the haystack itself for an empty needle, null when there is none. *)
Lemma strstr_correct haystack needle hay nd m :
  cstr m haystack hay -> cstr m needle nd -> 0 < needle ->
  Z.of_nat (length hay) < 2 ^ 32 ->
  strstr haystack needle m =
    Ok (if decide (nd = []) then haystack
        else match find_sub nd hay with Some i => haystack + Z.of_nat i | None => 0 end, m).
Proof.
  intros Hh Hn Hn0 Hl. apply wp_det. unfold strstr. rewrite (proj2 (Z.eqb_neq needle 0)) by lia.
  do 2 wp_step. eapply wp_load_head8; [exact Hn| |].
  { intros ->. wp_steps. by rewrite decide_True. }
  intros b k Ek Eb _. rewrite Eb. wp_steps. rewrite decide_False by (by rewrite Ek).
  set (r := match find_sub nd hay with Some i => haystack + Z.of_nat i | None => 0 end).
  apply wp_loop_n with (n := Z.of_nat (length hay))
    (I := fun i h m' => m' = m /\ exists hay', cstr m h hay' /\ i = Z.of_nat (length hay') /\
       (length hay' <= length hay)%nat /\ r = match find_sub nd hay' with Some i => h + Z.of_nat i | None => 0 end);
    [|split; [done|]; by exists hay|lia].
  intros i h m' (-> & hay' & Hh' & -> & Hlh & Hr). wp_step. eapply wp_load_head8; [exact Hh'| |].
  { intros ->. wp_step. split; [|done]. by rewrite Hr. }
  intros c tl -> Ec Htl. rewrite Ec. wp_step.
  eapply wp_mono; [apply (wp_match (c :: tl) nd); [done|done|lia]|].
  intros n' m1 (-> & rest & Hrest & HP). wp_step. eapply wp_load_head8; [exact Hrest| |].
  - intros ->. wp_step. split; [|done]. rewrite Hr. cbn [find_sub].
    rewrite decide_True by (by apply HP). lia.
  - intros b' rest' -> Eb' _. rewrite Eb'. wp_step. exists (Z.of_nat (length tl)). cbn [length].
    split; [|lia]. split; [done|]. exists tl. split; [done|]. split; [done|].
    split; [cbn [length] in Hlh; lia|]. rewrite Hr. cbn [find_sub]. rewrite decide_False by (by rewrite <- HP).
    destruct (find_sub nd tl) as [j|]; [|done]. cbn. lia.
Qed.

(** ** The heap *)

(** [krealloc] moves an allocation: the new block is fresh, starts with
    the bytes of the old one, and the old block keeps its contents.  (It reads
    [size] bytes from the old address, which must be mapped; it has no record
    of the old size.) *)
Theorem krealloc_keeps s p old size :
  0 <= heap_size s <= max_heap_size -> Z.of_nat (length old) <= size < 2 ^ 31 ->
  heap_size s + size <= max_heap_size -> Forall byte old ->
  kernel_heap <= p -> p + Z.of_nat (length old) <= kernel_heap + heap_size s ->
  bytes_at (sram s) p old -> mapped (sram s) p size ->
  mapped (sram s) (kernel_heap + heap_size s) size ->
  exists s', krealloc p size s = Ok (kernel_heap + heap_size s, s') /\
    bytes_at (sram s') (kernel_heap + heap_size s) old /\ bytes_at (sram s') p old /\
    heap_size s' = heap_size s + size.
Proof.
  intros Hh Hs Hroom Hb Hp Hpo Hold Hmp Hmn. set (q := kernel_heap + heap_size s) in *.
  enough (wp (krealloc p size) (fun r s' => r = q /\
    bytes_at (sram s') q old /\ bytes_at (sram s') p old /\ heap_size s' = heap_size s + size) s) as Hw.
  { apply wp_run in Hw as (r & s' & E & -> & Hw). by exists s'. }
  unfold krealloc. wp_step. apply wp_bump_kmalloc; [done|lia|lia|]. intros _. cbv beta. fold q.
  assert (0 < q) by (unfold q, kernel_heap; lia). unfold kernel_heap in Hp.
  rewrite (proj2 (Z.eqb_neq q 0)), (proj2 (Z.eqb_neq p 0)) by lia. cbn [negb andb].
  do 2 wp_step. apply wp_on_sram. cbn [sram heap_size]. unfold memcpy. wp_step.
  apply wp_for with (I := fun i m => agree_out q (q + i) (sram s) m /\
      (forall a k, mapped (sram s) a k -> mapped m a k) /\
      bytes_at m q (take (Z.to_nat i) old)); [lia|lia| | |].
  - split; [apply agree_out_refl|]. split; [done|]. rewrite take_0. by intros ? ? ?.
  - intros i m Hi (Hag & Hmap & Hq).
    destruct (Hmap p size Hmp (p + i) ltac:(lia)) as [b Eb]. wp_step. apply wp_load8 with b; [done|].
    apply wp_store8; [apply (Hmap q size Hmn); lia|]. split; [|split].
    + intros k Hk. rewrite lookup_insert_ne by lia. apply Hag. lia.
    + intros a k Hak. by apply (write_mapped _ [_]), Hmap.
    + replace (Z.to_nat (i + 1)) with (S (Z.to_nat i)) by lia.
      destruct (old !! Z.to_nat i) as [c|] eqn:Ec.
      * pose proof (lookup_lt_Some _ _ _ Ec) as Lc. rewrite (take_S_r _ _ _ Ec).
        rewrite Hag in Eb by lia. rewrite <- (Z2Nat.id i) in Eb at 1 by lia.
        rewrite (Hold _ _ Ec) in Eb. injection Eb as <-.
        assert (byte c) as Hc by (by eapply Forall_lookup_1 in Hb). rewrite wrap_small by exact Hc.
        apply bytes_at_app. rewrite length_take. split.
        -- intros j d Hj. pose proof (lookup_lt_Some _ _ _ Hj) as Lj. rewrite length_take in Lj.
           rewrite lookup_insert_ne by lia. by apply Hq.
        -- apply bytes_at_cons. split; [|by intros ? ? ?].
           replace (Z.of_nat (Z.to_nat i `min` length old)) with i by lia. apply lookup_insert_eq.
      * apply lookup_ge_None in Ec. rewrite take_ge in Hq |- * by lia.
        intros j d Hj. pose proof (lookup_lt_Some _ _ _ Hj) as Lj.
        rewrite lookup_insert_ne by lia. by apply Hq.
  - intros m (Hag & Hmap & Hq). wp_steps. cbn [sram heap_size].
    rewrite take_ge in Hq by lia. do 2 (split; [done|]). split; [|done].
    intros j d Hj. pose proof (lookup_lt_Some _ _ _ Hj) as Lj. rewrite Hag by lia. by apply Hold.
Qed.

(** The break wraps at 32 bits: a request of [2^32 - heap_size] bytes
    is granted and moves the break back to the start of the heap, so the next
    allocation overlaps the first one. *)
Lemma kmalloc_break_wraps s n :
  0 < heap_size s <= max_heap_size -> 0 < n <= max_heap_size ->
  exists s1, kmalloc (2 ^ 32 - heap_size s) s = Ok (kernel_heap + heap_size s, s1) /\
    heap_size s1 = 0 /\
    kmalloc n s1 = Ok (kernel_heap, Smm (sram s) n).
Proof.
  unfold max_heap_size, kernel_heap. intros Hh Hn. exists (Smm (sram s) 0). split; [|split; [done|]].
  - apply wp_det. unfold kmalloc, max_heap_size, kernel_heap. do 2 wp_step.
    replace (heap_size s + (2 ^ 32 - heap_size s)) with (2 ^ 32) by lia.
    change (u32 (2 ^ 32)) with 0. change (16777216 <? 0) with false. wp_steps.
    rewrite wrap_small by lia. done.
  - apply wp_det, wp_bump_kmalloc; cbn [heap_size sram]; unfold max_heap_size, kernel_heap; [lia|lia|lia|done].
Qed.

(** ** Witnesses *)

Definition demo_kmem : mem :=
  write 16777216 ([97; 98; 0] ++ replicate 13 0) (write 4096 ([97; 98; 99] ++ [0]) ∅).

Lemma demo_kmem_src : cstr demo_kmem 4096 [97; 98; 99].
Proof.
  unfold demo_kmem. apply cstr_write_out; [|simpl; lia]. apply cstr_written. repeat constructor.
Qed.

Lemma demo_kmem_heap : mapped demo_kmem 16777216 16.
Proof.
  exact (bytes_at_mapped _ _ _ (write_bytes_at 16777216 ([97; 98; 0] ++ replicate 13 0) _)).
Qed.

(** ["abc"] cut into two bytes. *)
Lemma strncpy_fills_witness :
  strncpy 16777216 4096 2 demo_kmem = Ok (16777216, write 16777216 [97; 98] demo_kmem).
Proof.
  apply (strncpy_fills 16777216 4096 [97; 98; 99] 2); [exact demo_kmem_src|lia| |simpl; lia].
  eapply mapped_le; [exact demo_kmem_heap|lia|lia].
Defined.

(** ["bc"] in ["abc"]. *)
Lemma strstr_correct_witness : strstr 4096 4097 demo_kmem = Ok (4097, demo_kmem).
Proof.
  apply (strstr_correct 4096 4097 [97; 98; 99] [98; 99]); [exact demo_kmem_src| |lia|simpl; lia].
  apply (cstr_drop demo_kmem 4096 [97] [98; 99]). exact demo_kmem_src.
Defined.

Lemma krealloc_keeps_witness :
  exists s', krealloc 16777216 8 (Smm demo_kmem 4) = Ok (16777220, s') /\
    bytes_at (sram s') 16777220 [97; 98; 0] /\ bytes_at (sram s') 16777216 [97; 98; 0] /\
    heap_size s' = 12.
Proof.
  apply (krealloc_keeps (Smm demo_kmem 4) 16777216 [97; 98; 0] 8);
    unfold max_heap_size, kernel_heap; cbn [sram heap_size length]; try lia.
  - repeat (constructor; [unfold byte; lia|]). constructor.
  - intros i b Hi. do 3 (destruct i as [|i]; [injection Hi as <-; reflexivity|]). done.
  - eapply mapped_le; [exact demo_kmem_heap|lia|lia].
  - eapply mapped_le; [exact demo_kmem_heap|lia|lia].
Defined.

Lemma kmalloc_break_wraps_witness :
  exists s1, kmalloc (2 ^ 32 - 4) (Smm ∅ 4) = Ok (16777220, s1) /\ heap_size s1 = 0 /\
    kmalloc 8 s1 = Ok (16777216, Smm ∅ 8).
Proof.
  apply (kmalloc_break_wraps (Smm ∅ 4) 8); unfold max_heap_size; cbn; lia.
Defined.
