(* ===== verification/Fs.v ===== *)
(** * The virtual file system (kernel/fs.c, kernel/fs.h)

    The structures the file system allocates are typed objects in stores keyed
    by their addresses: nodes, data buffers, file descriptors, file objects,
    registered file systems; 0 is the null pointer, and a dereference of an
    address that is not in its store is a [Fault].  Addresses come from the
    kernel allocator, of which the file only knows the interface [KAlloc].
    A data buffer is a list of bytes, [None] where nothing was written since
    [kmalloc]; [kfree] takes the object out of its store.

    Path and file names are lists of bytes.  [strncpy] into a name field of
    [n + 1] bytes keeps the first [n] of them ([SimpleMm.strncpy_fills]),
    [strcmp] is equality ([CStr.strcmp_correct]) and [strtok] splits as
    [next_token] says ([CStr.strtok_r_correct]). *)

From S2P Require Import Prelude CMem CStr Alloc.

(** ** Constants *)

Definition S_IFREG : Z := 32768.   (* 0100000 *)
Definition S_IFDIR : Z := 16384.   (* 0040000 *)
Definition O_CREAT : Z := 64.      (* 0100 *)
Definition O_TRUNC : Z := 512.     (* 01000 *)
Definition SEEK_SET : Z := 0.
Definition SEEK_CUR : Z := 1.
Definition SEEK_END : Z := 2.
Definition MAX_FDS : nat := 256.

Definition sizeof_file_descriptor : Z := 40.
Definition sizeof_file_object : Z := 40.
Definition sizeof_vfs_node : Z := 336.
Definition sizeof_filesystem : Z := 312.

(** ** Data *)

Definition text : Type := list Z.

(** The tables of file operations: there is one, for in-memory files. *)
Inductive file_ops : Type := memfs_file_ops.

Record vfs_node : Type := Node {
  n_name : text; n_inode : Z; n_mode : Z; n_size : Z;
  n_atime : Z; n_mtime : Z; n_ctime : Z;
  n_parent : Z; n_children : Z; n_next : Z;
  n_ops : option file_ops; n_private : Z;
}.

Record file_descriptor : Type := Fd {
  d_fd : Z; d_file_object : Z; d_flags : Z; d_mode : Z; d_offset : Z; d_next : Z;
}.

Record file_object : Type := FObj {
  f_inode : Z; f_mode : Z; f_size : Z; f_offset : Z;
  f_ops : option file_ops; f_private : Z;
}.

(** [s_mountpoint] and [s_root] are undetermined until the first mount. *)
Record filesystem : Type := Filesystem {
  s_name : text; s_mountpoint : option text; s_root : option Z; s_ops : Z; s_next : Z;
}.

Record stat : Type := Stat {
  st_mode : Z; st_size : Z; st_atime : Z; st_mtime : Z; st_ctime : Z;
}.

Definition n_with_name (v : text) (n : vfs_node) : vfs_node :=
  Node v (n_inode n) (n_mode n) (n_size n) (n_atime n) (n_mtime n) (n_ctime n)
       (n_parent n) (n_children n) (n_next n) (n_ops n) (n_private n).
Definition n_with_parent (v : Z) (n : vfs_node) : vfs_node :=
  Node (n_name n) (n_inode n) (n_mode n) (n_size n) (n_atime n) (n_mtime n) (n_ctime n)
       v (n_children n) (n_next n) (n_ops n) (n_private n).
Definition n_with_children (v : Z) (n : vfs_node) : vfs_node :=
  Node (n_name n) (n_inode n) (n_mode n) (n_size n) (n_atime n) (n_mtime n) (n_ctime n)
       (n_parent n) v (n_next n) (n_ops n) (n_private n).
Definition n_with_next (v : Z) (n : vfs_node) : vfs_node :=
  Node (n_name n) (n_inode n) (n_mode n) (n_size n) (n_atime n) (n_mtime n) (n_ctime n)
       (n_parent n) (n_children n) v (n_ops n) (n_private n).
Definition n_with_data (private size : Z) (n : vfs_node) : vfs_node :=
  Node (n_name n) (n_inode n) (n_mode n) size (n_atime n) (n_mtime n) (n_ctime n)
       (n_parent n) (n_children n) (n_next n) (n_ops n) private.

Section FileSystem.
Context {H : Type} `{KAlloc H}.

Record fs : Type := Fs {
  heap : H;
  nodes : gmap Z vfs_node;
  bufs : gmap Z (list (option Z));
  fds : gmap Z file_descriptor;
  objs : gmap Z file_object;
  systems : gmap Z filesystem;
  fd_table : list Z;
  filesystems : Z;
  vfs_root : Z;
  memfs_root : Z;
}.

Definition set_heap (v : H) (s : fs) : fs :=
  Fs v (nodes s) (bufs s) (fds s) (objs s) (systems s) (fd_table s) (filesystems s) (vfs_root s) (memfs_root s).
Definition set_nodes (v : gmap Z vfs_node) (s : fs) : fs :=
  Fs (heap s) v (bufs s) (fds s) (objs s) (systems s) (fd_table s) (filesystems s) (vfs_root s) (memfs_root s).
Definition set_bufs (v : gmap Z (list (option Z))) (s : fs) : fs :=
  Fs (heap s) (nodes s) v (fds s) (objs s) (systems s) (fd_table s) (filesystems s) (vfs_root s) (memfs_root s).
Definition set_fds (v : gmap Z file_descriptor) (s : fs) : fs :=
  Fs (heap s) (nodes s) (bufs s) v (objs s) (systems s) (fd_table s) (filesystems s) (vfs_root s) (memfs_root s).
Definition set_objs (v : gmap Z file_object) (s : fs) : fs :=
  Fs (heap s) (nodes s) (bufs s) (fds s) v (systems s) (fd_table s) (filesystems s) (vfs_root s) (memfs_root s).
Definition set_systems (v : gmap Z filesystem) (head : Z) (s : fs) : fs :=
  Fs (heap s) (nodes s) (bufs s) (fds s) (objs s) v (fd_table s) head (vfs_root s) (memfs_root s).
Definition set_fd_table (v : list Z) (s : fs) : fs :=
  Fs (heap s) (nodes s) (bufs s) (fds s) (objs s) (systems s) v (filesystems s) (vfs_root s) (memfs_root s).
Definition set_roots (root memfs : Z) (s : fs) : fs :=
  Fs (heap s) (nodes s) (bufs s) (fds s) (objs s) (systems s) (fd_table s) (filesystems s) root memfs.

(** ** Objects *)

Definition on_heap {A} (p : prog H A) : prog fs A :=
  fun s => match p (heap s) with
           | Ok (a, h) => Ok (a, set_heap h s)
           | Fault => Fault
           | Spin => Spin
           end.
Definition kmalloc (n : Z) : prog fs Z := on_heap (kmalloc_op n).
Definition kfree (p : Z) : prog fs unit := on_heap (kfree_op p).

Definition get_node (a : Z) : prog fs vfs_node := getf (fun s => nodes s !! a).
Definition put_node (a : Z) (n : vfs_node) : prog fs unit :=
  modify (fun s => set_nodes (<[a := n]> (nodes s)) s).
Definition upd_node (a : Z) (f : vfs_node -> vfs_node) : prog fs unit :=
  let* n := get_node a in put_node a (f n).
Definition get_buf (a : Z) : prog fs (list (option Z)) := getf (fun s => bufs s !! a).
Definition put_buf (a : Z) (l : list (option Z)) : prog fs unit :=
  modify (fun s => set_bufs (<[a := l]> (bufs s)) s).
Definition get_fd (a : Z) : prog fs file_descriptor := getf (fun s => fds s !! a).
Definition put_fd (a : Z) (d : file_descriptor) : prog fs unit :=
  modify (fun s => set_fds (<[a := d]> (fds s)) s).
Definition get_obj (a : Z) : prog fs file_object := getf (fun s => objs s !! a).
Definition put_obj (a : Z) (o : file_object) : prog fs unit :=
  modify (fun s => set_objs (<[a := o]> (objs s)) s).
Definition get_sys (a : Z) : prog fs filesystem := getf (fun s => systems s !! a).

(** [kfree] of an object: it must be there, and is gone afterwards. *)
Definition free_node (a : Z) : prog fs unit :=
  get_node a ;; kfree a ;; modify (fun s => set_nodes (delete a (nodes s)) s).
Definition free_buf (a : Z) : prog fs unit :=
  get_buf a ;; kfree a ;; modify (fun s => set_bufs (delete a (bufs s)) s).
Definition free_fd (a : Z) : prog fs unit :=
  get_fd a ;; kfree a ;; modify (fun s => set_fds (delete a (fds s)) s).
Definition free_obj (a : Z) : prog fs unit :=
  get_obj a ;; kfree a ;; modify (fun s => set_objs (delete a (objs s)) s).

(** [kmalloc] of a data buffer: its bytes are undetermined. *)
Definition alloc_buf (n : Z) : prog fs Z :=
  let* p := kmalloc n in
  (if negb (p =? 0) then put_buf p (replicate (Z.to_nat n) None) else ret tt) ;;
  ret p.

(** [memcpy(buf + offset, bytes, ...)] and [memcpy(.., buf + offset, count)] on
    a buffer; out of its bounds they fault. *)
Definition buf_store (a offset : Z) (l : list (option Z)) : prog fs unit :=
  match l with
  | [] => ret tt
  | _ =>
      let* b := get_buf a in
      if offset + Z.of_nat (length l) <=? Z.of_nat (length b)
      then put_buf a (take (Z.to_nat offset) b ++ l ++ drop (Z.to_nat offset + length l) b)
      else fault
  end.
Definition buf_load (a offset count : Z) : prog fs (list (option Z)) :=
  if count =? 0 then ret []
  else
    let* b := get_buf a in
    if offset + count <=? Z.of_nat (length b)
    then ret (take (Z.to_nat count) (drop (Z.to_nat offset) b))
    else fault.

(** [panic] stops the kernel. *)
Definition panic {A} : prog fs A := fault.

(** ** Nodes *)

Definition vfs_create_node (name : text) (mode : Z) (ops : option file_ops) : prog fs Z :=
  let* node := kmalloc sizeof_vfs_node in
  if node =? 0 then ret 0
  else
    put_node node (Node (take 255 name) 0 mode 0 0 0 0 0 0 0 ops 0) ;;
    ret node.

(** The recursion follows the tree: [fuel] bounds its depth, which is at most
    the number of nodes. *)
Fixpoint vfs_destroy_node (fuel : nat) (node : Z) : prog fs unit :=
  match fuel with
  | O => spin
  | S fuel =>
      if node =? 0 then ret tt
      else
        let* n := get_node node in
        (if negb (n_private n =? 0) then free_buf (n_private n) else ret tt) ;;
        let* n := get_node node in
        loop (fun child =>
          if negb (child =? 0) then
            let* c := get_node child in
            let next := n_next c in
            vfs_destroy_node fuel child ;;
            ret (Next next)
          else ret (Done tt)) (n_children n) ;;
        free_node node
  end.

Definition destroy_fuel : prog fs nat := gets (fun s => S (size (nodes s))).

Definition vfs_add_child (parent child : Z) : prog fs Z :=
  if (parent =? 0) || (child =? 0) then ret 0
  else
    upd_node child (n_with_parent parent) ;;
    let* p := get_node parent in
    upd_node child (n_with_next (n_children p)) ;;
    upd_node parent (n_with_children child) ;;
    ret child.

Definition vfs_find_child (parent : Z) (name : text) : prog fs Z :=
  if parent =? 0 then ret 0
  else
    let* p := get_node parent in
    loop (fun child =>
      if negb (child =? 0) then
        let* c := get_node child in
        if decide (n_name c = name) then ret (Done child)
        else ret (Next (n_next c))
      else ret (Done 0)) (n_children p).

Definition vfs_remove_child (parent : Z) (name : text) : prog fs Z :=
  if parent =? 0 then ret (-1)
  else
    let* p := get_node parent in
    loop (fun '(prev, child) =>
      if negb (child =? 0) then
        let* c := get_node child in
        if decide (n_name c = name) then
          (if negb (prev =? 0) then upd_node prev (n_with_next (n_next c))
           else upd_node parent (n_with_children (n_next c))) ;;
          let* fuel := destroy_fuel in
          vfs_destroy_node fuel child ;;
          ret (Done 0)
        else ret (Next (child, n_next c))
      else ret (Done (-1))) (0, n_children p).

(** ** Paths *)

(** [strtok] on the text it works on, or on the one it kept: the token, and
    what it keeps. *)
Definition strtok_slash (s : option text) : option text * option text :=
  match s with
  | None => (None, None)
  | Some l =>
      match next_token [47] l with
      | None => (None, None)
      | Some (_, tok, rest) => (Some tok, rest)
      end
  end.

Definition fs_lookup (path : option text) : prog fs Z :=
  match path with
  | Some ((47 :: _) as path) =>
      let* current := gets vfs_root in
      let path_copy := take 511 path in
      let '(token, save) := strtok_slash (Some path_copy) in
      loop (fun '(token, save, current) =>
        match token with
        | Some tok =>
            if negb (current =? 0) then
              if decide (tok = []) then
                let '(token, save) := strtok_slash save in
                ret (Next (token, save, current))
              else
                let* current := vfs_find_child current tok in
                let '(token, save) := strtok_slash save in
                ret (Next (token, save, current))
            else ret (Done current)
        | None => ret (Done current)
        end) (token, save, current)
  | _ => ret 0
  end.

(** [strrchr(path, '/')]: the position of the last slash. *)
Fixpoint last_slash (l : text) : option nat :=
  match l with
  | [] => None
  | b :: l =>
      match last_slash l with
      | Some i => Some (S i)
      | None => if b =? 47 then Some 0%nat else None
      end
  end.

Definition is_dir (n : vfs_node) : bool := negb (Z.land (n_mode n) S_IFDIR =? 0).

Definition fs_create (path : option text) (mode : Z) : prog fs Z :=
  match path with
  | Some ((47 :: _) as path) =>
      let path_copy := take 511 path in
      match last_slash path_copy with
      | None | Some O => ret 0
      | Some i =>
          let dir_part := take i path_copy in
          let filename := drop (S i) path_copy in
          let* parent := fs_lookup (Some dir_part) in
          let* ok := (if parent =? 0 then ret false
                      else let* p := get_node parent in ret (is_dir p)) in
          if negb ok then ret 0
          else
            let* node := vfs_create_node filename mode (Some memfs_file_ops) in
            if node =? 0 then ret 0
            else
              let* added := vfs_add_child parent node in
              if added =? 0 then
                let* fuel := destroy_fuel in
                vfs_destroy_node fuel node ;;
                ret 0
              else ret node
      end
  | _ => ret 0
  end.

Definition fs_unlink (path : option text) : prog fs Z :=
  let* node := fs_lookup path in
  let* bad := (if node =? 0 then ret true else let* n := get_node node in ret (is_dir n)) in
  if (bad : bool) then ret (-1) else ret 0.

Definition fs_mkdir (path : option text) (mode : Z) : prog fs Z :=
  let* node := fs_create path (Z.lor S_IFDIR (Z.land mode 511)) in
  ret (if negb (node =? 0) then 0 else -1).

Definition fs_rmdir (path : option text) : prog fs Z :=
  let* node := fs_lookup path in
  let* bad := (if node =? 0 then ret true else let* n := get_node node in ret (negb (is_dir n))) in
  if (bad : bool) then ret (-1)
  else
    let* n := get_node node in
    if negb (n_children n =? 0) then ret (-1) else ret 0.

(** ** Initialisation and mounting *)

(** A C string literal with its terminator, and its length. *)
Definition literal (l : text) : list (option Z) := map Some (l ++ [0]).

Definition hello_text : text :=
  [72;101;108;108;111;44;32;87;111;114;108;100;33;10;
   84;104;105;115;32;105;115;32;97;32;116;101;115;116;32;102;105;108;101;46;10].
Definition nested_text : text := [78;101;115;116;101;100;32;102;105;108;101;10].

Definition fs_init : prog fs unit :=
  modify (set_fd_table (replicate MAX_FDS 0)) ;;
  let ops := Some memfs_file_ops in
  let* root := vfs_create_node [47] (Z.lor S_IFDIR 493) ops in
  modify (fun s => set_roots root (memfs_root s) s) ;;
  (if root =? 0 then panic else ret tt) ;;
  let* memfs := vfs_create_node [109;101;109;102;115] (Z.lor S_IFDIR 493) ops in
  modify (fun s => set_roots (vfs_root s) memfs s) ;;
  (if memfs =? 0 then panic else ret tt) ;;
  vfs_add_child root memfs ;;
  let* hello_file := vfs_create_node [104;101;108;108;111;46;116;120;116] (Z.lor S_IFREG 420) ops in
  (if negb (hello_file =? 0) then
     let* content := alloc_buf 32 in
     buf_store content 0 (literal hello_text) ;;
     upd_node hello_file (n_with_data content (Z.of_nat (length hello_text))) ;;
     vfs_add_child memfs hello_file ;; ret tt
   else ret tt) ;;
  let* test_dir := vfs_create_node [116;101;115;116] (Z.lor S_IFDIR 493) ops in
  (if negb (test_dir =? 0) then
     vfs_add_child memfs test_dir ;;
     let* nested_file := vfs_create_node [110;101;115;116;101;100;46;116;120;116] (Z.lor S_IFREG 420) ops in
     (if negb (nested_file =? 0) then
        let* content := alloc_buf 16 in
        buf_store content 0 (literal nested_text) ;;
        upd_node nested_file (n_with_data content (Z.of_nat (length nested_text))) ;;
        vfs_add_child test_dir nested_file ;; ret tt
      else ret tt)
   else ret tt).

Definition fs_register_filesystem (name : text) (ops : Z) : prog fs Z :=
  let* p := kmalloc sizeof_filesystem in
  if p =? 0 then ret (-1)
  else
    modify (fun s => set_systems (<[p := Filesystem (take 31 name) None None ops (filesystems s)]> (systems s)) p s) ;;
    ret 0.

Section Mount.
(** The functions a registered file system brings along: [mount], and
    [unmount] where it has one. *)
Context (mount : Z -> option text -> text -> prog fs Z).
Context (unmount : Z -> option (text -> prog fs Z)).

Definition fs_mount (fs_name : text) (device : option text) (mountpoint : text) : prog fs Z :=
  let* first := gets filesystems in
  let* p := loop (fun p =>
    if negb (p =? 0) then
      let* f := get_sys p in
      if decide (s_name f = fs_name) then ret (Done p) else ret (Next (s_next f))
    else ret (Done 0)) first in
  if p =? 0 then ret (-1)
  else
    let* f := get_sys p in
    let* mount_node := mount (s_ops f) device mountpoint in
    if mount_node =? 0 then ret (-1)
    else
      let* f := get_sys p in
      modify (fun s => set_systems
        (<[p := Filesystem (s_name f) (Some (take 255 mountpoint)) (Some mount_node) (s_ops f) (s_next f)]> (systems s))
        (filesystems s) s) ;;
      ret 0.

Definition fs_unmount (mountpoint : text) : prog fs Z :=
  let* first := gets filesystems in
  loop (fun p =>
    if negb (p =? 0) then
      let* f := get_sys p in
      let* here := match s_mountpoint f with
                   | Some m => ret (bool_decide (m = mountpoint))
                   | None => fault
                   end in
      if (here : bool) then
        (match unmount (s_ops f) with
         | Some u => u mountpoint ;; ret tt
         | None => ret tt
         end) ;;
        let* f := get_sys p in
        modify (fun s => set_systems
          (<[p := Filesystem (s_name f) (Some []) (Some 0) (s_ops f) (s_next f)]> (systems s)) (filesystems s) s) ;;
        ret (Done 0)
      else ret (Next (s_next f))
    else ret (Done (-1))) first.
End Mount.

(** ** File descriptors *)

Definition fd_alloc : prog fs Z :=
  loop (fun i =>
    if i <? 256 then
      let* p := getf (fun s => fd_table s !! Z.to_nat i) in
      if p =? 0 then
        let* fd := kmalloc sizeof_file_descriptor in
        if fd =? 0 then ret (Done (-1))
        else
          put_fd fd (Fd i 0 0 0 0 0) ;;
          modify (fun s => set_fd_table (<[Z.to_nat i := fd]> (fd_table s)) s) ;;
          ret (Done i)
      else ret (Next (i + 1))
    else ret (Done (-1))) 0.

Definition fd_free (fd : Z) : prog fs unit :=
  if (0 <=? fd) && (fd <? 256) then
    let* p := getf (fun s => fd_table s !! Z.to_nat fd) in
    if negb (p =? 0) then
      free_fd p ;;
      modify (fun s => set_fd_table (<[Z.to_nat fd := 0]> (fd_table s)) s)
    else ret tt
  else ret tt.

Definition fd_get (fd : Z) : prog fs Z :=
  if (0 <=? fd) && (fd <? 256) then getf (fun s => fd_table s !! Z.to_nat fd) else ret 0.

Definition fd_set_entry (fd file_object flags mode : Z) : prog fs Z :=
  let* fd_entry := fd_get fd in
  if fd_entry =? 0 then ret (-1)
  else
    let* d := get_fd fd_entry in
    put_fd fd_entry (Fd (d_fd d) file_object flags mode 0 (d_next d)) ;;
    ret 0.

(** ** In-memory files *)

(** The result and, when it is not negative, the bytes copied out. *)
Definition memfs_read (node count offset : Z) : prog fs (Z * list (option Z)) :=
  let* empty := (if node =? 0 then ret true else let* n := get_node node in ret (n_private n =? 0)) in
  if (empty : bool) then ret (-1, [])
  else
    let* n := get_node node in
    let data := n_private n in
    let data_size := n_size n in
    if data_size <=? offset then ret (0, [])
    else
      let to_read := if data_size <? u64 (offset + count) then data_size - offset else count in
      let* bytes := buf_load data offset to_read in
      ret (s32 to_read, bytes).

(** [buf] is the memory the caller passes: [count] bytes are read from it. *)
Definition memfs_write (node : Z) (buf : text) (count offset : Z) : prog fs Z :=
  if node =? 0 then ret (-1)
  else
    let* n := get_node node in
    let data := n_private n in
    let new_size := u64 (offset + count) in
    let* grown :=
      if n_size n <? new_size then
        let* new_data := alloc_buf new_size in
        if new_data =? 0 then ret None
        else
          (if negb (data =? 0) then
             let* old := buf_load data 0 (n_size n) in
             buf_store new_data 0 old ;;
             free_buf data
           else ret tt) ;;
          upd_node node (n_with_data new_data new_size) ;;
          ret (Some new_data)
      else ret (Some data) in
    match grown with
    | None => ret (-1)
    | Some data =>
        (if count <=? Z.of_nat (length buf)
         then buf_store data offset (map Some (take (Z.to_nat count) buf))
         else fault) ;;
        ret (s32 count)
    end.

Definition memfs_ioctl (file_object request arg : Z) : prog fs Z := ret (-1).
Definition memfs_close (file_object : Z) : prog fs Z := ret 0.

(** The calls through [file_obj->ops]. *)
Definition ops_read (ops : file_ops) := match ops with memfs_file_ops => memfs_read end.
Definition ops_write (ops : file_ops) := match ops with memfs_file_ops => memfs_write end.
Definition ops_close (ops : file_ops) := match ops with memfs_file_ops => memfs_close end.

(** ** System calls *)

Definition syscall_open (pathname : option text) (flags mode : Z) : prog fs Z :=
  match pathname with
  | None => ret (-1)
  | Some _ =>
      let* node := fs_lookup pathname in
      let* node := (if (node =? 0) && negb (Z.land flags O_CREAT =? 0)
                    then fs_create pathname (Z.lor S_IFREG (Z.land mode 511)) else ret node) in
      if node =? 0 then ret (-1)
      else
        let* n := get_node node in
        if is_dir n then ret (-1)
        else
          (if negb (Z.land flags O_TRUNC =? 0) && negb (n_private n =? 0) then
             free_buf (n_private n) ;;
             upd_node node (n_with_data 0 0)
           else ret tt) ;;
          let* fd := fd_alloc in
          if fd <? 0 then ret (-1)
          else
            let* file_obj := kmalloc sizeof_file_object in
            if file_obj =? 0 then fd_free fd ;; ret (-1)
            else
              let* n := get_node node in
              put_obj file_obj (FObj (n_inode n) (n_mode n) (n_size n) 0 (n_ops n) node) ;;
              let* r := fd_set_entry fd file_obj flags mode in
              if r <? 0 then free_obj file_obj ;; fd_free fd ;; ret (-1)
              else ret fd
  end.

Definition syscall_close (fd : Z) : prog fs Z :=
  let* fd_entry := fd_get fd in
  if fd_entry =? 0 then ret (-1)
  else
    let* d := get_fd fd_entry in
    (if negb (d_file_object d =? 0) then
       let* o := get_obj (d_file_object d) in
       (match f_ops o with
        | Some ops => ops_close ops (f_private o) ;; ret tt
        | None => ret tt
        end) ;;
       free_obj (d_file_object d)
     else ret tt) ;;
    fd_free fd ;;
    ret 0.

(** The descriptor and its file object, when both are there. *)
Definition open_file (fd : Z) : prog fs (option (Z * Z)) :=
  let* fd_entry := fd_get fd in
  if fd_entry =? 0 then ret None
  else
    let* d := get_fd fd_entry in
    if d_file_object d =? 0 then ret None else ret (Some (fd_entry, d_file_object d)).

(** [file_obj->offset = v; fd_entry->offset = v;] with [file_obj->size]. *)
Definition set_offset (fd_entry file_obj offset size : Z) : prog fs unit :=
  let* o := get_obj file_obj in
  put_obj file_obj (FObj (f_inode o) (f_mode o) size offset (f_ops o) (f_private o)) ;;
  let* d := get_fd fd_entry in
  put_fd fd_entry (Fd (d_fd d) (d_file_object d) (d_flags d) (d_mode d) offset (d_next d)).

Definition syscall_read (fd count : Z) : prog fs (Z * list (option Z)) :=
  let* f := open_file fd in
  match f with
  | None => ret (-1, [])
  | Some (fd_entry, file_obj) =>
      let* o := get_obj file_obj in
      match f_ops o with
      | None => ret (-1, [])
      | Some ops =>
          let* (result, bytes) := ops_read ops (f_private o) count (f_offset o) in
          (if 0 <? result then
             let* o := get_obj file_obj in
             set_offset fd_entry file_obj (u64 (f_offset o + result)) (f_size o)
           else ret tt) ;;
          ret (result, bytes)
      end
  end.

Definition syscall_write (fd : Z) (buf : text) (count : Z) : prog fs Z :=
  let* f := open_file fd in
  match f with
  | None => ret (-1)
  | Some (fd_entry, file_obj) =>
      let* o := get_obj file_obj in
      match f_ops o with
      | None => ret (-1)
      | Some ops =>
          let* result := ops_write ops (f_private o) buf count (f_offset o) in
          (if 0 <? result then
             let* o := get_obj file_obj in
             set_offset fd_entry file_obj (u64 (f_offset o + result)) (u64 (f_offset o + result))
           else ret tt) ;;
          ret result
      end
  end.

Definition syscall_lseek (fd offset whence : Z) : prog fs Z :=
  let* f := open_file fd in
  match f with
  | None => ret (-1)
  | Some (fd_entry, file_obj) =>
      let* o := get_obj file_obj in
      let target := if whence =? SEEK_SET then Some (u64 offset)
                    else if whence =? SEEK_CUR then Some (u64 (f_offset o + offset))
                    else if whence =? SEEK_END then Some (u64 (f_size o + offset))
                    else None in
      match target with
      | None => ret (-1)
      | Some new_offset =>
          let* extended :=
            match f_ops o with
            | Some ops =>
                if f_size o <? new_offset then
                  loop (fun _ =>
                    let* o := get_obj file_obj in
                    if f_offset o <? new_offset then
                      let* r := ops_write ops (f_private o) [0] 1 (f_offset o) in
                      if negb (r =? 1) then ret (Done false)
                      else
                        let* o := get_obj file_obj in
                        put_obj file_obj (FObj (f_inode o) (f_mode o) (f_size o)
                          (u64 (f_offset o + 1)) (f_ops o) (f_private o)) ;;
                        ret (Next tt)
                    else ret (Done true)) tt
                else ret true
            | None => ret true
            end in
          if negb extended then ret (-1)
          else
            let* o := get_obj file_obj in
            set_offset fd_entry file_obj new_offset (f_size o) ;;
            ret (s64 new_offset)
      end
  end.

(** The result and what is stored in [*statbuf]. *)
Definition syscall_stat (pathname : option text) (statbuf : Z) : prog fs (Z * option stat) :=
  match pathname with
  | None => ret (-1, None)
  | Some _ =>
      if statbuf =? 0 then ret (-1, None)
      else
        let* node := fs_lookup pathname in
        if node =? 0 then ret (-1, None)
        else
          let* n := get_node node in
          ret (0, Some (Stat (n_mode n) (n_size n) (n_atime n) (n_mtime n) (n_ctime n)))
  end.

End FileSystem.
Arguments fs H : clear implicits.
