(* ===== verification/FsProofs.v ===== *)
(** * The virtual file system: specifications and proofs

    [Fs] is proved against the allocator interface: every lemma holds for any
    [KAlloc] with the laws its section assumes. *)

From S2P Require Import Prelude CMem CStr Alloc SimpleMm Fs.

(** Writes to the stores. *)
Ltac fs_steps :=
  repeat first [ wp_step
               | lazymatch goal with
                 | |- wp (put_buf _ _) _ _ => unfold put_buf
                 | |- wp (put_node _ _) _ _ => unfold put_node
                 | |- wp (put_fd _ _) _ _ => unfold put_fd
                 | |- wp (put_obj _ _) _ _ => unfold put_obj
                 end ].

Section FsLemmas.
Context {H : Type} {KA : KAlloc H} {KL : KAllocLaws H} {KF : KFreeLaws H}.
Implicit Types (s : fs H).

(** ** Ownership *)

(** The addresses of all objects. *)
Definition addresses (s : fs H) : gset Z :=
  dom (nodes s) ∪ dom (bufs s) ∪ dom (fds s) ∪ dom (objs s) ∪ dom (systems s).

(** No address is in two stores. *)
Definition stores_apart (s : fs H) : Prop :=
  dom (nodes s) ## dom (bufs s) /\
  dom (nodes s) ∪ dom (bufs s) ## dom (fds s) /\
  dom (nodes s) ∪ dom (bufs s) ∪ dom (fds s) ## dom (objs s) /\
  dom (nodes s) ∪ dom (bufs s) ∪ dom (fds s) ∪ dom (objs s) ## dom (systems s).

(** The allocator knows the objects, and the blocks [R] besides. *)
Definition holds (s : fs H) (R : gset Z) : Prop :=
  stores_apart s /\
  exists L, owned (heap s) L /\ addresses s ∪ R ⊆ L /\ addresses s ## R.

Lemma wp_on_heap {A} (p : prog H A) Q s :
  wp p (fun a h => Q a (set_heap h s)) (heap s) -> wp (on_heap p) Q s.
Proof using Type. unfold wp, on_heap. by destruct (p (heap s)) as [[a h]| |]. Qed.

Lemma wp_fs_kmalloc s n R (Q : Z -> fs H -> Prop) :
  holds s R -> 0 < n < 2 ^ 31 ->
  (forall h, holds (set_heap h s) R -> Q 0 (set_heap h s)) ->
  (forall p h, 0 < p -> p ∉ addresses s -> holds (set_heap h s) ({[p]} ∪ R) -> Q p (set_heap h s)) ->
  wp (kmalloc n) Q s.
Proof using Type.
  intros (Hap & L & HL & Hsub & Hdis) Hn H0 H1. apply wp_on_heap. eapply wp_mono; [by apply (kmalloc_law (heap s) L n)|].
  intros p h [[-> Hh]|(Hp & Hnew & Hh)].
  - apply H0. split; [done|]. exists L. done.
  - apply H1; [done|set_solver|]. split; [done|]. exists ({[p]} ∪ L). cbn [heap set_heap].
    change (addresses (set_heap h s)) with (addresses s). split; [done|]. set_solver.
Qed.

Lemma wp_fs_kfree s p R (Q : unit -> fs H -> Prop) :
  holds s R -> p ∈ addresses s ∪ R ->
  (forall h L, owned h (L ∖ {[p]}) -> addresses s ∪ R ⊆ L -> addresses s ## R ->
     Q tt (set_heap h s)) ->
  wp (kfree p) Q s.
Proof using KF.
  intros (_ & L & HL & Hsub & Hdis) Hp HQ. apply wp_on_heap.
  eapply wp_mono; [apply (kfree_law (heap s) L p); [done|set_solver]|].
  intros [] h Hh. by apply (HQ h L).
Qed.

Lemma wp_get_node s a n (Q : vfs_node -> fs H -> Prop) :
  nodes s !! a = Some n -> Q n s -> wp (get_node a) Q s.
Proof using Type. intros. by apply wp_getf with n. Qed.

Lemma wp_get_buf s a b (Q : list (option Z) -> fs H -> Prop) :
  bufs s !! a = Some b -> Q b s -> wp (get_buf a) Q s.
Proof using Type. intros. by apply wp_getf with b. Qed.

Lemma wp_get_fd s a d (Q : file_descriptor -> fs H -> Prop) :
  fds s !! a = Some d -> Q d s -> wp (get_fd a) Q s.
Proof using Type. intros. by apply wp_getf with d. Qed.

Lemma wp_get_obj s a o (Q : file_object -> fs H -> Prop) :
  objs s !! a = Some o -> Q o s -> wp (get_obj a) Q s.
Proof using Type. intros. by apply wp_getf with o. Qed.

(** ** In-memory files *)

(** The node at [a] is a file with the bytes [content]. *)
Definition file (s : fs H) (a : Z) (n : vfs_node) (content : list (option Z)) : Prop :=
  nodes s !! a = Some n /\ n_size n = Z.of_nat (length content) /\ a <> 0 /\
  (n_private n = 0 /\ content = [] \/ n_private n <> 0 /\ bufs s !! n_private n = Some content).

(** [content] with [new] written at [offset]; bytes in a hole are undetermined. *)
Definition overwrite (content : list (option Z)) (offset : nat) (new : list (option Z)) : list (option Z) :=
  resize offset None content ++ new ++ drop (offset + length new) content.

Lemma memfs_read_ok s a n content count offset :
  file s a n content -> 0 <= offset -> 0 <= count -> offset + count < 2 ^ 64 ->
  Z.of_nat (length content) < 2 ^ 31 ->
  memfs_read a count offset s =
    Ok (if n_private n =? 0 then (-1, [])
        else let bytes := take (Z.to_nat count) (drop (Z.to_nat offset) content) in
             (Z.of_nat (length bytes), bytes), s).
Proof using Type.
  intros (Hn & Hs & Ha & Hc) Ho Hco Hoc Hlen. apply wp_det. unfold memfs_read.
  rewrite (proj2 (Z.eqb_neq a 0)) by done. do 2 wp_step. apply (wp_get_node _ _ n); [done|].
  wp_step. destruct (Z.eqb_spec (n_private n) 0) as [Hp|Hp]; [by wp_step|].
  destruct Hc as [[? _]|[_ Hb]]; [done|].
  wp_step. apply (wp_get_node _ _ n); [done|]. cbv beta zeta. rewrite Hs.
  destruct (Z.leb_spec (Z.of_nat (length content)) offset) as [Heof|Hin].
  { wp_step. rewrite drop_ge, take_nil by lia. done. }
  rewrite (wrap_small 64 (offset + count)) by lia.
  set (k := if Z.of_nat (length content) <? offset + count
            then Z.of_nat (length content) - offset else count).
  assert (k = Z.min count (Z.of_nat (length content) - offset)) as Hk
    by (unfold k; destruct (Z.ltb_spec (Z.of_nat (length content)) (offset + count)); lia).
  clearbody k. wp_step. unfold buf_load.
  assert (take (Z.to_nat k) (drop (Z.to_nat offset) content) =
          take (Z.to_nat count) (drop (Z.to_nat offset) content)) as Et.
  { destruct (decide (k = count)) as [->|]; [done|].
    rewrite !take_ge by (rewrite length_drop; lia). done. }
  assert (Z.of_nat (length (take (Z.to_nat count) (drop (Z.to_nat offset) content))) = k) as El
    by (rewrite length_take, length_drop; lia).
  destruct (Z.eqb_spec k 0) as [Hk0|Hk0].
  - wp_steps. replace count with 0 by lia. cbn [Z.to_nat take length]. rewrite Hk0. done.
  - wp_step. apply (wp_get_buf _ _ content); [done|].
    rewrite (proj2 (Z.leb_le (offset + k) _)) by lia. wp_steps.
    rewrite swrap_small by lia. rewrite Et, El. done.
Qed.

(** [memfs_read] returns the bytes of the file from the offset on, at
    most [count] and none past the end, and changes nothing; a file without a
    buffer is an error. *)
Theorem memfs_read_correct s a n content count offset :
  file s a n content -> 0 <= offset -> 0 <= count -> offset + count < 2 ^ 64 ->
  Z.of_nat (length content) < 2 ^ 31 ->
  memfs_read a count offset s =
    Ok (if n_private n =? 0 then (-1, [])
        else let bytes := take (Z.to_nat count) (drop (Z.to_nat offset) content) in
             (Z.of_nat (length bytes), bytes), s).
Proof using Type. apply memfs_read_ok. Qed.

(** ** Writing *)

Definition splice (b : list (option Z)) (offset : Z) (l : list (option Z)) : list (option Z) :=
  take (Z.to_nat offset) b ++ l ++ drop (Z.to_nat offset + length l) b.

Definition with_buf (p : Z) (b : list (option Z)) (s : fs H) : fs H := set_bufs (<[p := b]> (bufs s)) s.

Lemma wp_buf_store s p offset l b (Q : unit -> fs H -> Prop) :
  bufs s !! p = Some b -> 0 <= offset -> offset + Z.of_nat (length l) <= Z.of_nat (length b) ->
  Q tt (with_buf p (splice b offset l) s) -> wp (buf_store p offset l) Q s.
Proof using Type.
  intros Hp Ho Hl HQ. unfold buf_store. destruct l as [|x l].
  - wp_step. unfold with_buf, splice in HQ. cbn [length app] in HQ.
    rewrite Nat.add_0_r, take_drop, insert_id in HQ by done. by destruct s.
  - wp_step. apply (wp_get_buf _ _ b); [done|]. rewrite (proj2 (Z.leb_le _ _)) by lia. fs_steps. done.
Qed.

Lemma wp_buf_load s p offset count b (Q : list (option Z) -> fs H -> Prop) :
  bufs s !! p = Some b -> 0 <= offset -> 0 <= count -> offset + count <= Z.of_nat (length b) ->
  Q (take (Z.to_nat count) (drop (Z.to_nat offset) b)) s -> wp (buf_load p offset count) Q s.
Proof using Type.
  intros Hp Ho Hc Hl HQ. unfold buf_load. destruct (Z.eqb_spec count 0) as [->|].
  - by wp_step.
  - wp_step. apply (wp_get_buf _ _ b); [done|]. rewrite (proj2 (Z.leb_le _ _)) by lia. by wp_step.
Qed.

(** Giving back the buffer [p]. *)
Lemma wp_free_buf s p c (Q : unit -> fs H -> Prop) :
  holds s ∅ -> bufs s !! p = Some c ->
  (forall h, let s' := set_bufs (delete p (bufs s)) (set_heap h s) in holds s' ∅ -> Q tt s') ->
  wp (free_buf p) Q s.
Proof using KF.
  intros Hh Hp HQ. pose proof (elem_of_dom_2 _ _ _ Hp) as Hd. unfold free_buf. wp_step.
  apply (wp_get_buf _ _ c); [done|]. wp_step.
  apply (wp_fs_kfree s p ∅); [done|unfold addresses; set_solver|]. intros h L HL Hsub _. wp_step.
  apply HQ. destruct Hh as [(A1 & A2 & A3 & A4) _]. split.
  - unfold stores_apart. cbn. rewrite dom_delete_L. set_solver.
  - exists (L ∖ {[p]}). split; [done|]. unfold addresses in *. cbn. rewrite dom_delete_L. set_solver.
Qed.

(** A new buffer, when there is memory for it. *)
Lemma wp_alloc_buf s n (Q : Z -> fs H -> Prop) :
  holds s ∅ -> 0 < n < 2 ^ 31 ->
  (forall h, holds (set_heap h s) ∅ -> Q 0 (set_heap h s)) ->
  (forall p h, 0 < p -> p ∉ addresses s ->
     let s' := with_buf p (replicate (Z.to_nat n) None) (set_heap h s) in holds s' ∅ -> Q p s') ->
  wp (alloc_buf n) Q s.
Proof using Type.
  intros Hh Hn H0 H1. unfold alloc_buf. wp_step. apply (wp_fs_kmalloc s n ∅); [done|done| |].
  { intros h Hh'. wp_steps. by apply H0. }
  intros p h Hp Hnew Hh'. rewrite (proj2 (Z.eqb_neq p 0)) by lia. cbn [negb]. fs_steps.
  apply H1; [done|done|]. destruct Hh' as ((A1 & A2 & A3 & A4) & L & HL & Hsub & Hdis). split.
  - unfold stores_apart in *. unfold addresses in *. cbn in *. rewrite dom_insert_L. set_solver.
  - exists L. split; [done|]. unfold addresses in *. cbn in *. rewrite dom_insert_L. set_solver.
Qed.

Lemma holds_upd_node s a n n' R :
  nodes s !! a = Some n -> holds s R -> holds (set_nodes (<[a := n']> (nodes s)) s) R.
Proof using Type.
  intros Ha (Hap & L & HL & Hsub). unfold holds, stores_apart, addresses in *. cbn.
  rewrite dom_insert_lookup_L by (by eexists). eauto.
Qed.

Lemma holds_upd_buf s p c c' R : bufs s !! p = Some c -> holds s R -> holds (with_buf p c' s) R.
Proof using Type.
  intros Ha (Hap & L & HL & Hsub). unfold holds, stores_apart, addresses in *. cbn.
  rewrite dom_insert_lookup_L by (by eexists). eauto.
Qed.

(** The part of the state a write to a file leaves alone. *)
Definition same_else (s s' : fs H) : Prop :=
  fds s' = fds s /\ objs s' = objs s /\ systems s' = systems s /\ fd_table s' = fd_table s /\
  filesystems s' = filesystems s /\ vfs_root s' = vfs_root s /\ memfs_root s' = memfs_root s.

Lemma same_else_refl s : same_else s s.
Proof using Type. done. Qed.

Record write_post (s : fs H) (a : Z) (n : vfs_node) (content' : list (option Z)) (s' : fs H) : Prop := {
  wr_file : exists p, file s' a (n_with_data p (Z.of_nat (length content')) n) content';
  wr_nodes : forall b, b <> a -> nodes s' !! b = nodes s !! b;
  wr_bufs : forall p c, p <> n_private n -> bufs s !! p = Some c -> bufs s' !! p = Some c;
  wr_else : same_else s s';
  wr_holds : holds s' ∅;
}.

Lemma resize_splice (content : list (option Z)) (offset : nat) new (size : nat) :
  (length content <= size)%nat -> (offset + length new = size)%nat ->
  splice (splice (replicate size None) 0 content) (Z.of_nat offset) new =
  overwrite content offset new.
Proof using Type.
  intros Hc Hn. unfold splice, overwrite. change (Z.to_nat 0) with 0%nat. rewrite take_0, Nat2Z.id, Nat.add_0_l, app_nil_l.
  assert (content ++ drop (length content) (replicate size None) = resize size None content) as ->.
  { rewrite resize_ge by lia. by rewrite drop_replicate. }
  rewrite take_resize, Nat.min_l by lia. rewrite !drop_ge; [done|lia|rewrite length_resize; lia].
Qed.

Lemma splice_inside (content : list (option Z)) (offset : nat) new :
  (offset + length new <= length content)%nat ->
  splice content (Z.of_nat offset) new = overwrite content offset new.
Proof using Type.
  intros Hl. unfold splice, overwrite. rewrite Nat2Z.id. by rewrite resize_le by lia.
Qed.

Lemma length_overwrite content offset new :
  length (overwrite content offset new) = Nat.max (offset + length new) (length content).
Proof using Type. unfold overwrite. rewrite !length_app, length_resize, length_drop. lia. Qed.

(** Moving the contents into a larger buffer. *)
Lemma wp_grow s a n content size (Q : option Z -> fs H -> Prop) :
  file s a n content -> holds s ∅ -> Z.of_nat (length content) < size < 2 ^ 31 ->
  (forall h, holds (set_heap h s) ∅ -> Q None (set_heap h s)) ->
  (forall p s', 0 < p -> nodes s' = <[a := n_with_data p size n]> (nodes s) ->
     bufs s' !! p = Some (splice (replicate (Z.to_nat size) None) 0 content) ->
     (forall q c, q <> n_private n -> bufs s !! q = Some c -> q <> p /\ bufs s' !! q = Some c) ->
     same_else s s' -> holds s' ∅ -> Q (Some p) s') ->
  wp (let* new_data := alloc_buf size in
      if new_data =? 0 then ret None
      else
        (if negb (n_private n =? 0) then
           let* old := buf_load (n_private n) 0 (n_size n) in
           buf_store new_data 0 old ;;
           free_buf (n_private n)
         else ret tt) ;;
        upd_node a (n_with_data new_data size) ;;
        ret (Some new_data)) Q s.
Proof using KF.
  intros (Hn & Hs & Ha & Hc) Hh Hsz H0 H1. wp_step. apply wp_alloc_buf; [done|lia| |].
  { intros h Hh'. wp_steps. by apply H0. }
  intros p h Hp Hnew s1 Hh1. rewrite (proj2 (Z.eqb_neq p 0)) by lia.
  assert (nodes s1 !! a = Some n) as Hn1 by done.
  assert (forall q c, bufs s !! q = Some c -> q <> p) as Hfresh.
  { intros q c Hqc ->. apply Hnew. unfold addresses. apply elem_of_dom_2 in Hqc. set_solver. }
  destruct Hc as [[Hp0 ->]|[Hp0 Hb]].
  - rewrite Hp0. cbn [Z.eqb negb]. do 2 wp_step. unfold upd_node. do 2 wp_step.
    apply (wp_get_node _ _ n); [done|]. fs_steps.
    apply H1; [done|done| | |done|by eapply holds_upd_node].
    + cbn. rewrite lookup_insert_eq. done.
    + intros q c Hq Hqc. split; [by eapply Hfresh|]. cbn. by rewrite lookup_insert_ne by (symmetry; by eapply Hfresh).
  - rewrite (proj2 (Z.eqb_neq (n_private n) 0)) by done. cbn [negb].
    assert (n_private n <> p) as Hpn by (by eapply Hfresh).
    do 2 wp_step. apply (wp_buf_load _ _ _ _ content);
      [cbn; by rewrite lookup_insert_ne by congruence|lia|lia|lia|].
    rewrite Hs, Nat2Z.id, drop_0, take_ge by lia. wp_step.
    assert (bufs s1 !! p = Some (replicate (Z.to_nat size) None)) as Hp1 by apply lookup_insert_eq.
    apply (wp_buf_store s1 p 0 content (replicate (Z.to_nat size) None));
      [done|lia|rewrite length_replicate; lia|].
    pose proof (holds_upd_buf s1 p _ (splice (replicate (Z.to_nat size) None) 0 content) ∅ Hp1 Hh1) as Hh2.
    apply (wp_free_buf _ (n_private n) content); [done|cbn; by rewrite !lookup_insert_ne by congruence|].
    intros h' s2 Hh3. wp_step. unfold upd_node. wp_step. apply (wp_get_node _ _ n); [done|]. fs_steps.
    apply H1; [done|done| | |done|by eapply holds_upd_node].
    + cbn. rewrite lookup_delete_ne by done. apply lookup_insert_eq.
    + intros q c Hq Hqc. pose proof (Hfresh _ _ Hqc) as Hqp. split; [done|].
      cbn. rewrite lookup_delete_ne, !lookup_insert_ne by congruence. done.
Qed.

Lemma take_all_map (buf : text) : map Some (take (Z.to_nat (Z.of_nat (length buf))) buf) = map Some buf.
Proof using Type. by rewrite Nat2Z.id, take_ge by lia. Qed.

Lemma wp_memfs_write s a n content buf offset (Q : Z -> fs H -> Prop) :
  file s a n content -> holds s ∅ -> 0 <= offset ->
  offset + Z.of_nat (length buf) < 2 ^ 31 -> Z.of_nat (length content) < 2 ^ 31 ->
  (forall h, Z.of_nat (length content) < offset + Z.of_nat (length buf) ->
     holds (set_heap h s) ∅ -> Q (-1) (set_heap h s)) ->
  (forall s', write_post s a n (overwrite content (Z.to_nat offset) (map Some buf)) s' ->
     Q (Z.of_nat (length buf)) s') ->
  wp (memfs_write a buf (Z.of_nat (length buf)) offset) Q s.
Proof using KF.
  intros Hf Hh Ho Hob Hc HF HS. pose proof Hf as (Hn & Hs & Ha & Hd).
  set (new := map Some buf). set (content' := overwrite content (Z.to_nat offset) new).
  assert (length new = length buf) as Hnew by apply length_map.
  unfold memfs_write. rewrite (proj2 (Z.eqb_neq a 0)) by done. wp_step.
  apply (wp_get_node _ _ n); [done|]. cbv beta zeta.
  rewrite (wrap_small 64) by lia. wp_step. rewrite Hs.
  destruct (Z.ltb_spec (Z.of_nat (length content)) (offset + Z.of_nat (length buf))) as [Hlt|Hge].
  - rewrite <- Hs. apply (wp_grow s a n content); [done|done|lia| |].
    + intros h Hh'. wp_step. by apply HF.
    + intros p s' Hp Hnodes Hbp Hbo Hel Hh'. cbv beta iota.
      rewrite Z.leb_refl, take_all_map. fold new. wp_step.
      apply (wp_buf_store _ _ _ _ _ _ Hbp); [done| |].
      { unfold splice. rewrite !length_app, length_take, length_drop, length_replicate. lia. }
      rewrite swrap_small by lia. wp_step. apply HS. fold new content'.
      assert (splice (splice (replicate (Z.to_nat (offset + Z.of_nat (length buf))) None) 0 content) offset new = content') as ->.
      { rewrite <- (Z2Nat.id offset) at 2 by done. apply resize_splice; lia. }
      assert (Z.of_nat (length content') = offset + Z.of_nat (length buf)) as El
        by (unfold content'; rewrite length_overwrite; lia).
      constructor; cbn [nodes bufs with_buf set_bufs].
      * exists p. split; [cbn [nodes with_buf set_bufs]; by rewrite El, Hnodes, lookup_insert_eq|]. split; [done|]. split; [done|].
        right. split; [cbn; lia|]. cbn. by rewrite lookup_insert_eq.
      * intros b Hb. by rewrite Hnodes, lookup_insert_ne.
      * intros q c Hq Hqc. destruct (Hbo q c Hq Hqc) as [Hqp ?]. by rewrite lookup_insert_ne.
      * done.
      * by eapply holds_upd_buf.
  - wp_step. rewrite Z.leb_refl, take_all_map. fold new.
    assert (content' = splice content offset new) as Esp.
    { unfold content'. rewrite <- (Z2Nat.id offset) at 2 by done. rewrite splice_inside; [done|lia]. }
    assert (length content' = length content) as El
      by (unfold content'; rewrite length_overwrite; lia).
    destruct Hd as [[Hp ->]|[Hp Hb]].
    + assert (buf = []) as -> by (destruct buf; [done|cbn in *; lia]).
      cbn [new map buf_store]. do 2 wp_step. rewrite swrap_small by lia. wp_step. apply HS. fold new content'.
      destruct content' as [|x l]; [|done].
      constructor; try done. exists 0. cbn. split; [|split; [done|split; [done|by left]]].
      rewrite Hn. f_equal. destruct n; cbn in *. by subst.
    + wp_step. apply (wp_buf_store _ _ _ _ _ _ Hb); [done|lia|]. rewrite swrap_small by lia. wp_step.
      apply HS. fold new content'. rewrite <- Esp. constructor; cbn [nodes bufs with_buf set_bufs]; try done.
      * exists (n_private n). rewrite El, <- Hs.
        split; [cbn [nodes with_buf set_bufs]; rewrite Hn; by destruct n|].
        split; [cbn; rewrite El; done|]. split; [done|]. right. split; [done|]. cbn.
        by rewrite lookup_insert_eq.
      * intros q c Hq Hqc. by rewrite lookup_insert_ne by congruence.
      * by eapply holds_upd_buf.
Qed.

(** [memfs_write] either fails for lack of memory, with files and
    descriptors untouched, or puts the bytes at the offset: what lies before
    and after them is kept, the file grows as needed (bytes of a hole are
    undetermined), and no other file changes. *)
Theorem memfs_write_correct s a n content buf offset :
  file s a n content -> holds s ∅ -> 0 <= offset ->
  offset + Z.of_nat (length buf) < 2 ^ 31 -> Z.of_nat (length content) < 2 ^ 31 ->
  exists r s', memfs_write a buf (Z.of_nat (length buf)) offset s = Ok (r, s') /\
    (r = -1 /\ nodes s' = nodes s /\ bufs s' = bufs s /\ same_else s s' /\
       Z.of_nat (length content) < offset + Z.of_nat (length buf) \/
     r = Z.of_nat (length buf) /\
       write_post s a n (overwrite content (Z.to_nat offset) (map Some buf)) s').
Proof using KF.
  intros Hf Hh Ho Hob Hc.
  enough (wp (memfs_write a buf (Z.of_nat (length buf)) offset) (fun r s' =>
    (r = -1 /\ nodes s' = nodes s /\ bufs s' = bufs s /\ same_else s s' /\
       Z.of_nat (length content) < offset + Z.of_nat (length buf) \/
     r = Z.of_nat (length buf) /\
       write_post s a n (overwrite content (Z.to_nat offset) (map Some buf)) s')) s) as Hw
    by (by apply wp_run in Hw).
  eapply wp_memfs_write; [done..| |].
  - intros h Hlt Hh'. left. done.
  - intros s' Hs'. by right.
Qed.

Lemma overwrite_slice content (offset : Z) (buf : text) :
  0 <= offset ->
  take (Z.to_nat (Z.of_nat (length buf)))
    (drop (Z.to_nat offset) (overwrite content (Z.to_nat offset) (map Some buf))) = map Some buf.
Proof using Type.
  intros Ho. unfold overwrite. rewrite drop_app_length' by (by rewrite length_resize).
  rewrite Nat2Z.id. apply take_app_length'. by rewrite length_map.
Qed.

(** ** Open files *)

(** Descriptor [fd] is entry [e] with file object [o] on an in-memory file. *)
Record opened (s : fs H) (fd e o : Z) (d : file_descriptor) (ob : file_object) : Prop := {
  op_range : 0 <= fd < 256;
  op_table : fd_table s !! Z.to_nat fd = Some e;
  op_entry : e <> 0;
  op_fd : fds s !! e = Some d;
  op_file : d_file_object d = o;
  op_some : o <> 0;
  op_obj : objs s !! o = Some ob;
  op_ops : f_ops ob = Some memfs_file_ops;
}.

Lemma opened_same s s' fd e o d ob : same_else s s' -> opened s fd e o d ob -> opened s' fd e o d ob.
Proof using Type. intros (E1 & E2 & _ & E4 & _) []. constructor; congruence. Qed.

Lemma wp_fd_get s fd e o d ob (Q : Z -> fs H -> Prop) :
  opened s fd e o d ob -> Q e s -> wp (fd_get fd) Q s.
Proof using Type.
  intros [] HQ. unfold fd_get.
  rewrite (proj2 (Z.leb_le 0 fd)), (proj2 (Z.ltb_lt fd 256)) by lia. cbn [andb].
  by apply wp_getf with e.
Qed.

Lemma wp_open_file s fd e o d ob (Q : option (Z * Z) -> fs H -> Prop) :
  opened s fd e o d ob -> Q (Some (e, o)) s -> wp (open_file fd) Q s.
Proof using Type.
  intros Ho HQ. unfold open_file. wp_step. eapply wp_fd_get; [done|]. destruct Ho.
  rewrite (proj2 (Z.eqb_neq e 0)) by done. wp_step. apply (wp_get_fd _ _ d); [done|].
  rewrite op_file0, (proj2 (Z.eqb_neq o 0)) by done. by wp_step.
Qed.

(** The state after [set_offset]. *)
Definition moved (s : fs H) (e o offset size : Z) (d : file_descriptor) (ob : file_object) : fs H :=
  set_fds (<[e := Fd (d_fd d) (d_file_object d) (d_flags d) (d_mode d) offset (d_next d)]> (fds s))
    (set_objs (<[o := FObj (f_inode ob) (f_mode ob) size offset (f_ops ob) (f_private ob)]> (objs s)) s).

Definition obj_at (ob : file_object) (offset size : Z) : file_object :=
  FObj (f_inode ob) (f_mode ob) size offset (f_ops ob) (f_private ob).
Definition fd_at (d : file_descriptor) (offset : Z) : file_descriptor :=
  Fd (d_fd d) (d_file_object d) (d_flags d) (d_mode d) offset (d_next d).

Lemma wp_set_offset s fd e o d ob offset size (Q : unit -> fs H -> Prop) :
  opened s fd e o d ob -> Q tt (moved s e o offset size d ob) -> wp (set_offset e o offset size) Q s.
Proof using Type.
  intros Ho HQ. destruct Ho. unfold set_offset. wp_step. apply (wp_get_obj _ _ ob); [done|]. fs_steps.
  apply (wp_get_fd _ _ d); [done|]. fs_steps. exact HQ.
Qed.

Lemma opened_moved s fd e o d ob offset size :
  opened s fd e o d ob ->
  opened (moved s e o offset size d ob) fd e o (fd_at d offset) (obj_at ob offset size).
Proof using Type.
  intros []. constructor; cbn; try done; by rewrite lookup_insert_eq.
Qed.

Lemma file_moved s e o d ob offset size a n c :
  file s a n c -> file (moved s e o offset size d ob) a n c.
Proof using Type. done. Qed.

Lemma wp_syscall_write s fd e o d ob n content buf (Q : Z -> fs H -> Prop) :
  opened s fd e o d ob -> file s (f_private ob) n content -> holds s ∅ ->
  0 <= f_offset ob -> f_offset ob + Z.of_nat (length buf) < 2 ^ 31 ->
  Z.of_nat (length content) < 2 ^ 31 -> buf <> [] ->
  (forall h, holds (set_heap h s) ∅ -> Q (-1) (set_heap h s)) ->
  (forall s', write_post s (f_private ob) n (overwrite content (Z.to_nat (f_offset ob)) (map Some buf)) s' ->
     let off := f_offset ob + Z.of_nat (length buf) in
     Q (Z.of_nat (length buf)) (moved s' e o off off d ob)) ->
  wp (syscall_write fd buf (Z.of_nat (length buf))) Q s.
Proof using KF.
  intros Ho Hf Hh H0 H1 H2 Hne HF HS. unfold syscall_write. wp_step.
  eapply wp_open_file; [done|]. pose proof Ho as []. wp_step. apply (wp_get_obj _ _ ob); [done|].
  rewrite op_ops0. wp_step. cbn [ops_write].
  assert (0 < Z.of_nat (length buf)) by (destruct buf; [done|cbn; lia]).
  eapply wp_memfs_write; [done..| |].
  - intros h Hlt Hh'. change (0 <? -1) with false. wp_steps. by apply HF.
  - intros s' Hs'. pose proof (opened_same _ _ _ _ _ _ _ (wr_else _ _ _ _ _ Hs') Ho) as Ho'.
    rewrite (proj2 (Z.ltb_lt 0 _)) by lia. wp_step. wp_step. apply (wp_get_obj _ _ ob); [apply Ho'|].
    rewrite wrap_small by lia. eapply wp_set_offset; [done|]. wp_step. by apply HS.
Qed.

(** C4: What is written can be read back: after a successful write at the
    current position, seeking to where it started and reading as many bytes
    returns exactly the bytes written. *)
Theorem write_seek_read s fd e o d ob n content buf :
  opened s fd e o d ob -> file s (f_private ob) n content -> holds s ∅ ->
  0 <= f_offset ob -> f_offset ob + Z.of_nat (length buf) < 2 ^ 31 ->
  Z.of_nat (length content) < 2 ^ 31 -> buf <> [] ->
  exists r s1, syscall_write fd buf (Z.of_nat (length buf)) s = Ok (r, s1) /\
    (r = -1 \/
     r = Z.of_nat (length buf) /\
     exists s2 s3, syscall_lseek fd (f_offset ob) SEEK_SET s1 = Ok (f_offset ob, s2) /\
       syscall_read fd (Z.of_nat (length buf)) s2 = Ok (Z.of_nat (length buf), map Some buf, s3)).
Proof using KF.
  intros Ho Hf Hh H0 H1 H2 Hne.
  enough (wp (syscall_write fd buf (Z.of_nat (length buf))) (fun r s1 => r = -1 \/
     r = Z.of_nat (length buf) /\
     wp (syscall_lseek fd (f_offset ob) SEEK_SET) (fun p s2 => p = f_offset ob /\
       wp (syscall_read fd (Z.of_nat (length buf))) (fun '(k, bytes) _ =>
          k = Z.of_nat (length buf) /\ bytes = map Some buf) s2) s1) s) as Hw.
  { apply wp_run in Hw as (r & s1 & E & Hw). exists r, s1. split; [done|].
    destruct Hw as [->|(-> & Hw)]; [by left|]. right. split; [done|].
    apply wp_run in Hw as (p & s2 & E2 & -> & Hw). apply wp_run in Hw as ([k bytes] & s3 & E3 & -> & ->).
    by exists s2, s3. }
  eapply wp_syscall_write; [done..|auto|]. intros s' Hs' off. right. split; [done|].
  pose proof (opened_same _ _ _ _ _ _ _ (wr_else _ _ _ _ _ Hs') Ho) as Ho'.
  pose proof (opened_moved _ _ _ _ _ _ off off Ho') as Hm.
  destruct (wr_file _ _ _ _ _ Hs') as [p Hf'].
  apply (file_moved _ e o d ob off off) in Hf'. set (s1 := moved s' e o off off d ob) in *.
  unfold syscall_lseek. wp_step. eapply wp_open_file; [done|]. wp_step.
  apply (wp_get_obj _ _ (obj_at ob off off)); [apply Hm|]. cbn [SEEK_SET Z.eqb f_ops obj_at f_size].
  rewrite (op_ops _ _ _ _ _ _ Ho). rewrite (wrap_small 64) by lia.
  rewrite (proj2 (Z.ltb_ge off (f_offset ob))) by (unfold off; lia). wp_steps.
  apply (wp_get_obj _ _ (obj_at ob off off)); [apply Hm|]. wp_step.
  eapply wp_set_offset; [done|]. wp_step. rewrite swrap_small by lia. split; [done|].
  pose proof (opened_moved _ _ _ _ _ _ (f_offset ob) (f_size (obj_at ob off off)) Hm) as Hm2.
  apply (file_moved _ e o (fd_at d off) (obj_at ob off off) (f_offset ob) (f_size (obj_at ob off off))) in Hf'.
  set (s2 := moved s1 _ _ _ _ _ _) in *. unfold syscall_read. wp_step. eapply wp_open_file; [done|]. wp_step.
  eapply wp_get_obj; [apply Hm2|]. cbn [f_ops obj_at]. rewrite (op_ops _ _ _ _ _ _ Ho). wp_step.
  cbn [ops_read f_private obj_at f_offset].
  assert (0 < Z.of_nat (length buf)) by (destruct buf; [done|cbn; lia]).
  eapply wp_mono.
  { apply wp_det. eapply memfs_read_ok; [exact Hf'|lia|lia|lia|].
    rewrite length_overwrite, length_map. lia. }
  intros [k bytes] s3 [Er ->].
  pose proof Hf' as (_ & _ & _ & Hpr). cbn [n_private n_with_data] in Er, Hpr.
  destruct Hpr as [[_ Hnil]|[Hpr _]].
  { apply (f_equal length) in Hnil. rewrite length_overwrite, length_map in Hnil. cbn in Hnil. lia. }
  rewrite (proj2 (Z.eqb_neq p 0)) in Er by done. rewrite overwrite_slice in Er by lia.
  injection Er as -> ->. rewrite length_map. rewrite (proj2 (Z.ltb_lt 0 _)) by lia.
  do 2 wp_step. eapply wp_get_obj; [apply Hm2|]. eapply wp_set_offset; [done|]. by wp_step.
Qed.

(** ** Seeking *)

Lemma overwrite_inside (c : list (option Z)) (o : nat) new :
  (o + length new <= length c)%nat ->
  overwrite c o new = take o c ++ new ++ drop (o + length new) c.
Proof using Type. intros. unfold overwrite. by rewrite resize_le by lia. Qed.

Lemma overwrite_extend (c : list (option Z)) (o k : nat) x :
  (o + S k <= length c)%nat ->
  overwrite (overwrite c o (replicate k x)) (o + k) [x] = overwrite c o (replicate (S k) x).
Proof using Type.
  intros Hl.
  rewrite (overwrite_inside c o) by (rewrite length_replicate; lia).
  rewrite (overwrite_inside c o) by (rewrite length_replicate; lia).
  assert (length (take o c ++ replicate k x) = (o + k)%nat) as E1
    by (rewrite length_app, length_take, length_replicate; lia).
  rewrite overwrite_inside by (rewrite !length_app, length_take, length_replicate, length_drop; cbn; lia).
  rewrite !length_replicate. rewrite (app_assoc (take o c) (replicate k x)).
  rewrite take_app_length' by done. rewrite drop_app_ge by (rewrite E1; cbn; lia).
  rewrite E1, drop_drop. replace (S k) with (k + 1)%nat by lia.
  rewrite replicate_add, <- !app_assoc. cbn [length replicate app]. do 4 f_equal. lia.
Qed.

(** The zeros [syscall_lseek] writes from the current position up to [target]. *)
Lemma wp_zero_fill s fd e o d ob n content target (Q : bool -> fs H -> Prop) :
  opened s fd e o d ob -> file s (f_private ob) n content -> holds s ∅ ->
  0 <= f_offset ob <= target -> target <= Z.of_nat (length content) -> Z.of_nat (length content) < 2 ^ 31 ->
  (forall s' n', opened s' fd e o d (obj_at ob target (f_size ob)) ->
     file s' (f_private ob) n'
       (overwrite content (Z.to_nat (f_offset ob)) (replicate (Z.to_nat (target - f_offset ob)) (Some 0))) ->
     Q true s') ->
  wp (loop (fun _ =>
        let* o' := get_obj o in
        if f_offset o' <? target then
          let* r := ops_write memfs_file_ops (f_private o') [0] 1 (f_offset o') in
          if negb (r =? 1) then ret (Done false)
          else
            let* o' := get_obj o in
            put_obj o (FObj (f_inode o') (f_mode o') (f_size o')
              (u64 (f_offset o' + 1)) (f_ops o') (f_private o')) ;;
            ret (Next tt)
        else ret (Done true)) tt) Q s.
Proof using KF.
  intros Ho Hf Hh H0 H2 H3 HQ. set (a := f_private ob) in *.
  set (k0 := f_offset ob) in *.
  set (filled k := overwrite content (Z.to_nat k0) (replicate k (Some 0 : option Z))).
  apply wp_loop_n with (n := target - k0)
    (I := fun i _ s' => exists k n', (k0 + Z.of_nat k <= target) /\ i = target - (k0 + Z.of_nat k) /\
       opened s' fd e o d (obj_at ob (k0 + Z.of_nat k) (f_size ob)) /\
       file s' a n' (filled k) /\ holds s' ∅).
  - intros i [] s' (k & n' & Hk & -> & Ho' & Hf' & Hh'). wp_step.
    eapply wp_get_obj; [apply Ho'|]. cbn [f_offset obj_at f_private].
    assert (length (filled k) = length content) as Elk
      by (unfold filled; rewrite length_overwrite, length_replicate; lia).
    destruct (Z.ltb_spec (k0 + Z.of_nat k) target) as [Hlt|Hge].
    + wp_step. cbn [ops_write]. fold a.
      apply (wp_memfs_write s' a n' (filled k) [0] (k0 + Z.of_nat k)); [done|done|lia|cbn; lia|lia| |].
      { cbn [length]. intros h Hlt'. lia. }
      intros s'' [(p & Hf'') Hn2 Hb2 Hel Hh'']. cbn [length]. change (Z.of_nat 1) with 1. cbn [Z.eqb negb].
      pose proof (opened_same _ _ _ _ _ _ _ Hel Ho') as Ho2. do 2 wp_step.
      eapply wp_get_obj; [apply Ho2|]. cbn [f_inode f_mode f_size f_offset f_ops f_private obj_at]. fs_steps.
      rewrite wrap_small by lia. exists (target - (k0 + Z.of_nat (S k))). split; [|lia].
      exists (S k), (n_with_data p (Z.of_nat (length (overwrite (filled k) (Z.to_nat (k0 + Z.of_nat k)) (map Some [0])))) n').
      split; [lia|]. split; [done|]. split; [|split].
      * replace (k0 + Z.of_nat (S k)) with (k0 + Z.of_nat k + 1) by lia.
        destruct Ho2. constructor; try done. cbn. by rewrite lookup_insert_eq.
      * replace (filled (S k)) with (overwrite (filled k) (Z.to_nat (k0 + Z.of_nat k)) (map Some [0])); [done|].
        replace (Z.to_nat (k0 + Z.of_nat k)) with (Z.to_nat k0 + k)%nat by lia. apply overwrite_extend. lia.
      * destruct Hh'' as [Hap (L & HL & Hsub)]. destruct Ho2.
        unfold holds, stores_apart, addresses in *. cbn.
        rewrite dom_insert_lookup_L by (by eexists). eauto.
    + wp_step. cbn [turn]. assert (k0 + Z.of_nat k = target) as Et by lia. rewrite Et in Ho'.
      apply (HQ s' n'); [done|]. by replace (Z.to_nat (target - k0)) with k by lia.
  - exists 0%nat, n. rewrite Z.add_0_r. split; [lia|]. split; [done|]. split; [by destruct ob|].
    split; [|done]. unfold filled. cbn [replicate].
    rewrite overwrite_inside by (cbn; lia). cbn [length app]. by rewrite Nat.add_0_r, take_drop.
  - lia.
Qed.

(** [syscall_lseek] fills with zeros from the current position when
    the target lies beyond the size the file object remembers; that size is
    what it was at [open], or where the last write ended, so seeking forward
    inside the file destroys its contents. *)
Theorem lseek_zeroes s fd e o d ob n content target :
  opened s fd e o d ob -> file s (f_private ob) n content -> holds s ∅ ->
  0 <= f_offset ob <= target -> f_size ob < target -> target <= Z.of_nat (length content) ->
  Z.of_nat (length content) < 2 ^ 31 ->
  exists s' n', syscall_lseek fd target SEEK_SET s = Ok (target, s') /\
    file s' (f_private ob) n'
      (overwrite content (Z.to_nat (f_offset ob)) (replicate (Z.to_nat (target - f_offset ob)) (Some 0))).
Proof using KF.
  intros Ho Hf Hh H0 H1 H2 H3. set (a := f_private ob) in *.
  set (content' := overwrite content _ _).
  enough (wp (syscall_lseek fd target SEEK_SET) (fun p s' => p = target /\
    exists n', file s' a n' content') s) as Hw.
  { apply wp_run in Hw as (p & s' & E & -> & n' & Hw). by exists s', n'. }
  unfold syscall_lseek. wp_step. eapply wp_open_file; [done|]. wp_step.
  apply (wp_get_obj _ _ ob); [apply Ho|]. cbn [SEEK_SET Z.eqb]. rewrite (wrap_small 64) by lia.
  rewrite (op_ops _ _ _ _ _ _ Ho), (proj2 (Z.ltb_lt (f_size ob) target)) by lia. wp_step.
  apply (wp_zero_fill s fd e o d ob n content target); [done|done|done|lia|done|done|].
  intros s' n' Ho' Hf'. do 2 wp_step. eapply wp_get_obj; [apply Ho'|]. cbn [f_size obj_at]. wp_step.
  eapply wp_set_offset; [done|]. wp_step. rewrite swrap_small by lia. split; [done|]. by exists n'.
Qed.
End FsLemmas.

(** ** Witnesses *)

(** A file of three bytes under the root, open as descriptor 3 after one byte
    was written, on the bump allocator. *)
Definition demo_node : vfs_node :=
  Node [102] 0 (Z.lor S_IFREG 420) 3 0 0 0 16777216 0 0 (Some memfs_file_ops) 16777888.
Definition demo_root : vfs_node :=
  Node [47] 0 (Z.lor S_IFDIR 493) 0 0 0 0 0 16777552 0 (Some memfs_file_ops) 0.
Definition demo_fd : file_descriptor := Fd 3 16778000 2 0 1 0.
Definition demo_obj : file_object := FObj 0 (Z.lor S_IFREG 420) 1 1 (Some memfs_file_ops) 16777552.
Definition demo_content : list (option Z) := [Some 97; Some 98; Some 99].
Definition demo_fs : fs smm :=
  Fs (Smm ∅ 4096)
     (<[16777216 := demo_root]> {[16777552 := demo_node]})
     {[16777888 := demo_content]} {[16777900 := demo_fd]} {[16778000 := demo_obj]} ∅
     (<[3%nat := 16777900]> (replicate 256 0)) 0 16777216 0.

Lemma demo_file : file demo_fs 16777552 demo_node demo_content.
Proof. split; [reflexivity|]. do 2 (split; [done|]). right. split; [done|reflexivity]. Qed.

Lemma demo_opened : opened demo_fs 3 16777900 16778000 demo_fd demo_obj.
Proof. constructor; try done; lia. Qed.

Lemma demo_holds : holds demo_fs ∅.
Proof.
  assert (addresses demo_fs = {[16777216; 16777552; 16777888; 16777900; 16778000]}) as E
    by (by vm_compute).
  split; [split_and!; apply (bool_decide_unpack _); by vm_compute|].
  exists (addresses demo_fs). rewrite E. split; [|set_solver].
  split; [unfold max_heap_size; cbn; lia|]. intros p Hp. unfold kernel_heap. cbn. set_solver by lia.
Qed.

(** Two bytes from position 1. *)
Lemma memfs_read_correct_witness :
  memfs_read 16777552 2 1 demo_fs = Ok (2, [Some 98; Some 99], demo_fs).
Proof.
  apply (memfs_read_correct demo_fs 16777552 demo_node demo_content 2 1); cbn; first [exact demo_file|exact demo_opened|exact demo_holds|lia|done].
Defined.

(** Two bytes written at the end grow the file by one. *)
Lemma memfs_write_correct_witness :
  exists r s', memfs_write 16777552 [120; 121] 2 2 demo_fs = Ok (r, s') /\
    (r = -1 /\ nodes s' = nodes demo_fs /\ bufs s' = bufs demo_fs /\ same_else demo_fs s' /\ 3 < 4 \/
     r = 2 /\ write_post demo_fs 16777552 demo_node [Some 97; Some 98; Some 120; Some 121] s').
Proof.
  apply (memfs_write_correct demo_fs 16777552 demo_node demo_content [120; 121] 2); cbn; first [exact demo_file|exact demo_opened|exact demo_holds|lia|done].
Defined.

Lemma write_seek_read_witness :
  exists r s1, syscall_write 3 [120; 121] 2 demo_fs = Ok (r, s1) /\
    (r = -1 \/ r = 2 /\ exists s2 s3, syscall_lseek 3 1 SEEK_SET s1 = Ok (1, s2) /\
       syscall_read 3 2 s2 = Ok (2, [Some 120; Some 121], s3)).
Proof.
  apply (write_seek_read demo_fs 3 16777900 16778000 demo_fd demo_obj demo_node demo_content [120; 121]);
    cbn; first [exact demo_file|exact demo_opened|exact demo_holds|lia|done].
Defined.

(** Seeking from 1 to 3 in a file of three bytes. *)
Lemma lseek_zeroes_witness :
  exists s' n', syscall_lseek 3 3 SEEK_SET demo_fs = Ok (3, s') /\
    file s' 16777552 n' [Some 97; Some 0; Some 0].
Proof.
  apply (lseek_zeroes demo_fs 3 16777900 16778000 demo_fd demo_obj demo_node demo_content 3);
    cbn; first [exact demo_file|exact demo_opened|exact demo_holds|lia|done].
Defined.
