(* ===== verification/FsTree.v ===== *)
(** * Paths and the directory tree

    [fs_lookup] and [fs_create] (kernel/fs.c) against a tree of directories:
    the tokens of a path, the children of every node as lists, and the node a
    path names.  The sibling lists of the code are newest first. *)

From S2P Require Import Prelude CMem CStr Alloc SimpleMm Fs FsProofs.

(** ** Tokens of a path *)

(** The parts of [l] between slashes. *)
Fixpoint split_slash (l : text) : list text :=
  match l with
  | [] => [[]]
  | b :: l =>
      if b =? 47 then [] :: split_slash l
      else match split_slash l with
           | [] => [[b]]
           | t :: ts => (b :: t) :: ts
           end
  end.

Definition nonempty (t : text) : bool := match t with [] => false | _ => true end.

Definition path_tokens (l : text) : list text := List.filter nonempty (split_slash l).

Lemma mem_slash b : mem_char [47] b = (b =? 47).
Proof.
  unfold mem_char. apply eq_true_iff_eq. rewrite bool_decide_eq_true, Z.eqb_eq.
  rewrite list_elem_of_singleton. done.
Qed.

Lemma split_slash_span l :
  let n := span_len (fun b => negb (mem_char [47] b)) l in
  split_slash l = take n l :: match drop n l with [] => [] | _ :: rest => split_slash rest end.
Proof.
  induction l as [|b l IH]; [done|]. cbn [split_slash span_len]. rewrite mem_slash.
  destruct (b =? 47); [done|]. cbn [negb take drop]. by rewrite IH.
Qed.

Lemma path_tokens_skip l : path_tokens (drop (span_len (mem_char [47]) l) l) = path_tokens l.
Proof.
  induction l as [|b l IH]; [done|]. cbn [span_len]. rewrite mem_slash.
  destruct (Z.eqb_spec b 47) as [->|]; [|done]. cbn [drop]. rewrite IH. done.
Qed.

(** One call of [strtok] takes one token off. *)
Lemma strtok_slash_tokens l :
  match strtok_slash (Some l) with
  | (Some tok, rest) => tok <> [] /\ path_tokens l = tok :: from_option path_tokens [] rest
  | (None, rest) => rest = None /\ path_tokens l = []
  end.
Proof.
  unfold strtok_slash, next_token. rewrite <- (path_tokens_skip l).
  pose proof (span_len_drop (mem_char [47]) l) as Hstop.
  destruct (drop (span_len (mem_char [47]) l) l) as [|b l'] eqn:E; [done|].
  specialize (Hstop b l' eq_refl). set (n := span_len _ (b :: l')).
  assert (exists k, n = S k) as [k Hk].
  { unfold n. cbn [span_len]. rewrite Hstop. cbn [negb]. eauto. }
  unfold path_tokens at 1. rewrite split_slash_span. fold n. rewrite Hk. cbn [take].
  split; [done|]. cbn [List.filter nonempty]. f_equal.
  by destruct (drop (S k) (b :: l')).
Qed.

Lemma path_tokens_slash d f : path_tokens (d ++ 47 :: f) = path_tokens d ++ path_tokens f.
Proof.
  unfold path_tokens. rewrite <- List.filter_app.
  assert (forall d, split_slash (d ++ 47 :: f) = split_slash d ++ split_slash f) as Hs.
  { clear d. intros d. induction d as [|b d IH]; [done|]. cbn [split_slash app]. rewrite IH.
    destruct (b =? 47); [done|]. destruct (split_slash d) eqn:E; [|done].
    pose proof (split_slash_span d) as Hd. cbn in Hd. congruence. }
  by rewrite Hs.
Qed.

Lemma path_tokens_name f : Forall (fun b => b <> 47) f -> f <> [] -> path_tokens f = [f].
Proof.
  intros Hf Hne. unfold path_tokens. rewrite split_slash_span.
  assert (span_len (fun b => negb (mem_char [47] b)) f = length f) as ->.
  { clear Hne. induction Hf as [|b f Hb Hf IH]; [done|]. cbn [span_len]. rewrite mem_slash.
    rewrite (proj2 (Z.eqb_neq b 47)) by done. cbn. by rewrite IH. }
  rewrite drop_ge, take_ge by lia. by destruct f.
Qed.

Lemma last_slash_split l i : last_slash l = Some i ->
  l = take i l ++ 47 :: drop (S i) l /\ Forall (fun b => b <> 47) (drop (S i) l).
Proof.
  revert i. induction l as [|b l IH]; intros i; [done|]. cbn [last_slash].
  destruct (last_slash l) as [j|] eqn:E.
  - intros [= <-]. destruct (IH j eq_refl) as [H1 H2]. cbn [take drop app]. split; [by rewrite <- H1|done].
  - destruct (Z.eqb_spec b 47) as [->|]; [|done]. intros [= <-]. cbn. rewrite drop_0. split; [done|].
    clear IH. induction l as [|c l IH']; [done|]. cbn [last_slash] in E.
    destruct (last_slash l) as [|]; [done|]. destruct (Z.eqb_spec c 47); [done|].
    constructor; [done|by apply IH'].
Qed.

Lemma path_tokens_length l : (length (path_tokens l) <= S (length l))%nat.
Proof.
  unfold path_tokens. etrans; [apply List.filter_length_le|].
  induction l as [|b l IH]; [done|]. cbn [split_slash length]. destruct (b =? 47); cbn [length]; [lia|].
  destruct (split_slash l); cbn [length] in *; lia.
Qed.

(** The tokens still to come once [strtok] answered [token] and kept [save]. *)
Definition pending (token save : option text) (ts : list text) : Prop :=
  match token with
  | Some tok => tok <> [] /\ ts = tok :: from_option path_tokens [] save
  | None => ts = []
  end.

Lemma strtok_pending save :
  let '(token, save') := strtok_slash save in pending token save' (from_option path_tokens [] save).
Proof.
  destruct save as [l|]; [|done]. pose proof (strtok_slash_tokens l) as Hl.
  destruct (strtok_slash (Some l)) as [[tok|] rest]; unfold pending; cbn; naive_solver.
Qed.

(** ** The tree *)

(** The sibling list from [p] on is [l]. *)
Fixpoint chain_of (m : gmap Z vfs_node) (p : Z) (l : list Z) : Prop :=
  match l with
  | [] => p = 0
  | a :: l => p = a /\ a <> 0 /\ exists n, m !! a = Some n /\ chain_of m (n_next n) l
  end.

(** The first node of [l] with the name [t], or 0. *)
Fixpoint find_name (m : gmap Z vfs_node) (l : list Z) (t : text) : Z :=
  match l with
  | [] => 0
  | a :: l =>
      match m !! a with
      | Some n => if decide (n_name n = t) then a else find_name m l t
      | None => 0
      end
  end.

(** The node the tokens [ts] name from [a] on, or 0; [K] gives the children. *)
Fixpoint resolve (m : gmap Z vfs_node) (K : Z -> list Z) (a : Z) (ts : list text) : Z :=
  match ts with
  | [] => a
  | t :: ts => if a =? 0 then 0 else resolve m K (find_name m (K a) t) ts
  end.

Section Tree.
Context {H : Type} {KA : KAlloc H}.
Implicit Types (s : fs H) (m : gmap Z vfs_node) (K : Z -> list Z).

(** The nodes form a tree: [K a] are the children of [a], one level below. *)
Record vfs_tree (s : fs H) (K : Z -> list Z) (depth : Z -> nat) : Prop := {
  vt_root : is_Some (nodes s !! vfs_root s);
  vt_null : nodes s !! 0 = None;
  vt_kids : forall a n, nodes s !! a = Some n -> chain_of (nodes s) (n_children n) (K a);
  vt_depth : forall a b, is_Some (nodes s !! a) -> b ∈ K a -> depth b = S (depth a);
  vt_top : depth (vfs_root s) = 0%nat;
}.

Lemma chain_nodes m p l a : chain_of m p l -> a ∈ l -> is_Some (m !! a) /\ a <> 0.
Proof using Type.
  revert p. induction l as [|b l IH]; intros p Hc Ha; [by apply elem_of_nil in Ha|].
  destruct Hc as (-> & Hb & n & Hn & Hc). apply elem_of_cons in Ha as [->|Ha]; [|by eapply IH].
  split; [by eexists|done].
Qed.

Lemma find_name_in m l t : find_name m l t = 0 \/ find_name m l t ∈ l.
Proof using Type.
  induction l as [|a l IH]; [by left|]. cbn [find_name]. destruct (m !! a) as [n|]; [|by left].
  destruct (decide (n_name n = t)); [right; by left|]. destruct IH as [->|IH]; [by left|right; by right].
Qed.

Lemma wp_vfs_find_child s K depth a t (Q : Z -> fs H -> Prop) :
  vfs_tree s K depth -> is_Some (nodes s !! a) -> Z.of_nat (length (K a)) < 2 ^ 64 ->
  Q (find_name (nodes s) (K a) t) s -> wp (vfs_find_child a t) Q s.
Proof using Type.
  intros Ht [n Hn] Hl HQ. unfold vfs_find_child.
  assert (a <> 0) as Ha by (intros ->; rewrite (vt_null _ _ _ Ht) in Hn; done).
  rewrite (proj2 (Z.eqb_neq a 0)) by done. wp_step. apply (wp_get_node _ _ n); [done|].
  pose proof (vt_kids _ _ _ Ht a n Hn) as Hc. set (r := find_name (nodes s) (K a) t) in *.
  apply wp_loop_n with (n := Z.of_nat (length (K a)))
    (I := fun i p s' => s' = s /\ exists l, chain_of (nodes s) p l /\ i = Z.of_nat (length l) /\
       r = find_name (nodes s) l t); [|split; [done|]; by exists (K a)|lia].
  intros i p s' (-> & l & Hcl & -> & Hr). destruct l as [|b l]; cbn [chain_of find_name] in *.
  - subst p. cbn [Z.eqb negb]. wp_step. by rewrite <- Hr.
  - destruct Hcl as (-> & Hb & nb & Hnb & Hcl). rewrite Hnb in Hr.
    rewrite (proj2 (Z.eqb_neq b 0)) by done. cbn [negb]. wp_step. apply (wp_get_node _ _ nb); [done|].
    destruct (decide (n_name nb = t)); wp_step.
    + by rewrite <- Hr.
    + exists (Z.of_nat (length l)). cbn [length]. split; [|lia]. split; [done|]. by exists l.
Qed.

(** Directories with less than 2^64 entries. *)
Definition kids_small (s : fs H) (K : Z -> list Z) : Prop :=
  forall a, is_Some (nodes s !! a) -> Z.of_nat (length (K a)) < 2 ^ 64.

Lemma wp_fs_lookup s K depth path (Q : Z -> fs H -> Prop) :
  vfs_tree s K depth -> kids_small s K ->
  Q (resolve (nodes s) K (vfs_root s) (path_tokens (take 511 (47 :: path)))) s ->
  wp (fs_lookup (Some (47 :: path))) Q s.
Proof using Type.
  intros Ht Hk HQ. unfold fs_lookup. wp_step. wp_step.
  set (copy := take 511 (47 :: path)) in *.
  set (r := resolve (nodes s) K (vfs_root s) (path_tokens copy)) in *.
  pose proof (strtok_pending (Some copy)) as Hp. cbn [from_option] in Hp.
  destruct (strtok_slash (Some copy)) as [token save].
  assert (Z.of_nat (length (path_tokens copy)) <= 512) as Hlen.
  { pose proof (path_tokens_length copy). pose proof (length_take_le (47 :: path) 511).
    assert (length copy <= 511)%nat by (unfold copy; rewrite length_take; lia). lia. }
  apply wp_loop_n with (n := Z.of_nat (length (path_tokens copy)))
    (I := fun i '(token, save, current) s' => s' = s /\ (current = 0 \/ is_Some (nodes s !! current)) /\
       exists ts, pending token save ts /\ i = Z.of_nat (length ts) /\
         r = resolve (nodes s) K current ts).
  - intros i [[tok sv] cur] s' (-> & Hcur & ts & Hpend & -> & Hr). destruct tok as [tok|]; cbn [pending] in Hpend.
    + destruct Hpend as [Htok ->]. cbn [resolve] in Hr.
      destruct (Z.eqb_spec cur 0) as [->|Hc0]; cbn [negb]; [wp_step; by rewrite <- Hr|].
      destruct Hcur as [?|Hcur]; [done|]. rewrite decide_False by done. wp_step.
      apply (wp_vfs_find_child s K depth); [done|done|by apply Hk|].
      pose proof (strtok_pending sv) as Hp'. destruct (strtok_slash sv) as [tok' sv']. wp_step.
      exists (Z.of_nat (length (from_option path_tokens [] sv))). cbn [length]. split; [|lia].
      split; [done|]. split; [|by eexists].
      destruct (find_name_in (nodes s) (K cur) tok) as [->|Hin]; [by left|right].
      destruct Hcur as [n Hn]. by apply (chain_nodes _ _ _ _ (vt_kids _ _ _ Ht cur n Hn)).
    + subst ts. wp_step. cbn [resolve] in Hr. by rewrite <- Hr.
  - split; [done|]. split; [right; apply Ht|]. by exists (path_tokens copy).
  - lia.
Qed.

(** [fs_lookup] resolves an absolute path: it walks from the root
    through the first child with each token's name, in whatever way slashes
    are repeated, and returns null when one is missing; it changes nothing. *)
Theorem fs_lookup_correct s K depth path :
  vfs_tree s K depth -> kids_small s K ->
  fs_lookup (Some (47 :: path)) s =
    Ok (resolve (nodes s) K (vfs_root s) (path_tokens (take 511 (47 :: path))), s).
Proof using Type. intros Ht Hk. apply wp_det. by apply (wp_fs_lookup s K depth). Qed.
End Tree.

(** ** Creating files *)

Section Create.
Context {H : Type} {KA : KAlloc H} {KL : KAllocLaws H}.
Implicit Types (s : fs H) (m : gmap Z vfs_node) (K : Z -> list Z).

Lemma wp_vfs_create_node s name mode ops (Q : Z -> fs H -> Prop) :
  holds s ∅ ->
  (forall h, holds (set_heap h s) ∅ -> Q 0 (set_heap h s)) ->
  (forall p h, 0 < p -> p ∉ addresses s ->
     let n := Node (take 255 name) 0 mode 0 0 0 0 0 0 0 ops 0 in
     let s' := set_nodes (<[p := n]> (nodes s)) (set_heap h s) in holds s' ∅ -> Q p s') ->
  wp (vfs_create_node name mode ops) Q s.
Proof using KL.
  intros Hh H0 H1. unfold vfs_create_node, sizeof_vfs_node. wp_step.
  apply (wp_fs_kmalloc s 336 ∅); [done|lia| |].
  { intros h Hh'. wp_steps. by apply H0. }
  intros p h Hp Hnew Hh'. rewrite (proj2 (Z.eqb_neq p 0)) by lia. fs_steps.
  apply H1; [done|done|]. destruct Hh' as ((A1 & A2 & A3 & A4) & L & HL & Hsub & Hdis). split.
  - unfold stores_apart in *. unfold addresses in *. cbn in *. rewrite dom_insert_L. set_solver.
  - exists L. split; [done|]. unfold addresses in *. cbn in *. rewrite dom_insert_L. set_solver.
Qed.

(** The nodes once [p] is made the first child of [parent]. *)
Definition adopt (parent p : Z) (np n : vfs_node) (m : gmap Z vfs_node) : gmap Z vfs_node :=
  <[parent := n_with_children p np]>
    (<[p := n_with_next (n_children np) (n_with_parent parent n)]> m).

Lemma wp_vfs_add_child s parent p np n (Q : Z -> fs H -> Prop) :
  nodes s !! parent = Some np -> nodes s !! p = Some n -> parent <> 0 -> p <> 0 -> parent <> p ->
  Q p (set_nodes (adopt parent p np n (nodes s)) s) -> wp (vfs_add_child parent p) Q s.
Proof using Type.
  intros Hpar Hp H0 H1 Hne HQ. unfold vfs_add_child.
  rewrite (proj2 (Z.eqb_neq parent 0)), (proj2 (Z.eqb_neq p 0)) by done. cbn [orb]. unfold upd_node.
  do 2 wp_step. apply (wp_get_node _ _ n); [done|]. fs_steps.
  apply (wp_get_node _ _ np); [cbn; by rewrite lookup_insert_ne by congruence|]. wp_steps.
  apply (wp_get_node _ _ (n_with_parent parent n)); [cbn; by rewrite lookup_insert_eq|]. fs_steps.
  apply (wp_get_node _ _ np); [cbn; by rewrite !lookup_insert_ne by congruence|]. fs_steps.
  unfold adopt in HQ. cbn. rewrite insert_insert_eq. exact HQ.
Qed.

Definition kids_with (K : Z -> list Z) (parent p : Z) (a : Z) : list Z :=
  if decide (a = parent) then p :: K parent else if decide (a = p) then [] else K a.
Definition depth_with (depth : Z -> nat) (parent p : Z) (a : Z) : nat :=
  if decide (a = p) then S (depth parent) else depth a.

Lemma chain_keep m m' p l :
  (forall a n, m !! a = Some n -> exists n', m' !! a = Some n' /\ n_next n' = n_next n) ->
  chain_of m p l -> chain_of m' p l.
Proof using Type.
  intros Hm. revert p. induction l as [|a l IH]; intros p; [done|]. cbn [chain_of].
  intros (-> & Ha & n & Hn & Hc). split; [done|]. split; [done|].
  destruct (Hm a n Hn) as (n' & Hn' & E). exists n'. split; [done|]. rewrite E. by apply IH.
Qed.

Section Adopt.
Context (s s' : fs H) (K : Z -> list Z) (depth : Z -> nat) (parent p : Z) (np n : vfs_node).
Hypothesis tree : vfs_tree s K depth.
Hypothesis parent_node : nodes s !! parent = Some np.
Hypothesis fresh : nodes s !! p = None.
Hypothesis p_some : p <> 0.
Hypothesis new_leaf : n_children n = 0.
Hypothesis after : nodes s' = adopt parent p np n (nodes s).
Hypothesis root_same : vfs_root s' = vfs_root s.

Lemma adopt_keeps a na : nodes s !! a = Some na ->
  exists na', nodes s' !! a = Some na' /\ n_next na' = n_next na /\ n_name na' = n_name na /\
    (a <> parent -> n_children na' = n_children na).
Proof using All.
  intros Ha. rewrite after. unfold adopt. destruct (decide (a = parent)) as [->|Hne].
  - rewrite lookup_insert_eq. eexists. split; [done|].
    assert (np = na) as -> by congruence. done.
  - rewrite lookup_insert_ne by done. assert (a <> p) by congruence.
    rewrite lookup_insert_ne by done. eauto.
Qed.

Lemma adopt_tree : vfs_tree s' (kids_with K parent p) (depth_with depth parent p).
Proof using All.
  assert (parent <> p) as Hne by congruence.
  assert (parent <> 0) as Hp0 by (intros ->; rewrite (vt_null _ _ _ tree) in parent_node; done).
  assert (forall l q, chain_of (nodes s) q l -> chain_of (nodes s') q l) as Hch.
  { intros l q. apply chain_keep. intros a na Ha.
    destruct (adopt_keeps a na Ha) as (na' & ? & ? & _). eauto. }
  constructor.
  - rewrite root_same. destruct (vt_root _ _ _ tree) as [r Hr].
    destruct (adopt_keeps _ _ Hr) as (r' & ? & _). by eexists.
  - rewrite after. unfold adopt. rewrite !lookup_insert_ne by done. apply tree.
  - intros a na Ha. rewrite after in Ha. unfold adopt in Ha. unfold kids_with.
    destruct (decide (a = parent)) as [->|Ha1].
    + rewrite lookup_insert_eq in Ha. injection Ha as <-. cbn [n_children n_with_children chain_of].
      split; [done|]. split; [done|].
      exists (n_with_next (n_children np) (n_with_parent parent n)). split.
      * rewrite after. unfold adopt. rewrite lookup_insert_ne by done. apply lookup_insert_eq.
      * cbn [n_next n_with_next]. by apply Hch, (vt_kids _ _ _ tree).
    + rewrite lookup_insert_ne in Ha by done. destruct (decide (a = p)) as [->|Ha2].
      * rewrite lookup_insert_eq in Ha. injection Ha as <-. cbn. done.
      * rewrite lookup_insert_ne in Ha by done. by apply Hch, (vt_kids _ _ _ tree).
  - intros a b Ha Hb. unfold kids_with, depth_with in *.
    assert (forall c d, is_Some (nodes s !! c) -> d ∈ K c -> d <> p) as Hold.
    { intros c d [nc Hc] Hd ->. destruct (chain_nodes _ _ _ _ (vt_kids _ _ _ tree c nc Hc) Hd) as [[? ?] _].
      congruence. }
    destruct (decide (a = parent)) as [->|Ha1].
    + rewrite (decide_False (P := parent = p)) by done. apply elem_of_cons in Hb as [->|Hb].
      * by rewrite decide_True.
      * rewrite decide_False by (eapply Hold; [by eexists|done]).
        by apply (vt_depth _ _ _ tree); [eexists|].
    + destruct (decide (a = p)) as [->|Ha2]; [by apply elem_of_nil in Hb|].
      assert (is_Some (nodes s !! a)) as Ha'.
      { rewrite after in Ha. unfold adopt in Ha. by rewrite !lookup_insert_ne in Ha. }
      rewrite decide_False by (by eapply Hold). by apply (vt_depth _ _ _ tree).
  - unfold depth_with. rewrite root_same. destruct (vt_root _ _ _ tree) as [r Hr].
    rewrite decide_False by congruence. apply tree.
Qed.

Lemma adopt_find a t : is_Some (nodes s !! a) ->
  find_name (nodes s') (K a) t = find_name (nodes s) (K a) t.
Proof using All.
  intros [na Ha]. pose proof (vt_kids _ _ _ tree a na Ha) as Hc. revert Hc.
  generalize (n_children na). induction (K a) as [|b l IH]; intros q Hc; [done|].
  destruct Hc as (-> & _ & nb & Hnb & Hc). cbn [find_name]. rewrite Hnb.
  destruct (adopt_keeps b nb Hnb) as (nb' & -> & _ & -> & _).
  destruct (decide (n_name nb = t)); [done|]. by eapply IH.
Qed.

(** Walks that end no deeper than [parent] are what they were. *)
Lemma adopt_resolve ts : forall a, a = 0 \/ is_Some (nodes s !! a) ->
  (depth a + length ts <= depth parent)%nat \/ a = 0 ->
  resolve (nodes s') (kids_with K parent p) a ts = resolve (nodes s) K a ts.
Proof using All.
  induction ts as [|t ts IH]; intros a Ha Hd; [done|]. cbn [resolve].
  destruct (Z.eqb_spec a 0) as [|Ha0]; [done|]. destruct Ha as [?|Ha]; [done|].
  destruct Hd as [Hd|?]; [|done]. cbn [length] in Hd.
  assert (kids_with K parent p a = K a) as ->.
  { unfold kids_with. rewrite !decide_False; [done|intros ->; destruct Ha; congruence|].
    intros ->. lia. }
  rewrite adopt_find by done. set (b := find_name _ _ _).
  destruct (find_name_in (nodes s) (K a) t) as [E|Hin]; fold b in E || fold b in Hin.
  - rewrite E. apply IH; auto.
  - apply IH.
    + right. destruct Ha as [na Hna]. by apply (chain_nodes _ _ _ _ (vt_kids _ _ _ tree a na Hna)).
    + left. rewrite (vt_depth _ _ _ tree a b) by done. lia.
Qed.
End Adopt.

Lemma resolve_depth s K depth ts : vfs_tree s K depth -> forall a, is_Some (nodes s !! a) ->
  resolve (nodes s) K a ts <> 0 ->
  depth (resolve (nodes s) K a ts) = (depth a + length ts)%nat /\
  is_Some (nodes s !! resolve (nodes s) K a ts).
Proof using Type.
  intros Ht. induction ts as [|t ts IH]; intros a Ha Hr; cbn [resolve length] in *; [by rewrite Nat.add_0_r|].
  destruct (Z.eqb_spec a 0); [done|].
  destruct (find_name_in (nodes s) (K a) t) as [E|Hin].
  - rewrite E in Hr. destruct ts; cbn in Hr; done.
  - assert (is_Some (nodes s !! find_name (nodes s) (K a) t)) as Hb.
    { destruct Ha as [na Hna]. by apply (chain_nodes _ _ _ _ (vt_kids _ _ _ Ht a na Hna)). }
    destruct (IH _ Hb Hr) as [-> ?]. split; [|done]. rewrite (vt_depth _ _ _ Ht a _ Ha Hin). lia.
Qed.

Lemma resolve_app m K ts1 ts2 : forall a,
  resolve m K a (ts1 ++ ts2) = resolve m K (resolve m K a ts1) ts2 \/ resolve m K a ts1 = 0 .
Proof using Type.
  induction ts1 as [|t ts1 IH]; intros a; cbn [resolve app]; [by left|].
  destruct (a =? 0); [by right|]. apply IH.
Qed.

Lemma last_slash_none f : Forall (fun b => b <> 47) f -> last_slash f = None.
Proof using Type.
  induction 1 as [|b f Hb Hf IH]; [done|]. cbn [last_slash]. rewrite IH.
  by rewrite (proj2 (Z.eqb_neq b 47)).
Qed.

Lemma last_slash_app d f : Forall (fun b => b <> 47) f -> last_slash (d ++ 47 :: f) = Some (length d).
Proof using Type.
  intros Hf. induction d as [|b d IH]; cbn [app last_slash length].
  - by rewrite last_slash_none.
  - by rewrite IH.
Qed.

(** [fs_create] of the file [name] in the directory [dir]. *)
Section NewFile.
Context (s : fs H) (K : Z -> list Z) (depth : Z -> nat) (dir name : text) (mode parent : Z) (np : vfs_node).
Hypothesis tree : vfs_tree s K depth.
Hypothesis small : kids_small s K.
Hypothesis room : Z.of_nat (length (K parent)) + 1 < 2 ^ 64.
Hypothesis known : holds s ∅.
Hypothesis absolute : head dir = Some 47.
Hypothesis simple : Forall (fun b => b <> 47) name.
Hypothesis path_fits : (length dir + 1 + length name <= 511)%nat.
Hypothesis resolves : resolve (nodes s) K (vfs_root s) (path_tokens dir) = parent.
Hypothesis parent_node : nodes s !! parent = Some np.
Hypothesis parent_dir : is_dir np = true.

Definition new_node : vfs_node := Node (take 255 name) 0 mode 0 0 0 0 0 0 0 (Some memfs_file_ops) 0.

(** What the path of the new node [r] leads to: a path that ends in a slash
    leads to the directory, and a name that had to be cut to what it led to
    before. *)
Definition found_after (r : Z) : Z :=
  match name with
  | [] => parent
  | _ => if (length name <=? 255)%nat then r else find_name (nodes s) (K parent) name
  end.

Lemma parent_some : parent <> 0.
Proof using tree parent_node. intros E. pose proof (vt_null _ _ _ tree) as Hnull. congruence. Qed.

Lemma new_file_resolves s' p :
  nodes s !! p = None -> p <> 0 -> nodes s' = adopt parent p np new_node (nodes s) ->
  vfs_root s' = vfs_root s ->
  resolve (nodes s') (kids_with K parent p) (vfs_root s') (path_tokens (dir ++ 47 :: name)) = found_after p.
Proof using All.
  intros Hfresh Hp Hafter Hroot. pose proof parent_some as Hpar. rewrite path_tokens_slash.
  assert (resolve (nodes s') (kids_with K parent p) (vfs_root s') (path_tokens dir) = parent) as Hdir.
  { rewrite Hroot, (adopt_resolve s s' K depth parent p np new_node); try done.
    - right. apply tree.
    - left. destruct (resolve_depth s K depth (path_tokens dir) tree (vfs_root s)) as [E _];
        [apply tree|congruence|]. rewrite resolves in E. lia. }
  unfold found_after. destruct name as [|c nm] eqn:En; [by rewrite app_nil_r|]. rewrite <- En in *.
  rewrite (path_tokens_name name); [|done|by rewrite En].
  destruct (resolve_app (nodes s') (kids_with K parent p) (path_tokens dir) [name] (vfs_root s'))
    as [E|?]; [|congruence].
  etrans; [exact E|]. rewrite Hdir. cbn [resolve]. rewrite (proj2 (Z.eqb_neq parent 0)) by done.
  unfold kids_with. rewrite decide_True by done. cbn [find_name].
  assert (parent <> p) by congruence.
  assert (nodes s' !! p = Some (n_with_next (n_children np) (n_with_parent parent new_node))) as ->.
  { rewrite Hafter. unfold adopt. by rewrite lookup_insert_ne, lookup_insert_eq. }
  cbn [n_name n_with_next n_with_parent new_node]. destruct (Nat.leb_spec (length name) 255).
  - rewrite take_ge by lia. by rewrite decide_True.
  - rewrite decide_False; [by eapply (adopt_find s s' K depth parent p np new_node)|].
    intros Et. apply (f_equal length) in Et. rewrite length_take in Et. lia.
Qed.

Lemma wp_fs_create (Q : Z -> fs H -> Prop) :
  (forall h, Q 0 (set_heap h s)) ->
  (forall p h, nodes s !! p = None -> 0 < p ->
     Q p (set_nodes (adopt parent p np new_node (nodes s)) (set_heap h s))) ->
  wp (fs_create (Some (dir ++ 47 :: name)) mode) Q s.
Proof using All.
  intros H0 H1. destruct dir as [|c dir'] eqn:Ed; [done|]. cbn in absolute. injection absolute as ->.
  cbn [app]. unfold fs_create. pose proof (last_slash_app dir name simple) as Hls.
  assert (take 511 (47 :: dir' ++ 47 :: name) = dir ++ 47 :: name) as ->.
  { rewrite Ed. apply take_ge. cbn [length app] in *. rewrite length_app. cbn [length]. lia. }
  rewrite Hls. rewrite Ed at 1. cbn [length].
  replace (S (length dir')) with (length dir) by (by rewrite Ed).
  rewrite take_app_length. replace (S (length dir)) with (length dir + 1)%nat by lia.
  rewrite drop_app_add. cbn [drop]. rewrite drop_0. wp_step. rewrite Ed.
  apply (wp_fs_lookup s K depth); [done|done|].
  rewrite take_ge by (cbn [length app] in *; lia). rewrite resolves.
  pose proof parent_some as Hpar. rewrite (proj2 (Z.eqb_neq parent 0)) by done.
  do 2 wp_step. apply (wp_get_node _ _ np); [done|]. wp_step. rewrite parent_dir. cbn [negb]. wp_step.
  apply wp_vfs_create_node; [done| |].
  { intros h _. wp_steps. apply H0. }
  fold new_node. intros p h Hp Hnew n s1 Hh1.
  assert (nodes s !! p = None) as Hfresh.
  { apply not_elem_of_dom. intros Hin. apply Hnew. unfold addresses. set_solver. }
  rewrite (proj2 (Z.eqb_neq p 0)) by lia. wp_step.
  assert (parent <> p) by congruence.
  apply (wp_vfs_add_child s1 parent p np n); [|apply lookup_insert_eq|done|lia|done|].
  { cbn. by rewrite lookup_insert_ne by congruence. }
  rewrite (proj2 (Z.eqb_neq p 0)) by lia. wp_step.
  specialize (H1 p h Hfresh Hp). unfold adopt in *. cbn in *. by rewrite insert_insert_eq.
Qed.

(** C6: Creating a file and looking it up.  [fs_create] of a path of at most
    511 characters, whose part before the last slash names a directory,
    either returns null and leaves the tree alone, or returns a new node, the
    first entry of its directory, and keeps the tree a tree.  [fs_lookup] of
    the same path then finds the new node, whatever was there before, when
    its name has 1 to 255 characters.  A longer name is cut, and the path
    leads to what it led to before; the node of a path that ends in a slash
    has no name, and the path leads to the directory ([found_after]). *)
Theorem fs_create_correct :
  exists r s', fs_create (Some (dir ++ 47 :: name)) mode s = Ok (r, s') /\
    (r = 0 /\ nodes s' = nodes s \/
     nodes s !! r = None /\ nodes s' = adopt parent r np new_node (nodes s) /\
     vfs_tree s' (kids_with K parent r) (depth_with depth parent r) /\
     fs_lookup (Some (dir ++ 47 :: name)) s' = Ok (found_after r, s')).
Proof using All.
  enough (wp (fs_create (Some (dir ++ 47 :: name)) mode) (fun r s' =>
    r = 0 /\ nodes s' = nodes s \/
    nodes s !! r = None /\ nodes s' = adopt parent r np new_node (nodes s) /\
    vfs_tree s' (kids_with K parent r) (depth_with depth parent r) /\
    fs_lookup (Some (dir ++ 47 :: name)) s' = Ok (found_after r, s')) s) as Hw by (by apply wp_run in Hw).
  apply wp_fs_create; [by left|]. intros p h Hfresh Hp. right. set (s' := set_nodes _ _).
  assert (vfs_tree s' (kids_with K parent p) (depth_with depth parent p)) as Ht.
  { by eapply (adopt_tree s s' K depth parent p np new_node); [..|lia| | |]. }
  split; [done|]. split; [done|]. split; [done|]. apply wp_det.
  pose proof (new_file_resolves s' p Hfresh ltac:(lia) eq_refl eq_refl) as Hr.
  destruct dir as [|c dir'] eqn:Ed; [done|]. cbn in absolute. injection absolute as ->.
  cbn [app]. apply (wp_fs_lookup s' _ _ _ _ Ht).
  - intros a [na Ha]. unfold kids_with.
    destruct (decide (a = parent)); [cbn [length]; lia|]. destruct (decide (a = p)); [cbn; lia|].
    apply small. cbn in Ha. unfold adopt in Ha. rewrite !lookup_insert_ne in Ha by done. by eexists.
  - split; [|done]. cbn [app] in Hr.
    rewrite take_ge; [done|]. cbn [length] in *. rewrite length_app. cbn [length]. lia.
Qed.
End NewFile.
End Create.

(** ** What the other path operations do *)

Section Paths.
Context {H : Type} {KA : KAlloc H}.
Implicit Types (s : fs H).

(** A file directly under the root cannot be created by its usual path. *)
Lemma fs_create_refuses_root name mode s :
  Forall (fun b => b <> 47) name -> (length name < 511)%nat ->
  fs_create (Some (47 :: name)) mode s = Ok (0, s).
Proof using Type.
  intros Hn Hl. unfold fs_create. rewrite take_ge by (cbn [length]; lia).
  pose proof (last_slash_app [] name Hn) as E. cbn [app length] in E. by rewrite E.
Qed.

(** Removing a file succeeds without removing it. *)
Lemma fs_unlink_keeps s K depth path a n :
  vfs_tree s K depth -> kids_small s K ->
  resolve (nodes s) K (vfs_root s) (path_tokens (take 511 (47 :: path))) = a ->
  nodes s !! a = Some n -> is_dir n = false ->
  fs_unlink (Some (47 :: path)) s = Ok (0, s).
Proof using Type.
  intros Ht Hk Ha Hn Hd. apply wp_det. unfold fs_unlink. wp_step.
  apply (wp_fs_lookup s K depth); [done..|]. rewrite Ha.
  assert (a <> 0) by (pose proof (vt_null _ _ _ Ht); congruence).
  rewrite (proj2 (Z.eqb_neq a 0)) by done. do 2 wp_step. apply (wp_get_node _ _ n); [done|].
  rewrite Hd. by wp_steps.
Qed.
End Paths.

(** ** Witnesses *)

Definition demo_kids (a : Z) : list Z := if decide (a = 16777216) then [16777552] else [].
Definition demo_depth (a : Z) : nat := if decide (a = 16777216) then 0%nat else 1%nat.

Lemma demo_nodes a : is_Some (nodes demo_fs !! a) ->
  a = 16777216 /\ nodes demo_fs !! a = Some demo_root \/ a = 16777552 /\ nodes demo_fs !! a = Some demo_node.
Proof.
  intros Ha. destruct (decide (a = 16777216)) as [->|H1]; [by left|].
  destruct (decide (a = 16777552)) as [->|H2]; [by right|]. exfalso. cbn in Ha.
  rewrite lookup_insert_ne, lookup_singleton_ne in Ha by done. by destruct Ha.
Qed.

Lemma demo_tree : vfs_tree demo_fs demo_kids demo_depth.
Proof.
  constructor; [by eexists|done| | |done].
  - intros a n Ha. destruct (demo_nodes a) as [[-> E]|[-> E]]; [by eexists| |].
    + assert (n = demo_root) as -> by congruence. cbn. split; [done|]. split; [done|].
      by exists demo_node.
    + assert (n = demo_node) as -> by congruence. done.
  - intros a b Ha Hb. unfold demo_kids in Hb. destruct (decide (a = 16777216)) as [->|].
    + apply list_elem_of_singleton in Hb as ->. done.
    + by apply elem_of_nil in Hb.
Qed.

Lemma demo_kids_small : kids_small demo_fs demo_kids.
Proof. intros a _. unfold demo_kids. by destruct (decide (a = 16777216)). Qed.

(** ["//f"] *)
Lemma fs_lookup_correct_witness : fs_lookup (Some [47; 47; 102]) demo_fs = Ok (16777552, demo_fs).
Proof.
  apply (fs_lookup_correct demo_fs demo_kids demo_depth [47; 102]); [exact demo_tree|exact demo_kids_small].
Defined.

(** A second ["f"] shadows the first. *)
Lemma fs_create_correct_witness :
  exists r s', fs_create (Some [47; 47; 102]) (Z.lor S_IFREG 420) demo_fs = Ok (r, s') /\
    (r = 0 /\ nodes s' = nodes demo_fs \/
     nodes demo_fs !! r = None /\
     nodes s' = adopt 16777216 r demo_root (new_node [102] (Z.lor S_IFREG 420)) (nodes demo_fs) /\
     vfs_tree s' (kids_with demo_kids 16777216 r) (depth_with demo_depth 16777216 r) /\
     fs_lookup (Some [47; 47; 102]) s' = Ok (r, s')).
Proof.
  apply (fs_create_correct demo_fs demo_kids demo_depth [47] [102] (Z.lor S_IFREG 420) 16777216 demo_root);
    first [exact demo_tree|exact demo_kids_small|exact demo_holds|reflexivity|cbn; lia|done|idtac].
  constructor; [lia|constructor].
Defined.
