(* ===== verification/Process.v ===== *)
(** * Processes, threads, the scheduler and mutexes (kernel/process.c, process.h)

    Processes, threads, thread stacks and mutexes are objects in stores keyed
    by address, 0 being the null pointer; reading an object that is not there
    (or no longer there) is a [Fault].  The kernel allocator and the address
    spaces are used through the interfaces [KAlloc] and [KSpaces]; what other
    code does when the kernel hands control over is the class [Platform]:
    [context_switch from to] (kernel/context.asm) is all that happens until
    [from] runs again.

    process.c uses more members of [process_t] than kernel.h declares; the
    record has those process.c uses, and its size is a member of [Platform]. *)

From S2P Require Import Prelude Alloc KHeap Paging.

(** ** Constants *)

Definition PROC_STATE_RUNNING : Z := 0.
Definition PROC_STATE_SLEEPING : Z := 1.
Definition PROC_STATE_TERMINATED : Z := 2.
Definition PROC_STATE_ZOMBIE : Z := 3.
Definition THREAD_STATE_RUNNING : Z := 0.
Definition THREAD_STATE_READY : Z := 1.
Definition THREAD_STATE_BLOCKED : Z := 2.
Definition THREAD_STATE_TERMINATED : Z := 3.
Definition SIGINT : Z := 2.
Definition SIGKILL : Z := 9.
Definition SIGTERM : Z := 15.
Definition SIGCHLD : Z := 17.
Definition SIGSTOP : Z := 19.
Definition SIGCONT : Z := 20.
Definition sizeof_thread : Z := 152.

(** ** Data *)

(** The saved registers of a thread. *)
Record context : Type := Regs {
  rip : Z; rbx : Z; rbp : Z; r12 : Z; r13 : Z; r14 : Z; r15 : Z;
}.

Record thread : Type := Thread {
  tid : Z; t_pid : Z; t_state : Z;
  stack_base : Z; stack_top : Z; rsp : Z; t_regs : context;
  priority : Z; time_slice : Z; last_run : Z;
  waiting_on : Z; wait_object : Z;
  t_next : Z; t_prev : Z;
}.

Record process : Type := Process {
  pid : Z; ppid : Z; p_state : Z; exit_code : Z; start_time : Z; uid : Z; gid : Z;
  memory_space : Z; fd_list : Z; fd_count : Z;
  signal_handlers : list Z; pending_signals : Z;
  parent : Z; children : Z; p_next : Z; p_prev : Z;
}.

Record mutex : Type := Mutex {
  owner : Z; lock_count : Z; wait_queue : Z; initialized : bool;
}.

Definition t_with_state (v : Z) (t : thread) : thread :=
  Thread (tid t) (t_pid t) v (stack_base t) (stack_top t) (rsp t) (t_regs t) (priority t)
    (time_slice t) (last_run t) (waiting_on t) (wait_object t) (t_next t) (t_prev t).
Definition t_with_stack (base top sp : Z) (t : thread) : thread :=
  Thread (tid t) (t_pid t) (t_state t) base top sp (t_regs t) (priority t)
    (time_slice t) (last_run t) (waiting_on t) (wait_object t) (t_next t) (t_prev t).
Definition t_with_regs (r : context) (t : thread) : thread :=
  Thread (tid t) (t_pid t) (t_state t) (stack_base t) (stack_top t) (rsp t) r (priority t)
    (time_slice t) (last_run t) (waiting_on t) (wait_object t) (t_next t) (t_prev t).
Definition t_with_priority (v : Z) (t : thread) : thread :=
  Thread (tid t) (t_pid t) (t_state t) (stack_base t) (stack_top t) (rsp t) (t_regs t) v
    (time_slice t) (last_run t) (waiting_on t) (wait_object t) (t_next t) (t_prev t).
Definition t_with_slice (v : Z) (t : thread) : thread :=
  Thread (tid t) (t_pid t) (t_state t) (stack_base t) (stack_top t) (rsp t) (t_regs t) (priority t)
    v (last_run t) (waiting_on t) (wait_object t) (t_next t) (t_prev t).
Definition t_with_next (v : Z) (t : thread) : thread :=
  Thread (tid t) (t_pid t) (t_state t) (stack_base t) (stack_top t) (rsp t) (t_regs t) (priority t)
    (time_slice t) (last_run t) (waiting_on t) (wait_object t) v (t_prev t).
Definition t_with_prev (v : Z) (t : thread) : thread :=
  Thread (tid t) (t_pid t) (t_state t) (stack_base t) (stack_top t) (rsp t) (t_regs t) (priority t)
    (time_slice t) (last_run t) (waiting_on t) (wait_object t) (t_next t) v.

Definition p_with_state (v : Z) (p : process) : process :=
  Process (pid p) (ppid p) v (exit_code p) (start_time p) (uid p) (gid p) (memory_space p) (fd_list p)
    (fd_count p) (signal_handlers p) (pending_signals p) (parent p) (children p) (p_next p) (p_prev p).
Definition p_with_exit (v : Z) (p : process) : process :=
  Process (pid p) (ppid p) (p_state p) v (start_time p) (uid p) (gid p) (memory_space p) (fd_list p)
    (fd_count p) (signal_handlers p) (pending_signals p) (parent p) (children p) (p_next p) (p_prev p).
Definition p_with_space (v : Z) (p : process) : process :=
  Process (pid p) (ppid p) (p_state p) (exit_code p) (start_time p) (uid p) (gid p) v (fd_list p)
    (fd_count p) (signal_handlers p) (pending_signals p) (parent p) (children p) (p_next p) (p_prev p).
Definition p_with_handlers (v : list Z) (p : process) : process :=
  Process (pid p) (ppid p) (p_state p) (exit_code p) (start_time p) (uid p) (gid p) (memory_space p) (fd_list p)
    (fd_count p) v (pending_signals p) (parent p) (children p) (p_next p) (p_prev p).
Definition p_with_pending (v : Z) (p : process) : process :=
  Process (pid p) (ppid p) (p_state p) (exit_code p) (start_time p) (uid p) (gid p) (memory_space p) (fd_list p)
    (fd_count p) (signal_handlers p) v (parent p) (children p) (p_next p) (p_prev p).
Definition p_with_parent (v : Z) (p : process) : process :=
  Process (pid p) (ppid p) (p_state p) (exit_code p) (start_time p) (uid p) (gid p) (memory_space p) (fd_list p)
    (fd_count p) (signal_handlers p) (pending_signals p) v (children p) (p_next p) (p_prev p).
Definition p_with_children (v : Z) (p : process) : process :=
  Process (pid p) (ppid p) (p_state p) (exit_code p) (start_time p) (uid p) (gid p) (memory_space p) (fd_list p)
    (fd_count p) (signal_handlers p) (pending_signals p) (parent p) v (p_next p) (p_prev p).
Definition p_with_next (v : Z) (p : process) : process :=
  Process (pid p) (ppid p) (p_state p) (exit_code p) (start_time p) (uid p) (gid p) (memory_space p) (fd_list p)
    (fd_count p) (signal_handlers p) (pending_signals p) (parent p) (children p) v (p_prev p).
Definition p_with_prev (v : Z) (p : process) : process :=
  Process (pid p) (ppid p) (p_state p) (exit_code p) (start_time p) (uid p) (gid p) (memory_space p) (fd_list p)
    (fd_count p) (signal_handlers p) (pending_signals p) (parent p) (children p) (p_next p) v.

(** ** Interfaces *)

(** The address spaces of the memory manager. *)
Class KSpaces (H : Type) : Type := {
  mm_create_space_op : prog H Z;
  mm_destroy_space_op : Z -> prog H unit;
}.

#[export] Instance paging_spaces : KSpaces mm :=
  {| mm_create_space_op := mm_create_space; mm_destroy_space_op := mm_destroy_space |}.

(** The whole state. *)
Record ps (H : Type) : Type := Ps {
  kmem : H;
  procs : gmap Z process;
  threads : gmap Z thread;
  stacks : gmap Z (gmap Z Z);
  mutexes : gmap Z mutex;
  process_list : Z;
  ready_queue : Z;
  current_thread : Z;
  current_process : Z;
  next_pid : Z;
  next_tid : Z;
}.
Arguments Ps {H}.
Arguments kmem {H}.
Arguments procs {H}.
Arguments threads {H}.
Arguments stacks {H}.
Arguments mutexes {H}.
Arguments process_list {H}.
Arguments ready_queue {H}.
Arguments current_thread {H}.
Arguments current_process {H}.
Arguments next_pid {H}.
Arguments next_tid {H}.

(** Code outside these files: the switch of contexts, the switch of address
    spaces (declared in mm.h and defined nowhere), the halted processor, the
    handlers of a process, two code addresses and the size of [process_t]. *)
Class Platform (H : Type) : Type := {
  context_switch : Z -> Z -> prog (ps H) unit;
  mm_switch_space : Z -> prog (ps H) unit;
  hlt : prog (ps H) unit;
  call_handler : Z -> Z -> prog (ps H) unit;
  thread_entry_wrapper_addr : Z;
  thread_exit_addr : Z;
  sizeof_process : Z;
}.

Section Processes.
Context {H : Type} {KA : KAlloc H} {KS : KSpaces H} {PF : Platform H}.

Definition set_kmem (v : H) (s : ps H) : ps H :=
  Ps v (procs s) (threads s) (stacks s) (mutexes s) (process_list s) (ready_queue s) (current_thread s)
    (current_process s) (next_pid s) (next_tid s).
Definition set_procs (v : gmap Z process) (s : ps H) : ps H :=
  Ps (kmem s) v (threads s) (stacks s) (mutexes s) (process_list s) (ready_queue s) (current_thread s)
    (current_process s) (next_pid s) (next_tid s).
Definition set_threads (v : gmap Z thread) (s : ps H) : ps H :=
  Ps (kmem s) (procs s) v (stacks s) (mutexes s) (process_list s) (ready_queue s) (current_thread s)
    (current_process s) (next_pid s) (next_tid s).
Definition set_stacks (v : gmap Z (gmap Z Z)) (s : ps H) : ps H :=
  Ps (kmem s) (procs s) (threads s) v (mutexes s) (process_list s) (ready_queue s) (current_thread s)
    (current_process s) (next_pid s) (next_tid s).
Definition set_mutexes (v : gmap Z mutex) (s : ps H) : ps H :=
  Ps (kmem s) (procs s) (threads s) (stacks s) v (process_list s) (ready_queue s) (current_thread s)
    (current_process s) (next_pid s) (next_tid s).
Definition set_process_list (v : Z) (s : ps H) : ps H :=
  Ps (kmem s) (procs s) (threads s) (stacks s) (mutexes s) v (ready_queue s) (current_thread s)
    (current_process s) (next_pid s) (next_tid s).
Definition set_ready_queue (v : Z) (s : ps H) : ps H :=
  Ps (kmem s) (procs s) (threads s) (stacks s) (mutexes s) (process_list s) v (current_thread s)
    (current_process s) (next_pid s) (next_tid s).
Definition set_current_thread (v : Z) (s : ps H) : ps H :=
  Ps (kmem s) (procs s) (threads s) (stacks s) (mutexes s) (process_list s) (ready_queue s) v
    (current_process s) (next_pid s) (next_tid s).
Definition set_current_process (v : Z) (s : ps H) : ps H :=
  Ps (kmem s) (procs s) (threads s) (stacks s) (mutexes s) (process_list s) (ready_queue s) (current_thread s)
    v (next_pid s) (next_tid s).
Definition set_ids (vp vt : Z) (s : ps H) : ps H :=
  Ps (kmem s) (procs s) (threads s) (stacks s) (mutexes s) (process_list s) (ready_queue s) (current_thread s)
    (current_process s) vp vt.

(** ** Objects *)

Definition on_kmem {A} (p : prog H A) : prog (ps H) A :=
  fun s => match p (kmem s) with
           | Ok (a, h) => Ok (a, set_kmem h s)
           | Fault => Fault
           | Spin => Spin
           end.
Definition kmalloc (n : Z) : prog (ps H) Z := on_kmem (kmalloc_op n).
Definition kfree (p : Z) : prog (ps H) unit := on_kmem (kfree_op p).

Definition get_proc (a : Z) : prog (ps H) process := getf (fun s => procs s !! a).
Definition put_proc (a : Z) (p : process) : prog (ps H) unit :=
  modify (fun s => set_procs (<[a := p]> (procs s)) s).
Definition upd_proc (a : Z) (f : process -> process) : prog (ps H) unit :=
  let* p := get_proc a in put_proc a (f p).
Definition free_proc (a : Z) : prog (ps H) unit :=
  get_proc a ;; kfree a ;; modify (fun s => set_procs (delete a (procs s)) s).

Definition get_thread (a : Z) : prog (ps H) thread := getf (fun s => threads s !! a).
Definition put_thread (a : Z) (t : thread) : prog (ps H) unit :=
  modify (fun s => set_threads (<[a := t]> (threads s)) s).
Definition upd_thread (a : Z) (f : thread -> thread) : prog (ps H) unit :=
  let* t := get_thread a in put_thread a (f t).
Definition free_thread (a : Z) : prog (ps H) unit :=
  get_thread a ;; kfree a ;; modify (fun s => set_threads (delete a (threads s)) s).

Definition get_mutex (a : Z) : prog (ps H) mutex := getf (fun s => mutexes s !! a).
Definition put_mutex (a : Z) (m : mutex) : prog (ps H) unit :=
  modify (fun s => set_mutexes (<[a := m]> (mutexes s)) s).

(** A thread's stack: the 64-bit words written to it. *)
Definition free_stack (a : Z) : prog (ps H) unit :=
  getf (fun s => stacks s !! a) ;; kfree a ;; modify (fun s => set_stacks (delete a (stacks s)) s).
Definition stack_store (base a v : Z) : prog (ps H) unit :=
  let* st := getf (fun s => stacks s !! base) in
  if (base <=? a) && (a + 8 <=? base + 65536)
  then modify (fun s => set_stacks (<[base := <[a := v]> st]> (stacks s)) s)
  else fault.

(** ** The ready queue *)

Definition scheduler_add_thread (thread : Z) : prog (ps H) unit :=
  if thread =? 0 then ret tt
  else
    let* q := gets ready_queue in
    upd_thread thread (t_with_next q) ;;
    upd_thread thread (t_with_prev 0) ;;
    (if negb (q =? 0) then upd_thread q (t_with_prev thread) else ret tt) ;;
    modify (set_ready_queue thread).

Definition scheduler_remove_thread (thread : Z) : prog (ps H) unit :=
  if thread =? 0 then ret tt
  else
    let* t := get_thread thread in
    (if negb (t_prev t =? 0) then upd_thread (t_prev t) (t_with_next (t_next t))
     else modify (set_ready_queue (t_next t))) ;;
    let* t := get_thread thread in
    (if negb (t_next t =? 0) then upd_thread (t_next t) (t_with_prev (t_prev t)) else ret tt) ;;
    upd_thread thread (t_with_next 0) ;;
    upd_thread thread (t_with_prev 0).

Definition process_find_by_pid (pid_ : Z) : prog (ps H) Z :=
  let* first := gets process_list in
  loop (fun proc =>
    if negb (proc =? 0) then
      let* p := get_proc proc in
      if pid p =? pid_ then ret (Done proc) else ret (Next (p_next p))
    else ret (Done 0)) first.

Definition scheduler_schedule : prog (ps H) unit :=
  let* next_thread := gets ready_queue in
  if next_thread =? 0 then hlt
  else
    scheduler_remove_thread next_thread ;;
    let* prev_thread := gets current_thread in
    modify (set_current_thread next_thread) ;;
    let* t := get_thread next_thread in
    let* proc := process_find_by_pid (t_pid t) in
    modify (set_current_process proc) ;;
    (if negb (proc =? 0) then let* p := get_proc proc in mm_switch_space (memory_space p) else ret tt) ;;
    upd_thread next_thread (t_with_state THREAD_STATE_RUNNING) ;;
    if negb (prev_thread =? 0) && negb (prev_thread =? next_thread)
    then context_switch prev_thread next_thread else ret tt.

Definition scheduler_init : prog (ps H) unit :=
  modify (set_ready_queue 0) ;; modify (set_current_thread 0).

Definition scheduler_start : prog (ps H) unit := scheduler_schedule.

(** ** Threads *)

Definition thread_get_current : prog (ps H) Z := gets current_thread.

Definition zero_regs : context := Regs 0 0 0 0 0 0 0.
Definition with_rip (v : Z) (r : context) : context :=
  Regs v (rbx r) (rbp r) (r12 r) (r13 r) (r14 r) (r15 r).

Definition thread_create (proc start_routine arg : Z) : prog (ps H) Z :=
  if proc =? 0 then ret 0
  else
    let* thread := kmalloc sizeof_thread in
    if thread =? 0 then ret 0
    else
      let* tid := gets next_tid in
      modify (fun s => set_ids (next_pid s) (u32 (tid + 1)) s) ;;
      let* p := get_proc proc in
      put_thread thread (Thread tid (pid p) THREAD_STATE_READY 0 0 0 zero_regs 5 10 0 0 0 0 0) ;;
      let* base := kmalloc 65536 in
      if base =? 0 then free_thread thread ;; ret 0
      else
        modify (fun s => set_stacks (<[base := ∅]> (stacks s)) s) ;;
        let top := u64 (base + 65536) in
        upd_thread thread (t_with_stack base top (u64 (top - 8))) ;;
        (if negb (start_routine =? 0) then
           let* t := get_thread thread in
           put_thread thread (t_with_regs (with_rip thread_entry_wrapper_addr (t_regs t)) t) ;;
           let* t := get_thread thread in
           let stack := rsp t in
           let stack := u64 (stack - 8) in
           stack_store base stack arg ;;
           let stack := u64 (stack - 8) in
           stack_store base stack start_routine ;;
           let stack := u64 (stack - 8) in
           stack_store base stack thread_exit_addr ;;
           upd_thread thread (fun t => t_with_stack (stack_base t) (stack_top t) stack t)
         else ret tt) ;;
        ret thread.

Definition thread_destroy (thread : Z) : prog (ps H) unit :=
  if thread =? 0 then ret tt
  else
    let* t := get_thread thread in
    (if negb (stack_base t =? 0) then free_stack (stack_base t) else ret tt) ;;
    free_thread thread.

Definition thread_exit (retval : Z) : prog (ps H) unit :=
  let* cur := gets current_thread in
  if cur =? 0 then ret tt
  else
    upd_thread cur (t_with_state THREAD_STATE_TERMINATED) ;;
    scheduler_remove_thread cur ;;
    thread_destroy cur ;;
    scheduler_schedule.

Definition thread_yield : prog (ps H) unit :=
  let* cur := gets current_thread in
  (if negb (cur =? 0) then upd_thread cur (t_with_state THREAD_STATE_READY) else ret tt) ;;
  scheduler_schedule.

Definition thread_sleep (milliseconds : Z) : prog (ps H) unit :=
  let* cur := gets current_thread in
  if cur =? 0 then ret tt
  else
    upd_thread cur (t_with_state THREAD_STATE_BLOCKED) ;;
    scheduler_schedule.

Definition thread_block (thread : Z) : prog (ps H) unit :=
  if thread =? 0 then ret tt
  else
    upd_thread thread (t_with_state THREAD_STATE_BLOCKED) ;;
    scheduler_remove_thread thread.

Definition thread_unblock (thread : Z) : prog (ps H) unit :=
  if thread =? 0 then ret tt
  else
    upd_thread thread (t_with_state THREAD_STATE_READY) ;;
    scheduler_add_thread thread.

Definition thread_set_priority (thread priority : Z) : prog (ps H) unit :=
  if thread =? 0 then ret tt else upd_thread thread (t_with_priority priority).

Definition scheduler_tick : prog (ps H) unit :=
  let* cur := gets current_thread in
  if cur =? 0 then ret tt
  else
    upd_thread cur (fun t => t_with_slice (u64 (time_slice t - 1)) t) ;;
    let* t := get_thread cur in
    if time_slice t <=? 0 then
      upd_thread cur (t_with_slice 10) ;;
      thread_yield
    else ret tt.

(** ** Mutexes *)

Definition mutex_init (mutex : Z) : prog (ps H) Z :=
  if mutex =? 0 then ret (-1)
  else get_mutex mutex ;; put_mutex mutex (Mutex 0 0 0 true) ;; ret 0.

(** [!mutex || !mutex->initialized] *)
Definition mutex_bad (mutex : Z) : prog (ps H) bool :=
  if mutex =? 0 then ret true else let* m := get_mutex mutex in ret (negb (initialized m)).

Definition mutex_lock (mutex : Z) : prog (ps H) Z :=
  let* bad := mutex_bad mutex in
  if (bad : bool) then ret (-1)
  else
    let* m := get_mutex mutex in
    let* cur := gets current_thread in
    if owner m =? 0 then
      let* t := get_thread cur in
      put_mutex mutex (Mutex (tid t) 1 (wait_queue m) (initialized m)) ;;
      ret 0
    else
      let* t := get_thread cur in
      if owner m =? tid t then
        put_mutex mutex (Mutex (owner m) (u32 (lock_count m + 1)) (wait_queue m) (initialized m)) ;;
        ret 0
      else
        thread_block cur ;;
        let* m := get_mutex mutex in
        upd_thread cur (t_with_next (wait_queue m)) ;;
        put_mutex mutex (Mutex (owner m) (lock_count m) cur (initialized m)) ;;
        scheduler_schedule ;;
        ret 0.

Definition mutex_unlock (mutex : Z) : prog (ps H) Z :=
  let* bad := mutex_bad mutex in
  if (bad : bool) then ret (-1)
  else
    let* m := get_mutex mutex in
    let* cur := gets current_thread in
    let* t := get_thread cur in
    if negb (owner m =? tid t) then ret (-1)
    else
      let count := u32 (lock_count m - 1) in
      put_mutex mutex (Mutex (owner m) count (wait_queue m) (initialized m)) ;;
      (if count =? 0 then
         put_mutex mutex (Mutex 0 count (wait_queue m) (initialized m)) ;;
         if negb (wait_queue m =? 0) then
           let next := wait_queue m in
           let* n := get_thread next in
           put_mutex mutex (Mutex (tid n) 1 (t_next n) (initialized m)) ;;
           thread_unblock next
         else ret tt
       else ret tt) ;;
      ret 0.

Definition mutex_trylock (mutex : Z) : prog (ps H) Z :=
  let* bad := mutex_bad mutex in
  if (bad : bool) then ret (-1)
  else
    let* m := get_mutex mutex in
    if owner m =? 0 then
      let* cur := gets current_thread in
      let* t := get_thread cur in
      put_mutex mutex (Mutex (tid t) 1 (wait_queue m) (initialized m)) ;;
      ret 0
    else ret (-1).

Definition mutex_destroy (mutex : Z) : prog (ps H) unit :=
  if mutex =? 0 then ret tt
  else
    let* m := get_mutex mutex in
    put_mutex mutex (Mutex (owner m) (lock_count m) (wait_queue m) false) ;;
    loop (fun waiter =>
      if negb (waiter =? 0) then
        let* w := get_thread waiter in
        thread_unblock waiter ;;
        ret (Next (t_next w))
      else ret (Done tt)) (wait_queue m).

(** ** Processes *)

Definition process_get_current : prog (ps H) Z := gets current_process.

Definition process_init : prog (ps H) unit :=
  modify (set_process_list 0) ;;
  modify (set_ready_queue 0) ;;
  modify (set_current_thread 0) ;;
  modify (set_current_process 0) ;;
  modify (set_ids 1 1).

Definition process_add_child (parent_ child : Z) : prog (ps H) unit :=
  upd_proc child (p_with_parent parent_) ;;
  let* p := get_proc parent_ in
  upd_proc child (p_with_next (children p)) ;;
  let* p := get_proc parent_ in
  (if negb (children p =? 0) then upd_proc (children p) (p_with_prev child) else ret tt) ;;
  upd_proc parent_ (p_with_children child) ;;
  upd_proc child (p_with_prev 0).

Definition process_remove_child (parent_ child : Z) : prog (ps H) unit :=
  let* c := get_proc child in
  (if negb (p_prev c =? 0) then upd_proc (p_prev c) (p_with_next (p_next c))
   else upd_proc parent_ (p_with_children (p_next c))) ;;
  let* c := get_proc child in
  (if negb (p_next c =? 0) then upd_proc (p_next c) (p_with_prev (p_prev c)) else ret tt) ;;
  upd_proc child (p_with_parent 0).

Definition process_create : prog (ps H) Z :=
  let* proc := kmalloc sizeof_process in
  if proc =? 0 then ret 0
  else
    let* id := gets next_pid in
    modify (fun s => set_ids (u32 (id + 1)) (next_tid s) s) ;;
    let* cur := gets current_process in
    let* ppid := (if negb (cur =? 0) then let* c := get_proc cur in ret (pid c) else ret 0) in
    put_proc proc (Process id ppid PROC_STATE_RUNNING 0 0 0 0 0 0 0 (replicate 32 0) 0 0 0 0 0) ;;
    let* space := on_kmem mm_create_space_op in
    upd_proc proc (p_with_space space) ;;
    if space =? 0 then free_proc proc ;; ret 0
    else
      let* first := gets process_list in
      upd_proc proc (p_with_next first) ;;
      (if negb (first =? 0) then upd_proc first (p_with_prev proc) else ret tt) ;;
      modify (set_process_list proc) ;;
      upd_proc proc (p_with_prev 0) ;;
      (if negb (cur =? 0) then process_add_child cur proc else ret tt) ;;
      ret proc.

(** The recursion goes down the children; [fuel] bounds its depth. *)
Fixpoint process_destroy (fuel : nat) (proc : Z) : prog (ps H) unit :=
  match fuel with
  | O => spin
  | S fuel =>
      if proc =? 0 then ret tt
      else
        let* p := get_proc proc in
        (if negb (p_prev p =? 0) then upd_proc (p_prev p) (p_with_next (p_next p))
         else modify (set_process_list (p_next p))) ;;
        let* p := get_proc proc in
        (if negb (p_next p =? 0) then upd_proc (p_next p) (p_with_prev (p_prev p)) else ret tt) ;;
        let* p := get_proc proc in
        (if negb (parent p =? 0) then process_remove_child (parent p) proc else ret tt) ;;
        let* p := get_proc proc in
        loop (fun child =>
          if negb (child =? 0) then
            let* c := get_proc child in
            let next := p_next c in
            process_destroy fuel child ;;
            ret (Next next)
          else ret (Done tt)) (children p) ;;
        let* p := get_proc proc in
        (if negb (memory_space p =? 0) then on_kmem (mm_destroy_space_op (memory_space p)) else ret tt) ;;
        free_proc proc
  end.

Definition destroy_fuel : prog (ps H) nat := gets (fun s => S (size (procs s))).

(** ** Signals *)

(** [__builtin_ctz] of a 32-bit number that is not 0. *)
Definition ctz (x : Z) : Z :=
  match filter (fun i => Z.testbit x (Z.of_nat i)) (seq 0 32) with
  | [] => 0
  | i :: _ => Z.of_nat i
  end.

(** The three functions call one another; [fuel] bounds the nesting: a process
    is left (as a zombie) before its parent is signalled. *)
Fixpoint process_exit_ (fuel : nat) (proc status : Z) : prog (ps H) unit :=
  match fuel with
  | O => spin
  | S fuel =>
      if proc =? 0 then ret tt
      else
        upd_proc proc (p_with_state PROC_STATE_ZOMBIE) ;;
        upd_proc proc (p_with_exit status) ;;
        let* p := get_proc proc in
        (if negb (parent p =? 0) then process_send_signal_ fuel (parent p) SIGCHLD else ret tt) ;;
        let* cur := gets current_process in
        if proc =? cur then scheduler_schedule else ret tt
  end
with process_send_signal_ (fuel : nat) (proc signum : Z) : prog (ps H) unit :=
  match fuel with
  | O => spin
  | S fuel =>
      if (proc =? 0) || (signum <? 1) || (31 <? signum) then ret tt
      else
        upd_proc proc (fun p => p_with_pending (Z.lor (pending_signals p) (Z.shiftl 1 (signum - 1))) p) ;;
        let* p := get_proc proc in
        if p_state p =? PROC_STATE_RUNNING then process_handle_signals_ fuel proc else ret tt
  end
with process_handle_signals_ (fuel : nat) (proc : Z) : prog (ps H) unit :=
  match fuel with
  | O => spin
  | S fuel =>
      if proc =? 0 then ret tt
      else
        loop (fun _ =>
          let* p := get_proc proc in
          if negb (pending_signals p =? 0) then
            let signum := ctz (pending_signals p) + 1 in
            put_proc proc (p_with_pending (Z.land (pending_signals p) (u32 (Z.lnot (Z.shiftl 1 (signum - 1))))) p) ;;
            let* handler := getf (fun _ => signal_handlers p !! Z.to_nat signum) in
            (if negb (handler =? 0) then call_handler handler signum
             else if (signum =? SIGTERM) || (signum =? SIGINT) then process_exit_ fuel proc signum
             else if signum =? SIGKILL then upd_proc proc (p_with_state PROC_STATE_TERMINATED)
             else if signum =? SIGSTOP then upd_proc proc (p_with_state PROC_STATE_SLEEPING)
             else if signum =? SIGCONT then
               let* p := get_proc proc in
               if p_state p =? PROC_STATE_SLEEPING
               then upd_proc proc (p_with_state PROC_STATE_RUNNING) else ret tt
             else ret tt) ;;
            ret (Next tt)
          else ret (Done tt)) tt
  end.

(** Three calls per process on the way up, and one round more. *)
Definition signal_fuel : prog (ps H) nat := gets (fun s => (3 * size (procs s) + 3)%nat).

Definition process_exit (proc status : Z) : prog (ps H) unit :=
  let* fuel := signal_fuel in process_exit_ fuel proc status.
Definition process_send_signal (proc signum : Z) : prog (ps H) unit :=
  let* fuel := signal_fuel in process_send_signal_ fuel proc signum.
Definition process_handle_signals (proc : Z) : prog (ps H) unit :=
  let* fuel := signal_fuel in process_handle_signals_ fuel proc.

(** ** Fork and wait *)

Definition process_fork : prog (ps H) Z :=
  let* cur := gets current_process in
  if cur =? 0 then ret (-1)
  else
    let* child := process_create in
    if child =? 0 then ret (-1)
    else
      let* c := get_proc cur in
      upd_proc child (p_with_handlers (signal_handlers c)) ;;
      let* child_thread := thread_create child 0 0 in
      if child_thread =? 0 then
        let* fuel := destroy_fuel in
        process_destroy fuel child ;;
        ret (-1)
      else
        let* ct := gets current_thread in
        let* t := get_thread ct in
        upd_thread child_thread (t_with_regs (t_regs t)) ;;
        upd_thread child_thread (fun u => t_with_stack (stack_base u) (stack_top u) (rsp t) u) ;;
        scheduler_add_thread child_thread ;;
        let* p := get_proc child in
        ret (s32 (pid p)).

Definition process_execve (proc path argv envp : Z) : prog (ps H) Z := ret (-1).

(** The result, and what is stored in [*status]. *)
Definition process_waitpid (pid_ status options : Z) : prog (ps H) (Z * option Z) :=
  let* cur := gets current_process in
  if cur =? 0 then ret (-1, None)
  else
    let* c := get_proc cur in
    loop (fun child =>
      if negb (child =? 0) then
        let* p := get_proc child in
        if (pid p =? pid_) || (pid_ =? u32 (-1)) then
          loop (fun _ =>
            let* p := get_proc child in
            if negb (p_state p =? PROC_STATE_ZOMBIE) then thread_sleep 10 ;; ret (Next tt)
            else ret (Done tt)) tt ;;
          let* p := get_proc child in
          let stored := if negb (status =? 0) then Some (exit_code p) else None in
          let* cur := gets current_process in
          process_remove_child cur child ;;
          let* fuel := destroy_fuel in
          process_destroy fuel child ;;
          let* p := get_proc child in
          ret (Done (s32 (pid p), stored))
        else ret (Next (p_next p))
      else ret (Done (-1, None))) (children c).
End Processes.
