(* ===== verification/ProcessProofs.v ===== *)
(** * Processes, threads and mutexes: specifications and proofs

    The ready queue of process.c is a doubly linked list threaded through the
    threads; [queue s l] says that it holds the threads [l], head first.  All
    results hold for any allocator, memory manager and platform. *)

From S2P Require Import Prelude CMem Links Alloc KHeap Paging Process.

(** Writes to the stores. *)
Ltac ps_steps :=
  repeat first [ wp_step
               | lazymatch goal with
                 | |- wp (put_thread _ _) _ _ => unfold put_thread
                 | |- wp (put_proc _ _) _ _ => unfold put_proc
                 | |- wp (put_mutex _ _) _ _ => unfold put_mutex
                 end ].

#[export] Instance thread_linked : Linked thread.
Proof. by refine {| l_next := t_next; l_prev := t_prev; l_set_next := t_with_next; l_set_prev := t_with_prev |}. Defined.

(** A thread out of every queue. *)
Definition unlink (t : thread) : thread := t_with_prev 0 (t_with_next 0 t).

Section ProcessLemmas.
Context {H : Type} {KA : KAlloc H} {KS : KSpaces H} {PF : Platform H}.
Implicit Types (s : ps H).

Record queue (s : ps H) (l : list Z) : Prop := {
  q_seg : seg (threads s) 0 (ready_queue s) l 0;
  q_nodup : NoDup l;
}.

Lemma wp_get_thread s a t (Q : thread -> ps H -> Prop) :
  threads s !! a = Some t -> Q t s -> wp (get_thread a) Q s.
Proof using Type. intros. by apply wp_getf with t. Qed.
Lemma wp_upd_thread s a t f (Q : unit -> ps H -> Prop) :
  threads s !! a = Some t -> Q tt (set_threads (<[a := f t]> (threads s)) s) -> wp (upd_thread a f) Q s.
Proof using Type. intros. unfold upd_thread. wp_step. eapply wp_get_thread; [done|]. ps_steps. done. Qed.
Lemma wp_get_proc s a p (Q : process -> ps H -> Prop) :
  procs s !! a = Some p -> Q p s -> wp (get_proc a) Q s.
Proof using Type. intros. by apply wp_getf with p. Qed.
Lemma wp_upd_proc s a p f (Q : unit -> ps H -> Prop) :
  procs s !! a = Some p -> Q tt (set_procs (<[a := f p]> (procs s)) s) -> wp (upd_proc a f) Q s.
Proof using Type. intros. unfold upd_proc. wp_step. eapply wp_get_proc; [done|]. ps_steps. done. Qed.
Lemma wp_get_mutex s a m (Q : mutex -> ps H -> Prop) :
  mutexes s !! a = Some m -> Q m s -> wp (get_mutex a) Q s.
Proof using Type. intros. by apply wp_getf with m. Qed.

(** Only links and the head of the queue change, and links only within [l]. *)
Definition relinked (s : ps H) (l : list Z) (s' : ps H) : Prop :=
  s' = set_ready_queue (ready_queue s') (set_threads (threads s') s) /\
  (forall b, b ∉ l -> threads s' !! b = threads s !! b) /\
  (forall b t, threads s !! b = Some t -> exists t', threads s' !! b = Some t' /\ unlink t' = unlink t).

Lemma relinked_upd s l s' a t t' :
  relinked s l s' -> a ∈ l -> threads s' !! a = Some t -> unlink t' = unlink t ->
  relinked s l (set_threads (<[a := t']> (threads s')) s').
Proof using Type.
  intros (E & H1 & H2) Ha Ht Hu. split; [by rewrite E|]. cbn. split.
  - intros b Hb. rewrite lookup_insert_ne by set_solver. auto.
  - intros b u Hb. destruct (decide (b = a)) as [->|Hne].
    + rewrite lookup_insert_eq. destruct (H2 a u Hb) as (u' & Hu' & E'). exists t'.
      split; [done|]. congruence.
    + rewrite lookup_insert_ne by done. auto.
Qed.

Lemma relinked_head s l s' q : relinked s l s' -> relinked s l (set_ready_queue q s').
Proof using Type. intros (E & H1 & H2). split; [by rewrite E|]. done. Qed.

Lemma relinked_refl s l : relinked s l s.
Proof using Type. split; [by destruct s|]. eauto. Qed.

(** Putting a thread in front. *)
Lemma wp_scheduler_add_thread s l a t (Q : unit -> ps H -> Prop) :
  queue s l -> a ∉ l -> a <> 0 -> threads s !! a = Some t ->
  (forall s', queue s' (a :: l) -> relinked s (a :: l) s' -> Q tt s') ->
  wp (scheduler_add_thread a) Q s.
Proof using Type.
  intros [Hs Hnd] Ha H0 Ht HQ. unfold scheduler_add_thread. rewrite (proj2 (Z.eqb_neq a 0)) by done.
  do 3 wp_step. eapply wp_upd_thread; [done|]. wp_step.
  eapply wp_upd_thread; [cbn; by rewrite lookup_insert_eq|].
  set (s1 := set_threads (<[a := t_with_prev 0 (t_with_next (ready_queue s) t)]> (threads s)) s).
  assert (set_threads _ _ = s1) as -> by (unfold s1; cbn; by rewrite insert_insert_eq).
  assert (relinked s (a :: l) s1) as Hr
    by (apply relinked_upd with (2 := list_elem_of_here _ _) (t := t); [apply relinked_refl|done|done]).
  assert (threads s1 !! a = Some (t_with_prev 0 (t_with_next (ready_queue s) t))) as Ha1 by apply lookup_insert_eq.
  assert (seg (threads s1) 0 (ready_queue s) l 0) as Hs1 by (by apply seg_insert_ne).
  clearbody s1. wp_step. destruct l as [|c l].
  - cbn [seg] in Hs1. rewrite Hs1 in *. cbn [Z.eqb negb]. wp_steps.
    apply HQ; [|by apply relinked_head]. constructor; [|by apply NoDup_singleton].
    cbn. split; [done|]. split; [done|]. eexists. split; [done|]. done.
  - pose proof Hs1 as (Eq & Hc0 & tc & Htc & _ & _). rewrite Eq, (proj2 (Z.eqb_neq c 0)) by done. cbn [negb].
    eapply wp_upd_thread; [done|]. wp_step. apply not_elem_of_cons in Ha as [Hac Hal].
    apply HQ; [|apply relinked_head; eapply relinked_upd; [done| |done|done]; set_solver].
    constructor; [|apply NoDup_cons; split; [set_solver|done]]. cbn [ready_queue set_ready_queue threads set_threads seg].
    split; [done|]. split; [done|]. exists (t_with_prev 0 (t_with_next (ready_queue s) t)).
    rewrite lookup_insert_ne by done. split; [done|]. split; [done|].
    change (seg (<[c := l_set_prev a tc]> (threads s1)) a (ready_queue s) (c :: l) 0). rewrite Eq.
    apply (seg_set_prev (threads s1) 0 a c c l 0 tc); [by apply NoDup_cons in Hnd as [? _]|done|].
    by rewrite Eq in Hs1.
Qed.
(** The first half of a removal: the links into [a] go past it. *)
Lemma wp_unlink_prev s l1 a l2 t (Q : unit -> ps H -> Prop) :
  queue s (l1 ++ a :: l2) -> threads s !! a = Some t ->
  (forall s', relinked s (l1 ++ a :: l2) s' -> threads s' !! a = Some t ->
     seg (threads s') 0 (ready_queue s') l1 (t_next t) -> seg (threads s') a (t_next t) l2 0 -> Q tt s') ->
  wp (if negb (t_prev t =? 0) then upd_thread (t_prev t) (t_with_next (t_next t))
      else modify (set_ready_queue (t_next t))) Q s.
Proof using Type.
  intros [Hs Hnd] Ht HQ. apply seg_app in Hs as (r & H1 & H2). cbn [seg] in H2.
  destruct H2 as (-> & Ha0 & t' & Ht' & Hp & H2). assert (t' = t) as -> by congruence.
  change (t_prev t = last_or 0 l1) in Hp. change (l_next t) with (t_next t) in H2.
  apply NoDup_app in Hnd as (N1 & N12 & N2). apply NoDup_cons in N2 as [Na N2].
  rewrite Hp. destruct l1 as [|b l1' _] using rev_ind.
  - cbn [Z.eqb negb last_or last default]. wp_step.
    apply HQ; [apply relinked_head, relinked_refl|done|done|done].
  - unfold last_or. rewrite last_snoc. cbn [default from_option id].
    destruct (seg_lookup _ _ _ _ _ b H1 ltac:(set_solver)) as [Hb0 [tb Htb]].
    rewrite (proj2 (Z.eqb_neq b 0)) by done. cbn [negb]. eapply wp_upd_thread; [done|].
    apply NoDup_app in N1 as (_ & N1 & _). specialize (N12 b ltac:(set_solver)).
    apply not_elem_of_cons in N12 as [Hba Hbl].
    apply HQ; [eapply relinked_upd; [apply relinked_refl|set_solver|done|done]
              |cbn; by rewrite lookup_insert_ne
              |change (seg (<[b := l_set_next (t_next t) tb]> (threads s)) 0 (ready_queue s) (l1' ++ [b]) (t_next t))
              |by apply seg_insert_ne].
    apply (seg_set_next (threads s) 0 (ready_queue s) l1' b a (t_next t) tb); [|done|done].
    intros Hin. apply (N1 b Hin). set_solver.
Qed.

(** Taking a thread out. *)
Lemma wp_scheduler_remove_thread s l1 a l2 t (Q : unit -> ps H -> Prop) :
  queue s (l1 ++ a :: l2) -> threads s !! a = Some t ->
  (forall s', queue s' (l1 ++ l2) -> threads s' !! a = Some (unlink t) ->
     relinked s (l1 ++ a :: l2) s' -> Q tt s') ->
  wp (scheduler_remove_thread a) Q s.
Proof using Type.
  intros Hq Ht HQ. pose proof Hq as [Hs Hnd]. unfold scheduler_remove_thread.
  destruct (seg_lookup _ _ _ _ _ a Hs ltac:(set_solver)) as [Ha0 _].
  assert (t_prev t = last_or 0 l1) as Hp.
  { apply seg_mid in Hs as (t' & Ht' & _ & Hp' & _). change (l_prev t') with (t_prev t') in Hp'. congruence. }
  rewrite (proj2 (Z.eqb_neq a 0)) by done. wp_step. eapply wp_get_thread; [done|]. wp_step.
  apply (wp_unlink_prev s l1 a l2 t); [done|done|]. intros s1 Hr Ht1 H1 H2. wp_step.
  eapply wp_get_thread; [done|].
  apply NoDup_app in Hnd as (N1 & N12 & N2). apply NoDup_cons in N2 as [Na N2].
  assert (a ∉ l1) as Na1 by (intros Hin; apply (N12 a Hin); set_solver).
  assert (NoDup (l1 ++ l2)) as N by (apply NoDup_app; split; [done|]; split; [set_solver|done]).
  assert (forall s2, relinked s (l1 ++ a :: l2) s2 -> threads s2 !! a = Some t ->
      seg (threads s2) 0 (ready_queue s2) (l1 ++ l2) 0 ->
      wp (bind (upd_thread a (t_with_next 0)) (fun _ => upd_thread a (t_with_prev 0))) Q s2) as Hend.
  { intros s2 Hr2 Ht2 Hs2. wp_step. eapply wp_upd_thread; [done|].
    eapply wp_upd_thread; [cbn; by rewrite lookup_insert_eq|]. cbn. rewrite insert_insert_eq.
    apply HQ; [|cbn; by rewrite lookup_insert_eq|].
    - constructor; [|done]. cbn. apply seg_insert_ne; [set_solver|done].
    - apply (relinked_upd s _ s2 a t (unlink t)); [done|set_solver|done|done]. }
  wp_step. destruct l2 as [|c l2].
  - cbn [seg] in H2. rewrite H2 in *. cbn [Z.eqb negb]. wp_step. apply Hend; [done|done|].
    by rewrite app_nil_r.
  - pose proof H2 as (Ec & Hc0 & tc & Htc & _). rewrite Ec, (proj2 (Z.eqb_neq c 0)) by done. cbn [negb].
    eapply wp_upd_thread; [done|]. rewrite Hp. apply Hend.
    + eapply relinked_upd; [done|set_solver|done|done].
    + cbn. rewrite lookup_insert_ne by set_solver. done.
    + cbn [threads set_threads ready_queue]. apply seg_app. exists c. apply NoDup_app in N as (_ & N & N3).
      apply NoDup_cons in N3 as [N3 _]. rewrite Ec in *. split.
      * apply seg_insert_ne; [intros Hin; apply (N c Hin); set_solver|done].
      * change (seg (<[c := l_set_prev (last_or 0 l1) tc]> (threads s1)) (last_or 0 l1) c (c :: l2) 0).
        by apply (seg_set_prev (threads s1) a (last_or 0 l1) c c l2 0 tc).
Qed.

(** ** Choosing a thread *)

(** The process list from [p] on is [l]. *)
Fixpoint proc_chain (m : gmap Z process) (p : Z) (l : list Z) : Prop :=
  match l with
  | [] => p = 0
  | a :: l => p = a /\ a <> 0 /\ exists q, m !! a = Some q /\ proc_chain m (p_next q) l
  end.

(** The first process of [l] with the number [id], or 0. *)
Fixpoint find_pid (m : gmap Z process) (l : list Z) (id : Z) : Z :=
  match l with
  | [] => 0
  | a :: l =>
      match m !! a with
      | Some q => if pid q =? id then a else find_pid m l id
      | None => 0
      end
  end.

Lemma wp_process_find_by_pid s L id (Q : Z -> ps H -> Prop) :
  proc_chain (procs s) (process_list s) L -> Z.of_nat (length L) < 2 ^ 64 ->
  Q (find_pid (procs s) L id) s -> wp (process_find_by_pid id) Q s.
Proof using Type.
  intros Hc Hl HQ. unfold process_find_by_pid. do 2 wp_step. set (r := find_pid (procs s) L id) in *.
  apply wp_loop_n with (n := Z.of_nat (length L))
    (I := fun i p s' => s' = s /\ exists l, proc_chain (procs s) p l /\ i = Z.of_nat (length l) /\
       r = find_pid (procs s) l id); [|split; [done|]; by exists L|lia].
  intros i p s' (-> & l & Hcl & -> & Hr). destruct l as [|b l]; cbn [proc_chain find_pid] in *.
  - subst p. cbn [Z.eqb negb]. wp_step. by rewrite <- Hr.
  - destruct Hcl as (-> & Hb & q & Hq & Hcl). rewrite Hq in Hr.
    rewrite (proj2 (Z.eqb_neq b 0)) by done. cbn [negb]. wp_step. eapply wp_get_proc; [done|].
    destruct (pid q =? id); wp_step.
    + by rewrite <- Hr.
    + exists (Z.of_nat (length l)). cbn [length]. split; [|lia]. split; [done|]. by exists l.
Qed.

Lemma find_pid_in m l id : find_pid m l id = 0 \/ is_Some (m !! find_pid m l id).
Proof using Type.
  induction l as [|a l IH]; [by left|]. cbn [find_pid]. destruct (m !! a) as [q|] eqn:E; [|by left].
  destruct (pid q =? id); [right; by exists q|done].
Qed.

(** Where [scheduler_schedule] stands when it hands the processor over. *)
Record chosen (s : ps H) (a : Z) (l : list Z) (t : thread) (L : list Z) (s1 : ps H) : Prop := {
  ch_queue : queue s1 l;
  ch_thread : threads s1 !! a = Some (t_with_state THREAD_STATE_RUNNING (unlink t));
  ch_others : forall b u, b <> a -> threads s !! b = Some u ->
    exists u', threads s1 !! b = Some u' /\ unlink u' = unlink u;
  ch_current : current_thread s1 = a;
  ch_process : current_process s1 = find_pid (procs s) L (t_pid t);
  ch_procs : procs s1 = procs s /\ process_list s1 = process_list s /\ mutexes s1 = mutexes s;
}.

(** [mm_switch_space] works on the memory manager only. *)
Definition switches_only : Prop :=
  forall space s, wp (mm_switch_space space) (fun _ s' => exists h, s' = set_kmem h s) s.

(** The part of [scheduler_schedule] before the switch; it answers the thread
    that ran before. *)
Definition choose (a : Z) : prog (ps H) Z :=
  scheduler_remove_thread a ;;
  let* prev_thread := gets current_thread in
  modify (set_current_thread a) ;;
  let* t := get_thread a in
  let* proc := process_find_by_pid (t_pid t) in
  modify (set_current_process proc) ;;
  (if negb (proc =? 0) then let* p := get_proc proc in mm_switch_space (memory_space p) else ret tt) ;;
  upd_thread a (t_with_state THREAD_STATE_RUNNING) ;;
  ret prev_thread.

Lemma schedule_choose s a prev s1 : ready_queue s = a -> a <> 0 -> choose a s = Ok (prev, s1) ->
  scheduler_schedule s =
    (if negb (prev =? 0) && negb (prev =? a) then context_switch prev a else ret tt) s1.
Proof using Type.
  intros Erq Ha0 Er. unfold scheduler_schedule, bind at 1, gets at 1. rewrite Erq, (proj2 (Z.eqb_neq a 0)) by done.
  revert Er. unfold choose, bind, gets, modify, ret. destruct (scheduler_remove_thread a s) as [[[] s2]| |]; [|done..].
  destruct (get_thread a _) as [[t2 s3]| |]; [|done..].
  destruct (process_find_by_pid _ _) as [[pr s4]| |]; [|done..].
  destruct (negb (pr =? 0)).
  1: destruct (get_proc pr _) as [[pp s5]| |]; [|done..];
     destruct (mm_switch_space _ _) as [[[] s6]| |]; [|done..].
  all: destruct (upd_thread a _ _) as [[[] s7]| |]; [|done..]; intros [= E1 ->]; by rewrite E1.
Qed.

Lemma wp_choose s a l t L :
  switches_only -> queue s (a :: l) -> threads s !! a = Some t ->
  proc_chain (procs s) (process_list s) L -> Z.of_nat (length L) < 2 ^ 64 ->
  wp (choose a) (fun prev s1 => prev = current_thread s /\ chosen s a l t L s1) s.
Proof using Type.
  intros Hsw Hq Ht HL Hlen. unfold choose.
  wp_step. apply (wp_scheduler_remove_thread s [] a l t); [done|done|].
  intros s1 Hq1 Ht1 Hr. pose proof Hr as (Es & Ho & Hu). cbn [app] in *. do 5 wp_step.
  assert (procs s1 = procs s /\ process_list s1 = process_list s /\ mutexes s1 = mutexes s /\
          current_thread s1 = current_thread s) as (E1 & E2 & E3 & E4) by (by rewrite Es).
  eapply wp_get_thread; [done|]. wp_step. change (t_pid (unlink t)) with (t_pid t).
  apply (wp_process_find_by_pid _ L); [cbn; by rewrite E1, E2|done|]. cbn [procs set_current_thread]. rewrite E1.
  set (r := find_pid (procs s) L (t_pid t)). do 3 wp_step.
  set (s2 := set_current_process r (set_current_thread a s1)).
  assert (wp (if negb (r =? 0) then let* p := get_proc r in mm_switch_space (memory_space p) else ret tt)
             (fun _ s' => exists h, s' = set_kmem h s2) s2) as Hmm.
  { destruct (Z.eqb_spec r 0); cbn [negb].
    - wp_step. exists (kmem s2). by destruct s2.
    - wp_step. destruct (find_pid_in (procs s) L (t_pid t)) as [?|[pr Hpr]]; [done|].
      apply (wp_get_proc _ _ pr); [cbn; by rewrite E1|]. apply Hsw. }
  eapply wp_mono; [exact Hmm|]. intros [] s3 [h ->]. wp_step. eapply wp_upd_thread; [done|]. wp_step.
  split; [done|]. constructor; try done.
  - destruct Hq1 as [Hs1 Hn1]. constructor; [|done]. cbn. apply seg_insert_ne; [|done].
    by apply q_nodup, NoDup_cons in Hq as [? _].
  - cbn. by rewrite lookup_insert_eq.
  - intros b u Hb Hbu. cbn. rewrite lookup_insert_ne by done. by apply Hu.
Qed.

(** C13: [scheduler_schedule] runs the thread at the head of the ready
    queue: it takes exactly that thread out, marks it running, makes it and
    its process current, and then switches to it from the thread that ran
    before, if there was another one. *)
Theorem schedule_correct s a l t L :
  switches_only -> queue s (a :: l) -> threads s !! a = Some t ->
  proc_chain (procs s) (process_list s) L -> Z.of_nat (length L) < 2 ^ 64 ->
  exists s1, chosen s a l t L s1 /\
    scheduler_schedule s =
      (if negb (current_thread s =? 0) && negb (current_thread s =? a)
       then context_switch (current_thread s) a else ret tt) s1.
Proof using Type.
  intros Hsw Hq Ht HL Hlen. pose proof (seg_lookup _ _ _ _ _ a (q_seg _ _ Hq) ltac:(set_solver)) as [Ha0 _].
  pose proof (q_seg _ _ Hq) as (Erq & _ & _).
  pose proof (wp_choose s a l t L Hsw Hq Ht HL Hlen) as Hw. apply wp_run in Hw as (prev & s1 & Er & -> & Hch).
  exists s1. split; [done|]. by apply schedule_choose.
Qed.

(** ** Mutexes *)

Lemma wp_mutex_bad s x m (Q : bool -> ps H -> Prop) :
  x <> 0 -> mutexes s !! x = Some m -> Q (negb (initialized m)) s -> wp (mutex_bad x) Q s.
Proof using Type.
  intros Hx Hm HQ. unfold mutex_bad. rewrite (proj2 (Z.eqb_neq x 0)) by done. wp_step.
  eapply wp_get_mutex; [done|]. by wp_step.
Qed.

Definition with_mutex (x : Z) (m : mutex) (s : ps H) : ps H := set_mutexes (<[x := m]> (mutexes s)) s.

(** What [mutex_unlock] leaves behind, by the branches of the code: [l] is
    the ready queue. *)
Definition unlocked (s : ps H) (x : Z) (m : mutex) (l : list Z) (s' : ps H) : Prop :=
  if lock_count m =? 1 then
    if wait_queue m =? 0 then s' = with_mutex x (Mutex 0 0 0 true) s
    else exists w, threads s !! wait_queue m = Some w /\
      mutexes s' = <[x := Mutex (tid w) 1 (t_next w) true]> (mutexes s) /\
      queue s' (wait_queue m :: l) /\
      (exists w', threads s' !! wait_queue m = Some w' /\
         unlink w' = unlink (t_with_state THREAD_STATE_READY w)) /\
      current_thread s' = current_thread s /\ procs s' = procs s
  else s' = with_mutex x (Mutex (owner m) (lock_count m - 1) (wait_queue m) true) s.

(** C21: [mutex_unlock]: only the owner may unlock; an inner unlock of a
    recursive lock drops one level; the last one frees the mutex, or hands it
    to the thread that queued last, which becomes ready and is its owner
    before it runs.  The mutex is initialised and locked at least once (on a
    null or an uninitialised one the code returns before it does anything). *)
Theorem mutex_unlock_correct s x m c t l :
  x <> 0 -> mutexes s !! x = Some m -> initialized m = true -> 1 <= lock_count m < 2 ^ 32 ->
  current_thread s = c -> threads s !! c = Some t -> queue s l ->
  (wait_queue m <> 0 -> is_Some (threads s !! wait_queue m) /\ wait_queue m ∉ l) ->
  exists r s', mutex_unlock x s = Ok (r, s') /\
    if owner m =? tid t then r = 0 /\ unlocked s x m l s' else r = -1 /\ s' = s.
Proof using Type.
  intros Hx Hm Hi Hc Hcur Ht Hq Hw.
  enough (wp (mutex_unlock x) (fun r s' =>
    if owner m =? tid t then r = 0 /\ unlocked s x m l s' else r = -1 /\ s' = s) s) as HW
    by (by apply wp_run in HW).
  unfold mutex_unlock. wp_step. eapply wp_mutex_bad; [done..|]. rewrite Hi. wp_step.
  wp_step. eapply wp_get_mutex; [done|]. do 3 wp_step. rewrite Hcur. eapply wp_get_thread; [done|].
  destruct (Z.eqb_spec (owner m) (tid t)) as [Ho|Ho]; cbn [negb]; [|by wp_step].
  rewrite wrap_small, Hi by lia. unfold unlocked. wp_step. unfold put_mutex at 1. do 2 wp_step.
  destruct (Z.eqb_spec (lock_count m) 1) as [E1|E1].
  2:{ rewrite (proj2 (Z.eqb_neq (lock_count m - 1) 0)) by lia. ps_steps. done. }
  rewrite E1. change (1 - 1 =? 0) with true. ps_steps; cbn [set_mutexes mutexes] in *.
  all: rewrite ?insert_insert_eq.
  - apply negb_true_iff in E. rewrite E. apply Z.eqb_neq in E. destruct (Hw E) as [[w Hw1] Hw2].
    eapply wp_get_thread; [done|]. ps_steps. unfold thread_unblock.
    rewrite (proj2 (Z.eqb_neq (wait_queue m) 0)) by done. wp_step. eapply wp_upd_thread; [done|].
    destruct Hq as [Hs Hn]. eapply wp_scheduler_add_thread; [|exact Hw2|done|cbn; by rewrite lookup_insert_eq|].
    { constructor; [|done]. cbn. by apply seg_insert_ne. }
    intros s' Hq' (Es & _ & Hu). wp_step. split; [done|]. exists w. split; [done|].
    split; [rewrite Es; cbn; by rewrite !insert_insert_eq|]. split; [done|].
    split; [|by rewrite Es]. destruct (Hu (wait_queue m) (t_with_state THREAD_STATE_READY w)) as (w' & ? & ?);
      [cbn; by rewrite lookup_insert_eq|]. by exists w'.
  - apply negb_false_iff in E. rewrite E. apply Z.eqb_eq in E. split; [done|]. by rewrite E.
Qed.

(** A contended [mutex_lock] loses the ready queue: the running thread
    is in no queue, so taking it "out" resets the head to null; every thread
    that was ready stays marked ready but can no longer be found, and the
    processor halts. *)
Theorem mutex_lock_loses_queue s x m c t :
  x <> 0 -> mutexes s !! x = Some m -> initialized m = true ->
  c <> 0 -> current_thread s = c -> threads s !! c = Some t -> t_next t = 0 -> t_prev t = 0 ->
  owner m <> 0 -> owner m <> tid t ->
  exists s1, mutex_lock x s = bind hlt (fun _ => ret 0) s1 /\
    ready_queue s1 = 0 /\ (forall b, b <> c -> threads s1 !! b = threads s !! b) /\
    mutexes s1 !! x = Some (Mutex (owner m) (lock_count m) c true).
Proof using Type.
  intros Hx Hm Hi Hc0 Hcur Ht Hn Hp Ho1 Ho2.
  set (t' := t_with_next (wait_queue m) (unlink (t_with_state THREAD_STATE_BLOCKED t))).
  set (s1 := with_mutex x (Mutex (owner m) (lock_count m) c true)
               (set_threads (<[c := t']> (threads s)) (set_ready_queue 0 s))).
  exists s1. split; [|split; [done|]; split;
    [intros b Hb; cbn; by rewrite lookup_insert_ne|cbn; by rewrite lookup_insert_eq]].
  assert (wp (thread_block c ;; let* m := get_mutex x in
              upd_thread c (t_with_next (wait_queue m)) ;;
              put_mutex x (Mutex (owner m) (lock_count m) c (initialized m)))
             (fun _ s' => s' = s1) s) as Hw.
  { unfold thread_block. rewrite (proj2 (Z.eqb_neq c 0)) by done. do 2 wp_step.
    eapply wp_upd_thread; [done|]. unfold scheduler_remove_thread. rewrite (proj2 (Z.eqb_neq c 0)) by done.
    wp_step. eapply wp_get_thread; [cbn; by rewrite lookup_insert_eq|]. cbn [t_prev t_with_state t_next].
    rewrite Hp, Hn. cbn [Z.eqb negb]. do 3 wp_step. eapply wp_get_thread; [cbn; by rewrite lookup_insert_eq|].
    cbn [t_prev t_with_state t_next]. rewrite Hn. cbn [Z.eqb negb]. do 3 wp_step.
    eapply wp_upd_thread; [cbn; by rewrite lookup_insert_eq|].
    eapply wp_upd_thread; [cbn; by rewrite lookup_insert_eq|]. wp_step.
    eapply wp_get_mutex; [done|]. wp_step. eapply wp_upd_thread; [cbn; by rewrite lookup_insert_eq|]. ps_steps.
    cbn. rewrite !insert_insert_eq, Hi. done. }
  apply wp_run in Hw as ([] & s2 & Er & ->). unfold mutex_lock.
  assert (mutex_bad x s = Ok (false, s)) as Hb.
  { apply wp_det. eapply wp_mutex_bad; [done..|]. by rewrite Hi. }
  assert (scheduler_schedule s1 = hlt s1) as Hh by done.
  revert Er. unfold bind. rewrite Hb. cbv iota. unfold get_mutex, get_thread, getf, gets. rewrite Hm, Hcur.
  rewrite (proj2 (Z.eqb_neq (owner m) 0)) by done. rewrite Ht.
  rewrite (proj2 (Z.eqb_neq (owner m) (tid t))) by done.
  destruct (thread_block c s) as [[[] s3]| |]; [|done..]. destruct (mutexes s3 !! x) as [m3|]; [|done].
  destruct (upd_thread c _ s3) as [[[] s4]| |]; [|done..]. intros ->. by rewrite Hh.
Qed.
(** ** Processes *)

Lemma wp_on_kmem {A} (p : prog H A) Q s :
  wp p (fun a h => Q a (set_kmem h s)) (kmem s) -> wp (on_kmem p) Q s.
Proof using Type. unfold wp, on_kmem. by destruct (p (kmem s)) as [[a h]| |]. Qed.

Lemma wp_on_kmem_run {A} (p : prog H A) Q s a h :
  p (kmem s) = Ok (a, h) -> Q a (set_kmem h s) -> wp (on_kmem p) Q s.
Proof using Type. intros E HQ. apply wp_on_kmem. unfold wp. by rewrite E. Qed.

(** Processes that keep their numbers and their links forward. *)
Definition kept (m m' : gmap Z process) : Prop :=
  forall a q, m !! a = Some q -> exists q', m' !! a = Some q' /\ pid q' = pid q /\ p_next q' = p_next q.

Lemma kept_refl m : kept m m.
Proof using Type. intros a q Hq. by exists q. Qed.

Lemma kept_insert m m' a q q' : kept m m' -> m' !! a = Some q -> pid q' = pid q -> p_next q' = p_next q -> kept m (<[a := q']> m').
Proof using Type.
  intros Hk Ha Hp Hn b qb Hb. destruct (Hk b qb Hb) as (q1 & H1 & E1 & E2). destruct (decide (b = a)) as [->|].
  - rewrite lookup_insert_eq. exists q'. split; [done|]. split; congruence.
  - rewrite lookup_insert_ne by done. by exists q1.
Qed.

Lemma kept_chain m m' l : kept m m' -> forall a, proc_chain m a l -> proc_chain m' a l.
Proof using Type.
  intros Hk. induction l as [|b l IH]; intros a; [done|]. intros (-> & Hb & q & Hq & Hl).
  destruct (Hk b q Hq) as (q' & Hq' & _ & E). split; [done|]. split; [done|]. exists q'. rewrite E. by split; [|apply IH].
Qed.

Lemma kept_find m m' l id : kept m m' -> forall a, proc_chain m a l -> find_pid m' l id = find_pid m l id.
Proof using Type.
  intros Hk. induction l as [|b l IH]; intros a; [done|]. intros (-> & Hb & q & Hq & Hl). cbn [find_pid].
  destruct (Hk b q Hq) as (q' & -> & -> & _). rewrite Hq. destruct (pid q =? id); [done|]. by eapply IH.
Qed.

(** [if (a) a->prev = x;] *)
Lemma wp_prev_if s a x (Q : unit -> ps H -> Prop) : a = 0 \/ is_Some (procs s !! a) ->
  (forall m, (m = procs s \/ exists q, procs s !! a = Some q /\ m = <[a := p_with_prev x q]> (procs s)) -> Q tt (set_procs m s)) ->
  wp (if negb (a =? 0) then upd_proc a (p_with_prev x) else ret tt) Q s.
Proof using Type.
  intros Ha HQ. destruct (Z.eqb_spec a 0) as [->|Hne]; cbn [negb].
  - wp_step. replace s with (set_procs (procs s) s) by (by destruct s). apply HQ. by left.
  - destruct Ha as [?|[q Hq]]; [done|]. eapply wp_upd_proc; [done|]. apply HQ. right. by exists q.
Qed.

(** C39: A new process takes the place of the process list: the list and the
    parent's children share one pair of links, so adding the child to its
    parent cuts the list off behind it.  From then on the new process is found
    by its number, and of all processes that existed before only the older
    children of the parent ([kids]) are: the parent itself and all others are
    lost, and everything is when the parent had no children. *)
Theorem process_create_loses s c cp kids p h1 sp h2 :
  current_process s = c -> c <> 0 -> procs s !! c = Some cp ->
  proc_chain (procs s) (children cp) kids -> Z.of_nat (length kids) + 1 < 2 ^ 64 ->
  (process_list s = 0 \/ is_Some (procs s !! process_list s)) ->
  kmalloc_op sizeof_process (kmem s) = Ok (p, h1) -> p <> 0 -> procs s !! p = None ->
  mm_create_space_op h1 = Ok (sp, h2) -> sp <> 0 ->
  exists s', process_create s = Ok (p, s') /\
    forall id, process_find_by_pid id s' = Ok (if next_pid s =? id then p else find_pid (procs s) kids id, s').
Proof using Type.
  intros Hcur Hc0 Hcp Hch Hlen Hpl Hk Hp0 Hp Hsp Hsp0.
  enough (wp process_create (fun r s' => r = p /\ process_list s' = p /\ kept (procs s) (procs s') /\
    exists q, procs s' !! p = Some q /\ pid q = next_pid s /\ p_next q = children cp) s) as Hw.
  { apply wp_run in Hw as (r & s' & E & -> & E2 & Hkept & q & Hq & Epid & Enext). exists s'. split; [done|]. intros id.
    apply wp_det, (wp_process_find_by_pid s' (p :: kids)); [|cbn; lia|].
    - cbn. split; [done|]. split; [done|]. exists q. rewrite Enext. split; [done|]. by eapply kept_chain.
    - cbn [find_pid]. rewrite Hq, Epid, (kept_find _ _ _ id Hkept _ Hch). done. }
  assert (c <> p) as Hcp' by congruence.
  assert (children cp = 0 \/ is_Some (procs s !! children cp)) as Hfirst.
  { destruct kids as [|k kids]; cbn in Hch; [by left|]. destruct Hch as (-> & _ & q & Hq & _). right. by exists q. }
  unfold process_create, kmalloc. wp_step. apply (wp_on_kmem_run _ _ _ _ _ Hk).
  rewrite (proj2 (Z.eqb_neq p 0)) by done. do 6 wp_step. cbn [current_process set_ids set_kmem]. rewrite Hcur.
  rewrite (proj2 (Z.eqb_neq c 0)) by done. cbn [negb]. do 2 wp_step. eapply wp_get_proc; [done|].
  ps_steps. eapply wp_on_kmem_run; [done|]. wp_step.
  eapply wp_upd_proc; [cbn; by rewrite lookup_insert_eq|]. rewrite (proj2 (Z.eqb_neq sp 0)) by done.
  do 3 wp_step. eapply wp_upd_proc; [cbn; by rewrite lookup_insert_eq|]. wp_step.
  cbn [procs set_procs set_kmem set_ids process_list]. rewrite !insert_insert_eq.
  set (q0 := p_with_next _ _). set (m0 := <[p := q0]> (procs s)).
  assert (kept (procs s) m0) as K0.
  { intros a q Hq. unfold m0. rewrite lookup_insert_ne by congruence. by exists q. }
  assert (m0 !! p = Some q0 /\ m0 !! c = Some cp) as [M1 M2]
    by (unfold m0; by rewrite lookup_insert_eq, lookup_insert_ne).
  apply wp_prev_if.
  { destruct Hpl as [?|[f Hf]]; [by left|right]. exists f. cbn. unfold m0. rewrite lookup_insert_ne; [done|congruence]. }
  cbn [procs set_procs]. intros m1 Hm1.
  assert (kept (procs s) m1 /\ m1 !! p = Some q0 /\ exists cp', m1 !! c = Some cp' /\ children cp' = children cp) as (K1 & P1 & cp' & C1 & Ech).
  { destruct Hm1 as [->|(q & Hq & ->)]; [by eauto|].
    assert (process_list s <> p) as Hne by (destruct Hpl as [E|[f Hf]]; congruence).
    split; [by eapply kept_insert|]. rewrite lookup_insert_ne by done. split; [done|].
    destruct (decide (c = process_list s)) as [Ec|Ec].
    - rewrite <- Ec, lookup_insert_eq. eexists. split; [done|]. cbn. rewrite <- Ec in Hq. by simplify_eq.
    - rewrite lookup_insert_ne by done. by exists cp. }
  do 3 wp_step.
  eapply wp_upd_proc; [exact P1|]. wp_step. unfold process_add_child. wp_step.
  eapply wp_upd_proc; [cbn; by rewrite lookup_insert_eq|]. wp_step.
  eapply wp_get_proc; [cbn; rewrite !lookup_insert_ne by congruence; exact C1|]. rewrite Ech. wp_step.
  eapply wp_upd_proc; [cbn; by rewrite lookup_insert_eq|]. wp_step.
  eapply wp_get_proc; [cbn; rewrite !lookup_insert_ne by congruence; exact C1|]. rewrite Ech. wp_step.
  cbn [procs set_procs set_process_list]. rewrite !insert_insert_eq. set (q1 := p_with_next _ _). set (m2 := <[p := q1]> m1).
  assert (kept (procs s) m2) as K2.
  { intros a q Hq. unfold m2. rewrite lookup_insert_ne by congruence. by apply K1. }
  apply wp_prev_if.
  { destruct Hfirst as [?|[f Hf]]; [by left|right]. destruct (K2 _ _ Hf) as (f' & Hf' & _). by exists f'. }
  cbn [procs set_procs]. intros m3 Hm3.
  assert (children cp <> p) as Hcne by (destruct Hfirst as [E|[f Hf]]; congruence).
  assert (kept (procs s) m3 /\ m3 !! p = Some q1 /\ is_Some (m3 !! c)) as (K3 & P3 & c3 & C3).
  { assert (m2 !! p = Some q1) as Hm2 by apply lookup_insert_eq.
    destruct (K2 c cp Hcp) as (c2 & C2 & _).
    destruct Hm3 as [->|(q & Hq & ->)]; [by eauto|]. split; [by eapply kept_insert|].
    rewrite lookup_insert_ne by done. split; [done|]. rewrite lookup_insert_is_Some'. right. by exists c2. }
  wp_step. eapply wp_upd_proc; [exact C3|].
  eapply wp_upd_proc; [cbn; rewrite lookup_insert_ne by done; exact P3|]. wp_step.
  split; [done|]. split; [done|]. cbn. split.
  - intros a q Hq. rewrite lookup_insert_ne by congruence.
    assert (kept (procs s) (<[c := p_with_children p c3]> m3)) as K4 by (by eapply kept_insert). by apply K4.
  - rewrite lookup_insert_eq. by eexists.
Qed.

Lemma free_proc_gone a s s' : free_proc a s = Ok (tt, s') -> procs s' !! a = None.
Proof using Type.
  unfold free_proc. intros (p & s1 & _ & E)%bind_inv. apply bind_inv in E as ([] & s2 & _ & E).
  injection E as <-. cbn. apply lookup_delete_eq.
Qed.

Lemma process_destroy_gone fuel a s s' :
  a <> 0 -> process_destroy fuel a s = Ok (tt, s') -> procs s' !! a = None.
Proof using Type.
  intros Ha. destruct fuel as [|fuel]; [done|]. cbn [process_destroy].
  rewrite (proj2 (Z.eqb_neq a 0)) by done. intros E.
  do 10 (apply bind_inv in E as (? & ? & _ & E)). by eapply free_proc_gone.
Qed.

(** [process_waitpid] never returns a child: the process is freed
    before its number is read from it, so the call reports that there is no
    such child, or reads freed memory. *)
Theorem waitpid_reads_freed id status options s :
  match process_waitpid id status options s with
  | Ok (r, _, _) => r = -1
  | Fault | Spin => True
  end.
Proof using Type.
  destruct (process_waitpid id status options s) as [[[r x] s']| |] eqn:E; [|done..]. revert E.
  unfold process_waitpid. intros (cur & s1 & _ & E)%bind_inv. destruct (cur =? 0); [by injection E|].
  apply bind_inv in E as (c & s2 & _ & E).
  apply (loop_post _ (fun rx : Z * option Z => rx.1 = -1)) in E; [done|]. clear.
  intros child s rx s' E. destruct (Z.eqb_spec child 0) as [->|Hc]; cbn [negb] in E; [by injection E as <-|].
  apply bind_inv in E as (p & s1 & _ & E). destruct ((pid p =? id) || _); [|done].
  do 3 (apply bind_inv in E as (? & ? & _ & E)). do 2 (apply bind_inv in E as (? & ? & _ & E)).
  apply bind_inv in E as ([] & s3 & E3 & E). apply process_destroy_gone in E3; [|done].
  apply bind_inv in E as (q & s4 & E4 & _). unfold get_proc, getf in E4. by rewrite E3 in E4.
Qed.

(** ** Signals *)

(** A signal to a process that is not running is only recorded. *)
Lemma send_signal_recorded s a p signum :
  a <> 0 -> procs s !! a = Some p -> p_state p <> PROC_STATE_RUNNING -> 1 <= signum <= 31 ->
  process_send_signal a signum s =
    Ok (tt, set_procs (<[a := p_with_pending (Z.lor (pending_signals p) (Z.shiftl 1 (signum - 1))) p]> (procs s)) s).
Proof using Type.
  intros Ha Hp Hst Hsig. apply wp_det. unfold process_send_signal, signal_fuel. do 2 wp_step.
  rewrite Nat.add_comm. cbn [Nat.add process_send_signal_].
  rewrite (proj2 (Z.eqb_neq a 0)), (proj2 (Z.ltb_ge signum 1)), (proj2 (Z.ltb_ge 31 signum)) by lia.
  cbn [orb]. wp_step. eapply wp_upd_proc; [done|]. wp_step.
  eapply wp_get_proc; [cbn; by rewrite lookup_insert_eq|]. cbn [p_state p_with_pending].
  rewrite (proj2 (Z.eqb_neq _ _)) by done. by wp_step.
Qed.

(** A stopped process cannot be continued: [SIGCONT] to a sleeping
    process is recorded and not acted upon, and the process stays asleep. *)
Lemma sigcont_not_delivered s a p :
  a <> 0 -> procs s !! a = Some p -> p_state p = PROC_STATE_SLEEPING ->
  exists s' p', process_send_signal a SIGCONT s = Ok (tt, s') /\ procs s' !! a = Some p' /\
    p_state p' = PROC_STATE_SLEEPING /\ Z.testbit (pending_signals p') 19 = true.
Proof using Type.
  intros Ha Hp Hst. eexists _, _. split.
  - apply send_signal_recorded; [done|done|by rewrite Hst|unfold SIGCONT; lia].
  - cbn [procs set_procs]. rewrite lookup_insert_eq. split; [done|]. split; [done|].
    cbn [pending_signals p_with_pending]. rewrite Z.lor_spec. apply orb_true_r.
Qed.
End ProcessLemmas.

(** ** Witnesses *)

(** A platform on which control comes back at once. *)
#[local] Instance demo_platform : Platform mm := {|
  context_switch := fun _ _ => ret tt; mm_switch_space := fun _ => ret tt; hlt := ret tt;
  call_handler := fun _ _ => ret tt; thread_entry_wrapper_addr := 4096; thread_exit_addr := 8192;
  sizeof_process := 400 |}.

(** A heap of 12 KB behind the kernel's page table. *)
Definition demo_kmem : mm :=
  Mm (write 65536 (replicate (Z.to_nat 16384) 0) ∅) 0 0 0 0 0 69632 81920 69632 0 65536 0 [].

Definition demo_thread (id state next prev : Z) : thread :=
  Thread id 1 state 0 0 0 zero_regs 5 10 0 0 0 next prev.
Definition demo_process (state : Z) : process :=
  Process 1 0 state 0 0 0 0 0 0 0 (replicate 32 0) 0 0 0 0 0.

(** Threads 2 and 3 are ready and thread 1 runs, in a process that holds a
    mutex with the identifier of thread 2. *)
Definition demo_ps : ps mm :=
  Ps demo_kmem {[500 := demo_process PROC_STATE_RUNNING]}
     (<[1000 := demo_thread 1 THREAD_STATE_RUNNING 0 0]>
       (<[2000 := demo_thread 2 THREAD_STATE_READY 3000 0]>
         {[3000 := demo_thread 3 THREAD_STATE_READY 0 2000]}))
     ∅ (<[70 := Mutex 1 1 0 true]> {[77 := Mutex 2 1 0 true]}) 500 2000 1000 500 2 4.

Lemma demo_queue : queue demo_ps [2000; 3000].
Proof.
  constructor; [|apply (bool_decide_unpack _); by vm_compute].
  split; [done|]. split; [done|]. eexists. split; [reflexivity|]. split; [done|].
  split; [done|]. split; [done|]. eexists. split; [reflexivity|]. done.
Qed.

Lemma schedule_correct_witness :
  exists s1, chosen demo_ps 2000 [3000] (demo_thread 2 THREAD_STATE_READY 3000 0) [500] s1 /\
    scheduler_schedule demo_ps = context_switch 1000 2000 s1.
Proof.
  apply (schedule_correct demo_ps 2000 [3000] (demo_thread 2 THREAD_STATE_READY 3000 0) [500]);
    [|exact demo_queue|reflexivity| |cbn; lia].
  - intros space s. apply wp_ret. exists (kmem s). by destruct s.
  - split; [done|]. split; [done|]. eexists. split; [reflexivity|done].
Defined.

(** Thread 1 unlocks the mutex at 70. *)
Lemma mutex_unlock_correct_witness :
  exists r s', mutex_unlock 70 demo_ps = Ok (r, s') /\
    r = 0 /\ s' = with_mutex 70 (Mutex 0 0 0 true) demo_ps.
Proof.
  apply (mutex_unlock_correct demo_ps 70 (Mutex 1 1 0 true) 1000
           (demo_thread 1 THREAD_STATE_RUNNING 0 0) [2000; 3000]);
    first [exact demo_queue|reflexivity|cbn; lia|done].
Defined.

(** Thread 1 asks for the mutex at 77, which thread 2 owns. *)
Lemma mutex_lock_loses_queue_witness :
  exists s1, mutex_lock 77 demo_ps = bind hlt (fun _ => ret 0) s1 /\
    ready_queue s1 = 0 /\ (forall b, b <> 1000 -> threads s1 !! b = threads demo_ps !! b) /\
    mutexes s1 !! 77 = Some (Mutex 2 1 1000 true).
Proof.
  apply (mutex_lock_loses_queue demo_ps 77 (Mutex 2 1 0 true) 1000 (demo_thread 1 THREAD_STATE_RUNNING 0 0));
    first [reflexivity|done].
Defined.

Lemma demo_create :
  wp (kmalloc_op sizeof_process) (fun p h1 =>
    p = 69656 /\ wp mm_create_space_op (fun sp _ => (sp =? 0) = false) h1) demo_kmem.
Proof. vm_compute. split; reflexivity. Qed.

(** The creator 500, number 1, had no children: it is lost. *)
Lemma process_create_loses_witness :
  exists s', process_create demo_ps = Ok (69656, s') /\
    forall id, process_find_by_pid id s' = Ok (if next_pid demo_ps =? id then 69656 else 0, s').
Proof.
  destruct (proj1 (wp_run _ _ _) demo_create) as (p & h1 & E1 & Ep & Hd).
  destruct (proj1 (wp_run _ _ _) Hd) as (sp & h2 & E2 & Hsp). rewrite Ep in E1.
  apply (process_create_loses demo_ps 500 (demo_process PROC_STATE_RUNNING) [] 69656 h1 sp h2);
    [reflexivity|discriminate|reflexivity|reflexivity|reflexivity| |exact E1|discriminate|reflexivity|exact E2|].
  - right. by eexists.
  - by apply Z.eqb_neq.
Defined.

Lemma sigcont_not_delivered_witness :
  exists s' p', process_send_signal 500 SIGCONT
      (set_procs {[500 := demo_process PROC_STATE_SLEEPING]} demo_ps) = Ok (tt, s') /\
    procs s' !! 500 = Some p' /\ p_state p' = PROC_STATE_SLEEPING /\ Z.testbit (pending_signals p') 19 = true.
Proof.
  apply (sigcont_not_delivered (set_procs {[500 := demo_process PROC_STATE_SLEEPING]} demo_ps)
           500 (demo_process PROC_STATE_SLEEPING)); first [reflexivity|done].
Defined.
