(* ===== verification/Syscall.v ===== *)
(** * System calls (kernel/syscall.c, syscall.h, kernel.h, simple_syscall.c)

    The wrapper a program uses loads registers and executes the [syscall]
    instruction; [syscall_handler] takes seven registers and calls, through
    the table of [syscall_func], a kernel function.  What the instruction does
    is a parameter of the wrappers: nothing in the repository sets its target
    (the register LSTAR), and the stub of vector 128 leads to a function
    [kernel_syscall_handler] that no file defines.  The
    kernel functions are the class [Kernel]: fs.c implements some of them
    ([Fs]), simple_syscall.c and simple_fs.c all but the user numbers
    ([simple_kernel]).  Registers hold 64-bit words; every conversion between
    C types on the way is written out. *)

From S2P Require Import Prelude.

(** ** Numbers *)

Definition SYS_READ : Z := 0.
Definition SYS_WRITE : Z := 1.
Definition SYS_OPEN : Z := 2.
Definition SYS_CLOSE : Z := 3.
Definition SYS_LSEEK : Z := 4.
Definition SYS_STAT : Z := 5.
Definition SYS_FORK : Z := 6.
Definition SYS_EXECVE : Z := 7.
Definition SYS_WAITPID : Z := 8.
Definition SYS_EXIT : Z := 9.
Definition SYS_MMAP : Z := 10.
Definition SYS_MUNMAP : Z := 11.
Definition SYS_BRK : Z := 12.
Definition SYS_SIGNAL : Z := 13.
Definition SYS_SIGACTION : Z := 14.
Definition SYS_KILL : Z := 15.
Definition SYS_PTHREAD_CREATE : Z := 16.
Definition SYS_PTHREAD_JOIN : Z := 17.
Definition SYS_PTHREAD_MUTEX_INIT : Z := 18.
Definition SYS_PTHREAD_MUTEX_LOCK : Z := 19.
Definition SYS_PTHREAD_MUTEX_UNLOCK : Z := 20.
Definition SYS_SOCKET : Z := 21.
Definition SYS_BIND : Z := 22.
Definition SYS_LISTEN : Z := 23.
Definition SYS_ACCEPT : Z := 24.
Definition SYS_CONNECT : Z := 25.
Definition SYS_SEND : Z := 26.
Definition SYS_RECV : Z := 27.
Definition SYS_FCNTL : Z := 28.
Definition SYS_IOCTL : Z := 29.
Definition SYS_SELECT : Z := 30.
Definition SYS_POLL : Z := 31.
Definition SYS_MPROTECT : Z := 32.
Definition SYS_GETUID : Z := 33.
Definition SYS_GETGID : Z := 34.
Definition SYS_SETUID : Z := 35.
Definition SYS_SETGID : Z := 36.

(** ** The kernel functions *)

(** The calls kernel.h declares, with arguments of their C types (pointers and
    [size_t] as 64-bit numbers). *)
Inductive kcall : Type :=
  | syscall_read (fd buf count : Z)
  | syscall_write (fd buf count : Z)
  | syscall_open (pathname flags mode : Z)
  | syscall_close (fd : Z)
  | syscall_lseek (fd offset whence : Z)
  | syscall_stat (pathname statbuf : Z)
  | syscall_fork
  | syscall_execve (path argv envp : Z)
  | syscall_waitpid (pid status options : Z)
  | syscall_exit (status : Z)
  | syscall_mmap (addr length prot flags fd offset : Z)
  | syscall_munmap (addr length : Z)
  | syscall_brk (addr : Z)
  | syscall_signal (signum handler : Z)
  | syscall_sigaction (signum act oldact : Z)
  | syscall_kill (pid signum : Z)
  | syscall_pthread_create (thread start_routine arg : Z)
  | syscall_pthread_join (thread retval : Z)
  | syscall_pthread_mutex_init (mutex : Z)
  | syscall_pthread_mutex_lock (mutex : Z)
  | syscall_pthread_mutex_unlock (mutex : Z)
  | syscall_socket (domain type protocol : Z)
  | syscall_bind (sockfd addr addrlen : Z)
  | syscall_listen (sockfd backlog : Z)
  | syscall_accept (sockfd addr addrlen : Z)
  | syscall_connect (sockfd addr addrlen : Z)
  | syscall_send (sockfd buf len flags : Z)
  | syscall_recv (sockfd buf len flags : Z)
  | syscall_fcntl (fd cmd arg : Z)
  | syscall_ioctl (fd request arg : Z)
  | syscall_select (nfds readfds writefds exceptfds timeout : Z)
  | syscall_poll (fds nfds timeout : Z)
  | syscall_mprotect (addr len prot : Z)
  | syscall_getuid
  | syscall_getgid
  | syscall_setuid (uid : Z)
  | syscall_setgid (gid : Z).

Class Kernel (S : Type) : Type := kernel : kcall -> prog S Z.

Section Kernel.
Context {S : Type} {KN : Kernel S}.

Definition syscall_func : Type := Z -> Z -> Z -> Z -> Z -> Z -> prog S Z.

Definition sys_read : syscall_func := fun fd buf count _ _ _ =>
  kernel (syscall_read (s32 fd) buf count).
Definition sys_write : syscall_func := fun fd buf count _ _ _ =>
  kernel (syscall_write (s32 fd) buf count).
Definition sys_open : syscall_func := fun pathname flags mode _ _ _ =>
  kernel (syscall_open pathname (s32 flags) (s32 mode)).
Definition sys_close : syscall_func := fun fd _ _ _ _ _ =>
  kernel (syscall_close (s32 fd)).
Definition sys_lseek : syscall_func := fun fd offset whence _ _ _ =>
  kernel (syscall_lseek (s32 fd) (s64 offset) (s32 whence)).
Definition sys_stat : syscall_func := fun pathname statbuf _ _ _ _ =>
  kernel (syscall_stat pathname statbuf).
Definition sys_fork : syscall_func := fun _ _ _ _ _ _ =>
  kernel syscall_fork.
Definition sys_execve : syscall_func := fun path argv envp _ _ _ =>
  kernel (syscall_execve path argv envp).
Definition sys_waitpid : syscall_func := fun pid status options _ _ _ =>
  kernel (syscall_waitpid (u32 pid) status (s32 options)).
Definition sys_exit : syscall_func := fun status _ _ _ _ _ =>
  kernel (syscall_exit (s32 status)) ;; ret 0.
Definition sys_mmap : syscall_func := fun addr length prot flags fd offset =>
  let* p := kernel (syscall_mmap addr length (s32 prot) (s32 flags) (s32 fd) (s64 offset)) in ret (s64 p).
Definition sys_munmap : syscall_func := fun addr length _ _ _ _ =>
  kernel (syscall_munmap addr length).
Definition sys_brk : syscall_func := fun addr _ _ _ _ _ =>
  let* p := kernel (syscall_brk addr) in ret (s64 p).
Definition sys_signal : syscall_func := fun signum handler _ _ _ _ =>
  kernel (syscall_signal (s32 signum) handler) ;; ret 0.
Definition sys_sigaction : syscall_func := fun signum act oldact _ _ _ =>
  kernel (syscall_sigaction (s32 signum) act oldact).
Definition sys_kill : syscall_func := fun pid signum _ _ _ _ =>
  kernel (syscall_kill (u32 pid) (s32 signum)).
Definition sys_pthread_create : syscall_func := fun thread _ start_routine arg _ _ =>
  kernel (syscall_pthread_create thread start_routine arg).
Definition sys_pthread_join : syscall_func := fun thread retval _ _ _ _ =>
  kernel (syscall_pthread_join (u32 thread) retval).
Definition sys_pthread_mutex_init : syscall_func := fun mutex _ _ _ _ _ =>
  kernel (syscall_pthread_mutex_init mutex).
Definition sys_pthread_mutex_lock : syscall_func := fun mutex _ _ _ _ _ =>
  kernel (syscall_pthread_mutex_lock (u32 mutex)).
Definition sys_pthread_mutex_unlock : syscall_func := fun mutex _ _ _ _ _ =>
  kernel (syscall_pthread_mutex_unlock (u32 mutex)).
Definition sys_socket : syscall_func := fun domain type protocol _ _ _ =>
  kernel (syscall_socket (s32 domain) (s32 type) (s32 protocol)).
Definition sys_bind : syscall_func := fun sockfd addr addrlen _ _ _ =>
  kernel (syscall_bind (s32 sockfd) addr (u32 addrlen)).
Definition sys_listen : syscall_func := fun sockfd backlog _ _ _ _ =>
  kernel (syscall_listen (s32 sockfd) (s32 backlog)).
Definition sys_accept : syscall_func := fun sockfd addr addrlen _ _ _ =>
  kernel (syscall_accept (s32 sockfd) addr addrlen).
Definition sys_connect : syscall_func := fun sockfd addr addrlen _ _ _ =>
  kernel (syscall_connect (s32 sockfd) addr (u32 addrlen)).
Definition sys_send : syscall_func := fun sockfd buf len flags _ _ =>
  kernel (syscall_send (s32 sockfd) buf len (s32 flags)).
Definition sys_recv : syscall_func := fun sockfd buf len flags _ _ =>
  kernel (syscall_recv (s32 sockfd) buf len (s32 flags)).
Definition sys_fcntl : syscall_func := fun fd cmd arg _ _ _ =>
  kernel (syscall_fcntl (s32 fd) (s32 cmd) arg).
Definition sys_ioctl : syscall_func := fun fd request arg _ _ _ =>
  kernel (syscall_ioctl (s32 fd) request arg).
Definition sys_select : syscall_func := fun nfds readfds writefds exceptfds timeout _ =>
  kernel (syscall_select (s32 nfds) readfds writefds exceptfds timeout).
Definition sys_poll : syscall_func := fun fds nfds timeout _ _ _ =>
  kernel (syscall_poll fds (u32 nfds) (s32 timeout)).
Definition sys_mprotect : syscall_func := fun addr len prot _ _ _ =>
  kernel (syscall_mprotect addr len (s32 prot)).
Definition sys_getuid : syscall_func := fun _ _ _ _ _ _ =>
  kernel syscall_getuid.
Definition sys_getgid : syscall_func := fun _ _ _ _ _ _ =>
  kernel syscall_getgid.
Definition sys_setuid : syscall_func := fun uid _ _ _ _ _ =>
  kernel (syscall_setuid (u32 uid)).
Definition sys_setgid : syscall_func := fun gid _ _ _ _ _ =>
  kernel (syscall_setgid (u32 gid)).

(** ** The table *)

(** [syscall_table[num] = func] *)
Definition SYSCALL_ENTRY (num : Z) (func : syscall_func) (table : list (option syscall_func)) :=
  <[Z.to_nat num := Some func]> table.

Definition syscall_init (table : list (option syscall_func)) : list (option syscall_func) :=
  let table := map (fun _ => None) table in
  let table := SYSCALL_ENTRY SYS_READ sys_read table in
  let table := SYSCALL_ENTRY SYS_WRITE sys_write table in
  let table := SYSCALL_ENTRY SYS_OPEN sys_open table in
  let table := SYSCALL_ENTRY SYS_CLOSE sys_close table in
  let table := SYSCALL_ENTRY SYS_LSEEK sys_lseek table in
  let table := SYSCALL_ENTRY SYS_STAT sys_stat table in
  let table := SYSCALL_ENTRY SYS_FORK sys_fork table in
  let table := SYSCALL_ENTRY SYS_EXECVE sys_execve table in
  let table := SYSCALL_ENTRY SYS_WAITPID sys_waitpid table in
  let table := SYSCALL_ENTRY SYS_EXIT sys_exit table in
  let table := SYSCALL_ENTRY SYS_MMAP sys_mmap table in
  let table := SYSCALL_ENTRY SYS_MUNMAP sys_munmap table in
  let table := SYSCALL_ENTRY SYS_BRK sys_brk table in
  let table := SYSCALL_ENTRY SYS_SIGNAL sys_signal table in
  let table := SYSCALL_ENTRY SYS_SIGACTION sys_sigaction table in
  let table := SYSCALL_ENTRY SYS_KILL sys_kill table in
  let table := SYSCALL_ENTRY SYS_PTHREAD_CREATE sys_pthread_create table in
  let table := SYSCALL_ENTRY SYS_PTHREAD_JOIN sys_pthread_join table in
  let table := SYSCALL_ENTRY SYS_PTHREAD_MUTEX_INIT sys_pthread_mutex_init table in
  let table := SYSCALL_ENTRY SYS_PTHREAD_MUTEX_LOCK sys_pthread_mutex_lock table in
  let table := SYSCALL_ENTRY SYS_PTHREAD_MUTEX_UNLOCK sys_pthread_mutex_unlock table in
  let table := SYSCALL_ENTRY SYS_SOCKET sys_socket table in
  let table := SYSCALL_ENTRY SYS_BIND sys_bind table in
  let table := SYSCALL_ENTRY SYS_LISTEN sys_listen table in
  let table := SYSCALL_ENTRY SYS_ACCEPT sys_accept table in
  let table := SYSCALL_ENTRY SYS_CONNECT sys_connect table in
  let table := SYSCALL_ENTRY SYS_SEND sys_send table in
  let table := SYSCALL_ENTRY SYS_RECV sys_recv table in
  let table := SYSCALL_ENTRY SYS_FCNTL sys_fcntl table in
  let table := SYSCALL_ENTRY SYS_IOCTL sys_ioctl table in
  let table := SYSCALL_ENTRY SYS_SELECT sys_select table in
  let table := SYSCALL_ENTRY SYS_POLL sys_poll table in
  let table := SYSCALL_ENTRY SYS_MPROTECT sys_mprotect table in
  let table := SYSCALL_ENTRY SYS_GETUID sys_getuid table in
  let table := SYSCALL_ENTRY SYS_GETGID sys_getgid table in
  let table := SYSCALL_ENTRY SYS_SETUID sys_setuid table in
  let table := SYSCALL_ENTRY SYS_SETGID sys_setgid table in
  table.

(** The number left in RAX, when the handler sets one. *)
Definition syscall_handler (table : list (option syscall_func))
    (num arg1 arg2 arg3 arg4 arg5 arg6 : Z) : prog S (option Z) :=
  if 256 <=? num then ret None
  else
    let* func := getf (fun _ => table !! Z.to_nat num) in
    match func with
    | None => ret None
    | Some f => let* result := f arg1 arg2 arg3 arg4 arg5 arg6 in ret (Some result)
    end.

(** ** The wrappers *)

Section User.
(** The [syscall] instruction, on RAX, RDI, RSI, RDX, R10, R8 and R9: what it
    does, and what it leaves in RAX.  A register that a wrapper does not set
    holds [stale]. *)
Context (syscall : Z -> Z -> Z -> Z -> Z -> Z -> Z -> prog S Z) (stale : Z).

(** The number in RAX, the arguments in RDI, RSI, RDX, R10, R8 and R9. *)
Definition SYSCALL6 (num a1 a2 a3 a4 a5 a6 : Z) : prog S Z :=
  syscall num (u64 a1) (u64 a2) (u64 a3) (u64 a4) (u64 a5) (u64 a6).
Definition SYSCALL5 (num a1 a2 a3 a4 a5 : Z) : prog S Z := SYSCALL6 num a1 a2 a3 a4 a5 stale.
Definition SYSCALL4 (num a1 a2 a3 a4 : Z) : prog S Z := SYSCALL5 num a1 a2 a3 a4 stale.
Definition SYSCALL3 (num a1 a2 a3 : Z) : prog S Z := SYSCALL4 num a1 a2 a3 stale.
Definition SYSCALL2 (num a1 a2 : Z) : prog S Z := SYSCALL3 num a1 a2 stale.
Definition SYSCALL1 (num a1 : Z) : prog S Z := SYSCALL2 num a1 stale.
Definition SYSCALL0 (num : Z) : prog S Z := SYSCALL1 num stale.

Definition u_read (fd buf count : Z) : prog S Z :=
  let* r := SYSCALL3 SYS_READ fd buf count in ret (s32 r).
Definition u_write (fd buf count : Z) : prog S Z :=
  let* r := SYSCALL3 SYS_WRITE fd buf count in ret (s32 r).
Definition u_open (pathname flags mode : Z) : prog S Z :=
  let* r := SYSCALL3 SYS_OPEN pathname flags mode in ret (s32 r).
Definition u_close (fd : Z) : prog S Z :=
  let* r := SYSCALL1 SYS_CLOSE fd in ret (s32 r).
Definition u_lseek (fd offset whence : Z) : prog S Z :=
  let* r := SYSCALL3 SYS_LSEEK fd offset whence in ret r.
Definition u_stat (pathname statbuf : Z) : prog S Z :=
  let* r := SYSCALL2 SYS_STAT pathname statbuf in ret (s32 r).
Definition u_fork : prog S Z :=
  let* r := SYSCALL0 SYS_FORK in ret (s32 r).
Definition u_execve (path argv envp : Z) : prog S Z :=
  let* r := SYSCALL3 SYS_EXECVE path argv envp in ret (s32 r).
Definition u_waitpid (pid status options : Z) : prog S Z :=
  let* r := SYSCALL3 SYS_WAITPID pid status options in ret (s32 r).
Definition u_exit (status : Z) : prog S Z :=
  SYSCALL1 SYS_EXIT status.
Definition u_mmap (addr length prot flags fd offset : Z) : prog S Z :=
  let* r := SYSCALL6 SYS_MMAP addr length prot flags fd offset in ret (u64 r).
Definition u_munmap (addr length : Z) : prog S Z :=
  let* r := SYSCALL2 SYS_MUNMAP addr length in ret (s32 r).
Definition u_brk (addr : Z) : prog S Z :=
  let* r := SYSCALL1 SYS_BRK addr in ret (u64 r).
Definition u_sbrk (increment : Z) : prog S Z :=
  let* old_brk := SYSCALL1 SYS_BRK 0 in
  let new_brk := u64 (old_brk + increment) in
  SYSCALL1 SYS_BRK new_brk ;;
  ret (u64 old_brk).
Definition u_signal (signum handler : Z) : prog S Z :=
  let* r := SYSCALL2 SYS_SIGNAL signum handler in ret (u64 r).
Definition u_sigaction (signum act oldact : Z) : prog S Z :=
  let* r := SYSCALL3 SYS_SIGACTION signum act oldact in ret (s32 r).
Definition u_kill (pid signum : Z) : prog S Z :=
  let* r := SYSCALL2 SYS_KILL pid signum in ret (s32 r).
Definition u_pthread_create (thread attr start_routine arg : Z) : prog S Z :=
  let* r := SYSCALL4 SYS_PTHREAD_CREATE thread attr start_routine arg in ret (s32 r).
Definition u_pthread_join (thread retval : Z) : prog S Z :=
  let* r := SYSCALL2 SYS_PTHREAD_JOIN thread retval in ret (s32 r).
Definition u_pthread_mutex_init (mutex attr : Z) : prog S Z :=
  let* r := SYSCALL2 SYS_PTHREAD_MUTEX_INIT mutex attr in ret (s32 r).
Definition u_pthread_mutex_lock (mutex : Z) : prog S Z :=
  let* r := SYSCALL1 SYS_PTHREAD_MUTEX_LOCK mutex in ret (s32 r).
Definition u_pthread_mutex_unlock (mutex : Z) : prog S Z :=
  let* r := SYSCALL1 SYS_PTHREAD_MUTEX_UNLOCK mutex in ret (s32 r).
Definition u_socket (domain type protocol : Z) : prog S Z :=
  let* r := SYSCALL3 SYS_SOCKET domain type protocol in ret (s32 r).
Definition u_bind (sockfd addr addrlen : Z) : prog S Z :=
  let* r := SYSCALL3 SYS_BIND sockfd addr addrlen in ret (s32 r).
Definition u_listen (sockfd backlog : Z) : prog S Z :=
  let* r := SYSCALL2 SYS_LISTEN sockfd backlog in ret (s32 r).
Definition u_accept (sockfd addr addrlen : Z) : prog S Z :=
  let* r := SYSCALL3 SYS_ACCEPT sockfd addr addrlen in ret (s32 r).
Definition u_connect (sockfd addr addrlen : Z) : prog S Z :=
  let* r := SYSCALL3 SYS_CONNECT sockfd addr addrlen in ret (s32 r).
Definition u_send (sockfd buf len flags : Z) : prog S Z :=
  let* r := SYSCALL4 SYS_SEND sockfd buf len flags in ret (s32 r).
Definition u_recv (sockfd buf len flags : Z) : prog S Z :=
  let* r := SYSCALL4 SYS_RECV sockfd buf len flags in ret (s32 r).
Definition u_fcntl (fd cmd arg : Z) : prog S Z :=
  let* r := SYSCALL3 SYS_FCNTL fd cmd arg in ret (s32 r).
Definition u_ioctl (fd request arg : Z) : prog S Z :=
  let* r := SYSCALL3 SYS_IOCTL fd request arg in ret (s32 r).
Definition u_select (nfds readfds writefds exceptfds timeout : Z) : prog S Z :=
  let* r := SYSCALL5 SYS_SELECT nfds readfds writefds exceptfds timeout in ret (s32 r).
Definition u_poll (fds nfds timeout : Z) : prog S Z :=
  let* r := SYSCALL3 SYS_POLL fds nfds timeout in ret (s32 r).
Definition u_mprotect (addr len prot : Z) : prog S Z :=
  let* r := SYSCALL3 SYS_MPROTECT addr len prot in ret (s32 r).
Definition u_getuid : prog S Z :=
  let* r := SYSCALL0 SYS_GETUID in ret (u32 r).
Definition u_getgid : prog S Z :=
  let* r := SYSCALL0 SYS_GETGID in ret (u32 r).
Definition u_setuid (uid : Z) : prog S Z :=
  let* r := SYSCALL1 SYS_SETUID uid in ret (s32 r).
Definition u_setgid (gid : Z) : prog S Z :=
  let* r := SYSCALL1 SYS_SETGID gid in ret (s32 r).
End User.
End Kernel.
Arguments syscall_func : clear implicits.

(** ** Specification *)

(** The calls of a user program. *)
Inductive ucall : Type :=
  | U_read (fd buf count : Z)
  | U_write (fd buf count : Z)
  | U_open (pathname flags mode : Z)
  | U_close (fd : Z)
  | U_lseek (fd offset whence : Z)
  | U_stat (pathname statbuf : Z)
  | U_fork
  | U_execve (path argv envp : Z)
  | U_waitpid (pid status options : Z)
  | U_exit (status : Z)
  | U_mmap (addr length prot flags fd offset : Z)
  | U_munmap (addr length : Z)
  | U_brk (addr : Z)
  | U_signal (signum handler : Z)
  | U_sigaction (signum act oldact : Z)
  | U_kill (pid signum : Z)
  | U_pthread_create (thread attr start_routine arg : Z)
  | U_pthread_join (thread retval : Z)
  | U_pthread_mutex_init (mutex attr : Z)
  | U_pthread_mutex_lock (mutex : Z)
  | U_pthread_mutex_unlock (mutex : Z)
  | U_socket (domain type protocol : Z)
  | U_bind (sockfd addr addrlen : Z)
  | U_listen (sockfd backlog : Z)
  | U_accept (sockfd addr addrlen : Z)
  | U_connect (sockfd addr addrlen : Z)
  | U_send (sockfd buf len flags : Z)
  | U_recv (sockfd buf len flags : Z)
  | U_fcntl (fd cmd arg : Z)
  | U_ioctl (fd request arg : Z)
  | U_select (nfds readfds writefds exceptfds timeout : Z)
  | U_poll (fds nfds timeout : Z)
  | U_mprotect (addr len prot : Z)
  | U_getuid
  | U_getgid
  | U_setuid (uid : Z)
  | U_setgid (gid : Z).

Definition int (x : Z) : Prop := - 2 ^ 31 <= x < 2 ^ 31.
Definition uint (x : Z) : Prop := 0 <= x < 2 ^ 32.
Definition long (x : Z) : Prop := - 2 ^ 63 <= x < 2 ^ 63.
Definition word (x : Z) : Prop := 0 <= x < 2 ^ 64.

(** The arguments have the types of the prototypes. *)
Definition typed (c : ucall) : Prop :=
  match c with
  | U_read fd buf count => int fd /\ word buf /\ word count
  | U_write fd buf count => int fd /\ word buf /\ word count
  | U_open pathname flags mode => word pathname /\ int flags /\ int mode
  | U_close fd => int fd
  | U_lseek fd offset whence => int fd /\ long offset /\ int whence
  | U_stat pathname statbuf => word pathname /\ word statbuf
  | U_fork => True
  | U_execve path argv envp => word path /\ word argv /\ word envp
  | U_waitpid pid status options => int pid /\ word status /\ int options
  | U_exit status => int status
  | U_mmap addr length prot flags fd offset => word addr /\ word length /\ int prot /\ int flags /\ int fd /\ long offset
  | U_munmap addr length => word addr /\ word length
  | U_brk addr => word addr
  | U_signal signum handler => int signum /\ word handler
  | U_sigaction signum act oldact => int signum /\ word act /\ word oldact
  | U_kill pid signum => int pid /\ int signum
  | U_pthread_create thread attr start_routine arg => word thread /\ word attr /\ word start_routine /\ word arg
  | U_pthread_join thread retval => uint thread /\ word retval
  | U_pthread_mutex_init mutex attr => word mutex /\ word attr
  | U_pthread_mutex_lock mutex => word mutex
  | U_pthread_mutex_unlock mutex => word mutex
  | U_socket domain type protocol => int domain /\ int type /\ int protocol
  | U_bind sockfd addr addrlen => int sockfd /\ word addr /\ uint addrlen
  | U_listen sockfd backlog => int sockfd /\ int backlog
  | U_accept sockfd addr addrlen => int sockfd /\ word addr /\ word addrlen
  | U_connect sockfd addr addrlen => int sockfd /\ word addr /\ uint addrlen
  | U_send sockfd buf len flags => int sockfd /\ word buf /\ word len /\ int flags
  | U_recv sockfd buf len flags => int sockfd /\ word buf /\ word len /\ int flags
  | U_fcntl fd cmd arg => int fd /\ int cmd /\ long arg
  | U_ioctl fd request arg => int fd /\ word request /\ long arg
  | U_select nfds readfds writefds exceptfds timeout => int nfds /\ word readfds /\ word writefds /\ word exceptfds /\ word timeout
  | U_poll fds nfds timeout => word fds /\ uint nfds /\ int timeout
  | U_mprotect addr len prot => word addr /\ word len /\ int prot
  | U_getuid => True
  | U_getgid => True
  | U_setuid uid => uint uid
  | U_setgid gid => uint gid
  end.

(** The kernel function a call is for: what is an [int] of the program stays
    one; attributes are dropped, and a process number or a mutex is an
    unsigned 32-bit number in the kernel. *)
Definition kernel_call (c : ucall) : kcall :=
  match c with
  | U_read fd buf count => syscall_read fd buf count
  | U_write fd buf count => syscall_write fd buf count
  | U_open pathname flags mode => syscall_open pathname flags mode
  | U_close fd => syscall_close fd
  | U_lseek fd offset whence => syscall_lseek fd offset whence
  | U_stat pathname statbuf => syscall_stat pathname statbuf
  | U_fork => syscall_fork
  | U_execve path argv envp => syscall_execve path argv envp
  | U_waitpid pid status options => syscall_waitpid (u32 pid) status options
  | U_exit status => syscall_exit status
  | U_mmap addr length prot flags fd offset => syscall_mmap addr length prot flags fd offset
  | U_munmap addr length => syscall_munmap addr length
  | U_brk addr => syscall_brk addr
  | U_signal signum handler => syscall_signal signum handler
  | U_sigaction signum act oldact => syscall_sigaction signum act oldact
  | U_kill pid signum => syscall_kill (u32 pid) signum
  | U_pthread_create thread attr start_routine arg => syscall_pthread_create thread start_routine arg
  | U_pthread_join thread retval => syscall_pthread_join thread retval
  | U_pthread_mutex_init mutex attr => syscall_pthread_mutex_init mutex
  | U_pthread_mutex_lock mutex => syscall_pthread_mutex_lock (u32 mutex)
  | U_pthread_mutex_unlock mutex => syscall_pthread_mutex_unlock (u32 mutex)
  | U_socket domain type protocol => syscall_socket domain type protocol
  | U_bind sockfd addr addrlen => syscall_bind sockfd addr addrlen
  | U_listen sockfd backlog => syscall_listen sockfd backlog
  | U_accept sockfd addr addrlen => syscall_accept sockfd addr addrlen
  | U_connect sockfd addr addrlen => syscall_connect sockfd addr addrlen
  | U_send sockfd buf len flags => syscall_send sockfd buf len flags
  | U_recv sockfd buf len flags => syscall_recv sockfd buf len flags
  | U_fcntl fd cmd arg => syscall_fcntl fd cmd (u64 arg)
  | U_ioctl fd request arg => syscall_ioctl fd request (u64 arg)
  | U_select nfds readfds writefds exceptfds timeout => syscall_select nfds readfds writefds exceptfds timeout
  | U_poll fds nfds timeout => syscall_poll fds nfds timeout
  | U_mprotect addr len prot => syscall_mprotect addr len prot
  | U_getuid => syscall_getuid
  | U_getgid => syscall_getgid
  | U_setuid uid => syscall_setuid uid
  | U_setgid gid => syscall_setgid gid
  end.

(** The range of a kernel function's result, by its return type. *)
Definition result_typed (k : kcall) (r : Z) : Prop :=
  match k with
  | syscall_lseek _ _ _ => long r
  | syscall_mmap _ _ _ _ _ _ | syscall_brk _ => word r
  | syscall_getuid | syscall_getgid => uint r
  | syscall_exit _ | syscall_signal _ _ => True
  | _ => int r
  end.

Section Calls.
Context {S : Type} {KN : Kernel S}.
Context (table : list (option (syscall_func S))).
Context (syscall : Z -> Z -> Z -> Z -> Z -> Z -> Z -> prog S Z) (stale : Z).

Definition user (c : ucall) : prog S Z :=
  match c with
  | U_read fd buf count => u_read syscall stale fd buf count
  | U_write fd buf count => u_write syscall stale fd buf count
  | U_open pathname flags mode => u_open syscall stale pathname flags mode
  | U_close fd => u_close syscall stale fd
  | U_lseek fd offset whence => u_lseek syscall stale fd offset whence
  | U_stat pathname statbuf => u_stat syscall stale pathname statbuf
  | U_fork => u_fork syscall stale
  | U_execve path argv envp => u_execve syscall stale path argv envp
  | U_waitpid pid status options => u_waitpid syscall stale pid status options
  | U_exit status => u_exit syscall stale status
  | U_mmap addr length prot flags fd offset => u_mmap syscall addr length prot flags fd offset
  | U_munmap addr length => u_munmap syscall stale addr length
  | U_brk addr => u_brk syscall stale addr
  | U_signal signum handler => u_signal syscall stale signum handler
  | U_sigaction signum act oldact => u_sigaction syscall stale signum act oldact
  | U_kill pid signum => u_kill syscall stale pid signum
  | U_pthread_create thread attr start_routine arg => u_pthread_create syscall stale thread attr start_routine arg
  | U_pthread_join thread retval => u_pthread_join syscall stale thread retval
  | U_pthread_mutex_init mutex attr => u_pthread_mutex_init syscall stale mutex attr
  | U_pthread_mutex_lock mutex => u_pthread_mutex_lock syscall stale mutex
  | U_pthread_mutex_unlock mutex => u_pthread_mutex_unlock syscall stale mutex
  | U_socket domain type protocol => u_socket syscall stale domain type protocol
  | U_bind sockfd addr addrlen => u_bind syscall stale sockfd addr addrlen
  | U_listen sockfd backlog => u_listen syscall stale sockfd backlog
  | U_accept sockfd addr addrlen => u_accept syscall stale sockfd addr addrlen
  | U_connect sockfd addr addrlen => u_connect syscall stale sockfd addr addrlen
  | U_send sockfd buf len flags => u_send syscall stale sockfd buf len flags
  | U_recv sockfd buf len flags => u_recv syscall stale sockfd buf len flags
  | U_fcntl fd cmd arg => u_fcntl syscall stale fd cmd arg
  | U_ioctl fd request arg => u_ioctl syscall stale fd request arg
  | U_select nfds readfds writefds exceptfds timeout => u_select syscall stale nfds readfds writefds exceptfds timeout
  | U_poll fds nfds timeout => u_poll syscall stale fds nfds timeout
  | U_mprotect addr len prot => u_mprotect syscall stale addr len prot
  | U_getuid => u_getuid syscall stale
  | U_getgid => u_getgid syscall stale
  | U_setuid uid => u_setuid syscall stale uid
  | U_setgid gid => u_setgid syscall stale gid
  end.

(** What the program sees of the result. *)
Definition visible (c : ucall) (r : Z) : Z :=
  match c with U_exit _ | U_signal _ _ => 0 | _ => r end.

(** The value of RAX in the C type of the wrapper. *)
Definition from_rax (c : ucall) (rax : Z) : Z :=
  match c with
  | U_lseek _ _ _ | U_exit _ => rax
  | U_mmap _ _ _ _ _ _ | U_brk _ | U_signal _ _ => u64 rax
  | U_getuid | U_getgid => u32 rax
  | _ => s32 rax
  end.

(** Every kernel function returns a value of its type. *)
Hypothesis kernel_typed : forall k s r s', kernel k s = Ok (r, s') -> result_typed k r.

Lemma wrap64_s32 x : swrap 32 (wrap 64 x) = swrap 32 x.
Proof using Type.
  unfold swrap, wrap. f_equal. rewrite <- (Zplus_mod_idemp_l (x mod _)).
  rewrite Z.mod_mod_divide by (by exists (2 ^ 32)). by rewrite Zplus_mod_idemp_l.
Qed.

Lemma wrap64_u32 x : wrap 32 (wrap 64 x) = wrap 32 x.
Proof using Type. apply Z.mod_mod_divide. by exists (2 ^ 32). Qed.

Lemma wrap64_s64 x : swrap 64 (wrap 64 x) = swrap 64 x.
Proof using Type. unfold swrap, wrap. f_equal. apply Zplus_mod_idemp_l. Qed.

Lemma s64_wrap64 x : wrap 64 (swrap 64 x) = wrap 64 x.
Proof using Type.
  unfold swrap, wrap. rewrite Zminus_mod_idemp_l. f_equal. lia.
Qed.

(** The table after [syscall_init] does not depend on what was in it. *)
Lemma init_clears : length table = 256%nat -> syscall_init table = syscall_init (replicate 256 None).
Proof using Type.
  intros Hl. unfold syscall_init at 1.
  assert (map (fun _ => None) table = replicate 256 (None : option (syscall_func S))) as ->; [|done].
  rewrite <- Hl. clear. by induction table as [|x l IH]; [|cbn [map length replicate]; rewrite <- IH].
Qed.
End Calls.

Lemma run_ret {S A} (p : prog S A) s : p s = (let* r := p in ret r) s.
Proof. unfold bind, ret. by destruct (p s) as [[r s']| |]. Qed.

Lemma handler_runs {S} (table : list (option (syscall_func S))) num f b1 b2 b3 b4 b5 b6 s :
  num < 256 -> table !! Z.to_nat num = Some (Some f) ->
  syscall_handler table num b1 b2 b3 b4 b5 b6 s = (let* r := f b1 b2 b3 b4 b5 b6 in ret (Some r)) s.
Proof.
  intros Hn Hf. unfold syscall_handler. rewrite (proj2 (Z.leb_gt 256 num)) by done.
  unfold bind, getf, ret, syscall_func, prog in *. by rewrite Hf.
Qed.

Create HintDb syscalls.
#[export] Hint Unfold sys_read sys_write sys_open sys_close sys_lseek sys_stat sys_fork sys_execve sys_waitpid sys_exit
  sys_mmap sys_munmap sys_brk sys_signal sys_sigaction sys_kill sys_pthread_create sys_pthread_join
  sys_pthread_mutex_init sys_pthread_mutex_lock sys_pthread_mutex_unlock sys_socket sys_bind
  sys_listen sys_accept sys_connect sys_send sys_recv sys_fcntl sys_ioctl sys_select sys_poll
  sys_mprotect sys_getuid sys_getgid sys_setuid sys_setgid u_read u_write u_open u_close u_lseek
  u_stat u_fork u_execve u_waitpid u_exit u_mmap u_munmap u_brk u_sbrk u_signal u_sigaction u_kill
  u_pthread_create u_pthread_join u_pthread_mutex_init u_pthread_mutex_lock u_pthread_mutex_unlock
  u_socket u_bind u_listen u_accept u_connect u_send u_recv u_fcntl u_ioctl u_select u_poll u_mprotect
  u_getuid u_getgid u_setuid u_setgid SYSCALL6 SYSCALL5 SYSCALL4 SYSCALL3 SYSCALL2 SYSCALL1 SYSCALL0 : syscalls.

(** Conversions of words that carry a value of the type. *)
Ltac convert :=
  unfold typed, result_typed, int, uint, long, word in *;
  rewrite ?wrap64_s32, ?wrap64_u32, ?wrap64_s64, ?s64_wrap64;
  repeat (rewrite swrap_small by lia); repeat (match goal with |- context [wrap 64 ?x] => rewrite (wrap_small 64 x) by lia end);
  repeat (rewrite (wrap_small 32) by lia).

(** C18: A system call reaches its kernel function, as far as the source goes.
    Every wrapper, but [sbrk], which makes two calls, executes the [syscall]
    instruction once, whatever that does.  On the registers it loads, the
    handler with the table of [syscall_init] runs exactly the kernel function
    that the call is for, on the arguments of the caller, and the number it
    leaves for RAX is to the wrapper the result of that function ([exit] and
    [signal] return nothing).  That the instruction leads to the handler is
    not assumed: nothing in the source makes it do so. *)
Theorem user_reaches_kernel {S} {KN : Kernel S} table stale c :
  (forall k s r s', kernel k s = Ok (r, s') -> result_typed k r) ->
  length table = 256%nat -> typed c ->
  exists num b1 b2 b3 b4 b5 b6,
    (forall syscall (s : S), user syscall stale c s = (let* rax := syscall num b1 b2 b3 b4 b5 b6 in ret (from_rax c rax)) s) /\
    (forall s : S, match kernel (kernel_call c) s with
               | Ok (r, s') => exists rax, syscall_handler (syscall_init table) num b1 b2 b3 b4 b5 b6 s = Ok (Some rax, s') /\
                                 from_rax c rax = visible c r
               | Fault => syscall_handler (syscall_init table) num b1 b2 b3 b4 b5 b6 s = Fault
               | Spin => syscall_handler (syscall_init table) num b1 b2 b3 b4 b5 b6 s = Spin
               end).
Proof.
  intros Hk Hl Hc. rewrite (init_clears table Hl).
  destruct c; cbn [user typed kernel_call visible from_rax] in *; do 7 eexists;
    (split; [intros syscall s; autounfold with syscalls; (reflexivity || apply run_ret)|]);
    intros s; (erewrite handler_runs; [|done|reflexivity]); autounfold with syscalls; convert; unfold bind, ret;
    (match goal with |- context [kernel ?k s] => destruct (kernel k s) as [[r s']| |] eqn:E end; [|done..]);
    apply Hk in E; eexists; (split; [reflexivity|]); convert; done.
Qed.

(** Numbers without an entry leave RAX as it was. *)
Lemma unknown_call {S} {KN : Kernel S} table num a1 a2 a3 a4 a5 a6 s :
  length table = 256%nat -> 37 <= num ->
  syscall_handler (syscall_init table) num a1 a2 a3 a4 a5 a6 s = Ok (None, s).
Proof.
  intros Hl Hn. rewrite (init_clears table Hl). unfold syscall_handler.
  destruct (Z.leb_spec 256 num); [done|].
  assert (syscall_init (replicate 256 None) !! Z.to_nat num = Some (None : option (syscall_func S))) as E.
  { replace (Z.to_nat num) with (37 + (Z.to_nat num - 37))%nat by lia. rewrite <- lookup_drop.
    change (drop 37 _) with (replicate 219 (None : option (syscall_func S))).
    apply lookup_replicate_2. lia. }
  unfold bind, getf, syscall_func, prog in *. by rewrite E.
Qed.

(** ** The kernel without services (kernel/simple_syscall.c, simple_fs.c) *)

(** Calls that neither file defines are unresolved. *)
Definition simple_call {S} (k : kcall) : prog S Z :=
  match k with
  | syscall_getuid | syscall_getgid | syscall_setuid _ | syscall_setgid _ => fault
  | syscall_exit _ | syscall_signal _ _ | syscall_mmap _ _ _ _ _ _ | syscall_brk _ => ret 0
  | _ => ret (-1)
  end.

#[export] Instance simple_kernel {S} : Kernel S := simple_call.

Lemma simple_typed {S} k (s : S) r s' : simple_call k s = Ok (r, s') -> result_typed k r.
Proof. destruct k; cbn; try done; intros [= <- _]; unfold int, word, long; lia. Qed.

(** [waitpid(-1, p, 0)]: any child is process 2^32 - 1 to the kernel. *)
Lemma user_reaches_kernel_witness : exists num b1 b2 b3 b4 b5 b6,
  (forall syscall (s : unit), user syscall 7 (U_waitpid (-1) 4096 0) s =
     (let* rax := syscall num b1 b2 b3 b4 b5 b6 in ret (s32 rax)) s) /\
  (forall s : unit, match kernel (syscall_waitpid 4294967295 4096 0) s with
             | Ok (r, s') => exists rax, syscall_handler (syscall_init (replicate 256 None)) num b1 b2 b3 b4 b5 b6 s = Ok (Some rax, s') /\
                               s32 rax = r
             | Fault => syscall_handler (syscall_init (replicate 256 None)) num b1 b2 b3 b4 b5 b6 s = Fault
             | Spin => syscall_handler (syscall_init (replicate 256 None)) num b1 b2 b3 b4 b5 b6 s = Spin
             end).
Proof.
  apply (user_reaches_kernel (replicate 256 None) 7 (U_waitpid (-1) 4096 0)).
  - intros k s r s'. apply simple_typed.
  - reflexivity.
  - cbn. unfold int, word. lia.
Defined.
