(* ===== verification/Console.v ===== *)
(** * The text console (kernel/console.c, console.h)

    The screen is the list of the 80 x 25 cells of the VGA text buffer; a
    write outside it is a [Fault].  [char] is signed; strings are lists of
    their characters without the terminator.  A variadic argument is a 64-bit
    word or a string; taking one of the wrong kind, or one that is not there,
    is a [Fault]. *)

From S2P Require Import Prelude Digits.

Definition CONSOLE_WIDTH : Z := 80.
Definition CONSOLE_HEIGHT : Z := 25.
Definition CONSOLE_COLOR_BLACK : Z := 0.
Definition CONSOLE_COLOR_LIGHT_GREY : Z := 7.

(** ** State *)

Record console : Type := Console {
  vga_buffer : list Z; console_x : Z; console_y : Z; console_color : Z;
}.

Definition set_vga (v : list Z) (s : console) : console := Console v (console_x s) (console_y s) (console_color s).
Definition set_x (x : Z) (s : console) : console := Console (vga_buffer s) (u8 x) (console_y s) (console_color s).
Definition set_y (y : Z) (s : console) : console := Console (vga_buffer s) (console_x s) (u8 y) (console_color s).

Definition load_cell (index : Z) : prog console Z := getf (fun s => vga_buffer s !! Z.to_nat index).
Definition store_cell (index v : Z) : prog console unit :=
  fun s => if (0 <=? index) && (index <? Z.of_nat (length (vga_buffer s)))
           then Ok (tt, set_vga (<[Z.to_nat index := v]> (vga_buffer s)) s)
           else Fault.

(** ** Operations *)

Definition vga_entry_color (fg bg : Z) : Z := u8 (Z.lor fg (Z.shiftl bg 4)).
Definition vga_entry (uc color : Z) : Z := u16 (Z.lor uc (Z.shiftl color 8)).

Definition console_clear : prog console unit :=
  for_ 0 CONSOLE_HEIGHT (fun y =>
    for_ 0 CONSOLE_WIDTH (fun x =>
      let index := y * CONSOLE_WIDTH + x in
      let* color := gets console_color in
      store_cell index (vga_entry 32 color))) ;;
  modify (set_x 0) ;;
  modify (set_y 0).

Definition console_set_color (fg bg : Z) : prog console unit :=
  modify (fun s => Console (vga_buffer s) (console_x s) (console_y s) (vga_entry_color fg bg)).

Definition console_init : prog console unit :=
  console_clear ;;
  console_set_color CONSOLE_COLOR_LIGHT_GREY CONSOLE_COLOR_BLACK.

Definition console_scroll_up : prog console unit :=
  for_ 0 (CONSOLE_HEIGHT - 1) (fun y =>
    for_ 0 CONSOLE_WIDTH (fun x =>
      let src_index := (y + 1) * CONSOLE_WIDTH + x in
      let dst_index := y * CONSOLE_WIDTH + x in
      let* c := load_cell src_index in
      store_cell dst_index c)) ;;
  for_ 0 CONSOLE_WIDTH (fun x =>
    let index := (CONSOLE_HEIGHT - 1) * CONSOLE_WIDTH + x in
    let* color := gets console_color in
    store_cell index (vga_entry 32 color)).

Definition console_putc (c : Z) : prog console unit :=
  (if c =? 10 then
     modify (set_x 0) ;;
     modify (fun s => set_y (console_y s + 1) s)
   else if c =? 13 then modify (set_x 0)
   else if c =? 9 then modify (fun s => set_x (Z.land (console_x s + 8) (Z.lnot 7)) s)
   else if 32 <=? c then
     let* x := gets console_x in
     let* y := gets console_y in
     let index := y * CONSOLE_WIDTH + x in
     let* color := gets console_color in
     store_cell index (vga_entry (u8 c) color) ;;
     modify (fun s => set_x (console_x s + 1) s)
   else ret tt) ;;
  let* x := gets console_x in
  (if CONSOLE_WIDTH <=? x then
     modify (set_x 0) ;;
     modify (fun s => set_y (console_y s + 1) s)
   else ret tt) ;;
  let* y := gets console_y in
  if CONSOLE_HEIGHT <=? y then
    console_scroll_up ;;
    modify (set_y (CONSOLE_HEIGHT - 1))
  else ret tt.

Fixpoint console_puts (str : list Z) : prog console unit :=
  match str with
  | [] => ret tt
  | c :: str => console_putc c ;; console_puts str
  end.

Definition console_set_cursor (x y : Z) : prog console unit :=
  if (x <? CONSOLE_WIDTH) && (y <? CONSOLE_HEIGHT)
  then modify (set_x x) ;; modify (set_y y) else ret tt.

(** What is stored through the two pointers. *)
Definition console_get_cursor (x y : Z) : prog console (option Z * option Z) :=
  let* cx := gets console_x in
  let* cy := gets console_y in
  ret (if negb (x =? 0) then Some cx else None, if negb (y =? 0) then Some cy else None).

(** ** Numbers *)

(** [buffer[index++] = c] in a buffer of 32 characters; the buffer is the list
    of the characters, last one first. *)
Definition push_char (c : Z) (buffer : list Z) : prog console (list Z) :=
  if (length buffer <? 32)%nat then ret (c :: buffer) else fault.

Definition console_print_int (value base : Z) : prog console unit :=
  if value =? 0 then console_putc 48
  else
    let negative := (value <? 0) && (base =? 10) in
    let value := if negative then s32 (- value) else value in
    let* buffer := loop (fun '(value, buffer) =>
      if 0 <? value then
        let digit := Z.rem value base in
        let* buffer := push_char (if digit <? 10 then 48 + digit else 65 + digit - 10) buffer in
        ret (Next (Z.quot value base, buffer))
      else ret (Done buffer)) (value, []) in
    (if negative then console_putc 45 else ret tt) ;;
    console_puts buffer.

(** ["0123456789abcdef"] *)
Definition hex_digits : list Z := [48; 49; 50; 51; 52; 53; 54; 55; 56; 57; 97; 98; 99; 100; 101; 102].

Definition console_print_uint (value base : Z) : prog console unit :=
  if value =? 0 then console_putc 48
  else
    let* buffer := loop (fun '(value, buffer) =>
      if 0 <? value then
        let digit := value mod base in
        let* c := getf (fun _ => hex_digits !! Z.to_nat digit) in
        let* buffer := push_char c buffer in
        ret (Next (value / base, buffer))
      else ret (Done buffer)) (value, []) in
    console_puts buffer.

(** ** Formatted output *)

Inductive varg : Type :=
  | VWord (w : Z)
  | VStr (l : list Z).

Definition va_word (args : list varg) : prog console (Z * list varg) :=
  match args with
  | VWord w :: args => ret (w, args)
  | _ => fault
  end.
Definition va_str (args : list varg) : prog console (list Z * list varg) :=
  match args with
  | VStr l :: args => ret (l, args)
  | _ => fault
  end.

(** One step past the terminator of the format reads what lies behind it. *)
Fixpoint console_printf (format : list Z) (args : list varg) : prog console unit :=
  match format with
  | [] => ret tt
  | 37 :: format =>
      match format with
      | [] => console_putc 37 ;; console_putc 0 ;; fault
      | f :: format =>
          if f =? 99 then
            let* (w, args) := va_word args in
            console_putc (s8 w) ;; console_printf format args
          else if f =? 115 then
            let* (l, args) := va_str args in
            console_puts l ;; console_printf format args
          else if f =? 100 then
            let* (w, args) := va_word args in
            console_print_int (s32 w) 10 ;; console_printf format args
          else if f =? 117 then
            let* (w, args) := va_word args in
            console_print_uint (u32 w) 10 ;; console_printf format args
          else if f =? 120 then
            let* (w, args) := va_word args in
            console_print_uint (u32 w) 16 ;; console_printf format args
          else if f =? 112 then
            console_puts [48; 120] ;;
            let* (w, args) := va_word args in
            console_print_uint (u32 w) 16 ;; console_printf format args
          else if f =? 108 then
            match format with
            | [] => fault
            | g :: format =>
                if g =? 100 then
                  let* (w, args) := va_word args in
                  console_print_int (s32 w) 10 ;; console_printf format args
                else if g =? 117 then
                  let* (w, args) := va_word args in
                  console_print_uint (u32 w) 10 ;; console_printf format args
                else if g =? 120 then
                  let* (w, args) := va_word args in
                  console_print_uint (u32 w) 16 ;; console_printf format args
                else console_printf format args
            end
          else if f =? 37 then console_putc 37 ;; console_printf format args
          else console_putc 37 ;; console_putc f ;; console_printf format args
      end
  | c :: format => console_putc c ;; console_printf format args
  end.

(** [printk] hands its [va_list] on as the one argument of [console_printf];
    [va_list] is the word it is passed as. *)
Definition printk (va_list : Z) (format : list Z) (args : list varg) : prog console unit :=
  console_printf format [VWord va_list].

(** ** Specification *)

Definition blank (color : Z) : Z := vga_entry 32 color.

Record valid (s : console) : Prop := {
  v_cells : length (vga_buffer s) = 2000%nat;
  v_x : 0 <= console_x s < 80;
  v_y : 0 <= console_y s < 25;
}.

(** The screen one line up, the last line blank. *)
Definition scrolled (s : console) : list Z := drop 80 (vga_buffer s) ++ replicate 80 (blank (console_color s)).

(** The cursor brought back on the screen: wrapped at the end of a line, and
    the screen scrolled below the last one. *)
Definition wrap_line (s : console) : console :=
  if 80 <=? console_x s then Console (vga_buffer s) 0 (console_y s + 1) (console_color s) else s.
Definition wrap_screen (s : console) : console :=
  if 25 <=? console_y s then Console (scrolled s) (console_x s) 24 (console_color s) else s.

(** The character drawn, or the cursor moved. *)
Definition draw (c : Z) (s : console) : console :=
  let 'Console v x y color := s in
  if c =? 10 then Console v 0 (y + 1) color
  else if c =? 13 then Console v 0 y color
  else if c =? 9 then Console v (8 * (x / 8) + 8) y color
  else if 32 <=? c then Console (<[Z.to_nat (y * 80 + x) := vga_entry (u8 c) color]> v) (x + 1) y color
  else s.

Definition putc_spec (c : Z) (s : console) : console := wrap_screen (wrap_line (draw c s)).
Definition puts_spec (l : list Z) (s : console) : console := fold_left (fun s c => putc_spec c s) l s.

(** ** Lemmas *)

Lemma length_scrolled s : length (vga_buffer s) = 2000%nat -> length (scrolled s) = 2000%nat.
Proof. intros Hl. unfold scrolled. rewrite length_app, length_drop, length_replicate. lia. Qed.

(** [putc_spec] keeps the console valid. *)
Lemma putc_valid c s : valid s -> valid (putc_spec c s).
Proof.
  intros [Hl Hx Hy]. unfold putc_spec.
  assert (length (vga_buffer (draw c s)) = 2000%nat /\ 0 <= console_x (draw c s) <= 80 /\
          0 <= console_y (draw c s) <= 25 /\ (console_y (draw c s) = 25 -> console_x (draw c s) = 0))
    as (L & X & Y & XY).
  { destruct s as [v x y color]. cbn in *. unfold draw.
    pose proof (Z.div_mod x 8 ltac:(done)). pose proof (Z.mod_pos_bound x 8 ltac:(done)).
    repeat case_match; cbn; rewrite ?length_insert; lia. }
  destruct (draw c s) as [v x y color]. cbn in L, X, Y, XY. unfold wrap_line. cbn [console_x].
  destruct (Z.leb_spec 80 x); unfold wrap_screen; cbn [console_y];
    [destruct (Z.leb_spec 25 (y + 1))|destruct (Z.leb_spec 25 y)];
    constructor; cbn [console_x console_y vga_buffer]; rewrite ?length_scrolled by done; cbn [vga_buffer]; lia.
Qed.

Lemma wp_load_cell s k c (Q : Z -> console -> Prop) :
  vga_buffer s !! Z.to_nat k = Some c -> Q c s -> wp (load_cell k) Q s.
Proof. intros. by apply wp_getf with c. Qed.

Lemma wp_store_cell s k c (Q : unit -> console -> Prop) :
  0 <= k < Z.of_nat (length (vga_buffer s)) -> Q tt (set_vga (<[Z.to_nat k := c]> (vga_buffer s)) s) ->
  wp (store_cell k c) Q s.
Proof.
  intros Hk HQ. unfold wp, store_cell.
  by rewrite (proj2 (Z.leb_le 0 k)), (proj2 (Z.ltb_lt k _)) by lia.
Qed.

(** The cells of [s] with the first [k] already as in [w]. *)
Definition mixed (w : list Z) (s : console) (k : Z) : console :=
  set_vga (take (Z.to_nat k) w ++ drop (Z.to_nat k) (vga_buffer s)) s.

Lemma mixed_length w s k : length w = length (vga_buffer s) ->
  length (vga_buffer (mixed w s k)) = length (vga_buffer s).
Proof. intros Hl. cbn. rewrite length_app, length_take, length_drop. lia. Qed.

(** Storing the next cell of [w]. *)
Lemma wp_mixed_step w s k c (Q : unit -> console -> Prop) :
  length w = length (vga_buffer s) -> 0 <= k -> w !! Z.to_nat k = Some c ->
  Q tt (mixed w s (k + 1)) -> wp (store_cell k c) Q (mixed w s k).
Proof.
  intros Hl Hk Hc HQ. pose proof (lookup_lt_Some _ _ _ Hc) as Hlt.
  apply wp_store_cell; [rewrite mixed_length by done; lia|].
  replace (set_vga _ _) with (mixed w s (k + 1)); [done|]. unfold mixed, set_vga. cbn. f_equal.
  replace (Z.to_nat (k + 1)) with (S (Z.to_nat k)) by lia. rewrite (take_S_r _ _ _ Hc), <- app_assoc. cbn.
  destruct (drop (Z.to_nat k) (vga_buffer s)) as [|x rest] eqn:E.
  { apply (f_equal length) in E. rewrite length_drop in E. cbn in E. lia. }
  rewrite insert_app_r_alt by (rewrite length_take; lia).
  replace (Z.to_nat k - length (take (Z.to_nat k) w))%nat with 0%nat by (rewrite length_take; lia). cbn.
  f_equal. f_equal. rewrite <- Nat.add_1_r, <- drop_drop, E. done.
Qed.

Lemma mixed_all w s k : length w = length (vga_buffer s) -> Z.of_nat (length w) <= k ->
  mixed w s k = set_vga w s.
Proof. intros Hl Hk. unfold mixed. rewrite take_ge, drop_ge, app_nil_r by lia. done. Qed.

Lemma mixed_0 w s : mixed w s 0 = s.
Proof. unfold mixed. rewrite take_0, drop_0. by destruct s. Qed.

Lemma mixed_ahead w s k i : length w = length (vga_buffer s) -> 0 <= k <= i ->
  vga_buffer (mixed w s k) !! Z.to_nat i = vga_buffer s !! Z.to_nat i.
Proof.
  intros Hl Hk. cbn. destruct (decide (Z.to_nat k <= length w)%nat).
  - rewrite lookup_app_r by (rewrite length_take; lia). rewrite lookup_drop, length_take. f_equal. lia.
  - rewrite !lookup_ge_None_2; [done| |rewrite length_app, length_take, length_drop]; lia.
Qed.

Lemma wp_console_scroll_up s (Q : unit -> console -> Prop) :
  length (vga_buffer s) = 2000%nat -> Q tt (set_vga (scrolled s) s) -> wp console_scroll_up Q s.
Proof.
  intros Hl HQ. unfold console_scroll_up, CONSOLE_HEIGHT, CONSOLE_WIDTH. set (w := scrolled s).
  assert (length w = length (vga_buffer s)) as Hw by (unfold w; rewrite length_scrolled; lia). wp_step.
  apply wp_for with (I := fun y s' => s' = mixed w s (y * 80)); [lia|lia|by rewrite mixed_0| |].
  - intros y ? Hy ->. apply wp_for with (I := fun x s' => s' = mixed w s (y * 80 + x)).
    + lia.
    + lia.
    + by rewrite Z.add_0_r.
    + intros x ? Hx ->. set (k := y * 80 + x). replace ((y + 1) * 80 + x) with (k + 80) by lia.
      destruct (lookup_lt_is_Some_2 (vga_buffer s) (Z.to_nat (k + 80))) as [c Hc]; [lia|]. wp_step.
      apply (wp_load_cell _ _ c); [by rewrite mixed_ahead by lia|].
      apply wp_mixed_step; [done|lia| |unfold k; f_equal; lia].
      unfold w, scrolled. rewrite lookup_app_l by (rewrite length_drop; lia). rewrite lookup_drop, <- Hc.
      f_equal. lia.
    + intros ? ->. f_equal. lia.
  - intros ? ->. apply wp_for with (I := fun x s' => s' = mixed w s (24 * 80 + x)); [lia|lia|done| |].
    + intros x ? Hx ->. do 2 wp_step. apply wp_mixed_step; [done|lia| |f_equal; lia].
      unfold w, scrolled. rewrite lookup_app_r by (rewrite length_drop; lia).
      apply lookup_replicate_2. rewrite length_drop. lia.
    + intros ? ->. rewrite mixed_all by lia. exact HQ.
Qed.

(** ** Drawing *)

Lemma tab_stop x : 0 <= x -> Z.land (x + 8) (Z.lnot 7) = 8 * (x / 8) + 8.
Proof.
  intros Hx. rewrite <- Z.ldiff_land. change 7 with (Z.ones 3). rewrite Z.ldiff_ones_r by done.
  rewrite Z.shiftr_div_pow2, Z.shiftl_mul_pow2 by done. change (2 ^ 3) with 8.
  replace (x + 8) with (x + 1 * 8) by lia. rewrite Z.div_add by done. lia.
Qed.

Lemma wp_console_putc c s (Q : unit -> console -> Prop) :
  valid s -> Q tt (putc_spec c s) -> wp (console_putc c) Q s.
Proof.
  intros [Hl Hx Hy] HQ. unfold console_putc, CONSOLE_WIDTH, CONSOLE_HEIGHT.
  destruct s as [v x y color]. cbn in Hl, Hx, Hy. wp_step.
  eapply wp_mono with (P := fun _ s' => s' = draw c (Console v x y color)).
  { unfold draw. destruct (c =? 10); [wp_steps; unfold set_x, set_y; cbn; f_equal; apply wrap_small; lia|].
    destruct (c =? 13); [by wp_steps|]. destruct (c =? 9).
    { wp_steps. unfold set_x. cbn. rewrite tab_stop by lia. f_equal. apply wrap_small.
      pose proof (Z.div_mod x 8 ltac:(done)). pose proof (Z.mod_pos_bound x 8 ltac:(done)). lia. }
    destruct (32 <=? c); [|by wp_steps]. do 7 wp_step. apply wp_store_cell; [cbn; lia|]. wp_steps.
    unfold set_x, set_vga. cbn. f_equal. apply wrap_small. lia. }
  intros [] s1 Hs1. unfold putc_spec in HQ. rewrite <- Hs1 in HQ.
  assert (length (vga_buffer s1) = 2000%nat /\ 0 <= console_y s1 <= 25) as (L & Y).
  { rewrite Hs1. unfold draw. repeat case_match; cbn; rewrite ?length_insert; lia. }
  clear Hs1. do 3 wp_step.
  eapply wp_mono with (P := fun _ s' => s' = wrap_line s1).
  { unfold wrap_line. destruct (80 <=? console_x s1); wp_steps; [|done].
    unfold set_x, set_y. cbn. f_equal. apply wrap_small. lia. }
  intros [] s2 ->. do 2 wp_step. unfold wrap_screen in HQ. destruct (25 <=? console_y (wrap_line s1)).
  - wp_step. apply wp_console_scroll_up.
    { unfold wrap_line. by destruct (80 <=? console_x s1). }
    wp_step. done.
  - by wp_step.
Qed.

(** C19: [console_putc] on a valid console never leaves the text buffer and
    does what [putc_spec] says: it draws a printable character at the cursor,
    interprets newline, return and tab, wraps at column 80, and scrolls the
    screen up by one line when the cursor passes the last one. *)
Theorem console_putc_correct c s : valid s ->
  console_putc c s = Ok (tt, putc_spec c s) /\ valid (putc_spec c s).
Proof.
  intros Hs. split; [|by apply putc_valid]. apply wp_det. by apply wp_console_putc.
Qed.

Lemma wp_console_puts l : forall s (Q : unit -> console -> Prop),
  valid s -> Q tt (puts_spec l s) -> wp (console_puts l) Q s.
Proof.
  induction l as [|c l IH]; intros s Q Hs HQ; cbn [console_puts]; [by wp_step|]. wp_step.
  apply wp_console_putc; [done|]. apply IH; [by apply putc_valid|done].
Qed.

(** ** Printing numbers *)

Definition hex_char (d : Z) : Z := default 0 (hex_digits !! Z.to_nat d).

Lemma wp_push_char c buffer s (Q : list Z -> console -> Prop) :
  (length buffer < 32)%nat -> Q (c :: buffer) s -> wp (push_char c buffer) Q s.
Proof. intros Hl HQ. unfold push_char. rewrite (proj2 (Nat.ltb_lt _ _)) by done. by wp_step. Qed.

Lemma wp_console_print_uint v base s (Q : unit -> console -> Prop) :
  valid s -> 0 <= v < 2 ^ 32 -> 2 <= base <= 16 ->
  (forall ds, numeral base v ds -> ds <> [] -> Q tt (puts_spec (map hex_char ds) s)) ->
  wp (console_print_uint v base) Q s.
Proof.
  intros Hs Hv Hb HQ. unfold console_print_uint. destruct (Z.eqb_spec v 0) as [->|Hv0].
  { apply wp_console_putc; [done|]. apply (HQ [0]); [|done].
    constructor; [constructor; [lia|done]|done|done]. }
  wp_step. apply wp_loop_n with (n := v)
    (I := fun i '(rest, buffer) s' => s' = s /\ i = rest /\
       exists ds, buffer = map hex_char ds /\ partial base v rest ds); [|split; [done|]|lia].
  - intros i [rest buffer] s' (-> & -> & ds & -> & Hp). cbv beta iota.
    destruct (Z.ltb_spec 0 rest) as [Hr|Hr].
    + pose proof (Z.mod_pos_bound rest base ltac:(lia)).
      destruct (lookup_lt_is_Some_2 hex_digits (Z.to_nat (rest mod base))) as [c Hc]; [cbn; lia|].
      wp_step. apply wp_getf with c; [done|]. wp_step.
      apply wp_push_char; [rewrite length_map; apply (partial_short 32 base v rest); [lia|lia|lia|done]|]. wp_step.
      exists (rest / base). split; [|split; [apply Z.div_pos|apply Z.div_lt]; lia]. split; [done|]. split; [done|].
      exists (rest mod base :: ds). split; [|apply partial_step; [lia|lia|done]]. cbn. unfold hex_char at 2. by rewrite Hc.
    + wp_step. pose proof (pa_rest _ _ _ _ Hp). assert (rest = 0) as -> by lia.
      apply partial_done in Hp. apply wp_console_puts; [done|]. apply HQ; [done|].
      by destruct (nu_lead _ _ _ Hp Hv0) as (d & ds' & -> & _).
  - split; [done|]. exists []. split; [done|]. constructor; [done|lia| |lia].
    cbn. lia.
Qed.

(** [console_print_uint] prints its argument: the characters are the
    digits, in the base and without leading zeros, of exactly that number. *)
Theorem print_uint_correct v base s : valid s -> 0 <= v < 2 ^ 32 -> 2 <= base <= 16 ->
  exists ds, numeral base v ds /\ ds <> [] /\
    console_print_uint v base s = Ok (tt, puts_spec (map hex_char ds) s).
Proof.
  intros Hs Hv Hb.
  assert (wp (console_print_uint v base) (fun _ s' =>
    exists ds, numeral base v ds /\ ds <> [] /\ s' = puts_spec (map hex_char ds) s) s) as Hw.
  { apply wp_console_print_uint; [done..|]. eauto. }
  apply wp_run in Hw as ([] & s' & E & ds & H1 & H2 & ->). eauto.
Qed.

(** [console_print_int] of the least [int] prints a sign and no digits. *)
Lemma print_int_min s : valid s -> console_print_int (- 2 ^ 31) 10 s = Ok (tt, putc_spec 45 s).
Proof.
  intros Hs. apply wp_det. unfold console_print_int.
  change (- 2 ^ 31 =? 0) with false. change (_ && _) with true. cbv iota.
  change (s32 (- - 2 ^ 31)) with (- 2 ^ 31). wp_step.
  apply wp_loop_n with (n := 0) (I := fun i '(value, buffer) s' => s' = s /\ value = - 2 ^ 31 /\ buffer = [] /\ i = 0);
    [|by split_and!|lia].
  intros i [value buffer] s' (-> & -> & -> & ->). change (0 <? - 2 ^ 31) with false. wp_steps.
  cbn [turn]. wp_steps. apply wp_console_putc; [done|]. by wp_steps.
Qed.

(** What [console_print_int] prints for [v]. *)
Definition int_text (v : Z) (l : list Z) : Prop :=
  v = - 2 ^ 31 /\ l = [45] \/
  exists ds, numeral 10 (Z.abs v) ds /\ l = (if v <? 0 then [45] else []) ++ map hex_char ds.

Lemma decimal_char d : 0 <= d < 10 -> (if d <? 10 then 48 + d else 65 + d - 10) = hex_char d.
Proof.
  intros Hd. rewrite (proj2 (Z.ltb_lt d 10)) by lia.
  assert (d = 0 \/ d = 1 \/ d = 2 \/ d = 3 \/ d = 4 \/ d = 5 \/ d = 6 \/ d = 7 \/ d = 8 \/ d = 9) as Hc by lia.
  repeat destruct Hc as [->|Hc]; try done. by rewrite Hc.
Qed.

Lemma wp_console_print_int v s (Q : unit -> console -> Prop) :
  valid s -> - 2 ^ 31 <= v < 2 ^ 31 -> (forall l, int_text v l -> Q tt (puts_spec l s)) ->
  wp (console_print_int v 10) Q s.
Proof.
  intros Hs Hv HQ. destruct (decide (v = - 2 ^ 31)) as [->|Hmin].
  { eapply wp_mono; [apply wp_det, print_int_min; done|]. intros [] s' [_ ->]. apply (HQ [45]). by left. }
  unfold console_print_int. destruct (Z.eqb_spec v 0) as [->|Hv0].
  { apply wp_console_putc; [done|]. apply (HQ [48]). right. exists [0]. split; [|done].
    constructor; [constructor; [lia|done]|done|done]. }
  rewrite andb_true_r.
  assert ((if v <? 0 then s32 (- v) else v) = Z.abs v) as ->.
  { destruct (Z.ltb_spec v 0); [rewrite swrap_small by lia|]; lia. }
  wp_step. apply wp_loop_n with (n := Z.abs v)
    (I := fun i '(rest, buffer) s' => s' = s /\ i = rest /\
       exists ds, buffer = map hex_char ds /\ partial 10 (Z.abs v) rest ds); [|split; [done|]|lia].
  - intros i [rest buffer] s' (-> & -> & ds & -> & Hp). cbv beta iota.
    destruct (Z.ltb_spec 0 rest) as [Hr|Hr].
    + rewrite Z.rem_mod_nonneg, Z.quot_div_nonneg by lia. pose proof (Z.mod_pos_bound rest 10 ltac:(lia)).
      rewrite decimal_char by done. wp_step.
      apply wp_push_char; [rewrite length_map; apply (partial_short 32 10 (Z.abs v) rest); [lia|lia|lia|done]|].
      wp_step. exists (rest / 10). split; [|split; [apply Z.div_pos|apply Z.div_lt]; lia]. split; [done|].
      split; [done|]. exists (rest mod 10 :: ds). split; [done|]. apply partial_step; [lia|lia|done].
    + wp_step. cbn [turn]. pose proof (pa_rest _ _ _ _ Hp). assert (rest = 0) as -> by lia.
      apply partial_done in Hp.
      assert (int_text v ((if v <? 0 then [45] else []) ++ map hex_char ds)) as Ht by (right; eauto).
      specialize (HQ _ Ht). clear Ht. wp_step. destruct (v <? 0).
      * apply wp_console_putc; [done|]. apply wp_console_puts; [by apply putc_valid|done].
      * wp_step. by apply wp_console_puts.
  - split; [done|]. exists []. split; [done|]. constructor; [done|lia| |lia]. cbn. lia.
Qed.

Lemma puts_valid l : forall s, valid s -> valid (puts_spec l s).
Proof. induction l as [|c l IH]; intros s Hs; [done|]. cbn. by apply IH, putc_valid. Qed.

(** ** Witnesses *)

Definition demo_console : console := Console (replicate 2000 0) 79 24 7.

Lemma demo_valid : valid demo_console.
Proof. constructor; [reflexivity|cbn; lia|cbn; lia]. Qed.

(** A character in the last column of the last line scrolls. *)
Lemma console_putc_correct_witness :
  console_putc 65 demo_console = Ok (tt, putc_spec 65 demo_console) /\ valid (putc_spec 65 demo_console).
Proof. apply console_putc_correct. exact demo_valid. Defined.

Lemma print_uint_correct_witness :
  exists ds, numeral 16 48879 ds /\ ds <> [] /\
    console_print_uint 48879 16 demo_console = Ok (tt, puts_spec (map hex_char ds) demo_console).
Proof. apply print_uint_correct; [exact demo_valid|lia|lia]. Defined.
