(* ===== verification/Libc.v ===== *)
(** * A process as the C library sees it

    The library's functions run on the memory of the process, the
    thread-local variable [errno] and a world behind the system calls, which
    stays abstract here: system calls are made through the interfaces of
    [Libcall], streams are written through the interface of [Printf].
    [with_local] runs a program that keeps a local variable by reference.
    An [int] in memory is read and written with [load32] and [store32]. *)

From S2P Require Import Prelude CMem MemFns CStr.

Record proc (W : Type) : Type := Proc { memory : mem; errno_value : Z; world : W }.
Arguments Proc {W} _ _ _.
Arguments memory {W} _.
Arguments errno_value {W} _.
Arguments world {W} _.

Section Proc.
Context {W : Type}.

Definition with_memory (m : mem) (s : proc W) : proc W := Proc m (errno_value s) (world s).
Definition with_errno (e : Z) (s : proc W) : proc W := Proc (memory s) e (world s).
Definition with_world (w : W) (s : proc W) : proc W := Proc (memory s) (errno_value s) w.

(** A routine that works on memory only. *)
Definition on_mem {A} (p : prog mem A) : prog (proc W) A :=
  fun s => match p (memory s) with
           | Ok (a, m) => Ok (a, with_memory m s)
           | Fault => Fault
           | Spin => Spin
           end.

Lemma wp_on_mem {A} (p : prog mem A) Q s :
  wp p (fun a m => Q a (with_memory m s)) (memory s) -> wp (on_mem p) Q s.
Proof. unfold wp, on_mem. by destruct (p (memory s)) as [[a m]| |]. Qed.

Lemma with_memory_id s : with_memory (memory s) s = s.
Proof. by destruct s. Qed.

Lemma with_memory_2 m m' s : with_memory m' (with_memory m s) = with_memory m' s.
Proof. done. Qed.
End Proc.

(** ** Local variables *)

Section Locals.
Context {L S : Type}.

Definition with_local {A} (x : L) (p : prog (L * S) A) : prog S (A * L) :=
  fun s => match p (x, s) with
           | Ok (a, (x', s')) => Ok ((a, x'), s')
           | Fault => Fault
           | Spin => Spin
           end.

(** A part that does not touch the variable. *)
Definition outside {A} (p : prog S A) : prog (L * S) A :=
  fun '(x, s) => match p s with
                 | Ok (a, s') => Ok (a, (x, s'))
                 | Fault => Fault
                 | Spin => Spin
                 end.

Lemma wp_with_local {A} x (p : prog (L * S) A) Q s :
  wp p (fun a '(x', s') => Q (a, x') s') (x, s) -> wp (with_local x p) Q s.
Proof. unfold wp, with_local. by destruct (p (x, s)) as [[a [x' s']]| |]. Qed.

Lemma wp_outside {A} (p : prog S A) Q x s :
  wp p (fun a s' => Q a (x, s')) s -> wp (outside p) Q (x, s).
Proof. unfold wp, outside. by destruct (p s) as [[a s']| |]. Qed.
End Locals.

(** ** Integers in memory *)

Definition load32 (a : Z) : prog mem Z := let* l := loads 4 a in ret (le_join l).
Definition store32 (a v : Z) : prog mem unit := stores a (le_bytes 4 v).

(** The unsigned int at [a]. *)
Definition uint_at (m : mem) (a v : Z) : Prop := 0 <= v < 2 ^ 32 /\ bytes_at m a (le_bytes 4 v).

Lemma wp_load32 a v (Q : Z -> mem -> Prop) m : uint_at m a v -> Q v m -> wp (load32 a) Q m.
Proof.
  intros [Hv H] HQ. unfold load32. change 4%nat with (length (le_bytes 4 v)) at 1.
  apply wp_bind, wp_loads; [done|]. apply wp_ret. by rewrite le_join_bytes.
Qed.

Lemma wp_store32 a v (Q : unit -> mem -> Prop) m : mapped m a 4 -> Q tt (write a (le_bytes 4 v) m) -> wp (store32 a v) Q m.
Proof. intros Hm HQ. apply wp_stores; [by rewrite le_bytes_length|apply le_bytes_byte|done]. Qed.

Lemma uint_at_write m a v : 0 <= v < 2 ^ 32 -> uint_at (write a (le_bytes 4 v) m) a v.
Proof. intros Hv. split; [done|]. apply write_bytes_at. Qed.

Lemma uint_at_write_out m a v b l : uint_at m a v -> a + 4 <= b \/ b + Z.of_nat (length l) <= a -> uint_at (write b l m) a v.
Proof. intros [Hv H] Hd. split; [done|]. apply bytes_at_write_out; [done|]. rewrite le_bytes_length. lia. Qed.

Lemma uint_at_mapped m a v : uint_at m a v -> mapped m a 4.
Proof. intros [_ H]. apply bytes_at_mapped in H. by rewrite le_bytes_length in H. Qed.

Lemma uint_at_kept m m' a v : uint_at m a v -> (forall x, a <= x < a + 4 -> m' !! x = m !! x) -> uint_at m' a v.
Proof.
  intros [Hv H] Hx. split; [done|]. intros i b Hi. apply lookup_lt_Some in Hi as Hl. rewrite le_bytes_length in Hl.
  rewrite Hx by lia. by apply H.
Qed.
