(* ===== verification/Printf.v ===== *)
(** * Formatted output (libc/src/stdio/printf.c)

    The structure [printf_buffer] that the entry points keep on their stack
    is a local variable ([Libc.with_local]); output goes to a stream through
    the interface [FWrite], or to memory.  The variable arguments are the
    64-bit slots of the calling convention: [va_arg] takes the next one and
    converts it to the type asked for; taking one that is not there is a
    [Fault].

    [format_int] builds the number from the end of a local array of 64
    characters downwards, without a terminator, and prints from the pointer
    until it meets a zero character.  The array from the pointer on is the
    list [chars]; the parameter [stack] is what can be read behind the array
    (nothing, by the rules of C), and storing below the array is a [Fault]. *)

From S2P Require Import Prelude CMem MemFns CStr Libc.

(** [size_t fwrite(const void *ptr, size_t size, size_t nmemb, FILE *stream)] *)
Class FWrite (W : Type) : Type := fwrite : Z -> Z -> Z -> Z -> prog (proc W) Z.

Record printf_buffer : Type := PrintfBuffer {
  pb_buffer : Z; pb_size : Z; pb_pos : Z; pb_stream : Z;
}.

Section Printf.
Context {W : Type} {FW : FWrite W}.
(** The addresses of the parameter [c] of [buffer_putc] and of the literals
    ["(null)"] and ["0x"]. *)
Context (addr_c lit_null lit_0x : Z).
(** What lies behind the array of [format_int]. *)
Context (stack : list Z).

Abbreviation print := (prog (printf_buffer * proc W)).

Definition pb_with_pos (pos : Z) (b : printf_buffer) : printf_buffer :=
  PrintfBuffer (pb_buffer b) (pb_size b) pos (pb_stream b).

Definition mem_op {A} (p : prog mem A) : print A := outside (on_mem p).

Definition buffer_putc (c : Z) : print Z :=
  let* buf := gets fst in
  if negb (pb_stream buf =? 0) then
    let* n := outside (on_mem (store8 addr_c c) ;; fwrite addr_c 1 1 (pb_stream buf)) in
    if negb (n =? 1) then ret (-1) else ret 0
  else
    (if pb_pos buf <? pb_size buf then
       mem_op (store8 (pb_buffer buf + pb_pos buf) c) ;;
       modify (fun '(b, s) => (pb_with_pos (pb_pos b + 1) b, s))
     else ret tt) ;;
    ret 0.

Definition buffer_puts (s : Z) : print Z :=
  loop (fun '(s, count) =>
    let* c := mem_op (load_char s) in
    if c =? 0 then ret (Done count)
    else
      let* r := buffer_putc c in
      if r <? 0 then ret (Done (-1)) else ret (Next (s + 1, count + 1))) (s, 0).

(** ** Integers *)

(** [*--ptr = c] *)
Definition push_char (c : Z) (chars : list Z) : print (list Z) :=
  if (length chars <? 64)%nat then ret (c :: chars) else fault.

(** [*ptr] *)
Definition peek (chars : list Z) : print Z := getf (fun _ => head chars).

(** "Convert to string" *)
Definition int_chars (value base : Z) : print (list Z * Z) :=
  if value =? 0 then
    let* chars := push_char 48 [] in ret (chars, 1)
  else
    loop (fun '(value, chars, count) =>
      if 0 <? value then
        let digit := Z.rem value base in
        let* chars := push_char (if digit <? 10 then 48 + digit else 65 + digit - 10) chars in
        ret (Next (Z.quot value base, chars, count + 1))
      else ret (Done (chars, count))) (value, [], 0).

Definition format_int (value base width precision flags : Z) : print Z :=
  let negative := (value <? 0) && (base =? 10) in
  let value := if negative then s64 (- value) else value in
  let* (chars, count) := int_chars value base in
  let* (chars, count) :=
    (if negative then let* chars := push_char 45 chars in ret (chars, count + 1)
     else if negb (Z.land flags 1 =? 0) then let* chars := push_char 43 chars in ret (chars, count + 1)
     else if negb (Z.land flags 2 =? 0) then let* chars := push_char 32 chars in ret (chars, count + 1)
     else ret (chars, count)) in
  let* (chars, count) := loop (fun '(chars, count) =>
    if count <? precision then
      let* chars := push_char 48 chars in ret (Next (chars, count + 1))
    else ret (Done (chars, count))) (chars, count) in
  let* chars := loop (fun '(chars, count) =>
    if count <? width then
      if negb (Z.land flags 4 =? 0) then
        let* c := peek chars in
        buffer_putc c ;;
        ret (Next (tail chars, count + 1))
      else buffer_putc 32 ;; ret (Next (chars, count + 1))
    else ret (Done chars)) (chars ++ stack, count) in
  loop (fun chars =>
    let* c := peek chars in
    if c =? 0 then ret (Done tt)
    else buffer_putc c ;; ret (Next (tail chars))) chars ;;
  ret 0.

(** ** Strings *)

Definition format_string (s width precision flags : Z) : print Z :=
  let* n := mem_op (strlen s) in
  let len := s32 n in
  let len := if (0 <=? precision) && (precision <? len) then precision else len in
  loop (fun count =>
    if count <? s32 (width - len) then buffer_putc 32 ;; ret (Next (count + 1))
    else ret (Done tt)) 0 ;;
  for_ 0 len (fun i =>
    let* c := mem_op (load_char (s + i)) in
    buffer_putc c ;; ret tt) ;;
  ret 0.

(** ** The format *)

Definition va_arg (args : list Z) : print (Z * list Z) :=
  match args with
  | slot :: args => ret (slot, args)
  | [] => fault
  end.

(** "Parse flags": the format behind them and their bits. *)
Definition parse_flags (format : Z) : print (Z * Z) :=
  loop (fun '(format, flags) =>
    let* c := mem_op (load_char format) in
    if c =? 0 then ret (Done (format, flags))
    else if c =? 43 then ret (Next (format + 1, Z.lor flags 1))
    else if c =? 32 then ret (Next (format + 1, Z.lor flags 2))
    else if c =? 45 then ret (Next (format + 1, Z.lor flags 4))
    else if c =? 48 then ret (Next (format + 1, Z.lor flags 8))
    else ret (Done (format, flags))) (format, 0).

(** The loop that reads a width or a precision. *)
Definition parse_number (format : Z) : print (Z * Z) :=
  loop (fun '(format, n) =>
    let* c := mem_op (load_char format) in
    if (48 <=? c) && (c <=? 57) then ret (Next (format + 1, s32 (n * 10 + (c - 48))))
    else ret (Done (format, n))) (format, 0).

Definition parse_width (format : Z) (args : list Z) : print (Z * Z * list Z) :=
  let* c := mem_op (load_char format) in
  if c =? 42 then
    let* (slot, args) := va_arg args in
    ret (format + 1, s32 slot, args)
  else
    let* (format, width) := parse_number format in
    ret (format, width, args).

Definition parse_precision (format : Z) (args : list Z) : print (Z * Z * list Z) :=
  let* c := mem_op (load_char format) in
  if c =? 46 then parse_width (format + 1) args
  else ret (format, -1, args).

(** hh 1, h 2, l 3, ll 4, j 5, z 6, t 7, L 8 *)
Definition parse_length (format : Z) : print (Z * Z) :=
  let* c := mem_op (load_char format) in
  if c =? 104 then
    let* c := mem_op (load_char (format + 1)) in
    if c =? 104 then ret (format + 2, 1) else ret (format + 1, 2)
  else if c =? 108 then
    let* c := mem_op (load_char (format + 1)) in
    if c =? 108 then ret (format + 2, 4) else ret (format + 1, 3)
  else if c =? 106 then ret (format + 1, 5)
  else if c =? 122 then ret (format + 1, 6)
  else if c =? 116 then ret (format + 1, 7)
  else if c =? 76 then ret (format + 1, 8)
  else ret (format, 0).

(** The value of an argument of [%d] and of [%u], [%x], [%o]. *)
Definition signed_arg (length slot : Z) : Z :=
  if length =? 1 then s8 (s32 slot)
  else if length =? 2 then swrap 16 (s32 slot)
  else if length =? 3 then s64 slot
  else if length =? 4 then s64 slot
  else s32 slot.

Definition unsigned_arg (length slot : Z) : Z :=
  if length =? 1 then u8 (u32 slot)
  else if length =? 2 then u16 (u32 slot)
  else if length =? 3 then u64 slot
  else if length =? 4 then u64 slot
  else u32 slot.

(** The conversion with specifier [c]: what it adds to the count, and the
    arguments left. *)
Definition convert (c width precision length flags count : Z) (args : list Z) : print (Z * list Z) :=
  if c =? 37 then buffer_putc 37 ;; ret (1, args)
  else if c =? 99 then
    let* (slot, args) := va_arg args in
    buffer_putc (s8 slot) ;;
    ret (1, args)
  else if c =? 115 then
    let* (slot, args) := va_arg args in
    let s := if u64 slot =? 0 then lit_null else u64 slot in
    format_string s width precision flags ;;
    let* n := mem_op (strlen s) in
    ret (n, args)
  else if (c =? 100) || (c =? 105) then
    let* (slot, args) := va_arg args in
    format_int (signed_arg length slot) 10 width precision flags ;;
    ret (1, args)
  else if c =? 117 then
    let* (slot, args) := va_arg args in
    format_int (s64 (unsigned_arg length slot)) 10 width precision flags ;;
    ret (1, args)
  else if (c =? 120) || (c =? 88) then
    let* (slot, args) := va_arg args in
    format_int (s64 (unsigned_arg length slot)) 16 width precision flags ;;
    ret (1, args)
  else if c =? 111 then
    let* (slot, args) := va_arg args in
    format_int (s64 (unsigned_arg length slot)) 8 width precision flags ;;
    ret (1, args)
  else if c =? 112 then
    let* (slot, args) := va_arg args in
    buffer_puts lit_0x ;;
    format_int (s64 slot) 16 0 0 0 ;;
    ret (2, args)
  else if c =? 110 then
    let* (slot, args) := va_arg args in
    (if negb (u64 slot =? 0) then mem_op (stores (u64 slot) (le_bytes 4 count)) else ret tt) ;;
    ret (0, args)
  else
    buffer_putc 37 ;;
    buffer_putc c ;;
    ret (2, args).

(** The part of a turn behind a [%]. *)
Definition vprintf_directive (format count : Z) (args : list Z) : print (Z * Z * list Z) :=
  let* (format, flags) := parse_flags format in
  let* (format, width, args) := parse_width format args in
  let* (format, precision, args) := parse_precision format args in
  let* (format, length) := parse_length format in
  let* c := mem_op (load_char format) in
  let* (n, args) := convert c width precision length flags count args in
  ret (format + 1, s32 (count + n), args).

(** A turn of the loop. *)
Definition vprintf_turn (x : Z * Z * list Z) : print (step (Z * Z * list Z) Z) :=
  let '(format, count, args) := x in
  let* c := mem_op (load_char format) in
  if c =? 0 then ret (Done count)
  else if c =? 37 then
    let* x := vprintf_directive (format + 1) count args in ret (Next x)
  else
    buffer_putc c ;;
    ret (Next (format + 1, s32 (count + 1), args)).

Definition vprintf_internal (format : Z) (args : list Z) : print Z :=
  loop vprintf_turn (format, 0, args).

(** ** The entry points *)

(** [stdout] is the value of the global variable. *)
Definition printf (stdout format : Z) (args : list Z) : prog (proc W) Z :=
  let* (result, _) := with_local (PrintfBuffer 0 0 0 stdout) (vprintf_internal format args) in
  ret result.

Definition fprintf (stream format : Z) (args : list Z) : prog (proc W) Z :=
  let* (result, _) := with_local (PrintfBuffer 0 0 0 stream) (vprintf_internal format args) in
  ret result.

Definition sprintf (str format : Z) (args : list Z) : prog (proc W) Z :=
  let* (result, buf) := with_local (PrintfBuffer str SIZE_MAX 0 0) (vprintf_internal format args) in
  (if pb_pos buf <? pb_size buf then on_mem (store8 (str + pb_pos buf) 0) else ret tt) ;;
  ret result.

Definition snprintf (str size format : Z) (args : list Z) : prog (proc W) Z :=
  let* (result, buf) := with_local (PrintfBuffer str (u64 (size - 1)) 0 0) (vprintf_internal format args) in
  (if (0 <? size) && (pb_pos buf <? size) then on_mem (store8 (str + pb_pos buf) 0)
   else if 0 <? size then on_mem (store8 (str + (size - 1)) 0)
   else ret tt) ;;
  ret result.
End Printf.
