(* ===== verification/PrintfSpec.v ===== *)
(** * What formatted output should be

    A format is a list of pieces: plain characters and directives with their
    arguments.  [render] is the text of the format, [slots] are the variable
    arguments that go with it, [output] is what is to be printed and
    [counted] what the functions return for it (which is not the length of
    the output: a number counts for one character and a string for its full
    length).  [piece_ok] says which pieces have a meaning.

    A number is followed by whatever lies behind the array in which
    [format_int] builds it, up to the first zero there ([before_zero]): the
    function does not terminate its array. *)

From S2P Require Import Prelude CMem CStr Digits.

Definition text : Type := list Z.

(** A width, or a precision behind its dot. *)
Inductive size : Type :=
  | Digits (ds : list Z)
  | Star (slot : Z).

Definition size_text (z : size) : text :=
  match z with Digits ds => map digit_char ds | Star _ => [42] end.
Definition size_slots (z : size) : list Z :=
  match z with Digits _ => [] | Star slot => [slot] end.
Definition size_value (z : size) : Z :=
  match z with Digits ds => digits_value 10 ds | Star slot => s32 slot end.

Inductive length_modifier : Type := L_none | L_hh | L_h | L_l | L_ll | L_j | L_z | L_t | L_L.

Definition length_text (l : length_modifier) : text :=
  match l with
  | L_none => [] | L_hh => [104; 104] | L_h => [104] | L_l => [108] | L_ll => [108; 108]
  | L_j => [106] | L_z => [122] | L_t => [116] | L_L => [76]
  end.

(** The number of bits of the argument. *)
Definition length_bits (l : length_modifier) : Z :=
  match l with L_hh => 8 | L_h => 16 | L_l | L_ll => 64 | _ => 32 end.

(** A conversion with its argument; [String] has the text its pointer leads
    to, "(null)" for a null pointer. *)
Inductive conversion : Type :=
  | Percent
  | Char (slot : Z)
  | String (slot : Z) (l : text)
  | Signed (letter slot : Z)
  | Unsigned (letter slot : Z)
  | Pointer (slot : Z).

Definition conversion_letter (c : conversion) : Z :=
  match c with
  | Percent => 37
  | Char _ => 99
  | String _ _ => 115
  | Signed letter _ | Unsigned letter _ => letter
  | Pointer _ => 112
  end.
Definition conversion_slots (c : conversion) : list Z :=
  match c with
  | Percent => []
  | Char slot | String slot _ | Signed _ slot | Unsigned _ slot | Pointer slot => [slot]
  end.

Record directive : Type := Directive {
  d_flags : list Z; d_width : size; d_precision : option size;
  d_length : length_modifier; d_conversion : conversion;
}.

Inductive piece : Type :=
  | Plain (c : Z)
  | Dir (d : directive).

(** ** The format and its arguments *)

Definition precision_text (p : option size) : text :=
  match p with None => [] | Some z => 46 :: size_text z end.
Definition precision_slots (p : option size) : list Z :=
  match p with None => [] | Some z => size_slots z end.
Definition precision_value (p : option size) : Z :=
  match p with None => -1 | Some z => size_value z end.

Definition directive_text (d : directive) : text :=
  d_flags d ++ size_text (d_width d) ++ precision_text (d_precision d) ++
  length_text (d_length d) ++ [conversion_letter (d_conversion d)].
Definition directive_slots (d : directive) : list Z :=
  size_slots (d_width d) ++ precision_slots (d_precision d) ++ conversion_slots (d_conversion d).

Definition piece_text (p : piece) : text :=
  match p with Plain c => [c] | Dir d => 37 :: directive_text d end.
Definition piece_slots (p : piece) : list Z :=
  match p with Plain _ => [] | Dir d => directive_slots d end.

Definition render (ps : list piece) : text := ps ≫= piece_text.
Definition slots (ps : list piece) : list Z := ps ≫= piece_slots.

(** ** The output *)

Definition has_flag (c : Z) (d : directive) : bool := bool_decide (c ∈ d_flags d).

Definition pad (n : Z) (c : Z) (t : text) : text :=
  replicate (Z.to_nat (n - Z.of_nat (length t))) c ++ t.

(** A number: its sign and digits, with zeros up to the precision and blanks
    up to the width in front. *)
Definition number_text (base v : Z) : text :=
  if v =? 0 then [48] else map digit_char (to_digits 63 base v).

Definition sign_text (plus blank : bool) (v : Z) : text :=
  if v <? 0 then [45] else if plus then [43] else if blank then [32] else [].

Definition int_text (plus blank : bool) (base width precision v : Z) : text :=
  pad width 32 (pad precision 48 (sign_text plus blank v ++ number_text base (Z.abs v))).

(** What the last loop of [format_int] prints behind a number: the bytes
    behind its array before the first zero. *)
Fixpoint before_zero (l : list Z) : text :=
  match l with
  | [] => []
  | c :: l => if c =? 0 then [] else u8 c :: before_zero l
  end.

(** At most [precision] characters of a string, blanks up to the width in
    front. *)
Definition string_text (width precision : Z) (l : text) : text :=
  pad width 32 (if 0 <=? precision then take (Z.to_nat precision) l else l).

Definition unsigned_base (letter : Z) : Z :=
  if letter =? 117 then 10 else if letter =? 111 then 8 else 16.

Definition conversion_output (stack : list Z) (d : directive) : text :=
  let width := size_value (d_width d) in
  let precision := precision_value (d_precision d) in
  match d_conversion d with
  | Percent => [37]
  | Char slot => [u8 slot]
  | String _ l => string_text width precision l
  | Signed _ slot =>
      int_text (has_flag 43 d) (has_flag 32 d) 10 width precision
        (swrap (length_bits (d_length d)) slot) ++ before_zero stack
  | Unsigned letter slot =>
      int_text (has_flag 43 d) (has_flag 32 d) (unsigned_base letter) width precision
        (wrap (length_bits (d_length d)) slot) ++ before_zero stack
  | Pointer slot => [48; 120] ++ number_text 16 (u64 slot) ++ before_zero stack
  end.

Definition conversion_count (c : conversion) : Z :=
  match c with String _ l => Z.of_nat (length l) | Pointer _ => 2 | _ => 1 end.

Definition piece_output (stack : list Z) (p : piece) : text :=
  match p with Plain c => [c] | Dir d => conversion_output stack d end.
Definition piece_count (p : piece) : Z :=
  match p with Plain _ => 1 | Dir d => conversion_count (d_conversion d) end.

Definition output (stack : list Z) (ps : list piece) : text := ps ≫= piece_output stack.
Definition counted (ps : list piece) : Z := foldr (fun p n => piece_count p + n) 0 ps.

(** ** Well-formed pieces *)

Definition flag_char (c : Z) : Prop := c ∈ [43; 32; 45; 48].

(** The digits of a width do not begin with 0, which is a flag. *)
Definition size_ok (z : size) : Prop :=
  match z with
  | Digits ds => Forall (fun d => 0 <= d < 10) ds /\ digits_value 10 ds < 2 ^ 31
  | Star _ => True
  end.
Definition width_ok (z : size) : Prop :=
  size_ok z /\ match z with Digits (0 :: _) => False | _ => True end.

(** Numbers: [%-] is left out, and the numeral and its precision have to fit
    the buffer. *)
Definition number_ok (d : directive) (v : Z) : Prop :=
  (45 ∉ d_flags d) /\ precision_value (d_precision d) <= 64 /\ - 2 ^ 63 < v < 2 ^ 63.

Definition conversion_ok (d : directive) : Prop :=
  match d_conversion d with
  | Percent | Char _ => True
  | String _ l => Z.of_nat (length l) < 2 ^ 31 /\
                  0 <= size_value (d_width d) < 2 ^ 31
  | Signed letter slot => letter ∈ [100; 105] /\ number_ok d (swrap (length_bits (d_length d)) slot)
  | Unsigned letter slot => letter ∈ [117; 120; 88; 111] /\ number_ok d (wrap (length_bits (d_length d)) slot)
  | Pointer slot => u64 slot < 2 ^ 63
  end.

Definition directive_ok (d : directive) : Prop :=
  Forall flag_char (d_flags d) /\ width_ok (d_width d) /\
  match d_precision d with None => True | Some z => size_ok z end /\ conversion_ok d.

Definition piece_ok (p : piece) : Prop :=
  match p with Plain c => cchar c /\ c <> 37 | Dir d => directive_ok d end.

(** Does the piece print a number? *)
Definition prints_number (p : piece) : Prop :=
  match p with
  | Dir d => match d_conversion d with Signed _ _ | Unsigned _ _ | Pointer _ => True | _ => False end
  | Plain _ => False
  end.

#[export] Instance prints_number_decision p : Decision (prints_number p).
Proof. destruct p as [|[? ? ? ? []]]; cbn; apply _. Defined.

(** A format with numbers needs a zero behind the array of [format_int]. *)
Definition stack_ok (stack : list Z) (ps : list piece) : Prop :=
  Exists prints_number ps -> 0 ∈ stack /\ Z.of_nat (length stack) < 2 ^ 64.
