(* ===== verification/PrintfProofs.v ===== *)
(** * Formatted output is correct

    [Sink] says what the formatter needs of the place the output goes to:
    [emit t s] is the state after the text [t] has gone there.  The theorems
    about the formatter are proved for any sink; memory
    ([snprintf], [sprintf]) and streams ([printf], [fprintf]) are instances. *)

From S2P Require Import Prelude CMem MemFns CStr Strtol Digits Libc Printf PrintfSpec.

Lemma u8_s8 c : byte c -> u8 (s8 c) = c.
Proof.
  intros Hc. rewrite <- (wrap_small 8 c) at 2 by exact Hc. unfold wrap, swrap.
  rewrite Zminus_mod_idemp_l. f_equal. lia.
Qed.

Lemma wrap_narrow m n x : 0 <= m <= n -> wrap m (wrap n x) = wrap m x.
Proof. intros H. apply Z.mod_mod_divide. exists (2 ^ (n - m)). rewrite <- Z.pow_add_r by lia. f_equal. lia. Qed.

Lemma swrap_narrow m n x : 0 < m <= n -> swrap m (swrap n x) = swrap m x.
Proof.
  intros H. unfold swrap. f_equal.
  replace ((x + 2 ^ (n - 1)) mod 2 ^ n - 2 ^ (n - 1) + 2 ^ (m - 1))
    with ((x + 2 ^ (n - 1)) mod 2 ^ n + (2 ^ (m - 1) - 2 ^ (n - 1))) by lia.
  rewrite <- Zplus_mod_idemp_l, Z.mod_mod_divide, Zplus_mod_idemp_l.
  - f_equal. lia.
  - exists (2 ^ (n - m)). rewrite <- Z.pow_add_r by lia. f_equal. lia.
Qed.

Section Proofs.
Context {W : Type} {FW : FWrite W}.
Context (addr_c lit_null lit_0x : Z) (stack : list Z).

Abbreviation state := (printf_buffer * proc W)%type.
Abbreviation print := (prog (printf_buffer * proc W)).
Abbreviation mem_of s := (memory (snd s)).
Abbreviation putc := (buffer_putc addr_c).
Abbreviation conversion_output := (PrintfSpec.conversion_output stack).
Abbreviation piece_output := (PrintfSpec.piece_output stack).
Abbreviation output := (PrintfSpec.output stack).
Abbreviation stack_ok := (PrintfSpec.stack_ok stack).
Abbreviation ends := (0 ∈ stack /\ Z.of_nat (length stack) < 2 ^ 64).

(** [room n s]: [n] more characters can be printed. [safe a]: printing leaves
    the byte at [a] alone. *)
Class Sink : Type := {
  emit : text -> state -> state;
  room : Z -> state -> Prop;
  safe : Z -> Prop;
  emit_nil : forall s, emit [] s = s;
  emit_app : forall t1 t2 s, emit (t1 ++ t2) s = emit t2 (emit t1 s);
  emit_safe : forall t s k, safe k -> mem_of (emit t s) !! k = mem_of s !! k;
  room_le : forall m n s, 0 <= m <= n -> room n s -> room m s;
  room_emit : forall t n s, 0 <= n -> room (Z.of_nat (length t) + n) s -> room n (emit t s);
  putc_emits : forall c s, room 1 s -> buffer_putc addr_c c s = Ok (0, emit [u8 c] s);
}.

Section Sinks.
Context {SK : Sink}.

(** The program prints exactly [t], whenever there is room for it, and
    returns a value in [R]. *)
Definition prints {A} (p : print A) (t : text) (R : A -> Prop) (s : state) : Prop :=
  room (Z.of_nat (length t)) s -> wp p (fun r s' => R r /\ s' = emit t s) s.

Lemma prints_ret {A} (a : A) (R : A -> Prop) s : R a -> prints (ret a) [] R s.
Proof using Type. intros H _. apply wp_ret. by rewrite emit_nil. Qed.

Lemma prints_bind {A B} (p : print A) (k : A -> print B) t1 t2 R1 R2 s :
  prints p t1 R1 s -> (forall a, R1 a -> prints (k a) t2 R2 (emit t1 s)) ->
  prints (bind p k) (t1 ++ t2) R2 s.
Proof using Type.
  intros Hp Hk Hr. apply wp_bind. rewrite length_app, Nat2Z.inj_add in Hr.
  eapply wp_mono; [apply Hp; eapply room_le; [|exact Hr]; lia|].
  intros a s' [Ha ->]. rewrite emit_app. apply Hk; [done|]. apply room_emit; [lia|done].
Qed.

Lemma prints_mono {A} (p : print A) t (R R' : A -> Prop) s :
  prints p t R s -> (forall a, R a -> R' a) -> prints p t R' s.
Proof using Type. intros Hp H Hr. eapply wp_mono; [by apply Hp|]. intros a s' [? ->]. auto. Qed.

Lemma prints_ext {A} (p p' : print A) t (R : A -> Prop) s : p s = p' s -> prints p' t R s -> prints p t R s.
Proof using Type. intros E H Hr. unfold wp. rewrite E. by apply H. Qed.

Lemma prints_ok {A} (p : print A) t (R : A -> Prop) n s :
  prints p t R s -> 0 <= n -> room (Z.of_nat (length t) + n) s ->
  exists r, p s = Ok (r, emit t s) /\ R r /\ room n (emit t s).
Proof using Type.
  intros Hp Hn Hr. assert (room (Z.of_nat (length t)) s) as Hr' by (eapply room_le; [|exact Hr]; lia).
  apply Hp, wp_run in Hr' as (r & s' & E & HR & ->). exists r. split; [done|]. split; [done|]. by apply room_emit.
Qed.

Lemma prints_putc c s : prints (putc c) [u8 c] (fun r => r = 0) s.
Proof using Type. intros Hr. unfold wp. by rewrite putc_emits. Qed.

(** A step that only reads. *)
Lemma prints_read {A B} (p : print A) (a : A) (k : A -> print B) t R s :
  p s = Ok (a, s) -> prints (k a) t R s -> prints (bind p k) t R s.
Proof using Type. intros E Hk Hr. apply wp_bind. unfold wp. rewrite E. by apply Hk. Qed.

(** A loop: [I n x t s] holds when [t] is still to be printed and at most [n]
    turns are left. *)
Definition goes_on {X R} (I : Z -> X -> text -> state -> Prop) (Q : R -> Prop) (n : Z) (t t1 : text) (s : state)
    (r : step X R) : Prop :=
  match r with
  | Next x => exists m t2, t = t1 ++ t2 /\ 0 <= m < n /\ I m x t2 (emit t1 s)
  | Done r => t = t1 /\ Q r
  end.

Lemma prints_loop {X R} (body : X -> print (step X R)) I (Q : R -> Prop) n x t s :
  (forall n x t s, I n x t s -> exists t1, prints (body x) t1 (goes_on I Q n t t1 s) s /\ (length t1 <= length t)%nat) ->
  I n x t s -> n < 2 ^ 65 -> prints (loop body x) t Q s.
Proof using Type.
  intros Hturn Hx Hn Hr.
  apply (wp_loop_n body (fun m y s' => exists t1 t2 : text, t = t1 ++ t2 /\ s' = emit t1 s /\
    room (Z.of_nat (length t2)) s' /\ I m y t2 s')) with n; [|exists [], t; by rewrite emit_nil|done].
  intros m y s' (t1 & t2 & Et & Es & Hr2 & Hi). destruct (Hturn m y t2 s' Hi) as (t3 & Hp & Hl).
  eapply wp_mono; [apply Hp; eapply room_le; [|exact Hr2]; lia|].
  intros [z|r] s'' [Hg Es'']; cbn [turn goes_on] in *.
  - destruct Hg as (k & t4 & E & Hk & Hi'). exists k. split; [|done]. exists (t1 ++ t3), t4. subst.
    split; [by rewrite <- app_assoc|]. split; [by rewrite emit_app|]. split; [|done].
    rewrite length_app, Nat2Z.inj_add in Hr2. apply room_emit; [lia|done].
  - destruct Hg as [E HQ]. split; [done|]. subst. by rewrite emit_app.
Qed.

(** ** Reading while printing *)

Definition str_at (s : state) (a : Z) (l : text) : Prop :=
  cstr (mem_of s) a l /\ forall k, a <= k <= a + Z.of_nat (length l) -> safe k.

(** A string whose length [strlen] can take. *)
Definition pstr_at (s : state) (a : Z) (l : text) : Prop :=
  cstr_padded (mem_of s) a l /\ forall k, a <= k < a + Z.of_nat (length l) + 8 -> safe k.

Lemma bytes_at_emit t s a l :
  bytes_at (mem_of s) a l -> (forall k, a <= k < a + Z.of_nat (length l) -> safe k) ->
  bytes_at (mem_of (emit t s)) a l.
Proof using Type.
  intros H Hs i b Hi. apply lookup_lt_Some in Hi as Hlt. rewrite emit_safe; [by apply H|]. apply Hs. lia.
Qed.

Lemma str_at_emit t s a l : str_at s a l -> str_at (emit t s) a l.
Proof using Type.
  intros [[Hc Hb] Hs]. split; [|done]. split; [done|]. apply bytes_at_emit; [done|].
  intros k Hk. apply Hs. rewrite length_app in Hk. cbn in Hk. lia.
Qed.

Lemma pstr_at_emit t s a l : pstr_at s a l -> pstr_at (emit t s) a l.
Proof using Type.
  intros [[[Hc Hb] (tl & Ht & Hf & Hbt)] Hs]. split; [|done]. split; [split; [done|]|exists tl; split; [done|]; split; [done|]];
    (apply bytes_at_emit; [done|]); intros k Hk; apply Hs; rewrite ?length_app in Hk; cbn in Hk; lia.
Qed.

Lemma pstr_str s a l : pstr_at s a l -> str_at s a l.
Proof using Type. intros [[H _] Hs]. split; [done|]. intros k Hk. apply Hs. lia. Qed.

Lemma str_at_app s a l1 l2 : str_at s a (l1 ++ l2) -> str_at s (a + Z.of_nat (length l1)) l2.
Proof using Type.
  intros [H Hs]. split; [by apply cstr_drop|]. intros k Hk. apply Hs. rewrite length_app. lia.
Qed.

Lemma str_at_tl s a c l : str_at s a (c :: l) -> str_at s (a + 1) l.
Proof using Type. apply (str_at_app s a [c]). Qed.

Lemma mem_op_reads {A} (p : prog mem A) (a : A) s :
  p (mem_of s) = Ok (a, mem_of s) -> (mem_op p : print A) s = Ok (a, s).
Proof using Type. destruct s as [b st]. unfold mem_op, outside, on_mem. cbn. intros ->. by rewrite with_memory_id. Qed.

Lemma read_char s a c l : str_at s a (c :: l) -> mem_op (load_char a) s = Ok (s8 c, s).
Proof using Type.
  intros [H _]. apply cstr_cons in H as (Hc & Ha & _). apply mem_op_reads. apply wp_det.
  by apply wp_load_char with c.
Qed.

Lemma read_end s a : str_at s a [] -> mem_op (load_char a) s = Ok (0, s).
Proof using Type.
  intros [H _]. apply cstr_nil in H. apply mem_op_reads. apply wp_det. by apply wp_load_char with 0.
Qed.

Lemma str_at_cchar s a c l : str_at s a (c :: l) -> cchar c.
Proof using Type. intros [H _]. by apply cstr_cons in H as [? _]. Qed.

Lemma s8_nonzero c : cchar c -> (s8 c =? 0) = false.
Proof using Type. intros Hc. rewrite s8_zero by (by apply cchar_byte). by apply cchar_neq. Qed.

Lemma read_strlen s a l : Z.of_nat (length l) < 2 ^ 64 -> pstr_at s a l ->
  (mem_op (strlen a) : print Z) s = Ok (Z.of_nat (length l), s).
Proof using Type. intros Hl [Hc _]. apply mem_op_reads. by apply strlen_correct. Qed.

(** ** Padding and strings *)

Lemma prints_tail {A} (p : print A) t t' (R : A -> Prop) s : t = t' -> prints p t R s -> prints p t' R s.
Proof using Type. by intros ->. Qed.

(** One character, then the rest. *)
Lemma prints_char {A} c (k : Z -> print A) t (R : A -> Prop) s :
  prints (k 0) t R (emit [u8 c] s) -> prints (bind (putc c) k) (u8 c :: t) R s.
Proof using Type.
  intros Hk. apply (prints_bind (putc c) k [u8 c] t (fun r => r = 0)); [apply prints_putc|]. by intros r ->.
Qed.

(** The character just read. *)
Lemma prints_copy {A} c (k : Z -> print A) t (R : A -> Prop) s :
  byte c -> prints (k 0) t R (emit [c] s) -> prints (bind (putc (s8 c)) k) (c :: t) R s.
Proof using Type. intros Hc Hk. pose proof (prints_char (s8 c) k t R s) as H. rewrite u8_s8 in H by done. auto. Qed.

Lemma prints_format_string a width precision flags l s :
  pstr_at s a l -> Z.of_nat (length l) < 2 ^ 31 -> 0 <= width < 2 ^ 31 ->
  prints (format_string addr_c a width precision flags) (string_text width precision l) (fun _ => True) s.
Proof using Type.
  intros Hs Hl Hw. unfold format_string. eapply prints_read; [apply (read_strlen s a l); [lia|done]|].
  cbv beta zeta. rewrite (swrap_small 32 (Z.of_nat (length l))) by lia.
  set (len := if (0 <=? precision) && (precision <? Z.of_nat (length l)) then precision else Z.of_nat (length l)).
  set (shown := if 0 <=? precision then take (Z.to_nat precision) l else l).
  assert (exists l', l = shown ++ l') as [l' El].
  { unfold shown. destruct (0 <=? precision); [eexists; symmetry; apply take_drop|exists []; by rewrite app_nil_r]. }
  assert (len = Z.of_nat (length shown)) as Elen.
  { unfold len, shown. destruct (Z.leb_spec 0 precision); cbn; [|done]. rewrite length_take.
    destruct (Z.ltb_spec precision (Z.of_nat (length l))); lia. }
  assert (0 <= len <= Z.of_nat (length l)) as Hlen by (rewrite El, length_app; lia).
  change (string_text width precision l) with (pad width 32 shown). clearbody len shown. unfold pad. rewrite <- Elen.
  rewrite swrap_small by lia.
  apply (prints_bind _ _ _ _ (fun _ => True)).
  - apply (prints_loop _ (fun n i t _ => 0 <= i /\ n = Z.max 0 (width - len - i) /\
             t = replicate (Z.to_nat (width - len - i)) 32) (fun _ => True)) with (Z.max 0 (width - len));
      [|rewrite !Z.sub_0_r; split; [lia|done]|lia].
    intros n i t s' (Hi & -> & ->). destruct (Z.ltb_spec i (width - len)) as [Hlt|Hge].
    + exists [32]. rewrite length_replicate. split; [|cbn; lia].
      apply prints_char, prints_ret. exists (Z.max 0 (width - len - (i + 1))), (replicate (Z.to_nat (width - len - (i + 1))) 32).
      split; [|split; [lia|split; [lia|done]]].
      replace (Z.to_nat (width - len - i)) with (S (Z.to_nat (width - len - (i + 1)))) by lia. done.
    + exists []. split; [|cbn; lia]. apply prints_ret. split; [|done].
      by replace (Z.to_nat (width - len - i)) with 0%nat by lia.
  - intros _ _. apply (prints_tail _ (shown ++ [])); [apply app_nil_r|].
    apply (prints_bind _ _ _ _ (fun _ => True)); [|intros; by apply prints_ret].
    unfold for_. apply (prints_loop _ (fun n i t s' => pstr_at s' a l /\ 0 <= i /\ n = len - i /\
        t = drop (Z.to_nat i) shown) (fun _ => True)) with len; [| |lia].
    2:{ rewrite Z.sub_0_r. split; [by apply pstr_at_emit|]. split; [lia|done]. }
    intros n i t s' (Hs' & Hi & -> & ->). destruct (Z.ltb_spec i len) as [Hlt|Hge].
    + destruct (lookup_lt_is_Some_2 shown (Z.to_nat i)) as [c Hc]; [lia|].
      assert (l = take (Z.to_nat i) shown ++ (c :: drop (S (Z.to_nat i)) shown) ++ l') as El'.
      { rewrite El at 1. rewrite <- (take_drop_middle shown _ c Hc) at 1. by rewrite <- app_assoc. }
      assert (str_at s' (a + i) (c :: drop (S (Z.to_nat i)) shown ++ l')) as Hc'.
      { apply pstr_str in Hs'. rewrite El' in Hs'. apply str_at_app in Hs'. rewrite length_take in Hs'.
        by replace (a + Z.of_nat (Z.to_nat i `min` length shown)) with (a + i) in Hs' by lia. }
      rewrite (drop_S shown c _ Hc). exists [c]. split; [|cbn; lia].
      apply (prints_tail _ ([c] ++ [])); [done|]. apply (prints_bind _ _ _ _ (fun _ => True)).
      * eapply prints_read; [exact (read_char _ _ _ _ Hc')|].
        apply prints_copy; [apply cchar_byte, (str_at_cchar _ _ _ _ Hc')|by apply prints_ret].
      * intros _ _. apply prints_ret. exists (len - (i + 1)), (drop (S (Z.to_nat i)) shown). split; [done|]. split; [lia|].
        split; [by apply pstr_at_emit|]. split; [lia|]. split; [done|]. f_equal. lia.
    + exists []. split; [|cbn; lia]. apply prints_ret. split; [|done]. apply drop_ge. lia.
Qed.

(** ** Integers *)

Lemma number_text_length base v : (length (number_text base v) <= 63)%nat.
Proof using Type.
  unfold number_text. destruct (v =? 0); [cbn; lia|]. rewrite length_map. apply to_digits_length.
Qed.

Lemma pushes c chars s : (length chars < 64)%nat -> (push_char c chars : print (list Z)) s = Ok (c :: chars, s).
Proof using Type. intros Hl. unfold push_char. by rewrite (proj2 (Nat.ltb_lt _ _)). Qed.

Lemma int_chars_correct base v s : 2 <= base -> 0 <= v < 2 ^ 63 ->
  (int_chars v base : print _) s = Ok ((number_text base v, Z.of_nat (length (number_text base v))), s).
Proof using Type.
  intros Hb Hv. unfold int_chars, number_text. destruct (Z.eqb_spec v 0) as [->|Hv0]; [done|].
  apply wp_det. set (T := map digit_char (to_digits 63 base v)).
  apply wp_loop_n with (n := 63) (I := fun n '(rest, chars, count) s' => s' = s /\ 0 <= n /\ 0 <= rest < 2 ^ n /\
    T = map digit_char (to_digits (Z.to_nat n) base rest) ++ chars /\ count = Z.of_nat (length chars) /\
    n + count = 63); [|split; [done|]; split; [lia|]; split; [done|]; split; [by rewrite app_nil_r|done]|lia].
  intros n [[rest chars] count] s' (-> & Hn & Hr & ET & -> & Hc). cbv beta iota.
  destruct (Z.ltb_spec 0 rest) as [Hp|Hp].
  - assert (0 < n) by (destruct (decide (n = 0)) as [->|]; [change (2 ^ 0) with 1 in Hr|]; lia).
    rewrite Z.rem_mod_nonneg, Z.quot_div_nonneg by lia.
    wp_step. unfold wp at 1. rewrite pushes by lia. wp_step. exists (n - 1). split; [|lia]. split; [done|]. split; [lia|].
    assert (0 <= rest / base < 2 ^ (n - 1)) as Hq.
    { split; [apply Z.div_pos; lia|]. apply Z.div_lt_upper_bound; [lia|]. replace n with (n - 1 + 1) in Hr by lia.
      rewrite Z.pow_add_r in Hr by lia. nia. }
    split; [done|]. cbn [length]. split; [|lia]. rewrite ET.
    replace (Z.to_nat n) with (S (Z.to_nat (n - 1))) by lia. cbn [to_digits]. rewrite (proj2 (Z.leb_gt rest 0)) by done.
    rewrite map_app, <- app_assoc. done.
  - wp_step. assert (rest = 0) as -> by lia.
    assert (T = chars) as <-; [|done]. rewrite ET. by destruct (Z.to_nat n).
Qed.

(** The zeros up to the precision. *)
Lemma push_zeros precision chars s : (length chars <= 64)%nat -> precision <= 64 ->
  (loop (fun '(chars, count) =>
    if count <? precision then
      let* chars := push_char 48 chars in ret (Next (chars, count + 1))
    else ret (Done (chars, count))) (chars, Z.of_nat (length chars)) : print (list Z * Z)) s =
  Ok ((pad precision 48 chars, Z.of_nat (length (pad precision 48 chars))), s).
Proof using Type.
  intros Hl Hp. apply wp_det.
  apply wp_loop_n with (n := 64 - Z.of_nat (length chars)) (I := fun n '(l, count) s' => s' = s /\
    n = 64 - Z.of_nat (length l) /\ pad precision 48 chars = pad precision 48 l /\ count = Z.of_nat (length l));
    [|done|lia].
  intros n [l count] s' (-> & -> & El & ->). cbv beta iota. rewrite El. clear El Hl chars.
  destruct (Z.ltb_spec (Z.of_nat (length l)) precision) as [Hlt|Hge].
  - wp_step. unfold wp at 1. rewrite pushes by lia. wp_step. exists (64 - Z.of_nat (length (48 :: l))). cbn [length].
    split; [|lia]. split; [done|]. split; [done|]. split; [|lia]. unfold pad. cbn [length].
    replace (Z.to_nat (precision - Z.of_nat (length l))) with (Z.to_nat (precision - Z.of_nat (S (length l))) + 1)%nat by lia.
    by rewrite replicate_add, <- app_assoc.
  - wp_step. unfold pad. by replace (Z.to_nat (precision - Z.of_nat (length l))) with 0%nat by lia.
Qed.

Definition printable (l : text) : Prop := Forall (fun c => 0 < c < 128) l.

Lemma before_zero_app l rest : printable l -> before_zero (l ++ rest) = l ++ before_zero rest.
Proof using Type.
  induction 1 as [|c l Hc _ IH]; cbn; [done|]. rewrite (proj2 (Z.eqb_neq c 0)), IH by lia.
  by rewrite wrap_small by lia.
Qed.

(** The last loop prints the characters before the first zero. *)
Lemma prints_chars l s : 0 ∈ l -> Z.of_nat (length l) < 2 ^ 65 ->
  prints (loop (fun chars =>
    let* c := peek chars in
    if c =? 0 then ret (Done tt) else putc c ;; ret (Next (tail chars))) l) (before_zero l) (fun _ => True) s.
Proof using Type.
  intros Hl Hlen.
  apply (prints_loop _ (fun n chars t s' => 0 ∈ chars /\ n = Z.of_nat (length chars) /\ t = before_zero chars)
    (fun _ => True)) with (Z.of_nat (length l)); [|done|lia].
  intros n [|c chars] t s' (H0 & -> & ->); [by apply elem_of_nil in H0|]. cbn [before_zero].
  destruct (Z.eqb_spec c 0) as [->|Hc].
  - exists []. split; [|done]. apply (prints_read _ 0); [done|]. by apply prints_ret.
  - exists [u8 c]. split; [|cbn; lia]. apply (prints_read _ c); [done|]. cbv beta.
    rewrite (proj2 (Z.eqb_neq c 0)) by done. apply prints_char, prints_ret.
    exists (Z.of_nat (length chars)), (before_zero chars). split; [done|]. split; [cbn; lia|]. split; [|done].
    apply elem_of_cons in H0 as [H0|H0]; [congruence|done].
Qed.

Lemma number_text_printable base v : 2 <= base <= 16 -> 0 <= v < 2 ^ 63 -> printable (number_text base v).
Proof using Type.
  intros Hb Hv. unfold number_text, printable. destruct (v =? 0); [repeat constructor; lia|].
  destruct (to_digits_numeral 63 base ltac:(lia) v ltac:(done)) as [Hd _ _].
  apply Forall_map. eapply Forall_impl; [exact Hd|]. intros d Hdd. unfold digit_char. cbn in *.
  destruct (Z.ltb_spec d 10); lia.
Qed.

Lemma pad_printable n c l : 0 < c < 128 -> printable l -> printable (pad n c l).
Proof using Type. intros Hc Hl. apply Forall_app. split; [|done]. by apply Forall_replicate. Qed.

Lemma sign_text_length plus blank v : (length (sign_text plus blank v) <= 1)%nat.
Proof using Type. unfold sign_text. destruct (v <? 0), plus, blank; cbn; lia. Qed.

Lemma sign_text_printable plus blank v : printable (sign_text plus blank v).
Proof using Type. unfold sign_text, printable. destruct (v <? 0), plus, blank; repeat constructor; lia. Qed.

(** The last two loops of [format_int]. *)
Definition print_number (width flags : Z) (chars : list Z) (count : Z) : print Z :=
  let* chars := loop (fun '(chars, count) =>
    if count <? width then
      if negb (Z.land flags 4 =? 0) then
        let* c := peek chars in
        putc c ;;
        ret (Next (tail chars, count + 1))
      else putc 32 ;; ret (Next (chars, count + 1))
    else ret (Done chars)) (chars ++ stack, count) in
  loop (fun chars =>
    let* c := peek chars in
    if c =? 0 then ret (Done tt)
    else putc c ;; ret (Next (tail chars))) chars ;;
  ret 0.

(** The characters in the array when the conversion is over. *)
Definition array_text (plus blank : bool) (base precision v : Z) : text :=
  pad precision 48 (sign_text plus blank v ++ number_text base (Z.abs v)).

Lemma array_text_printable plus blank base precision v : 2 <= base <= 16 -> - 2 ^ 63 < v < 2 ^ 63 ->
  printable (array_text plus blank base precision v).
Proof using Type.
  intros Hb Hv. apply pad_printable; [lia|]. apply Forall_app.
  split; [apply sign_text_printable|apply number_text_printable; lia].
Qed.

Lemma array_text_length plus blank base precision v : precision <= 64 ->
  (length (array_text plus blank base precision v) <= 64)%nat.
Proof using Type.
  intros Hp. unfold array_text, pad. rewrite length_app, length_replicate, length_app.
  pose proof (sign_text_length plus blank v). pose proof (number_text_length base (Z.abs v)). lia.
Qed.

Lemma format_int_converts v base width precision flags s :
  2 <= base <= 16 -> (v < 0 -> base = 10) -> - 2 ^ 63 < v < 2 ^ 63 -> precision <= 64 ->
  let shown := array_text (negb (Z.land flags 1 =? 0)) (negb (Z.land flags 2 =? 0)) base precision v in
  format_int addr_c stack v base width precision flags s =
    print_number width flags shown (Z.of_nat (length shown)) s.
Proof using Type.
  intros Hb Hneg Hv Hp. unfold format_int, array_text.
  set (plus := negb (Z.land flags 1 =? 0)). set (blank := negb (Z.land flags 2 =? 0)).
  assert ((v <? 0) && (base =? 10) = (v <? 0)) as ->.
  { destruct (Z.ltb_spec v 0); [|done]. rewrite (Hneg H). done. }
  assert ((if v <? 0 then s64 (- v) else v) = Z.abs v) as ->.
  { destruct (Z.ltb_spec v 0); [|lia]. rewrite swrap_small by lia. lia. }
  set (num := number_text base (Z.abs v)). set (body := sign_text plus blank v ++ num).
  pose proof (number_text_length base (Z.abs v)) as Hnl. fold num in Hnl.
  assert (length body <= 64)%nat as Hbl.
  { unfold body. rewrite length_app. pose proof (sign_text_length plus blank v). lia. }
  erewrite bind_ok; [|apply int_chars_correct; lia]. cbv beta iota. fold num.
  rewrite (bind_ok _ (body, Z.of_nat (length body)) _ s s).
  2:{ unfold body, sign_text. destruct (v <? 0), plus, blank; cbn [app length]; unfold bind; rewrite ?pushes by lia;
      unfold ret; do 3 f_equal; lia. }
  cbv beta iota. erewrite bind_ok; [|by apply push_zeros]. done.
Qed.

Lemma prints_width width flags chars count s :
  Z.land flags 4 = 0 -> - 2 ^ 31 <= width < 2 ^ 31 -> 0 <= count ->
  prints (loop (fun '(chars, count) =>
    if count <? width then
      if negb (Z.land flags 4 =? 0) then
        let* c := peek chars in
        putc c ;;
        ret (Next (tail chars, count + 1))
      else putc 32 ;; ret (Next (chars, count + 1))
    else ret (Done chars)) (chars, count))
    (replicate (Z.to_nat (width - count)) 32) (fun l => l = chars) s.
Proof using Type.
  intros Hf4 Hw Hc. rewrite Hf4. cbn [Z.eqb negb].
  apply (prints_loop _ (fun n '(l, i) t _ => l = chars /\ n = Z.max 0 (width - i) /\
           t = replicate (Z.to_nat (width - i)) 32) (fun l => l = chars)) with (Z.max 0 (width - count)); [|done|lia].
  intros n [l i] t s' (-> & -> & ->). cbv beta iota. destruct (Z.ltb_spec i width) as [Hlt|Hge].
  - exists [32]. rewrite length_replicate. split; [|cbn; lia].
    apply prints_char, prints_ret. exists (Z.max 0 (width - (i + 1))), (replicate (Z.to_nat (width - (i + 1))) 32).
    split; [|split; [lia|done]].
    by replace (Z.to_nat (width - i)) with (S (Z.to_nat (width - (i + 1)))) by lia.
  - exists []. split; [|cbn; lia]. apply prints_ret. split; [|done].
    by replace (Z.to_nat (width - i)) with 0%nat by lia.
Qed.

Lemma prints_format_int v base width precision flags s :
  ends -> 2 <= base <= 16 -> (v < 0 -> base = 10) -> - 2 ^ 63 < v < 2 ^ 63 ->
  precision <= 64 -> - 2 ^ 31 <= width < 2 ^ 31 -> Z.land flags 4 = 0 ->
  prints (format_int addr_c stack v base width precision flags)
    (int_text (negb (Z.land flags 1 =? 0)) (negb (Z.land flags 2 =? 0)) base width precision v ++ before_zero stack)
    (fun _ => True) s.
Proof using Type.
  intros [H0 Hlen] Hb Hneg Hv Hp Hw Hf4. eapply prints_ext; [by apply format_int_converts|].
  set (plus := negb (Z.land flags 1 =? 0)). set (blank := negb (Z.land flags 2 =? 0)).
  pose proof (array_text_printable plus blank base precision v Hb Hv).
  pose proof (array_text_length plus blank base precision v Hp).
  change (int_text plus blank base width precision v) with (pad width 32 (array_text plus blank base precision v)).
  cbv zeta. unfold print_number, pad. rewrite <- app_assoc.
  eapply prints_bind; [apply prints_width; [done|done|lia]|].
  intros l ->. rewrite <- before_zero_app by done. eapply prints_tail; [apply app_nil_r|].
  eapply prints_bind; [apply prints_chars; [rewrite elem_of_app; by right|rewrite length_app; lia]|].
  intros _ _. by apply prints_ret.
Qed.

(** Without a zero behind the array the last loop leaves it. *)
Lemma chars_overrun chars s : 0 ∉ chars -> Z.of_nat (length chars) < 2 ^ 65 -> room (Z.of_nat (length chars)) s ->
  (loop (fun chars =>
    let* c := peek chars in
    if c =? 0 then ret (Done tt) else putc c ;; ret (Next (tail chars))) chars : print unit) s = Fault.
Proof using Type.
  intros H0 Hl Hr.
  apply loop_faults with (I := fun l s' => (0 ∉ l) /\ room (Z.of_nat (length l)) s') (m := fun l _ => Z.of_nat (length l));
    [|done|done].
  clear. intros [|c l] s [H0 Hr]; [done|]. rewrite not_elem_of_cons in H0. destruct H0 as [Hc H0].
  unfold bind at 1. cbn [peek getf head tail]. unfold peek, getf. cbn [head].
  rewrite (proj2 (Z.eqb_neq c 0)) by done. cbn [length] in Hr.
  rewrite (bind_ok _ 0 _ s (emit [u8 c] s)) by (apply putc_emits; eapply room_le; [|exact Hr]; lia).
  cbn [fturn ret length]. split; [|cbn; lia]. split; [done|]. apply room_emit; [lia|].
  replace (Z.of_nat (length [u8 c]) + Z.of_nat (length l)) with (Z.of_nat (S (length l))) by (cbn; lia). done.
Qed.

Lemma format_int_overruns v base width precision flags s :
  0 ∉ stack -> Z.of_nat (length stack) < 2 ^ 64 -> 2 <= base <= 16 -> (v < 0 -> base = 10) -> - 2 ^ 63 < v < 2 ^ 63 ->
  precision <= 64 -> - 2 ^ 31 <= width < 2 ^ 31 -> Z.land flags 4 = 0 ->
  room (Z.max 0 width + 64 + Z.of_nat (length stack)) s ->
  format_int addr_c stack v base width precision flags s = Fault.
Proof using Type.
  intros H0 Hl Hb Hneg Hv Hp Hw Hf4 Hr. rewrite format_int_converts by done. cbv zeta.
  set (plus := negb (Z.land flags 1 =? 0)). set (blank := negb (Z.land flags 2 =? 0)).
  pose proof (array_text_printable plus blank base precision v Hb Hv) as Hpr.
  pose proof (array_text_length plus blank base precision v Hp).
  set (shown := array_text plus blank base precision v) in *. clearbody shown.
  unfold print_number.
  destruct (prints_ok _ _ _ (64 + Z.of_nat (length stack)) s
    (prints_width width flags (shown ++ stack) (Z.of_nat (length shown)) s Hf4 Hw ltac:(lia)) ltac:(lia)) as (l & E & -> & Hr').
  { rewrite length_replicate. eapply room_le; [|exact Hr]. lia. }
  rewrite (bind_ok _ _ _ _ _ E). unfold bind. rewrite chars_overrun; [done| | |].
  - rewrite not_elem_of_app. split; [|done]. intros Hin. unfold printable in Hpr. rewrite Forall_forall in Hpr. specialize (Hpr 0 Hin). lia.
  - rewrite length_app. lia.
  - eapply room_le; [|exact Hr']. rewrite length_app. lia.
Qed.

(** ** The format *)

(** [r] goes on with an ASCII character outside [P]. *)
Definition next_not (P : Z -> bool) (r : text) : Prop :=
  exists c r', r = c :: r' /\ 0 <= c < 128 /\ P c = false.

Lemma read_ascii s a c l : str_at s a (c :: l) -> 0 <= c < 128 -> (mem_op (load_char a) : print Z) s = Ok (c, s).
Proof using Type. intros H Hc. rewrite (read_char _ _ _ _ H). by rewrite s8_ascii. Qed.

Definition flag_bit (c : Z) : Z := if c =? 43 then 1 else if c =? 32 then 2 else if c =? 45 then 4 else 8.
Definition flag_bits (fl : list Z) : Z := foldr (fun c b => Z.lor (flag_bit c) b) 0 fl.
Definition is_flag (c : Z) : bool := (c =? 43) || (c =? 32) || (c =? 45) || (c =? 48).

Lemma flag_char_inv c : flag_char c -> c = 43 \/ c = 32 \/ c = 45 \/ c = 48.
Proof using Type. unfold flag_char. set_solver. Qed.

Lemma parse_flags_correct fl : forall s a r, Forall flag_char fl -> Z.of_nat (length fl) < 2 ^ 64 -> str_at s a (fl ++ r) -> next_not is_flag r ->
  (parse_flags a : print _) s = Ok ((a + Z.of_nat (length fl), flag_bits fl), s).
Proof using Type.
  intros s a r Hfl Hn Hs (c & r' & -> & Hc & Hnot). unfold parse_flags. apply wp_det.
  apply wp_loop_n with (n := Z.of_nat (length fl)) (I := fun n '(b, bits) s' => s' = s /\ exists fl', n = Z.of_nat (length fl') /\
    Forall flag_char fl' /\ str_at s b (fl' ++ c :: r') /\ b + n = a + Z.of_nat (length fl) /\
    Z.lor bits (flag_bits fl') = flag_bits fl); [| |lia].
  2:{ split; [done|]. exists fl. by rewrite Z.lor_0_l. }
  intros n [b bits] s' (-> & fl' & -> & Hfl' & Hb & Eb & <-). cbv beta iota. wp_step. unfold wp at 1.
  destruct fl' as [|d fl']; cbn [app flag_bits foldr length] in *.
  - rewrite (read_ascii _ _ _ _ Hb) by done. unfold is_flag in Hnot. rewrite !orb_false_iff in Hnot.
    destruct Hnot as [[[H1 H2] H3] H4]. cbv beta iota. rewrite H1, H2, H3, H4, Z.lor_0_r.
    assert (b = a + Z.of_nat (length fl)) as -> by lia. by destruct (c =? 0).
  - apply Forall_cons in Hfl' as [Hd Hfl']. pose proof (str_at_tl _ _ _ _ Hb) as Hb'. apply flag_char_inv in Hd.
    rewrite (read_ascii _ _ _ _ Hb) by lia.
    destruct Hd as [-> | [-> | [-> | ->]]]; cbn; (exists (Z.of_nat (length fl')); split; [|lia]); (split; [done|]); exists fl';
      (split; [done|]); (split; [done|]); (split; [done|]); (split; [lia|]); by rewrite <- Z.lor_assoc.
Qed.

Lemma flag_bits_has fl c k : Forall flag_char fl -> flag_char c -> flag_bit c = 2 ^ k -> 0 <= k ->
  Z.testbit (flag_bits fl) k = bool_decide (c ∈ fl).
Proof using Type.
  intros Hfl Hc Ek Hk. induction Hfl as [|d fl Hd Hfl IH]; [by rewrite Z.testbit_0_l|]. cbn [flag_bits foldr].
  fold (flag_bits fl). rewrite Z.lor_spec, IH. destruct (decide (c = d)) as [->|Hne].
  - rewrite Ek, Z.pow2_bits_true by done. symmetry. apply bool_decide_eq_true. left.
  - assert (Z.testbit (flag_bit d) k = false) as ->.
    { apply flag_char_inv in Hd, Hc. assert (k = 0 \/ k = 1 \/ k = 2 \/ k = 3) as Hk4.
      { assert (k < 4) by (apply (Z.pow_lt_mono_r_iff 2); [lia..|]; rewrite <- Ek; unfold flag_bit; repeat case_match; lia). lia. }
      destruct Hk4 as [-> | [-> | [-> | ->]]], Hc as [-> | [-> | [-> | ->]]], Hd as [-> | [-> | [-> | ->]]];
        try done; cbn in Ek; lia. }
    cbn. apply bool_decide_ext. rewrite elem_of_cons. tauto.
Qed.

Lemma flag_land fl c k : Forall flag_char fl -> flag_char c -> flag_bit c = 2 ^ k -> 0 <= k ->
  negb (Z.land (flag_bits fl) (2 ^ k) =? 0) = bool_decide (c ∈ fl).
Proof using Type.
  intros Hfl Hc Ek Hk. rewrite <- (flag_bits_has fl c k Hfl Hc Ek Hk).
  assert (Z.land (flag_bits fl) (2 ^ k) = if Z.testbit (flag_bits fl) k then 2 ^ k else 0) as ->.
  { apply Z.bits_inj'. intros i Hi. rewrite Z.land_spec, Z.pow2_bits_eqb by done.
    destruct (Z.eqb_spec k i) as [->|Hne].
    - destruct (Z.testbit (flag_bits fl) i); [by rewrite Z.pow2_bits_true|by rewrite Z.testbit_0_l].
    - rewrite andb_false_r. destruct (Z.testbit (flag_bits fl) k); [by rewrite Z.pow2_bits_false|by rewrite Z.testbit_0_l]. }
  destruct (Z.testbit (flag_bits fl) k); [|done]. apply negb_true_iff, Z.eqb_neq.
  assert (0 < 2 ^ k) by (by apply Z.pow_pos_nonneg). lia.
Qed.

Definition is_digit (c : Z) : bool := (48 <=? c) && (c <=? 57).

Lemma digits_value_acc base n ds :
  fold_left (fun acc d => acc * base + d) ds n = n * base ^ Z.of_nat (length ds) + digits_value base ds.
Proof using Type.
  pose proof (digits_value_app base [n] ds) as H. unfold digits_value at 2 in H. cbn [fold_left] in H.
  rewrite Z.mul_0_l, Z.add_0_l in H. rewrite <- H. unfold digits_value. done.
Qed.

Lemma parse_number_correct ds : forall s a r, Forall (fun d => 0 <= d < 10) ds -> Z.of_nat (length ds) < 2 ^ 64 ->
  digits_value 10 ds < 2 ^ 31 -> str_at s a (map digit_char ds ++ r) -> next_not is_digit r ->
  (parse_number a : print _) s = Ok ((a + Z.of_nat (length ds), digits_value 10 ds), s).
Proof using Type.
  intros s a r Hds Hl Hv Hs (c & r' & -> & Hc & Hnot). unfold parse_number. apply wp_det.
  apply wp_loop_n with (n := Z.of_nat (length ds)) (I := fun k '(b, n) s' => s' = s /\ exists ds', k = Z.of_nat (length ds') /\
    Forall (fun d => 0 <= d < 10) ds' /\ str_at s b (map digit_char ds' ++ c :: r') /\ b + k = a + Z.of_nat (length ds) /\
    0 <= n /\ n * 10 ^ k + digits_value 10 ds' = digits_value 10 ds); [| |lia].
  2:{ split; [done|]. exists ds. split; [done|]. split; [done|]. split; [done|]. split; [lia|]. split; [lia|lia]. }
  intros k [b n] s' (-> & ds' & -> & Hds' & Hb & Eb & Hn & E). cbv beta iota. wp_step. unfold wp at 1.
  destruct ds' as [|d ds']; cbn [app map length] in *.
  - rewrite (read_ascii _ _ _ _ Hb) by done. unfold is_digit in Hnot. rewrite Hnot. wp_step.
    split; [|done]. f_equal; [lia|]. rewrite <- E. cbn. lia.
  - apply Forall_cons in Hds' as [Hd Hds']. pose proof (str_at_tl _ _ _ _ Hb) as Hb'.
    assert (digit_char d = 48 + d) as Ed by (unfold digit_char; destruct (Z.ltb_spec d 10); lia).
    rewrite (read_ascii _ _ _ _ Hb) by lia. rewrite Ed, (proj2 (Z.leb_le 48 _)), (proj2 (Z.leb_le _ 57)) by lia. wp_step.
    exists (Z.of_nat (length ds')). split; [|lia]. split; [done|]. exists ds'. split; [done|]. split; [done|].
    split; [done|]. split; [lia|]. rewrite digits_value_cons in E.
    pose proof (digits_value_nonneg 10 ds' ltac:(lia) Hds').
    rewrite Nat2Z.inj_succ, Z.pow_succ_r in E by lia.
    assert (1 <= 10 ^ Z.of_nat (length ds')) by (apply (Z.pow_le_mono_r 10 0); lia).
    rewrite swrap_small by nia. split; [lia|nia].
Qed.

Definition size_char (c : Z) : bool := is_digit c || (c =? 42).

Lemma next_not_weaken (P P' : Z -> bool) r : (forall c, P c = true -> P' c = true) -> next_not P' r -> next_not P r.
Proof using Type.
  intros H (c & r' & -> & Hc & Hn). exists c, r'. split; [done|]. split; [done|].
  specialize (H c). destruct (P c); [rewrite H in Hn|]; done.
Qed.

Lemma parse_size_correct z s a r args : size_ok z -> Z.of_nat (length (size_text z)) < 2 ^ 64 ->
  str_at s a (size_text z ++ r) -> next_not size_char r ->
  (parse_width a (size_slots z ++ args) : print _) s = Ok ((a + Z.of_nat (length (size_text z)), size_value z, args), s).
Proof using Type.
  intros Hz Hl Hs Hr. unfold parse_width, bind at 1. destruct z as [ds|slot].
  - destruct Hz as [Hds Hv]. cbn [size_text size_slots size_value app] in *. rewrite length_map in *.
    assert (exists c l, map digit_char ds ++ r = c :: l /\ 0 <= c < 128 /\ c <> 42) as (c & l & E & Hc & Hne).
    { destruct ds as [|d ds].
      - destruct Hr as (c & r' & -> & Hc & Hn). exists c, r'. split; [done|]. split; [done|].
        intros ->. done.
      - apply Forall_cons in Hds as [Hd _]. cbn. eexists _, _. split; [done|]. unfold digit_char.
        destruct (Z.ltb_spec d 10); lia. }
    rewrite E in Hs. rewrite (read_ascii _ _ _ _ Hs) by done. rewrite (proj2 (Z.eqb_neq c 42)) by done.
    rewrite <- E in Hs. unfold bind. erewrite parse_number_correct; [done|done|done|done|exact Hs|].
    eapply next_not_weaken; [|exact Hr]. intros x Hx. unfold size_char. by rewrite Hx.
  - cbn [size_text app size_slots size_value] in *. by rewrite (read_ascii _ _ _ _ Hs) by done.
Qed.

Lemma parse_precision_correct p s a r args : match p with None => True | Some z => size_ok z end ->
  Z.of_nat (length (precision_text p)) < 2 ^ 64 ->
  str_at s a (precision_text p ++ r) -> next_not (fun c => size_char c || (c =? 46)) r ->
  (parse_precision a (precision_slots p ++ args) : print _) s =
    Ok ((a + Z.of_nat (length (precision_text p)), precision_value p, args), s).
Proof using Type.
  intros Hz Hl Hs Hr. unfold parse_precision, bind. destruct p as [z|]; cbn [precision_text precision_slots precision_value app] in *.
  - rewrite (read_ascii _ _ _ _ Hs) by done. cbn [Z.eqb Pos.eqb]. erewrite parse_size_correct; [|done| |by apply str_at_tl in Hs|].
    + do 3 f_equal. cbn [length]. f_equal. lia.
    + cbn [length] in Hl. lia.
    + eapply next_not_weaken; [|exact Hr]. intros c Hc. cbn. by rewrite Hc.
  - destruct Hr as (c & r' & -> & Hc & Hn). rewrite (read_ascii _ _ _ _ Hs) by done.
    apply orb_false_iff in Hn as [_ ->]. by rewrite Z.add_0_r.
Qed.

Definition conversion_letters : list Z := [37; 99; 115; 100; 105; 117; 120; 88; 111; 112].

Definition length_code (l : length_modifier) : Z :=
  match l with
  | L_none => 0 | L_hh => 1 | L_h => 2 | L_l => 3 | L_ll => 4 | L_j => 5 | L_z => 6 | L_t => 7 | L_L => 8
  end.

Lemma letter_cases c : c ∈ conversion_letters -> c = 37 \/ c = 99 \/ c = 115 \/ c = 100 \/ c = 105 \/
  c = 117 \/ c = 120 \/ c = 88 \/ c = 111 \/ c = 112.
Proof using Type. unfold conversion_letters. rewrite !elem_of_cons, elem_of_nil. tauto. Qed.

Lemma parse_length_correct l s a c r : c ∈ conversion_letters -> str_at s a (length_text l ++ c :: r) ->
  (parse_length a : print _) s = Ok ((a + Z.of_nat (length (length_text l)), length_code l), s).
Proof using Type.
  intros Hc Hs. apply letter_cases in Hc. unfold parse_length, bind.
  destruct l; cbn [length_text app length length_code] in *; rewrite (read_ascii _ _ _ _ Hs) by lia;
    repeat (match goal with |- context [?x =? ?y] => is_var x; rewrite (proj2 (Z.eqb_neq x y)) by lia end);
    cbn [Z.eqb Pos.eqb]; try (by rewrite Z.add_0_r); try done;
    apply str_at_tl in Hs; rewrite (read_ascii _ _ _ _ Hs) by lia;
    repeat (match goal with |- context [?x =? ?y] => is_var x; rewrite (proj2 (Z.eqb_neq x y)) by lia end); done.
Qed.

Lemma signed_arg_bits l slot : signed_arg (length_code l) slot = swrap (length_bits l) slot.
Proof using Type. destruct l; cbn; try done; apply swrap_narrow; lia. Qed.

Lemma unsigned_arg_bits l slot : unsigned_arg (length_code l) slot = wrap (length_bits l) slot.
Proof using Type. destruct l; cbn; try done; apply wrap_narrow; lia. Qed.

(** ** Conversions *)

Definition null_text : text := [40; 110; 117; 108; 108; 41].

(** The string a conversion takes lies where its argument points. *)
Definition argument_at (s : state) (c : conversion) : Prop :=
  match c with
  | String slot l => if u64 slot =? 0 then l = null_text else pstr_at s (u64 slot) l
  | _ => True
  end.

Definition literals_at (s : state) : Prop := pstr_at s lit_null null_text /\ str_at s lit_0x [48; 120].

Lemma literals_at_emit t s : literals_at s -> literals_at (emit t s).
Proof using Type. intros [H1 H2]. split; [by apply pstr_at_emit|by apply str_at_emit]. Qed.

Lemma argument_at_emit t s c : argument_at s c -> argument_at (emit t s) c.
Proof using Type. destruct c; cbn; try done. destruct (u64 slot =? 0); [done|]. apply pstr_at_emit. Qed.

Lemma prints_0x s : str_at s lit_0x [48; 120] -> prints (buffer_puts addr_c lit_0x) [48; 120] (fun _ => True) s.
Proof using Type.
  intros Hs. unfold buffer_puts.
  apply (prints_loop _ (fun n '(a, i) t s' => str_at s' a t /\ 0 <= i /\ n = Z.of_nat (length t)) (fun _ => True)) with 2; [|done|lia].
  intros n [a i] t s' (Ha & Hi & ->). destruct t as [|c t].
  - exists []. split; [|done]. eapply prints_read; [by apply read_end|]. by apply prints_ret.
  - exists [c]. split; [|cbn; lia]. eapply prints_read; [exact (read_char _ _ _ _ Ha)|]. cbv beta.
    pose proof (str_at_cchar _ _ _ _ Ha) as Hc. rewrite s8_nonzero by done.
    apply prints_copy; [by apply cchar_byte|]. cbn [Z.ltb Z.compare].
    apply prints_ret. exists (Z.of_nat (length t)), t. split; [done|]. split; [cbn; lia|].
    split; [apply str_at_emit; by apply str_at_tl in Ha|lia].
Qed.

Lemma wrap_s8 slot : u8 (s8 slot) = u8 slot.
Proof using Type. unfold wrap, swrap. rewrite Zminus_mod_idemp_l. f_equal. lia. Qed.

Lemma prints_convert d args count s :
  Forall flag_char (d_flags d) -> conversion_ok d -> - 2 ^ 31 <= size_value (d_width d) < 2 ^ 31 ->
  (prints_number (Dir d) -> ends) ->
  literals_at s -> argument_at s (d_conversion d) ->
  prints (convert addr_c lit_null lit_0x stack (conversion_letter (d_conversion d)) (size_value (d_width d))
            (precision_value (d_precision d)) (length_code (d_length d)) (flag_bits (d_flags d)) count
            (conversion_slots (d_conversion d) ++ args))
    (conversion_output d) (fun r => r = (conversion_count (d_conversion d), args)) s.
Proof using Type.
  intros Hfl Hok Hw Hst [Hnull H0x] Harg. unfold PrintfSpec.conversion_output, conversion_ok, argument_at, prints_number in *.
  assert (forall b v, 2 <= b <= 16 -> (v < 0 -> b = 10) -> number_ok d v -> ends ->
    prints (format_int addr_c stack v b (size_value (d_width d)) (precision_value (d_precision d)) (flag_bits (d_flags d)))
      (int_text (has_flag 43 d) (has_flag 32 d) b (size_value (d_width d)) (precision_value (d_precision d)) v
         ++ before_zero stack)
      (fun _ => True) s) as Hint.
  { intros b v Hb Hneg (Hleft & Hp & Hv) Hend.
    unfold has_flag. rewrite <- (flag_land _ 43 0), <- (flag_land _ 32 1); [|done|unfold flag_char; set_solver|done|lia|done|unfold flag_char; set_solver|done|lia].
    apply prints_format_int; [done|done|done|done|done|done|].
    assert (negb (Z.land (flag_bits (d_flags d)) (2 ^ 2) =? 0) = false) as E.
    { rewrite (flag_land _ 45 2); [by apply bool_decide_eq_false|done|unfold flag_char; set_solver|done|lia]. }
    apply negb_false_iff, Z.eqb_eq in E. done. }
  destruct (d_conversion d) as [|slot|slot l|letter slot|letter slot|slot]; unfold convert;
    cbn [conversion_letter conversion_slots conversion_count app Z.eqb Pos.eqb va_arg orb].
  - apply (prints_char 37). by apply prints_ret.
  - eapply prints_read; [done|]. rewrite <- wrap_s8. apply prints_char. by apply prints_ret.
  - destruct Hok as [Hl Hw']. eapply prints_read; [done|]. cbv beta iota.
    assert (pstr_at s (if u64 slot =? 0 then lit_null else u64 slot) l) as Hs.
    { destruct (u64 slot =? 0); [by rewrite Harg|done]. }
    apply (prints_tail _ (string_text (size_value (d_width d)) (precision_value (d_precision d)) l ++ [])); [apply app_nil_r|].
    apply (prints_bind _ _ _ _ (fun _ => True)); [by apply prints_format_string|]. intros _ _.
    eapply prints_read; [apply (read_strlen _ _ l); [lia|by apply pstr_at_emit]|]. by apply prints_ret.
  - destruct Hok as [Hlet Hn]. specialize (Hint 10 (swrap (length_bits (d_length d)) slot) ltac:(lia) ltac:(done) Hn (Hst I)).
    rewrite <- signed_arg_bits in Hint. rewrite <- signed_arg_bits.
    rewrite !elem_of_cons, elem_of_nil in Hlet.
    destruct Hlet as [-> | [-> | []]]; cbn [Z.eqb Pos.eqb orb]; (eapply prints_read; [done|]); cbv beta iota;
      (eapply prints_tail; [apply app_nil_r|]); (eapply prints_bind; [exact Hint|]); intros _ _; by apply prints_ret.
  - destruct Hok as [Hlet Hn].
    assert (0 <= wrap (length_bits (d_length d)) slot) as Hpos by (apply wrap_bound; by destruct (d_length d)).
    assert (2 <= unsigned_base letter <= 16) as Hub by (unfold unsigned_base; repeat case_match; lia).
    specialize (Hint (unsigned_base letter) (wrap (length_bits (d_length d)) slot) Hub ltac:(lia) Hn (Hst I)).
    destruct Hn as (_ & _ & Hb).
    assert (s64 (unsigned_arg (length_code (d_length d)) slot) = wrap (length_bits (d_length d)) slot) as Earg.
    { rewrite unsigned_arg_bits. apply swrap_small; lia. }
    rewrite <- Earg in Hint. rewrite <- Earg. rewrite !elem_of_cons, elem_of_nil in Hlet.
    destruct Hlet as [-> | [-> | [-> | [-> | []]]]]; cbn [Z.eqb Pos.eqb orb]; (eapply prints_read; [done|]); cbv beta iota;
      (eapply prints_tail; [apply app_nil_r|]); (eapply prints_bind; [exact Hint|]); intros _ _; by apply prints_ret.
  - eapply prints_read; [done|]. cbv beta iota.
    apply (prints_bind _ _ [48; 120] (number_text 16 (u64 slot) ++ before_zero stack) (fun _ => True)); [by apply prints_0x|]. intros _ _.
    assert (s64 slot = u64 slot) as ->.
    { pose proof (wrap_bound 64 slot ltac:(lia)). rewrite <- (swrap_small 64 (u64 slot)) by lia.
      unfold swrap, wrap. f_equal. symmetry. apply Zplus_mod_idemp_l. }
    pose proof (wrap_bound 64 slot ltac:(lia)).
    eapply prints_tail; [apply app_nil_r|]. eapply prints_bind; [|intros _ _; by apply prints_ret].
    assert (int_text false false 16 0 0 (u64 slot) = number_text 16 (u64 slot)) as <-.
    { unfold int_text, sign_text, pad. rewrite (proj2 (Z.ltb_ge (u64 slot) 0)), Z.abs_eq by lia.
      by rewrite !Z2Nat.nonpos by lia. }
    apply (prints_format_int _ 16 0 0 0); [by apply Hst|lia|lia|lia|lia|lia|done].
Qed.

Lemma conversion_letter_ok d : conversion_ok d -> conversion_letter (d_conversion d) ∈ conversion_letters.
Proof using Type.
  unfold conversion_ok, conversion_letters. destruct (d_conversion d); cbn; rewrite !elem_of_cons, ?elem_of_nil;
    try (intros [H _]; rewrite !elem_of_cons, ?elem_of_nil in H); tauto.
Qed.

Lemma conversion_count_nonneg c : 0 <= conversion_count c.
Proof using Type. destruct c; cbn; lia. Qed.

Definition directive_char (c : Z) : bool := is_flag c || size_char c || (c =? 46).

Lemma next_length l c r : c ∈ conversion_letters -> next_not directive_char (length_text l ++ c :: r).
Proof using Type.
  intros Hc. apply letter_cases in Hc.
  assert (forall x, x ∈ [104; 108; 106; 122; 116; 76; 37; 99; 115; 100; 105; 117; 120; 88; 111; 112] -> 0 <= x < 128 /\ directive_char x = false) as H.
  { intros x Hx. rewrite !elem_of_cons, elem_of_nil in Hx. unfold directive_char, is_flag, size_char, is_digit.
    split; [lia|]. destruct_or! Hx; subst; done. }
  destruct l; cbn; (eexists _, _; split; [done|]; apply H; rewrite !elem_of_cons, ?elem_of_nil; tauto || (destruct_or! Hc; subst; tauto)).
Qed.

Lemma next_precision p l c r : c ∈ conversion_letters ->
  next_not (fun x => is_flag x || size_char x) (precision_text p ++ length_text l ++ c :: r).
Proof using Type.
  intros Hc. destruct p as [z|]; cbn.
  - eexists _, _. split; [done|]. split; [lia|done].
  - eapply next_not_weaken; [|by apply next_length]. intros x Hx. unfold directive_char. by rewrite Hx.
Qed.

Lemma next_width z p l c r : width_ok z -> c ∈ conversion_letters ->
  next_not is_flag (size_text z ++ precision_text p ++ length_text l ++ c :: r).
Proof using Type.
  intros [Hz Hw] Hc. destruct z as [[|d ds]|slot]; cbn.
  - eapply next_not_weaken; [|by apply next_precision]. intros x Hx. cbn. by rewrite Hx.
  - destruct Hz as [Hd _]. apply Forall_cons in Hd as [Hd _]. eexists _, _. split; [done|].
    assert (d <> 0) by (by intros ->). unfold digit_char, is_flag. rewrite (proj2 (Z.ltb_lt d 10)) by lia. split; [lia|].
    by rewrite !(proj2 (Z.eqb_neq _ _)) by lia.
  - eexists _, _. split; [done|]. split; [lia|done].
Qed.

(** A directive is read back as it was written. *)
Lemma directive_parses d a count args r s :
  directive_ok d -> str_at s a (directive_text d ++ r) -> Z.of_nat (length (directive_text d)) < 2 ^ 64 ->
  vprintf_directive addr_c lit_null lit_0x stack a count (directive_slots d ++ args) s =
    (let* (n, args) := convert addr_c lit_null lit_0x stack (conversion_letter (d_conversion d)) (size_value (d_width d))
            (precision_value (d_precision d)) (length_code (d_length d)) (flag_bits (d_flags d)) count
            (conversion_slots (d_conversion d) ++ args) in
     ret (a + Z.of_nat (length (directive_text d)), s32 (count + n), args)) s.
Proof using Type.
  intros (Hfl & [Hz Hw] & Hp & Hok) Hs Hl. pose proof (conversion_letter_ok d Hok) as Hlet.
  unfold vprintf_directive, directive_text, directive_slots in *. rewrite !length_app in Hl. rewrite <- !app_assoc in *. cbn [app] in Hs.
  erewrite bind_ok; [|eapply (parse_flags_correct (d_flags d)); [done|lia|exact Hs|by apply next_width]]. cbv beta iota.
  apply str_at_app in Hs.
  erewrite bind_ok; [|eapply (parse_size_correct (d_width d)); [done|lia|exact Hs|]].
  2:{ eapply next_not_weaken; [|by apply next_precision]. intros x Hx. cbn. rewrite Hx. apply orb_true_r. }
  cbv beta iota. apply str_at_app in Hs.
  erewrite bind_ok; [|eapply (parse_precision_correct (d_precision d)); [done|lia|exact Hs|]].
  2:{ eapply next_not_weaken; [|by apply next_length]. intros x Hx. cbn in Hx. unfold directive_char.
      destruct (is_flag x), (size_char x), (x =? 46); done. }
  cbv beta iota. apply str_at_app in Hs.
  erewrite bind_ok; [|apply (parse_length_correct (d_length d) _ _ _ _ Hlet Hs)]. cbv beta iota.
  apply str_at_app in Hs. erewrite bind_ok; [|apply (read_ascii _ _ _ _ Hs)].
  2:{ apply letter_cases in Hlet. lia. }
  cbv beta iota. apply bind_ext. intros [n xs] s'. unfold ret. do 4 f_equal.
  rewrite !length_app. cbn [length]. lia.
Qed.

Lemma width_value_int z : width_ok z -> - 2 ^ 31 <= size_value z < 2 ^ 31.
Proof using Type.
  intros [Hz _]. destruct z as [ds|slot]; cbn.
  - destruct Hz as [Hd Hv]. pose proof (digits_value_nonneg 10 ds ltac:(lia) Hd). lia.
  - apply (swrap_bound 32). lia.
Qed.

Lemma prints_directive d a count args r s :
  directive_ok d -> str_at s a (directive_text d ++ r) -> Z.of_nat (length (directive_text d)) < 2 ^ 64 ->
  0 <= count -> count + conversion_count (d_conversion d) < 2 ^ 31 ->
  (prints_number (Dir d) -> ends) ->
  literals_at s -> argument_at s (d_conversion d) ->
  prints (vprintf_directive addr_c lit_null lit_0x stack a count (directive_slots d ++ args)) (conversion_output d)
    (fun x => x = (a + Z.of_nat (length (directive_text d)), count + conversion_count (d_conversion d), args)) s.
Proof using Type.
  intros Hd Hs Hl Hc0 Hc Hst Hlit Harg. eapply prints_ext; [by eapply directive_parses|].
  destruct Hd as (Hfl & Hw & Hp & Hok). pose proof (conversion_count_nonneg (d_conversion d)).
  eapply prints_tail; [apply app_nil_r|].
  eapply prints_bind; [apply prints_convert; try done; by apply width_value_int|].
  intros x ->. cbv beta iota. apply prints_ret. by rewrite swrap_small by lia.
Qed.

(** A number without a zero behind the array: the conversion goes wrong. *)
Lemma convert_overruns d args count s :
  Forall flag_char (d_flags d) -> conversion_ok d -> - 2 ^ 31 <= size_value (d_width d) < 2 ^ 31 ->
  prints_number (Dir d) -> (0 ∉ stack) -> Z.of_nat (length stack) < 2 ^ 64 -> literals_at s ->
  room (Z.max 0 (size_value (d_width d)) + 66 + Z.of_nat (length stack)) s ->
  convert addr_c lit_null lit_0x stack (conversion_letter (d_conversion d)) (size_value (d_width d))
    (precision_value (d_precision d)) (length_code (d_length d)) (flag_bits (d_flags d)) count
    (conversion_slots (d_conversion d) ++ args) s = Fault.
Proof using Type.
  intros Hfl Hok Hw Hnum H0 Hlen [_ H0x] Hr. unfold conversion_ok, prints_number in *.
  assert (forall b v, 2 <= b <= 16 -> (v < 0 -> b = 10) -> number_ok d v ->
    format_int addr_c stack v b (size_value (d_width d)) (precision_value (d_precision d)) (flag_bits (d_flags d)) s = Fault) as Hint.
  { intros b v Hb Hneg (Hleft & Hp & Hv). apply format_int_overruns; try done; [|eapply room_le; [|exact Hr]; lia].
    assert (negb (Z.land (flag_bits (d_flags d)) (2 ^ 2) =? 0) = false) as E.
    { rewrite (flag_land _ 45 2); [by apply bool_decide_eq_false|done|unfold flag_char; set_solver|done|lia]. }
    apply negb_false_iff, Z.eqb_eq in E. done. }
  destruct (d_conversion d) as [|slot|slot l|letter slot|letter slot|slot]; [done..| | |]; unfold convert;
    cbn [conversion_letter conversion_slots conversion_count app Z.eqb Pos.eqb va_arg orb].
  - destruct Hok as [Hlet Hn]. specialize (Hint 10 (swrap (length_bits (d_length d)) slot) ltac:(lia) ltac:(done) Hn).
    rewrite <- signed_arg_bits in Hint. rewrite !elem_of_cons, elem_of_nil in Hlet.
    destruct Hlet as [-> | [-> | []]]; cbn [Z.eqb Pos.eqb orb]; unfold bind, ret; by rewrite Hint.
  - destruct Hok as [Hlet Hn].
    assert (0 <= wrap (length_bits (d_length d)) slot) as Hpos by (apply wrap_bound; by destruct (d_length d)).
    assert (2 <= unsigned_base letter <= 16) as Hub by (unfold unsigned_base; repeat case_match; lia).
    specialize (Hint (unsigned_base letter) (wrap (length_bits (d_length d)) slot) Hub ltac:(lia) Hn).
    destruct Hn as (_ & _ & Hb).
    rewrite <- (swrap_small 64 (wrap (length_bits (d_length d)) slot)), <- unsigned_arg_bits in Hint by lia.
    rewrite !elem_of_cons, elem_of_nil in Hlet. unfold unsigned_base in Hint.
    destruct Hlet as [-> | [-> | [-> | [-> | []]]]]; cbn [Z.eqb Pos.eqb orb] in Hint |- *; unfold bind, ret; by rewrite Hint.
  - unfold bind at 1. cbn [ret].
    destruct (prints_ok _ _ _ (64 + Z.of_nat (length stack)) s (prints_0x s H0x) ltac:(lia)) as (x & E & _ & Hr').
    { eapply room_le; [|exact Hr]. cbn. lia. }
    rewrite (bind_ok _ _ _ _ _ E). unfold bind.
    pose proof (wrap_bound 64 slot ltac:(lia)).
    assert (s64 slot = u64 slot) as ->.
    { rewrite <- (swrap_small 64 (u64 slot)) by lia. unfold swrap, wrap. f_equal. symmetry. apply Zplus_mod_idemp_l. }
    rewrite format_int_overruns; [done|done|done|lia|lia|lia|lia|lia|done|]. eapply room_le; [|exact Hr']. lia.
Qed.

(** ** The whole format *)

Lemma piece_count_nonneg p : 0 <= piece_count p.
Proof using Type. destruct p; cbn; [lia|apply conversion_count_nonneg]. Qed.

Lemma counted_nonneg ps : 0 <= counted ps.
Proof using Type. induction ps as [|p ps IH]; cbn; [done|]. pose proof (piece_count_nonneg p). unfold counted in IH. lia. Qed.

Definition arguments_at (s : state) (ps : list piece) : Prop :=
  Forall (fun p => match p with Dir d => argument_at s (d_conversion d) | Plain _ => True end) ps.

Lemma arguments_at_emit t s ps : arguments_at s ps -> arguments_at (emit t s) ps.
Proof using Type.
  intros H. eapply Forall_impl; [exact H|]. intros [c|d]; [done|]. apply argument_at_emit.
Qed.

(** What the loop of the formatter has to find: [ps] is still to be
    printed. *)
Record printing (b count : Z) (ps : list piece) (s : state) : Prop := {
  pr_pieces : Forall piece_ok ps;
  pr_format : str_at s b (render ps);
  pr_length : Z.of_nat (length (render ps)) < 2 ^ 64;
  pr_count : 0 <= count /\ count + counted ps < 2 ^ 31;
  pr_literals : literals_at s;
  pr_arguments : arguments_at s ps;
}.

Lemma piece_text_nonempty p : (0 < length (piece_text p))%nat.
Proof using Type. destruct p; cbn; lia. Qed.

Lemma printing_next b count p ps s : printing b count (p :: ps) s ->
  printing (b + Z.of_nat (length (piece_text p))) (count + piece_count p) ps (emit (piece_output p) s).
Proof using Type.
  intros [H1 H2 H3 H4 H5 H6]. apply Forall_cons in H1 as [_ H1]. apply Forall_cons in H6 as [_ H6].
  change (render (p :: ps)) with (piece_text p ++ render ps) in *. rewrite length_app in H3.
  change (counted (p :: ps)) with (piece_count p + counted ps) in H4. pose proof (piece_count_nonneg p).
  split; [done|apply str_at_emit; by apply str_at_app in H2|lia|lia|by apply literals_at_emit|by apply arguments_at_emit].
Qed.

Lemma prints_turn b count p ps args s : printing b count (p :: ps) s ->
  (prints_number p -> ends) ->
  prints (vprintf_turn addr_c lit_null lit_0x stack (b, count, slots (p :: ps) ++ args)) (piece_output p)
    (fun r => r = Next (b + Z.of_nat (length (piece_text p)), count + piece_count p, slots ps ++ args)) s.
Proof using Type.
  intros [H1 H2 H3 H4 H5 H6] Hst. apply Forall_cons in H1 as [Hp _]. apply Forall_cons in H6 as [Hap _].
  change (render (p :: ps)) with (piece_text p ++ render ps) in *. rewrite length_app in H3.
  change (counted (p :: ps)) with (piece_count p + counted ps) in H4.
  pose proof (piece_count_nonneg p). pose proof (counted_nonneg ps). unfold vprintf_turn.
  destruct p as [c|d]; cbn [piece_text PrintfSpec.piece_output piece_slots piece_count piece_ok app length] in *.
  - destruct Hp as [Hcc Hne]. eapply prints_read; [exact (read_char _ _ _ _ H2)|]. cbv beta iota.
    rewrite s8_nonzero by done. change 37 with (s8 37) at 1. rewrite s8_inj, (proj2 (Z.eqb_neq c 37)) by (done || by apply cchar_byte).
    apply prints_copy; [by apply cchar_byte|]. apply prints_ret. by rewrite swrap_small by lia.
  - eapply prints_read; [exact (read_char _ _ _ _ H2)|]. cbv beta iota. change (s8 37) with 37. cbn [Z.eqb Pos.eqb].
    eapply prints_tail; [apply app_nil_r|]. eapply prints_bind.
    + change (slots (Dir d :: ps)) with (directive_slots d ++ slots ps). rewrite <- app_assoc.
      apply (prints_directive d (b + 1) count (slots ps ++ args) (render ps));
        [done|by apply str_at_tl in H2|lia|lia|lia|exact Hst|done|done].
    + intros x ->. apply prints_ret. do 3 f_equal. lia.
Qed.

Lemma prints_vprintf ps a args s :
  printing a 0 ps s -> stack_ok ps ->
  prints (vprintf_internal addr_c lit_null lit_0x stack a (slots ps ++ args)) (output ps) (fun r => r = counted ps) s.
Proof using Type.
  intros Hps Hst. unfold vprintf_internal.
  apply (prints_loop _ (fun n '(b, count, xs) t s' => exists qs, t = output qs /\ printing b count qs s' /\
    n = Z.of_nat (length (render qs)) /\ count + counted qs = counted ps /\ stack_ok qs /\ xs = slots qs ++ args)
    (fun r => r = counted ps)) with (Z.of_nat (length (render ps))).
  - clear Hps Hst. intros n [[b count] xs] t s' (qs & -> & Hqs & -> & Hcount & Hst & ->). destruct qs as [|p qs].
    + exists []. split; [|done]. unfold vprintf_turn. eapply prints_read; [apply read_end, Hqs|]. apply prints_ret. split; [done|].
      unfold counted in Hcount at 1. cbn in Hcount. lia.
    + exists (piece_output p). split.
      * eapply prints_mono; [apply prints_turn; [done|intros Hp; apply Hst; by left]|]. intros r ->. cbn [goes_on].
        exists (Z.of_nat (length (render qs))), (output qs). split; [done|].
        change (render (p :: qs)) with (piece_text p ++ render qs). rewrite length_app.
        pose proof (piece_text_nonempty p). split; [lia|].
        exists qs. split; [done|]. split; [by apply printing_next|]. split; [done|].
        change (counted (p :: qs)) with (piece_count p + counted qs) in Hcount. split; [lia|]. split; [|done].
        intros Hx. apply Hst. by right.
      * change (output (p :: qs)) with (piece_output p ++ output qs). rewrite length_app. lia.
  - by exists ps.
  - destruct Hps. lia.
Qed.

Lemma output_app ps qs : output (ps ++ qs) = output ps ++ output qs.
Proof using Type. apply bind_app. Qed.

(** The first number of a format. *)
Lemma vprintf_overruns ps d qs a args s :
  printing a 0 (ps ++ Dir d :: qs) s -> ~ Exists prints_number ps -> prints_number (Dir d) ->
  (0 ∉ stack) -> Z.of_nat (length stack) < 2 ^ 64 ->
  room (Z.of_nat (length (output ps)) + (Z.max 0 (size_value (d_width d)) + 66 + Z.of_nat (length stack))) s ->
  vprintf_internal addr_c lit_null lit_0x stack a (slots (ps ++ Dir d :: qs) ++ args) s = Fault.
Proof using Type.
  intros Hps Hno Hnum H0 Hlen Hr. unfold vprintf_internal.
  set (k := Z.max 0 (size_value (d_width d)) + 66 + Z.of_nat (length stack)) in *.
  set (stop := a + Z.of_nat (length (render (ps ++ Dir d :: qs)))).
  apply loop_faults with (m := fun '(b, _, _) _ => stop - b) (I := fun '(b, count, xs) s' => exists rs,
    printing b count (rs ++ Dir d :: qs) s' /\ ~ Exists prints_number rs /\ room (Z.of_nat (length (output rs)) + k) s' /\
    b + Z.of_nat (length (render (rs ++ Dir d :: qs))) = stop /\ xs = slots (rs ++ Dir d :: qs) ++ args);
    [|by exists ps|destruct Hps; unfold stop; lia].
  clearbody stop. clear Hps Hno Hr s ps. intros [[b count] xs] s (rs & Hps & Hno & Hr & Estop & ->).
  destruct rs as [|p rs]; cbn [app] in *.
  - assert (vprintf_turn addr_c lit_null lit_0x stack (b, count, slots (Dir d :: qs) ++ args) s = Fault) as ->; [|done].
    destruct Hps as [H1 H2 H3 H4 H5 H6]. apply Forall_cons in H1 as [Hd _].
    change (render (Dir d :: qs)) with ((37 :: directive_text d) ++ render qs) in *. rewrite length_app in H3.
    cbn [app length] in H2, H3. unfold vprintf_turn. erewrite bind_ok; [|exact (read_char _ _ _ _ H2)].
    change (s8 37) with 37. cbn [Z.eqb Pos.eqb].
    change (slots (Dir d :: qs)) with (directive_slots d ++ slots qs). rewrite <- app_assoc. apply str_at_tl in H2.
    unfold bind. rewrite (directive_parses d _ _ _ (render qs)) by (done || lia). destruct Hd as (Hfl & Hw & _ & Hok).
    unfold bind. rewrite convert_overruns; [done|done|done|by apply width_value_int|done|done|done|done|].
    eapply room_le; [|exact Hr]. cbn. unfold k. lia.
  - rewrite Exists_cons in Hno.
    assert (output (p :: rs) = piece_output p ++ output rs) as Eo by done. rewrite Eo, length_app, Nat2Z.inj_add, <- Z.add_assoc in Hr.
    destruct (prints_ok _ _ _ (Z.of_nat (length (output rs)) + k) s
      (prints_turn b count p (rs ++ Dir d :: qs) args s Hps ltac:(tauto)) ltac:(unfold k; lia) Hr) as (x & E & -> & Hr').
    rewrite E. cbn [fturn].
    assert (render (p :: rs ++ Dir d :: qs) = piece_text p ++ render (rs ++ Dir d :: qs)) as Er by done.
    rewrite Er, length_app in Estop. pose proof (piece_text_nonempty p). split; [|lia]. exists rs.
    split; [by apply printing_next|]. split; [tauto|]. split; [done|]. split; [lia|done].
Qed.
End Sinks.
End Proofs.
Arguments Sink {W FW} addr_c.
