(* ===== verification/PrintfSinks.v ===== *)
(** * [snprintf], [sprintf], [printf] and [fprintf]

    The two places output goes to are instances of [PrintfProofs.Sink]: a
    buffer in memory, which takes what fits below its limit, and a stream,
    for any [fwrite] that obeys [FWriteLaws].  The theorems about the entry
    points follow from those about the formatter. *)

From S2P Require Import Prelude CMem MemFns CStr Strtol Digits Libc Printf PrintfSpec PrintfProofs.

Section Sinks.
Context {W : Type} {FW : FWrite W}.
Context (addr_c : Z).

Abbreviation state := (printf_buffer * proc W)%type.

(** ** Memory *)

Section Memory.
(** The buffer, the size it is said to have, and the number of bytes the
    output may take of it. *)
Context (str size limit : Z).

Definition fitting (pos : Z) (t : text) : text := take (Z.to_nat (limit - pos)) t.

Definition mem_emit (t : text) (s : state) : state :=
  if bool_decide (0 <= pb_pos s.1) then
    let t := fitting (pb_pos s.1) t in
    (pb_with_pos (pb_pos s.1 + Z.of_nat (length t)) s.1,
     with_memory (write (str + pb_pos s.1) t (memory s.2)) s.2)
  else s.

Record mem_room (n : Z) (s : state) : Prop := {
  mr_stream : pb_stream s.1 = 0;
  mr_buffer : pb_buffer s.1 = str;
  mr_size : pb_size s.1 = size;
  mr_pos : 0 <= pb_pos s.1;
  mr_limit : limit = size \/ limit <= size /\ pb_pos s.1 + n <= limit;
  mr_mapped : mapped (memory s.2) (str + pb_pos s.1) (Z.min n (limit - pb_pos s.1));
}.

Lemma fitting_app pos t1 t2 :
  fitting pos (t1 ++ t2) = fitting pos t1 ++ fitting (pos + Z.of_nat (length (fitting pos t1))) t2.
Proof using Type.
  unfold fitting. rewrite take_app, length_take. f_equal.
  destruct (decide (Z.to_nat (limit - pos) <= length t1)%nat).
  - replace (Z.to_nat (limit - pos) - length t1)%nat with 0%nat by lia.
    by replace (Z.to_nat (limit - (pos + Z.of_nat (Z.to_nat (limit - pos) `min` length t1)))) with 0%nat by lia.
  - f_equal. lia.
Qed.

Lemma fitting_length pos t : Z.of_nat (length (fitting pos t)) = Z.min (Z.max 0 (limit - pos)) (Z.of_nat (length t)).
Proof using Type. unfold fitting. rewrite length_take. lia. Qed.

#[refine] Instance mem_sink : Sink addr_c :=
  {| emit := mem_emit; room := mem_room; safe k := k < str \/ str + limit <= k |}.
Proof.
  - intros [[bf sz pos st] [m e w]]. unfold mem_emit, fitting. cbn. case_bool_decide; [|done].
    by rewrite take_nil, Z.add_0_r.
  - intros t1 t2 [[bf sz pos st] [m e w]]. unfold mem_emit. cbn. case_bool_decide; cbn; [|by rewrite bool_decide_eq_false_2].
    rewrite bool_decide_eq_true_2 by lia. rewrite fitting_app, length_app, write_app. unfold pb_with_pos. cbn.
    f_equal; [f_equal; lia|]. unfold with_memory. cbn. f_equal. f_equal. lia.
  - intros t [[bf sz pos st] [m e w]] k Hk. unfold mem_emit. cbn. case_bool_decide; [|done]. cbn.
    apply write_lookup_out. rewrite fitting_length. lia.
  - intros m n [b st] Hmn [H1 H2 H3 H4 H5 H6]. split; [done..|lia|]. apply (mapped_le _ _ _ _ _ H6); lia.
  - intros t n [[bf sz pos sm] [m e w]] Hn [H1 H2 H3 H4 H5 H6]. cbn in *. unfold mem_emit.
    split; cbn; rewrite bool_decide_eq_true_2 by done; cbn; rewrite ?fitting_length; [done|done|done|lia|lia|].
    apply write_mapped. apply (mapped_le _ _ _ _ _ H6); lia.
  - intros c [[bf sz pos sm] [m e w]] [H1 H2 H3 H4 H5 H6]. cbn in *. subst.
    unfold buffer_putc, bind, gets, mem_emit. cbn. rewrite bool_decide_eq_true_2 by done.
    unfold fitting. destruct (Z.ltb_spec pos size) as [Hlt|Hge].
    + assert (pos < limit) by lia. replace (Z.to_nat (limit - pos)) with (S (Z.to_nat (limit - pos - 1))) by lia. cbn.
      unfold on_mem, store8, modify, bind, ret. cbn. destruct (H6 (str + pos)) as [x ->]; [lia|]. cbn. by rewrite take_nil.
    + replace (Z.to_nat (limit - pos)) with 0%nat by lia. cbn. unfold ret. by rewrite Z.add_0_r.
Defined.
End Memory.

(** ** Streams *)

(** What a stream has to do with a character: [fwrite] of the byte at
    [addr_c] takes it and answers 1; [append] is the effect on the world. *)
Class FWriteLaws : Type := {
  append : Z -> text -> W -> W;
  writable : Z -> proc W -> Prop;
  append_nil : forall f w, append f [] w = w;
  append_app : forall f t1 t2 w, append f (t1 ++ t2) w = append f t2 (append f t1 w);
  writable_put : forall f c (s : proc W), writable f s -> writable f (with_memory (<[addr_c := c]> (memory s)) s);
  writable_append : forall f t (s : proc W), writable f s -> writable f (with_world (append f t (world s)) s);
  fwrite_law : forall f c (s : proc W), f <> 0 -> writable f s -> memory s !! addr_c = Some c -> byte c ->
    fwrite addr_c 1 1 f s = Ok (1, with_world (append f [c] (world s)) s);
}.

Section Stream.
Context {FL : FWriteLaws} (stream : Z).

(** The character passes through the parameter of [buffer_putc]. *)
Definition spill (t : text) (m : mem) : mem :=
  match last t with Some c => <[addr_c := c]> m | None => m end.

Definition stream_emit (t : text) (s : state) : state :=
  (s.1, Proc (spill t (memory s.2)) (errno_value s.2) (append stream t (world s.2))).

Record stream_room (n : Z) (s : state) : Prop := {
  sr_stream : pb_stream s.1 = stream;
  sr_writable : writable stream s.2;
  sr_mapped : is_Some (memory s.2 !! addr_c);
}.

Lemma spill_app t1 t2 m : spill (t1 ++ t2) m = spill t2 (spill t1 m).
Proof using Type.
  unfold spill. destruct t2 as [|c t2 _] using rev_ind; [by rewrite app_nil_r|].
  rewrite app_assoc, !last_snoc. destruct (last t1); [by rewrite insert_insert_eq|done].
Qed.

Lemma writable_emit t (s : proc W) :
  writable stream s -> writable stream (Proc (spill t (memory s)) (errno_value s) (append stream t (world s))).
Proof using Type.
  intros H. apply (writable_append stream t (Proc (spill t (memory s)) (errno_value s) (world s))).
  unfold spill. destruct (last t) as [c|]; [by apply (writable_put stream c s)|by destruct s].
Qed.

Hypothesis stream_open : stream <> 0.

#[refine] Instance stream_sink : Sink addr_c :=
  {| emit := stream_emit; room := stream_room; safe k := k <> addr_c |}.
Proof using FL stream_open.
  - intros [b [m e w]]. unfold stream_emit. cbn. by rewrite append_nil.
  - intros t1 t2 [b [m e w]]. unfold stream_emit. cbn. by rewrite spill_app, append_app.
  - intros t [b [m e w]] k Hk. cbn. unfold spill. destruct (last t); [by rewrite lookup_insert_ne|done].
  - intros m n s _ [H1 H2 H3]. by split.
  - intros t n [b [m e w]] _ [H1 H2 H3]. split; cbn in *; [done|by apply (writable_emit t (Proc m e w))|].
    unfold spill. destruct (last t); [|done]. rewrite lookup_insert_is_Some'. by right.
  - intros c [[bf sz pos st] [m e w]] [H1 H2 [x Hx]]. cbn in *. subst st.
    unfold buffer_putc, bind, gets, outside, on_mem, store8, stream_emit. cbn.
    rewrite (proj2 (Z.eqb_neq stream 0)) by done. cbn. rewrite Hx. cbn.
    rewrite (fwrite_law stream (u8 c) (with_memory (<[addr_c := u8 c]> m) (Proc m e w)));
      [done|done|by apply (writable_put stream (u8 c) (Proc m e w))|cbn; apply lookup_insert_eq|]. apply (wrap_bound 8 c). lia.
Defined.
End Stream.
End Sinks.
