(* ===== verification/PrintfMain.v ===== *)
(** * The entry points of formatted output

    Functional correctness of [snprintf], [sprintf], [printf] and [fprintf]
    on formats of [PrintfSpec]; a number is followed by the bytes behind the
    array of [format_int] up to the first zero, and faults when there is
    none; what [snprintf] prints, [strtol] reads back. *)

From S2P Require Import Prelude CMem MemFns CStr Ctype Strtol Digits Libc Printf PrintfSpec PrintfProofs PrintfSinks.

Section Main.
Context {W : Type} {FW : FWrite W}.
Context (addr_c lit_null lit_0x : Z) (stack : list Z).
Abbreviation output := (PrintfSpec.output stack).
Abbreviation stack_ok := (PrintfSpec.stack_ok stack).

(** The format, the literals and the strings among the arguments are in
    memory; [free a n] says that the output leaves [n] bytes from [a] on
    alone. *)
Definition argument_in (m : mem) (free : Z -> Z -> Prop) (p : piece) : Prop :=
  match p with
  | Dir d => match d_conversion d with
             | String slot l =>
                 if u64 slot =? 0 then l = null_text
                 else cstr_padded m (u64 slot) l /\ free (u64 slot) (Z.of_nat (length l) + 8)
             | _ => True
             end
  | Plain _ => True
  end.

Record ready (m : mem) (free : Z -> Z -> Prop) (format : Z) (ps : list piece) : Prop := {
  rd_pieces : Forall piece_ok ps;
  rd_format : cstr m format (render ps);
  rd_format_free : free format (Z.of_nat (length (render ps)) + 1);
  rd_null : cstr_padded m lit_null null_text;
  rd_null_free : free lit_null 14;
  rd_0x : cstr m lit_0x [48; 120];
  rd_0x_free : free lit_0x 3;
  rd_arguments : Forall (argument_in m free) ps;
  rd_length : Z.of_nat (length (render ps)) < 2 ^ 64;
  rd_count : counted ps < 2 ^ 31;
}.

Lemma ready_printing {SK : Sink addr_c} free format ps b s :
  ready (memory s) free format ps ->
  (forall a n k, free a n -> a <= k < a + n -> safe addr_c k) ->
  printing addr_c lit_null lit_0x format 0 ps (b, s).
Proof using Type.
  intros [H1 H2 H3 H4 H5 H6 H7 H8 H9 H10] Hf. split; try done.
  - split; [done|]. intros k Hk. apply (Hf _ _ _ H3). lia.
  - split; (split; [done|]); intros k Hk; [apply (Hf _ _ _ H5)|apply (Hf _ _ _ H7)]; cbn in *; lia.
  - eapply Forall_impl; [exact H8|]. intros [c|d]; [done|]. unfold argument_in, argument_at.
    destruct (d_conversion d); try done. destruct (u64 slot =? 0); [done|]. intros [Hc Hs]. split; [done|].
    intros k Hk. apply (Hf _ _ _ Hs). lia.
Qed.

(** Not among the [n] bytes from [str] on. *)
Definition apart (str n a k : Z) : Prop := a + k <= str \/ str + n <= a.

Lemma run_memory str size limit format ps args s :
  ready (memory s) (apart str limit) format ps -> stack_ok ps -> 0 <= limit ->
  limit = size \/ limit <= size /\ Z.of_nat (length (output ps)) <= limit ->
  mapped (memory s) str (Z.min limit (Z.of_nat (length (output ps)))) ->
  let t := take (Z.to_nat limit) (output ps) in
  with_local (PrintfBuffer str size 0 0) (vprintf_internal addr_c lit_null lit_0x stack format (slots ps ++ args)) s =
    Ok ((counted ps, PrintfBuffer str size (Z.of_nat (length t)) 0), with_memory (write str t (memory s)) s).
Proof using Type.
  intros Hr Hst Hl0 Hl Hm t. pose (SK := mem_sink (FW := FW) addr_c str size limit).
  assert (printing addr_c lit_null lit_0x format 0 ps (PrintfBuffer str size 0 0, s)) as Hp.
  { apply (ready_printing _ _ _ _ _ Hr). unfold apart, SK. cbn. lia. }
  destruct (prints_ok addr_c _ _ _ 0 (PrintfBuffer str size 0 0, s)
    (prints_vprintf addr_c lit_null lit_0x stack ps format args _ Hp Hst) ltac:(lia)) as (r & E & -> & _).
  { rewrite Z.add_0_r. split; cbn; [done|done|done|lia|lia|]. rewrite Z.add_0_r, Z.sub_0_r, Z.min_comm. done. }
  unfold with_local. rewrite E. unfold emit, SK, mem_sink, mem_emit, fitting. cbn. rewrite Z.sub_0_r. fold t.
  unfold pb_with_pos. cbn. by rewrite Z.add_0_r.
Qed.

(** Storing the terminator behind a text. *)
Lemma terminate str t (s : proc W) : is_Some (memory s !! (str + Z.of_nat (length t))) ->
  on_mem (store8 (str + Z.of_nat (length t)) 0) (with_memory (write str t (memory s)) s) =
    Ok (tt, with_memory (write str (t ++ [0]) (memory s)) s).
Proof using Type.
  intros Hm. unfold on_mem, store8. cbn. rewrite write_lookup_out by lia. destruct Hm as [x ->].
  by rewrite write_app.
Qed.

Lemma snprintf_ok str size format ps args s :
  0 < size < 2 ^ 64 -> mapped (memory s) str (Z.min size (Z.of_nat (length (output ps)) + 1)) ->
  ready (memory s) (apart str (size - 1)) format ps -> stack_ok ps ->
  snprintf addr_c lit_null lit_0x stack str size format (slots ps ++ args) s =
    Ok (counted ps, with_memory (write str (take (Z.to_nat (size - 1)) (output ps) ++ [0]) (memory s)) s).
Proof using Type.
  intros Hsz Hm Hr Hst. unfold snprintf. rewrite wrap_small by lia. unfold bind at 1.
  rewrite (run_memory str (size - 1) (size - 1)); [|done|done|lia|by left|apply (mapped_le _ _ _ _ _ Hm); lia].
  set (t := take (Z.to_nat (size - 1)) (output ps)).
  assert (Z.of_nat (length t) = Z.min (size - 1) (Z.of_nat (length (output ps)))) as Et.
  { unfold t. rewrite length_take. lia. }
  cbn [pb_pos]. rewrite (proj2 (Z.ltb_lt 0 size)), (proj2 (Z.ltb_lt (Z.of_nat (length t)) size)) by lia. cbn [andb].
  unfold bind. rewrite terminate; [done|]. apply Hm. lia.
Qed.

Lemma snprintf_overruns str size format ps d qs args s :
  0 < size < 2 ^ 64 -> mapped (memory s) str size ->
  ready (memory s) (apart str (size - 1)) format (ps ++ Dir d :: qs) ->
  ~ Exists prints_number ps -> prints_number (Dir d) -> 0 ∉ stack -> Z.of_nat (length stack) < 2 ^ 64 ->
  snprintf addr_c lit_null lit_0x stack str size format (slots (ps ++ Dir d :: qs) ++ args) s = Fault.
Proof using Type.
  intros Hsz Hm Hr Hno Hnum H0 Hl. unfold snprintf, bind at 1, with_local. rewrite wrap_small by lia.
  pose (SK := mem_sink (FW := FW) addr_c str (size - 1) (size - 1)).
  erewrite (vprintf_overruns addr_c lit_null lit_0x stack (SK := SK)); [done| |done|done|done|done|].
  - apply (ready_printing _ _ _ _ _ Hr). unfold apart, SK. cbn. lia.
  - split; cbn; [done|done|done|lia|by left|]. apply (mapped_le _ _ _ _ _ Hm); lia.
Qed.

Lemma first_number ps : Exists prints_number ps ->
  exists qs d rs, ps = qs ++ Dir d :: rs /\ ~ Exists prints_number qs /\ prints_number (Dir d).
Proof using Type.
  induction ps as [|p ps IH]; [by rewrite Exists_nil|]. intros H. destruct (decide (prints_number p)) as [Hp|Hp].
  - destruct p as [c|d]; [done|]. exists [], d, ps. split; [done|]. split; [inversion 1|done].
  - apply Exists_cons in H as [H|H]; [done|]. destruct (IH H) as (qs & d & rs & -> & Hqs & Hd).
    exists (p :: qs), d, rs. split; [done|]. rewrite Exists_cons. tauto.
Qed.


(** [sprintf] writes the whole output and a terminator. *)
Theorem sprintf_correct str format ps args s :
  Z.of_nat (length (output ps)) < SIZE_MAX -> mapped (memory s) str (Z.of_nat (length (output ps)) + 1) ->
  ready (memory s) (apart str (Z.of_nat (length (output ps)))) format ps -> stack_ok ps ->
  sprintf addr_c lit_null lit_0x stack str format (slots ps ++ args) s =
    Ok (counted ps, with_memory (write str (output ps ++ [0]) (memory s)) s).
Proof using Type.
  intros Hl Hm Hr Hst. unfold sprintf, bind at 1.
  rewrite (run_memory str SIZE_MAX (Z.of_nat (length (output ps)))); [|done|done|lia|right; lia|apply (mapped_le _ _ _ _ _ Hm); lia].
  rewrite take_ge by lia. cbn [pb_pos pb_size]. rewrite (proj2 (Z.ltb_lt _ _)) by done.
  unfold bind. rewrite terminate; [done|]. apply Hm. lia.
Qed.

(** Before anything is opened [stdout] is null: [printf] prints nothing. *)
Theorem printf_unopened format ps args s :
  ready (memory s) (apart 0 0) format ps -> stack_ok ps ->
  printf addr_c lit_null lit_0x stack 0 format (slots ps ++ args) s = Ok (counted ps, s).
Proof using Type.
  intros Hr Hst. unfold printf, bind. rewrite (run_memory 0 0 0); [|done|done|done|by left|intros k Hk; lia].
  change (Z.to_nat 0) with 0%nat. rewrite take_0. cbn [write ret]. unfold ret. by rewrite with_memory_id.
Qed.

(** [fprintf] to an open stream sends it the output; so does [printf] to an
    open [stdout]. *)
Theorem fprintf_correct {FL : FWriteLaws addr_c} stream format ps args s :
  stream <> 0 -> writable addr_c stream s -> is_Some (memory s !! addr_c) ->
  ready (memory s) (apart addr_c 1) format ps -> stack_ok ps ->
  fprintf addr_c lit_null lit_0x stack stream format (slots ps ++ args) s =
    Ok (counted ps, Proc (spill addr_c (output ps) (memory s)) (errno_value s) (append addr_c stream (output ps) (world s))).
Proof using Type.
  intros Hs Hw Hc Hr Hst. pose (SK := stream_sink addr_c stream Hs).
  assert (printing addr_c lit_null lit_0x format 0 ps (PrintfBuffer 0 0 0 stream, s)) as Hp.
  { apply (ready_printing _ _ _ _ _ Hr). unfold apart, SK. cbn. lia. }
  destruct (prints_ok addr_c _ _ _ 0 (PrintfBuffer 0 0 0 stream, s)
    (prints_vprintf addr_c lit_null lit_0x stack ps format args _ Hp Hst) ltac:(lia)) as (r & E & -> & _).
  { by split. }
  unfold fprintf, bind, with_local. by rewrite E.
Qed.

Lemma fprintf_overruns {FL : FWriteLaws addr_c} stream format ps args s :
  stream <> 0 -> writable addr_c stream s -> is_Some (memory s !! addr_c) ->
  ready (memory s) (apart addr_c 1) format ps -> Exists prints_number ps -> 0 ∉ stack -> Z.of_nat (length stack) < 2 ^ 64 ->
  fprintf addr_c lit_null lit_0x stack stream format (slots ps ++ args) s = Fault.
Proof using Type.
  intros Hs Hw Hc Hr Hn H0 Hl. pose (SK := stream_sink addr_c stream Hs).
  destruct (first_number ps Hn) as (qs & d & rs & -> & Hqs & Hd).
  unfold fprintf, bind, with_local.
  erewrite (vprintf_overruns addr_c lit_null lit_0x stack (SK := SK)); [done| |done|done|done|done|by split].
  apply (ready_printing _ _ _ _ _ Hr). unfold apart, SK. cbn. lia.
Qed.

Lemma printf_fprintf stdout format args s :
  printf addr_c lit_null lit_0x stack stdout format args s = fprintf addr_c lit_null lit_0x stack stdout format args s.
Proof using Type. done. Qed.

(** When nothing readable that holds a zero lies behind the array of
    [format_int], as by the rules of C, every call with a number faults. *)
Theorem snprintf_number_faults str size format ps d qs args s :
  0 < size < 2 ^ 64 -> mapped (memory s) str size ->
  ready (memory s) (apart str (size - 1)) format (ps ++ Dir d :: qs) ->
  ~ Exists prints_number ps -> prints_number (Dir d) -> 0 ∉ stack -> Z.of_nat (length stack) < 2 ^ 64 ->
  snprintf addr_c lit_null lit_0x stack str size format (slots (ps ++ Dir d :: qs) ++ args) s = Fault.
Proof using Type. apply snprintf_overruns. Qed.

(** A percent sign at the end of the format: the turn prints it with the
    terminator, and leaves the format behind the terminator. *)
Lemma trailing_turn {SK : Sink addr_c} format count args s :
  str_at addr_c s format [37] -> room addr_c 2 s -> 0 <= count < 2 ^ 30 ->
  vprintf_turn addr_c lit_null lit_0x stack (format, count, args) s =
    Ok (Next (format + 2, count + 2, args), emit addr_c [37; 0] s).
Proof using Type.
  intros Hs Hr Hc. unfold vprintf_turn. erewrite bind_ok; [|exact (read_char _ _ _ _ _ Hs)].
  change (s8 37) with 37. cbn [Z.eqb Pos.eqb]. apply str_at_tl in Hs. pose proof (read_end _ _ _ Hs) as Hend.
  unfold vprintf_directive.
  assert (parse_flags (format + 1) s = Ok ((format + 1, 0), s)) as Ef.
  { apply wp_det. unfold parse_flags. apply wp_loop_n with (n := 0) (I := fun _ x s' => x = (format + 1, 0) /\ s' = s); [|done|done].
    intros n [x y] s' [[= -> ->] ->]. unfold wp. by erewrite bind_ok by exact Hend. }
  assert (parse_number (format + 1) s = Ok ((format + 1, 0), s)) as En.
  { apply wp_det. unfold parse_number. apply wp_loop_n with (n := 0) (I := fun _ x s' => x = (format + 1, 0) /\ s' = s); [|done|done].
    intros n [x y] s' [[= -> ->] ->]. unfold wp. by erewrite bind_ok by exact Hend. }
  unfold parse_width, parse_precision, parse_length, bind, ret. rewrite Ef, Hend. cbn [Z.eqb Pos.eqb]. rewrite En, Hend.
  cbn [Z.eqb Pos.eqb]. rewrite Hend. cbn [Z.eqb Pos.eqb]. rewrite Hend. unfold convert, bind, ret. cbn [Z.eqb Pos.eqb orb].
  rewrite (putc_emits addr_c 37 s) by (eapply room_le; [|exact Hr]; lia).
  rewrite (putc_emits addr_c 0) by (apply room_emit; [lia|done]).
  rewrite <- emit_app, swrap_small by lia. by replace (format + 1 + 1) with (format + 2) by lia.
Qed.

(** A format that ends in a single percent sign: the loop goes on behind the
    terminator, and faults where nothing is mapped there. *)
Theorem trailing_percent_overruns str size format args s :
  2 < size < 2 ^ 64 -> mapped (memory s) str size -> cstr (memory s) format [37] ->
  apart str (size - 1) format 2 -> memory s !! (format + 2) = None ->
  snprintf addr_c lit_null lit_0x stack str size format args s = Fault.
Proof using Type.
  intros Hsz Hm Hf Ha Hn. unfold snprintf, bind at 1, with_local. rewrite wrap_small by lia.
  pose (SK := mem_sink (FW := FW) addr_c str (size - 1) (size - 1)). set (b := PrintfBuffer str (size - 1) 0 0).
  assert (str_at addr_c (b, s) format [37]) as Hs.
  { split; [done|]. unfold apart in Ha. unfold SK. cbn. lia. }
  assert (room addr_c 2 (b, s)) as Hr.
  { split; cbn; [done|done|done|lia|by left|]. apply (mapped_le _ _ _ _ _ Hm); lia. }
  assert (vprintf_internal addr_c lit_null lit_0x stack format args (b, s) = Fault) as ->; [|done].
  unfold vprintf_internal.
  apply loop_faults with (m := fun '(a, _, _) _ => format + 2 - a)
    (I := fun x s' => x = (format, 0, args) /\ s' = (b, s) \/ x = (format + 2, 2, args) /\ memory s'.2 !! (format + 2) = None);
    [|by left|lia].
  intros x s' [[-> ->]|[-> Hu]].
  - rewrite trailing_turn by (done || lia). cbn [fturn]. split; [|lia]. right. split; [done|].
    unfold emit, SK, mem_sink, mem_emit. cbn [fst snd pb_pos b]. rewrite bool_decide_eq_true_2 by done. cbn [snd with_memory memory].
    pose proof (fitting_length (size - 1) 0 [37; 0]) as Hlen. cbn [length] in Hlen. rewrite write_lookup_out; [done|].
    destruct (decide (str <= format + 2 < str + size)) as [Hin|]; [|lia].
    destruct (Hm _ Hin) as [y Hy]. by rewrite Hn in Hy.
  - unfold vprintf_turn, bind, mem_op, outside, on_mem, load_char, load8, getf. destruct s' as [b' st']. cbn in Hu. unfold bind.
    by rewrite Hu.
Qed.
End Main.

(** ** Printing and reading numbers *)

Lemma digit_char_value d : 0 <= d < 10 ->
  Strtol.is_digit 10 (digit_char d) = true /\ digit_value (digit_char d) = d.
Proof.
  intros Hd. assert (d = 0 \/ d = 1 \/ d = 2 \/ d = 3 \/ d = 4 \/ d = 5 \/ d = 6 \/ d = 7 \/ d = 8 \/ d = 9) as H by lia.
  by destruct_or! H; subst.
Qed.

Lemma value_digits ds : Forall (fun d => 0 <= d < 10) ds -> value 10 (map digit_char ds) = digits_value 10 ds.
Proof.
  intros H. unfold value, digits_value. generalize 0. induction H as [|d ds Hd Hds IH]; intros v; [done|].
  cbn. rewrite (proj2 (digit_char_value d Hd)). apply IH.
Qed.

(** The directive [%ld] for the number [v]. *)
Definition long_directive (v : Z) : piece := Dir (Directive [] (Digits []) None L_l (Signed 100 (u64 v))).

Lemma long_value v : - 2 ^ 63 <= v < 2 ^ 63 -> s64 (u64 v) = v.
Proof.
  intros Hv. rewrite <- (swrap_small 64 v) at 2 by lia. unfold swrap, wrap. f_equal. apply Zplus_mod_idemp_l.
Qed.

Lemma long_output stack v : - 2 ^ 63 < v < 2 ^ 63 ->
  output stack [long_directive v] = ((if v <? 0 then [45] else []) ++ number_text 10 (Z.abs v)) ++ before_zero stack.
Proof.
  intros Hv. unfold output. cbn [mbind list_bind long_directive piece_output conversion_output d_conversion length_bits d_length].
  rewrite app_nil_r. f_equal. rewrite long_value by lia. unfold int_text, pad, sign_text. cbn.
  rewrite Z2Nat.nonpos by lia. rewrite Z2Nat.nonpos by lia. by destruct (v <? 0).
Qed.

Lemma number_numeral v rest : - 2 ^ 63 < v < 2 ^ 63 ->
  (forall b r, rest = b :: r -> Strtol.is_digit 10 b = false) ->
  Strtol.numeral 10 10 [] (if v <? 0 then [45] else []) [] (number_text 10 (Z.abs v)) rest /\
  value 10 (number_text 10 (Z.abs v)) = Z.abs v.
Proof.
  intros Hv Hrest. unfold number_text. destruct (Z.eqb_spec (Z.abs v) 0) as [E|E].
  - rewrite E. split; [|done]. split; [done|destruct (v <? 0); auto|right; split; [done|]; split; [done|lia]| |done|done|lia].
    by repeat constructor.
  - destruct (to_digits_numeral 63 10 ltac:(lia) (Z.abs v) ltac:(lia)) as [Hd Hval _]. split.
    + split; [done|destruct (v <? 0); auto|right; split; [done|]; split; [done|lia]| | |done|lia].
      * apply Forall_map. eapply Forall_impl; [exact Hd|]. intros d Hdd. by apply digit_char_value.
      * intros Hn. apply map_eq_nil in Hn. by apply (to_digits_nonzero 63 10 (Z.abs v)) in Hn; [|lia|].
    + by rewrite value_digits.
Qed.

Lemma number_text_short v : - 2 ^ 63 < v < 2 ^ 63 -> (length (number_text 10 (Z.abs v)) <= 19)%nat.
Proof.
  intros Hv. unfold number_text. destruct (Z.abs v =? 0); [cbn; lia|]. rewrite length_map.
  apply to_digits_short; [lia|]. change (10 ^ Z.of_nat 19) with 10000000000000000000. lia.
Qed.

Lemma before_zero_chars l : Forall (fun c => - 128 <= c < 128) l -> Forall cchar (before_zero l).
Proof.
  induction 1 as [|c l Hc _ IH]; cbn; [done|]. destruct (Z.eqb_spec c 0); [done|]. constructor; [|done].
  assert (u8 c = u8 (c + 256)) as E by (unfold wrap; rewrite <- (Z_mod_plus_full c 1 (2 ^ 8)); f_equal; lia).
  destruct (Z.le_gt_cases 0 c); [rewrite wrap_small by lia|rewrite E, wrap_small by lia]; unfold cchar; lia.
Qed.

Lemma before_zero_length l : (length (before_zero l) <= length l)%nat.
Proof. induction l as [|c l IH]; cbn; [done|]. destruct (c =? 0); cbn; lia. Qed.

Lemma junk_no_digit n l b r : Strtol.is_digit 10 (hd 0 l) = false ->
  take n (before_zero l) = b :: r -> Strtol.is_digit 10 b = false.
Proof.
  destruct l as [|c l]; cbn; [by destruct n|]. intros Hd. destruct (c =? 0); [by destruct n|].
  destruct n as [|n]; [done|]. cbn. intros [= <- _]. revert Hd. unfold Strtol.is_digit.
  assert (s8 (u8 c) = s8 c) as ->; [|done]. unfold swrap, wrap. f_equal. apply Zplus_mod_idemp_l.
Qed.

Section Roundtrip.
Context {W : Type} {FW : FWrite W}.
Context (addr_c lit_null lit_0x : Z) (stack : list Z).

(** C27: A [long] other than [LONG_MIN], printed with [%ld] into a buffer of
    21 bytes or more, is read back by [strtol].  The condition is that a zero
    lies behind the array of [format_int], and no digit in front of it. *)
Theorem snprintf_strtol str size format v s :
  0 ∈ stack -> Z.of_nat (length stack) < 2 ^ 64 -> Forall (fun c => - 128 <= c < 128) stack ->
  Strtol.is_digit 10 (hd 0 stack) = false ->
  LONG_MIN < v <= LONG_MAX -> 21 <= size < 2 ^ 64 -> mapped (memory s) str (Z.min size (21 + Z.of_nat (length stack))) ->
  ready lit_null lit_0x (memory s) (apart str (size - 1)) format [long_directive v] ->
  exists s', snprintf addr_c lit_null lit_0x stack str size format [u64 v] s = Ok (1, s') /\
    strtol str 0 10 (memory s') = Ok (v, memory s').
Proof using Type.
  intros H0 Hsl Hsc Hnd Hv Hsz Hm Hr. unfold LONG_MIN, LONG_MAX in Hv.
  assert (- 2 ^ 63 < v < 2 ^ 63) as Hv' by lia. clear Hv. rename Hv' into Hv.
  pose proof (number_text_short v Hv) as Hlen. pose proof (before_zero_length stack) as Hbl.
  set (sg := if v <? 0 then [45] else []) in *. assert (length sg <= 1)%nat by (unfold sg; destruct (v <? 0); cbn; lia).
  pose proof (snprintf_ok addr_c lit_null lit_0x stack str size format [long_directive v] [] s) as Hs.
  rewrite long_output in Hs by done. fold sg in Hs. set (t := sg ++ number_text 10 (Z.abs v)) in *.
  assert (length t <= 20)%nat by (unfold t; rewrite length_app; lia).
  set (junk := take (Z.to_nat (size - 1) - length t) (before_zero stack)).
  rewrite take_app, take_ge in Hs by lia. fold junk in Hs.
  assert (length junk <= length stack)%nat by (unfold junk; rewrite length_take; lia).
  destruct (number_numeral v junk Hv) as [Hnum Hval]; [intros b r Eb; by eapply (junk_no_digit _ stack b r)|].
  eexists. split.
  - apply Hs; [lia|rewrite length_app; apply (mapped_le _ _ _ _ _ Hm); lia|done|done].
  - cbn [memory with_memory]. assert (Forall cchar (t ++ junk)) as Ht.
    { rewrite Forall_app. split; [|by apply Forall_take, before_zero_chars].
      apply Forall_app. split; [unfold sg, cchar; destruct (v <? 0); repeat constructor; lia|].
      pose proof (number_text_printable 10 (Z.abs v) ltac:(lia) ltac:(lia)) as Hp.
      eapply Forall_impl; [exact Hp|]. unfold cchar. cbn. lia. }
    rewrite (strtol_correct str 0 10 10 [] sg [] (number_text 10 (Z.abs v)) junk); cbn [app]; rewrite ?app_assoc;
      [|done|by apply cstr_written|fold t; unfold junk; rewrite length_app, length_take; lia|by left].
    rewrite Hval. unfold signed_value, LONG_MIN, LONG_MAX.
    assert ((if bool_decide (sg = [45]) then - Z.abs v else Z.abs v) = v) as ->; [|f_equal; f_equal; lia].
    unfold sg. destruct (Z.ltb_spec v 0); [rewrite bool_decide_eq_true_2 by done|rewrite bool_decide_eq_false_2 by done]; lia.
Qed.
End Roundtrip.

(** ** Examples *)

(** No streams. *)
#[local] Instance no_streams : FWrite unit := fun _ _ _ _ => fault.

(** "%3s=%+d%%" *)
Definition demo_pieces : list piece :=
  [Dir (Directive [] (Digits [3]) None L_none (String 8224 [97; 98])); Plain 61;
   Dir (Directive [43] (Digits []) None L_none (Signed 100 42)); Dir (Directive [] (Digits []) None L_none Percent)].

Definition demo_memory (format : text) : mem :=
  write 4096 (format ++ [0]) (write 8192 (null_text ++ replicate 8 0) (write 8208 [48; 120; 0]
    (write 8224 ([97; 98] ++ replicate 8 0) (write 12288 (replicate 32 0) ∅)))).

Definition demo_proc (ps : list piece) : proc unit := Proc (demo_memory (render ps)) 0 tt.

Lemma demo_pieces_ok : Forall piece_ok demo_pieces.
Proof.
  assert ((45 : Z) ∉ ([43] : list Z)) as Hleft by (rewrite elem_of_cons, elem_of_nil; lia).
  repeat constructor; cbn; unfold cchar; try lia; done || apply list_elem_of_here.
Qed.

Lemma long_piece_ok v : - 2 ^ 63 < v < 2 ^ 63 -> piece_ok (long_directive v).
Proof.
  intros Hv. split; [constructor|]. split; [repeat constructor|]. split; [done|]. split; [apply list_elem_of_here|].
  split; [apply not_elem_of_nil|]. split; [done|]. cbn. by rewrite long_value by lia.
Qed.

Lemma demo_arguments free : free 8224 10 ->
  Forall (argument_in (memory (demo_proc demo_pieces)) free) demo_pieces.
Proof.
  intros Hf. unfold demo_pieces at 2. rewrite !Forall_cons, Forall_nil. cbn [argument_in d_conversion].
  change (u64 8224 =? 0) with false. change (u64 8224) with 8224.
  split; [split; [apply has_cstr_padded; by vm_compute|exact Hf]|done].
Qed.

Lemma demo_ready size : 1 <= size <= 32 ->
  ready 8192 8208 (memory (demo_proc demo_pieces)) (apart 12288 (size - 1)) 4096 demo_pieces.
Proof.
  intros Hs. split; [apply demo_pieces_ok|apply has_cstr; by vm_compute|left; by vm_compute|apply has_cstr_padded; by vm_compute|
    left; done|apply has_cstr; by vm_compute|left; done|apply demo_arguments; left; done|by vm_compute|by vm_compute].
Qed.

Lemma demo_long_ready v : - 2 ^ 63 < v < 2 ^ 63 ->
  ready 8192 8208 (memory (demo_proc [long_directive v])) (apart 12288 31) 4096 [long_directive v].
Proof.
  intros Hv. assert (render [long_directive v] = [37; 108; 100]) as E by done.
  unfold demo_proc. rewrite E.
  split; [by repeat constructor; apply long_piece_ok|rewrite E; apply has_cstr; by vm_compute|rewrite E; left; by vm_compute|
    apply has_cstr_padded; by vm_compute|
    left; done|apply has_cstr; by vm_compute|left; done|by repeat constructor|by rewrite E|done].
Qed.

Lemma demo_stack_ok ps : stack_ok [58; 0; 7] ps.
Proof. intros _. split; [|by vm_compute]. rewrite !elem_of_cons. auto. Qed.


Lemma sprintf_correct_witness :
  sprintf 16384 8192 8208 [58; 0; 7] 12288 4096 (slots demo_pieces ++ []) (demo_proc demo_pieces) =
    Ok (5, with_memory (write 12288 [32; 97; 98; 61; 43; 52; 50; 58; 37; 0] (demo_memory (render demo_pieces))) (demo_proc demo_pieces)).
Proof.
  apply (sprintf_correct 16384 8192 8208 [58; 0; 7] 12288 4096 demo_pieces [] (demo_proc demo_pieces)).
  - by vm_compute.
  - apply (mapped_le _ 12288 32); [apply has_mapped; by vm_compute|lia|by vm_compute].
  - apply (demo_ready 10). lia.
  - apply demo_stack_ok.
Defined.

Lemma printf_unopened_witness :
  printf 16384 8192 8208 [58; 0; 7] 0 4096 (slots demo_pieces ++ []) (demo_proc demo_pieces) = Ok (5, demo_proc demo_pieces).
Proof.
  apply (printf_unopened 16384 8192 8208 [58; 0; 7] 4096 demo_pieces [] (demo_proc demo_pieces)).
    pose proof (demo_ready 1 ltac:(lia)) as [H1 H2 H3 H4 H5 H6 H7 H8 H9 H10].
    split; [done|done|right; done|done|right; done|done|right; done|apply demo_arguments; right; done|done|done].
  - apply demo_stack_ok.
Defined.

Lemma snprintf_number_faults_witness :
  snprintf 16384 8192 8208 [] 12288 32 4096 (slots demo_pieces ++ []) (demo_proc demo_pieces) = Fault.
Proof.
  apply (snprintf_number_faults 16384 8192 8208 [] 12288 32 4096 (take 2 demo_pieces)
    (Directive [43] (Digits []) None L_none (Signed 100 42)) (drop 3 demo_pieces) [] (demo_proc demo_pieces)).
  - lia.
  - apply has_mapped. by vm_compute.
  - apply (demo_ready 32). lia.
  - cbn. rewrite !Exists_cons, Exists_nil. cbn. tauto.
  - exact I.
  - apply not_elem_of_nil.
  - by vm_compute.
Defined.

Lemma snprintf_strtol_witness : exists s',
  snprintf 16384 8192 8208 [58; 0; 7] 12288 32 4096 [u64 (-42)] (demo_proc [long_directive (-42)]) = Ok (1, s') /\
  strtol 12288 0 10 (memory s') = Ok (-42, memory s').
Proof.
  apply (snprintf_strtol 16384 8192 8208 [58; 0; 7] 12288 32 4096 (-42) (demo_proc [long_directive (-42)])).
  - rewrite !elem_of_cons. auto.
  - by vm_compute.
  - repeat constructor; lia.
  - reflexivity.
  - unfold LONG_MIN, LONG_MAX. lia.
  - lia.
  - apply has_mapped. by vm_compute.
  - apply demo_long_ready. lia.
Defined.

Lemma trailing_percent_overruns_witness :
  snprintf 16384 8192 8208 [58; 0; 7] 12288 32 4096 [] (Proc (demo_memory [37]) 0 tt) = Fault.
Proof.
  apply (trailing_percent_overruns 16384 8192 8208 [58; 0; 7] 12288 32 4096 [] (Proc (demo_memory [37]) 0 tt)).
  - lia.
  - apply has_mapped. by vm_compute.
  - apply has_cstr. by vm_compute.
  - left. done.
  - by vm_compute.
Defined.
