(* ===== verification/Libcall.v ===== *)
(** * System call wrappers of the C library (libc/src/syscall/, errno.h, fcntl.h)

    [syscall_wrappers.c] makes a system call, stores the negated result in
    [errno] when it is negative and returns -1.  The calls themselves, which
    [syscall_asm.S] is to make, are the interface [RawCalls]: the functions
    [syscall_read] to [syscall_stat] that syscall.h declares, and the names
    the macro [syscall(SYS_fork)] expands to, [syscall_SYS_fork] and so on.
    They act on the memory of the process and the world behind it, and return
    a [long].  Local variables whose address is taken and string literals lie
    at parameters of the section; [sigemptyset], which signal.h declares and
    nothing defines, is a parameter, too. *)

From S2P Require Import Prelude CMem MemFns CStr Libc Printf.

(** ** The calls *)

Inductive scall : Type :=
  | syscall_read (fd buf count : Z)
  | syscall_write (fd buf count : Z)
  | syscall_open (pathname flags mode : Z)
  | syscall_close (fd : Z)
  | syscall_lseek (fd offset whence : Z)
  | syscall_stat (pathname statbuf : Z)
  | syscall_SYS_fcntl (fd cmd arg : Z)
  | syscall_SYS_ioctl (fd request arg : Z)
  | syscall_SYS_fork
  | syscall_SYS_execve (pathname argv envp : Z)
  | syscall_SYS_exit (status : Z)
  | syscall_SYS_waitpid (pid status options : Z)
  | syscall_SYS_getuid
  | syscall_SYS_getgid
  | syscall_SYS_setuid (uid : Z)
  | syscall_SYS_setgid (gid : Z)
  | syscall_SYS_mmap (addr length prot flags fd offset : Z)
  | syscall_SYS_munmap (addr length : Z)
  | syscall_SYS_brk (addr : Z)
  | syscall_SYS_mprotect (addr len prot : Z)
  | syscall_SYS_sigaction (signum act oldact : Z)
  | syscall_SYS_kill (pid signum : Z)
  | syscall_SYS_socket (domain type protocol : Z)
  | syscall_SYS_bind (sockfd addr addrlen : Z)
  | syscall_SYS_listen (sockfd backlog : Z)
  | syscall_SYS_accept (sockfd addr addrlen : Z)
  | syscall_SYS_connect (sockfd addr addrlen : Z)
  | syscall_SYS_send (sockfd buf len flags : Z)
  | syscall_SYS_recv (sockfd buf len flags : Z).

Class RawCalls (W : Type) : Type := raw : scall -> prog (mem * W) Z.

(** fcntl.h *)
Definition O_RDONLY : Z := 0x00000000.
Definition O_WRONLY : Z := 0x00000001.
Definition O_RDWR : Z := 0x00000002.
Definition O_CREAT : Z := 0x00000040.
Definition O_EXCL : Z := 0x00000080.
Definition O_TRUNC : Z := 0x00000200.
Definition O_APPEND : Z := 0x00000400.
Definition O_DIRECTORY : Z := 0x00010000.

Definition MAP_FAILED : Z := u64 (-1).
Definition SIG_ERR : Z := u64 (-1).

Section Calls.
Context {W : Type} {RC : RawCalls W}.

Definition syscall (c : scall) : prog (proc W) Z :=
  fun s => match raw c (memory s, world s) with
           | Ok (r, (m, w)) => Ok (r, Proc m (errno_value s) w)
           | Fault => Fault
           | Spin => Spin
           end.

(** errno.c: the address is the variable. *)
Definition set_errno (e : Z) : prog (proc W) unit := modify (with_errno (s32 e)).

(** The end of the wrappers: [errno = -result; return failure;] or the result
    converted to the type of the wrapper. *)
Definition checked (convert : Z -> Z) (failure result : Z) : prog (proc W) Z :=
  if result <? 0 then set_errno (- result) ;; ret failure else ret (convert result).

Definition int_result (result : Z) : prog (proc W) Z := checked s32 (-1) result.
Definition long_result (result : Z) : prog (proc W) Z := checked s64 (-1) result.

(** ** Files *)

Definition close (fd : Z) : prog (proc W) Z :=
  let* result := syscall (syscall_close fd) in int_result result.
Definition read (fd buf count : Z) : prog (proc W) Z :=
  let* result := syscall (syscall_read fd buf count) in long_result result.
Definition write (fd buf count : Z) : prog (proc W) Z :=
  let* result := syscall (syscall_write fd buf count) in long_result result.

(** [args] are the variable arguments. *)
Definition open (pathname flags : Z) (args : list Z) : prog (proc W) Z :=
  let* mode := (if negb (Z.land flags O_CREAT =? 0)
                then match args with slot :: _ => ret (s32 slot) | [] => fault end
                else ret 0) in
  let* result := syscall (syscall_open pathname flags mode) in int_result result.

Definition lseek (fd offset whence : Z) : prog (proc W) Z :=
  let* result := syscall (syscall_lseek fd offset whence) in long_result result.
Definition stat (pathname statbuf : Z) : prog (proc W) Z :=
  let* result := syscall (syscall_stat pathname statbuf) in int_result result.

(** The array [path] of [fstat] and the literal ["/proc/self/fd/%d"]; the
    other parameters are those of [snprintf]. *)
Definition fstat {FW : FWrite W} (addr_c lit_null lit_0x : Z) (stack : list Z) (path lit_fd fd statbuf : Z) :
    prog (proc W) Z :=
  snprintf addr_c lit_null lit_0x stack path 64 lit_fd [u64 fd] ;;
  stat path statbuf.

Definition fcntl (fd cmd : Z) (args : list Z) : prog (proc W) Z :=
  let* arg := match args with slot :: _ => ret (s64 slot) | [] => fault end in
  let* result := syscall (syscall_SYS_fcntl fd cmd arg) in int_result result.
Definition ioctl (fd request : Z) (args : list Z) : prog (proc W) Z :=
  let* arg := match args with slot :: _ => ret (s64 slot) | [] => fault end in
  let* result := syscall (syscall_SYS_ioctl fd request arg) in int_result result.

(** ** Processes *)

Definition fork : prog (proc W) Z :=
  let* result := syscall syscall_SYS_fork in int_result result.
Definition execve (pathname argv envp : Z) : prog (proc W) Z :=
  let* result := syscall (syscall_SYS_execve pathname argv envp) in int_result result.
Definition exit (status : Z) : prog (proc W) unit :=
  syscall (syscall_SYS_exit status) ;; ret tt.
Definition waitpid (pid status options : Z) : prog (proc W) Z :=
  let* result := syscall (syscall_SYS_waitpid pid status options) in int_result result.
Definition getpid : prog (proc W) Z := ret 1.
Definition getppid : prog (proc W) Z := ret 0.

(** [uid_t] and [gid_t] are unsigned. *)
Definition getuid : prog (proc W) Z :=
  let* result := syscall syscall_SYS_getuid in checked u32 (u32 (-1)) result.
Definition getgid : prog (proc W) Z :=
  let* result := syscall syscall_SYS_getgid in checked u32 (u32 (-1)) result.
Definition setuid (uid : Z) : prog (proc W) Z :=
  let* result := syscall (syscall_SYS_setuid uid) in int_result result.
Definition setgid (gid : Z) : prog (proc W) Z :=
  let* result := syscall (syscall_SYS_setgid gid) in int_result result.

(** ** Memory *)

Definition mmap (addr length prot flags fd offset : Z) : prog (proc W) Z :=
  let* result := syscall (syscall_SYS_mmap addr length prot flags fd offset) in
  checked u64 MAP_FAILED result.
Definition munmap (addr length : Z) : prog (proc W) Z :=
  let* result := syscall (syscall_SYS_munmap addr length) in int_result result.

Definition sbrk (increment : Z) : prog (proc W) Z :=
  let* result := syscall (syscall_SYS_brk 0) in
  if result <? 0 then set_errno (- result) ;; ret (u64 (-1))
  else
    let old_brk := u64 result in
    let new_brk := u64 (old_brk + increment) in
    let* result := syscall (syscall_SYS_brk new_brk) in
    if result <? 0 then set_errno (- result) ;; ret (u64 (-1))
    else ret old_brk.

Definition brk (addr : Z) : prog (proc W) Z :=
  let* result := syscall (syscall_SYS_brk addr) in int_result result.
Definition mprotect (addr len prot : Z) : prog (proc W) Z :=
  let* result := syscall (syscall_SYS_mprotect addr len prot) in int_result result.

(** ** Signals *)

Definition sigaction (signum act oldact : Z) : prog (proc W) Z :=
  let* result := syscall (syscall_SYS_sigaction signum act oldact) in int_result result.

(** The local structures of [signal] lie at [act] and [oldact]: the handler
    at offset 0, the mask at 16, the flags at 24. *)
Definition signal (sigemptyset : Z -> prog mem Z) (act oldact signum handler : Z) : prog (proc W) Z :=
  on_mem (store64 act handler) ;;
  on_mem (stores (act + 24) (le_bytes 4 0)) ;;
  on_mem (sigemptyset (act + 16)) ;;
  let* result := sigaction signum act oldact in
  if result <? 0 then ret SIG_ERR else on_mem (load64 oldact).

Definition kill (pid signum : Z) : prog (proc W) Z :=
  let* result := syscall (syscall_SYS_kill pid signum) in int_result result.

(** ** Sockets *)

Definition socket (domain type protocol : Z) : prog (proc W) Z :=
  let* result := syscall (syscall_SYS_socket domain type protocol) in int_result result.
Definition bind (sockfd addr addrlen : Z) : prog (proc W) Z :=
  let* result := syscall (syscall_SYS_bind sockfd addr addrlen) in int_result result.
Definition listen (sockfd backlog : Z) : prog (proc W) Z :=
  let* result := syscall (syscall_SYS_listen sockfd backlog) in int_result result.
Definition accept (sockfd addr addrlen : Z) : prog (proc W) Z :=
  let* result := syscall (syscall_SYS_accept sockfd addr addrlen) in int_result result.
Definition connect (sockfd addr addrlen : Z) : prog (proc W) Z :=
  let* result := syscall (syscall_SYS_connect sockfd addr addrlen) in int_result result.
Definition send (sockfd buf len flags : Z) : prog (proc W) Z :=
  let* result := syscall (syscall_SYS_send sockfd buf len flags) in long_result result.
Definition recv (sockfd buf len flags : Z) : prog (proc W) Z :=
  let* result := syscall (syscall_SYS_recv sockfd buf len flags) in long_result result.

(** ** Directories *)

Definition mkdir (pathname mode : Z) : prog (proc W) Z :=
  let* fd := open pathname (Z.lor (Z.lor O_CREAT O_EXCL) O_DIRECTORY) [mode] in
  if fd <? 0 then ret (-1)
  else close fd ;; ret 0.

Definition unlink (pathname : Z) : prog (proc W) Z := ret 0.
Definition rmdir (pathname : Z) : prog (proc W) Z := unlink pathname.
Definition rename (oldpath newpath : Z) : prog (proc W) Z := ret 0.
Definition chdir (path : Z) : prog (proc W) Z := ret 0.

(** [lit_slash]: the literal ["/"]. *)
Definition getcwd (lit_slash buf size : Z) : prog (proc W) Z :=
  if negb (buf =? 0) && (1 <? size) then on_mem (strcpy buf lit_slash) ;; ret buf
  else ret 0.

(** ** The environment *)

Definition getenv (name : Z) : prog (proc W) Z := ret 0.
Definition setenv (name value overwrite : Z) : prog (proc W) Z := ret 0.
Definition unsetenv (name : Z) : prog (proc W) Z := ret 0.
End Calls.
