(* ===== verification/LibcallProofs.v ===== *)
(** * The contract of the wrappers, and the program break

    [wrapper_correct] is the contract of the wrappers that make system calls:
    [next_call] says which calls a wrapper makes, [value_of] and [errno_after]
    what comes of their results; [fstat_correct], [fstat_faults] and
    [signal_correct] are the wrappers that work on the memory of the process
    before they make their call.  [BreakLaws] is what the break of a process has to obey, and [sbrk_ok]
    what [sbrk] then does: the C library's heap is built on it. *)

From S2P Require Import Libcall Libc Printf PrintfSpec PrintfProofs PrintfSinks PrintfMain Prelude CMem MemFns CStr.

(** ** The calls of a wrapper *)

(** The wrappers with their arguments. *)
Inductive wcall : Type :=
  | W_close (fd : Z)
  | W_read (fd buf count : Z)
  | W_write (fd buf count : Z)
  | W_lseek (fd offset whence : Z)
  | W_stat (pathname statbuf : Z)
  | W_fork
  | W_execve (pathname argv envp : Z)
  | W_waitpid (pid status options : Z)
  | W_getuid
  | W_getgid
  | W_setuid (uid : Z)
  | W_setgid (gid : Z)
  | W_mmap (addr length prot flags fd offset : Z)
  | W_munmap (addr length : Z)
  | W_brk (addr : Z)
  | W_mprotect (addr len prot : Z)
  | W_sigaction (signum act oldact : Z)
  | W_kill (pid signum : Z)
  | W_socket (domain type protocol : Z)
  | W_bind (sockfd addr addrlen : Z)
  | W_listen (sockfd backlog : Z)
  | W_accept (sockfd addr addrlen : Z)
  | W_connect (sockfd addr addrlen : Z)
  | W_send (sockfd buf len flags : Z)
  | W_recv (sockfd buf len flags : Z)
  | W_open (pathname flags mode : Z)
  | W_fcntl (fd cmd arg : Z)
  | W_ioctl (fd request arg : Z)
  | W_exit (status : Z)
  | W_sbrk (increment : Z)
  | W_mkdir (pathname mode : Z).

(** The first call of a wrapper; a wrapper with variable arguments has its
    mode or its third argument as the next slot. *)
Definition call_of (w : wcall) : scall :=
  match w with
  | W_close fd => syscall_close fd
  | W_read fd buf count => syscall_read fd buf count
  | W_write fd buf count => syscall_write fd buf count
  | W_lseek fd offset whence => syscall_lseek fd offset whence
  | W_stat pathname statbuf => syscall_stat pathname statbuf
  | W_fork => syscall_SYS_fork
  | W_execve pathname argv envp => syscall_SYS_execve pathname argv envp
  | W_waitpid pid status options => syscall_SYS_waitpid pid status options
  | W_getuid => syscall_SYS_getuid
  | W_getgid => syscall_SYS_getgid
  | W_setuid uid => syscall_SYS_setuid uid
  | W_setgid gid => syscall_SYS_setgid gid
  | W_mmap addr length prot flags fd offset => syscall_SYS_mmap addr length prot flags fd offset
  | W_munmap addr length => syscall_SYS_munmap addr length
  | W_brk addr => syscall_SYS_brk addr
  | W_mprotect addr len prot => syscall_SYS_mprotect addr len prot
  | W_sigaction signum act oldact => syscall_SYS_sigaction signum act oldact
  | W_kill pid signum => syscall_SYS_kill pid signum
  | W_socket domain type protocol => syscall_SYS_socket domain type protocol
  | W_bind sockfd addr addrlen => syscall_SYS_bind sockfd addr addrlen
  | W_listen sockfd backlog => syscall_SYS_listen sockfd backlog
  | W_accept sockfd addr addrlen => syscall_SYS_accept sockfd addr addrlen
  | W_connect sockfd addr addrlen => syscall_SYS_connect sockfd addr addrlen
  | W_send sockfd buf len flags => syscall_SYS_send sockfd buf len flags
  | W_recv sockfd buf len flags => syscall_SYS_recv sockfd buf len flags
  | W_open pathname flags mode => syscall_open pathname flags (if negb (Z.land flags O_CREAT =? 0) then s32 mode else 0)
  | W_fcntl fd cmd arg => syscall_SYS_fcntl fd cmd (s64 arg)
  | W_ioctl fd request arg => syscall_SYS_ioctl fd request (s64 arg)
  | W_exit status => syscall_SYS_exit status
  | W_sbrk _ => syscall_SYS_brk 0
  | W_mkdir pathname mode => syscall_open pathname (Z.lor (Z.lor O_CREAT O_EXCL) O_DIRECTORY) (s32 mode)
  end.

(** The next call, after the results of the earlier ones: [sbrk] asks for the
    break and moves it, [mkdir] closes the descriptor it gets; all others
    make one call. *)
Definition next_call (w : wcall) (rs : list Z) : option scall :=
  match rs with
  | [] => Some (call_of w)
  | [r] => if r <? 0 then None else
           match w with
           | W_sbrk increment => Some (syscall_SYS_brk (u64 (r + increment)))
           | W_mkdir _ _ => Some (syscall_close r)
           | _ => None
           end
  | _ => None
  end.

(** The range of the C type a wrapper returns. *)
Inductive ctype : Type := C_int | C_long | C_unsigned | C_pointer.

Definition type_of (w : wcall) : ctype :=
  match w with
  | W_read _ _ _ | W_write _ _ _ | W_lseek _ _ _ | W_send _ _ _ _ | W_recv _ _ _ _ => C_long
  | W_getuid | W_getgid => C_unsigned
  | W_mmap _ _ _ _ _ _ | W_sbrk _ => C_pointer
  | _ => C_int
  end.

Definition fits (t : ctype) (r : Z) : Prop :=
  match t with
  | C_int => r < 2 ^ 31
  | C_long | C_pointer => r < 2 ^ 63
  | C_unsigned => r < 2 ^ 32
  end.

(** -1 in the type. *)
Definition failure (t : ctype) : Z :=
  match t with
  | C_int | C_long => -1
  | C_unsigned => 2 ^ 32 - 1
  | C_pointer => 2 ^ 64 - 1
  end.

(** What a wrapper returns for the results of its calls: the first one, or -1
    in its type when one failed.  [mkdir] returns 0 whether the descriptor
    could be closed or not, and [exit] returns nothing. *)
Definition value_of (w : wcall) (rs : list Z) : Z :=
  match w, rs with
  | W_exit _, _ => 0
  | W_mkdir _ _, r :: _ => if r <? 0 then -1 else 0
  | _, r :: rs => if existsb (fun r => r <? 0) (r :: rs) then failure (type_of w) else r
  | _, [] => 0
  end.

(** [errno] has the number of the last error; [exit] does not look. *)
Definition errno_after (w : wcall) (e : Z) (rs : list Z) : Z :=
  match w with
  | W_exit _ => e
  | _ => foldl (fun e r => if r <? 0 then - r else e) e rs
  end.

Section Contract.
Context {W : Type} {RC : RawCalls W}.

(** The calls of [w] after the results [rs], from memory and world [x] on,
    give the results [rs'] and leave [y]. *)
Inductive conversation (w : wcall) : list Z -> mem * W -> list Z -> mem * W -> Prop :=
  | conversation_ends rs x : next_call w rs = None -> conversation w rs x [] x
  | conversation_goes_on rs x c r y rs' z :
      next_call w rs = Some c -> raw c x = Ok (r, y) -> conversation w (rs ++ [r]) y rs' z ->
      conversation w rs x (r :: rs') z.

Definition run (w : wcall) : prog (proc W) Z :=
  match w with
  | W_close fd => Libcall.close fd
  | W_read fd buf count => Libcall.read fd buf count
  | W_write fd buf count => Libcall.write fd buf count
  | W_lseek fd offset whence => Libcall.lseek fd offset whence
  | W_stat pathname statbuf => Libcall.stat pathname statbuf
  | W_fork => Libcall.fork
  | W_execve pathname argv envp => Libcall.execve pathname argv envp
  | W_waitpid pid status options => Libcall.waitpid pid status options
  | W_getuid => Libcall.getuid
  | W_getgid => Libcall.getgid
  | W_setuid uid => Libcall.setuid uid
  | W_setgid gid => Libcall.setgid gid
  | W_mmap addr length prot flags fd offset => Libcall.mmap addr length prot flags fd offset
  | W_munmap addr length => Libcall.munmap addr length
  | W_brk addr => Libcall.brk addr
  | W_mprotect addr len prot => Libcall.mprotect addr len prot
  | W_sigaction signum act oldact => Libcall.sigaction signum act oldact
  | W_kill pid signum => Libcall.kill pid signum
  | W_socket domain type protocol => Libcall.socket domain type protocol
  | W_bind sockfd addr addrlen => Libcall.bind sockfd addr addrlen
  | W_listen sockfd backlog => Libcall.listen sockfd backlog
  | W_accept sockfd addr addrlen => Libcall.accept sockfd addr addrlen
  | W_connect sockfd addr addrlen => Libcall.connect sockfd addr addrlen
  | W_send sockfd buf len flags => Libcall.send sockfd buf len flags
  | W_recv sockfd buf len flags => Libcall.recv sockfd buf len flags
  | W_open pathname flags mode => Libcall.open pathname flags [mode]
  | W_fcntl fd cmd arg => Libcall.fcntl fd cmd [arg]
  | W_ioctl fd request arg => Libcall.ioctl fd request [arg]
  | W_exit status => Libcall.exit status ;; ret 0
  | W_sbrk increment => Libcall.sbrk increment
  | W_mkdir pathname mode => Libcall.mkdir pathname mode
  end.

(** The wrappers that make one call. *)
Definition single (w : wcall) : bool := match w with W_exit _ | W_sbrk _ | W_mkdir _ _ => false | _ => true end.

Lemma single_correct w s r m x :
  single w = true -> raw (call_of w) (memory s, world s) = Ok (r, (m, x)) -> - 2 ^ 31 < r -> fits (type_of w) r ->
  run w s = if r <? 0 then Ok (failure (type_of w), Proc m (- r) x) else Ok (r, Proc m (errno_value s) x).
Proof using Type.
  intros Hw E Hlo Hfit. destruct w; try done; cbn [call_of type_of run fits failure] in *;
    unfold Libcall.close, Libcall.read, Libcall.write, lseek, stat, fork, execve, waitpid, getuid, getgid, setuid, setgid,
      mmap, munmap, brk, mprotect, sigaction, kill, socket, Libcall.bind, listen, accept, connect, send, recv, Libcall.open,
      fcntl, ioctl, int_result, long_result, checked, set_errno, bind, ret, modify, with_errno, MAP_FAILED;
    try (destruct (Z.land flags O_CREAT =? 0); cbn [negb] in E |- *); unfold syscall; rewrite E; cbn [memory errno_value world];
    (destruct (Z.ltb_spec r 0); [rewrite swrap_small by lia|rewrite ?swrap_small, ?wrap_small by lia]; done).
Qed.

Lemma open_run pathname flags mode s r m x :
  raw (call_of (W_open pathname flags mode)) (memory s, world s) = Ok (r, (m, x)) -> - 2 ^ 31 < r < 2 ^ 31 ->
  Libcall.open pathname flags [mode] s = if r <? 0 then Ok (-1, Proc m (- r) x) else Ok (r, Proc m (errno_value s) x).
Proof using Type. intros E Hr. by apply (single_correct (W_open pathname flags mode)); [..|lia|cbn; lia]. Qed.

Lemma close_run fd s r m x :
  raw (syscall_close fd) (memory s, world s) = Ok (r, (m, x)) -> - 2 ^ 31 < r < 2 ^ 31 ->
  Libcall.close fd s = if r <? 0 then Ok (-1, Proc m (- r) x) else Ok (r, Proc m (errno_value s) x).
Proof using Type. intros E Hr. by apply (single_correct (W_close fd)); [..|lia|cbn; lia]. Qed.

(** A conversation is one call, or two. *)
Lemma conversation_cases w x rs z : conversation w [] x rs z ->
  exists r y, raw (call_of w) x = Ok (r, y) /\
    (next_call w [r] = None /\ rs = [r] /\ z = y \/
     exists c r', next_call w [r] = Some c /\ raw c y = Ok (r', z) /\ rs = [r; r']).
Proof using Type.
  inversion 1 as [|? ? c r y rs' ? E1 E2 H']; subst; [done|]. injection E1 as <-. exists r, y. split; [done|].
  inversion H' as [? ? E3|? ? c' r' y' rs'' ? E3 E4 H'']; subst; [by left|]. right. exists c', r'.
  inversion H'' as [? ? E5|? ? ? ? ? ? ? E5]; subst; done.
Qed.

(** C24: A wrapper makes its calls ([next_call]) and no others.  Results that
    are not negative give the result of the wrapper, with [errno] as it was;
    of a negative one the number of the error goes to [errno], and -1 is
    returned, in the type of the wrapper.  [mkdir] succeeds though closing
    its descriptor fails, which only sets [errno], and [exit] ignores the
    result of its call.  These are the wrappers that make system calls, but
    for [fstat] and [signal] ([fstat_correct], [signal_correct]). *)
Theorem wrapper_correct w s rs m x :
  conversation w [] (memory s, world s) rs (m, x) -> Forall (fun r => - 2 ^ 31 < r /\ fits (type_of w) r) rs ->
  run w s = Ok (value_of w rs, Proc m (errno_after w (errno_value s) rs) x).
Proof using Type.
  intros H Hrs. destruct (conversation_cases _ _ _ _ H) as (r & [m1 x1] & E1 & Hnext).
  destruct (single w) eqn:Hw.
  - assert (rs = [r] /\ m1 = m /\ x1 = x) as (-> & -> & ->).
    { destruct Hnext as [(_ & -> & [= <- <-])|(c & r' & Hn & _)]; [done|]. cbn in Hn. destruct (r <? 0), w; done. }
    apply Forall_cons in Hrs as [[Hr Hfit] _]. rewrite (single_correct w s r m x Hw E1 Hr Hfit).
    destruct w; try done; cbn; by destruct (r <? 0).
  - destruct w as [| | | | | | | | | | | | | | | | | | | | | | | | | | | |status|increment|pathname mode]; try done;
      cbn [call_of next_call type_of fits] in *.
    + destruct Hnext as [(_ & -> & [= <- <-])|(c & r' & Hn & _)]; [|by destruct (r <? 0)].
      cbn. unfold Libcall.exit, syscall, bind, ret. by rewrite E1.
    + cbn [run]. unfold sbrk, syscall, checked, set_errno, bind, ret, modify, with_errno. rewrite E1. cbn [memory errno_value world].
      destruct Hnext as [(Hn & -> & [= <- <-])|(c & r' & Hn & E2 & ->)].
      * apply Forall_cons in Hrs as [[Hr Hfit] _]. destruct (Z.ltb_spec r 0); [|done]. cbn.
        rewrite (proj2 (Z.ltb_lt r 0)), swrap_small by lia. done.
      * apply Forall_cons in Hrs as [[Hr Hfit] Hrs]. apply Forall_cons in Hrs as [[Hr' Hfit'] _].
        destruct (Z.ltb_spec r 0); [done|]. injection Hn as <-. cbv zeta. rewrite (wrap_small 64 r) by lia. cbn [memory world]. rewrite E2. cbn.
        rewrite (proj2 (Z.ltb_ge r 0)) by lia. destruct (Z.ltb_spec r' 0); cbn; [by rewrite swrap_small by lia|done].
    + cbn [run]. unfold mkdir. destruct Hnext as [(Hn & -> & [= <- <-])|(c & r' & Hn & E2 & ->)].
      * apply Forall_cons in Hrs as [[Hr Hfit] _]. destruct (Z.ltb_spec r 0) as [Hneg|]; [|done].
        unfold bind at 1. rewrite (open_run _ _ _ _ _ _ _ E1) by lia. cbn. rewrite (proj2 (Z.ltb_lt r 0)) by lia. done.
      * apply Forall_cons in Hrs as [[Hr Hfit] Hrs]. apply Forall_cons in Hrs as [[Hr' Hfit'] _].
        destruct (Z.ltb_spec r 0) as [|Hpos]; [done|]. injection Hn as <-.
        unfold bind at 1. rewrite (open_run _ _ _ _ _ _ _ E1) by lia. rewrite (proj2 (Z.ltb_ge r 0)) by lia.
        rewrite (proj2 (Z.ltb_ge r 0)) by lia. unfold bind at 1.
        rewrite (close_run r (Proc m1 (errno_value s) x1) _ _ _ E2) by lia. cbn. rewrite (proj2 (Z.ltb_ge r 0)) by lia.
        by destruct (r' <? 0).
Qed.

Lemma run_mem {A} (p : prog mem A) a m s : p (memory s) = Ok (a, m) -> on_mem p s = Ok (a, with_memory (W := W) m s).
Proof using Type. unfold on_mem. by intros ->. Qed.

(** [signal] fills a structure with the handler, no flags and the mask that
    [sigemptyset] makes, and returns the old handler that the call puts in the
    other structure. *)
Theorem signal_correct sigemptyset act oldact signum handler s r0 m1 r m x :
  mapped (memory s) act 32 ->
  sigemptyset (act + 16) (CMem.write (act + 24) (le_bytes 4 0) (CMem.write act (le_bytes 8 handler) (memory s))) = Ok (r0, m1) ->
  raw (syscall_SYS_sigaction signum act oldact) (m1, world s) = Ok (r, (m, x)) -> - 2 ^ 31 < r < 2 ^ 31 ->
  signal sigemptyset act oldact signum handler s =
    if r <? 0 then Ok (SIG_ERR, Proc m (- r) x) else on_mem (load64 oldact) (Proc m (errno_value s) x).
Proof using Type.
  intros Hm E0 E Hr. unfold signal.
  rewrite (bind_ok _ tt _ s (with_memory (CMem.write act (le_bytes 8 handler) (memory s)) s)).
  2:{ apply run_mem, wp_det. apply wp_store_ptr; [apply (mapped_le _ act 32); [done|lia|lia]|]. by intros m' ->. }
  set (s1 := with_memory _ s).
  rewrite (bind_ok _ tt _ s1 (with_memory (CMem.write (act + 24) (le_bytes 4 0) (memory s1)) s1)).
  2:{ apply run_mem, wp_det. apply wp_stores; [apply write_mapped, (mapped_le _ act 32); [done|cbn; lia|cbn; lia]|by repeat constructor|done]. }
  set (s2 := with_memory _ s1).
  rewrite (bind_ok _ r0 _ s2 (with_memory m1 s2)) by (by apply run_mem).
  set (s3 := with_memory m1 s2). pose proof (single_correct (W_sigaction signum act oldact) s3 r m x eq_refl E) as Es.
  unfold bind. cbn [run] in Es. rewrite Es by (cbn; lia). cbn [type_of failure errno_value s3 s2 s1 with_memory].
  destruct (Z.ltb_spec r 0); cbn; [done|]. rewrite (proj2 (Z.ltb_ge r 0)) by lia. done.
Qed.
End Contract.

(** ** The program break *)

(** The kernel keeps a break: the end of the process's data.  [brk 0] tells
    it; [brk a] moves it up to [a], which maps the bytes in between and
    leaves all others alone, or refuses with the number of an error. *)
Class BreakLaws (W : Type) {RC : RawCalls W} : Type := {
  break_of : W -> Z;
  break_query : forall m w, 0 < break_of w < 2 ^ 47 -> raw (syscall_SYS_brk 0) (m, w) = Ok (break_of w, (m, w));
  break_move : forall m w a, 0 < break_of w <= a -> a < 2 ^ 47 ->
    (exists e, 0 < e < 4096 /\ raw (syscall_SYS_brk a) (m, w) = Ok (- e, (m, w))) \/
    (exists r m' w', 0 <= r /\ raw (syscall_SYS_brk a) (m, w) = Ok (r, (m', w')) /\ break_of w' = a /\
       (forall k, k < break_of w \/ a <= k -> m' !! k = m !! k) /\ mapped m' (break_of w) (a - break_of w));
}.

Section Break.
Context {W : Type} {RC : RawCalls W} {BL : BreakLaws W}.

(** What becomes of a process whose break grows by [n]. *)
Record grown (n : Z) (s s' : proc W) : Prop := {
  gr_break : break_of (world s') = break_of (world s) + n;
  gr_old : forall k, k < break_of (world s) \/ break_of (world s) + n <= k -> memory s' !! k = memory s !! k;
  gr_new : mapped (memory s') (break_of (world s)) n;
  gr_errno : errno_value s' = errno_value s;
}.

(** [sbrk] returns the old break and moves it, or fails with [errno] set and
    nothing else changed. *)
Lemma sbrk_ok n s :
  0 < break_of (world s) -> 0 <= n -> break_of (world s) + n < 2 ^ 47 ->
  (exists e, 0 < e < 4096 /\ sbrk n s = Ok (2 ^ 64 - 1, with_errno e s)) \/
  (exists s', sbrk n s = Ok (break_of (world s), s') /\ grown n s s').
Proof using Type.
  destruct s as [m e w]. cbn. intros Hb Hn Hlt. unfold sbrk, syscall, checked, set_errno, bind, ret, modify. cbn.
  rewrite break_query by lia. cbn. rewrite (proj2 (Z.ltb_ge (break_of w) 0)) by lia.
  rewrite (wrap_small 64 (break_of w)), (wrap_small 64 (break_of w + n)) by lia. cbn [memory errno_value world].
  destruct (break_move m w (break_of w + n)) as [(x & Hx & ->)|(r & m' & w' & Hr & -> & H1 & H2 & H3)]; [lia|lia|left|right].
  - exists x. split; [done|]. rewrite (proj2 (Z.ltb_lt (- x) 0)) by lia.
    rewrite Z.opp_involutive. unfold with_errno. cbn. rewrite swrap_small by lia. done.
  - rewrite (proj2 (Z.ltb_ge r 0)) by lia. eexists. split; [done|]. split; cbn; [done|done| |done].
    by replace (break_of w + n - break_of w) with n in H3 by lia.
Qed.

(** The kernel refuses no request below 2 ^ 46. *)
Definition plenty : Prop := forall m w a, 0 < break_of w <= a -> a < 2 ^ 46 ->
  exists r m' w', 0 <= r /\ raw (syscall_SYS_brk a) (m, w) = Ok (r, (m', w')).

Lemma sbrk_plenty n s :
  plenty -> 0 < break_of (world s) -> 0 < n -> break_of (world s) + n < 2 ^ 46 ->
  exists s', sbrk n s = Ok (break_of (world s), s') /\ grown n s s'.
Proof using Type.
  intros Hp Hb Hn Hlt. destruct (sbrk_ok n s) as [(e & He & E)|H]; [lia|lia|lia| |exact H]. exfalso.
  destruct s as [m e0 w]. cbn in *.
  destruct (Hp m w (break_of w + n)) as (r & m' & w' & Hr & E'); [lia|lia|].
  unfold sbrk, syscall, checked, set_errno, bind, ret, modify in E. cbn in E.
  rewrite break_query in E by lia. cbn in E. rewrite (proj2 (Z.ltb_ge (break_of w) 0)) in E by lia.
  rewrite (wrap_small 64 (break_of w)), (wrap_small 64 (break_of w + n)) in E by lia. cbn [memory errno_value world] in E.
  rewrite E' in E. rewrite (proj2 (Z.ltb_ge r 0)) in E by lia. injection E as E _ _ _. lia.
Qed.
End Break.

(** A world that keeps nothing but a break. *)
Definition fresh_bytes (a n : Z) (m : mem) : mem := CMem.write a (replicate (Z.to_nat n) 0) m.

#[export] Instance break_world : RawCalls Z := fun c '(m, b) =>
  match c with
  | syscall_SYS_brk a =>
      if a =? 0 then Ok (b, (m, b))
      else if (b <=? a) && (a <? 2 ^ 46) then Ok (0, (fresh_bytes b (a - b) m, a))
      else Ok (-12, (m, b))
  | _ => Ok (-38, (m, b))
  end.

#[export, refine] Instance break_world_laws : BreakLaws Z := {| break_of b := b |}.
Proof.
  - intros m b _. done.
  - intros m b a Ha _. cbn. rewrite (proj2 (Z.eqb_neq a 0)), (proj2 (Z.leb_le b a)) by lia. cbn.
    destruct (a <? 2 ^ 46); [right|left; by exists 12]. exists 0, (fresh_bytes b (a - b) m), a. split; [done|].
    split; [done|]. split; [done|]. unfold fresh_bytes. split.
    + intros k Hk. apply write_lookup_out. rewrite length_replicate. lia.
    + pose proof (zeros_mapped b (Z.to_nat (a - b)) m) as H. by rewrite Z2Nat.id in H by lia.
Defined.

(** ** [fstat] *)

Section Fstat.
Context {W : Type} {RC : RawCalls W} {FW : FWrite W}.
Context (addr_c lit_null lit_0x : Z) (stack : list Z).

(** "/proc/self/fd/%d" *)
Definition fstat_pieces (fd : Z) : list piece :=
  map Plain [47; 112; 114; 111; 99; 47; 115; 101; 108; 102; 47; 102; 100; 47] ++
  [Dir (Directive [] (Digits []) None L_none (Signed 100 (u64 fd)))].

(** With a zero behind the array of [format_int], [fstat] is [stat] of the
    name it formats in its array, cut to 63 characters. *)
Theorem fstat_correct path lit_fd fd statbuf s :
  stack_ok stack (fstat_pieces fd) -> mapped (memory s) path 64 ->
  ready lit_null lit_0x (memory s) (apart path 63) lit_fd (fstat_pieces fd) ->
  fstat addr_c lit_null lit_0x stack path lit_fd fd statbuf s =
    Libcall.stat path statbuf (with_memory (CMem.write path (take 63 (output stack (fstat_pieces fd)) ++ [0]) (memory s)) s).
Proof using Type.
  intros Hst Hm Hr. unfold fstat.
  pose proof (snprintf_ok addr_c lit_null lit_0x stack path 64 lit_fd (fstat_pieces fd) [] s ltac:(lia)) as H.
  change (slots (fstat_pieces fd) ++ []) with [u64 fd] in H. unfold bind. rewrite H; [done| |done|done].
  apply (mapped_le _ path 64); [done|lia|lia].
Qed.

(** [fstat] formats a number: by the rules of C it always faults. *)
Theorem fstat_faults path lit_fd fd statbuf s :
  0 ∉ stack -> Z.of_nat (length stack) < 2 ^ 64 -> mapped (memory s) path 64 ->
  ready lit_null lit_0x (memory s) (apart path 63) lit_fd (fstat_pieces fd) ->
  fstat addr_c lit_null lit_0x stack path lit_fd fd statbuf s = Fault.
Proof using Type.
  intros H0 Hl Hm Hr. unfold fstat, bind.
  pose proof (snprintf_overruns addr_c lit_null lit_0x stack path 64 lit_fd (take 14 (fstat_pieces fd))
    (Directive [] (Digits []) None L_none (Signed 100 (u64 fd))) [] [] s ltac:(lia) Hm Hr) as H.
  change (slots _ ++ []) with [u64 fd] in H. rewrite H; [done| |exact I|done|done].
  cbn. rewrite !Exists_cons, Exists_nil. cbn. tauto.
Qed.
End Fstat.

(** ** Witnesses *)

(** The break world refuses all calls but [brk]: 8 bytes more, and a seek. *)
Lemma wrapper_correct_witness :
  run (W_sbrk 8) (Proc ∅ 0 4096) = Ok (4096, Proc (fresh_bytes 4096 8 ∅) 0 4104) /\
  run (W_lseek 3 10 0) (Proc ∅ 0 4096) = Ok (-1, Proc ∅ 38 4096).
Proof.
  split.
  - apply (wrapper_correct (W_sbrk 8) (Proc ∅ 0 4096) [4096; 0] (fresh_bytes 4096 8 ∅) 4104).
    + eapply conversation_goes_on; [reflexivity|reflexivity|]. eapply conversation_goes_on; [reflexivity|reflexivity|].
      by apply conversation_ends.
    + repeat constructor; cbn; lia.
  - apply (wrapper_correct (W_lseek 3 10 0) (Proc ∅ 0 4096) [-38] ∅ 4096).
    + eapply conversation_goes_on; [reflexivity|reflexivity|]. by apply conversation_ends.
    + repeat constructor; cbn; lia.
Defined.
