(* ===== verification/Malloc.v ===== *)
(** * The heap of the C library (libc/src/stdlib/malloc.c)

    The static variables are the record [allocator]; the arena, the chunks,
    the free lists and the headers of large blocks lie in the memory of the
    process, which [sbrk] extends.  [realloc] and [free] call each other
    through the growing of a free list; [depth] bounds that recursion as the
    stack does, and running out of it is [Spin]. *)

From S2P Require Import Libcall Libc Prelude CMem MemFns.

Definition NUM_SIZE_CLASSES : Z := 32.
Definition MIN_SIZE_CLASS : Z := 8.
Definition MAX_SMALL_SIZE : Z := 4096.
Definition BLOCK_MAGIC : Z := 0xDEADBEEF.

(** [arena_t] is in memory: next at offset 0, chunks at 8, chunk_size at 16,
    used at 24. *)
Definition sizeof_arena : Z := 32.
(** [block_header_t]: size at 0, magic at 8. *)
Definition sizeof_block_header : Z := 16.

Record size_class : Type := SizeClass {
  sc_size : Z; sc_free_list : Z; sc_free_count : Z; sc_arena : Z;
}.

Record allocator : Type := Allocator {
  main_arena : Z; size_classes : list size_class; allocator_initialized : bool;
}.

(** The variables at the start of a program. *)
Definition static_allocator : allocator :=
  Allocator 0 (replicate (Z.to_nat NUM_SIZE_CLASSES) (SizeClass 0 0 0 0)) false.

Record heap (W : Type) : Type := Heap { statics : allocator; process : proc W }.
Arguments Heap {W} _ _.
Arguments statics {W} _.
Arguments process {W} _.

Section Malloc.
Context {W : Type} {RC : RawCalls W}.

Abbreviation alloc := (prog (heap W)).

Definition on_proc {A} (p : prog (proc W) A) : alloc A :=
  fun s => match p (process s) with
           | Ok (a, t) => Ok (a, Heap (statics s) t)
           | Fault => Fault
           | Spin => Spin
           end.

Definition load (a : Z) : alloc Z := on_proc (on_mem (load64 a)).
Definition store (a v : Z) : alloc unit := on_proc (on_mem (store64 a v)).

Definition upd_statics (f : allocator -> allocator) : alloc unit :=
  modify (fun s => Heap (f (statics s)) (process s)).
Definition get_class (i : Z) : alloc size_class := getf (fun s => size_classes (statics s) !! Z.to_nat i).
Definition set_class (i : Z) (sc : size_class) : alloc unit :=
  upd_statics (fun a => Allocator (main_arena a) (<[Z.to_nat i := sc]> (size_classes a)) (allocator_initialized a)).

Definition init_size_classes : alloc unit :=
  loop (fun '(i, size) =>
    if i <? NUM_SIZE_CLASSES then
      let* arena := gets (fun s => main_arena (statics s)) in
      set_class i (SizeClass size 0 0 arena) ;;
      ret (Next (i + 1, if size <? MAX_SMALL_SIZE then size * 2 else size + MAX_SMALL_SIZE))
    else ret (Done tt)) (0, MIN_SIZE_CLASS).

Definition init_allocator : alloc unit :=
  let* a := gets statics in
  if allocator_initialized a then ret tt
  else
    let* arena := on_proc (sbrk sizeof_arena) in
    upd_statics (fun a => Allocator arena (size_classes a) (allocator_initialized a)) ;;
    if arena =? u64 (-1) then ret tt
    else
      store arena 0 ;;
      store (arena + 8) 0 ;;
      store (arena + 16) 0 ;;
      store (arena + 24) 0 ;;
      init_size_classes ;;
      upd_statics (fun a => Allocator (main_arena a) (size_classes a) true).

Definition find_size_class (size : Z) : alloc Z :=
  loop (fun i =>
    if i <? NUM_SIZE_CLASSES then
      let* sc := get_class i in
      if size <=? sc_size sc then ret (Done i) else ret (Next (i + 1))
    else ret (Done (-1))) 0.

Definition alloc_from_size_class (class_idx : Z) : alloc Z :=
  let* sc := get_class class_idx in
  if negb (sc_free_list sc =? 0) && (0 <? sc_free_count sc) then
    let* ptr := load (sc_free_list sc + 8 * (sc_free_count sc - 1)) in
    set_class class_idx (SizeClass (sc_size sc) (sc_free_list sc) (sc_free_count sc - 1) (sc_arena sc)) ;;
    ret ptr
  else
    let arena := sc_arena sc in
    let* chunks := load (arena + 8) in
    let* full := (if chunks =? 0 then ret true
                  else let* used := load (arena + 24) in
                       let* chunk_size := load (arena + 16) in
                       ret (chunk_size <=? used)) in
    let* ready :=
      (if (full : bool) then
         let chunk_size := 64 * 1024 in
         let* chunk := on_proc (sbrk chunk_size) in
         if chunk =? u64 (-1) then ret false
         else
           store (arena + 8) chunk ;;
           store (arena + 16) chunk_size ;;
           store (arena + 24) 0 ;;
           ret true
       else ret true) in
    if (ready : bool) then
      let* chunks := load (arena + 8) in
      let* used := load (arena + 24) in
      store (arena + 24) (u64 (used + sc_size sc)) ;;
      ret (u64 (chunks + used))
    else ret 0.

Definition alloc_large (size : Z) : alloc Z :=
  let size := Z.land (u64 (size + 4095)) (u64 (Z.lnot 4095)) in
  let* ptr := on_proc (sbrk (s64 size)) in
  if ptr =? u64 (-1) then ret 0
  else
    store ptr size ;;
    store (ptr + 8) BLOCK_MAGIC ;;
    ret (ptr + sizeof_block_header).

Definition free_large (ptr : Z) : alloc unit :=
  let* magic := load (ptr - sizeof_block_header + 8) in
  if negb (magic =? BLOCK_MAGIC) then ret tt else ret tt.

Definition malloc (size : Z) : alloc Z :=
  if size =? 0 then ret 0
  else
    init_allocator ;;
    let* class_idx := (if size <=? MAX_SMALL_SIZE then find_size_class size else ret (-1)) in
    if 0 <=? class_idx then alloc_from_size_class class_idx
    else alloc_large size.

Definition calloc (nmemb size : Z) : alloc Z :=
  if (nmemb =? 0) || (size =? 0) then ret 0
  else if SIZE_MAX / size <? nmemb then ret 0
  else
    let total_size := u64 (nmemb * size) in
    let* ptr := malloc total_size in
    (if negb (ptr =? 0) then on_proc (on_mem (memset ptr 0 total_size)) ;; ret tt else ret tt) ;;
    ret ptr.

(** ** [realloc] and [free] *)

(** [realloc] calls [free], which calls [realloc] to grow a free list. *)
Definition free_to_size_class (realloc : Z -> Z -> alloc Z) (ptr class_idx : Z) : alloc unit :=
  let* sc := get_class class_idx in
  if sc_free_count sc <? 1024 then
    let* grown :=
      (if sc_free_count sc mod 64 =? 0 then
         let* new_list := realloc (sc_free_list sc) (u64 ((sc_free_count sc + 64) * 8)) in
         if new_list =? 0 then ret false
         else
           let* sc := get_class class_idx in
           set_class class_idx (SizeClass (sc_size sc) new_list (sc_free_count sc) (sc_arena sc)) ;;
           ret true
       else ret true) in
    if (grown : bool) then
      let* sc := get_class class_idx in
      set_class class_idx (SizeClass (sc_size sc) (sc_free_list sc) (sc_free_count sc + 1) (sc_arena sc)) ;;
      store (sc_free_list sc + 8 * sc_free_count sc) ptr
    else ret tt
  else ret tt.

Definition free_with (realloc : Z -> Z -> alloc Z) (ptr : Z) : alloc unit :=
  if ptr =? 0 then ret tt
  else
    let* magic := load (ptr - sizeof_block_header + 8) in
    if magic =? BLOCK_MAGIC then free_large ptr
    else
      let* class_idx := find_size_class 1 in
      let* class_idx := loop (fun i =>
        if i <? NUM_SIZE_CLASSES then
          let* sc := get_class i in
          let* chunks := load (sc_arena sc + 8) in
          if chunks <=? ptr then
            let* chunk_size := load (sc_arena sc + 16) in
            if ptr <? chunks + chunk_size then ret (Done i) else ret (Next (i + 1))
          else ret (Next (i + 1))
        else ret (Done class_idx)) 0 in
      if 0 <=? class_idx then free_to_size_class realloc ptr class_idx else ret tt.

Definition realloc_with (free : Z -> alloc unit) (ptr new_size : Z) : alloc Z :=
  if ptr =? 0 then malloc new_size
  else if new_size =? 0 then free ptr ;; ret 0
  else
    let* magic := load (ptr - sizeof_block_header + 8) in
    let* old_size :=
      (if magic =? BLOCK_MAGIC then
         let* size := load (ptr - sizeof_block_header) in
         ret (u64 (size - sizeof_block_header))
       else
         let* class_idx := find_size_class 0 in
         if 0 <=? class_idx then let* sc := get_class class_idx in ret (sc_size sc)
         else ret 0) in
    if new_size <=? old_size then ret ptr
    else
      let* new_ptr := malloc new_size in
      if new_ptr =? 0 then ret 0
      else
        let copy_size := if old_size <? new_size then old_size else new_size in
        on_proc (on_mem (memcpy new_ptr ptr copy_size)) ;;
        free ptr ;;
        ret new_ptr.

Fixpoint realloc (depth : nat) (ptr new_size : Z) : alloc Z :=
  match depth with
  | O => spin
  | S depth => realloc_with (free_with (realloc depth)) ptr new_size
  end.

Definition free (depth : nat) (ptr : Z) : alloc unit := free_with (realloc depth) ptr.
End Malloc.
