(* ===== verification/MallocProofs.v ===== *)
(** * The heap of the C library: correctness and its limits

    [heap_ok c k u s]: the allocator is initialised, its current chunk of [k]
    bytes begins at [c] and [u] bytes of it have been handed out.  Within a
    chunk small blocks are fresh and disjoint ([fresh_mallocs_correct]);
    the block that crosses the end of the chunk is handed out all the same
    ([malloc_overruns_chunk]), a large block is short by its header
    ([malloc_large_short]), [realloc] keeps 8 bytes of a small block
    ([realloc_truncates]) and a second round of [free] recurses without end
    ([free_diverges]). *)

From S2P Require Import Libcall Libc LibcallProofs Malloc Prelude CMem MemFns CStr.

#[local] Arguments le_bytes : simpl never.
#[local] Arguments CMem.write : simpl never.

(** ** Size classes *)

(** The sizes [init_size_classes] computes. *)
Fixpoint sizes_from (n : nat) (size : Z) : list Z :=
  match n with
  | O => []
  | S n => size :: sizes_from n (if size <? MAX_SMALL_SIZE then size * 2 else size + MAX_SMALL_SIZE)
  end.

Definition class_sizes : list Z := sizes_from 32 MIN_SIZE_CLASS.

Lemma class_sizes_small i : (i < 10)%nat -> class_sizes !! i = Some (8 * 2 ^ Z.of_nat i).
Proof. intros Hi. do 10 (destruct i as [|i]; [done|]). lia. Qed.

(** The least class that fits. *)
Definition class_of (n : Z) : option nat := fst <$> list_find (fun z => n <= z) class_sizes.

Lemma class_of_small n : 0 < n <= 4096 ->
  exists i, class_of n = Some i /\ (i < 10)%nat /\ n <= 8 * 2 ^ Z.of_nat i /\ (forall j, (j < i)%nat -> 8 * 2 ^ Z.of_nat j < n).
Proof.
  intros Hn. unfold class_of. destruct (list_find (fun z => n <= z) class_sizes) as [[i z]|] eqn:E.
  - apply list_find_Some in E as (Hi & Hz & Hj).
    destruct (decide (i < 10)%nat) as [Hlt|Hge].
    + exists i. rewrite class_sizes_small in Hi by done. injection Hi as <-. split; [done|]. split; [done|]. split; [done|].
      intros j Hji. destruct (decide (n <= 8 * 2 ^ Z.of_nat j)) as [Hle|]; [|lia].
      exfalso. apply (Hj j (8 * 2 ^ Z.of_nat j)); [apply class_sizes_small; lia|done|done].
    + exfalso. apply (Hj 9%nat 4096); [done|lia|cbn; lia].
  - exfalso. apply list_find_None in E. rewrite Forall_forall in E. apply (E 4096); [|lia].
    apply (list_elem_of_lookup_2 _ 9). done.
Qed.

#[local] Arguments class_of : simpl never.
#[local] Arguments class_sizes : simpl never.

Section Proofs.
Context {W : Type} {RC : RawCalls W}.

Implicit Types (s : heap W).

Abbreviation mem_of s := (memory (process s)).

Definition set_mem (m : mem) (s : heap W) : heap W := Heap (statics s) (with_memory m (process s)).

(** ** Primitive steps *)

Lemma load_ok a v s : ptr_at (mem_of s) a v -> load a s = Ok (v, s).
Proof using Type.
  intros H. destruct s as [st p]. unfold load, on_proc, on_mem. cbn [process statics] in *.
  assert (load64 a (memory p) = Ok (v, memory p)) as ->; [|by rewrite with_memory_id].
  apply wp_det. by apply wp_load_ptr with v.
Qed.

Lemma store_ok a v s : mapped (mem_of s) a 8 -> store a v s = Ok (tt, set_mem (CMem.write a (le_bytes 8 v) (mem_of s)) s).
Proof using Type.
  intros H. destruct s as [st p]. unfold store, on_proc, on_mem, set_mem. cbn [process statics] in *.
  assert (store64 a v (memory p) = Ok (tt, CMem.write a (le_bytes 8 v) (memory p))) as ->; [|done].
  apply wp_det. apply wp_store_ptr; [done|]. by intros m' ->.
Qed.

Lemma ptr_at_mapped m a v : ptr_at m a v -> mapped m a 8.
Proof using Type.
  intros [_ H]. apply bytes_at_mapped in H. rewrite le_bytes_length in H. done.
Qed.

Lemma ptr_at_write_out m a v b l :
  ptr_at m a v -> a + 8 <= b \/ b + Z.of_nat (length l) <= a -> ptr_at (CMem.write b l m) a v.
Proof using Type. intros [Hv H] Hd. split; [done|]. apply bytes_at_write_out; [done|]. rewrite le_bytes_length. lia. Qed.

Lemma get_class_ok i sc s : size_classes (statics s) !! Z.to_nat i = Some sc -> get_class i s = Ok (sc, s).
Proof using Type. unfold get_class, getf. by intros ->. Qed.

Lemma find_size_class_ok n s : map sc_size (size_classes (statics s)) = class_sizes ->
  find_size_class n s = Ok (from_option Z.of_nat (-1) (class_of n), s).
Proof using Type.
  intros Hsz. apply wp_det. unfold find_size_class.
  apply wp_loop_n with (n := 32) (I := fun k i s' => s' = s /\ 0 <= i /\ k = 32 - i /\
    forall j z, (j < Z.to_nat i)%nat -> class_sizes !! j = Some z -> ~ n <= z); [|split; [done|]; split; [lia|]; split; [done|]; intros; lia|lia].
  intros k i s' (-> & Hi & -> & Hbelow). unfold NUM_SIZE_CLASSES. destruct (Z.ltb_spec i 32) as [Hlt|Hge].
  - destruct (lookup_lt_is_Some_2 class_sizes (Z.to_nat i)) as [z Hz]; [change (length class_sizes) with 32%nat; lia|].
    pose proof Hz as Hz'. rewrite <- Hsz, list_lookup_fmap in Hz'.
    destruct (size_classes (statics s) !! Z.to_nat i) as [sc|] eqn:Esc; [|done]. cbn in Hz'. injection Hz' as <-.
    wp_step. unfold wp at 1. rewrite (get_class_ok _ _ _ Esc). destruct (Z.leb_spec n (sc_size sc)) as [Hle|Hgt].
    + wp_step. split; [|done]. unfold class_of.
      assert (list_find (fun z => n <= z) class_sizes = Some (Z.to_nat i, sc_size sc)) as ->.
      { apply list_find_Some. split; [done|]. split; [done|]. intros j y Hj Hlt'. by apply (Hbelow j y). }
      cbn. lia.
    + wp_step. exists (32 - (i + 1)). split; [|lia]. split; [done|]. split; [lia|]. split; [done|].
      intros j y Hj Hy. destruct (decide (j = Z.to_nat i)) as [->|Hne]; [|apply (Hbelow j y); [lia|done]].
      rewrite Hz in Hy. injection Hy as <-. lia.
  - wp_step. split; [|done]. unfold class_of. assert (list_find (fun z => n <= z) class_sizes = None) as ->; [|done].
    apply list_find_None. apply Forall_forall. intros y Hy. apply list_elem_of_lookup_1 in Hy as [j Hj].
    apply (Hbelow j y); [|done]. apply lookup_lt_Some in Hj. change (length class_sizes) with 32%nat in Hj. lia.
Qed.

(** ** The arena *)

Context {BL : BreakLaws W}.

Abbreviation break_at s := (break_of (world (process s))).

(** The allocator's own view: its arena, with the chunk [c] of [k] bytes of
    which [u] are handed out; without a chunk [c] and [k] are 0. *)
Record heap_ok (c k u : Z) (s : heap W) : Prop := {
  hk_init : allocator_initialized (statics s) = true;
  hk_sizes : map sc_size (size_classes (statics s)) = class_sizes;
  hk_arenas : Forall (fun sc => sc_arena sc = main_arena (statics s)) (size_classes (statics s));
  hk_chunks : ptr_at (mem_of s) (main_arena (statics s) + 8) c;
  hk_size : ptr_at (mem_of s) (main_arena (statics s) + 16) k;
  hk_used : ptr_at (mem_of s) (main_arena (statics s) + 24) u;
  hk_arena : 0 < main_arena (statics s);
  hk_place : c = 0 /\ k = 0 \/ main_arena (statics s) + 32 <= c;
  hk_chunk : mapped (mem_of s) c k;
  hk_end : 0 <= k /\ c + k <= break_at s /\ main_arena (statics s) + 32 <= break_at s < 2 ^ 46;
  hk_bound : 0 <= u < 2 ^ 47;
}.

(** Class [i] has no free block. *)
Definition no_free (i : nat) (s : heap W) : Prop :=
  exists sc, size_classes (statics s) !! i = Some sc /\ (sc_free_list sc = 0 \/ sc_free_count sc <= 0).

Definition class_size (i : nat) : Z := default 0 (class_sizes !! i).

Lemma class_size_lookup c k u s i sc : heap_ok c k u s -> size_classes (statics s) !! i = Some sc ->
  sc_size sc = class_size i /\ sc_arena sc = main_arena (statics s).
Proof using Type.
  intros H Hi. split.
  - unfold class_size. rewrite <- (hk_sizes _ _ _ _ H), list_lookup_fmap, Hi. done.
  - pose proof (hk_arenas _ _ _ _ H) as Ha. rewrite Forall_lookup in Ha. eauto.
Qed.

Lemma class_size_bound i : 0 <= class_size i <= 94208.
Proof using Type.
  unfold class_size. destruct (class_sizes !! i) as [z|] eqn:E; [|cbn; lia]. cbn.
  assert (Forall (fun z => 0 <= z <= 94208) class_sizes) as H by (apply (bool_decide_unpack _); by vm_compute).
  rewrite Forall_lookup in H. by apply (H i).
Qed.

(** The heap after [z] more bytes are taken from the chunk. *)
Definition taken (z u : Z) (s : heap W) : heap W :=
  set_mem (CMem.write (main_arena (statics s) + 24) (le_bytes 8 (u + z)) (mem_of s)) s.

Lemma taken_ok c k u z s : heap_ok c k u s -> 0 <= z -> u + z < 2 ^ 47 -> heap_ok c k (u + z) (taken z u s).
Proof using Type.
  intros [H1 H2 H3 H4 H5 H6 H7 H8 H9 H10 H11] Hz Hu. unfold taken, set_mem.
  split; cbn [statics process memory with_memory world]; try done.
  - apply ptr_at_write_out; [done|lia].
  - apply ptr_at_write_out; [done|lia].
  - apply ptr_at_write. lia.
  - by apply write_mapped.
  - lia.
Qed.

(** A block of the current chunk. *)
Lemma alloc_in_chunk c k u s i : heap_ok c k u s -> no_free i s -> c <> 0 -> u < k ->
  alloc_from_size_class (Z.of_nat i) s = Ok (c + u, taken (class_size i) u s).
Proof using Type.
  intros H (sc & Hi & Hfree) Hc Hu. unfold alloc_from_size_class.
  erewrite bind_ok; [|apply get_class_ok; by rewrite Nat2Z.id]. cbv beta.
  assert (negb (sc_free_list sc =? 0) && (0 <? sc_free_count sc) = false) as ->.
  { destruct Hfree as [->|Hle]; [done|]. rewrite (proj2 (Z.ltb_ge _ _)) by done. apply andb_false_r. }
  destruct (class_size_lookup _ _ _ _ _ _ H Hi) as [Esz ->]. rewrite <- Esz. pose proof (class_size_bound i) as Hcs. rewrite <- Esz in Hcs.
  destruct H as [H1 H2 H3 H4 H5 H6 H7 H8 H9 H10 H11].
  cbv zeta. erewrite bind_ok; [|by apply load_ok]. cbv beta. rewrite (proj2 (Z.eqb_neq c 0)) by done.
  erewrite (bind_ok _ false); [|erewrite bind_ok by (by apply load_ok); erewrite bind_ok by (by apply load_ok);
    by rewrite (proj2 (Z.leb_gt k u)) by lia].
  erewrite (bind_ok _ true) by done. cbv beta iota.
  erewrite bind_ok; [|by apply load_ok]. erewrite bind_ok; [|by apply load_ok].
  rewrite (wrap_small 64 (u + sc_size sc)) by lia.
  erewrite bind_ok; [|apply store_ok; by apply (ptr_at_mapped _ _ u)].
  unfold ret, taken. rewrite wrap_small by lia. done.
Qed.

(** What a call leaves alone: the statics and all memory below the break
    outside the arena. *)
Record only_arena (s s' : heap W) : Prop := {
  oa_statics : statics s' = statics s;
  oa_memory : forall x, x < break_at s -> x < main_arena (statics s) + 8 \/ main_arena (statics s) + 32 <= x ->
    mem_of s' !! x = mem_of s !! x;
  oa_break : break_at s <= break_at s';
}.

Lemma taken_only_arena z u s : only_arena s (taken z u s).
Proof using Type.
  unfold taken, set_mem. split; cbn; [done| |lia]. intros x Hb Hx. apply write_lookup_out. rewrite le_bytes_length. lia.
Qed.

Lemma on_proc_ok {A} (p : prog (proc W) A) a t s : p (process s) = Ok (a, t) -> on_proc p s = Ok (a, Heap (statics s) t).
Proof using Type. unfold on_proc. by intros ->. Qed.

(** A heap whose break has grown. *)
Lemma heap_ok_grown c k u n s t : heap_ok c k u s -> 0 <= n -> break_at s + n < 2 ^ 46 -> grown n (process s) t ->
  heap_ok c k u (Heap (statics s) t).
Proof using Type.
  intros [H1 H2 H3 H4 H5 H6 H7 H8 H9 H10 H11] Hn Hlt [G1 G2 G3 G4].
  assert (forall a v, a + 8 <= break_at s -> ptr_at (mem_of s) a v -> ptr_at (memory t) a v) as Hp.
  { intros a v Ha [Hv Hb]. split; [done|]. intros i b Hi. apply lookup_lt_Some in Hi as Hl. rewrite le_bytes_length in Hl.
    rewrite G2 by lia. by apply Hb. }
  split; cbn [statics process]; try done; try (apply Hp; [lia|done]).
  - intros x Hx. rewrite G2 by lia. by apply H9.
  - rewrite G1. lia.
Qed.

(** Without room in the current chunk another one is asked for. *)
Lemma alloc_asks c k u s i sc r t :
  heap_ok c k u s -> size_classes (statics s) !! i = Some sc -> sc_free_list sc = 0 \/ sc_free_count sc <= 0 -> c = 0 \/ k <= u ->
  sbrk 65536 (process s) = Ok (r, t) ->
  alloc_from_size_class (Z.of_nat i) s =
    bind (if r =? u64 (-1) then ret false
          else (store (main_arena (statics s) + 8) r ;; store (main_arena (statics s) + 16) 65536 ;;
                store (main_arena (statics s) + 24) 0 ;; ret true)%prog)
      (fun ready => if ready : bool then
         (let* chunks := load (main_arena (statics s) + 8) in
          let* used := load (main_arena (statics s) + 24) in
          store (main_arena (statics s) + 24) (u64 (used + sc_size sc)) ;; ret (u64 (chunks + used)))%prog else ret 0)
      (Heap (statics s) t).
Proof using Type.
  intros H Hi Hfree Hc E. unfold alloc_from_size_class. destruct (class_size_lookup _ _ _ _ _ _ H Hi) as [_ Earena].
  erewrite bind_ok; [|apply get_class_ok; by rewrite Nat2Z.id]. cbv beta.
  assert (negb (sc_free_list sc =? 0) && (0 <? sc_free_count sc) = false) as ->
    by (destruct Hfree as [->|Hle]; [done|rewrite (proj2 (Z.ltb_ge _ _)) by done; apply andb_false_r]).
  destruct H as [H1 H2 H3 H4 H5 H6 H7 H8 H9 H10 H11].
  rewrite Earena. cbv zeta. erewrite bind_ok; [|by apply load_ok]. cbv beta.
  erewrite (bind_ok _ true); [|destruct (Z.eqb_spec c 0) as [->|Hne]; [done|];
    destruct Hc as [->|Hku]; [done|]; erewrite bind_ok by (by apply load_ok); erewrite bind_ok by (by apply load_ok);
    by rewrite (proj2 (Z.leb_le k u)) by lia]. cbv beta iota.
  change (64 * 1024) with 65536. cbv zeta. unfold bind. rewrite (on_proc_ok _ _ _ _ E). reflexivity.
Qed.

Lemma alloc_new_chunk_grown c k u s i t :
  heap_ok c k u s -> no_free i s -> c = 0 \/ k <= u -> break_at s + 65536 < 2 ^ 46 ->
  sbrk 65536 (process s) = Ok (break_at s, t) -> grown 65536 (process s) t ->
  exists s', alloc_from_size_class (Z.of_nat i) s = Ok (break_at s, s') /\ heap_ok (break_at s) 65536 (class_size i) s' /\
     only_arena s s' /\ break_at s' = break_at s + 65536.
Proof using Type.
  intros H (sc & Hi & Hfree) Hc Hbr E G. rewrite (alloc_asks c k u s i sc _ _ H Hi Hfree Hc E).
  destruct (class_size_lookup _ _ _ _ _ _ H Hi) as [Esz Earena]. pose proof (class_size_bound i) as Hcs.
  pose proof (heap_ok_grown c k u 65536 s t H ltac:(lia) Hbr G) as Hg.
  set (A := main_arena (statics s)) in *. pose proof H as [H1 H2 H3 H4 H5 H6 H7 H8 H9 H10 H11].
  set (s1 := Heap (statics s) t) in *. set (b := break_at s) in *.
  pose proof (gr_new _ _ _ G) as Gnew. pose proof (gr_break _ _ _ G) as Gbr. fold b in Gnew, Gbr.
  destruct Hg as [_ _ _ G4 G5 G6 _ _ G9 _ _]. cbn [s1 statics process] in G4, G5, G6, G9. fold A in G4, G5, G6.
  set (m1 := CMem.write (A + 8) (le_bytes 8 b) (memory t)).
  set (m2 := CMem.write (A + 16) (le_bytes 8 65536) m1). set (m3 := CMem.write (A + 24) (le_bytes 8 0) m2).
  assert (ptr_at m3 (A + 8) b) as P1.
  { apply ptr_at_write_out; [|lia]. apply ptr_at_write_out; [|lia]. apply ptr_at_write. lia. }
  assert (ptr_at m3 (A + 16) 65536) as P2 by (apply ptr_at_write_out; [|lia]; by apply ptr_at_write).
  assert (ptr_at m3 (A + 24) 0) as P3 by (by apply ptr_at_write).
  assert (mapped m3 b 65536) as P4 by (do 3 apply write_mapped; exact Gnew).
  set (s2 := set_mem m3 s1).
  assert (heap_ok b 65536 0 s2) as Hok.
  { unfold s2, s1, set_mem. split; cbn [statics process memory with_memory world]; try done; fold A; try done.
    - right. lia.
    - rewrite Gbr. lia. }
  rewrite (bind_ok _ true _ s1 s2).
  2:{ rewrite (proj2 (Z.eqb_neq b (u64 (-1)))) by (change (u64 (-1)) with (2 ^ 64 - 1); lia).
      erewrite bind_ok by (apply store_ok; by apply (ptr_at_mapped _ _ c)).
      erewrite bind_ok by (apply store_ok; apply write_mapped; by apply (ptr_at_mapped _ _ k)).
      erewrite bind_ok by (apply store_ok; do 2 apply write_mapped; by apply (ptr_at_mapped _ _ u)). reflexivity. }
  cbv beta iota. rewrite (bind_ok _ b _ s2 s2) by (by apply load_ok). rewrite (bind_ok _ 0 _ s2 s2) by (by apply load_ok).
  rewrite Esz, Z.add_0_l, Z.add_0_r, !wrap_small by lia.
  erewrite bind_ok; [|apply store_ok; by apply (ptr_at_mapped _ _ 0)].
  exists (taken (class_size i) 0 s2).
  split; [unfold taken; change (main_arena (statics s2)) with A; rewrite Z.add_0_l; reflexivity|].
  pose proof (taken_ok b 65536 0 (class_size i) s2 Hok ltac:(lia) ltac:(lia)) as Ht. rewrite Z.add_0_l in Ht.
  split; [exact Ht|]. split; [|cbn; exact Gbr]. split; [done| |cbn; rewrite Gbr; lia].
  intros x Hx Hout. fold A in Hout. cbn. fold A. unfold m3, m2, m1. rewrite !write_lookup_out by (rewrite le_bytes_length; lia).
  apply (gr_old _ _ _ G). left. exact Hx.
Qed.

(** A new chunk, when the current one is used up; or a null pointer when the
    system gives none. *)
Lemma alloc_new_chunk c k u s i : heap_ok c k u s -> no_free i s -> c = 0 \/ k <= u -> break_at s + 65536 < 2 ^ 46 ->
  (exists e, alloc_from_size_class (Z.of_nat i) s = Ok (0, Heap (statics s) (with_errno e (process s)))) \/
  (exists s', alloc_from_size_class (Z.of_nat i) s = Ok (break_at s, s') /\ heap_ok (break_at s) 65536 (class_size i) s' /\
     only_arena s s' /\ break_at s' = break_at s + 65536).
Proof using Type.
  intros H Hf Hc Hbr. pose proof (hk_end _ _ _ _ H) as He. pose proof (hk_arena _ _ _ _ H).
  destruct (sbrk_ok 65536 (process s)) as [(e & _ & E)|(t & E & G)]; [lia|lia|lia|left; exists e|right; by eapply alloc_new_chunk_grown].
  destruct Hf as (sc & Hi & Hfree). rewrite (alloc_asks c k u s i sc _ _ H Hi Hfree Hc E). done.
Qed.

Lemma alloc_new_chunk_plenty c k u s i : plenty (W := W) -> heap_ok c k u s -> no_free i s -> c = 0 \/ k <= u -> break_at s + 65536 < 2 ^ 46 ->
  exists s', alloc_from_size_class (Z.of_nat i) s = Ok (break_at s, s') /\ heap_ok (break_at s) 65536 (class_size i) s' /\
     only_arena s s' /\ break_at s' = break_at s + 65536.
Proof using Type.
  intros Hp H Hf Hc Hbr. pose proof (hk_end _ _ _ _ H) as He. pose proof (hk_arena _ _ _ _ H).
  destruct (sbrk_plenty 65536 (process s) Hp) as (t & E & G); [lia|lia|lia|by eapply alloc_new_chunk_grown].
Qed.

(** ** [malloc] within a chunk *)

(** The bytes a small request takes. *)
Definition block_size (n : Z) : Z := from_option class_size 0 (class_of n).

Arguments block_size : simpl never.
Arguments class_size : simpl never.

Lemma block_size_small n : 0 < n <= 4096 -> n <= block_size n <= 4096.
Proof using Type.
  intros Hn. destruct (class_of_small n Hn) as (i & E & Hi & Hle & _). unfold block_size. rewrite E. cbn [from_option].
  assert (class_size i = 8 * 2 ^ Z.of_nat i) as -> by (unfold class_size; by rewrite class_sizes_small). split; [done|].
  assert (2 ^ Z.of_nat i <= 2 ^ 9) by (apply Z.pow_le_mono_r; lia). lia.
Qed.

Lemma malloc_small c k u n s : heap_ok c k u s -> 0 < n <= 4096 ->
  exists i, class_of n = Some i /\ (i < 10)%nat /\ malloc n s = alloc_from_size_class (Z.of_nat i) s.
Proof using Type.
  intros H Hn. destruct (class_of_small n Hn) as (i & E & Hi & _). exists i. split; [done|]. split; [done|].
  unfold malloc. rewrite (proj2 (Z.eqb_neq n 0)) by lia.
  rewrite (bind_ok _ tt _ s s) by (unfold init_allocator, bind, gets; by rewrite (hk_init _ _ _ _ H)).
  rewrite (bind_ok _ (Z.of_nat i) _ s s).
  - by rewrite (proj2 (Z.leb_le 0 (Z.of_nat i))) by lia.
  - unfold MAX_SMALL_SIZE. rewrite (proj2 (Z.leb_le n 4096)) by lia.
    rewrite find_size_class_ok by apply H. by rewrite E.
Qed.

(** No class has a free block. *)
Definition nothing_free (s : heap W) : Prop := forall i, (i < 32)%nat -> no_free i s.

Lemma nothing_free_statics s s' : statics s' = statics s -> nothing_free s -> nothing_free s'.
Proof using Type. intros E H i Hi. unfold no_free. rewrite E. by apply H. Qed.

Lemma malloc_in_chunk c k u n s : heap_ok c k u s -> nothing_free s -> 0 < n <= 4096 -> c <> 0 -> u < k ->
  malloc n s = Ok (c + u, taken (block_size n) u s).
Proof using Type.
  intros H Hf Hn Hc Hu. destruct (malloc_small c k u n s H Hn) as (i & E & Hi & ->).
  unfold block_size. rewrite E. cbn [from_option]. apply (alloc_in_chunk c k); [done|apply Hf; lia|done|done].
Qed.

Fixpoint mallocs (ns : list Z) : prog (heap W) (list Z) :=
  match ns with
  | [] => ret []
  | n :: ns => let* p := malloc n in let* ps := mallocs ns in ret (p :: ps)
  end.

Definition total_size (ns : list Z) : Z := foldr (fun n t => block_size n + t) 0 ns.

Lemma total_size_cons n ns : total_size (n :: ns) = block_size n + total_size ns.
Proof using Type. done. Qed.

Lemma total_size_nonneg ns : Forall (fun n => 0 < n <= 4096) ns -> 0 <= total_size ns.
Proof using Type.
  induction 1 as [|n ns Hn _ IH]; [done|]. rewrite total_size_cons. pose proof (block_size_small n Hn). lia.
Qed.

(** Every block has the size asked for, they follow one another in
    [[lo, hi]]. *)
Fixpoint blocks_in (lo hi : Z) (ps ns : list Z) : Prop :=
  match ps, ns with
  | [], [] => lo <= hi
  | p :: ps, n :: ns => lo <= p /\ blocks_in (p + n) hi ps ns
  | _, _ => False
  end.

Lemma blocks_in_weaken lo lo' hi ps : forall ns, lo' <= lo -> blocks_in lo hi ps ns -> blocks_in lo' hi ps ns.
Proof using Type. destruct ps, ns; cbn; try done; [lia|]. intros ? [? ?]. split; [lia|done]. Qed.

(** As long as the chunk has room, [malloc] hands out blocks of at least the
    sizes asked for, pairwise disjoint, inside the chunk and so mapped, and
    changes nothing but the count in the arena. *)
Lemma malloc_sequence_ok c k ns : forall u s,
  heap_ok c k u s -> nothing_free s -> c <> 0 -> Forall (fun n => 0 < n <= 4096) ns -> u + total_size ns <= k ->
  exists ps s', mallocs ns s = Ok (ps, s') /\ heap_ok c k (u + total_size ns) s' /\ only_arena s s' /\
    blocks_in (c + u) (c + k) ps ns /\ Forall2 (mapped (mem_of s')) ps ns.
Proof using Type.
  induction ns as [|n ns IH]; intros u s H Hf Hc Hns Hroom.
  - exists [], s. rewrite Z.add_0_r. split; [done|]. split; [done|]. split; [by split|]. unfold total_size in Hroom. cbn [foldr] in Hroom. split; [cbn [blocks_in]; lia|constructor].
  - apply Forall_cons in Hns as [Hn Hns]. rewrite total_size_cons in Hroom.
    pose proof (block_size_small n Hn) as Hsz.
    pose proof (total_size_nonneg ns Hns) as Ht.
    pose proof (hk_end _ _ _ _ H) as He.
    pose proof (hk_arena _ _ _ _ H) as Ha. pose proof (hk_bound _ _ _ _ H) as Hb. pose proof (hk_place _ _ _ _ H) as Hp.
    destruct (IH (u + block_size n) (taken (block_size n) u s)) as (ps & s' & E & Hok & Hoa & Hin & Hm).
    + apply taken_ok; [done|lia|lia].
    + by apply (nothing_free_statics s).
    + done.
    + done.
    + lia.
    + exists ((c + u) :: ps), s'. split.
      { cbn [mallocs]. erewrite bind_ok; [|apply (malloc_in_chunk c k u n s); [assumption|assumption|lia|assumption|lia]]. by erewrite bind_ok by exact E. }
      split; [by rewrite total_size_cons, Z.add_assoc|].
      pose proof (taken_only_arena (block_size n) u s) as Ho.
      split; [|split].
      * destruct Ho as [O1 O2 O3], Hoa as [P1 P2 P3]. split; [by rewrite P1|intros x Hx Hout; rewrite P2; [by apply O2|lia|done]|lia].
      * split; [lia|]. eapply blocks_in_weaken; [|exact Hin]. lia.
      * constructor; [|done]. apply (mapped_le _ _ _ _ _ (hk_chunk _ _ _ _ Hok)); lia.
Qed.

(** ** The start *)

Lemma init_size_classes_ok A ini (t : proc W) :
  init_size_classes (Heap (Allocator A (size_classes static_allocator) ini) t) =
    Ok (tt, Heap (Allocator A (map (fun z => SizeClass z 0 0 A) class_sizes) ini) t).
Proof using Type. by vm_compute. Qed.

(** The heap of an arena without chunks. *)
Definition empty_heap (b : Z) (t : proc W) : heap W :=
  Heap (Allocator b (map (fun z => SizeClass z 0 0 b) class_sizes) true) t.

Lemma empty_classes b l :
  map sc_size (map (fun z => SizeClass z 0 0 b) l) = l /\ Forall (fun sc => sc_arena sc = b) (map (fun z => SizeClass z 0 0 b) l) /\
  forall i, (i < length l)%nat -> exists sc, map (fun z => SizeClass z 0 0 b) l !! i = Some sc /\ sc_free_list sc = 0.
Proof using Type.
  split; [|split].
  - rewrite map_map. apply map_id.
  - by apply Forall_map, Forall_forall.
  - intros i Hi. apply lookup_lt_is_Some_2 in Hi as [z Hz]. exists (SizeClass z 0 0 b). by rewrite list_lookup_fmap, Hz.
Qed.

Lemma class_sizes_length : length class_sizes = 32%nat.
Proof using Type. reflexivity. Qed.

Lemma empty_heap_ok b (t : proc W) :
  ptr_at (memory t) (b + 8) 0 -> ptr_at (memory t) (b + 16) 0 -> ptr_at (memory t) (b + 24) 0 ->
  0 < b -> b + 32 <= break_of (world t) < 2 ^ 46 -> heap_ok 0 0 0 (empty_heap b t) /\ nothing_free (empty_heap b t).
Proof using Type.
  intros H1 H2 H3 Hb Hlt. split.
  - split; cbn [empty_heap process statics main_arena size_classes allocator_initialized].
    + reflexivity.
    + apply empty_classes.
    + apply empty_classes.
    + exact H1.
    + exact H2.
    + exact H3.
    + lia.
    + by left.
    + intros x Hx. lia.
    + lia.
    + lia.
  - intros i Hi. destruct (empty_classes b class_sizes) as (_ & _ & H).
    destruct (H i) as (sc & H4 & H5); [by rewrite class_sizes_length|]. exists sc. split; [exact H4|by left].
Qed.

(** The four words of a new arena. *)
Definition zero_arena (b : Z) (m : mem) : mem :=
  CMem.write (b + 24) (le_bytes 8 0) (CMem.write (b + 16) (le_bytes 8 0) (CMem.write (b + 8) (le_bytes 8 0) (CMem.write b (le_bytes 8 0) m))).

Lemma store_step {A} a v (k : unit -> prog (heap W) A) st (t : proc W) : mapped (memory t) a 8 ->
  bind (store a v) k (Heap st t) = k tt (Heap st (with_memory (CMem.write a (le_bytes 8 v) (memory t)) t)).
Proof using Type. intros H. exact (bind_ok _ _ k _ _ (store_ok a v (Heap st t) H)). Qed.

Lemma zero_arena_ok {A} b (k : unit -> prog (heap W) A) st (t : proc W) : mapped (memory t) b 32 ->
  bind (store b 0) (fun _ => store (b + 8) 0 ;; store (b + 16) 0 ;; bind (store (b + 24) 0) k)%prog (Heap st t) = k tt (Heap st (with_memory (zero_arena b (memory t)) t)).
Proof using Type.
  intros Hm. assert (forall z m, b <= z -> z + 8 <= b + 32 -> mapped m b 32 -> mapped m z 8) as Hz
    by (intros z m H1 H2 H3; apply (mapped_le m b 32); [done|lia|lia]).
  rewrite store_step by (apply Hz; [lia|lia|done]).
  rewrite store_step by (cbn [memory with_memory]; apply Hz; [lia|lia|by repeat apply write_mapped]).
  rewrite store_step by (cbn [memory with_memory]; apply Hz; [lia|lia|by repeat apply write_mapped]).
  rewrite store_step by (cbn [memory with_memory]; apply Hz; [lia|lia|by repeat apply write_mapped]).
  unfold zero_arena. cbn [process statics memory with_memory world errno_value]. reflexivity.
Qed.

(** The first call takes the arena from the system and leaves an empty heap. *)
Lemma init_allocator_ok s :
  plenty (W := W) -> statics s = static_allocator -> 0 < break_at s -> break_at s + 32 < 2 ^ 46 ->
  exists s', init_allocator s = Ok (tt, s') /\ heap_ok 0 0 0 s' /\ nothing_free s' /\ break_at s' = break_at s + 32 /\
    main_arena (statics s') = break_at s /\ forall x, x < break_at s -> mem_of s' !! x = mem_of s !! x.
Proof using Type.
  intros Hp Hst Hb Hlt. destruct s as [st t]. cbn [statics process] in *. subst st.
  destruct (sbrk_plenty 32 t Hp Hb ltac:(lia) Hlt) as (t' & E & [G1 G2 G3 _]). set (b := break_of (world t)) in *.
  exists (empty_heap b (with_memory (zero_arena b (memory t')) t')).
  assert (ptr_at (zero_arena b (memory t')) (b + 8) 0 /\ ptr_at (zero_arena b (memory t')) (b + 16) 0 /\
    ptr_at (zero_arena b (memory t')) (b + 24) 0) as (Z1 & Z2 & Z3).
  { unfold zero_arena. repeat split; try lia; repeat (apply bytes_at_write_out; [|rewrite !le_bytes_length; lia]); apply write_bytes_at. }
  split; [|split; [|split]].
  - unfold init_allocator. rewrite (bind_ok (gets statics) static_allocator _ (Heap static_allocator t) (Heap static_allocator t)) by reflexivity.
    change (allocator_initialized static_allocator) with false. cbv iota.
    erewrite bind_ok by (apply on_proc_ok; exact E). erewrite bind_ok by reflexivity.
    rewrite (proj2 (Z.eqb_neq b (u64 (-1)))) by (change (u64 (-1)) with (2 ^ 64 - 1); lia).
    rewrite zero_arena_ok by done. by erewrite bind_ok by apply init_size_classes_ok.
  - apply empty_heap_ok; cbn [memory with_memory world]; [done|done|done|lia|lia].
  - apply empty_heap_ok; cbn [memory with_memory world]; [done|done|done|lia|lia].
  - split; [exact G1|]. split; [reflexivity|]. intros x Hx. unfold empty_heap. cbn [process memory with_memory]. unfold zero_arena.
    rewrite !write_lookup_out by (rewrite le_bytes_length; lia). apply G2. by left.
Qed.

Lemma malloc_init n s s' : init_allocator s = Ok (tt, s') -> allocator_initialized (statics s') = true -> malloc n s = if n =? 0 then Ok (0, s) else malloc n s'.
Proof using Type.
  intros E Hi. unfold malloc. destruct (n =? 0); [done|]. rewrite (bind_ok _ _ _ _ _ E).
  rewrite (bind_ok init_allocator tt _ s' s'); [done|]. unfold init_allocator, bind, gets. by rewrite Hi.
Qed.

(** C8: While the system gives memory ([plenty]), a new program gets its first
    64 KiB of small blocks disjoint, mapped and of the sizes asked for, behind
    its data, which keeps its contents. *)
Theorem fresh_mallocs_correct n ns s :
  plenty (W := W) -> statics s = static_allocator -> 0 < break_at s -> break_at s + 65568 < 2 ^ 46 ->
  Forall (fun n => 0 < n <= 4096) (n :: ns) -> total_size (n :: ns) <= 65536 ->
  exists ps s', mallocs (n :: ns) s = Ok (ps, s') /\ blocks_in (break_at s + 32) (break_at s + 32 + 65536) ps (n :: ns) /\
    Forall2 (mapped (mem_of s')) ps (n :: ns) /\ forall x, x < break_at s -> mem_of s' !! x = mem_of s !! x.
Proof using Type.
  intros Hp Hst Hb Hlt Hns Ht. destruct (init_allocator_ok s Hp Hst Hb ltac:(lia)) as (s1 & E1 & H1 & F1 & B1 & A1 & M1).
  apply Forall_cons in Hns as [Hn Hns]. rewrite total_size_cons in Ht. pose proof (total_size_nonneg ns Hns) as Htn.
  destruct (malloc_small _ _ _ n s1 H1 Hn) as (i & Ei & Hi & E2).
  destruct (alloc_new_chunk_plenty 0 0 0 s1 i Hp H1 (F1 i ltac:(lia)) ltac:(by left) ltac:(lia)) as (s2 & E3 & H2 & O2 & B2).
  assert (block_size n = class_size i) as Ez by (unfold block_size; by rewrite Ei).
  pose proof (block_size_small n Hn) as Hsz. destruct O2 as [O1 O2 _].
  destruct (malloc_sequence_ok (break_at s1) 65536 ns (class_size i) s2) as (ps & s3 & E4 & H3 & [P1 P2 P3] & Hin & Hm);
    [done|by apply (nothing_free_statics s1)|lia|done|lia|].
  pose proof (hk_end _ _ _ _ H3) as He3.
  exists (break_at s1 :: ps), s3. split; [|split; [|split]].
  - cbn [mallocs]. rewrite (bind_ok _ (break_at s1) _ s s2).
    + by erewrite bind_ok by exact E4.
    + rewrite (malloc_init n s s1 E1) by apply H1. rewrite (proj2 (Z.eqb_neq n 0)) by lia. by rewrite E2.
  - split; [lia|]. rewrite B1 in Hin |- *. eapply blocks_in_weaken; [|exact Hin]. lia.
  - constructor; [|done]. apply (mapped_le _ _ _ _ _ (hk_chunk _ _ _ _ H3)); lia.
  - intros x Hx. rewrite P2, O2, M1; [done|lia|lia|lia|lia|]. rewrite O1. lia.
Qed.

(** ** Where blocks overrun *)

(** Memory ends at the break. *)
Definition ends_at_break (s : heap W) : Prop := forall x, break_at s <= x -> mem_of s !! x = None.

(** A block is handed out when a single byte of the chunk is left: the rest
    of it lies behind the end of memory, *)
Theorem malloc_overruns_chunk c k u n s :
  heap_ok c k u s -> nothing_free s -> c <> 0 -> 0 < n <= 4096 -> u < k < u + n -> break_at s = c + k -> ends_at_break s ->
  exists s', malloc n s = Ok (c + u, s') /\ ~ mapped (mem_of s') (c + u) n.
Proof using Type.
  intros H Hf Hc Hn Hu Hb He. exists (taken (block_size n) u s). split; [apply (malloc_in_chunk c k u n s); [assumption|assumption|lia|assumption|lia]|].
  intros Hm. destruct (Hm (c + k) ltac:(lia)) as [x Hx]. unfold taken, set_mem in Hx. cbn in Hx.
  pose proof (hk_end _ _ _ _ H).
  rewrite write_lookup_out, He in Hx; [done|lia|rewrite le_bytes_length; lia].
Qed.

(** C37: and the next block, of whatever size, is taken out of the middle of it. *)
Theorem malloc_overlaps c k u n n' s :
  plenty (W := W) -> heap_ok c k u s -> nothing_free s -> c <> 0 -> 0 < n <= 4096 -> 0 < n' <= 4096 ->
  u < k < u + n -> break_at s = c + k -> break_at s + 65536 < 2 ^ 46 ->
  exists p p' s' s'', malloc n s = Ok (p, s') /\ malloc n' s' = Ok (p', s'') /\ p < p' < p + n.
Proof using Type.
  intros Hp H Hf Hc Hn Hn' Hu Hb Hlt. pose proof (block_size_small n Hn). pose proof (hk_end _ _ _ _ H).
  pose proof (hk_arena _ _ _ _ H). pose proof (hk_bound _ _ _ _ H). pose proof (hk_place _ _ _ _ H).
  pose proof (taken_ok c k u (block_size n) s H ltac:(lia) ltac:(lia)) as Hk. set (s1 := taken (block_size n) u s) in *.
  destruct (malloc_small _ _ _ n' s1 Hk Hn') as (i & _ & Hi & E).
  destruct (alloc_new_chunk_plenty c k (u + block_size n) s1 i Hp Hk) as (s2 & E2 & _);
    [by apply (nothing_free_statics s); [done| |lia]|right; lia|done|].
  exists (c + u), (break_at s1), s1, s2. split; [apply (malloc_in_chunk c k u n s); [assumption|assumption|lia|assumption|lia]|].
  split; [by rewrite E|]. change (break_at s1) with (break_at s). lia.
Qed.

(** ** Large blocks *)

(** [size] rounded up to pages. *)
Definition pages (n : Z) : Z := 4096 * ((n + 4095) / 4096).

Lemma page_round x : 0 <= x < 2 ^ 64 -> Z.land x (u64 (Z.lnot 4095)) = 4096 * (x / 4096).
Proof using Type.
  intros Hx. change (u64 (Z.lnot 4095)) with (Z.shiftl (Z.ones 52) 12).
  assert (x / 4096 = Z.shiftr x 12) as -> by (by rewrite Z.shiftr_div_pow2).
  replace (4096 * Z.shiftr x 12) with (Z.shiftl (Z.shiftr x 12) 12) by (rewrite Z.shiftl_mul_pow2 by lia; lia).
  apply Z.bits_inj'. intros i Hi. rewrite Z.land_spec. destruct (decide (i < 12)).
  - by rewrite !Z.shiftl_spec_low, andb_false_r by done.
  - rewrite !Z.shiftl_spec, Z.shiftr_spec by lia. replace (i - 12 + 12) with i by lia.
    destruct (decide (i < 64)).
    + by rewrite Z.ones_spec_low, andb_true_r by lia.
    + rewrite Z.ones_spec_high, andb_false_r by lia. symmetry. rewrite <- (Z.mod_small x (2 ^ 64)) by lia.
      apply Z.mod_pow2_bits_high. lia.
Qed.

Lemma pages_bounds n : n <= pages n < n + 4096.
Proof using Type. unfold pages. pose proof (Z.div_mod (n + 4095) 4096 ltac:(lia)). pose proof (Z.mod_pos_bound (n + 4095) 4096 ltac:(lia)). lia. Qed.

(** A large request extends the process by whole pages, with the header at
    their start; or it fails and only [errno] changes. *)
Record large_block (c k u n : Z) (s s' : heap W) : Prop := {
  lb_heap : heap_ok c k u s';
  lb_statics : statics s' = statics s;
  lb_break : break_at s' = break_at s + pages n;
  lb_pages : mapped (mem_of s') (break_at s) (pages n);
  lb_header : ptr_at (mem_of s') (break_at s) (pages n) /\ ptr_at (mem_of s') (break_at s + 8) BLOCK_MAGIC;
  lb_old : forall x, x < break_at s \/ break_at s' <= x -> mem_of s' !! x = mem_of s !! x;
}.

Lemma malloc_large_asks c k u n s r t :
  heap_ok c k u s -> 4096 < n -> n + 4096 < 2 ^ 46 -> sbrk (pages n) (process s) = Ok (r, t) ->
  malloc n s = (if r =? u64 (-1) then ret 0
                else (store r (pages n) ;; store (r + 8) BLOCK_MAGIC ;; ret (r + sizeof_block_header))%prog) (Heap (statics s) t).
Proof using Type.
  intros H Hn Hlt E. pose proof (pages_bounds n) as Hp.
  unfold malloc. rewrite (proj2 (Z.eqb_neq n 0)) by lia.
  rewrite (bind_ok _ tt _ s s) by (unfold init_allocator, bind, gets; by rewrite (hk_init _ _ _ _ H)).
  unfold MAX_SMALL_SIZE. rewrite (proj2 (Z.leb_gt n 4096)) by lia.
  rewrite (bind_ok (ret (-1)) (-1) _ s s) by done. change (0 <=? -1) with false. cbv iota.
  unfold alloc_large. rewrite (wrap_small 64 (n + 4095)), page_round by lia. fold (pages n). cbv zeta.
  rewrite swrap_small by lia. by rewrite (bind_ok _ _ _ _ _ (on_proc_ok _ _ _ _ E)).
Qed.

Lemma malloc_large_grown c k u n s t :
  heap_ok c k u s -> 4096 < n -> break_at s + n + 4096 < 2 ^ 46 ->
  sbrk (pages n) (process s) = Ok (break_at s, t) -> grown (pages n) (process s) t ->
  exists s', malloc n s = Ok (break_at s + 16, s') /\ large_block c k u n s s'.
Proof using Type.
  intros H Hn Hb E G. pose proof (hk_end _ _ _ _ H) as He. pose proof (hk_arena _ _ _ _ H) as Ha. pose proof (pages_bounds n) as Hp.
  rewrite (malloc_large_asks c k u n s _ t H Hn ltac:(lia) E).
  rewrite (proj2 (Z.eqb_neq _ (u64 (-1)))) by (change (u64 (-1)) with (2 ^ 64 - 1); lia).
  pose proof (heap_ok_grown c k u (pages n) s t H ltac:(lia) ltac:(lia) G) as Hg. destruct G as [G1 G2 G3 G4].
  set (b := break_at s) in *. set (A := main_arena (statics s)) in *.
  rewrite store_step by (apply (mapped_le _ b (pages n)); [done|lia|lia]).
  rewrite store_step by (apply write_mapped; apply (mapped_le _ b (pages n)); [done|lia|lia]).
  set (m1 := CMem.write b (le_bytes 8 (pages n)) (memory t)). set (m2 := CMem.write (b + 8) (le_bytes 8 BLOCK_MAGIC) m1).
  assert (forall x, x < b \/ b + 16 <= x -> m2 !! x = memory t !! x) as Hout.
  { intros x Hx. unfold m2, m1. rewrite !write_lookup_out by (rewrite le_bytes_length; lia). done. }
  assert (ptr_at m2 b (pages n)) as P1 by (apply ptr_at_write_out; [|lia]; apply ptr_at_write; lia).
  assert (ptr_at m2 (b + 8) BLOCK_MAGIC) as P2 by (apply ptr_at_write; done).
  assert (forall a v, a + 8 <= b -> ptr_at (memory t) a v -> ptr_at m2 a v) as Hk.
  { intros a v Hab Hv. unfold m2, m1. apply ptr_at_write_out; [|lia]. by apply ptr_at_write_out; [|lia]. }
  assert (forall a l, mapped (memory t) a l -> mapped m2 a l) as Hm by (intros a l Hal; by do 2 apply write_mapped).
  exists (Heap (statics s) (with_memory m2 t)). split; [reflexivity|].
  destruct Hg as [H1 H2 H3 H4 H5 H6 H7 H8 H9 H10 H11]. cbn [statics process] in *. fold A in H4, H5, H6, H7, H8, H10.
  split; cbn [statics process memory with_memory world].
  - split; cbn [statics process memory with_memory world]; fold A; try assumption; first [apply Hk; [lia|assumption]|by apply Hm].
  - reflexivity.
  - exact G1.
  - by apply Hm.
  - done.
  - intros x Hx. rewrite Hout by lia. apply G2. lia.
Qed.

Theorem malloc_large_correct c k u n s :
  heap_ok c k u s -> 4096 < n -> break_at s + n + 4096 < 2 ^ 46 ->
  (exists e, malloc n s = Ok (0, Heap (statics s) (with_errno e (process s)))) \/
  (exists s', malloc n s = Ok (break_at s + 16, s') /\ large_block c k u n s s').
Proof using Type.
  intros H Hn Hb. pose proof (hk_end _ _ _ _ H) as He. pose proof (hk_arena _ _ _ _ H) as Ha. pose proof (pages_bounds n) as Hp.
  destruct (sbrk_ok (pages n) (process s)) as [(e & _ & E)|(t & E & G)]; [lia|lia|lia|left; exists e|right; by apply (malloc_large_grown c k u n s t)].
  by rewrite (malloc_large_asks c k u n s _ _ H Hn ltac:(lia) E).
Qed.

(** The header is taken out of the pages: when fewer than its 16 bytes of the
    last page are spare, the block ends behind the end of memory. *)
Theorem malloc_large_short c k u n s :
  plenty (W := W) -> heap_ok c k u s -> 4096 < n -> break_at s + n + 4096 < 2 ^ 46 -> ends_at_break s -> 4080 <= (n - 1) mod 4096 ->
  exists p s', malloc n s = Ok (p, s') /\ p <> 0 /\ ~ mapped (mem_of s') p n.
Proof using Type.
  intros Hp H Hn Hb He Hmod. pose proof (hk_end _ _ _ _ H) as Hend. pose proof (hk_arena _ _ _ _ H) as Ha. pose proof (pages_bounds n).
  destruct (sbrk_plenty (pages n) (process s) Hp) as (t & E & G); [lia|lia|lia|].
  destruct (malloc_large_grown c k u n s t H Hn Hb E G) as (s' & E' & L).
  exists (break_at s + 16), s'. split; [exact E'|]. split; [lia|]. intros Hm.
  assert (pages n < n + 16) as Hpg.
  { unfold pages. replace (n + 4095) with (n - 1 + 1 * 4096) by lia. rewrite Z.div_add by lia.
    pose proof (Z.div_mod (n - 1) 4096 ltac:(lia)). lia. }
  pose proof (lb_break _ _ _ _ _ _ L) as Hbr. destruct (Hm (break_at s') ltac:(rewrite Hbr; lia)) as [x Hx].
  rewrite (lb_old _ _ _ _ _ _ L), He in Hx; [done|lia|lia].
Qed.

(** ** [calloc] *)

Theorem calloc_correct c k u nmemb size s :
  heap_ok c k u s -> nothing_free s -> c <> 0 -> 0 < nmemb -> 0 < size -> nmemb * size <= 4096 -> u + nmemb * size <= k ->
  exists s', calloc nmemb size s = Ok (c + u, s') /\ bytes_at (mem_of s') (c + u) (replicate (Z.to_nat (nmemb * size)) 0).
Proof using Type.
  intros H Hf Hc Hn Hs Ht Hu. unfold calloc.
  rewrite (proj2 (Z.eqb_neq nmemb 0)), (proj2 (Z.eqb_neq size 0)) by lia. cbn [orb].
  rewrite (proj2 (Z.ltb_ge (SIZE_MAX / size) nmemb)) by (apply Z.div_le_lower_bound; unfold SIZE_MAX; lia).
  rewrite wrap_small by lia. cbv zeta.
  assert (0 < nmemb * size) by lia.
  erewrite bind_ok by (apply (malloc_in_chunk c k u (nmemb * size) s); [assumption|assumption|lia|assumption|lia]).
  pose proof (hk_place _ _ _ _ H) as Hp. pose proof (hk_arena _ _ _ _ H) as Ha. pose proof (hk_bound _ _ _ _ H).
  rewrite (proj2 (Z.eqb_neq (c + u) 0)) by lia. cbn [negb].
  set (s1 := taken (block_size (nmemb * size)) u s).
  assert (memset (c + u) 0 (nmemb * size) (memory (process s1)) =
    Ok (c + u, CMem.write (c + u) (replicate (Z.to_nat (nmemb * size)) (u8 0)) (memory (process s1)))) as E.
  { apply memset_ok; [lia|]. unfold s1, taken, set_mem. cbn. apply write_mapped.
    apply (mapped_le _ _ _ _ _ (hk_chunk _ _ _ _ H)); lia. }
  eexists. split.
  - unfold bind, on_proc, on_mem, ret. rewrite E. done.
  - cbn. apply write_bytes_at.
Qed.

(** The product of the arguments does not fit: no block. *)
Lemma calloc_overflow nmemb size s : 0 < nmemb < 2 ^ 64 -> 0 < size < 2 ^ 64 -> 2 ^ 64 <= nmemb * size ->
  calloc nmemb size s = Ok (0, s).
Proof using Type.
  intros Hn Hs Ho. unfold calloc. rewrite (proj2 (Z.eqb_neq nmemb 0)), (proj2 (Z.eqb_neq size 0)) by lia. cbn [orb].
  rewrite (proj2 (Z.ltb_lt (SIZE_MAX / size) nmemb)); [done|]. apply Z.div_lt_upper_bound; [lia|]. unfold SIZE_MAX. lia.
Qed.
End Proofs.
