(* ===== verification/MallocFree.v ===== *)
(** * [free] and [realloc] of the C library's heap

    A small block has no header, so that [free] cannot know its class: every
    block goes to the free list of class 0, and [realloc] takes every block
    for one of 8 bytes ([realloc_truncates]).  Freed and requested again, a
    block comes back ([free_malloc]).  The list is grown by [realloc], which
    frees the old list, into the same full list: from then on [free]
    recurses without end ([free_diverges]). *)

From S2P Require Import Libcall Libc LibcallProofs Malloc MallocProofs Prelude CMem MemFns CStr.

#[local] Arguments le_bytes : simpl never.
#[local] Arguments CMem.write : simpl never.
#[local] Arguments class_of : simpl never.
#[local] Arguments class_sizes : simpl never.
#[local] Arguments class_size : simpl never.
#[local] Arguments block_size : simpl never.

Section Free.
Context {W : Type} {RC : RawCalls W} {BL : BreakLaws W}.

Implicit Types (s : heap W).

Abbreviation mem_of s := (memory (process s)).
Abbreviation break_at s := (break_of (world (process s))).

(** ** The list of class 0 *)

Definition class0 (L n : Z) (s : heap W) : Prop :=
  size_classes (statics s) !! 0%nat = Some (SizeClass 8 L n (main_arena (statics s))).

Definition with_class0 (L n : Z) (s : heap W) : heap W :=
  Heap (Allocator (main_arena (statics s)) (<[0%nat := SizeClass 8 L n (main_arena (statics s))]> (size_classes (statics s)))
          (allocator_initialized (statics s))) (process s).

Lemma with_class0_class0 L n L' n' s : class0 L' n' s -> class0 L n (with_class0 L n s).
Proof using Type. intros H. unfold class0, with_class0. cbn. apply list_lookup_insert_eq. by apply lookup_lt_Some in H. Qed.

Lemma with_class0_ok c k u L n L' n' s : heap_ok c k u s -> class0 L' n' s -> heap_ok c k u (with_class0 L n s).
Proof using Type.
  intros [H1 H2 H3 H4 H5 H6 H7 H8 H9 H10 H11] Hc. unfold with_class0.
  split; cbn [statics process main_arena size_classes allocator_initialized]; try assumption.
  - change (map sc_size (<[0%nat := ?x]> ?l)) with (sc_size <$> <[0%nat := x]> l). rewrite list_fmap_insert. cbn [sc_size].
    rewrite <- H2. apply list_insert_id. unfold class0 in Hc. change (map sc_size ?l) with (sc_size <$> l). by rewrite list_lookup_fmap, Hc.
  - apply Forall_insert; [assumption|reflexivity].
Qed.

Lemma with_class0_no_free i L n s : i <> 0%nat -> no_free i s -> no_free i (with_class0 L n s).
Proof using Type.
  intros Hi (sc & H & Hf). exists sc. split; [|done]. unfold with_class0. cbn. by rewrite list_lookup_insert_ne.
Qed.

(** The word before a block is no header of a large one. *)
Definition no_header (p : Z) (s : heap W) : Prop := exists v, ptr_at (mem_of s) (p - 8) v /\ v <> BLOCK_MAGIC.

Lemma load_header p s : no_header p s -> exists v, load (p - sizeof_block_header + 8) s = Ok (v, s) /\ v <> BLOCK_MAGIC.
Proof using Type.
  intros (v & H & Hne). exists v. split; [|done]. apply load_ok. unfold sizeof_block_header. by replace (p - 16 + 8) with (p - 8) by lia.
Qed.

(** ** [free] looks for a class and finds class 0 *)

Lemma find_first_class c k u n s : heap_ok c k u s -> n <= 8 -> find_size_class n s = Ok (0, s).
Proof using Type.
  intros H Hn. rewrite find_size_class_ok by apply H. unfold class_of.
  assert (list_find (fun z => n <= z) class_sizes = Some (0%nat, 8)) as ->; [|done].
  apply list_find_Some. split; [reflexivity|]. split; [done|]. intros j y _ Hj. lia.
Qed.

Lemma free_finds_class0 c k u p s :
  heap_ok c k u s ->
  loop (fun i =>
    if i <? NUM_SIZE_CLASSES then
      (let* sc := get_class i in
       let* chunks := load (sc_arena sc + 8) in
       if chunks <=? p then
         let* chunk_size := load (sc_arena sc + 16) in
         if p <? chunks + chunk_size then ret (Done i) else ret (Next (i + 1))
       else ret (Next (i + 1)))%prog
    else ret (Done 0)) 0 s = Ok (0, s).
Proof using Type.
  intros H. apply wp_det.
  apply wp_loop_n with (n := 32) (I := fun j i s' => s' = s /\ 0 <= i /\ j = 32 - i /\ (i = 0 \/ ~ (c <= p < c + k)));
    [|split; [done|]; split; [lia|]; split; [done|by left]|lia].
  intros j i s' (-> & Hi & -> & Hno). unfold NUM_SIZE_CLASSES. destruct (Z.ltb_spec i 32) as [Hlt|Hge]; [|by wp_step].
  destruct (lookup_lt_is_Some_2 (size_classes (statics s)) (Z.to_nat i)) as [sc Hsc].
  { rewrite <- (length_map sc_size), (hk_sizes _ _ _ _ H), class_sizes_length. lia. }
  destruct (class_size_lookup _ _ _ _ _ _ H Hsc) as [_ HA].
  wp_step. unfold wp at 1. rewrite (get_class_ok _ _ _ Hsc). rewrite HA.
  wp_step. unfold wp at 1. rewrite (load_ok _ _ _ (hk_chunks _ _ _ _ H)).
  destruct (Z.leb_spec c p).
  - wp_step. unfold wp at 1. rewrite (load_ok _ _ _ (hk_size _ _ _ _ H)). destruct (Z.ltb_spec p (c + k)); wp_step.
    + split; [|done]. lia.
    + exists (32 - (i + 1)). split; [|lia]. split; [done|]. split; [lia|]. split; [done|]. right. lia.
  - wp_step. exists (32 - (i + 1)). split; [|lia]. split; [done|]. split; [lia|]. split; [done|]. right. lia.
Qed.

Lemma free_calls r c k u p s :
  heap_ok c k u s -> p <> 0 -> no_header p s -> free_with r p s = free_to_size_class r p 0 s.
Proof using Type.
  intros H Hp Hh. destruct (load_header p s Hh) as (v & E & Hv). unfold free_with.
  rewrite (proj2 (Z.eqb_neq p 0)) by done. rewrite (bind_ok _ _ _ _ _ E), (proj2 (Z.eqb_neq v BLOCK_MAGIC)) by done.
  rewrite (bind_ok _ _ _ _ _ (find_first_class c k u 1 s H ltac:(lia))).
  by rewrite (bind_ok _ _ _ _ _ (free_finds_class0 c k u p s H)).
Qed.

(** ** Freed and requested again *)

(** The list after [free p]. *)
Definition pushed (p L n : Z) (s : heap W) : heap W :=
  set_mem (CMem.write (L + 8 * n) (le_bytes 8 p) (mem_of s)) (with_class0 L (n + 1) s).

Lemma free_push r p L n s :
  class0 L n s -> n < 1024 -> n mod 64 <> 0 -> mapped (mem_of s) (L + 8 * n) 8 ->
  free_to_size_class r p 0 s = Ok (tt, pushed p L n s).
Proof using Type.
  intros Hc Hn Hm Hs. unfold free_to_size_class.
  pose proof (get_class_ok 0 _ s Hc) as E. rewrite (bind_ok _ _ _ _ _ E). cbn [sc_free_count].
  rewrite (proj2 (Z.ltb_lt n 1024)), (proj2 (Z.eqb_neq (n mod 64) 0)) by done.
  rewrite (bind_ok (ret true) true _ s s) by done. rewrite (bind_ok _ _ _ _ _ E). cbn [sc_size sc_free_list sc_free_count sc_arena].
  rewrite (bind_ok (set_class _ _) tt _ s (with_class0 L (n + 1) s)) by done. by rewrite store_ok.
Qed.

(** A block freed into a list with room is the next one for a request of 8
    bytes or less, whatever its own size; the heap is then as before, but for
    the slot of the list that held it. *)
Theorem free_malloc depth c k u p L n size s :
  heap_ok c k u s -> class0 L n s -> L <> 0 -> 0 <= n < 1024 -> n mod 64 <> 0 ->
  main_arena (statics s) + 32 <= L + 8 * n -> mapped (mem_of s) (L + 8 * n) 8 ->
  0 < p < 2 ^ 64 -> no_header p s -> 0 < size <= 8 ->
  (free depth p ;; malloc size)%prog s = Ok (p, set_mem (CMem.write (L + 8 * n) (le_bytes 8 p) (mem_of s)) s).
Proof using Type.
  intros H Hc HL Hn Hm Ha Hs Hp Hh Hsz. unfold free.
  rewrite (bind_ok _ tt _ s (pushed p L n s)).
  2:{ rewrite (free_calls _ c k u) by (done || lia). apply free_push; [done|lia|done|done]. }
  set (s1 := pushed p L n s).
  assert (heap_ok c k u s1) as H1.
  { pose proof (with_class0_ok c k u L (n + 1) L n s H Hc) as [H1 H2 H3 H4 H5 H6 H7 H8 H9 H10 H11]. unfold s1, pushed, set_mem.
    cbn [with_class0 statics process main_arena size_classes allocator_initialized] in *.
    split; cbn [with_class0 statics process main_arena size_classes allocator_initialized memory with_memory world]; try assumption;
      try (apply ptr_at_write_out; [assumption|lia]). by apply write_mapped. }
  assert (class0 L (n + 1) s1) as Hc1 by exact (with_class0_class0 L (n + 1) L n s Hc).
  unfold malloc. rewrite (proj2 (Z.eqb_neq size 0)) by lia.
  rewrite (bind_ok init_allocator tt _ s1 s1) by (unfold init_allocator, bind, gets; by rewrite (hk_init _ _ _ _ H1)).
  unfold MAX_SMALL_SIZE. rewrite (proj2 (Z.leb_le size 4096)) by lia.
  rewrite (bind_ok _ _ _ _ _ (find_first_class c k u size s1 H1 ltac:(lia))). change (0 <=? 0) with true. cbv iota.
  unfold alloc_from_size_class. rewrite (bind_ok _ _ _ _ _ (get_class_ok 0 _ s1 Hc1)). cbn [sc_size sc_free_list sc_free_count sc_arena].
  rewrite (proj2 (Z.eqb_neq L 0)), (proj2 (Z.ltb_lt 0 (n + 1))) by lia. cbn [negb andb].
  rewrite (bind_ok (load _) p _ s1 s1).
  2:{ apply load_ok. replace (n + 1 - 1) with n by lia. unfold s1, pushed, set_mem. cbn [process memory with_memory]. apply ptr_at_write. lia. }
  unfold set_class, upd_statics, modify, bind, ret. unfold s1, pushed, with_class0, set_mem.
  cbn [statics process main_arena size_classes allocator_initialized]. replace (n + 1 - 1) with n by lia.
  change (Z.to_nat 0) with 0%nat. rewrite list_insert_insert_eq. rewrite list_insert_id by exact Hc.
  by destruct s as [[] ?].
Qed.

(** ** [realloc] takes every block for one of 8 bytes *)

(** No class but 0 has a free block. *)
Definition others_empty (s : heap W) : Prop := forall i, (0 < i < 32)%nat -> no_free i s.

Lemma class_above n : 8 < n <= 4096 -> exists i, class_of n = Some i /\ (0 < i < 10)%nat /\ block_size n = class_size i.
Proof using Type.
  intros Hn. destruct (class_of_small n ltac:(lia)) as (i & E & Hi & Hle & _). exists i. split; [done|]. split.
  - destruct i; [cbn in Hle; lia|lia].
  - unfold block_size. by rewrite E.
Qed.

Lemma malloc_above c k u n s : heap_ok c k u s -> others_empty s -> 8 < n <= 4096 -> c <> 0 -> u < k ->
  malloc n s = Ok (c + u, taken (block_size n) u s).
Proof using Type.
  intros H Ho Hn Hc Hu. destruct (class_above n Hn) as (i & E & Hi & ->).
  destruct (malloc_small c k u n s H ltac:(lia)) as (j & E' & Hj & ->). rewrite E in E'. injection E' as <-.
  apply (alloc_in_chunk c k); [done|apply Ho; lia|done|done].
Qed.

Lemma realloc_calls depth c k u p n s :
  heap_ok c k u s -> p <> 0 -> no_header p s -> 8 < n ->
  realloc (S depth) p n s =
    bind (malloc n) (fun q => if q =? 0 then ret 0
      else (on_proc (on_mem (memcpy q p 8)) ;; free_with (realloc depth) p ;; ret q)%prog) s.
Proof using Type.
  intros H Hp Hh Hn. destruct (load_header p s Hh) as (v & E & Hv). cbn [realloc]. unfold realloc_with.
  rewrite (proj2 (Z.eqb_neq p 0)), (proj2 (Z.eqb_neq n 0)) by lia. rewrite (bind_ok _ _ _ _ _ E), (proj2 (Z.eqb_neq v BLOCK_MAGIC)) by done.
  rewrite (bind_ok _ 8 _ s s).
  - rewrite (proj2 (Z.leb_gt n 8)), (proj2 (Z.ltb_lt 8 n)) by lia. reflexivity.
  - rewrite (bind_ok _ _ _ _ _ (find_first_class c k u 0 s H ltac:(lia))). change (0 <=? 0) with true. cbv iota.
    destruct (lookup_lt_is_Some_2 (size_classes (statics s)) 0) as [sc Hsc].
    { rewrite <- (length_map sc_size), (hk_sizes _ _ _ _ H), class_sizes_length. lia. }
    rewrite (bind_ok _ _ _ _ _ (get_class_ok 0 sc s Hsc)).
    destruct (class_size_lookup _ _ _ _ _ _ H Hsc) as [-> _]. reflexivity.
Qed.

Lemma memcpy_step p q l s :
  bytes_at (mem_of s) p l -> length l = 8%nat -> Forall byte l -> mapped (mem_of s) q 8 -> q + 8 <= p \/ p + 8 <= q ->
  on_proc (on_mem (memcpy q p 8)) s = Ok (q, set_mem (CMem.write q l (mem_of s)) s).
Proof using Type.
  intros Hl Hlen Hb Hq Hd. pose proof (memcpy_ok q p l (mem_of s) Hb) as E. rewrite Hlen in E. change (Z.of_nat 8) with 8 in E.
  unfold on_proc, on_mem. rewrite E; [done|lia|done|done|lia].
Qed.

(** Outside the chunk's count, [taken] leaves a word alone. *)
Lemma no_header_kept p s s' : no_header p s -> (forall x, p - 8 <= x < p -> mem_of s' !! x = mem_of s !! x) -> no_header p s'.
Proof using Type.
  intros (v & [Hv H] & Hne) Hx. exists v. split; [|done]. split; [done|]. intros i b Hi. apply lookup_lt_Some in Hi as Hl.
  rewrite le_bytes_length in Hl. rewrite Hx by lia. by apply H.
Qed.

(** A block of any size that is reallocated to more than 8 bytes keeps only
    its first 8: the rest of the new block is what memory held there. *)
Theorem realloc_truncates depth c k u p n L cnt l s :
  heap_ok c k u s -> class0 L cnt s -> others_empty s -> c <> 0 -> u + 8 <= k -> 8 < n <= 4096 ->
  0 <= cnt < 1024 -> cnt mod 64 <> 0 -> main_arena (statics s) + 32 <= L + 8 * cnt -> L + 8 * cnt + 8 <= c + u -> mapped (mem_of s) (L + 8 * cnt) 8 ->
  no_header p s -> main_arena (statics s) + 40 <= p -> p + 8 <= c + u -> bytes_at (mem_of s) p l -> length l = 8%nat -> Forall byte l ->
  exists s', realloc (S depth) p n s = Ok (c + u, s') /\ bytes_at (mem_of s') (c + u) l /\
    forall x, c + u + 8 <= x -> mem_of s' !! x = mem_of s !! x.
Proof using Type.
  intros H Hc Ho Hc0 Hu Hn Hcnt Hmod HL1 HL2 HLm Hh Hp1 Hp2 Hl Hlen Hb. pose proof (hk_arena _ _ _ _ H) as HA.
  pose proof (hk_bound _ _ _ _ H) as Hub. pose proof (hk_end _ _ _ _ H) as He. pose proof (hk_place _ _ _ _ H) as Hpl. pose proof (block_size_small n ltac:(lia)) as Hsz.
  rewrite (realloc_calls depth c k u p n s) by (done || lia).
  rewrite (bind_ok _ _ _ _ _ (malloc_above c k u n s H Ho Hn Hc0 ltac:(lia))). rewrite (proj2 (Z.eqb_neq (c + u) 0)) by lia.
  set (s1 := taken (block_size n) u s). set (A := main_arena (statics s)) in *.
  assert (forall x, A + 32 <= x -> mem_of s1 !! x = mem_of s !! x) as M1.
  { intros x Hx. unfold s1, taken, set_mem. cbn [process memory with_memory]. apply write_lookup_out. rewrite le_bytes_length. fold A. lia. }
  assert (forall a m, mapped (mem_of s) a m -> mapped (mem_of s1) a m) as MM1 by (intros a m Ham; by apply write_mapped).
  assert (bytes_at (mem_of s1) p l) as Hl1 by (intros i b Hi; rewrite M1 by lia; by apply Hl).
  rewrite (bind_ok _ _ _ _ _ (memcpy_step p (c + u) l s1 Hl1 Hlen Hb
    (MM1 _ _ (mapped_le _ c k (c + u) 8 (hk_chunk _ _ _ _ H) ltac:(lia) ltac:(lia))) ltac:(lia))).
  set (s2 := set_mem (CMem.write (c + u) l (mem_of s1)) s1).
  assert (forall x, A + 32 <= x -> x < c + u \/ c + u + 8 <= x -> mem_of s2 !! x = mem_of s !! x) as M2.
  { intros x Hx Hout. rewrite <- M1 by lia. apply write_lookup_out. lia. }
  assert (heap_ok c k (u + block_size n) s2) as H2.
  { destruct (taken_ok c k u (block_size n) s H ltac:(lia) ltac:(lia)) as [K1 K2 K3 K4 K5 K6 K7 K8 K9 K10 K11]. fold s1 in K1, K2, K3, K4, K5, K6, K7, K8, K9, K10.
    change (main_arena (statics s1)) with A in *.
    split; try assumption; [| | |by apply write_mapped]; (apply ptr_at_write_out; [assumption|change (main_arena (statics s2)) with A; lia]). }
  assert (no_header p s2) as Hh2 by (apply (no_header_kept p s s2 Hh); intros x Hx; apply M2; lia).
  rewrite (bind_ok _ tt _ s2 (pushed p L cnt s2)).
  2:{ rewrite (free_calls _ c k (u + block_size n)) by (done || lia). apply free_push; [exact Hc|lia|done|]. do 2 apply write_mapped. exact HLm. }
  exists (pushed p L cnt s2). split; [done|].
  assert (forall x, c + u <= x -> mem_of (pushed p L cnt s2) !! x = mem_of s2 !! x) as M3.
  { intros x Hx. unfold pushed, set_mem. cbn [process memory with_memory]. apply write_lookup_out. rewrite le_bytes_length. lia. }
  split; [|intros x Hx; rewrite M3, M2 by lia; done].
  intros i b Hi. rewrite M3 by lia. by apply write_bytes_at.
Qed.

(** ** Growing a list frees it into itself *)

(** The list of class 0 has [n] entries, which is where it is grown, and no
    block is at hand for a larger one. *)
Record emptied (n c k u L : Z) (s : heap W) : Prop := {
  em_heap : heap_ok c k u s;
  em_class : class0 L n s;
  em_others : others_empty s;
  em_count : 0 <= n <= 448 /\ n mod 64 = 0;
  em_chunk : c <> 0 /\ (8 | u) /\ (8 | k);
  em_header : no_header L s;
  em_list : exists l, bytes_at (mem_of s) L l /\ length l = 8%nat /\ Forall byte l;
  em_place : main_arena (statics s) + 40 <= L /\ L + 8 <= c + u /\ L + 8 <= break_at s;
}.

Lemma emptied_kept n c k u L c' k' u' s s' :
  emptied n c k u L s -> statics s' = statics s -> heap_ok c' k' u' s' -> (forall x, L - 8 <= x < L + 8 -> mem_of s' !! x = mem_of s !! x) ->
  c' <> 0 /\ (8 | u') /\ (8 | k') -> L + 8 <= c' + u' -> L + 8 <= break_at s' -> emptied n c' k' u' L s'.
Proof using Type.
  intros [H1 H2 H3 Hn H4 H5 (l & Hl & Hlen & Hb) H7] E Hok Hx Hc HL1 HL2. split; try done.
  - unfold class0. by rewrite E.
  - intros i Hi. unfold no_free. rewrite E. by apply H3.
  - apply (no_header_kept L s s' H5). intros x Hxx. apply Hx. lia.
  - exists l. split; [|done]. intros i b Hi. rewrite Hx by (apply lookup_lt_Some in Hi; lia). by apply Hl.
  - rewrite E. lia.
Qed.

Lemma block_size_8 z : 0 < z <= 4096 -> (8 | block_size z).
Proof using Type.
  intros Hz. destruct (class_of_small z Hz) as (i & E & Hi & _). unfold block_size. rewrite E. cbn [from_option]. unfold class_size.
  rewrite class_sizes_small by done. cbn [default]. apply Z.divide_factor_l.
Qed.

(** The new list comes from the chunk, or from a new one. *)
Lemma emptied_malloc n c k u L s :
  plenty (W := W) -> emptied n c k u L s -> break_at s + 65536 < 2 ^ 46 ->
  exists q c' k' u' s', malloc ((n + 64) * 8) s = Ok (q, s') /\ emptied n c' k' u' L s' /\ L + 8 <= q /\ mapped (mem_of s') q 8 /\
    break_at s' <= break_at s + 65536.
Proof using Type.
  intros Hp He Hlt. pose proof He as [H1 H2 H3 [Hn _] (Hc & Hu8 & Hk8) H5 H6 (HL1 & HL2 & HL3)].
  pose proof (hk_arena _ _ _ _ H1) as HA. pose proof (hk_bound _ _ _ _ H1) as Hub.
  pose proof (hk_end _ _ _ _ H1) as Hend. pose proof (hk_place _ _ _ _ H1) as Hpl.
  set (z := (n + 64) * 8). assert (8 < z <= 4096) as Hz by lia.
  pose proof (block_size_small z ltac:(lia)) as Hsz. pose proof (block_size_8 z ltac:(lia)) as Hs8.
  destruct (decide (u < k)) as [Hin|Hout].
  - assert (u + 8 <= k) by (destruct Hu8 as [a ->], Hk8 as [b ->]; lia).
    pose proof (malloc_above c k u z s H1 H3 Hz Hc Hin) as E.
    pose proof (taken_ok c k u (block_size z) s H1 ltac:(lia) ltac:(lia)) as Hok. destruct (taken_only_arena (block_size z) u s) as [O1 O2 O3].
    exists (c + u), c, k, (u + block_size z), (taken (block_size z) u s). split; [exact E|]. split; [|split; [done|split; [|cbn; lia]]].
    + apply (emptied_kept n c k u L c k (u + block_size z) s); try done; [intros x Hx; apply O2; lia| |lia].
      split; [done|]. split; [|done]. by apply Z.divide_add_r.
    + apply (mapped_le _ c k); [apply (hk_chunk _ _ _ _ Hok)|lia|lia].
  - destruct (malloc_small c k u z s H1 ltac:(lia)) as (i & E & Hi & E'). destruct (class_above z Hz) as (j & Ej & Hj & Eb).
    rewrite Ej in E. injection E as <-.
    destruct (alloc_new_chunk_plenty c k u s j Hp H1 (H3 j ltac:(lia)) ltac:(right; lia) Hlt) as (s' & E & Hok & [O1 O2 O3] & Hbr).
    rewrite <- Eb in Hok. exists (break_at s), (break_at s), 65536, (block_size z), s'. split; [by rewrite E'|]. split; [|split; [done|split; [|lia]]].
    + apply (emptied_kept n c k u L (break_at s) 65536 (block_size z) s); try done; [intros x Hx; apply O2; lia| |lia|lia].
      split; [lia|]. split; [done|by exists 8192].
    + apply (mapped_le _ (break_at s) 65536); [apply (hk_chunk _ _ _ _ Hok)|lia|lia].
Qed.

Lemma bind_spins {S A B} (m : prog S A) (k : A -> prog S B) x : m x = Spin -> bind m k x = Spin.
Proof using Type. unfold bind. by intros ->. Qed.

Lemma free_grows r n c k u p L s :
  heap_ok c k u s -> class0 L n s -> 0 <= n <= 448 /\ n mod 64 = 0 -> p <> 0 -> no_header p s -> r L ((n + 64) * 8) s = Spin -> free_with r p s = Spin.
Proof using Type.
  intros H Hc [Hn Hm] Hp Hh E. rewrite (free_calls r c k u p s H Hp Hh). unfold free_to_size_class.
  rewrite (bind_ok _ _ _ _ _ (get_class_ok 0 _ s Hc)). cbn [sc_free_count sc_free_list].
  rewrite (proj2 (Z.ltb_lt n 1024)), Hm by lia. change (0 =? 0) with true. cbv iota. rewrite wrap_small by lia.
  apply bind_spins. by apply bind_spins.
Qed.

Lemma realloc_diverges n L depth : plenty (W := W) -> forall c k u s, emptied n c k u L s ->
  break_at s + 65536 * (Z.of_nat depth + 1) < 2 ^ 46 -> realloc depth L ((n + 64) * 8) s = Spin.
Proof using Type.
  intros Hp. induction depth as [|depth IH]; intros c k u s He Hlt; [done|].
  pose proof He as [H1 H2 H3 Hn _ H5 H6 (HL1 & HL2 & HL3)]. pose proof (hk_arena _ _ _ _ H1) as HA.
  rewrite (realloc_calls depth c k u L _ s) by (done || lia).
  destruct (emptied_malloc n c k u L s Hp He ltac:(lia)) as (q & c' & k' & u' & s1 & E & He1 & HLq & Hq & Hb).
  rewrite (bind_ok _ _ _ _ _ E). rewrite (proj2 (Z.eqb_neq q 0)) by lia.
  pose proof He1 as [K1 K2 K3 _ K4 K5 (l & Hl & Hlen & Hbl) K7].
  rewrite (bind_ok _ _ _ _ _ (memcpy_step L q l s1 Hl Hlen Hbl Hq ltac:(lia))).
  set (s2 := set_mem (CMem.write q l (mem_of s1)) s1).
  assert (emptied n c' k' u' L s2) as He2.
  { apply (emptied_kept n c' k' u' L c' k' u' s1); try done; try lia.
    - destruct K1 as [G1 G2 G3 G4 G5 G6 G7 G8 G9 G10 G11]. split; try assumption; [| | |by apply write_mapped];
        (apply ptr_at_write_out; [assumption|change (main_arena (statics s2)) with (main_arena (statics s1)); lia]).
    - intros x Hx. apply write_lookup_out. lia.
    - change (break_at s2) with (break_at s1). lia. }
  apply bind_spins. apply (free_grows _ n c' k' u' L L); [apply He2|apply He2|done|lia|apply He2|].
  apply (IH c' k' u' s2 He2). change (break_at s2) with (break_at s1). lia.
Qed.

(** C36: When the list of class 0 is full, or all of its blocks have been handed
    out again, [free] grows it, that is, it frees the list into itself, which
    grows it: no depth of recursion suffices while the system gives memory. *)
Theorem free_diverges depth n c k u p L s :
  plenty (W := W) -> emptied n c k u L s -> p <> 0 -> no_header p s ->
  break_at s + 65536 * (Z.of_nat depth + 1) < 2 ^ 46 -> free depth p s = Spin.
Proof using Type.
  intros Hp He Hp0 Hh Hlt. apply (free_grows _ n c k u p L); [apply He|apply He|apply He|done|done|]. by apply (realloc_diverges n L depth Hp c k u).
Qed.
End Free.

(** ** Witnesses *)

Lemma break_world_plenty : plenty (W := Z).
Proof.
  intros m b a Ha Hlt. cbn in *. rewrite (proj2 (Z.eqb_neq a 0)), (proj2 (Z.leb_le b a)), (proj2 (Z.ltb_lt a (2 ^ 46))) by lia.
  by exists 0, (fresh_bytes b (a - b) m), a.
Qed.

(** A heap whose arena is at 4096, with a chunk of 2 KiB behind it. *)
Definition demo_words (u : Z) : list Z := le_bytes 8 0 ++ le_bytes 8 4128 ++ le_bytes 8 2048 ++ le_bytes 8 u ++ replicate 2048 0.

Definition demo_heap (L n u : Z) : heap Z :=
  Heap (Allocator 4096 (SizeClass 8 L n 4096 :: tail (map (fun z => SizeClass z 0 0 4096) class_sizes)) true)
    (Proc (CMem.write 4096 (demo_words u) ∅) 0 6176).

Lemma demo_words_at u : let m := memory (process (demo_heap 0 0 u)) in
  bytes_at m 4104 (le_bytes 8 4128) /\ bytes_at m 4112 (le_bytes 8 2048) /\ bytes_at m 4120 (le_bytes 8 u) /\ bytes_at m 4128 (replicate 2048 0).
Proof.
  cbn. pose proof (write_bytes_at 4096 (demo_words u) ∅) as H. unfold demo_words in H at 2. rewrite !bytes_at_app, !le_bytes_length in H. tauto.
Qed.

Lemma demo_classes L n : map sc_size (SizeClass 8 L n 4096 :: tail (map (fun z => SizeClass z 0 0 4096) class_sizes)) = class_sizes.
Proof. by vm_compute. Qed.

Lemma demo_heap_ok L n u : 0 <= u < 2 ^ 47 -> heap_ok 4128 2048 u (demo_heap L n u).
Proof.
  intros Hu. destruct (demo_words_at u) as (H1 & H2 & H3 & H4). split; cbn [demo_heap statics process memory main_arena size_classes allocator_initialized world].
  - reflexivity.
  - apply demo_classes.
  - constructor; [reflexivity|]. apply Forall_tail. apply Forall_map, Forall_forall. intros. reflexivity.
  - split; [lia|exact H1].
  - split; [lia|exact H2].
  - split; [lia|exact H3].
  - lia.
  - right. lia.
  - apply bytes_at_mapped in H4. rewrite length_replicate in H4. exact H4.
  - cbn. lia.
  - lia.
Qed.

Lemma demo_others L n u : others_empty (demo_heap L n u).
Proof.
  intros i Hi. destruct i as [|i]; [lia|]. destruct (empty_classes 4096 class_sizes) as (_ & _ & H).
  destruct (H (S i)) as (sc & H4 & H5); [rewrite class_sizes_length; lia|]. exists sc. split; [|by left].
  unfold demo_heap. cbn [statics size_classes]. rewrite <- H4. by destruct (map _ class_sizes).
Qed.

Lemma demo_nothing_free u : nothing_free (demo_heap 0 0 u).
Proof. intros [|i] Hi; [|apply demo_others; lia]. exists (SizeClass 8 0 0 4096). split; [reflexivity|by left]. Qed.

Lemma demo_ends L n u : ends_at_break (demo_heap L n u).
Proof.
  intros x Hx. cbn [demo_heap process memory] in *. rewrite write_lookup_out; [done|]. unfold demo_words.
  rewrite !length_app, !le_bytes_length, length_replicate. cbn in Hx. lia.
Qed.

Lemma fresh_mallocs_correct_witness :
  let s := Heap static_allocator (Proc ∅ 0 4096) in
  exists ps s', mallocs [10; 100; 4096] s = Ok (ps, s') /\ blocks_in 4128 69664 ps [10; 100; 4096] /\
    Forall2 (mapped (memory (process s'))) ps [10; 100; 4096] /\ forall x, x < 4096 -> memory (process s') !! x = memory (process s) !! x.
Proof.
  apply (fresh_mallocs_correct (BL := break_world_laws) 10 [100; 4096] (Heap static_allocator (Proc ∅ 0 4096)));
    [exact break_world_plenty|reflexivity|cbn; lia|cbn; lia|repeat constructor; lia|by vm_compute].
Defined.

Lemma malloc_overruns_chunk_witness :
  exists s', malloc 16 (demo_heap 0 0 2040) = Ok (6168, s') /\ ~ mapped (memory (process s')) 6168 16.
Proof.
  apply (malloc_overruns_chunk 4128 2048 2040 16);
    [apply demo_heap_ok; lia|apply demo_nothing_free|lia|lia|lia|reflexivity|apply demo_ends].
Defined.

Lemma malloc_overlaps_witness :
  exists p p' s' s'', malloc 16 (demo_heap 0 0 2040) = Ok (p, s') /\ malloc 1 s' = Ok (p', s'') /\ p < p' < p + 16.
Proof.
  apply (malloc_overlaps 4128 2048 2040 16 1);
    [exact break_world_plenty|apply demo_heap_ok; lia|apply demo_nothing_free|lia|lia|lia|lia|reflexivity|cbn; lia].
Defined.

Lemma malloc_large_short_witness :
  exists p s', malloc 8192 (demo_heap 0 0 0) = Ok (p, s') /\ p <> 0 /\ ~ mapped (memory (process s')) p 8192.
Proof.
  apply (malloc_large_short 4128 2048 0 8192);
    [exact break_world_plenty|apply demo_heap_ok; lia|lia|cbn; lia|apply demo_ends|by vm_compute].
Defined.

Lemma calloc_correct_witness :
  exists s', calloc 4 8 (demo_heap 0 0 0) = Ok (4128, s') /\ bytes_at (memory (process s')) 4128 (replicate 32 0).
Proof. apply (calloc_correct 4128 2048 0 4 8); [apply demo_heap_ok; lia|apply demo_nothing_free|lia..]. Defined.

Lemma demo_no_header p L n u : 4136 <= p <= 6176 -> no_header p (demo_heap L n u).
Proof.
  intros Hp. exists 0. split; [|done]. split; [lia|]. destruct (demo_words_at u) as (_ & _ & _ & H).
  intros i b Hi. assert (b = 0 /\ (i < 8)%nat) as [-> Hl].
  { change (le_bytes 8 0) with (replicate 8 0) in Hi. by apply lookup_replicate in Hi. }
  replace (p - 8 + Z.of_nat i) with (4128 + Z.of_nat (Z.to_nat (p - 4136) + i)) by lia. apply H. apply lookup_replicate. split; [done|lia].
Qed.

Lemma demo_zeros p L n u : 4128 <= p <= 6168 -> bytes_at (memory (process (demo_heap L n u))) p (replicate 8 0).
Proof.
  intros Hp. destruct (demo_words_at u) as (_ & _ & _ & H). intros i b Hi. apply lookup_replicate in Hi as [-> Hl].
  replace (p + Z.of_nat i) with (4128 + Z.of_nat (Z.to_nat (p - 4128) + i)) by lia. apply H. apply lookup_replicate. split; [done|lia].
Qed.

Lemma demo_heap_mapped p L n u : 4128 <= p <= 6168 -> mapped (memory (process (demo_heap L n u))) p 8.
Proof. intros Hp. exact (bytes_at_mapped _ _ _ (demo_zeros p L n u Hp)). Qed.

(** A list of 512 bytes at 4144, one block in it. *)
Lemma free_malloc_witness : let s := demo_heap 4144 1 600 in
  (free 0 4700 ;; malloc 3)%prog s = Ok (4700, set_mem (CMem.write 4152 (le_bytes 8 4700) (memory (process s))) s).
Proof.
  apply (free_malloc 0 4128 2048 600 4700 4144 1 3);
    [apply demo_heap_ok; lia|reflexivity|lia|lia|done|cbn; lia|apply demo_heap_mapped; lia|lia|apply demo_no_header; lia|lia].
Defined.

Lemma realloc_truncates_witness :
  exists s', realloc 1 4400 100 (demo_heap 4144 1 600) = Ok (4728, s') /\ bytes_at (memory (process s')) 4728 (replicate 8 0) /\
    forall x, 4736 <= x -> memory (process s') !! x = memory (process (demo_heap 4144 1 600)) !! x.
Proof.
  apply (realloc_truncates 0 4128 2048 600 4400 100 4144 1 (replicate 8 0));
    [apply demo_heap_ok; lia|reflexivity|apply demo_others|lia|lia|lia|lia|done|cbn; lia|lia|apply demo_heap_mapped; lia|
     apply demo_no_header; lia|cbn; lia|lia|apply demo_zeros; lia|reflexivity|repeat constructor; lia].
Defined.

(** A list of 64 blocks at 4144. *)
Lemma free_diverges_witness : free 1000 5000 (demo_heap 4144 64 600) = Spin.
Proof.
  apply (free_diverges 1000 64 4128 2048 600 5000 4144); [exact break_world_plenty| |lia|apply demo_no_header; lia|cbn; lia].
  split; [apply demo_heap_ok; lia|reflexivity|apply demo_others|split; [lia|done]| |apply demo_no_header; lia| |cbn; lia].
  - split; [lia|]. split; [by exists 75|by exists 256].
  - exists (replicate 8 0). split; [apply demo_zeros; lia|]. split; [reflexivity|repeat constructor; lia].
Defined.
