(* ===== verification/Fileops.v ===== *)
(** * Streams of the C library (libc/src/stdio/fileops.c)

    A [FILE] lies in the memory of the process, in a block of the heap of
    [Malloc]; the pointers [stdin], [stdout], [stderr] and the flag of
    [init_stdio] are static variables beside the heap ([stdio]).  Reading and
    writing need no static variable and are programs of the process.
    [addr_c] is the address of the local character of [fgetc] and [fputc];
    [strerror], which string.h declares and nothing defines, is a parameter
    of [perror], as are the addresses of its format strings. *)

From S2P Require Import Libcall Malloc Printf Libc Prelude CMem MemFns CStr.

Definition FILE_TYPE_READ : Z := 1.
Definition FILE_TYPE_WRITE : Z := 2.
Definition FILE_TYPE_APPEND : Z := 4.

Definition SEEK_SET : Z := 0.
Definition SEEK_CUR : Z := 1.
Definition SEEK_END : Z := 2.

Definition STDIN_FILENO : Z := 0.
Definition STDOUT_FILENO : Z := 1.
Definition STDERR_FILENO : Z := 2.

(** [FILE]: fd at offset 0, flags at 4, buffer at 8, buffer_size at 16,
    buffer_pos at 24, buffer_used at 32, eof at 40, error at 44. *)
Definition sizeof_FILE : Z := 48.
Definition EOF : Z := -1.

(** ** Modes *)

Definition parse_mode (mode : Z) : prog mem Z :=
  if mode =? 0 then ret (-1)
  else
    let* c := load_char mode in
    if c =? 114 then
      let* d := load_char (mode + 1) in
      ret (if d =? 43 then Z.lor FILE_TYPE_READ FILE_TYPE_WRITE else FILE_TYPE_READ)
    else if c =? 119 then
      let* d := load_char (mode + 1) in
      ret (if d =? 43 then Z.lor FILE_TYPE_WRITE FILE_TYPE_READ else FILE_TYPE_WRITE)
    else if c =? 97 then
      let* d := load_char (mode + 1) in
      ret (if d =? 43 then Z.lor FILE_TYPE_APPEND FILE_TYPE_READ else FILE_TYPE_APPEND)
    else ret (-1).

Definition has_flag (flags flag : Z) : bool := negb (Z.land flags flag =? 0).

Definition mode_to_open_flags (mode_flags : Z) : Z :=
  if has_flag mode_flags FILE_TYPE_READ then
    if has_flag mode_flags FILE_TYPE_WRITE then O_RDWR else O_RDONLY
  else if has_flag mode_flags FILE_TYPE_WRITE then Z.lor (Z.lor O_WRONLY O_CREAT) O_TRUNC
  else if has_flag mode_flags FILE_TYPE_APPEND then Z.lor (Z.lor O_WRONLY O_CREAT) O_APPEND
  else 0.

Section Streams.
Context {W : Type} {RC : RawCalls W}.
Context (addr_c : Z).

Abbreviation io := (prog (proc W)).

(** The members of a stream. *)
Definition get_int (a : Z) : io Z := let* v := on_mem (load32 a) in ret (s32 v).
Definition set_int (a v : Z) : io unit := on_mem (store32 a (u32 v)).
Definition fd_of (stream : Z) : io Z := get_int stream.
Definition flags_of (stream : Z) : io Z := get_int (stream + 4).
Definition set_eof (stream v : Z) : io unit := set_int (stream + 40) v.
Definition set_error (stream v : Z) : io unit := set_int (stream + 44) v.

(** ** Reading and writing *)

Definition fread (ptr size nmemb stream : Z) : io Z :=
  if (ptr =? 0) || (stream =? 0) || (size =? 0) || (nmemb =? 0) then ret 0
  else
    let total_bytes := u64 (size * nmemb) in
    let* flags := flags_of stream in
    if negb (has_flag flags FILE_TYPE_READ) then set_error stream 1 ;; ret 0
    else
      let* fd := fd_of stream in
      let* result := Libcall.read fd ptr total_bytes in
      if result <? 0 then set_error stream 1 ;; ret 0
      else if result =? 0 then set_eof stream 1 ;; ret 0
      else ret (result / size).

Definition fwrite (ptr size nmemb stream : Z) : io Z :=
  if (ptr =? 0) || (stream =? 0) || (size =? 0) || (nmemb =? 0) then ret 0
  else
    let total_bytes := u64 (size * nmemb) in
    let* flags := flags_of stream in
    if negb (has_flag flags (Z.lor FILE_TYPE_WRITE FILE_TYPE_APPEND)) then set_error stream 1 ;; ret 0
    else
      let* fd := fd_of stream in
      let* result := Libcall.write fd ptr total_bytes in
      if result <? 0 then set_error stream 1 ;; ret 0
      else ret (result / size).

Definition fseek (stream offset whence : Z) : io Z :=
  if stream =? 0 then ret (-1)
  else
    let* fd := fd_of stream in
    let* result := Libcall.lseek fd offset whence in
    if result <? 0 then set_error stream 1 ;; ret (-1)
    else set_eof stream 0 ;; ret 0.

Definition ftell (stream : Z) : io Z :=
  if stream =? 0 then ret (-1)
  else
    let* fd := fd_of stream in
    let* result := Libcall.lseek fd 0 SEEK_CUR in
    if result <? 0 then set_error stream 1 ;; ret (-1)
    else ret result.

Definition rewind (stream : Z) : io unit :=
  if negb (stream =? 0) then
    fseek stream 0 SEEK_SET ;;
    set_error stream 0 ;;
    set_eof stream 0
  else ret tt.

Definition fgetc (stream : Z) : io Z :=
  if stream =? 0 then ret EOF
  else
    let* result := fread addr_c 1 1 stream in
    if negb (result =? 1) then ret EOF
    else on_mem (load8 addr_c).

Definition fputc (c stream : Z) : io Z :=
  if stream =? 0 then ret EOF
  else
    on_mem (store8 addr_c c) ;;
    let* result := fwrite addr_c 1 1 stream in
    if negb (result =? 1) then ret EOF
    else ret c.

Definition fgets (s size stream : Z) : io Z :=
  if (s =? 0) || (stream =? 0) || (size <=? 0) then ret 0
  else
    let* ptr := loop (fun '(ptr, size) =>
      if 1 <? size then
        let* c := fgetc stream in
        if negb (c =? EOF) then
          on_mem (store8 ptr c) ;;
          if c =? 10 then ret (Done (ptr + 1)) else ret (Next (ptr + 1, size - 1))
        else ret (Done ptr)
      else ret (Done ptr)) (s, size) in
    if ptr =? s then ret 0
    else on_mem (store8 ptr 0) ;; ret s.

Definition fputs (s stream : Z) : io Z :=
  if (s =? 0) || (stream =? 0) then ret EOF
  else
    let* len := on_mem (strlen s) in
    let* result := fwrite s 1 len stream in
    if negb (result =? len) then ret EOF else ret 0.

Definition clearerr (stream : Z) : io unit :=
  if negb (stream =? 0) then set_error stream 0 ;; set_eof stream 0 else ret tt.

Definition feof (stream : Z) : io Z := if negb (stream =? 0) then get_int (stream + 40) else ret 1.
Definition ferror (stream : Z) : io Z := if negb (stream =? 0) then get_int (stream + 44) else ret 1.
End Streams.

(** [printf.c] writes to streams through this [fwrite]. *)
#[export] Instance stdio_fwrite {W} {RC : RawCalls W} : FWrite W := fwrite.

(** ** Opening and closing *)

Record stdio (W : Type) : Type := Stdio {
  heap_of : heap W; stdin : Z; stdout : Z; stderr : Z; initialized : bool;
}.
Arguments Stdio {W} _ _ _ _ _.
Arguments heap_of {W} _.
Arguments stdin {W} _.
Arguments stdout {W} _.
Arguments stderr {W} _.
Arguments initialized {W} _.

(** Before [main]. *)
Definition new_stdio {W} (p : proc W) : stdio W := Stdio (Heap static_allocator p) 0 0 0 false.

Section Opening.
Context {W : Type} {RC : RawCalls W}.

Abbreviation sprog := (prog (stdio W)).

Definition on_heap {A} (p : prog (heap W) A) : sprog A :=
  fun s => match p (heap_of s) with
           | Ok (a, h) => Ok (a, Stdio h (stdin s) (stdout s) (stderr s) (initialized s))
           | Fault => Fault
           | Spin => Spin
           end.
Definition on_io {A} (p : prog (proc W) A) : sprog A := on_heap (on_proc p).

(** The stores to a new stream, in order. *)
Definition fill_FILE (stream fd flags : Z) : prog (proc W) unit :=
  set_int stream fd ;;
  set_int (stream + 4) flags ;;
  on_mem (store64 (stream + 8) 0) ;;
  on_mem (store64 (stream + 16) 0) ;;
  on_mem (store64 (stream + 24) 0) ;;
  on_mem (store64 (stream + 32) 0) ;;
  set_int (stream + 40) 0 ;;
  set_int (stream + 44) 0.

(** One of the three standard streams; [assign] sets its pointer. *)
Definition new_stream (assign : Z -> stdio W -> stdio W) (fd flags : Z) : sprog unit :=
  let* stream := on_heap (malloc sizeof_FILE) in
  modify (assign stream) ;;
  if negb (stream =? 0) then on_io (fill_FILE stream fd flags) else ret tt.

Definition set_stdin (f : Z) (s : stdio W) : stdio W := Stdio (heap_of s) f (stdout s) (stderr s) (initialized s).
Definition set_stdout (f : Z) (s : stdio W) : stdio W := Stdio (heap_of s) (stdin s) f (stderr s) (initialized s).
Definition set_stderr (f : Z) (s : stdio W) : stdio W := Stdio (heap_of s) (stdin s) (stdout s) f (initialized s).

Definition init_stdio : sprog unit :=
  let* i := gets initialized in
  if i then ret tt
  else
    new_stream set_stdin STDIN_FILENO FILE_TYPE_READ ;;
    new_stream set_stdout STDOUT_FILENO FILE_TYPE_WRITE ;;
    new_stream set_stderr STDERR_FILENO FILE_TYPE_WRITE ;;
    modify (fun s => Stdio (heap_of s) (stdin s) (stdout s) (stderr s) true).

Definition fdopen (fd mode : Z) : sprog Z :=
  init_stdio ;;
  let* mode_flags := on_io (on_mem (parse_mode mode)) in
  if mode_flags <? 0 then ret 0
  else
    let* stream := on_heap (malloc sizeof_FILE) in
    if stream =? 0 then ret 0
    else on_io (fill_FILE stream fd mode_flags) ;; ret stream.

Definition fopen (pathname mode : Z) : sprog Z :=
  init_stdio ;;
  let* mode_flags := on_io (on_mem (parse_mode mode)) in
  if mode_flags <? 0 then ret 0
  else
    let open_flags := mode_to_open_flags mode_flags in
    let* fd := on_io (Libcall.open pathname open_flags [420]) in
    if fd <? 0 then ret 0 else fdopen fd mode.

Definition fclose (depth : nat) (stream : Z) : sprog Z :=
  if stream =? 0 then ret EOF
  else
    let* flags := on_io (flags_of stream) in
    (if has_flag flags (Z.lor FILE_TYPE_WRITE FILE_TYPE_APPEND) then
       let* buffer := on_io (on_mem (load64 (stream + 8))) in
       let* flush := (if negb (buffer =? 0) then
                        let* used := on_io (on_mem (load64 (stream + 32))) in ret (0 <? used)
                      else ret false) in
       if (flush : bool) then
         let* fd := on_io (fd_of stream) in
         let* buffer := on_io (on_mem (load64 (stream + 8))) in
         let* used := on_io (on_mem (load64 (stream + 32))) in
         on_io (Libcall.write fd buffer used) ;; ret tt
       else ret tt
     else ret tt) ;;
    let* fd := on_io (fd_of stream) in
    let* result := on_io (Libcall.close fd) in
    let* buffer := on_io (on_mem (load64 (stream + 8))) in
    (if negb (buffer =? 0) then on_heap (free depth buffer) else ret tt) ;;
    on_heap (free depth stream) ;;
    ret (if result =? 0 then 0 else EOF).

(** "%s: " and "%s\n" are at [lit_s_colon] and [lit_s_line]. *)
Definition perror (addr_c lit_null lit_0x : Z) (stack : list Z) (strerror : Z -> prog (proc W) Z) (lit_s_colon lit_s_line s : Z) : sprog unit :=
  (if negb (s =? 0) then
     let* f := gets stderr in
     on_io (fprintf addr_c lit_null lit_0x stack f lit_s_colon [s]) ;; ret tt
   else ret tt) ;;
  let* f := gets stderr in
  let* e := gets (fun s => errno_value (process (heap_of s))) in
  let* text := on_io (strerror e) in
  on_io (fprintf addr_c lit_null lit_0x stack f lit_s_line [text]) ;;
  ret tt.
End Opening.
