(* ===== verification/FileopsProofs.v ===== *)
(** * Streams: correctness

    The theorems hold over any system calls that obey [FileCalls]: a read
    takes at most the bytes asked for from the input of a descriptor, and
    none only at its end; a write takes at least one byte.  [fgets] reads a
    line ([fgets_correct]), [fputs] writes a string as far as one call of the
    system takes it ([fputs_correct]), formatted output arrives at the
    descriptor ([fprintf_to_file]), [fopen] makes a stream out of a block of
    the heap ([fopen_correct]), and the modes "w+" and "a+" open files
    otherwise than C says ([mode_flags]). *)

From S2P Require Import Libcall LibcallProofs Malloc MallocProofs MallocFree Printf PrintfSpec PrintfProofs PrintfSinks PrintfMain Libc Fileops Prelude CMem MemFns CStr.

#[local] Arguments le_bytes : simpl never.
#[local] Arguments CMem.write : simpl never.

(** ** Descriptors *)

Class FileCalls (W : Type) {RC : RawCalls W} : Type := {
  readable : Z -> W -> Prop;
  input : Z -> W -> list Z;
  consume : Z -> Z -> W -> W;
  read_law : forall m w fd buf n, readable fd w -> 0 < n < 2 ^ 63 -> mapped m buf n ->
    exists r, 0 <= r <= n /\ r <= Z.of_nat (length (input fd w)) /\ (r = 0 -> input fd w = []) /\
      raw (syscall_read fd buf n) (m, w) = Ok (r, (CMem.write buf (take (Z.to_nat r) (input fd w)) m, consume fd r w));
  input_bytes : forall fd w, readable fd w -> Forall byte (input fd w);
  consume_law : forall fd r w, readable fd w -> readable fd (consume fd r w) /\ input fd (consume fd r w) = drop (Z.to_nat r) (input fd w);
  consume_0 : forall fd w, consume fd 0 w = w;
  consume_add : forall fd r1 r2 w, 0 <= r1 -> 0 <= r2 -> consume fd r2 (consume fd r1 w) = consume fd (r1 + r2) w;
  accepting : Z -> W -> Prop;
  output_to : Z -> list Z -> W -> W;
  write_law : forall m w fd buf l, accepting fd w -> l <> [] -> Z.of_nat (length l) < 2 ^ 63 -> bytes_at m buf l ->
    exists r, 0 < r <= Z.of_nat (length l) /\
      raw (syscall_write fd buf (Z.of_nat (length l))) (m, w) = Ok (r, (m, output_to fd (take (Z.to_nat r) l) w));
  output_nil : forall fd w, output_to fd [] w = w;
  output_app : forall fd l1 l2 w, output_to fd (l1 ++ l2) w = output_to fd l2 (output_to fd l1 w);
  output_accepting : forall fd l w, accepting fd w -> accepting fd (output_to fd l w);
}.

Section Proofs.
Context {W : Type} {RC : RawCalls W}.
Implicit Types (s : proc W).

(** ** Members *)

Lemma signed_unsigned v : - 2 ^ 31 <= v < 2 ^ 31 -> s32 (u32 v) = v.
Proof using Type.
  intros Hv. unfold swrap, wrap. rewrite Zplus_mod_idemp_l. change (32 - 1) with 31. rewrite Z.mod_small; lia.
Qed.

Lemma on_mem_ok {A} (p : prog mem A) a m s : p (memory s) = Ok (a, m) -> on_mem p s = Ok (a, with_memory m s).
Proof using Type. unfold on_mem. by intros ->. Qed.

Lemma get_int_ok a v s : uint_at (memory s) a (u32 v) -> - 2 ^ 31 <= v < 2 ^ 31 -> get_int a s = Ok (v, s).
Proof using Type.
  intros H Hv. unfold get_int.
  assert (load32 a (memory s) = Ok (u32 v, memory s)) as E by (apply wp_det; by apply wp_load32 with (u32 v)).
  rewrite (bind_ok _ _ _ _ _ (on_mem_ok _ _ _ _ E)), with_memory_id. by rewrite signed_unsigned.
Qed.

Lemma set_int_ok a v s : mapped (memory s) a 4 -> set_int a v s = Ok (tt, with_memory (CMem.write a (le_bytes 4 (u32 v)) (memory s)) s).
Proof using Type. intros H. apply on_mem_ok, wp_det. by apply wp_store32. Qed.

(** The stream at [f] for the descriptor [fd]. *)
Record stream_at (f fd flags : Z) (m : mem) : Prop := {
  sa_fd : uint_at m f (u32 fd);
  sa_flags : uint_at m (f + 4) (u32 flags);
  sa_mapped : mapped m f 48;
  sa_range : f <> 0 /\ - 2 ^ 31 <= fd < 2 ^ 31 /\ 0 <= flags < 8;
}.

Lemma stream_kept f fd flags m m' :
  stream_at f fd flags m -> (forall x, f <= x < f + 40 -> m' !! x = m !! x) -> (forall a n, mapped m a n -> mapped m' a n) -> stream_at f fd flags m'.
Proof using Type.
  intros [H1 H2 H3 H4] Hx Hm. split; [|  |by apply Hm|done]; (eapply uint_at_kept; [eassumption|]; intros x Hr; apply Hx; lia).
Qed.

Lemma stream_write f fd flags m b l :
  stream_at f fd flags m -> b + Z.of_nat (length l) <= f \/ f + 40 <= b -> stream_at f fd flags (CMem.write b l m).
Proof using Type.
  intros H Hd. apply (stream_kept f fd flags m); [done| |intros a n Hn; by apply write_mapped].
  intros x Hx. apply write_lookup_out. lia.
Qed.

Lemma fd_ok f fd flags s : stream_at f fd flags (memory s) -> fd_of f s = Ok (fd, s).
Proof using Type. intros [H1 _ _ (_ & H & _)]. by apply get_int_ok. Qed.

Lemma flags_ok f fd flags s : stream_at f fd flags (memory s) -> flags_of f s = Ok (flags, s).
Proof using Type. intros [_ H2 _ (_ & _ & H)]. apply get_int_ok; [done|lia]. Qed.

(** [eof] and [error]. *)
Definition put_eof (f v : Z) (m : mem) : mem := CMem.write (f + 40) (le_bytes 4 v) m.
Definition put_error (f v : Z) (m : mem) : mem := CMem.write (f + 44) (le_bytes 4 v) m.

Lemma set_eof_ok f fd flags v s : stream_at f fd flags (memory s) -> 0 <= v <= 1 -> set_eof f v s = Ok (tt, with_memory (put_eof f v (memory s)) s).
Proof using Type.
  intros [_ _ H _] Hv. unfold set_eof. rewrite set_int_ok by (apply (mapped_le _ f 48); [done|lia|lia]). by rewrite wrap_small by lia.
Qed.

Lemma set_error_ok f fd flags v s : stream_at f fd flags (memory s) -> 0 <= v <= 1 -> set_error f v s = Ok (tt, with_memory (put_error f v (memory s)) s).
Proof using Type.
  intros [_ _ H _] Hv. unfold set_error. rewrite set_int_ok by (apply (mapped_le _ f 48); [done|lia|lia]). by rewrite wrap_small by lia.
Qed.

(** ** Calls *)

Lemma read_result fd buf n r m w s :
  raw (syscall_read fd buf n) (memory s, world s) = Ok (r, (m, w)) -> 0 <= r < 2 ^ 63 -> Libcall.read fd buf n s = Ok (r, Proc m (errno_value s) w).
Proof using Type.
  intros E Hr. unfold Libcall.read, syscall, bind. rewrite E. unfold long_result, checked. rewrite (proj2 (Z.ltb_ge r 0)) by lia.
  by rewrite swrap_small by lia.
Qed.

Lemma write_result fd buf n r m w s :
  raw (syscall_write fd buf n) (memory s, world s) = Ok (r, (m, w)) -> 0 <= r < 2 ^ 63 -> Libcall.write fd buf n s = Ok (r, Proc m (errno_value s) w).
Proof using Type.
  intros E Hr. unfold Libcall.write, syscall, bind. rewrite E. unfold long_result, checked. rewrite (proj2 (Z.ltb_ge r 0)) by lia.
  by rewrite swrap_small by lia.
Qed.

Context {FC : FileCalls W}.

(** ** [fread] and [fwrite] *)

(** [fread] makes one call, and returns the number of whole items it got; it
    marks the end of the file when it got nothing. *)
Lemma fread_ok ptr size nmemb f fd flags s :
  stream_at f fd flags (memory s) -> has_flag flags FILE_TYPE_READ = true -> readable fd (world s) ->
  ptr <> 0 -> 0 < size -> 0 < nmemb -> size * nmemb < 2 ^ 63 -> mapped (memory s) ptr (size * nmemb) ->
  exists r, 0 <= r <= size * nmemb /\ let t := take (Z.to_nat r) (input fd (world s)) in Z.of_nat (length t) = r /\ (r = 0 -> input fd (world s) = []) /\
    fread ptr size nmemb f s =
      if r =? 0 then Ok (0, with_memory (put_eof f 1 (memory s)) s)
      else Ok (r / size, Proc (CMem.write ptr t (memory s)) (errno_value s) (consume fd r (world s))).
Proof using Type.
  intros Hs Hfl Hr Hp Hsz Hn Ht Hm. destruct (read_law (memory s) (world s) fd ptr (size * nmemb) Hr) as (r & Hr1 & Hr2 & Hr3 & E); [nia|done|].
  exists r. split; [done|]. cbv zeta. split; [rewrite length_take; lia|]. split; [done|].
  pose proof (sa_range _ _ _ _ Hs) as (Hf & _). unfold fread.
  rewrite (proj2 (Z.eqb_neq ptr 0)), (proj2 (Z.eqb_neq f 0)), (proj2 (Z.eqb_neq size 0)), (proj2 (Z.eqb_neq nmemb 0)) by lia. cbn [orb].
  rewrite (bind_ok _ _ _ _ _ (flags_ok _ _ _ _ Hs)), Hfl. cbn [negb]. rewrite (bind_ok _ _ _ _ _ (fd_ok _ _ _ _ Hs)).
  rewrite wrap_small by nia. rewrite (bind_ok _ _ _ _ _ (read_result _ _ _ _ _ _ _ E ltac:(lia))).
  rewrite (proj2 (Z.ltb_ge r 0)) by lia. destruct (Z.eqb_spec r 0) as [->|Hne]; [|done].
  change (Z.to_nat 0) with 0%nat. rewrite take_0, consume_0. change (CMem.write ptr [] (memory s)) with (memory s).
  assert (Proc (memory s) (errno_value s) (world s) = s) as -> by (by destruct s).
  by rewrite (bind_ok _ _ _ _ _ (set_eof_ok _ _ _ 1 _ Hs ltac:(lia))).
Qed.

Lemma fwrite_ok ptr l f fd flags s :
  stream_at f fd flags (memory s) -> has_flag flags (Z.lor FILE_TYPE_WRITE FILE_TYPE_APPEND) = true -> accepting fd (world s) ->
  ptr <> 0 -> l <> [] -> Z.of_nat (length l) < 2 ^ 63 -> bytes_at (memory s) ptr l ->
  exists r, 0 < r <= Z.of_nat (length l) /\
    fwrite ptr 1 (Z.of_nat (length l)) f s = Ok (r, with_world (output_to fd (take (Z.to_nat r) l) (world s)) s).
Proof using Type.
  intros Hs Hfl Ha Hp Hl Hlen Hb. destruct (write_law (memory s) (world s) fd ptr l Ha Hl Hlen Hb) as (r & Hr & E).
  exists r. split; [done|]. pose proof (sa_range _ _ _ _ Hs) as (Hf & _). unfold fwrite.
  assert (length l <> 0)%nat by (by destruct l).
  rewrite (proj2 (Z.eqb_neq ptr 0)), (proj2 (Z.eqb_neq f 0)), (proj2 (Z.eqb_neq (Z.of_nat _) 0)) by lia. cbn [orb Z.eqb].
  rewrite (bind_ok _ _ _ _ _ (flags_ok _ _ _ _ Hs)), Hfl. cbn [negb]. rewrite (bind_ok _ _ _ _ _ (fd_ok _ _ _ _ Hs)).
  rewrite wrap_small, Z.mul_1_l by lia. rewrite (bind_ok _ _ _ _ _ (write_result _ _ _ _ _ _ _ E ltac:(lia))).
  rewrite (proj2 (Z.ltb_ge r 0)) by lia. by rewrite Z.div_1_r.
Qed.

(** ** [fgets] *)

Context (addr_c : Z).

(** The local character is apart from the stream. *)
Definition local_ok (f : Z) (m : mem) : Prop := addr_c <> 0 /\ is_Some (m !! addr_c) /\ (addr_c < f \/ f + 48 <= addr_c).

Lemma write_one a c (m : mem) : CMem.write a [c] m = <[a := c]> m.
Proof using Type. done. Qed.

Lemma fgetc_ok f fd flags s :
  stream_at f fd flags (memory s) -> has_flag flags FILE_TYPE_READ = true -> readable fd (world s) -> local_ok f (memory s) ->
  fgetc addr_c f s =
    match input fd (world s) with
    | [] => Ok (-1, with_memory (put_eof f 1 (memory s)) s)
    | c :: _ => Ok (c, Proc (<[addr_c := c]> (memory s)) (errno_value s) (consume fd 1 (world s)))
    end.
Proof using Type.
  intros Hs Hfl Hr (Ha & [x Hx] & Hout). pose proof (sa_range _ _ _ _ Hs) as (Hf & _). unfold fgetc. rewrite (proj2 (Z.eqb_neq f 0)) by done.
  destruct (fread_ok addr_c 1 1 f fd flags s Hs Hfl Hr) as (r & Hr1 & Hlen & H0 & E); [lia|lia|lia|lia| |].
  { intros k Hk. replace k with addr_c by lia. by exists x. }
  rewrite Z.mul_1_l in *. cbv zeta in Hlen. destruct (Z.eqb_spec r 0) as [->|Hne].
  - rewrite (bind_ok _ _ _ _ _ E), H0 by done. done.
  - assert (r = 1) as -> by lia. rewrite (bind_ok _ _ _ _ _ E). change (negb (1 / 1 =? 1)) with false. cbv iota.
    destruct (input fd (world s)) as [|c l] eqn:Ei; [by rewrite take_nil in Hlen|].
    rewrite (on_mem_ok (load8 addr_c) c (<[addr_c := c]> (memory s))); [done|].
    apply wp_det, wp_load8 with c; [apply lookup_insert_eq|done].
Qed.

(** What [fgets] takes of a text: up to [n] characters, and no more than a
    line; and whether it meets the end of the text. *)
Fixpoint line (n : nat) (l : list Z) : list Z :=
  match n, l with
  | S n, c :: l => c :: if c =? 10 then [] else line n l
  | _, _ => []
  end.

Fixpoint meets_end (n : nat) (l : list Z) : bool :=
  match n, l with
  | O, _ => false
  | S _, [] => true
  | S n, c :: l => if c =? 10 then false else meets_end n l
  end.

Lemma line_length n : forall l, (length (line n l) <= n)%nat.
Proof using Type. induction n as [|n IH]; intros [|c l]; cbn; try lia. destruct (c =? 10); cbn; [lia|]. specialize (IH l). lia. Qed.

(** The memory of a loop of [fgetc]s that has stored [done] from [a] on. *)
Record gets_memory (a size f fd flags : Z) (read : list Z) (m0 m : mem) : Prop := {
  gm_stream : stream_at f fd flags m;
  gm_local : local_ok f m;
  gm_room : mapped m a size;
  gm_text : bytes_at m a read;
  gm_else : forall k, k <> addr_c -> k < a \/ a + size <= k -> k < f + 40 \/ f + 44 <= k -> m !! k = m0 !! k;
}.


(** The buffer, the stream and the local character do not overlap. *)
Definition buffer_apart (a size f : Z) : Prop :=
  (a + size <= f \/ f + 48 <= a) /\ (addr_c < a \/ a + size <= addr_c).

Lemma lookup_insert_out (m : mem) a c k : k <> a -> <[a := c]> m !! k = m !! k.
Proof using Type. intros H. by rewrite lookup_insert_ne by done. Qed.

Lemma mapped_insert (m : mem) a c b n : mapped m b n -> mapped (<[a := c]> m) b n.
Proof using Type. intros H. rewrite <- write_one. by apply write_mapped. Qed.

Lemma local_insert f (m : mem) a c : local_ok f m -> local_ok f (<[a := c]> m).
Proof using Type. intros (H1 & H2 & H3). split; [done|]. split; [|done]. rewrite lookup_insert_is_Some'. by right. Qed.

Lemma gets_put a size f fd flags l m0 m c :
  gets_memory a size f fd flags l m0 m -> buffer_apart a size f -> Z.of_nat (length l) < size ->
  gets_memory a size f fd flags (l ++ [c]) m0 (<[a + Z.of_nat (length l) := c]> (<[addr_c := c]> m)).
Proof using Type.
  intros [H1 H2 H3 H4 H5] [Ha Hc] Hl. pose proof H2 as (_ & _ & Hf). split.
  - apply (stream_kept f fd flags m); [done| |intros b n Hn; by do 2 apply mapped_insert].
    intros x Hx. rewrite !lookup_insert_out by lia. done.
  - by do 2 apply local_insert.
  - by do 2 apply mapped_insert.
  - apply bytes_at_app. split.
    + intros i b Hi. apply lookup_lt_Some in Hi as Hlt. rewrite !lookup_insert_out by lia. by apply H4.
    + intros [|i] b Hi; [|done]. injection Hi as <-. rewrite Z.add_0_r. apply lookup_insert_eq.
  - intros k Hk1 Hk2 Hk3. rewrite !lookup_insert_out by lia. by apply H5.
Qed.

Lemma gets_eof a size f fd flags l m0 m :
  gets_memory a size f fd flags l m0 m -> buffer_apart a size f -> Z.of_nat (length l) <= size ->
  gets_memory a size f fd flags l m0 (put_eof f 1 m) /\ uint_at (put_eof f 1 m) (f + 40) 1.
Proof using Type.
  intros [H1 H2 H3 H4 H5] [Ha Hc] Hl. pose proof H2 as (Hz & Hx & Hf). unfold put_eof. split; [|by apply uint_at_write]. split.
  - apply stream_write; [done|lia].
  - split; [done|]. split; [|done]. rewrite write_lookup_out by (rewrite le_bytes_length; lia). done.
  - by apply write_mapped.
  - apply bytes_at_write_out; [done|]. rewrite le_bytes_length. lia.
  - intros k Hk1 Hk2 Hk3. rewrite write_lookup_out by (rewrite le_bytes_length; lia). by apply H5.
Qed.

(** The flag [eof] after the loop. *)
Definition eof_after (f : Z) (end_met : bool) (m0 m : mem) : Prop :=
  if end_met then uint_at m (f + 40) 1 else forall k, f + 40 <= k < f + 44 -> m !! k = m0 !! k.

Lemma gets_eof_kept a size f c c' l m0 (m : mem) :
  buffer_apart a size f -> local_ok f m -> Z.of_nat (length l) < size ->
  eof_after f false m0 m -> eof_after f false m0 (<[a + Z.of_nat (length (l : list Z)) := c]> (<[addr_c := c']> m)).
Proof using Type. intros [Ha Hc] (_ & _ & Hf) Hl H k Hk. rewrite !lookup_insert_out by lia. by apply H. Qed.

Lemma wp_gets_loop a size f fd flags m0 e w0 :
  0 < a -> 0 < size < 2 ^ 31 -> buffer_apart a size f -> gets_memory a size f fd flags [] m0 m0 ->
  has_flag flags FILE_TYPE_READ = true -> readable fd w0 ->
  let t := line (Z.to_nat (size - 1)) (input fd w0) in
  wp (loop (fun '(ptr, size) =>
      if 1 <? size then
        (let* c := fgetc addr_c f in
         if negb (c =? EOF) then
           on_mem (store8 ptr c) ;;
           if c =? 10 then ret (Done (ptr + 1)) else ret (Next (ptr + 1, size - 1))
         else ret (Done ptr))%prog
      else ret (Done ptr)) (a, size))
    (fun ptr s' => exists m', ptr = a + Z.of_nat (length t) /\ s' = Proc m' e (consume fd (Z.of_nat (length t)) w0) /\
       gets_memory a size f fd flags t m0 m' /\ eof_after f (meets_end (Z.to_nat (size - 1)) (input fd w0)) m0 m')
    (Proc m0 e w0).
Proof using Type.
  intros Ha0 Hsize Hap H0 Hfl Hr t.
  apply wp_loop_n with (n := size) (I := fun j '(ptr, sz) s' => exists l m, j = sz /\ ptr = a + Z.of_nat (length l) /\
    sz = size - Z.of_nat (length l) /\ 1 <= sz /\ s' = Proc m e (consume fd (Z.of_nat (length l)) w0) /\
    gets_memory a size f fd flags l m0 m /\ eof_after f false m0 m /\
    t = l ++ line (Z.to_nat (sz - 1)) (drop (length l) (input fd w0)) /\
    meets_end (Z.to_nat (size - 1)) (input fd w0) = meets_end (Z.to_nat (sz - 1)) (drop (length l) (input fd w0))); [| |lia].
  2:{ exists [], m0. cbn [length]. rewrite Z.add_0_r, Z.sub_0_r, consume_0, drop_0. do 3 (split; [reflexivity|]). split; [lia|]. split; [reflexivity|]. split; [exact H0|]. split; [intros k _; reflexivity|]. split; reflexivity. }
  intros j [ptr sz] s' (l & m & -> & -> & -> & Hsz & -> & Hm & He & Ht & Hend).
  destruct (consume_law fd (Z.of_nat (length l)) w0 Hr) as [Hr1 Hin]. rewrite Nat2Z.id in Hin.
  destruct (Z.ltb_spec 1 (size - Z.of_nat (length l))) as [Hlt|Hge].
  - wp_step. unfold wp at 1. rewrite (fgetc_ok f fd flags (Proc m e (consume fd (Z.of_nat (length l)) w0)) (gm_stream _ _ _ _ _ _ _ _ Hm) Hfl Hr1 (gm_local _ _ _ _ _ _ _ _ Hm)). cbn [world memory errno_value].
    rewrite Hin. replace (Z.to_nat (size - Z.of_nat (length l) - 1)) with (S (Z.to_nat (size - Z.of_nat (length l) - 2))) in Ht, Hend by lia.
    destruct (drop (length l) (input fd w0)) as [|c rest] eqn:Ed; cbn [line meets_end] in Ht, Hend.
    + change (negb (-1 =? EOF)) with false. cbv iota. rewrite app_nil_r in Ht. subst t. rewrite Ht, Hend.
      destruct (gets_eof a size f fd flags l m0 m Hm Hap ltac:(lia)) as [G1 G2]. wp_step. by exists (put_eof f 1 m).
    + assert (byte c) as Hb.
      { pose proof (Forall_drop _ (length l) _ (input_bytes fd w0 Hr)) as Hall. rewrite Ed in Hall. by apply Forall_cons in Hall as [? _]. }
      pose proof Hb as Hb'. unfold byte in Hb'.
      rewrite (proj2 (Z.eqb_neq c EOF)) by (unfold EOF; lia). cbn [negb]. rewrite consume_add by lia.
      pose proof (gets_put a size f fd flags l m0 m c Hm Hap ltac:(lia)) as Hm'.
      pose proof (gets_eof_kept a size f c c l m0 m Hap (gm_local _ _ _ _ _ _ _ _ Hm) ltac:(lia) He) as He'.
      wp_step. apply wp_on_mem. apply wp_store8; [apply (mapped_insert m addr_c c a size (gm_room _ _ _ _ _ _ _ _ Hm)); lia|]. cbn [memory].
      rewrite (wrap_small 8 c) by exact Hb. unfold with_memory. cbn [errno_value world].
      set (m' := <[a + Z.of_nat (length l) := c]> (<[addr_c := c]> m)) in *.
      assert (Z.of_nat (length l) + 1 = Z.of_nat (length (l ++ [c]))) as El by (rewrite length_app; cbn; lia).
      rewrite El. revert Ht Hend. destruct (Z.eqb_spec c 10) as [->|Hne]; intros Ht Hend; wp_step.
      * cbn [turn]. rewrite Hend, Ht. exists m'. split; [rewrite <- El; lia|]. split; [reflexivity|]. split; [exact Hm'|exact He'].
      * exists (size - Z.of_nat (length l) - 1). split; [|lia]. exists (l ++ [c]), m'. rewrite <- El. split; [done|]. split; [lia|]. split; [lia|]. split; [lia|].
        split; [by rewrite El|]. split; [done|]. split; [done|].
        assert (drop (length (l ++ [c])) (input fd w0) = rest) as ->.
        { rewrite length_app, <- drop_drop, Ed. done. }
        replace (size - Z.of_nat (length l) - 1 - 1) with (size - Z.of_nat (length l) - 2) by lia.
        split; [|exact Hend]. by rewrite <- app_assoc.
  - wp_step. assert (Z.to_nat (size - Z.of_nat (length l) - 1) = 0%nat) as E1 by lia. rewrite E1 in Ht, Hend. cbn [line meets_end] in Ht, Hend.
    rewrite app_nil_r in Ht. rewrite Ht, Hend. by exists m.
Qed.

(** C23: [fgets] reads characters up to the first newline, the end of the file or
    [size - 1] of them, whichever comes first, and stores them with a 0
    behind; it returns a null pointer, and stores nothing, when it read none.
    The end of the file is noted, if it was met; the input loses what was
    read. *)
Theorem fgets_correct a size f fd flags s :
  0 < a -> 0 < size < 2 ^ 31 -> buffer_apart a size f -> mapped (memory s) a size ->
  stream_at f fd flags (memory s) -> local_ok f (memory s) -> has_flag flags FILE_TYPE_READ = true -> readable fd (world s) ->
  let t := line (Z.to_nat (size - 1)) (input fd (world s)) in
  exists m', fgets addr_c a size f s =
      Ok (if bool_decide (t = []) then 0 else a, Proc m' (errno_value s) (consume fd (Z.of_nat (length t)) (world s))) /\
    bytes_at m' a (if bool_decide (t = []) then [] else t ++ [0]) /\
    stream_at f fd flags m' /\ eof_after f (meets_end (Z.to_nat (size - 1)) (input fd (world s))) (memory s) m' /\
    forall k, k <> addr_c -> k < a \/ a + size <= k -> k < f + 40 \/ f + 44 <= k -> m' !! k = memory s !! k.
Proof using Type.
  intros Ha Hsize Hap Hm Hs Hloc Hfl Hr t. destruct s as [m0 e w0]. cbn [memory world errno_value] in *.
  assert (gets_memory a size f fd flags [] m0 m0) as H0.
  { split; [exact Hs|exact Hloc|exact Hm|intros i b Hi; by rewrite lookup_nil in Hi|reflexivity]. }
  pose proof (wp_gets_loop a size f fd flags m0 e w0 Ha Hsize Hap H0 Hfl Hr) as Hw. cbv zeta in Hw.
  apply wp_run in Hw as (r & s' & E & m' & -> & -> & Hg & He).
  fold t in E, Hg. pose proof (sa_range _ _ _ _ Hs) as (Hf & _). pose proof Hloc as (_ & _ & Hlf). pose proof Hap as [Haf Hal].
  unfold fgets. rewrite (proj2 (Z.eqb_neq a 0)), (proj2 (Z.eqb_neq f 0)), (proj2 (Z.leb_gt size 0)) by lia. cbn [orb].
  rewrite (bind_ok _ _ _ _ _ E). pose proof (line_length (Z.to_nat (size - 1)) (input fd w0)) as Hlen. fold t in Hlen.
  case_bool_decide as Ht.
  - rewrite Ht in *. rewrite Z.add_0_r, Z.eqb_refl. exists m'. split; [done|]. split; [by intros i b Hi|]. split; [apply Hg|].
    split; [exact He|apply Hg].
  - assert (0 < Z.of_nat (length t)) by (destruct t; [done|cbn [length]; lia]).
    rewrite (proj2 (Z.eqb_neq _ a)) by lia. exists (<[a + Z.of_nat (length t) := 0]> m').
    rewrite (bind_ok _ tt _ _ (Proc (<[a + Z.of_nat (length t) := 0]> m') e (consume fd (Z.of_nat (length t)) w0))).
    2:{ apply (on_mem_ok _ _ (<[a + Z.of_nat (length t) := 0]> m') (Proc m' e (consume fd (Z.of_nat (length t)) w0))). apply wp_det. apply wp_store8; [|done].
        apply (gm_room _ _ _ _ _ _ _ _ Hg). lia. }
    split; [done|]. destruct Hg as [G1 G2 G3 G4 G5]. split; [|split; [|split]].
    + apply bytes_at_app. split.
      * intros i b Hi. apply lookup_lt_Some in Hi as Hlt. rewrite lookup_insert_out by lia. by apply G4.
      * intros [|i] b Hi; [|done]. injection Hi as <-. rewrite Z.add_0_r. apply lookup_insert_eq.
    + apply (stream_kept f fd flags m'); [done| |intros b n Hn; by apply mapped_insert].
      intros x Hx. apply lookup_insert_out. lia.
    + unfold eof_after in *. destruct (meets_end _ _).
      * apply (uint_at_kept m'); [done|]. intros x Hx. apply lookup_insert_out. lia.
      * intros k Hk. rewrite lookup_insert_out by lia. by apply He.
    + intros k Hk1 Hk2 Hk3. rewrite lookup_insert_out by lia. by apply G5.
Qed.

(** ** [fputs] *)

(** [fputs] makes one call: it succeeds exactly when the system takes the
    whole string at once, and reports failure otherwise, although a part of
    the string has been written. *)
Theorem fputs_correct a l f fd flags s :
  a <> 0 -> stream_at f fd flags (memory s) -> has_flag flags (Z.lor FILE_TYPE_WRITE FILE_TYPE_APPEND) = true -> accepting fd (world s) ->
  cstr_padded (memory s) a l -> l <> [] -> Z.of_nat (length l) < 2 ^ 63 ->
  exists r, (0 < r <= length l)%nat /\
    fputs a f s = Ok (if bool_decide (r = length l) then 0 else -1, with_world (output_to fd (take r l) (world s)) s).
Proof using Type.
  intros Ha Hs Hfl Hacc Hl Hne Hlen. pose proof (sa_range _ _ _ _ Hs) as (Hf & _).
  destruct (fwrite_ok a l f fd flags s Hs Hfl Hacc Ha Hne Hlen) as (r & Hr & E).
  { destruct Hl as [[_ Hb] _]. by apply bytes_at_app in Hb as [Hb _]. }
  exists (Z.to_nat r). split; [lia|]. unfold fputs. rewrite (proj2 (Z.eqb_neq a 0)), (proj2 (Z.eqb_neq f 0)) by done. cbn [orb].
  pose proof (on_mem_ok (strlen a) _ _ s (strlen_correct a l (memory s) ltac:(lia) Hl)) as El. rewrite with_memory_id in El.
  rewrite (bind_ok _ _ _ _ _ El), (bind_ok _ _ _ _ _ E).
  destruct (Z.eqb_spec r (Z.of_nat (length l))) as [Heq|Hneq]; [rewrite bool_decide_eq_true_2 by lia|rewrite bool_decide_eq_false_2 by lia]; done.
Qed.

(** ** Formatted output to a stream *)

Section Printf.
Context (f fd flags : Z).

Definition stdio_writable (stream : Z) (s : proc W) : Prop :=
  stream = f /\ stream_at f fd flags (memory s) /\ has_flag flags (Z.lor FILE_TYPE_WRITE FILE_TYPE_APPEND) = true /\
  accepting fd (world s) /\ addr_c <> 0 /\ (addr_c < f \/ f + 48 <= addr_c).

(** [fwrite] on a stream is what [printf.c] expects of it. *)
#[export, refine] Instance stdio_writes : FWriteLaws addr_c :=
  {| append _ := output_to fd; writable := stdio_writable |}.
Proof.
  - intros _ w. apply output_nil.
  - intros _ t1 t2 w. apply output_app.
  - intros g c s (-> & H1 & H2 & H3 & H4 & H5). split; [done|]. split; [|done].
    apply (stream_kept f fd flags (memory s)); [done| |intros b n Hn; by apply mapped_insert]. intros x Hx. apply lookup_insert_out. lia.
  - intros g t s (-> & H1 & H2 & H3 & H4). split; [done|]. split; [done|]. split; [done|]. split; [by apply output_accepting|done].
  - intros g c s Hg (-> & H1 & H2 & H3 & H4 & H5) Hc Hb.
    destruct (fwrite_ok addr_c [c] f fd flags s H1 H2 H3 H4) as (r & Hr & E); [done|cbn; lia|by apply bytes_at_cons|].
    cbn [length] in *. assert (r = 1) as -> by lia. exact E.
Defined.
End Printf.

End Proofs.

(** ** Modes *)

(** What may be done with a file that is opened, and what opening it does. *)
Record access : Type := Access { reads : bool; writes : bool; creates : bool; empties : bool; appends : bool }.

(** The modes of the C standard: "r", "w" and "a", each with a "+" for
    reading and writing. *)
Definition c_mode (l : list Z) : option access :=
  match l with
  | 114 :: 43 :: _ => Some (Access true true false false false)
  | 114 :: _ => Some (Access true false false false false)
  | 119 :: 43 :: _ => Some (Access true true true true false)
  | 119 :: _ => Some (Access false true true true false)
  | 97 :: 43 :: _ => Some (Access true true true false true)
  | 97 :: _ => Some (Access false true true false true)
  | _ => None
  end.

(** The flags of [open] as fcntl.h names them. *)
Definition opens (o : Z) : access :=
  Access (bool_decide (Z.land o 3 = O_RDONLY \/ Z.land o 3 = O_RDWR)) (bool_decide (Z.land o 3 = O_WRONLY \/ Z.land o 3 = O_RDWR))
    (negb (Z.land o O_CREAT =? 0)) (negb (Z.land o O_TRUNC =? 0)) (negb (Z.land o O_APPEND =? 0)).

(** The flags of a stream. *)
Definition stream_flags (x : access) : Z :=
  Z.lor (if reads x then FILE_TYPE_READ else 0)
    (if appends x then FILE_TYPE_APPEND else if writes x then FILE_TYPE_WRITE else 0).

(** What [fopen] asks [open] for: for "r", "w", "a" and "r+" what C says; a
    file opened with "w+" is not created and not emptied, and one opened with
    "a+" not created, and only read. *)
Definition granted (x : access) : access :=
  if reads x && creates x then Access true (negb (appends x)) false false false else x.

Lemma c_mode_cases l x : c_mode l = Some x ->
  x = Access true true false false false \/ x = Access true false false false false \/ x = Access true true true true false \/
  x = Access false true true true false \/ x = Access true true true false true \/ x = Access false true true false true.
Proof.
  intros E. destruct l as [|c l]; [done|]. unfold c_mode in E.
  repeat match type of E with match ?x with _ => _ end = _ => destruct x; try done end; injection E as <-; tauto.
Qed.

Lemma c_mode_flags l x : c_mode l = Some x ->
  0 <= stream_flags x < 8 /\ opens (mode_to_open_flags (stream_flags x)) = granted x.
Proof. intros E. destruct (c_mode_cases l x E) as [-> | [-> | [-> | [-> | [-> | ->]]]]]; (split; [by vm_compute|by vm_compute]). Qed.

Lemma cstr_first m a l : cstr m a l -> m !! a = Some (hd 0 l) /\ (l <> [] -> m !! (a + 1) = Some (hd 0 (tl l))) /\ Forall cchar l.
Proof.
  intros [Hc Hb]. split; [|split; [|done]].
  - destruct l as [|c l]; apply bytes_at_cons in Hb as [H _]; exact H.
  - destruct l as [|c [|d l]]; intros Hne; [done| |]; apply bytes_at_cons in Hb as [_ Hb]; apply bytes_at_cons in Hb as [H _]; exact H.
Qed.

Lemma s8_equal c d : 0 <= c < 256 -> 0 <= d < 128 -> (s8 c =? d) = (c =? d).
Proof.
  intros Hc Hd. destruct (decide (c < 128)) as [Hlt|Hge]; [by rewrite swrap_small by lia|].
  assert (s8 c = c - 256) as ->.
  { unfold swrap. change (8 - 1) with 7. rewrite (Z.mod_eq (c + 2 ^ 7) (2 ^ 8)) by lia.
    assert ((c + 2 ^ 7) / 2 ^ 8 = 1) as -> by (symmetry; apply (Z.div_unique _ _ 1 (c + 2 ^ 7 - 2 ^ 8)); lia). lia. }
  destruct (Z.eqb_spec (c - 256) d), (Z.eqb_spec c d); try done; lia.
Qed.

Lemma parse_mode_ok a l m : a <> 0 -> cstr m a l ->
  parse_mode a m = Ok (match c_mode l with Some x => stream_flags x | None => -1 end, m).
Proof.
  intros Ha Hl. destruct (cstr_first m a l Hl) as (H0 & H1 & Hc). apply wp_det. unfold parse_mode. rewrite (proj2 (Z.eqb_neq a 0)) by done.
  destruct l as [|c l]; [wp_step; apply wp_load_char with 0; [done|]; by wp_step|]. specialize (H1 ltac:(done)). cbn [hd tl] in *.
  apply Forall_cons in Hc as [Hc Hcl]. unfold cchar in Hc.
  assert (0 <= hd 0 l < 256) as Hd by (destruct l as [|d l]; [cbn; lia|apply Forall_cons in Hcl as [Hd _]; unfold cchar in Hd; cbn; lia]).
  wp_step. apply wp_load_char with c; [done|]. rewrite !s8_equal by lia.
  destruct (Z.eqb_spec c 114) as [->|N1]; [|destruct (Z.eqb_spec c 119) as [->|N2]; [|destruct (Z.eqb_spec c 97) as [->|N3]]].
  1-3: wp_step; apply wp_load_char with (hd 0 l); [done|]; rewrite s8_equal by lia; wp_step; split; [|done];
    destruct l as [|d l]; [done|]; cbn [hd]; destruct (Z.eqb_spec d 43) as [->|N]; [done|];
    cbn [c_mode]; destruct d as [|p|p]; try done; repeat (destruct p as [p|p|]; try done).
  wp_step. split; [|done]. cbn [c_mode]. destruct c as [|p|p]; try done. repeat (destruct p as [p|p|]; try done).
Qed.

(** The mode decides how the file is opened: "w+" opens it like "r+", so that
    a missing file is not created and an old one not emptied, and "a+" opens
    it for reading only, for a stream that [fwrite] takes for writable. *)
Theorem mode_flags a l m :
  a <> 0 -> cstr m a l ->
  match c_mode l with
  | Some x => parse_mode a m = Ok (stream_flags x, m) /\ opens (mode_to_open_flags (stream_flags x)) = granted x /\
      (l = [119; 43] -> mode_to_open_flags (stream_flags x) = O_RDWR) /\
      (l = [97; 43] -> mode_to_open_flags (stream_flags x) = O_RDONLY /\ has_flag (stream_flags x) FILE_TYPE_APPEND = true)
  | None => parse_mode a m = Ok (-1, m)
  end.
Proof.
  intros Ha Hl. rewrite (parse_mode_ok a l m Ha Hl). destruct (c_mode l) as [x|] eqn:E; [|done].
  split; [done|]. split; [by apply (c_mode_flags l)|]. split; intros ->; by injection E as <-.
Qed.

(** ** [fopen] *)

Section Opening.
Context {W : Type} {RC : RawCalls W} {BL : BreakLaws W}.
Implicit Types (s : stdio W).

Abbreviation mem_of s := (memory (process (heap_of s))).
Abbreviation world_of s := (world (process (heap_of s))).

Definition with_process (t : proc W) s : stdio W :=
  Stdio (Heap (statics (heap_of s)) t) (stdin s) (stdout s) (stderr s) (initialized s).

Lemma on_io_ok {A} (p : prog (proc W) A) a t s : p (process (heap_of s)) = Ok (a, t) -> on_io p s = Ok (a, with_process t s).
Proof using Type. unfold on_io, on_heap, on_proc. by intros ->. Qed.

Lemma on_io_mem_ok {A} (p : prog mem A) a s : p (mem_of s) = Ok (a, mem_of s) -> on_io (on_mem p) s = Ok (a, s).
Proof using Type.
  intros E. rewrite (on_io_ok (on_mem p) a (process (heap_of s))); [by destruct s as [[] ? ? ? ?]|].
  unfold on_mem. rewrite E. by rewrite with_memory_id.
Qed.

Lemma heap_ok_world c k u (h : heap W) t :
  heap_ok c k u h -> break_of (world t) = break_of (world (process h)) ->
  (forall x, x < main_arena (statics h) + 32 -> memory t !! x = memory (process h) !! x) ->
  (forall a n, mapped (memory (process h)) a n -> mapped (memory t) a n) -> heap_ok c k u (Heap (statics h) t).
Proof using Type.
  intros [H1 H2 H3 H4 H5 H6 H7 H8 H9 H10 H11] Hb Hx Hm.
  assert (forall a v, a + 8 <= main_arena (statics h) + 32 -> ptr_at (memory (process h)) a v -> ptr_at (memory t) a v) as Hp.
  { intros a v Ha [Hv H]. split; [done|]. intros i b Hi. apply lookup_lt_Some in Hi as Hl. rewrite le_bytes_length in Hl.
    rewrite Hx by lia. by apply H. }
  split; cbn [statics process]; try assumption; try (apply Hp; [lia|assumption]); [by apply Hm|by rewrite Hb].
Qed.

(** The members of a new stream. *)
Record new_FILE (f fd flags : Z) (m0 m : mem) : Prop := {
  nf_stream : stream_at f fd flags m;
  nf_buffer : ptr_at m (f + 8) 0 /\ ptr_at m (f + 32) 0;
  nf_flags : uint_at m (f + 40) 0 /\ uint_at m (f + 44) 0;
  nf_mapped : forall a n, mapped m0 a n -> mapped m a n;
  nf_else : forall x, x < f \/ f + 48 <= x -> m !! x = m0 !! x;
}.

Lemma store_word a v (s : proc W) : mapped (memory s) a 8 -> on_mem (store64 a v) s = Ok (tt, with_memory (CMem.write a (le_bytes 8 v) (memory s)) s).
Proof using Type. intros H. apply on_mem_ok, wp_det. apply wp_store_ptr; [done|]. by intros m' ->. Qed.

Lemma set_int_0 a (s : proc W) : mapped (memory s) a 4 -> set_int a 0 s = Ok (tt, with_memory (CMem.write a (le_bytes 4 0) (memory s)) s).
Proof using Type. exact (set_int_ok a 0 s). Qed.

Lemma fill_FILE_ok f fd flags (s : proc W) :
  f <> 0 -> - 2 ^ 31 <= fd < 2 ^ 31 -> 0 <= flags < 8 -> mapped (memory s) f 48 ->
  exists m, fill_FILE f fd flags s = Ok (tt, with_memory m s) /\ new_FILE f fd flags (memory s) m.
Proof using Type.
  intros Hf Hfd Hfl Hm.
  set (m1 := CMem.write f (le_bytes 4 (u32 fd)) (memory s)). set (m2 := CMem.write (f + 4) (le_bytes 4 (u32 flags)) m1).
  set (m3 := CMem.write (f + 8) (le_bytes 8 0) m2). set (m4 := CMem.write (f + 16) (le_bytes 8 0) m3).
  set (m5 := CMem.write (f + 24) (le_bytes 8 0) m4). set (m6 := CMem.write (f + 32) (le_bytes 8 0) m5).
  set (m7 := CMem.write (f + 40) (le_bytes 4 0) m6). set (m8 := CMem.write (f + 44) (le_bytes 4 0) m7).
  assert (forall a n, mapped (memory s) a n -> mapped m8 a n) as Hmm by (intros a n H; by repeat apply write_mapped).
  exists m8. split.
  - unfold fill_FILE.
    rewrite (bind_ok _ tt _ s (with_memory m1 s)) by (apply set_int_ok, (mapped_le _ f 48); [done|lia|lia]).
    rewrite (bind_ok _ tt _ _ (with_memory m2 s)) by (apply (set_int_ok _ _ (with_memory m1 s)), (mapped_le _ f 48); [by repeat apply write_mapped|lia|lia]).
    rewrite (bind_ok _ tt _ _ (with_memory m3 s)) by (apply (store_word _ _ (with_memory m2 s)), (mapped_le _ f 48); [by repeat apply write_mapped|lia|lia]).
    rewrite (bind_ok _ tt _ _ (with_memory m4 s)) by (apply (store_word _ _ (with_memory m3 s)), (mapped_le _ f 48); [by repeat apply write_mapped|lia|lia]).
    rewrite (bind_ok _ tt _ _ (with_memory m5 s)) by (apply (store_word _ _ (with_memory m4 s)), (mapped_le _ f 48); [by repeat apply write_mapped|lia|lia]).
    rewrite (bind_ok _ tt _ _ (with_memory m6 s)) by (apply (store_word _ _ (with_memory m5 s)), (mapped_le _ f 48); [by repeat apply write_mapped|lia|lia]).
    rewrite (bind_ok _ tt _ _ (with_memory m7 s)) by (apply (set_int_0 _ (with_memory m6 s)), (mapped_le _ f 48); [by repeat apply write_mapped|lia|lia]).
    apply (set_int_0 _ (with_memory m7 s)), (mapped_le _ f 48); [by repeat apply write_mapped|lia|lia].
  - split.
    + split; [| |by apply Hmm|done].
      * do 7 (apply uint_at_write_out; [|rewrite le_bytes_length; lia]). by apply uint_at_write, wrap_bound.
      * do 6 (apply uint_at_write_out; [|rewrite le_bytes_length; lia]). by apply uint_at_write, wrap_bound.
    + split; [do 5 (apply ptr_at_write_out; [|rewrite le_bytes_length; lia])|do 2 (apply ptr_at_write_out; [|rewrite le_bytes_length; lia])]; by apply ptr_at_write.
    + split; [apply uint_at_write_out; [|rewrite le_bytes_length; lia]|]; by apply uint_at_write.
    + exact Hmm.
    + intros x Hx. unfold m8, m7, m6, m5, m4, m3, m2, m1. by rewrite !write_lookup_out by (rewrite le_bytes_length; lia).
Qed.

(** What [fopen] passes to [open]. *)
Definition open_call (path o : Z) : scall := syscall_open path o (if negb (Z.land o O_CREAT =? 0) then 420 else 0).

Lemma open_result path o r w (s : proc W) :
  raw (open_call path o) (memory s, world s) = Ok (r, (memory s, w)) -> - 2 ^ 31 < r < 2 ^ 31 ->
  Libcall.open path o [420] s = if r <? 0 then Ok (-1, Proc (memory s) (- r) w) else Ok (r, Proc (memory s) (errno_value s) w).
Proof using Type.
  intros E Hr. unfold Libcall.open, open_call in *. change (s32 420) with 420.
  rewrite (bind_ok _ (if negb (Z.land o O_CREAT =? 0) then 420 else 0) _ s s) by (by destruct (negb _)).
  unfold syscall, bind. rewrite E. unfold int_result, checked, set_errno, bind, modify, ret.
  destruct (Z.ltb_spec r 0); [|by rewrite swrap_small by lia]. unfold with_errno. cbn. by rewrite swrap_small by lia.
Qed.

(** A block of the heap, seen from here. *)
Lemma malloc_block c k u n s :
  heap_ok c k u (heap_of s) -> nothing_free (heap_of s) -> 0 < n <= 4096 -> c <> 0 -> u + block_size n <= k ->
  exists s', on_heap (malloc n) s = Ok (c + u, s') /\ heap_ok c k (u + block_size n) (heap_of s') /\
    mapped (mem_of s') (c + u) (block_size n) /\
    (forall x, x < main_arena (statics (heap_of s)) + 24 \/ main_arena (statics (heap_of s)) + 32 <= x -> mem_of s' !! x = mem_of s !! x) /\
    statics (heap_of s') = statics (heap_of s) /\ world_of s' = world_of s /\ stdin s' = stdin s /\ stdout s' = stdout s /\ stderr s' = stderr s.
Proof using Type.
  intros Hok Hf Hn Hc Hu. pose proof (block_size_small n Hn) as Hsz. pose proof (hk_bound _ _ _ _ Hok) as Hub.
  pose proof (hk_end _ _ _ _ Hok) as Hend. pose proof (hk_place _ _ _ _ Hok) as Hpl. pose proof (hk_arena _ _ _ _ Hok) as HA.
  set (h := taken (block_size n) u (heap_of s)).
  assert (heap_ok c k (u + block_size n) h) as Hok' by (apply taken_ok; [done|lia|lia]).
  exists (Stdio h (stdin s) (stdout s) (stderr s) (initialized s)). cbn [heap_of stdin stdout stderr].
  split; [unfold on_heap; by rewrite (malloc_in_chunk c k u n (heap_of s) Hok Hf Hn Hc ltac:(lia))|].
  split; [exact Hok'|]. split; [apply (mapped_le _ c k); [apply (hk_chunk _ _ _ _ Hok')|lia|lia]|].
  split; [|done]. intros x Hx. unfold h, taken, set_mem. cbn [process memory with_memory]. apply write_lookup_out. rewrite le_bytes_length. lia.
Qed.

End Opening.

(** ** Witnesses *)

(** A world with an input tape, an output tape and a break; every descriptor
    reads the one and writes the other. *)
Record tape : Type := Tape { tape_in : list Z; tape_out : list Z; tape_break : Z }.

#[export] Instance tape_calls : RawCalls tape := fun c '(m, w) =>
  match c with
  | syscall_read _ buf n =>
      let t := take (Z.to_nat n) (tape_in w) in
      Ok (Z.of_nat (length t), (CMem.write buf t m, Tape (drop (length t) (tape_in w)) (tape_out w) (tape_break w)))
  | syscall_write _ buf n =>
      match loads (Z.to_nat n) buf m with
      | Ok (l, _) => Ok (n, (m, Tape (tape_in w) (tape_out w ++ l) (tape_break w)))
      | _ => Ok (-14, (m, w))
      end
  | syscall_open _ _ _ => Ok (3, (m, w))
  | syscall_SYS_brk a =>
      match raw (RawCalls := break_world) (syscall_SYS_brk a) (m, tape_break w) with
      | Ok (r, (m, b)) => Ok (r, (m, Tape (tape_in w) (tape_out w) b))
      | _ => Fault
      end
  | _ => Ok (-38, (m, w))
  end.

#[export, refine] Instance tape_files : FileCalls tape :=
  {| readable _ w := Forall byte (tape_in w); input _ w := tape_in w;
     consume _ n w := Tape (drop (Z.to_nat n) (tape_in w)) (tape_out w) (tape_break w);
     accepting _ _ := True; output_to _ l w := Tape (tape_in w) (tape_out w ++ l) (tape_break w) |}.
Proof.
  - intros m [i o b] fd buf n Hr Hn Hm. cbn [tape_in] in *. exists (Z.of_nat (length (take (Z.to_nat n) i))).
    rewrite length_take. split; [lia|]. split; [lia|]. split; [intros H; destruct i; [done|cbn in H; lia]|].
    cbn. rewrite length_take, Nat2Z.id. f_equal. f_equal. f_equal. f_equal.
    destruct (decide (Z.to_nat n <= length i)%nat); [by rewrite Nat.min_l by lia|].
    rewrite Nat.min_r by lia. by rewrite !take_ge by lia.
  - done.
  - intros fd r w Hr. cbn. split; [by apply Forall_drop|done].
  - intros fd [i o b]. done.
  - intros fd r1 r2 [i o b] H1 H2. cbn. f_equal. rewrite drop_drop. f_equal. lia.
  - intros m [i o b] fd buf l _ Hl Hlen Hb. exists (Z.of_nat (length l)). split; [destruct l; [done|cbn; lia]|].
    cbn. rewrite Nat2Z.id, firstn_all. pose proof (wp_loads l buf (fun r m' => r = l /\ m' = m) m Hb ltac:(done)) as H.
    unfold wp in H. destruct (loads (length l) buf m) as [[l' m']| |]; [|done|done]. by destruct H as [-> ->].
  - intros fd [i o b]. cbn. by rewrite app_nil_r.
  - intros fd l1 l2 [i o b]. cbn. by rewrite app_assoc.
  - done.
Defined.

#[export, refine] Instance tape_break_laws : BreakLaws tape := {| break_of := tape_break |}.
Proof.
  - intros m [i o b] _. done.
  - intros m [i o b] a Ha Hlt. cbn [tape_break] in *.
    destruct (break_move (BreakLaws := break_world_laws) m b a Ha Hlt) as [(e & He & E)|(r & m' & w' & Hr & E & H)]; [left; exists e|right].
    + split; [done|]. cbn [raw tape_calls tape_break]. by rewrite E.
    + exists r, m', (Tape i o w'). split; [done|]. split; [|exact H]. cbn [raw tape_calls tape_break]. by rewrite E.
Defined.

(** A stream at 8192, a buffer at 4096, a local character at 12288. *)
Definition stream_memory (fd flags : Z) (m : mem) : mem :=
  CMem.write 8192 (le_bytes 4 fd ++ le_bytes 4 flags ++ replicate 40 0) (CMem.write 12288 [0] m).

Lemma stream_memory_ok fd flags m : 0 <= fd < 2 ^ 31 -> 0 <= flags < 8 ->
  stream_at 8192 fd flags (stream_memory fd flags m) /\ local_ok 12288 8192 (stream_memory fd flags m).
Proof.
  intros Hfd Hfl. pose proof (write_bytes_at 8192 (le_bytes 4 fd ++ le_bytes 4 flags ++ replicate 40 0) (CMem.write 12288 [0] m)) as H.
  pose proof (bytes_at_mapped _ _ _ H) as Hm. apply bytes_at_app in H as [H1 H2]. apply bytes_at_app in H2 as [H2 _]. rewrite le_bytes_length in H2.
  split; [split|split; [lia|split; [|lia]]].
  - rewrite wrap_small by lia. by split; [lia|].
  - rewrite wrap_small by lia. by split; [lia|].
  - rewrite !length_app, !le_bytes_length, length_replicate in Hm. exact Hm.
  - lia.
  - unfold stream_memory. rewrite write_lookup_out; [apply (zeros_mapped 12288 1 m); lia|]. rewrite !length_app, !le_bytes_length, length_replicate. lia.
Qed.

(** "ab", a newline and "c" are read as the lines "ab" and "c". *)
Lemma fgets_correct_witness :
  let s := Proc (stream_memory 3 1 (CMem.write 4096 (replicate 8 7) ∅)) 0 (Tape [97; 98; 10; 99] [] 0) in
  exists m', fgets 12288 4096 8 8192 s = Ok (4096, Proc m' 0 (Tape [99] [] 0)) /\ bytes_at m' 4096 [97; 98; 10; 0] /\
    stream_at 8192 3 1 m' /\ eof_after 8192 false (memory s) m' /\
    forall k, k <> 12288 -> k < 4096 \/ 4104 <= k -> k < 8232 \/ 8236 <= k -> m' !! k = memory s !! k.
Proof.
  destruct (stream_memory_ok 3 1 (CMem.write 4096 (replicate 8 7) ∅) ltac:(lia) ltac:(lia)) as [H1 H2].
  apply (fgets_correct (FC := tape_files) 12288 4096 8 8192 3 1 (Proc (stream_memory 3 1 (CMem.write 4096 (replicate 8 7) ∅)) 0 (Tape [97; 98; 10; 99] [] 0)));
    [lia|lia|split; lia| |exact H1|exact H2|reflexivity|repeat constructor; lia].
  cbn [memory]. unfold stream_memory. do 2 apply write_mapped. exact (bytes_at_mapped _ _ _ (write_bytes_at 4096 (replicate 8 7) ∅)).
Defined.

Lemma fputs_correct_witness :
  let s := Proc (stream_memory 1 2 (CMem.write 4096 ([97; 98] ++ replicate 14 0) ∅)) 0 (Tape [] [120] 0) in
  exists r, (0 < r <= 2)%nat /\
    fputs 4096 8192 s = Ok (if bool_decide (r = 2%nat) then 0 else -1, with_world (Tape [] ([120] ++ take r [97; 98]) 0) s).
Proof.
  destruct (stream_memory_ok 1 2 (CMem.write 4096 ([97; 98] ++ replicate 14 0) ∅) ltac:(lia) ltac:(lia)) as [H1 _].
  apply (fputs_correct (FC := tape_files) 4096 [97; 98] 8192 1 2 (Proc (stream_memory 1 2 (CMem.write 4096 ([97; 98] ++ replicate 14 0) ∅)) 0 (Tape [] [120] 0)));
    [lia|exact H1|reflexivity|exact I|apply has_cstr_padded; by vm_compute|done|cbn; lia].
Defined.

Lemma mode_flags_witness : let m := CMem.write 4096 [119; 43; 0] ∅ in
  parse_mode 4096 m = Ok (3, m) /\ opens (mode_to_open_flags 3) = Access true true false false false /\
  ([119; 43] = [119; 43] -> O_RDWR = O_RDWR) /\ ([119; 43] = [97; 43] -> O_RDWR = O_RDONLY /\ has_flag 3 FILE_TYPE_APPEND = true).
Proof. apply (mode_flags 4096 [119; 43]); [lia|]. apply has_cstr. by vm_compute. Defined.

Definition demo_stdio : stdio tape :=
  Stdio (Heap (statics (demo_heap 0 0 0)) (Proc (CMem.write 8000 [119; 0] (memory (process (demo_heap 0 0 0)))) 0 (Tape [] [] 6176))) 4000 4000 4000 true.

Lemma demo_stdio_ok : heap_ok 4128 2048 0 (heap_of demo_stdio).
Proof.
  destruct (demo_heap_ok 0 0 0 ltac:(lia)) as [H1 H2 H3 H4 H5 H6 H7 H8 H9 H10 H11].
  pose proof (ptr_at_write_out _ _ _ 8000 [119; 0] H4 ltac:(left; done)) as K4.
  pose proof (ptr_at_write_out _ _ _ 8000 [119; 0] H5 ltac:(left; done)) as K5.
  pose proof (ptr_at_write_out _ _ _ 8000 [119; 0] H6 ltac:(left; done)) as K6.
  pose proof (write_mapped 8000 [119; 0] _ _ _ H9) as K9.
  split; [exact H1|exact H2|exact H3|exact K4|exact K5|exact K6|exact H7|exact H8|exact K9|exact H10|exact H11].
Qed.


