(* ===== verification/Stdlib.v ===== *)
(** * Random numbers, divisions and exit handlers of the C library (libc/src/stdlib/stdlib.c)

    The static variables [next] and [atexit_data] lie beside the process.
    [_exit] and [raise], which unistd.h and signal.h declare and nothing
    defines, are parameters, as are the functions that the program registers,
    the macro PATH_MAX that nothing defines, and the allocator of [realpath].
    A division traps (here [Fault]) when the divisor is 0 or the quotient
    does not fit, as the machine's does. *)

From S2P Require Import Libcall Libc LibcallProofs Prelude CMem MemFns CStr.

Record lib (W : Type) : Type := Lib {
  lib_proc : proc W; next : Z; handlers : list Z; count : Z;
}.
Arguments Lib {W} _ _ _ _.
Arguments lib_proc {W} _.
Arguments next {W} _.
Arguments handlers {W} _.
Arguments count {W} _.

Definition MAX_ATEXIT_HANDLERS : Z := 32.
Definition SIGABRT : Z := 6.

(** The library before [main]. *)
Definition new_lib {W} (p : proc W) : lib W := Lib p 1 (replicate 32 0) 0.

(** ** Integers *)

Section Division.
Context {S : Type}.

(** The machine's division of two [w]-bit integers. *)
Definition idiv (w numer denom : Z) : prog S (Z * Z) :=
  let quot := Z.quot numer denom in
  if (denom =? 0) || (2 ^ (w - 1) <=? quot) then fault else ret (quot, Z.rem numer denom).

Definition abs (x : Z) : prog S Z := ret (if x <? 0 then s32 (- x) else x).
Definition labs (x : Z) : prog S Z := ret (if x <? 0 then s64 (- x) else x).
Definition llabs (x : Z) : prog S Z := ret (if x <? 0 then s64 (- x) else x).

Definition div (numer denom : Z) : prog S (Z * Z) :=
  let* quot := idiv 32 numer denom in
  let* rem := idiv 32 numer denom in
  ret (fst quot, snd rem).
Definition ldiv (numer denom : Z) : prog S (Z * Z) :=
  let* quot := idiv 64 numer denom in
  let* rem := idiv 64 numer denom in
  ret (fst quot, snd rem).
Definition lldiv (numer denom : Z) : prog S (Z * Z) :=
  let* quot := idiv 64 numer denom in
  let* rem := idiv 64 numer denom in
  ret (fst quot, snd rem).
End Division.

Section Stdlib.
Context {W : Type} {RC : RawCalls W}.

Abbreviation lprog := (prog (lib W)).

Context (_exit : Z -> lprog unit) (raise : Z -> lprog Z).
(** Calling the function at an address. *)
Context (call : Z -> lprog unit).

Definition lib_mem {A} (p : prog mem A) : lprog A :=
  fun s => match on_mem p (lib_proc s) with
           | Ok (a, t) => Ok (a, Lib t (next s) (handlers s) (count s))
           | Fault => Fault
           | Spin => Spin
           end.

Definition with_next (x : Z) (s : lib W) : lib W := Lib (lib_proc s) x (handlers s) (count s).

(** ** Random numbers *)

Definition rand : lprog Z :=
  let* x := gets next in
  let x := u64 (u64 (x * 1103515245) + 12345) in
  modify (with_next x) ;;
  ret (u32 (x / 65536) mod 32768).

Definition srand (seed : Z) : lprog unit := modify (with_next seed).

Definition rand_r (seed : Z) : prog mem Z :=
  let* next_val := load32 seed in
  let next_val := u64 (u64 (next_val * 1103515245) + 12345) in
  store32 seed (u32 next_val) ;;
  ret (u32 (next_val / 65536) mod 32768).

(** ** The end of the program *)

Definition exit (status : Z) : lprog unit := _exit status.

Definition _Exit (status : Z) : lprog unit :=
  fun s => match Libcall.syscall (syscall_SYS_exit status) (lib_proc s) with
           | Ok (_, t) => Ok (tt, Lib t (next s) (handlers s) (count s))
           | Fault => Fault
           | Spin => Spin
           end.

Definition abort : lprog unit := raise SIGABRT ;; _exit (128 + SIGABRT).

Definition atexit (function : Z) : lprog Z :=
  let* s := get in
  if MAX_ATEXIT_HANDLERS <=? count s then ret (-1)
  else put (Lib (lib_proc s) (next s) (<[Z.to_nat (count s) := function]> (handlers s)) (count s + 1)) ;; ret 0.

Definition at_quick_exit (function : Z) : lprog Z := atexit function.

(** The body of the loops: the handler [i], unless it is null. *)
Definition run_handlers : lprog unit :=
  let* n := gets count in
  loop (fun i =>
    if 0 <=? i then
      let* f := getf (fun s => handlers s !! Z.to_nat i) in
      (if negb (f =? 0) then
         let* f := getf (fun s => handlers s !! Z.to_nat i) in call f
       else ret tt) ;;
      ret (Next (i - 1))
    else ret (Done tt)) (n - 1).

Definition quick_exit (status : Z) : lprog unit := run_handlers ;; _exit status.
Definition run_atexit_handlers : lprog unit := run_handlers.

(** ** The environment *)

Definition getenv (name : Z) : lprog Z := ret 0.
Definition putenv (string : Z) : lprog Z := ret 0.
Definition setenv (name value overwrite : Z) : lprog Z := ret 0.
Definition unsetenv (name : Z) : lprog Z := ret 0.
Definition clearenv : lprog Z := ret 0.

Definition system (command : Z) : lprog Z := if command =? 0 then ret 1 else ret 0.

Definition realpath (malloc : Z -> lprog Z) (PATH_MAX pathname resolved_path : Z) : lprog Z :=
  let* resolved_path := (if resolved_path =? 0 then malloc PATH_MAX else ret resolved_path) in
  if resolved_path =? 0 then ret 0
  else lib_mem (strcpy resolved_path pathname) ;; ret resolved_path.
End Stdlib.
