(* ===== verification/StdlibProofs.v ===== *)
(** * Random numbers, divisions and exit handlers: correctness

    The low 31 bits of the generator run through all their values before
    they repeat ([rand_period]); [rand_r], which keeps 32 bits, gives the
    numbers that [rand] gives from the same seed ([rand_r_rand]); divisions
    return quotient and remainder of C or trap; handlers run in the reverse
    order of their registration ([quick_exit_correct]). *)

From S2P Require Import Libcall Libc LibcallProofs Stdlib Prelude CMem MemFns CStr.

(** ** The generator *)

Definition lcg (x : Z) : Z := u64 (x * 1103515245 + 12345).
Definition output (x : Z) : Z := x mod 2 ^ 31 / 65536.

(** The first [n] numbers from the state [x]. *)
Fixpoint outputs (n : nat) (x : Z) : list Z :=
  match n with
  | O => []
  | S n => output (lcg x) :: outputs n (lcg x)
  end.

Lemma output_eq x : 0 <= x -> u32 (x / 65536) mod 32768 = output x.
Proof.
  intros Hx. unfold output, wrap. change (2 ^ 32) with (32768 * 131072). rewrite Z.rem_mul_r by lia.
  rewrite Z.mul_comm, Z.mod_add by lia. rewrite Z.mod_mod by lia.
  change (2 ^ 31) with (65536 * 32768). rewrite Z.rem_mul_r, Z.mul_comm, Z.div_add by lia.
  rewrite (Z.div_small (x mod 65536)) by (apply Z.mod_pos_bound; lia). lia.
Qed.

Lemma lcg_wraps x : u64 (u64 (x * 1103515245) + 12345) = lcg x.
Proof. apply wrap_add_l. Qed.

Lemma lcg_nonneg x : 0 <= lcg x.
Proof. pose proof (wrap_bound 64 (x * 1103515245 + 12345)). unfold lcg. lia. Qed.

Lemma outputs_bound n : forall x, Forall (fun r => 0 <= r <= 32767) (outputs n x).
Proof.
  induction n as [|n IH]; intros x; cbn [outputs]; [constructor|]. constructor; [|apply IH]. unfold output.
  pose proof (Z.mod_pos_bound (lcg x) (2 ^ 31) ltac:(lia)). split; [apply Z.div_pos; lia|].
  assert (lcg x mod 2 ^ 31 / 65536 < 32768) by (apply Z.div_lt_upper_bound; lia). lia.
Qed.

(** *** Its period *)

(** The sum of the first [n] powers of the multiplier. *)
Fixpoint powers (n : nat) : Z :=
  match n with
  | O => 0
  | S n => 1103515245 * powers n + 1
  end.

Lemma powers_add m n : powers (n + m) = powers m * (1 + 1103515244 * powers n) + powers n.
Proof. induction n as [|n IH]; cbn [powers Nat.add]; [lia|]. rewrite IH. lia. Qed.

Lemma powers_double m : powers (m + m) = 2 * (powers m * (1 + 2 * (275878811 * powers m))).
Proof. rewrite powers_add. lia. Qed.

Lemma odd_divides k : forall x y, (2 ^ Z.of_nat k | x * (1 + 2 * y)) <-> (2 ^ Z.of_nat k | x).
Proof.
  induction k as [|k IH]; intros x y; [split; intros _; apply Z.divide_1_l|].
  split; intros H; [|by apply Z.divide_mul_l]. rewrite Nat2Z.inj_succ, Z.pow_succ_r in H |- * by lia.
  destruct (Z.Even_or_Odd x) as [[z ->]|[z ->]].
  - rewrite <- Z.mul_assoc in H. apply Z.mul_divide_cancel_l in H; [|lia]. apply Z.mul_divide_cancel_l; [lia|]. by apply IH in H.
  - exfalso. destruct H as [q H]. lia.
Qed.

(** The sum has as many factors 2 as the number of its terms. *)
Lemma powers_divides k : forall n, (2 ^ Z.of_nat k | powers n) <-> (2 ^ Z.of_nat k | Z.of_nat n).
Proof.
  induction k as [|k IH]; intros n; [split; intros _; apply Z.divide_1_l|].
  rewrite Nat2Z.inj_succ, Z.pow_succ_r by lia.
  destruct (Nat.Even_or_Odd n) as [[m ->]|[m ->]].
  - replace (2 * m)%nat with (m + m)%nat by lia. rewrite powers_double. replace (Z.of_nat (m + m)) with (2 * Z.of_nat m) by lia.
    rewrite !Z.mul_divide_cancel_l by lia. rewrite odd_divides. apply IH.
  - split; intros [z Hz]; exfalso; [|lia]. replace (2 * m + 1)%nat with (S (m + m)) in Hz by lia. cbn [powers] in Hz.
    rewrite powers_double in Hz. lia.
Qed.

(** The generator without its wrapping. *)
Definition affine (x : Z) : Z := x * 1103515245 + 12345.

Lemma affine_iter n x : Nat.iter n affine x = x + powers n * (1103515244 * x + 12345).
Proof. induction n as [|n IH]; cbn [Nat.iter nat_rect powers]; [lia|]. unfold Nat.iter in IH. rewrite IH. unfold affine. lia. Qed.

Lemma mod_mod_pow x : (x mod 2 ^ 64) mod 2 ^ 31 = x mod 2 ^ 31.
Proof. change (2 ^ 64) with (2 ^ 31 * 2 ^ 33). rewrite Z.rem_mul_r by lia. rewrite Z.mul_comm, Z.mod_add by lia. apply Z.mod_mod. lia. Qed.

Lemma lcg_iter n x : Nat.iter n lcg x mod 2 ^ 31 = Nat.iter n affine x mod 2 ^ 31.
Proof.
  induction n as [|n IH]; [done|]. cbn [Nat.iter nat_rect]. change (nat_rect _ x (fun _ => ?f) n) with (Nat.iter n f x).
  unfold lcg at 1, affine at 1, wrap. rewrite mod_mod_pow.
  rewrite <- (Zplus_mod_idemp_l (_ * _)), <- (Zplus_mod_idemp_l (Nat.iter n affine x * _)).
  rewrite <- (Z.mul_mod_idemp_l (Nat.iter n lcg x)), <- (Z.mul_mod_idemp_l (Nat.iter n affine x)) by lia.
  by rewrite IH.
Qed.

Lemma lcg_period n x : Nat.iter n lcg x mod 2 ^ 31 = x mod 2 ^ 31 <-> (2 ^ 31 | Z.of_nat n).
Proof.
  rewrite lcg_iter, affine_iter. rewrite <- (powers_divides 31), <- (odd_divides 31 (powers n) (551757622 * x + 6172)).
  change (Z.of_nat 31) with 31. replace (1 + 2 * (551757622 * x + 6172)) with (1103515244 * x + 12345) by lia.
  set (d := powers n * (1103515244 * x + 12345)). split; intros H.
  - apply Z.mod_divide; [lia|]. replace d with (x + d - x) by lia. rewrite Zminus_mod, H, Z.sub_diag. done.
  - apply Z.mod_divide in H; [|lia]. by rewrite <- Zplus_mod_idemp_r, H, Z.add_0_r.
Qed.

Section Rand.
Context {W : Type}.
Implicit Types (s : lib W).

Fixpoint rands (n : nat) : prog (lib W) (list Z) :=
  match n with
  | O => ret []
  | S n => let* r := rand in let* rs := rands n in ret (r :: rs)
  end.

Lemma rand_ok s : rand s = Ok (output (lcg (next s)), with_next (lcg (next s)) s).
Proof using Type. unfold rand, bind, gets, modify, ret. by rewrite lcg_wraps, output_eq by apply lcg_nonneg. Qed.

Lemma rands_ok n : forall s, rands n s = Ok (outputs n (next s), with_next (Nat.iter n lcg (next s)) s).
Proof using Type.
  induction n as [|n IH]; intros s; cbn [rands outputs]; [by destruct s|].
  rewrite (bind_ok _ _ _ _ _ (rand_ok s)), (bind_ok _ _ _ _ _ (IH _)). cbn [with_next next]. by rewrite Nat.iter_succ_r.
Qed.

(** C28: [rand] gives numbers up to RAND_MAX, and the 31 bits of the state that
    they depend on come back after 2 ^ 31 calls and not before. *)
Theorem rand_period n s :
  exists rs s', rands n s = Ok (rs, s') /\ Forall (fun r => 0 <= r <= 32767) rs /\
    (next s' mod 2 ^ 31 = next s mod 2 ^ 31 <-> (2 ^ 31 | Z.of_nat n)).
Proof using Type.
  eexists _, _. split; [apply rands_ok|]. split; [apply outputs_bound|]. apply lcg_period.
Qed.

(** ** [rand_r] *)

Fixpoint rand_rs (n : nat) (a : Z) : prog mem (list Z) :=
  match n with
  | O => ret []
  | S n => let* r := rand_r a in let* rs := rand_rs n a in ret (r :: rs)
  end.

Lemma rand_r_ok a x m : uint_at m a x -> 
  exists m', rand_r a m = Ok (output (lcg x), m') /\ uint_at m' a (u32 (lcg x)).
Proof using Type.
  intros H. exists (CMem.write a (le_bytes 4 (u32 (lcg x))) m). split; [|by apply uint_at_write, wrap_bound].
  apply wp_det. unfold rand_r. wp_step. apply wp_load32 with x; [done|]. rewrite lcg_wraps. wp_step.
  apply wp_store32; [by apply uint_at_mapped in H|]. wp_step. by rewrite output_eq by apply lcg_nonneg.
Qed.

Lemma rand_rs_ok n a : forall x m, uint_at m a (u32 x) -> exists m', rand_rs n a m = Ok (outputs n x, m').
Proof using Type.
  induction n as [|n IH]; intros x m H; cbn [rand_rs outputs]; [by eexists|].
  destruct (rand_r_ok a (u32 x) m H) as (m1 & E & H1). rewrite (bind_ok _ _ _ _ _ E).
  assert (lcg (u32 x) mod 2 ^ 32 = lcg x mod 2 ^ 32 /\ output (lcg (u32 x)) = output (lcg x)) as [E1 E2].
  { assert (lcg (u32 x) mod 2 ^ 32 = lcg x mod 2 ^ 32) as E1.
    { unfold lcg, wrap. change (2 ^ 64) with (2 ^ 32 * 2 ^ 32). rewrite !Z.rem_mul_r by lia.
      rewrite !(Z.mul_comm (2 ^ 32)), !Z.mod_add, !Z.mod_mod by lia.
      rewrite <- (Zplus_mod_idemp_l (x * _)), <- (Zplus_mod_idemp_l (x mod _ * _)). by rewrite Z.mul_mod_idemp_l by lia. }
    split; [exact E1|]. unfold output. f_equal.
    assert (forall y, (y mod 2 ^ 32) mod 2 ^ 31 = y mod 2 ^ 31) as Hy.
    { intros y. change (2 ^ 32) with (2 ^ 31 * 2). rewrite Z.rem_mul_r by lia. rewrite Z.mul_comm, Z.mod_add by lia. apply Z.mod_mod. lia. }
    by rewrite <- Hy, E1, Hy. }
  destruct (IH (lcg x) m1) as [m2 E3]; [|rewrite (bind_ok _ _ _ _ _ E3); eexists; unfold ret; by rewrite E2].
  unfold wrap in H1 at 1. rewrite E1 in H1. exact H1.
Qed.

(** [rand_r] from a seed gives the numbers that [rand] gives after [srand] of
    the same seed, although it keeps 32 bits of the state and [rand] 64. *)
Theorem rand_r_rand n a seed m s :
  uint_at m a seed ->
  exists rs m' s', rand_rs n a m = Ok (rs, m') /\ (srand seed ;; rands n)%prog s = Ok (rs, s').
Proof using Type.
  intros H. pose proof (proj1 H) as Hs. destruct (rand_rs_ok n a seed m) as [m' E]; [by rewrite wrap_small by lia|].
  eexists _, m', _. split; [exact E|]. rewrite (bind_ok (srand seed) tt _ s (with_next seed s)) by done. apply (rands_ok n (with_next seed s)).
Qed.
End Rand.

(** ** Divisions *)

Section Division.
Context {S : Type}.
Implicit Types (s : S).

Lemma idiv_ok w n d s :
  1 < w -> - 2 ^ (w - 1) <= n < 2 ^ (w - 1) -> - 2 ^ (w - 1) <= d < 2 ^ (w - 1) -> d <> 0 -> ~ (n = - 2 ^ (w - 1) /\ d = -1) ->
  idiv w n d s = Ok ((Z.quot n d, Z.rem n d), s).
Proof using Type.
  intros Hw Hn Hd Hd0 Hmin. unfold idiv. rewrite (proj2 (Z.eqb_neq d 0)) by done. cbn [orb].
  rewrite (proj2 (Z.leb_gt _ _)); [done|]. set (M := 2 ^ (w - 1)) in *.
  assert (0 < M) by (apply Z.pow_pos_nonneg; lia).
  destruct (decide (d = -1)) as [->|Hd1]; [change (-1) with (- (1)); rewrite Z.quot_opp_r, Z.quot_1_r by lia; lia|].
  destruct (decide (Z.abs d = 1)) as [Ha|Ha]; [assert (d = 1) as -> by lia; rewrite Z.quot_1_r; lia|].
  pose proof (Z.quot_abs n d Hd0) as Hq.
  assert (Z.abs n ÷ Z.abs d < M); [|lia].
  rewrite Z.quot_div_nonneg by lia. apply Z.div_lt_upper_bound; [lia|]. nia.
Qed.

(** [div] gives the quotient rounded to zero and a remainder of the sign of
    the dividend, as C defines them; a division by 0 traps, and so does that
    of INT_MIN by -1. *)
Theorem div_correct n d s :
  - 2 ^ 31 <= n < 2 ^ 31 -> - 2 ^ 31 <= d < 2 ^ 31 ->
  (d = 0 \/ n = - 2 ^ 31 /\ d = -1 -> div n d s = Fault) /\
  (d <> 0 -> ~ (n = - 2 ^ 31 /\ d = -1) -> exists q r, div n d s = Ok ((q, r), s) /\
     n = q * d + r /\ Z.abs r < Z.abs d /\ 0 <= r * n /\ - 2 ^ 31 <= q < 2 ^ 31).
Proof using Type.
  intros Hn Hd. split.
  - intros [->|[-> ->]]; reflexivity.
  - intros Hd0 Hmin. pose proof (idiv_ok 32 n d s ltac:(lia) Hn Hd Hd0 Hmin) as E.
    exists (Z.quot n d), (Z.rem n d). split; [unfold div; by rewrite !(bind_ok _ _ _ _ _ E)|].
    pose proof (Z.quot_rem n d Hd0). pose proof (Z.rem_bound_abs n d Hd0). pose proof (Z.rem_sign_mul n d Hd0).
    split; [lia|]. split; [lia|]. split; [lia|].
    pose proof (Z.quot_abs n d Hd0) as Hq. rewrite Z.quot_div_nonneg in Hq by lia.
    assert (Z.abs n / Z.abs d <= Z.abs n) by (apply Z.div_le_upper_bound; nia).
    unfold idiv in E. destruct (orb _ _) eqn:Eo; [done|]. apply orb_false_iff in Eo as [_ Eo]. apply Z.leb_gt in Eo.
    change (32 - 1) with 31 in Eo. lia.
Qed.
End Division.

(** ** Exit handlers *)

Section Handlers.
Context {W : Type} {RC : RawCalls W}.
Implicit Types (s : lib W).
Context (_exit : Z -> prog (lib W) unit) (call : Z -> prog (lib W) unit).

(** The handlers [fs] have been registered, in this order. *)
Definition registered (fs : list Z) s : Prop :=
  length (handlers s) = 32%nat /\ count s = Z.of_nat (length fs) /\ (length fs <= 32)%nat /\ forall i, (i < length fs)%nat -> handlers s !! i = fs !! i.

Lemma atexit_ok fs f s : registered fs s ->
  if decide (length fs < 32)%nat
  then exists s', atexit f s = Ok (0, s') /\ registered (fs ++ [f]) s'
  else atexit f s = Ok (-1, s).
Proof using Type.
  intros (Hl & Hc & Hle & Hi). unfold atexit, bind, get, put, ret. rewrite Hc. unfold MAX_ATEXIT_HANDLERS.
  destruct (decide _).
  - rewrite (proj2 (Z.leb_gt 32 _)) by lia. eexists. split; [done|]. rewrite Nat2Z.id. unfold registered. cbn [handlers count]. split; [by rewrite length_insert|].
    rewrite length_app. cbn [length]. split; [lia|]. split; [lia|]. intros i Hlt.
    destruct (decide (i = length fs)) as [->|Hne].
    + rewrite list_lookup_insert_eq by lia. by rewrite lookup_app_r, Nat.sub_diag by lia.
    + rewrite list_lookup_insert_ne by lia. rewrite lookup_app_l by lia. apply Hi. lia.
  - by rewrite (proj2 (Z.leb_le 32 _)) by lia.
Qed.

Fixpoint atexits (fs : list Z) : prog (lib W) (list Z) :=
  match fs with
  | [] => ret []
  | f :: fs => let* r := atexit f in let* rs := atexits fs in ret (r :: rs)
  end.

Lemma atexits_ok fs : forall gs s, registered gs s -> (length gs + length fs <= 32)%nat ->
  exists s', atexits fs s = Ok (replicate (length fs) 0, s') /\ registered (gs ++ fs) s'.
Proof using Type.
  induction fs as [|f fs IH]; intros gs s H Hl; cbn [atexits]; [exists s; by rewrite app_nil_r|]. cbn [length] in Hl.
  pose proof (atexit_ok gs f s H) as Ha. destruct (decide _); [|lia]. destruct Ha as (s1 & E1 & H1).
  destruct (IH (gs ++ [f]) s1 H1) as (s2 & E2 & H2); [rewrite length_app; cbn; lia|].
  exists s2. split; [by rewrite (bind_ok _ _ _ _ _ E1), (bind_ok _ _ _ _ _ E2)|]. by rewrite <- app_assoc in H2.
Qed.

(** Calling functions one after the other; a null pointer is skipped. *)
Fixpoint calls (fs : list Z) : prog (lib W) unit :=
  match fs with
  | [] => ret tt
  | f :: fs => (if negb (f =? 0) then call f else ret tt) ;; calls fs
  end.

(** A function may register more, and leaves the entries before alone. *)
Definition call_keeps : Prop := forall f s s', call f s = Ok (tt, s') ->
  forall i, Z.of_nat i < count s -> handlers s' !! i = handlers s !! i /\ count s <= count s'.

Lemma run_handlers_ok fs s s' : call_keeps -> registered fs s -> calls (rev fs) s = Ok (tt, s') -> run_handlers call s = Ok (tt, s').
Proof using Type.
  intros Hk (Hl & Hc & Hle & Hi) E. unfold run_handlers. rewrite (bind_ok (gets count) (count s) _ s s) by done. rewrite Hc.
  apply wp_det.
  apply wp_loop_n with (n := Z.of_nat (length fs)) (I := fun k i s1 => -1 <= i < Z.of_nat (length fs) /\ k = i + 1 /\
    Z.of_nat (length fs) <= count s1 /\ (forall j, (j < length fs)%nat -> handlers s1 !! j = fs !! j) /\
    calls (rev (take (Z.to_nat (i + 1)) fs)) s1 = Ok (tt, s')).
  2:{ split; [lia|]. split; [lia|]. split; [lia|]. split; [done|]. replace (Z.of_nat (length fs) - 1 + 1) with (Z.of_nat (length fs)) by lia.
      by rewrite Nat2Z.id, firstn_all. }
  2:{ lia. }
  intros k i s1 (Hr & -> & Hc1 & Hh & E1). destruct (Z.leb_spec 0 i) as [Hge|Hlt].
  - destruct (lookup_lt_is_Some_2 fs (Z.to_nat i)) as [f Hf]; [lia|].
    replace (Z.to_nat (i + 1)) with (S (Z.to_nat i)) in E1 by lia. rewrite (take_S_r _ _ _ Hf), rev_app_distr in E1. cbn [rev app calls] in E1.
    apply bind_inv in E1 as ([] & s2 & E2 & E3).
    assert (handlers s1 !! Z.to_nat i = Some f) as Hh1 by (by rewrite Hh by lia).
    wp_step. apply wp_getf with f; [exact Hh1|]. wp_step.
    assert (wp (if negb (f =? 0) then bind (getf (fun s => handlers s !! Z.to_nat i)) (fun f => call f) else ret tt)
              (fun _ s3 => s3 = s2 /\ (forall j, (j < length fs)%nat -> handlers s2 !! j = fs !! j) /\ Z.of_nat (length fs) <= count s2) s1) as Hw.
    { destruct (negb (f =? 0)).
      - wp_step. apply wp_getf with f; [exact Hh1|]. unfold wp. rewrite E2. split; [done|]. split.
        + intros j Hj. destruct (Hk _ _ _ E2 j ltac:(lia)) as [-> _]. by apply Hh.
        + destruct (Hk _ _ _ E2 (Z.to_nat i) ltac:(lia)). lia.
      - injection E2 as <-. wp_step. done. }
    eapply wp_mono; [exact Hw|]. intros _ s3 (-> & H2 & Hc2). wp_step. exists i. split; [|lia].
    split; [lia|]. split; [lia|]. split; [done|]. split; [done|]. by replace (i - 1 + 1) with i by lia.
  - wp_step. replace (Z.to_nat (i + 1)) with 0%nat in E1 by lia. by injection E1 as ->.
Qed.

(** The functions registered with [atexit], up to 32, run in the reverse
    order of their registration, and then the process ends. *)
Theorem quick_exit_correct fs status p s' :
  call_keeps -> (length fs <= 32)%nat ->
  (atexits fs ;; calls (rev fs))%prog (new_lib p) = Ok (tt, s') ->
  (atexits fs ;; quick_exit _exit call status)%prog (new_lib p) = _exit status s'.
Proof using Type.
  intros Hk Hl E. assert (registered [] (new_lib p)) as H0 by (split; [done|]; split; [done|]; split; [cbn; lia|]; intros i Hi; cbn in Hi; lia).
  destruct (atexits_ok fs [] (new_lib p) H0 Hl) as (s1 & E1 & H1). rewrite (bind_ok _ _ _ _ _ E1) in E. rewrite (bind_ok _ _ _ _ _ E1).
  unfold quick_exit. by rewrite (bind_ok _ _ _ _ _ (run_handlers_ok fs s1 s' Hk H1 E)).
Qed.

(** There is room for 32. *)
Lemma atexit_full fs f p : length fs = 32%nat ->
  exists s', (atexits fs ;; atexit f)%prog (new_lib p) = Ok (-1, s').
Proof using Type.
  intros Hl. assert (registered [] (new_lib p)) as H0 by (split; [done|]; split; [done|]; split; [cbn; lia|]; intros i Hi; cbn in Hi; lia).
  destruct (atexits_ok fs [] (new_lib p) H0 ltac:(cbn; lia)) as (s1 & E1 & H1). rewrite (bind_ok _ _ _ _ _ E1).
  pose proof (atexit_ok fs f s1 H1) as Ha. destruct (decide _); [lia|]. by exists s1.
Qed.
End Handlers.

(** ** Witnesses *)

Lemma rand_r_rand_witness :
  exists rs m' s', rand_rs 5 4096 (CMem.write 4096 (le_bytes 4 42) ∅) = Ok (rs, m') /\
    (srand 42 ;; rands 5)%prog (new_lib (Proc ∅ 0 tt)) = Ok (rs, s').
Proof. apply (rand_r_rand 5 4096 42). split; [lia|apply write_bytes_at]. Defined.

Lemma div_correct_witness :
  (-2 = 0 \/ 7 = - 2 ^ 31 /\ -2 = -1 -> div 7 (-2) tt = Fault) /\
  (-2 <> 0 -> ~ (7 = - 2 ^ 31 /\ -2 = -1) -> exists q r, div 7 (-2) tt = Ok ((q, r), tt) /\
     7 = q * -2 + r /\ Z.abs r < Z.abs (-2) /\ 0 <= r * 7 /\ - 2 ^ 31 <= q < 2 ^ 31).
Proof. apply (div_correct 7 (-2)); lia. Defined.

(** Functions that leave a trace. *)
Definition trace_call (f : Z) : prog (lib (list Z)) unit :=
  modify (fun s => Lib (with_world (world (lib_proc s) ++ [f]) (lib_proc s)) (next s) (handlers s) (count s)).

Lemma quick_exit_correct_witness :
  (atexits [10; 20; 30] ;; quick_exit trace_call trace_call 0)%prog (new_lib (Proc ∅ 0 [])) =
    trace_call 0 (Lib (Proc ∅ 0 [30; 20; 10]) 1 ([10; 20; 30] ++ replicate 29 0) 3).
Proof.
  apply (quick_exit_correct trace_call trace_call [10; 20; 30] 0 (Proc ∅ 0 [])).
  - intros f s s' E i Hi. injection E as <-. split; [done|]. cbn. lia.
  - cbn. lia.
  - by vm_compute.
Defined.
