(* ===== verification/Interrupts.v ===== *)
(** * Interrupts (kernel/interrupts.c, interrupts.h)

    The interrupt descriptor table, the two interrupt controllers, the timer
    and the keyboard.  Handlers run on the console and on the scheduler of
    process.c, whose states are parts of this one.  Port output is a trace;
    what a port answers is a function of the port and of what was written
    before.  The stubs (interrupt_stubs.asm) are addresses. *)

From Stdlib Require Import String.
From S2P Require Import Prelude Alloc Process Console.

#[local] Open Scope string_scope.
#[local] Open Scope list_scope.
#[local] Open Scope Z_scope.

(** ** Constants *)

Definition IRQ_TIMER : Z := 0.
Definition IRQ_KEYBOARD : Z := 1.
Definition PIC1_COMMAND : Z := 32.
Definition PIC1_DATA : Z := 33.
Definition PIC2_COMMAND : Z := 160.
Definition PIC2_DATA : Z := 161.
Definition PIC_EOI : Z := 32.
Definition PIC_INIT : Z := 17.
Definition PIC_ICW4_8086 : Z := 1.

(** The characters of a literal. *)
Definition chars (s : string) : list Z :=
  map (fun a => Z.of_N (Ascii.N_of_ascii a)) (String.list_ascii_of_string s).

Definition exception_messages : list string :=
  ["Division by zero"; "Debug"; "Non-maskable interrupt"; "Breakpoint"; "Overflow";
   "Bound range exceeded"; "Invalid opcode"; "Device not available"; "Double fault"; "Reserved";
   "Invalid TSS"; "Segment not present"; "Stack-segment fault"; "General protection fault";
   "Page fault"; "Reserved"; "x87 FPU error"; "Alignment check"; "Machine check";
   "SIMD FP exception"; "Virtualization exception"; "Reserved"; "Reserved"; "Reserved"; "Reserved";
   "Reserved"; "Reserved"; "Reserved"; "Reserved"; "Reserved"; "Security exception"; "Reserved"].

(** The keys of the first 58 scan codes; the others have none. *)
Definition scancode_table : list Z :=
  [0; 0] ++ chars "1234567890-=" ++ [8; 9] ++ chars "qwertyuiop[]" ++ [10; 0] ++
  chars "asdfghjkl;'`" ++ [0] ++ chars "\zxcvbnm,./" ++ [0; 42; 0; 32] ++ replicate 70 0.

(** ** State *)

Record idt_entry : Type := Gate {
  offset_low : Z; selector : Z; ist : Z; type_attr : Z; offset_middle : Z; offset_high : Z; zero : Z;
}.

Record cpu_state : Type := Cpu {
  c_r10 : Z; c_r9 : Z; c_r8 : Z; c_rdi : Z; c_rsi : Z; c_rdx : Z; c_rcx : Z; c_rbx : Z; c_rax : Z;
  c_int_no : Z; c_err_code : Z; c_rip : Z; c_rsp : Z;
}.

Section Interrupts.
Context {H : Type} {KA : KAlloc H} {PF : Platform H}.

Record irqs : Type := Irqs {
  idt : list idt_entry;
  idt_ptr : Z * Z;            (* limit and base *)
  idtr : option (Z * Z);      (* what [lidt] loaded *)
  ports : list (Z * Z);       (* the writes to ports, latest first *)
  enabled : bool;             (* [sti] *)
  tick : Z;
  screen : console;
  sched : ps H;
}.

Definition set_idt (v : list idt_entry) (s : irqs) : irqs :=
  Irqs v (idt_ptr s) (idtr s) (ports s) (enabled s) (tick s) (screen s) (sched s).
Definition set_idt_ptr (v : Z * Z) (s : irqs) : irqs :=
  Irqs (idt s) v (idtr s) (ports s) (enabled s) (tick s) (screen s) (sched s).
Definition lidt (s : irqs) : irqs :=
  Irqs (idt s) (idt_ptr s) (Some (idt_ptr s)) (ports s) (enabled s) (tick s) (screen s) (sched s).
Definition sti (s : irqs) : irqs :=
  Irqs (idt s) (idt_ptr s) (idtr s) (ports s) true (tick s) (screen s) (sched s).
Definition add_port (w : Z * Z) (s : irqs) : irqs :=
  Irqs (idt s) (idt_ptr s) (idtr s) (w :: ports s) (enabled s) (tick s) (screen s) (sched s).
Definition set_tick (v : Z) (s : irqs) : irqs :=
  Irqs (idt s) (idt_ptr s) (idtr s) (ports s) (enabled s) v (screen s) (sched s).
Definition set_screen (v : console) (s : irqs) : irqs :=
  Irqs (idt s) (idt_ptr s) (idtr s) (ports s) (enabled s) (tick s) v (sched s).
Definition set_sched (v : ps H) (s : irqs) : irqs :=
  Irqs (idt s) (idt_ptr s) (idtr s) (ports s) (enabled s) (tick s) (screen s) v.

(** Running a part of the kernel on its part of the state. *)
Definition on_screen {A} (p : prog console A) : prog irqs A :=
  fun s => match p (screen s) with
           | Ok (a, c) => Ok (a, set_screen c s)
           | Fault => Fault
           | Spin => Spin
           end.
Definition on_sched {A} (p : prog (ps H) A) : prog irqs A :=
  fun s => match p (sched s) with
           | Ok (a, t) => Ok (a, set_sched t s)
           | Fault => Fault
           | Spin => Spin
           end.

(** What lies outside interrupts.c: the devices, the stubs' addresses, the
    address of the table, and functions no file of the kernel defines; and
    the word a [va_list] is passed as ([Console.printk]). *)
Context (device : Z -> list (Z * Z) -> Z) (isr irq : Z -> Z) (idt_address va_list : Z).
Context (keyboard_init : prog irqs unit).
Context (kernel_syscall_handler : Z -> Z -> Z -> Z -> Z -> Z -> Z -> prog irqs unit).

(** [panic] stops the kernel. *)
Definition panic : prog irqs unit := fault.

(** ** Ports *)

Definition outb (port value : Z) : prog irqs unit := modify (add_port (port, value)).
Definition inb (port : Z) : prog irqs Z := gets (fun s => u8 (device port (ports s))).

(** ** The table *)

Definition idt_set_gate (num handler selector type_attr : Z) : prog irqs unit :=
  let* table := gets idt in
  getf (fun _ => table !! Z.to_nat num) ;;
  modify (set_idt (<[Z.to_nat num :=
    Gate (Z.land handler 65535) selector 0 type_attr (Z.land (Z.shiftr handler 16) 65535)
         (Z.land (Z.shiftr handler 32) 4294967295) 0]> table)).

Fixpoint set_gates (l : list (Z * Z)) : prog irqs unit :=
  match l with
  | [] => ret tt
  | (num, handler) :: l => idt_set_gate num handler 8 142 ;; set_gates l
  end.

(** ** The controllers *)

Definition pic_remap (offset1 offset2 : Z) : prog irqs unit :=
  let* mask1 := inb PIC1_DATA in
  let* mask2 := inb PIC2_DATA in
  outb PIC1_COMMAND PIC_INIT ;;
  outb PIC2_COMMAND PIC_INIT ;;
  outb PIC1_DATA offset1 ;;
  outb PIC2_DATA offset2 ;;
  outb PIC1_DATA 4 ;;
  outb PIC2_DATA 2 ;;
  outb PIC1_DATA PIC_ICW4_8086 ;;
  outb PIC2_DATA PIC_ICW4_8086 ;;
  outb PIC1_DATA mask1 ;;
  outb PIC2_DATA mask2.

Definition pic_send_eoi (irq : Z) : prog irqs unit :=
  (if 8 <=? irq then outb PIC2_COMMAND PIC_EOI else ret tt) ;;
  outb PIC1_COMMAND PIC_EOI.

(** ** Timer and keyboard *)

Definition timer_set_frequency (frequency : Z) : prog irqs unit :=
  if frequency =? 0 then fault
  else
    let divisor := 1193180 / frequency in
    outb 67 54 ;;
    outb 64 (Z.land divisor 255) ;;
    outb 64 (Z.land (Z.shiftr divisor 8) 255).

Definition timer_init (frequency : Z) : prog irqs unit := timer_set_frequency frequency.

Definition timer_tick : prog irqs unit :=
  modify (fun s => set_tick (u32 (tick s + 1)) s) ;;
  on_sched scheduler_tick.

Definition keyboard_read_scancode : prog irqs Z := inb 96.

Definition keyboard_scancode_to_ascii (scancode : Z) : prog irqs Z :=
  if scancode <? 128 then getf (fun _ => scancode_table !! Z.to_nat scancode) else ret 0.

Definition keyboard_handler : prog irqs unit :=
  let* scancode := inb 96 in
  if negb (Z.land scancode 128 =? 0) then ret tt
  else
    let* c := keyboard_scancode_to_ascii scancode in
    if negb (c =? 0) then ret tt else ret tt.

(** ** Handlers *)

Definition print (format : string) (args : list varg) : prog irqs unit :=
  on_screen (printk va_list (chars format) args).

(** A newline at the end of a format. *)
Definition printn (format : string) (args : list varg) : prog irqs unit :=
  on_screen (printk va_list (chars format ++ [10]) args).

Definition exception_handler (cpu : cpu_state) : prog irqs unit :=
  let int_no := u32 (c_int_no cpu) in
  if int_no <? 32 then
    let* message := getf (fun _ => exception_messages !! Z.to_nat int_no) in
    printn "Exception %d: %s" [VWord int_no; VStr (chars message)] ;;
    printn "RIP: 0x%016x" [VWord (c_rip cpu)] ;;
    printn "RSP: 0x%016x" [VWord (c_rsp cpu)] ;;
    printn "RAX: 0x%016x" [VWord (c_rax cpu)] ;;
    printn "RBX: 0x%016x" [VWord (c_rbx cpu)] ;;
    printn "RCX: 0x%016x" [VWord (c_rcx cpu)] ;;
    printn "RDX: 0x%016x" [VWord (c_rdx cpu)] ;;
    printn "Error code: 0x%016x" [VWord (c_err_code cpu)] ;;
    panic
  else
    printn "Unknown exception: %d" [VWord int_no] ;;
    panic.

Definition irq_handler (cpu : cpu_state) : prog irqs unit :=
  let int_no := u32 (c_int_no cpu - 32) in
  (if int_no =? IRQ_TIMER then timer_tick
   else if int_no =? IRQ_KEYBOARD then keyboard_handler
   else printn "Unhandled IRQ: %d" [VWord int_no]) ;;
  pic_send_eoi (u8 int_no).

Definition syscall_handler (cpu : cpu_state) : prog irqs unit :=
  kernel_syscall_handler (c_rax cpu) (c_rdi cpu) (c_rsi cpu) (c_rdx cpu) (c_r10 cpu) (c_r8 cpu) (c_r9 cpu).

(** ** Initialisation *)

Definition empty_gate : idt_entry := Gate 0 0 0 0 0 0 0.

(** The exceptions with a gate. *)
Definition exceptions : list Z := [0; 1; 2; 3; 4; 5; 6; 7; 8; 10; 11; 12; 13; 14; 16; 17; 18; 19].
Definition irq_lines : list Z := [0; 1; 2; 3; 4; 5; 6; 7; 8; 9; 10; 11; 12; 13; 14; 15].

Definition gates : list (Z * Z) :=
  map (fun n => (n, isr n)) exceptions ++ map (fun n => (32 + n, irq n)) irq_lines ++ [(128, isr 128)].

Definition interrupts_init : prog irqs unit :=
  modify (fun s => set_idt (map (fun _ => empty_gate) (idt s)) s) ;;
  modify (set_idt_ptr (4095, idt_address)) ;;
  set_gates gates ;;
  modify lidt ;;
  pic_remap 32 40 ;;
  modify sti ;;
  timer_init 100 ;;
  keyboard_init.
End Interrupts.
Arguments irqs H : clear implicits.

(** ** Specification *)

(** The handler a gate leads to. *)
Definition gate_handler (g : idt_entry) : Z :=
  offset_low g + 2 ^ 16 * offset_middle g + 2 ^ 32 * offset_high g.

(** An interrupt gate of the kernel's code segment for [handler]. *)
Definition gate_of (handler : Z) : idt_entry :=
  Gate (Z.land handler 65535) 8 0 142 (Z.land (Z.shiftr handler 16) 65535)
       (Z.land (Z.shiftr handler 32) 4294967295) 0.

Lemma land_mod x k n : 0 <= n -> k = Z.ones n -> Z.land x k = x mod 2 ^ n.
Proof. intros Hn ->. by apply Z.land_ones. Qed.

Lemma gate_handler_of h : 0 <= h < 2 ^ 64 -> gate_handler (gate_of h) = h.
Proof.
  intros Hh. unfold gate_handler, gate_of. cbn [offset_low offset_middle offset_high].
  rewrite (land_mod _ 65535 16), (land_mod _ 65535 16), (land_mod _ 4294967295 32) by done.
  rewrite !Z.shiftr_div_pow2 by done. rewrite (Z.mod_small (h / 2 ^ 32)).
  2:{ split; [apply Z.div_pos; lia|apply Z.div_lt_upper_bound; lia]. }
  assert (h / 2 ^ 32 = h / 2 ^ 16 / 2 ^ 16) as -> by (rewrite Z.div_div by done; done).
  pose proof (Z.div_mod h (2 ^ 16) ltac:(done)). pose proof (Z.div_mod (h / 2 ^ 16) (2 ^ 16) ltac:(done)). lia.
Qed.

Section Initialisation.
Context {H : Type} {KA : KAlloc H} {PF : Platform H}.
Context (device : Z -> list (Z * Z) -> Z) (isr irq : Z -> Z) (idt_address : Z).
Context (keyboard_init : prog (irqs H) unit).
Implicit Types (s : irqs H).

(** The stub of interrupt_stubs.asm that pushes the number [n]: [isr0] to
    [isr19], [irq0] to [irq15] for 32 to 47, and [isr128]. *)
Definition stub_of (n : Z) : option Z :=
  if (0 <=? n) && (n <? 20) then Some (isr n)
  else if (32 <=? n) && (n <? 48) then Some (irq (n - 32))
  else if n =? 128 then Some (isr 128)
  else None.

(** The stubs that no gate leads to. *)
Definition unused_stubs : list Z := [9; 15].

(** Where the gate of a vector has to lead. *)
Definition handler_of (n : Z) : option Z :=
  if bool_decide (n ∈ unused_stubs) then None else stub_of n.

Definition full_table : list idt_entry :=
  map (fun n => default empty_gate (gate_of <$> handler_of (Z.of_nat n))) (seq 0 256).

Lemma wp_set_gates l : forall s (Q : unit -> irqs H -> Prop),
  Forall (fun g => 0 <= g.1 < Z.of_nat (length (idt s))) l ->
  Q tt (set_idt (fold_left (fun t '(n, h) => <[Z.to_nat n := gate_of h]> t) l (idt s)) s) ->
  wp (set_gates l) Q s.
Proof using Type.
  induction l as [|[n h] l IH]; intros s Q Hl HQ; cbn [set_gates fold_left] in *.
  { wp_step. by destruct s. }
  apply Forall_cons in Hl as [Hn Hl]. cbn in Hn. wp_step. unfold idt_set_gate. do 3 wp_step.
  destruct (lookup_lt_is_Some_2 (idt s) (Z.to_nat n)) as [g Hg]; [lia|].
  apply wp_getf with g; [done|]. wp_step. apply IH; [|done]. cbn. by rewrite length_insert.
Qed.

Lemma gates_fill : fold_left (fun t '(n, h) => <[Z.to_nat n := gate_of h]> t) (gates isr irq)
  (replicate 256 empty_gate) = full_table.
Proof using Type. reflexivity. Qed.

(** What [interrupts_init] leaves to the keyboard driver: [mask1] and [mask2]
    are the masks the controllers had. *)
Record initialised (s s1 : irqs H) : Prop := {
  in_table : idt s1 = full_table;
  in_idtr : idtr s1 = Some (4095, idt_address);
  in_enabled : enabled s1 = true;
  in_ports : ports s1 =
    [(64, 46); (64, 155); (67, 54);
     (PIC2_DATA, u8 (device PIC2_DATA (ports s))); (PIC1_DATA, u8 (device PIC1_DATA (ports s)));
     (PIC2_DATA, 1); (PIC1_DATA, 1); (PIC2_DATA, 2); (PIC1_DATA, 4); (PIC2_DATA, 40); (PIC1_DATA, 32);
     (PIC2_COMMAND, 17); (PIC1_COMMAND, 17)] ++ ports s;
  in_rest : screen s1 = screen s /\ sched s1 = sched s /\ tick s1 = tick s;
}.

(** C26: [interrupts_init]: every vector whose number a stub of
    interrupt_stubs.asm pushes gets a gate that leads to exactly this stub,
    but for 9 and 15, whose stubs [isr9] and [isr15] are left without a gate,
    and all other vectors have none; the table is loaded before
    interrupts are enabled; the controllers are moved to vectors 32 to 47 with
    their masks as they were, and the timer is set to 11931 clocks (100 Hz). *)
Theorem interrupts_init_correct s :
  length (idt s) = 256%nat -> (forall n, 0 <= isr n < 2 ^ 64) -> (forall n, 0 <= irq n < 2 ^ 64) ->
  exists s1, interrupts_init device isr irq idt_address keyboard_init s = keyboard_init s1 /\
    initialised s s1 /\
    forall n, 0 <= n < 256 -> exists g, idt s1 !! Z.to_nat n = Some g /\
      match stub_of n with
      | Some h => if bool_decide (n ∈ unused_stubs) then g = empty_gate
                  else gate_handler g = h /\ selector g = 8 /\ type_attr g = 142
      | None => g = empty_gate
      end.
Proof using Type.
  intros Hl Hisr Hirq.
  assert (map (fun _ => empty_gate) (idt s) = replicate 256 empty_gate) as Hclear.
  { rewrite <- Hl. clear. induction (idt s) as [|g l IH]; [done|]. cbn. by rewrite <- IH. }
  eexists. split; [|split].
  - unfold interrupts_init, bind, modify. cbn [idt set_idt set_idt_ptr]. rewrite Hclear.
    set (s0 := set_idt_ptr _ _).
    assert (set_gates (gates isr irq) s0 = Ok (tt, set_idt full_table s0)) as Hg.
    { apply wp_det, wp_set_gates; [|by rewrite <- gates_fill].
      unfold gates, exceptions, irq_lines. cbn. repeat (apply Forall_cons; split; [cbn; lia|]). by apply Forall_nil. }
    rewrite Hg. reflexivity.
  - constructor; reflexivity || done.
  - intros n Hn. cbn [idt sti lidt set_idt add_port]. unfold full_table. change @map with @list_fmap.
    rewrite list_lookup_fmap, lookup_seq_lt by lia. cbn [fmap option_fmap option_map]. eexists. split; [done|].
    rewrite Nat.add_0_l, Z2Nat.id by lia. unfold handler_of. destruct (stub_of n) as [h|] eqn:E.
    + destruct (bool_decide (n ∈ unused_stubs)); [done|]. cbn. split; [|done]. apply gate_handler_of.
      unfold stub_of in E. repeat case_match; by simplify_eq.
    + by destruct (bool_decide (n ∈ unused_stubs)).
Qed.
End Initialisation.

(** ** Exceptions *)

Section Exceptions.
Context {H : Type} {KA : KAlloc H} {PF : Platform H}.
Context (va_list : Z).
Implicit Types (s : irqs H).

Lemma puts_runs l c : valid c -> console_puts l c = Ok (tt, puts_spec l c).
Proof using Type. intros Hc. apply wp_det. by apply wp_console_puts. Qed.

(** Text without conversions is copied. *)
Lemma printf_text l f args c : Forall (fun b => b <> 37) l -> valid c ->
  console_printf (l ++ f) args c = console_printf f args (puts_spec l c).
Proof using Type.
  intros Hl. revert c. induction Hl as [|b l Hb Hl IH]; intros c Hc; [done|]. cbn [app].
  assert (console_printf (b :: l ++ f) args = (console_putc b ;; console_printf (l ++ f) args)) as ->.
  { cbn [console_printf]. repeat case_match; done. }
  unfold bind. assert (console_putc b c = Ok (tt, putc_spec b c)) as ->.
  { apply wp_det. by apply wp_console_putc. }
  cbn [puts_spec fold_left]. by apply IH, putc_valid.
Qed.

(** No exception is ever reported: the message of [exception_handler]
    has a number and a string, but [printk] passes its [va_list] on as one
    argument, so the string is taken from an argument that is not there; the
    handler faults in the report of the fault. *)
Theorem exception_handler_faults (cpu : cpu_state) s :
  valid (screen s) -> u32 (c_int_no cpu) < 32 -> exception_handler va_list cpu s = Fault.
Proof using Type.
  intros Hs Hn. unfold exception_handler. rewrite (proj2 (Z.ltb_lt _ 32)) by done.
  pose proof (wrap_bound 32 (c_int_no cpu) ltac:(done)).
  destruct (lookup_lt_is_Some_2 exception_messages (Z.to_nat (u32 (c_int_no cpu)))) as [msg Hmsg]; [cbn; lia|].
  unfold bind at 1, getf at 1. rewrite Hmsg. unfold bind at 1, printn at 1, on_screen, printk.
  assert (forall args, console_printf (chars "Exception %d: %s" ++ [10]) (VWord va_list :: args) (screen s) =
    console_printf [37; 100; 58; 32; 37; 115; 10] (VWord va_list :: args) (puts_spec (chars "Exception ") (screen s))) as ->.
  { intros args. apply (printf_text (chars "Exception ") [37; 100; 58; 32; 37; 115; 10]); [|done].
    repeat (constructor; [done|]). constructor. }
  set (c := puts_spec _ _). assert (valid c) as Hc by (by apply puts_valid).
  change (console_printf [37; 100; 58; 32; 37; 115; 10] [VWord va_list]) with
    (console_print_int (s32 va_list) 10 ;; console_printf [58; 32; 37; 115; 10] []).
  assert (wp (console_print_int (s32 va_list) 10) (fun _ c' => valid c') c) as Hw.
  { apply wp_console_print_int; [done|by apply (swrap_bound 32)|]. intros l _. by apply puts_valid. }
  unfold bind. apply wp_run in Hw as ([] & c' & -> & Hc').
  change [58; 32; 37; 115; 10] with ([58; 32] ++ [37; 115; 10]).
  rewrite (printf_text [58; 32] [37; 115; 10] [] c'); [done| |done].
  repeat (constructor; [done|]). constructor.
Qed.
End Exceptions.

(** ** Witnesses *)

Section Demo.
#[local] Instance quiet_platform : Platform unit := {|
  context_switch := fun _ _ => ret tt; mm_switch_space := fun _ => ret tt; hlt := ret tt;
  call_handler := fun _ _ => ret tt; thread_entry_wrapper_addr := 0; thread_exit_addr := 0;
  sizeof_process := 400 |}.
#[local] Instance quiet_alloc : KAlloc unit := {| kmalloc_op := fun _ => ret 0; kfree_op := fun _ => ret tt |}.

Definition demo_irqs : irqs unit :=
  Irqs (replicate 256 empty_gate) (0, 0) None [] false 0 demo_console
       (Ps tt ∅ ∅ ∅ ∅ 0 0 0 0 1 1).

(** Stubs 16 bytes apart, and controllers with all lines masked. *)
Lemma interrupts_init_correct_witness :
  exists s1, interrupts_init (fun _ _ => 255) (fun n => 1048576 + 16 * (n mod 256))
      (fun n => 2097152 + 16 * (n mod 256)) 8192 (ret tt) demo_irqs = ret tt s1 /\
    initialised (fun _ _ => 255) (fun n => 1048576 + 16 * (n mod 256)) (fun n => 2097152 + 16 * (n mod 256))
      8192 demo_irqs s1 /\
    forall n, 0 <= n < 256 -> exists g, idt s1 !! Z.to_nat n = Some g /\
      match stub_of (fun n => 1048576 + 16 * (n mod 256)) (fun n => 2097152 + 16 * (n mod 256)) n with
      | Some h => if bool_decide (n ∈ unused_stubs) then g = empty_gate
                  else gate_handler g = h /\ selector g = 8 /\ type_attr g = 142
      | None => g = empty_gate
      end.
Proof.
  apply interrupts_init_correct; [reflexivity| |];
    intros n; pose proof (Z.mod_pos_bound n 256 ltac:(done)); lia.
Defined.

(** A page fault. *)
Lemma exception_handler_faults_witness :
  exception_handler 4096 (Cpu 0 0 0 0 0 0 0 0 0 14 0 0 0) demo_irqs = Fault.
Proof. apply exception_handler_faults; [exact demo_valid|reflexivity]. Defined.
End Demo.
