(* ===== verification/Gpu.v ===== *)
(** * The software GPU (graphics/src/gpu/gpu_backend.c, gpu.h)

    The resources are typed objects in a store, keyed by their addresses, the
    contents of buffers and textures are byte objects, and the words of a
    command buffer a word object whose entries may not be set yet.  Memory
    comes from the interface [LibcHeap]; a request may fail.  A descriptor is
    passed by value, [None] for a null pointer.  A [float] is the 32 bits of
    its representation.  What is printed is a list of calls of [printf] in
    the state; the newline that ends every format is left out. *)

From S2P Require Import Prelude Alloc.
From Stdlib Require Import String.
#[local] Open Scope Z_scope.

(** ** gpu.h *)

(** [GPU_FORMAT_other] is a number that names no format. *)
Inductive gpu_format_t : Type :=
  | GPU_FORMAT_R8_UNORM | GPU_FORMAT_R8G8_UNORM | GPU_FORMAT_R8G8B8A8_UNORM | GPU_FORMAT_B8G8R8A8_UNORM
  | GPU_FORMAT_R32_SFLOAT | GPU_FORMAT_R32G32_SFLOAT | GPU_FORMAT_R32G32B32A32_SFLOAT | GPU_FORMAT_D32_SFLOAT
  | GPU_FORMAT_other (number : Z).

Inductive gpu_shader_stage_t : Type :=
  | GPU_SHADER_STAGE_VERTEX | GPU_SHADER_STAGE_FRAGMENT | GPU_SHADER_STAGE_COMPUTE.

Inductive gpu_blend_factor_t : Type :=
  | GPU_BLEND_FACTOR_ZERO | GPU_BLEND_FACTOR_ONE | GPU_BLEND_FACTOR_SRC_COLOR | GPU_BLEND_FACTOR_ONE_MINUS_SRC_COLOR
  | GPU_BLEND_FACTOR_DST_COLOR | GPU_BLEND_FACTOR_ONE_MINUS_DST_COLOR | GPU_BLEND_FACTOR_SRC_ALPHA
  | GPU_BLEND_FACTOR_ONE_MINUS_SRC_ALPHA | GPU_BLEND_FACTOR_DST_ALPHA | GPU_BLEND_FACTOR_ONE_MINUS_DST_ALPHA.

Inductive gpu_blend_op_t : Type :=
  | GPU_BLEND_OP_ADD | GPU_BLEND_OP_SUBTRACT | GPU_BLEND_OP_REVERSE_SUBTRACT | GPU_BLEND_OP_MIN | GPU_BLEND_OP_MAX.

Inductive gpu_filter_t : Type := GPU_FILTER_NEAREST | GPU_FILTER_LINEAR.

Inductive gpu_address_mode_t : Type :=
  | GPU_ADDRESS_MODE_REPEAT | GPU_ADDRESS_MODE_MIRRORED_REPEAT | GPU_ADDRESS_MODE_CLAMP_TO_EDGE
  | GPU_ADDRESS_MODE_CLAMP_TO_BORDER | GPU_ADDRESS_MODE_MIRROR_CLAMP_TO_EDGE.

Inductive gpu_primitive_topology_t : Type :=
  | GPU_PRIMITIVE_TOPOLOGY_POINT_LIST | GPU_PRIMITIVE_TOPOLOGY_LINE_LIST | GPU_PRIMITIVE_TOPOLOGY_LINE_STRIP
  | GPU_PRIMITIVE_TOPOLOGY_TRIANGLE_LIST | GPU_PRIMITIVE_TOPOLOGY_TRIANGLE_STRIP.

Inductive gpu_front_face_t : Type := GPU_FRONT_FACE_COUNTER_CLOCKWISE | GPU_FRONT_FACE_CLOCKWISE.

Inductive gpu_cull_mode_t : Type := GPU_CULL_MODE_NONE | GPU_CULL_MODE_FRONT | GPU_CULL_MODE_BACK.

Inductive gpu_compare_func_t : Type :=
  | GPU_COMPARE_FUNC_NEVER | GPU_COMPARE_FUNC_LESS | GPU_COMPARE_FUNC_EQUAL | GPU_COMPARE_FUNC_LESS_EQUAL
  | GPU_COMPARE_FUNC_GREATER | GPU_COMPARE_FUNC_NOT_EQUAL | GPU_COMPARE_FUNC_GREATER_EQUAL | GPU_COMPARE_FUNC_ALWAYS.

Inductive gpu_stencil_op_t : Type :=
  | GPU_STENCIL_OP_KEEP | GPU_STENCIL_OP_ZERO | GPU_STENCIL_OP_REPLACE | GPU_STENCIL_OP_INCREMENT_CLAMP
  | GPU_STENCIL_OP_DECREMENT_CLAMP | GPU_STENCIL_OP_INVERT | GPU_STENCIL_OP_INCREMENT_WRAP | GPU_STENCIL_OP_DECREMENT_WRAP.

Record gpu_buffer_desc_t : Type := BufferDesc { bd_size : Z; bd_usage : Z; bd_initial_data : Z }.

Record gpu_texture_desc_t : Type := TextureDesc {
  td_width : Z; td_height : Z; td_depth : Z; td_mip_levels : Z;
  td_format : gpu_format_t; td_usage : Z; td_initial_data : Z;
}.

Record gpu_shader_desc_t : Type := ShaderDesc {
  sd_stage : gpu_shader_stage_t; sd_bytecode : Z; sd_bytecode_size : Z; sd_entry_point : Z;
}.

Record vertex_attribute : Type := VertexAttribute { va_stride : Z; va_offset : Z; va_format : gpu_format_t }.

Record depth_stencil : Type := DepthStencil {
  ds_depth_test_enable : bool; ds_depth_write_enable : bool; ds_depth_compare_func : gpu_compare_func_t;
  ds_stencil_enable : bool; ds_stencil_fail_op : gpu_stencil_op_t; ds_stencil_depth_fail_op : gpu_stencil_op_t;
  ds_stencil_pass_op : gpu_stencil_op_t; ds_stencil_compare_func : gpu_compare_func_t;
}.

Record color_blend_target : Type := ColorBlendTarget {
  cb_blend_enable : bool; cb_src_factor : gpu_blend_factor_t; cb_dst_factor : gpu_blend_factor_t;
  cb_blend_op : gpu_blend_op_t; cb_src_factor_alpha : gpu_blend_factor_t; cb_dst_factor_alpha : gpu_blend_factor_t;
  cb_blend_op_alpha : gpu_blend_op_t; cb_write_mask : Z;
}.

(** The arrays have 16 and 8 elements. *)
Record gpu_pipeline_desc_t : Type := PipelineDesc {
  pd_vertex_shader : gpu_shader_desc_t; pd_fragment_shader : gpu_shader_desc_t;
  pd_vertex_attributes : list vertex_attribute; pd_vertex_attribute_count : Z;
  pd_primitive_topology : gpu_primitive_topology_t; pd_front_face : gpu_front_face_t; pd_cull_mode : gpu_cull_mode_t;
  pd_depth_stencil : depth_stencil;
  pd_color_blend_targets : list color_blend_target; pd_color_blend_target_count : Z;
}.

Record gpu_sampler_desc_t : Type := SamplerDesc {
  sa_min_filter : gpu_filter_t; sa_mag_filter : gpu_filter_t; sa_mipmap_filter : gpu_filter_t;
  sa_address_mode_u : gpu_address_mode_t; sa_address_mode_v : gpu_address_mode_t; sa_address_mode_w : gpu_address_mode_t;
  sa_min_lod : Z; sa_max_lod : Z; sa_lod_bias : Z; sa_max_anisotropy : Z;
}.

Record gpu_init_desc_t : Type := InitDesc { id_enable_validation : bool; id_max_frames_in_flight : Z }.

(** ** Resources *)

Record gpu_buffer : Type := Buffer { b_id : Z; b_size : Z; b_usage : Z; b_data : Z; b_mapped : bool }.

Record gpu_texture : Type := Texture {
  t_id : Z; t_width : Z; t_height : Z; t_depth : Z; t_mip_levels : Z;
  t_format : gpu_format_t; t_usage : Z; t_data : Z; t_mapped : bool;
}.

Record gpu_pipeline : Type := Pipeline { p_id : Z; p_desc : gpu_pipeline_desc_t }.
Record gpu_sampler : Type := Sampler { s_id : Z; s_desc : gpu_sampler_desc_t }.
Record gpu_fence : Type := Fence { f_id : Z; f_signaled : bool }.
Record gpu_command_buffer : Type := CommandBuffer { c_commands : Z; c_capacity : Z; c_count : Z }.

Definition sizeof_gpu_buffer : Z := 40.
Definition sizeof_gpu_texture : Z := 48.
Definition sizeof_gpu_pipeline : Z := 568.
Definition sizeof_gpu_sampler : Z := 44.
Definition sizeof_gpu_fence : Z := 8.
Definition sizeof_gpu_command_buffer : Z := 24.

Inductive gobj : Type :=
  | O_raw (n : Z)
  | O_buffer (b : gpu_buffer)
  | O_texture (t : gpu_texture)
  | O_pipeline (p : gpu_pipeline)
  | O_sampler (s : gpu_sampler)
  | O_fence (f : gpu_fence)
  | O_commands (c : gpu_command_buffer)
  | O_bytes (l : list Z)
  | O_words (l : list (option Z)).

(** ** Commands *)

Definition GPU_CMD_BEGIN_RENDER_PASS : Z := 0.
Definition GPU_CMD_END_RENDER_PASS : Z := 1.
Definition GPU_CMD_SET_PIPELINE : Z := 2.
Definition GPU_CMD_SET_VERTEX_BUFFER : Z := 3.
Definition GPU_CMD_SET_INDEX_BUFFER : Z := 4.
Definition GPU_CMD_SET_VIEWPORT : Z := 5.
Definition GPU_CMD_SET_SCISSOR : Z := 6.
Definition GPU_CMD_DRAW : Z := 7.
Definition GPU_CMD_DRAW_INDEXED : Z := 8.
Definition GPU_CMD_COPY_BUFFER : Z := 9.
Definition GPU_CMD_COPY_TEXTURE : Z := 10.
Definition GPU_CMD_BARRIER : Z := 11.

(** ** The state *)

Section Gpu.
Context {H : Type} `{LibcHeap H}.

Record gpu : Type := Gpu {
  g_heap : H; g_objs : gmap Z gobj;
  next_resource_id : Z; gpu_initialized : bool; current_frame_index : Z;
  g_output : list (string * list Z);
}.

Definition set_heap (h : H) (s : gpu) : gpu :=
  Gpu h (g_objs s) (next_resource_id s) (gpu_initialized s) (current_frame_index s) (g_output s).
Definition set_objs (o : gmap Z gobj) (s : gpu) : gpu :=
  Gpu (g_heap s) o (next_resource_id s) (gpu_initialized s) (current_frame_index s) (g_output s).
Definition set_next_id (n : Z) (s : gpu) : gpu :=
  Gpu (g_heap s) (g_objs s) n (gpu_initialized s) (current_frame_index s) (g_output s).
Definition set_initialized (b : bool) (s : gpu) : gpu :=
  Gpu (g_heap s) (g_objs s) (next_resource_id s) b (current_frame_index s) (g_output s).
Definition set_frame (n : Z) (s : gpu) : gpu :=
  Gpu (g_heap s) (g_objs s) (next_resource_id s) (gpu_initialized s) n (g_output s).

Definition printf (format : string) (args : list Z) : prog gpu unit :=
  modify (fun s => Gpu (g_heap s) (g_objs s) (next_resource_id s) (gpu_initialized s) (current_frame_index s)
                     (g_output s ++ [(format, args)])).

Definition on_heap {A} (p : prog H A) : prog gpu A :=
  fun s => match p (g_heap s) with
           | Ok (a, h) => Ok (a, set_heap h s)
           | Fault => Fault
           | Spin => Spin
           end.

Definition get_obj (a : Z) : prog gpu gobj := getf (fun s => g_objs s !! a).
Definition put_obj (a : Z) (o : gobj) : prog gpu unit := modify (fun s => set_objs (<[a := o]> (g_objs s)) s).

Definition malloc (n : Z) : prog gpu Z :=
  let* p := on_heap (malloc_op n) in
  (if negb (p =? 0) then put_obj p (O_raw n) else ret tt) ;;
  ret p.

Definition free (p : Z) : prog gpu unit :=
  if p =? 0 then ret tt
  else
    get_obj p ;;
    on_heap (free_op p) ;;
    modify (fun s => set_objs (delete p (g_objs s)) s).

(** The first writes to a block of [malloc]. *)
Definition init_obj (p size : Z) (o : gobj) : prog gpu unit :=
  let* b := get_obj p in
  match b with
  | O_raw n => if size <=? n then put_obj p o else fault
  | _ => fault
  end.

(** [memset(p, 0, n)] and [memcpy(p, src, n)] that fill a new block. *)
Definition clear_block (p n : Z) : prog gpu unit := init_obj p n (O_bytes (replicate (Z.to_nat n) 0)).
Definition copy_block (p src n : Z) : prog gpu unit :=
  let* o := get_obj src in
  match o with
  | O_bytes l => if n <=? Z.of_nat (List.length l) then init_obj p n (O_bytes (take (Z.to_nat n) l)) else fault
  | _ => fault
  end.

Definition get_buffer (a : Z) : prog gpu gpu_buffer :=
  let* o := get_obj a in match o with O_buffer b => ret b | _ => fault end.
Definition get_texture (a : Z) : prog gpu gpu_texture :=
  let* o := get_obj a in match o with O_texture t => ret t | _ => fault end.
Definition get_pipeline (a : Z) : prog gpu gpu_pipeline :=
  let* o := get_obj a in match o with O_pipeline p => ret p | _ => fault end.
Definition get_sampler (a : Z) : prog gpu gpu_sampler :=
  let* o := get_obj a in match o with O_sampler s => ret s | _ => fault end.
Definition get_fence (a : Z) : prog gpu gpu_fence :=
  let* o := get_obj a in match o with O_fence f => ret f | _ => fault end.
Definition get_commands (a : Z) : prog gpu gpu_command_buffer :=
  let* o := get_obj a in match o with O_commands c => ret c | _ => fault end.

(** [next_resource_id++] *)
Definition new_id : prog gpu Z :=
  let* n := gets next_resource_id in
  modify (set_next_id (u32 (n + 1))) ;;
  ret n.

(** ** Initialisation *)

Definition gpu_init (desc : option gpu_init_desc_t) : prog gpu Z :=
  let* i := gets gpu_initialized in
  if i then ret (-1)
  else
    printf "GPU: Initializing software renderer" [] ;;
    modify (set_initialized true) ;;
    modify (set_frame 0) ;;
    ret 0.

Definition gpu_shutdown : prog gpu unit :=
  let* i := gets gpu_initialized in
  if negb i then ret tt
  else
    printf "GPU: Shutting down" [] ;;
    modify (set_initialized false).

Definition gpu_get_frame_index : prog gpu Z := gets current_frame_index.

(** ** Buffers *)

Definition gpu_create_buffer (desc : option gpu_buffer_desc_t) : prog gpu Z :=
  let* initialized := gets gpu_initialized in
  match desc with
  | None => ret 0
  | Some desc =>
      if negb initialized then ret 0
      else
        let* buffer := malloc sizeof_gpu_buffer in
        if buffer =? 0 then ret 0
        else
          let* id := new_id in
          init_obj buffer sizeof_gpu_buffer (O_buffer (Buffer id (bd_size desc) (bd_usage desc) 0 false)) ;;
          let* data := malloc (bd_size desc) in
          put_obj buffer (O_buffer (Buffer id (bd_size desc) (bd_usage desc) data false)) ;;
          if data =? 0 then free buffer ;; ret 0
          else
            (if negb (bd_initial_data desc =? 0) then copy_block data (bd_initial_data desc) (bd_size desc)
             else clear_block data (bd_size desc)) ;;
            let* b := get_buffer buffer in
            printf "GPU: Created buffer %u (size=%zu, usage=0x%x)" [b_id b; b_size b; b_usage b] ;;
            ret buffer
  end.

Definition gpu_destroy_buffer (buffer : Z) : prog gpu unit :=
  if buffer =? 0 then ret tt
  else
    let* b := get_buffer buffer in
    printf "GPU: Destroying buffer %u" [b_id b] ;;
    (if negb (b_data b =? 0) then free (b_data b) else ret tt) ;;
    free buffer.

Definition b_with_mapped (m : bool) (b : gpu_buffer) : gpu_buffer := Buffer (b_id b) (b_size b) (b_usage b) (b_data b) m.

Definition gpu_map_buffer (buffer : Z) : prog gpu Z :=
  if buffer =? 0 then ret 0
  else
    let* b := get_buffer buffer in
    if b_mapped b then ret 0
    else
      put_obj buffer (O_buffer (b_with_mapped true b)) ;;
      ret (b_data b).

Definition gpu_unmap_buffer (buffer : Z) : prog gpu unit :=
  if buffer =? 0 then ret tt
  else
    let* b := get_buffer buffer in
    put_obj buffer (O_buffer (b_with_mapped false b)).

(** ** Textures *)

Definition pixel_size (f : gpu_format_t) : Z :=
  match f with
  | GPU_FORMAT_R8_UNORM => 1
  | GPU_FORMAT_R8G8_UNORM => 2
  | GPU_FORMAT_R8G8B8A8_UNORM | GPU_FORMAT_B8G8R8A8_UNORM => 4
  | GPU_FORMAT_R32_SFLOAT => 4
  | GPU_FORMAT_R32G32_SFLOAT => 8
  | GPU_FORMAT_R32G32B32A32_SFLOAT => 16
  | GPU_FORMAT_D32_SFLOAT => 4
  | GPU_FORMAT_other _ => 4
  end.

Definition format_number (f : gpu_format_t) : Z :=
  match f with
  | GPU_FORMAT_R8_UNORM => 0 | GPU_FORMAT_R8G8_UNORM => 1 | GPU_FORMAT_R8G8B8A8_UNORM => 2 | GPU_FORMAT_B8G8R8A8_UNORM => 3
  | GPU_FORMAT_R32_SFLOAT => 4 | GPU_FORMAT_R32G32_SFLOAT => 5 | GPU_FORMAT_R32G32B32A32_SFLOAT => 6 | GPU_FORMAT_D32_SFLOAT => 7
  | GPU_FORMAT_other number => number
  end.

(** The product of the three dimensions is a 32-bit one. *)
Definition texture_size (desc : gpu_texture_desc_t) : prog gpu Z :=
  let total_size := u64 (u32 (u32 (td_width desc * td_height desc) * td_depth desc) * pixel_size (td_format desc)) in
  if 1 <? td_mip_levels desc then
    loop (fun '(i, mip_size, total_size) =>
      if i <? td_mip_levels desc then
        let mip_size := mip_size / 2 in
        ret (Next (i + 1, mip_size, u64 (total_size + mip_size)))
      else ret (Done total_size)) (1, total_size, total_size)
  else ret total_size.

Definition gpu_create_texture (desc : option gpu_texture_desc_t) : prog gpu Z :=
  let* initialized := gets gpu_initialized in
  match desc with
  | None => ret 0
  | Some desc =>
      if negb initialized then ret 0
      else
        let* texture := malloc sizeof_gpu_texture in
        if texture =? 0 then ret 0
        else
          let* id := new_id in
          let object data := O_texture (Texture id (td_width desc) (td_height desc) (td_depth desc) (td_mip_levels desc)
                                          (td_format desc) (td_usage desc) data false) in
          init_obj texture sizeof_gpu_texture (object 0) ;;
          let* total_size := texture_size desc in
          let* data := malloc total_size in
          put_obj texture (object data) ;;
          if data =? 0 then free texture ;; ret 0
          else
            (if negb (td_initial_data desc =? 0) then copy_block data (td_initial_data desc) total_size
             else clear_block data total_size) ;;
            let* t := get_texture texture in
            printf "GPU: Created texture %u (%ux%ux%u, format=%d, size=%zu)"
              [t_id t; t_width t; t_height t; t_depth t; format_number (t_format t); total_size] ;;
            ret texture
  end.

Definition gpu_destroy_texture (texture : Z) : prog gpu unit :=
  if texture =? 0 then ret tt
  else
    let* t := get_texture texture in
    printf "GPU: Destroying texture %u" [t_id t] ;;
    (if negb (t_data t =? 0) then free (t_data t) else ret tt) ;;
    free texture.

Definition t_with_mapped (m : bool) (t : gpu_texture) : gpu_texture :=
  Texture (t_id t) (t_width t) (t_height t) (t_depth t) (t_mip_levels t) (t_format t) (t_usage t) (t_data t) m.

(** The shift of a 32-bit number by 32 or more is undefined. *)
Definition mip_side (side i : Z) : prog gpu Z := if i <? 32 then ret (Z.shiftr side i) else fault.

Definition mip_offset (t : gpu_texture) (level : Z) : prog gpu Z :=
  loop (fun '(i, offset) =>
    if i <? level then
      let* mip_width := mip_side (t_width t) i in
      let* mip_height := mip_side (t_height t) i in
      ret (Next (i + 1, u64 (offset + u32 (mip_width * mip_height) * 4)))
    else ret (Done offset)) (0, 0).

Definition gpu_map_texture (texture level array_slice : Z) : prog gpu Z :=
  if texture =? 0 then ret 0
  else
    let* t := get_texture texture in
    if t_mapped t || (t_mip_levels t <=? level) then ret 0
    else
      put_obj texture (O_texture (t_with_mapped true t)) ;;
      let* offset := mip_offset t level in
      ret (u64 (t_data t + offset)).

Definition gpu_unmap_texture (texture level array_slice : Z) : prog gpu unit :=
  if texture =? 0 then ret tt
  else
    let* t := get_texture texture in
    put_obj texture (O_texture (t_with_mapped false t)).

(** ** Pipelines and samplers *)

Definition gpu_create_pipeline (desc : option gpu_pipeline_desc_t) : prog gpu Z :=
  let* initialized := gets gpu_initialized in
  match desc with
  | None => ret 0
  | Some desc =>
      if negb initialized then ret 0
      else
        let* pipeline := malloc sizeof_gpu_pipeline in
        if pipeline =? 0 then ret 0
        else
          let* id := new_id in
          init_obj pipeline sizeof_gpu_pipeline (O_pipeline (Pipeline id desc)) ;;
          printf "GPU: Created pipeline %u" [id] ;;
          ret pipeline
  end.

Definition gpu_destroy_pipeline (pipeline : Z) : prog gpu unit :=
  if pipeline =? 0 then ret tt
  else
    let* p := get_pipeline pipeline in
    printf "GPU: Destroying pipeline %u" [p_id p] ;;
    free pipeline.

Definition gpu_create_sampler (desc : option gpu_sampler_desc_t) : prog gpu Z :=
  let* initialized := gets gpu_initialized in
  match desc with
  | None => ret 0
  | Some desc =>
      if negb initialized then ret 0
      else
        let* sampler := malloc sizeof_gpu_sampler in
        if sampler =? 0 then ret 0
        else
          let* id := new_id in
          init_obj sampler sizeof_gpu_sampler (O_sampler (Sampler id desc)) ;;
          printf "GPU: Created sampler %u" [id] ;;
          ret sampler
  end.

Definition gpu_destroy_sampler (sampler : Z) : prog gpu unit :=
  if sampler =? 0 then ret tt
  else
    let* s := get_sampler sampler in
    printf "GPU: Destroying sampler %u" [s_id s] ;;
    free sampler.

(** ** Command buffers *)

Definition gpu_begin_command_buffer : prog gpu Z :=
  let* initialized := gets gpu_initialized in
  if negb initialized then ret 0
  else
    let* cmd_buffer := malloc sizeof_gpu_command_buffer in
    if cmd_buffer =? 0 then ret 0
    else
      let capacity := 1024 in
      init_obj cmd_buffer sizeof_gpu_command_buffer (O_commands (CommandBuffer 0 capacity 0)) ;;
      let* commands := malloc (capacity * 4) in
      put_obj cmd_buffer (O_commands (CommandBuffer commands capacity 0)) ;;
      if commands =? 0 then free cmd_buffer ;; ret 0
      else
        init_obj commands (capacity * 4) (O_words (replicate (Z.to_nat capacity) None)) ;;
        ret cmd_buffer.

Definition gpu_end_command_buffer (cmd_buffer : Z) : prog gpu unit := ret tt.

(** [signal_fence]: whether a fence is asked for, and where its address goes. *)
Definition gpu_submit_command_buffer (cmd_buffer : Z) (signal_fence : bool) : prog gpu (option Z) :=
  if cmd_buffer =? 0 then ret None
  else
    let* c := get_commands cmd_buffer in
    printf "GPU: Executing %zu commands" [c_count c] ;;
    let* fence :=
      (if signal_fence then
         let* fence := malloc sizeof_gpu_fence in
         (if negb (fence =? 0) then
            let* id := new_id in
            init_obj fence sizeof_gpu_fence (O_fence (Fence id false))
          else ret tt) ;;
         ret (Some fence)
       else ret None) in
    free (c_commands c) ;;
    free cmd_buffer ;;
    ret fence.

Definition gpu_wait_fence (fence : Z) : prog gpu unit :=
  if fence =? 0 then ret tt
  else
    let* f := get_fence fence in
    put_obj fence (O_fence (Fence (f_id f) true)).

Definition gpu_destroy_fence (fence : Z) : prog gpu unit :=
  if fence =? 0 then ret tt else free fence.

(** [realloc] of the array of words. *)
Definition realloc_words (p n : Z) : prog gpu Z :=
  let* o := get_obj p in
  match o with
  | O_words l =>
      let* q := on_heap (realloc_op p n) in
      (if negb (q =? 0)
       then modify (fun s => set_objs
              (<[q := O_words (take (Z.to_nat (n / 4)) (l ++ replicate (Z.to_nat (n / 4)) None))]> (delete p (g_objs s))) s)
       else ret tt) ;;
      ret q
  | _ => fault
  end.

(** [commands[i] = v] *)
Definition put_word (commands i v : Z) : prog gpu unit :=
  let* o := get_obj commands in
  match o with
  | O_words l =>
      if (0 <=? i) && (i <? Z.of_nat (List.length l)) then put_obj commands (O_words (<[Z.to_nat i := Some (u32 v)]> l)) else fault
  | _ => fault
  end.

Definition cmd_buffer_push (cmd_buffer command : Z) : prog gpu unit :=
  let* c := get_commands cmd_buffer in
  (if c_capacity c <=? c_count c then
     let capacity := u64 (c_capacity c * 2) in
     put_obj cmd_buffer (O_commands (CommandBuffer (c_commands c) capacity (c_count c))) ;;
     let* commands := realloc_words (c_commands c) (u64 (capacity * 4)) in
     put_obj cmd_buffer (O_commands (CommandBuffer commands capacity (c_count c)))
   else ret tt) ;;
  let* c := get_commands cmd_buffer in
  put_obj cmd_buffer (O_commands (CommandBuffer (c_commands c) (c_capacity c) (u64 (c_count c + 1)))) ;;
  put_word (c_commands c) (c_count c) command.

Definition cmd_buffer_push_ptr (cmd_buffer ptr : Z) : prog gpu unit := cmd_buffer_push cmd_buffer (u32 ptr).

(** *** Recording *)

Definition gpu_cmd_begin_render_pass (cmd_buffer render_target : Z) : prog gpu unit :=
  cmd_buffer_push cmd_buffer GPU_CMD_BEGIN_RENDER_PASS ;;
  cmd_buffer_push_ptr cmd_buffer render_target.

Definition gpu_cmd_end_render_pass (cmd_buffer : Z) : prog gpu unit :=
  cmd_buffer_push cmd_buffer GPU_CMD_END_RENDER_PASS.

Definition gpu_cmd_set_pipeline (cmd_buffer pipeline : Z) : prog gpu unit :=
  cmd_buffer_push cmd_buffer GPU_CMD_SET_PIPELINE ;;
  cmd_buffer_push_ptr cmd_buffer pipeline.

Definition gpu_cmd_set_vertex_buffer (cmd_buffer slot buffer offset : Z) : prog gpu unit :=
  cmd_buffer_push cmd_buffer GPU_CMD_SET_VERTEX_BUFFER ;;
  cmd_buffer_push cmd_buffer slot ;;
  cmd_buffer_push_ptr cmd_buffer buffer ;;
  cmd_buffer_push cmd_buffer (u32 offset).

Definition gpu_cmd_set_index_buffer (cmd_buffer buffer offset : Z) : prog gpu unit :=
  cmd_buffer_push cmd_buffer GPU_CMD_SET_INDEX_BUFFER ;;
  cmd_buffer_push_ptr cmd_buffer buffer ;;
  cmd_buffer_push cmd_buffer (u32 offset).

Definition gpu_cmd_set_viewport (cmd_buffer x y width height min_depth max_depth : Z) : prog gpu unit :=
  cmd_buffer_push cmd_buffer GPU_CMD_SET_VIEWPORT ;;
  cmd_buffer_push cmd_buffer x ;;
  cmd_buffer_push cmd_buffer y ;;
  cmd_buffer_push cmd_buffer width ;;
  cmd_buffer_push cmd_buffer height ;;
  cmd_buffer_push cmd_buffer min_depth ;;
  cmd_buffer_push cmd_buffer max_depth.

Definition gpu_cmd_set_scissor (cmd_buffer x y width height : Z) : prog gpu unit :=
  cmd_buffer_push cmd_buffer GPU_CMD_SET_SCISSOR ;;
  cmd_buffer_push cmd_buffer x ;;
  cmd_buffer_push cmd_buffer y ;;
  cmd_buffer_push cmd_buffer width ;;
  cmd_buffer_push cmd_buffer height.

Definition gpu_cmd_bind_descriptor_set (cmd_buffer set descriptor_set : Z) : prog gpu unit := ret tt.

Definition gpu_cmd_draw (cmd_buffer vertex_count instance_count first_vertex first_instance : Z) : prog gpu unit :=
  cmd_buffer_push cmd_buffer GPU_CMD_DRAW ;;
  cmd_buffer_push cmd_buffer vertex_count ;;
  cmd_buffer_push cmd_buffer instance_count ;;
  cmd_buffer_push cmd_buffer first_vertex ;;
  cmd_buffer_push cmd_buffer first_instance.

Definition gpu_cmd_draw_indexed (cmd_buffer index_count instance_count first_index vertex_offset first_instance : Z) : prog gpu unit :=
  cmd_buffer_push cmd_buffer GPU_CMD_DRAW_INDEXED ;;
  cmd_buffer_push cmd_buffer index_count ;;
  cmd_buffer_push cmd_buffer instance_count ;;
  cmd_buffer_push cmd_buffer first_index ;;
  cmd_buffer_push cmd_buffer (u32 vertex_offset) ;;
  cmd_buffer_push cmd_buffer first_instance.

Definition gpu_cmd_copy_buffer (cmd_buffer src dst src_offset dst_offset size : Z) : prog gpu unit :=
  cmd_buffer_push cmd_buffer GPU_CMD_COPY_BUFFER ;;
  cmd_buffer_push_ptr cmd_buffer src ;;
  cmd_buffer_push_ptr cmd_buffer dst ;;
  cmd_buffer_push cmd_buffer (u32 src_offset) ;;
  cmd_buffer_push cmd_buffer (u32 dst_offset) ;;
  cmd_buffer_push cmd_buffer (u32 size).

Definition gpu_cmd_copy_texture (cmd_buffer src dst src_level dst_level : Z) : prog gpu unit :=
  cmd_buffer_push cmd_buffer GPU_CMD_COPY_TEXTURE ;;
  cmd_buffer_push_ptr cmd_buffer src ;;
  cmd_buffer_push_ptr cmd_buffer dst ;;
  cmd_buffer_push cmd_buffer src_level ;;
  cmd_buffer_push cmd_buffer dst_level.

Definition gpu_cmd_barrier (cmd_buffer : Z) : prog gpu unit :=
  cmd_buffer_push cmd_buffer GPU_CMD_BARRIER.

Definition gpu_present (texture : Z) : prog gpu unit :=
  if texture =? 0 then ret tt
  else
    let* t := get_texture texture in
    printf "GPU: Presenting texture %u" [t_id t] ;;
    modify (fun s => set_frame (u32 (current_frame_index s + 1)) s).
End Gpu.
Arguments gpu : clear implicits.
