(* ===== verification/GpuProofs.v ===== *)
(** * The software GPU: well-formed states

    [wf]: every buffer, texture and command buffer owns a block of its own
    that fits it, and the resources alive have different numbers.  Creation
    and destruction keep that; [GpuRecord] and [GpuCalls] build the theorems
    about recording and about the whole interface on it. *)

From S2P Require Import Prelude Alloc Gpu.

Section Proofs.
Context {H : Type} `{HL : LibcHeapLaws H}.
Implicit Types (s : gpu H).

(** ** Well-formed states *)

(** The block that an object owns. *)
Definition child (o : gobj) : option Z :=
  match o with
  | O_buffer b => Some (b_data b)
  | O_texture t => Some (t_data t)
  | O_commands c => Some (c_commands c)
  | _ => None
  end.

Definition id_of (o : gobj) : option Z :=
  match o with
  | O_buffer b => Some (b_id b)
  | O_texture t => Some (t_id t)
  | O_pipeline p => Some (p_id p)
  | O_sampler x => Some (s_id x)
  | O_fence f => Some (f_id f)
  | _ => None
  end.

(** The bytes of [levels] levels when the first has [n]. *)
Fixpoint levels_size (levels : nat) (n : Z) : Z :=
  match levels with
  | O => 0
  | S l => n + levels_size l (n / 2)
  end.

Definition texture_bytes (t : gpu_texture) : Z :=
  levels_size (Z.to_nat (Z.max 1 (t_mip_levels t))) (t_width t * t_height t * t_depth t * pixel_size (t_format t)).

Definition fits (o o' : gobj) : Prop :=
  match o, o' with
  | O_buffer b, O_bytes l => Z.of_nat (length l) = b_size b
  | O_texture t, O_bytes l => Z.of_nat (length l) = texture_bytes t
  | O_commands c, O_words l =>
      Z.of_nat (length l) = c_capacity c /\ 1024 <= c_capacity c <= Z.max 1024 (2 * c_count c) /\ 0 <= c_count c <= c_capacity c /\
      exists ws, take (Z.to_nat (c_count c)) l = map Some ws
  | _, _ => False
  end.

(** Of a store whose resources have numbers below [n]. *)
Record wf_objs (n : Z) (m : gmap Z gobj) : Prop := {
  wf_child : forall a o p, m !! a = Some o -> child o = Some p -> exists o', m !! p = Some o' /\ fits o o';
  wf_apart : forall a1 o1 a2 o2 p, m !! a1 = Some o1 -> m !! a2 = Some o2 -> child o1 = Some p -> child o2 = Some p -> a1 = a2;
  wf_ids : forall a o i, m !! a = Some o -> id_of o = Some i -> 1 <= i < n;
  wf_distinct : forall a1 o1 a2 o2 i, m !! a1 = Some o1 -> m !! a2 = Some o2 -> id_of o1 = Some i -> id_of o2 = Some i -> a1 = a2;
}.

(** The addresses of the store are in use, and positive. *)
Definition held (h : H) (m : gmap Z gobj) : Prop :=
  (exists L, used h L /\ dom m ⊆ L) /\ forall a, is_Some (m !! a) -> 0 < a.

Record wf s : Prop := {
  wf_held : held (g_heap s) (g_objs s);
  wf_next : 1 <= next_resource_id s;
  wf_store : wf_objs (next_resource_id s) (g_objs s);
}.

(** *** Changes of the store *)

Lemma fits_kinds o o' : fits o o' -> child o' = None /\ id_of o' = None /\ exists p, child o = Some p.
Proof using Type. destruct o, o'; cbn; try done; intros _; eauto. Qed.

Definition unowned (m : gmap Z gobj) (p : Z) : Prop := forall b o, m !! b = Some o -> child o <> Some p.

Lemma wf_insert m n n' a o :
  wf_objs n m -> m !! a = None -> n <= n' -> (forall i, id_of o = Some i -> 1 <= i /\ n <= i < n') ->
  (forall p, child o = Some p -> unowned m p /\ exists o', m !! p = Some o' /\ fits o o') -> wf_objs n' (<[a := o]> m).
Proof using Type.
  intros [W2 W3 W4 W5] Ha Hn Hi Hc. split.
  - intros b o1 p Hb Hp.
    assert (exists o', m !! p = Some o' /\ fits o1 o') as (o' & H1 & H2).
    { rewrite lookup_insert_Some in Hb. destruct Hb as [[<- <-]|[Hne Hb]]; [by apply Hc|by apply (W2 b)]. }
    exists o'. split; [|done]. rewrite lookup_insert_ne; [done|]. intros ->. by rewrite Ha in H1.
  - intros a1 o1 a2 o2 p H1 H2 C1 C2. rewrite lookup_insert_Some in H1, H2.
    destruct H1 as [[<- <-]|[_ H1]], H2 as [[<- <-]|[_ H2]]; [done| | |by apply (W3 a1 o1 a2 o2 p)].
    + by destruct (Hc p C1) as [Hu _]; destruct (Hu a2 o2 H2).
    + by destruct (Hc p C2) as [Hu _]; destruct (Hu a1 o1 H1).
  - intros b o1 i Hb Hi1. rewrite lookup_insert_Some in Hb. destruct Hb as [[<- <-]|[Hne Hb]].
    + specialize (Hi i Hi1). lia.
    + specialize (W4 b o1 i Hb Hi1). lia.
  - intros a1 o1 a2 o2 i H1 H2 I1 I2. rewrite lookup_insert_Some in H1, H2.
    destruct H1 as [[<- <-]|[N1 H1]], H2 as [[<- <-]|[N2 H2]]; [done| | |by apply (W5 a1 o1 a2 o2 i)].
    + specialize (Hi i I1). specialize (W4 a2 o2 _ H2 I2). lia.
    + specialize (Hi i I2). specialize (W4 a1 o1 _ H1 I1). lia.
Qed.

Lemma wf_delete m n a : wf_objs n m -> unowned m a -> wf_objs n (delete a m).
Proof using Type.
  intros [W2 W3 W4 W5] Hu. split.
  - intros b o p [Hne Hb]%lookup_delete_Some Hp. destruct (W2 b o p Hb Hp) as (o' & H1 & H2). exists o'. split; [|done].
    rewrite lookup_delete_ne; [done|]. intros ->. by destruct (Hu b o Hb).
  - intros a1 o1 a2 o2 p [_ H1]%lookup_delete_Some [_ H2]%lookup_delete_Some. by apply W3.
  - intros b o i [_ Hb]%lookup_delete_Some. by apply (W4 b).
  - intros a1 o1 a2 o2 i [_ H1]%lookup_delete_Some [_ H2]%lookup_delete_Some. by apply W5.
Qed.

(** An object changes in a way that its owner and its block do not see. *)
Lemma wf_update m n a o o2 :
  wf_objs n m -> m !! a = Some o -> child o2 = child o -> id_of o2 = id_of o ->
  (forall x, fits o x -> fits o2 x) -> (forall x, fits x o -> fits x o2) -> wf_objs n (<[a := o2]> m).
Proof using Type.
  intros [W2 W3 W4 W5] Ha Hc Hi F1 F2.
  assert (forall b x, <[a := o2]> m !! b = Some x -> exists y, m !! b = Some y /\ child x = child y /\ id_of x = id_of y /\ (forall z, fits y z -> fits x z)) as Hl.
  { intros b x Hb. rewrite lookup_insert_Some in Hb. destruct Hb as [[<- <-]|[_ Hb]]; eauto. }
  split.
  - intros b x p Hb Hp. destruct (Hl b x Hb) as (y & Hy & Ec & _ & F). rewrite Ec in Hp. destruct (W2 b y p Hy Hp) as (o' & H1 & H2).
    destruct (decide (p = a)) as [->|Hne].
    + exists o2. rewrite lookup_insert_eq. split; [done|]. apply F, F2. rewrite Ha in H1. by injection H1 as ->.
    + exists o'. rewrite lookup_insert_ne by done. split; [done|by apply F].
  - intros a1 o1 a2 o2' p H1 H2 C1 C2. destruct (Hl _ _ H1) as (y1 & Y1 & E1 & _), (Hl _ _ H2) as (y2 & Y2 & E2 & _).
    rewrite E1 in C1. rewrite E2 in C2. by apply (W3 a1 y1 a2 y2 p).
  - intros b x i Hb Hx. destruct (Hl b x Hb) as (y & Hy & _ & E & _). rewrite E in Hx. by apply (W4 b y).
  - intros a1 o1 a2 o2' i H1 H2 I1 I2. destruct (Hl _ _ H1) as (y1 & Y1 & _ & E1 & _), (Hl _ _ H2) as (y2 & Y2 & _ & E2 & _).
    rewrite E1 in I1. rewrite E2 in I2. by apply (W5 a1 y1 a2 y2 i).
Qed.

(** No one owns a resource, nor an address without an object. *)
Lemma resource_unowned m n a o : wf_objs n m -> m !! a = Some o -> is_Some (child o) \/ is_Some (id_of o) -> unowned m a.
Proof using Type.
  intros W Ha Hk b o1 Hb Hc. destruct (wf_child _ _ W b o1 a Hb Hc) as (o' & H1 & H2). rewrite Ha in H1. injection H1 as <-.
  destruct (fits_kinds _ _ H2) as (E1 & E2 & _). rewrite E1, E2 in Hk. destruct Hk as [[? ?]|[? ?]]; done.
Qed.

Lemma absent_unowned m n a : wf_objs n m -> m !! a = None -> unowned m a.
Proof using Type. intros W Ha b o Hb Hc. destruct (wf_child _ _ W b o a Hb Hc) as (o' & H1 & _). by rewrite Ha in H1. Qed.

(** A resource with its block is taken out. *)
Lemma wf_delete_both m n a o p : wf_objs n m -> m !! a = Some o -> child o = Some p -> wf_objs n (delete a (delete p m)).
Proof using Type.
  intros W Ha Hc. rewrite delete_delete. apply wf_delete.
  - apply (wf_delete m n a W). apply (resource_unowned m n a o W Ha). left. by exists p.
  - intros b o1 [Hne Hb]%lookup_delete_Some Hb1. apply Hne. by apply (wf_apart _ _ W a o b o1 p).
Qed.

(** ** Primitive operations *)

Section Steps.
Context (h : H) (m : gmap Z gobj) (n : Z) (i : bool) (f : Z) (out : list (String.string * list Z)).

Lemma held_update a o : held h m -> is_Some (m !! a) -> held h (<[a := o]> m).
Proof using Type.
  intros [(L & Hu & Hd) Hp] Ha. split.
  - exists L. split; [done|]. rewrite dom_insert. apply elem_of_dom in Ha. set_solver.
  - intros b. destruct (decide (b = a)) as [->|Hne]; [by intros _; apply Hp|]. rewrite lookup_insert_ne by done. apply Hp.
Qed.

Lemma wp_malloc k (Q : Z -> gpu H -> Prop) :
  held h m -> 0 < k ->
  (forall p h', 0 < p -> m !! p = None -> held h' (<[p := O_raw k]> m) -> Q p (Gpu h' (<[p := O_raw k]> m) n i f out)) ->
  wp (malloc k) Q (Gpu h m n i f out).
Proof using Type.
  intros [(L & Hu & Hd) Hp] Hk HQ. unfold malloc. pose proof (malloc_law h L k Hu Hk) as Hm.
  unfold wp, bind, on_heap in *. cbn [g_heap] in *. destruct (malloc_op k h) as [[p h']| |]; [|done|done]. destruct Hm as (H1 & H2 & H3).
  rewrite (proj2 (Z.eqb_neq p 0)) by lia. cbn. apply HQ; [done| |].
  - apply not_elem_of_dom. set_solver.
  - split.
    + exists ({[p]} ∪ L). split; [done|]. rewrite dom_insert. set_solver.
    + intros b. destruct (decide (b = p)) as [->|Hne]; [done|]. rewrite lookup_insert_ne by done. apply Hp.
Qed.

Lemma wp_free p (Q : unit -> gpu H -> Prop) :
  held h m -> is_Some (m !! p) -> (forall h', held h' (delete p m) -> Q tt (Gpu h' (delete p m) n i f out)) ->
  wp (free p) Q (Gpu h m n i f out).
Proof using Type.
  intros [(L & Hu & Hd) Hp] Hs HQ. unfold free. pose proof (Hp p Hs). rewrite (proj2 (Z.eqb_neq p 0)) by lia.
  apply elem_of_dom in Hs as Hin. destruct Hs as [o Ho].
  pose proof (free_law h L p Hu ltac:(set_solver)) as Hf.
  unfold wp, bind, get_obj, getf, on_heap in *. cbn [g_objs g_heap]. rewrite Ho. cbn. destruct (free_op p h) as [[[] h']| |]; [|done|done].
  cbn. apply HQ. split.
  - exists (L ∖ {[p]}). split; [done|]. rewrite dom_delete. set_solver.
  - intros b [x [_ Hb]%lookup_delete_Some]. apply Hp. by exists x.
Qed.

Lemma wp_get_gobj a o (Q : gobj -> gpu H -> Prop) : m !! a = Some o -> Q o (Gpu h m n i f out) -> wp (get_obj a) Q (Gpu h m n i f out).
Proof using Type. intros Ha HQ. by apply wp_getf with o. Qed.

Lemma wp_put_obj a o (Q : unit -> gpu H -> Prop) : Q tt (Gpu h (<[a := o]> m) n i f out) -> wp (put_obj a o) Q (Gpu h m n i f out).
Proof using Type. done. Qed.

Lemma wp_init_obj a size k o (Q : unit -> gpu H -> Prop) :
  m !! a = Some (O_raw k) -> size <= k -> Q tt (Gpu h (<[a := o]> m) n i f out) -> wp (init_obj a size o) Q (Gpu h m n i f out).
Proof using Type.
  intros Ha Hk HQ. unfold init_obj. apply wp_bind. apply (wp_get_gobj a _ _ Ha). rewrite (proj2 (Z.leb_le size k)) by done. by apply wp_put_obj.
Qed.

Lemma wp_new_id (Q : Z -> gpu H -> Prop) : 0 <= n < 2 ^ 32 - 1 -> Q n (Gpu h m (n + 1) i f out) -> wp new_id Q (Gpu h m n i f out).
Proof using Type. intros Hn HQ. unfold new_id, wp, bind, gets, modify, ret. cbn. unfold set_next_id. cbn. by rewrite wrap_small by lia. Qed.

Lemma wp_printf fmt args (Q : unit -> gpu H -> Prop) : Q tt (Gpu h m n i f (out ++ [(fmt, args)])) -> wp (printf fmt args) Q (Gpu h m n i f out).
Proof using Type. done. Qed.

Lemma wp_realloc_words p l k (Q : Z -> gpu H -> Prop) :
  held h m -> m !! p = Some (O_words l) -> 0 < k ->
  (let l' := take (Z.to_nat (k / 4)) (l ++ replicate (Z.to_nat (k / 4)) None) in
   forall q h', q = p \/ m !! q = None -> held h' (<[q := O_words l']> (delete p m)) ->
     Q q (Gpu h' (<[q := O_words l']> (delete p m)) n i f out)) ->
  wp (realloc_words p k) Q (Gpu h m n i f out).
Proof using Type.
  intros [(L & Hu & Hd) Hp] Ha Hk HQ. unfold realloc_words. apply wp_bind. apply (wp_get_gobj p _ _ Ha).
  assert (p ∈ L) as HpL by (apply Hd, elem_of_dom; eauto).
  pose proof (realloc_law h L p k Hu HpL Hk) as Hr.
  unfold wp, bind, on_heap in *. cbn [g_heap] in *. destruct (realloc_op p k h) as [[q h']| |]; [|done|done].
  destruct Hr as (Hq & Hn & Hu'). rewrite (proj2 (Z.eqb_neq q 0)) by lia. cbn [negb]. apply HQ.
  - destruct (decide (q = p)) as [->|Hne]; [by left|right]. apply not_elem_of_dom. set_solver.
  - split.
    + exists ({[q]} ∪ L ∖ {[p]}). split; [done|]. rewrite dom_insert, dom_delete. set_solver.
    + intros b. destruct (decide (b = q)) as [->|Hne]; [done|]. rewrite lookup_insert_ne by done.
      intros [y [_ Hy]%lookup_delete_Some]. apply Hp. by exists y.
Qed.

Lemma wp_put_word a j v l (Q : unit -> gpu H -> Prop) :
  m !! a = Some (O_words l) -> 0 <= j < Z.of_nat (length l) ->
  Q tt (Gpu h (<[a := O_words (<[Z.to_nat j := Some (u32 v)]> l)]> m) n i f out) -> wp (put_word a j v) Q (Gpu h m n i f out).
Proof using Type.
  intros Ha Hj HQ. unfold put_word. apply wp_bind. apply (wp_get_gobj a _ _ Ha).
  rewrite (proj2 (Z.leb_le 0 j)), (proj2 (Z.ltb_lt j _)) by lia. by apply wp_put_obj.
Qed.

Lemma wp_get_commands a c (Q : gpu_command_buffer -> gpu H -> Prop) :
  m !! a = Some (O_commands c) -> Q c (Gpu h m n i f out) -> wp (get_commands a) Q (Gpu h m n i f out).
Proof using Type. intros Ha HQ. unfold get_commands. apply wp_bind. by apply (wp_get_gobj a _ _ Ha). Qed.
End Steps.

(** *** Larger steps *)

Lemma wp_bind2 {S A B C} (p : prog S A) (q : prog S B) (k : B -> prog S C) Q t :
  wp p (fun _ => wp q (fun b => wp (k b) Q)) t -> wp (p ;; let* b := q in k b) Q t.
Proof using Type. intros Hw. apply wp_bind. eapply wp_mono; [exact Hw|]. intros a t'. apply wp_bind. Qed.

Section Larger.
Context (h : H) (m : gmap Z gobj) (n : Z) (i : bool) (f : Z) (out : list (String.string * list Z)).

Lemma child_ne o a p : wf_objs n m -> m !! a = Some o -> child o = Some p -> p <> a.
Proof using Type.
  intros W Ha Hc ->. destruct (wf_child _ _ W a o a Ha Hc) as (o' & Hp & F). rewrite Ha in Hp. injection Hp as <-.
  destruct (fits_kinds _ _ F) as (Hn & _). by rewrite Hc in Hn.
Qed.

(** An object and the block that it owns are given back. *)
Lemma wp_release a o p (Q : unit -> gpu H -> Prop) :
  held h m -> wf_objs n m -> m !! a = Some o -> child o = Some p ->
  (forall h', held h' (delete a (delete p m)) -> wf_objs n (delete a (delete p m)) -> Q tt (Gpu h' (delete a (delete p m)) n i f out)) ->
  wp (free p) (fun _ => wp (free a) Q) (Gpu h m n i f out).
Proof using HL.
  intros Hh W Ha Hc HQ. pose proof (child_ne o a p W Ha Hc) as Hne. destruct (wf_child _ _ W a o p Ha Hc) as (o' & Hp & _).
  apply wp_free; [done|eauto|]. intros h1 Hh1.
  apply wp_free; [done|rewrite lookup_delete_ne by done; eauto|]. intros h2 Hh2.
  apply HQ; [done|]. by apply (wf_delete_both _ _ _ o).
Qed.

(** An object that owns nothing. *)
Lemma wp_release_one a o (Q : unit -> gpu H -> Prop) :
  held h m -> wf_objs n m -> m !! a = Some o -> is_Some (id_of o) ->
  (forall h', held h' (delete a m) -> wf_objs n (delete a m) -> Q tt (Gpu h' (delete a m) n i f out)) ->
  wp (free a) Q (Gpu h m n i f out).
Proof using HL.
  intros Hh W Ha Hi HQ. apply wp_free; [done|eauto|]. intros h1 Hh1. apply HQ; [done|]. apply wf_delete; [done|].
  apply (resource_unowned m n a o W Ha). by right.
Qed.

End Larger.

(** The writes that make an object with its block. *)
Lemma pair_writes (m : gmap Z gobj) a p x0 x1 x y0 y : p <> a ->
  <[p := y]> (<[a := x]> (<[p := y0]> (<[a := x1]> (<[a := x0]> m)))) = <[a := x]> (<[p := y]> m).
Proof using Type.
  intros Hne. apply map_eq. intros j. destruct (decide (j = a)) as [->|]; [by simplify_map_eq|].
  destruct (decide (j = p)) as [->|]; by simplify_map_eq.
Qed.

(** A new object with its block. *)
Lemma wf_insert_pair m n n' a p o o' :
  wf_objs n m -> m !! a = None -> m !! p = None -> p <> a -> child o = Some p -> child o' = None -> id_of o' = None -> fits o o' ->
  n <= n' -> (forall i, id_of o = Some i -> 1 <= i /\ n <= i < n') -> wf_objs n' (<[a := o]> (<[p := o']> m)).
Proof using Type.
  intros W Ha Hp Hne Hc Hc' Hi' F Hn Hi. apply wf_insert with n; [|by rewrite lookup_insert_ne|done|done|].
  - apply wf_insert with n; [done|done|lia|by rewrite Hi'|by rewrite Hc'].
  - intros q Hq. rewrite Hc in Hq. injection Hq as <-. split; [|exists o'; by rewrite lookup_insert_eq].
    intros b x. rewrite lookup_insert_Some. intros [[<- <-]|[_ Hb]]; [by rewrite Hc'|]. by apply (absent_unowned m n p W Hp b x).
Qed.
End Proofs.
