(* ===== verification/GpuRecord.v ===== *)
(** * The software GPU: command buffers

    What is recorded into a command buffer is decoded again, up to the
    cutting of pointers and offsets to 32 bits ([record_decode]), however
    often the array of words has to grow. *)

From S2P Require Import Prelude Alloc Gpu GpuProofs.

Section Record.
Context {H : Type} `{HL : LibcHeapLaws H}.

(** ** One word *)

(** The words of the command buffer at [a]. *)
Definition recorded (m : gmap Z gobj) (a : Z) (l : list Z) : Prop :=
  exists c x, m !! a = Some (O_commands c) /\ m !! c_commands c = Some (O_words x) /\
    c_count c = Z.of_nat (length l) /\ take (length l) x = map Some l.

(** The store without the command buffer. *)
Definition rest (a : Z) (m : gmap Z gobj) : gmap Z gobj :=
  match m !! a with
  | Some (O_commands c) => delete a (delete (c_commands c) m)
  | _ => m
  end.

Record recording (n : Z) (h : H) (m : gmap Z gobj) (a : Z) (l : list Z) (r : gmap Z gobj) : Prop := {
  rec_held : held h m;
  rec_wf : wf_objs n m;
  rec_words : recorded m a l;
  rec_rest : rest a m = r;
}.

(** A command buffer that is alive has its words. *)
Lemma wf_recorded n m a c : wf_objs n m -> m !! a = Some (O_commands c) -> exists l, recorded m a l /\ c_count c = Z.of_nat (length l).
Proof using Type.
  intros W Ha. destruct (wf_child _ _ W a _ _ Ha eq_refl) as (y & Hy & F). destruct y as [| | | | | | | |x]; try done.
  destruct F as (F1 & F2 & F3 & l & Hl). assert (length l = Z.to_nat (c_count c)) as E.
  { rewrite <- (length_map Some l), <- Hl, length_take. lia. }
  exists l. split; [|lia]. exists c, x. split_and!; [done|done|lia|by rewrite E].
Qed.

Lemma take_push {A} (k : nat) (x : list (option A)) (l : list A) v :
  k = length l -> (k < length x)%nat -> take k x = map Some l -> take (length (l ++ [v])) (<[k := Some v]> x) = map Some (l ++ [v]).
Proof using Type.
  intros -> Hk E. rewrite length_app. cbn [length]. rewrite Nat.add_1_r.
  rewrite (take_S_r _ _ (Some v)) by (by apply list_lookup_insert_eq).
  rewrite take_insert_ge by lia. by rewrite E, map_app.
Qed.

Lemma take_grown {A} (k c : nat) (x : list (option A)) :
  (k <= length x <= c)%nat -> take k (take c (x ++ replicate c None)) = take k x.
Proof using Type. intros Hk. rewrite take_take, Nat.min_l by lia. by rewrite take_app_le by lia. Qed.

Section Push.
Context (n : Z) (i : bool) (f : Z) (out : list (String.string * list Z)).


(** There is room for one more word. *)
Lemma wp_room h m a l r c (Q : unit -> gpu H -> Prop) :
  recording n h m a l r -> Z.of_nat (length l) < 2 ^ 60 -> m !! a = Some (O_commands c) ->
  (forall h' m' c', recording n h' m' a l r -> m' !! a = Some (O_commands c') -> c_count c' < c_capacity c' -> Q tt (Gpu h' m' n i f out)) ->
  wp (if c_capacity c <=? c_count c then
        let capacity := u64 (c_capacity c * 2) in
        put_obj a (O_commands (CommandBuffer (c_commands c) capacity (c_count c))) ;;
        let* commands := realloc_words (c_commands c) (u64 (capacity * 4)) in
        put_obj a (O_commands (CommandBuffer commands capacity (c_count c)))
      else ret tt) Q (Gpu h m n i f out).
Proof using HL.
  intros R Hb Ha HQ. destruct (Z.leb_spec (c_capacity c) (c_count c)) as [Hf|Hf]; [|by eapply HQ].
  destruct R as [Hh W (c0 & x & Ha' & Hx & Hc & Hl) Hr]. rewrite Ha in Ha'. injection Ha' as <-.
  destruct (wf_child _ _ W a _ _ Ha eq_refl) as (o & Ho & F). rewrite Hx in Ho. injection Ho as <-. destruct F as (F1 & F2 & F3 & _).
  assert (c_commands c <> a) as Hne by (intros E; rewrite E, Ha in Hx; done).
  unfold rest in Hr. rewrite Ha in Hr. cbn zeta. rewrite (wrap_small 64 (c_capacity c * 2)), (wrap_small 64) by lia.
  apply wp_bind, wp_put_obj, wp_bind.
  eapply wp_realloc_words; [apply (held_update h m a _ Hh); eauto|by rewrite lookup_insert_ne|lia|].
  cbn zeta. replace (c_capacity c * 2 * 4 / 4) with (c_capacity c * 2) by (rewrite Z.div_mul; lia).
  set (x' := take _ _). intros q h' Hq Hh'. apply wp_put_obj.
  assert (length x' = Z.to_nat (c_capacity c * 2)) as Lx by (unfold x'; rewrite length_take, length_app, length_replicate; lia).
  assert (q <> a) as Hqa by (destruct Hq as [->|Hq]; [done|intros E; by rewrite E, lookup_insert_eq in Hq]).
  set (m0 := delete a (delete (c_commands c) m)) in *.
  assert (m0 !! q = None) as Hq0.
  { unfold m0. rewrite lookup_delete_ne by done. destruct Hq as [->|Hq]; [by rewrite lookup_delete_eq|].
    rewrite lookup_insert_ne in Hq by done. rewrite lookup_delete_None. by right. }
  set (c' := CommandBuffer q _ _). set (m' := <[a := O_commands c']> _).
  assert (m' = <[a := O_commands c']> (<[q := O_words x']> m0)) as Em.
  { unfold m', m0. apply map_eq. intros j. destruct (decide (j = a)) as [->|]; [by simplify_map_eq|].
    destruct (decide (j = q)) as [->|]; [by simplify_map_eq|]. destruct (decide (j = c_commands c)) as [->|]; by simplify_map_eq. }
  assert (wf_objs n m0) as W0 by (by apply (wf_delete_both _ _ _ _ _ W Ha)).
  assert (m0 !! a = None) as Ha0 by apply lookup_delete_eq.
  apply (HQ h' m' c'); [|by unfold m'; rewrite lookup_insert_eq|cbn; lia]. split.
  - eapply held_update; [done|]. rewrite lookup_insert_ne, lookup_delete_ne, lookup_insert_eq by done. eauto.
  - rewrite Em. apply wf_insert_pair with n; [done|done|done|done|done|done|done| |lia|done].
    cbn. split_and!; [lia|lia|lia|lia|lia|]. exists l. rewrite Hc, Nat2Z.id. unfold x'. rewrite take_grown; [done|lia].
  - exists c', x'. rewrite Em, lookup_insert_eq. cbn [c_commands c_count c'].
    rewrite lookup_insert_ne, lookup_insert_eq by done. split_and!; [done|done|done|].
    unfold x'. rewrite take_grown; [done|lia].
  - unfold rest. rewrite Em, lookup_insert_eq. cbn [c_commands c']. rewrite delete_insert_ne, delete_insert_eq by done.
    rewrite delete_insert_eq. by rewrite (delete_id m0 q), delete_id by done.
Qed.

Lemma wp_push h m a l r w (Q : unit -> gpu H -> Prop) :
  recording n h m a l r -> Z.of_nat (length l) < 2 ^ 60 ->
  (forall h' m', recording n h' m' a (l ++ [u32 w]) r -> Q tt (Gpu h' m' n i f out)) ->
  wp (cmd_buffer_push a w) Q (Gpu h m n i f out).
Proof using HL.
  intros R Hb HQ. destruct (rec_words _ _ _ _ _ _ R) as (c & _ & Ha & _).
  unfold cmd_buffer_push. apply wp_bind. apply (wp_get_commands _ _ _ _ _ _ a c _ Ha). apply wp_bind.
  apply (wp_room h m a l r c _ R Hb Ha). clear h m c R Ha. intros h m c [Hh W (c0 & x & Ha' & Hx & Hc & Hl) Hr] Ha Hroom.
  rewrite Ha in Ha'. injection Ha' as <-.
  destruct (wf_child _ _ W a _ _ Ha eq_refl) as (o & Ho & F). rewrite Hx in Ho. injection Ho as <-. destruct F as (F1 & F2 & F3 & _).
  assert (c_commands c <> a) as Hne by (intros E; rewrite E, Ha in Hx; done).
  unfold rest in Hr. rewrite Ha in Hr.
  apply wp_bind. apply (wp_get_commands _ _ _ _ _ _ a c _ Ha). apply wp_bind, wp_put_obj. rewrite (wrap_small 64) by lia.
  eapply wp_put_word; [by rewrite lookup_insert_ne|lia|].
  set (c' := CommandBuffer _ _ _). set (x' := <[_ := _]> x). set (m1 := <[a := _]> m).
  assert (take (length (l ++ [u32 w])) x' = map Some (l ++ [u32 w])) as Hw.
  { apply take_push; [lia|lia|]. by replace (Z.to_nat (c_count c)) with (length l) by lia. }
  apply HQ. split.
  - eapply held_update; [eapply held_update; eauto|]. unfold m1. rewrite lookup_insert_ne by done. eauto.
  - replace (<[c_commands c := O_words x']> m1) with (<[a := O_commands c']> (<[c_commands c := O_words x']> (delete a (delete (c_commands c) m)))).
    + apply wf_insert_pair with n; [by apply (wf_delete_both _ _ _ (O_commands c))|by apply lookup_delete_eq|
        by rewrite lookup_delete_ne, lookup_delete_eq by done|done|done|done|done| |lia|done].
      cbn. unfold x' at 1. rewrite length_insert. split_and!; [lia|lia|lia|lia|lia|]. exists (l ++ [u32 w]).
      rewrite <- Hw. f_equal. rewrite length_app. cbn [length]. lia.
    + unfold m1. apply map_eq. intros j. destruct (decide (j = a)) as [->|]; [by simplify_map_eq|].
      destruct (decide (j = c_commands c)) as [->|]; by simplify_map_eq.
  - exists c', x'. rewrite lookup_insert_ne by done. unfold m1. rewrite lookup_insert_eq. cbn [c_commands c_count c']. rewrite lookup_insert_eq.
    split_and!; [done|done|rewrite length_app; cbn; lia|exact Hw].
  - unfold rest. rewrite lookup_insert_ne by done. unfold m1. rewrite lookup_insert_eq. cbn [c_commands c'].
    by rewrite delete_insert_eq, delete_insert_ne, delete_insert_eq by done.
Qed.
End Push.

(** ** Commands *)

Inductive command : Type :=
  | BeginRenderPass (render_target : Z)
  | EndRenderPass
  | SetPipeline (pipeline : Z)
  | SetVertexBuffer (slot buffer offset : Z)
  | SetIndexBuffer (buffer offset : Z)
  | SetViewport (x y width height min_depth max_depth : Z)
  | SetScissor (x y width height : Z)
  | Draw (vertex_count instance_count first_vertex first_instance : Z)
  | DrawIndexed (index_count instance_count first_index vertex_offset first_instance : Z)
  | CopyBuffer (src dst src_offset dst_offset size : Z)
  | CopyTexture (src dst src_level dst_level : Z)
  | Barrier.

Definition issue (a : Z) (c : command) : prog (gpu H) unit :=
  match c with
  | BeginRenderPass t => gpu_cmd_begin_render_pass a t
  | EndRenderPass => gpu_cmd_end_render_pass a
  | SetPipeline p => gpu_cmd_set_pipeline a p
  | SetVertexBuffer slot b off => gpu_cmd_set_vertex_buffer a slot b off
  | SetIndexBuffer b off => gpu_cmd_set_index_buffer a b off
  | SetViewport x y w h mn mx => gpu_cmd_set_viewport a x y w h mn mx
  | SetScissor x y w h => gpu_cmd_set_scissor a x y w h
  | Draw vc ic fv fi => gpu_cmd_draw a vc ic fv fi
  | DrawIndexed xc ic fx vo fi => gpu_cmd_draw_indexed a xc ic fx vo fi
  | CopyBuffer src dst so dof sz => gpu_cmd_copy_buffer a src dst so dof sz
  | CopyTexture src dst sl dl => gpu_cmd_copy_texture a src dst sl dl
  | Barrier => gpu_cmd_barrier a
  end.

Fixpoint issue_all (a : Z) (cs : list command) : prog (gpu H) unit :=
  match cs with
  | [] => ret tt
  | c :: cs => issue a c ;; issue_all a cs
  end.

Definition words (c : command) : list Z :=
  match c with
  | BeginRenderPass t => [0; u32 t]
  | EndRenderPass => [1]
  | SetPipeline p => [2; u32 p]
  | SetVertexBuffer slot b off => [3; u32 slot; u32 b; u32 off]
  | SetIndexBuffer b off => [4; u32 b; u32 off]
  | SetViewport x y w h mn mx => [5; u32 x; u32 y; u32 w; u32 h; u32 mn; u32 mx]
  | SetScissor x y w h => [6; u32 x; u32 y; u32 w; u32 h]
  | Draw vc ic fv fi => [7; u32 vc; u32 ic; u32 fv; u32 fi]
  | DrawIndexed xc ic fx vo fi => [8; u32 xc; u32 ic; u32 fx; u32 vo; u32 fi]
  | CopyBuffer src dst so dof sz => [9; u32 src; u32 dst; u32 so; u32 dof; u32 sz]
  | CopyTexture src dst sl dl => [10; u32 src; u32 dst; u32 sl; u32 dl]
  | Barrier => [11]
  end.

(** What a reader of the words does. *)
Definition decode1 (ws : list Z) : option (command * list Z) :=
  match ws with
  | 0 :: t :: k => Some (BeginRenderPass t, k)
  | 1 :: k => Some (EndRenderPass, k)
  | 2 :: p :: k => Some (SetPipeline p, k)
  | 3 :: slot :: b :: off :: k => Some (SetVertexBuffer slot b off, k)
  | 4 :: b :: off :: k => Some (SetIndexBuffer b off, k)
  | 5 :: x :: y :: w :: h :: mn :: mx :: k => Some (SetViewport x y w h mn mx, k)
  | 6 :: x :: y :: w :: h :: k => Some (SetScissor x y w h, k)
  | 7 :: vc :: ic :: fv :: fi :: k => Some (Draw vc ic fv fi, k)
  | 8 :: xc :: ic :: fx :: vo :: fi :: k => Some (DrawIndexed xc ic fx (s32 vo) fi, k)
  | 9 :: src :: dst :: so :: dof :: sz :: k => Some (CopyBuffer src dst so dof sz, k)
  | 10 :: src :: dst :: sl :: dl :: k => Some (CopyTexture src dst sl dl, k)
  | 11 :: k => Some (Barrier, k)
  | _ => None
  end.

Fixpoint decode_n (fuel : nat) (ws : list Z) : option (list command) :=
  match fuel, ws with
  | _, [] => Some []
  | O, _ => None
  | S fuel, ws => match decode1 ws with Some (c, k) => cons c <$> decode_n fuel k | None => None end
  end.

Definition decode (ws : list Z) : option (list command) := decode_n (length ws) ws.

(** The numbers of a command fit their 32-bit types; pointers, offsets and
    sizes of 64 bits are cut to 32. *)
Definition is_u32 (x : Z) : Prop := 0 <= x < 2 ^ 32.

Definition typed (c : command) : Prop :=
  match c with
  | BeginRenderPass _ | EndRenderPass | SetPipeline _ | SetIndexBuffer _ _ | CopyBuffer _ _ _ _ _ | Barrier => True
  | SetVertexBuffer slot _ _ => is_u32 slot
  | SetViewport x y w h mn mx => Forall is_u32 [x; y; w; h; mn; mx]
  | SetScissor x y w h => Forall is_u32 [x; y; w; h]
  | Draw vc ic fv fi => Forall is_u32 [vc; ic; fv; fi]
  | DrawIndexed xc ic fx vo fi => Forall is_u32 [xc; ic; fx; fi] /\ - 2 ^ 31 <= vo < 2 ^ 31
  | CopyTexture _ _ sl dl => Forall is_u32 [sl; dl]
  end.

Definition narrow (c : command) : command :=
  match c with
  | BeginRenderPass t => BeginRenderPass (u32 t)
  | SetPipeline p => SetPipeline (u32 p)
  | SetVertexBuffer slot b off => SetVertexBuffer slot (u32 b) (u32 off)
  | SetIndexBuffer b off => SetIndexBuffer (u32 b) (u32 off)
  | CopyBuffer src dst so dof sz => CopyBuffer (u32 src) (u32 dst) (u32 so) (u32 dof) (u32 sz)
  | CopyTexture src dst sl dl => CopyTexture (u32 src) (u32 dst) sl dl
  | _ => c
  end.

Lemma s32_u32 x : - 2 ^ 31 <= x < 2 ^ 31 -> s32 (u32 x) = x.
Proof using Type.
  intros Hx. unfold swrap, wrap. rewrite Zplus_mod_idemp_l. apply (swrap_small 32 x); lia.
Qed.


Lemma decode1_words c k : typed c -> decode1 (words c ++ k) = Some (narrow c, k).
Proof using Type.
  unfold typed. destruct c; rewrite ?Forall_cons; intros Ht; destruct_and?; cbn [words app decode1 narrow]; rewrite ?s32_u32 by lia;
    repeat match goal with Hx : is_u32 ?x |- _ => rewrite (wrap_small 32 x Hx); clear Hx end; done.
Qed.

Lemma command_words_length c : (1 <= length (words c) <= 7)%nat.
Proof using Type. destruct c; cbn; lia. Qed.

Lemma decode_n_words cs : Forall typed cs -> forall fuel, (length cs <= fuel)%nat -> decode_n fuel (flat_map words cs) = Some (map narrow cs).
Proof using Type.
  induction 1 as [|c cs Hc _ IH]; intros fuel Hf; [by destruct fuel|]. cbn [length] in Hf. destruct fuel as [|fuel]; [lia|].
  cbn [flat_map]. pose proof (decode1_words c (flat_map words cs) Hc) as E. destruct (words c ++ flat_map words cs) as [|w ws] eqn:Ew; [done|].
  cbn [decode_n]. rewrite E, IH by lia. done.
Qed.

Lemma flat_words_length cs : (length cs <= length (flat_map words cs) <= 7 * length cs)%nat.
Proof using Type. induction cs as [|c cs IH]; cbn; [lia|]. rewrite length_app. pose proof (command_words_length c). lia. Qed.

Lemma decode_words cs : Forall typed cs -> decode (flat_map words cs) = Some (map narrow cs).
Proof using Type. intros Ht. apply decode_n_words; [done|]. pose proof (flat_words_length cs). lia. Qed.

Section Issue.
Context (n : Z) (i : bool) (f : Z) (out : list (String.string * list Z)).

Lemma wp_issue h m a l r c (Q : unit -> gpu H -> Prop) :
  recording n h m a l r -> Z.of_nat (length l) < 2 ^ 60 - 7 ->
  (forall h' m', recording n h' m' a (l ++ words c) r -> Q tt (Gpu h' m' n i f out)) ->
  wp (issue a c) Q (Gpu h m n i f out).
Proof using HL.
  intros R Hb HQ. destruct c; cbn [issue];
    unfold gpu_cmd_begin_render_pass, gpu_cmd_end_render_pass, gpu_cmd_set_pipeline, gpu_cmd_set_vertex_buffer, gpu_cmd_set_index_buffer,
      gpu_cmd_set_viewport, gpu_cmd_set_scissor, gpu_cmd_draw, gpu_cmd_draw_indexed, gpu_cmd_copy_buffer, gpu_cmd_copy_texture,
      gpu_cmd_barrier, cmd_buffer_push_ptr;
    repeat (first [apply wp_bind; eapply wp_push | eapply wp_push];
      [eassumption|rewrite ?length_app; cbn [length]; lia|]; clear R; intros ? ? R);
    rewrite <- ?app_assoc, ?wrap_wrap in R; apply HQ; exact R.
Qed.

Lemma wp_issue_all cs : forall h m a l r (Q : unit -> gpu H -> Prop),
  recording n h m a l r -> Z.of_nat (length l + 7 * length cs) < 2 ^ 60 ->
  (forall h' m', recording n h' m' a (l ++ flat_map words cs) r -> Q tt (Gpu h' m' n i f out)) ->
  wp (issue_all a cs) Q (Gpu h m n i f out).
Proof using HL.
  induction cs as [|c cs IH]; intros h m a l r Q R Hb HQ; cbn [issue_all flat_map length] in *.
  - apply wp_ret, HQ. by rewrite app_nil_r.
  - apply wp_bind. eapply wp_issue; [exact R|lia|]. intros h' m' R'. eapply IH; [exact R'|rewrite length_app; pose proof (command_words_length c); lia|].
    intros h2 m2 R2. apply HQ. by rewrite app_assoc.
Qed.
End Issue.

(** ** A command buffer from its beginning to its submission *)

Section Whole.
Context (n f : Z) (out : list (String.string * list Z)).

Lemma wp_begin h m (Q : Z -> gpu H -> Prop) :
  held h m -> wf_objs n m ->
  (forall a h' m', 0 < a -> recording n h' m' a [] m -> Q a (Gpu h' m' n true f out)) ->
  wp gpu_begin_command_buffer Q (Gpu h m n true f out).
Proof using HL.
  intros Hh W HQ. unfold gpu_begin_command_buffer. apply wp_bind, wp_gets. cbn [gpu_initialized negb].
  apply wp_bind, wp_malloc; [done|unfold sizeof_gpu_command_buffer; lia|]. intros a h1 Ha Hma Hh1.
  rewrite (proj2 (Z.eqb_neq a 0)) by lia. cbn zeta. apply wp_bind. eapply wp_init_obj; [apply lookup_insert_eq|done|].
  apply wp_bind, wp_malloc; [apply held_update; [done|rewrite lookup_insert_eq; eauto]|done|].
  intros p h2 Hp Hmp Hh2. assert (p <> a) as Hne by (intros E; by rewrite E, lookup_insert_eq in Hmp). rewrite !lookup_insert_ne in Hmp by done.
  apply wp_bind, wp_put_obj. rewrite (proj2 (Z.eqb_neq p 0)) by lia.
  apply wp_bind. eapply wp_init_obj; [by rewrite lookup_insert_ne, lookup_insert_eq|done|]. apply wp_ret.
  set (c := CommandBuffer p 1024 0). set (x := replicate _ _). set (m' := <[p := O_words x]> _).
  assert (m' = <[a := O_commands c]> (<[p := O_words x]> m)) as Em by (by apply pair_writes).
  apply (HQ a h2 m' Ha). split.
  - apply held_update; [|rewrite lookup_insert_ne, lookup_insert_eq by done; eauto].
    apply held_update; [done|]. rewrite lookup_insert_ne, lookup_insert_eq by done. eauto.
  - rewrite Em. apply wf_insert_pair with n; [done|done|done|done|done|done|done| |lia|done].
    unfold fits, c, x. rewrite length_replicate. cbn [c_capacity c_count]. split_and!; [lia|lia|lia|lia|lia|]. by exists [].
  - exists c, x. rewrite Em, lookup_insert_eq. cbn [c_commands c_count c]. by rewrite lookup_insert_ne, lookup_insert_eq.
  - unfold rest. rewrite Em, lookup_insert_eq. cbn [c_commands c].
    by rewrite delete_insert_ne, delete_insert_eq, delete_insert_eq, (delete_id m p), delete_id by done.
Qed.

Context (i : bool).

(** Without a fence, and with one. *)
Lemma wp_submit h m a o (Q : option Z -> gpu H -> Prop) :
  0 < a -> held h m -> wf_objs n m -> m !! a = Some (O_commands o) ->
  (forall h', held h' (rest a m) -> wf_objs n (rest a m) ->
     Q None (Gpu h' (rest a m) n i f (out ++ [("GPU: Executing %zu commands"%string, [c_count o])]))) ->
  wp (gpu_submit_command_buffer a false) Q (Gpu h m n i f out).
Proof using HL.
  intros Hp Hh W Ha HQ. unfold gpu_submit_command_buffer. rewrite (proj2 (Z.eqb_neq a 0)) by lia.
  apply wp_bind, (wp_get_commands _ _ _ _ _ _ a o _ Ha). apply wp_bind, wp_printf, wp_bind, wp_ret.
  unfold rest in HQ. rewrite Ha in HQ.
  apply wp_bind2. eapply wp_release; [done|done|exact Ha|done|].
  intros h' Hh' W'. by apply wp_ret, HQ.
Qed.

Lemma wp_submit_fence h m a o (Q : option Z -> gpu H -> Prop) :
  0 < a -> held h m -> wf_objs n m -> m !! a = Some (O_commands o) -> 1 <= n < 2 ^ 32 - 1 ->
  (forall fe h' m', m' !! fe = Some (O_fence (Fence n false)) -> held h' m' -> wf_objs (n + 1) m' ->
     Q (Some fe) (Gpu h' m' (n + 1) i f (out ++ [("GPU: Executing %zu commands"%string, [c_count o])]))) ->
  wp (gpu_submit_command_buffer a true) Q (Gpu h m n i f out).
Proof using HL.
  intros Hp Hh W Ha Hn HQ. unfold gpu_submit_command_buffer. rewrite (proj2 (Z.eqb_neq a 0)) by lia.
  apply wp_bind, (wp_get_commands _ _ _ _ _ _ a o _ Ha). apply wp_bind, wp_printf, wp_bind, wp_bind, wp_malloc; [done|done|].
  intros fe h1 Hfe Hmf Hh1. apply wp_bind. rewrite (proj2 (Z.eqb_neq fe 0)) by lia. cbn [negb].
  apply wp_bind, wp_new_id; [lia|]. eapply wp_init_obj; [apply lookup_insert_eq|done|]. rewrite insert_insert_eq. apply wp_ret.
  assert (fe <> a) as Hfa by (intros ->; by rewrite Hmf in Ha).
  set (x := O_fence _). assert (wf_objs (n + 1) (<[fe := x]> m)) as W1.
  { apply wf_insert with n; [done|done|lia| |done]. intros ? [= <-]. lia. }
  assert (held h1 (<[fe := x]> m)) as Hh2.
  { rewrite <- (insert_insert_eq m fe x (O_raw sizeof_gpu_fence)). apply held_update; [done|rewrite lookup_insert_eq; eauto]. }
  assert (<[fe := x]> m !! a = Some (O_commands o)) as Ha1 by (by rewrite lookup_insert_ne).
  apply wp_bind2. eapply wp_release; [done|exact W1|exact Ha1|done|].
  intros h' Hh' W'. apply wp_ret, HQ; [|done|done].
  rewrite lookup_delete_ne, lookup_delete_ne, lookup_insert_eq; [done| |done].
  intros E. destruct (wf_child _ _ W a _ _ Ha eq_refl) as (y & Hy & _). cbn in E. by rewrite E, Hmf in Hy.
Qed.
End Whole.

(** C12: Every command that is recorded can be read back from the words; the
    submission prints how many words there are, and leaves the rest of the
    store as it was. *)
Theorem record_decode s cs :
  wf s -> gpu_initialized s = true -> 7 * Z.of_nat (length cs) < 2 ^ 60 -> Forall typed cs ->
  wp (let* a := gpu_begin_command_buffer in issue_all a cs ;; ret a) (fun a s1 =>
      exists ws, wf s1 /\ recorded (g_objs s1) a ws /\ decode ws = Some (map narrow cs) /\ rest a (g_objs s1) = g_objs s /\
        wp (gpu_submit_command_buffer a false) (fun fence s2 =>
           fence = None /\ wf s2 /\ g_objs s2 = g_objs s /\
           g_output s2 = g_output s ++ [("GPU: Executing %zu commands"%string, [Z.of_nat (length ws)])]) s1) s.
Proof using HL.
  destruct s as [h m n i f out]. intros [Hh Hn W] Hi Hl Ht. cbn in *. subst i.
  apply wp_bind, wp_begin; [done|done|]. intros a h1 m1 Ha R. apply wp_bind. eapply wp_issue_all; [exact R|cbn [length]; lia|].
  clear h1 m1 R. intros h1 m1 [Hh1 W1 Hw Hr]. apply wp_ret. exists (flat_map words cs).
  split_and!; [by split|done|by apply decode_words|done|].
  destruct Hw as (c & x & Hc & _ & Hcc & _). eapply wp_submit; [done|done|done|exact Hc|]. rewrite Hr. intros h2 Hh2 W2.
  split_and!; [done|by split|done|by rewrite Hcc].
Qed.
End Record.
