(* ===== verification/GpuCalls.v ===== *)
(** * The software GPU: textures, and every call of the interface

    A level of a texture of 4-byte pixels lies inside its block
    ([map_texture_inside]); of a one-byte format, level 1 is behind it
    ([map_texture_outside]).  Every call on live handles runs without a fault
    and keeps the state well formed ([exec_safe]). *)

From S2P Require Import Prelude Alloc Gpu GpuProofs GpuRecord.

Section Calls.
Context {H : Type} `{HL : LibcHeapLaws H}.

(** ** The size of a texture *)

Definition texture_sized (w h d : Z) : Prop := 0 <= w /\ 0 <= h /\ 0 <= d /\ 0 <= w * h < 2 ^ 32 /\ 0 <= w * h * d < 2 ^ 32.

Definition desc_bytes (desc : gpu_texture_desc_t) : Z :=
  levels_size (Z.to_nat (Z.max 1 (td_mip_levels desc))) (td_width desc * td_height desc * td_depth desc * pixel_size (td_format desc)).

Lemma pixel_size_bound f : 1 <= pixel_size f <= 16.
Proof using Type. destruct f; cbn; lia. Qed.

Lemma levels_size_bound k : forall n, 0 <= n -> 0 <= levels_size k n <= 2 * n.
Proof using Type.
  induction k as [|k IH]; intros n Hn; cbn [levels_size]; [lia|]. specialize (IH (n / 2) ltac:(apply Z.div_pos; lia)).
  pose proof (Z.mul_div_le n 2 ltac:(lia)). lia.
Qed.

Lemma levels_size_le k j : forall n, (k <= j)%nat -> 0 <= n -> levels_size k n <= levels_size j n.
Proof using Type.
  revert j. induction k as [|k IH]; intros j n Hj Hn; [cbn; apply levels_size_bound; lia|]. destruct j as [|j]; [lia|].
  cbn [levels_size]. specialize (IH j (n / 2) ltac:(lia) ltac:(apply Z.div_pos; lia)). lia.
Qed.

Lemma wp_texture_size desc (s : gpu H) (Q : Z -> gpu H -> Prop) :
  texture_sized (td_width desc) (td_height desc) (td_depth desc) -> td_mip_levels desc < 2 ^ 32 ->
  Q (desc_bytes desc) s -> wp (texture_size desc) Q s.
Proof using Type.
  intros (W & Hh & D & Hwh & Hwhd) Hm HQ. unfold texture_size, desc_bytes in *. pose proof (pixel_size_bound (td_format desc)) as Hp.
  rewrite (wrap_small 32 (td_width desc * _)), (wrap_small 32) by lia.
  set (N := td_width desc * td_height desc * td_depth desc * pixel_size (td_format desc)) in *.
  assert (0 <= N < 2 ^ 36) as HN by (unfold N; revert Hwhd Hp; clear; generalize (td_width desc * td_height desc * td_depth desc) (pixel_size (td_format desc)); intros; nia). rewrite (wrap_small 64) by lia. cbn zeta.
  destruct (Z.ltb_spec 1 (td_mip_levels desc)) as [Hl|Hl]; [|apply wp_ret; rewrite Z.max_l in HQ by lia; change (Z.to_nat 1) with 1%nat in HQ; cbn [levels_size] in HQ; by rewrite Z.add_0_r in HQ].
  rewrite Z.max_r in HQ by lia.
  apply wp_loop with (I := fun '(i, mip, total) s' => s' = s /\ 1 <= i <= td_mip_levels desc /\ 0 <= mip /\ 0 <= total /\ total + mip <= 2 * N /\
      total + levels_size (Z.to_nat (td_mip_levels desc - i)) (mip / 2) = levels_size (Z.to_nat (td_mip_levels desc)) N)
    (m := fun '(i, _, _) _ => td_mip_levels desc - i).
  - intros [[i mip] total] s' (-> & Hi & M0 & T0 & Hs & He). destruct (Z.ltb_spec i (td_mip_levels desc)) as [Hi'|Hi'].
    + pose proof (Z.mul_div_le mip 2 ltac:(lia)). pose proof (Z.div_pos mip 2 M0 ltac:(lia)).
      rewrite (wrap_small 64) by lia. cbv zeta. apply wp_ret. cbn [turn]. split_and!; try done; try lia.
      replace (Z.to_nat (td_mip_levels desc - i)) with (S (Z.to_nat (td_mip_levels desc - (i + 1)))) in He by lia. cbn [levels_size] in He. lia.
    + apply wp_ret. cbn [turn]. replace i with (td_mip_levels desc) in He by lia. rewrite Z.sub_diag in He. cbn in He.
      rewrite Z.add_0_r in He. by rewrite He.
  - split_and!; try done; try lia. replace (Z.to_nat (td_mip_levels desc)) with (S (Z.to_nat (td_mip_levels desc - 1))) by lia. done.
  - lia.
Qed.

(** The product of the sides is one of 32 bits. *)
Lemma texture_size_wraps desc (s : gpu H) :
  (td_width desc * td_height desc) mod 2 ^ 32 = 0 -> td_mip_levels desc <= 1 -> texture_size desc s = Ok (0, s).
Proof using Type.
  intros Hw Hm. unfold texture_size. rewrite (proj2 (Z.ltb_ge 1 (td_mip_levels desc))) by lia. unfold wrap at 3. by rewrite Hw.
Qed.

(** ** The place of a level *)

(** Of a level of 4-byte pixels. *)
Definition level_bytes (w h i : Z) : Z := (w / 2 ^ i) * (h / 2 ^ i) * 4.

Fixpoint levels_before (w h : Z) (k : nat) : Z :=
  match k with
  | O => 0
  | S k => levels_before w h k + level_bytes w h (Z.of_nat k)
  end.

Lemma wp_mip_side w i (s : gpu H) (Q : Z -> gpu H -> Prop) : 0 <= i < 32 -> Q (w / 2 ^ i) s -> wp (mip_side w i) Q s.
Proof using Type.
  intros Hi HQ. unfold mip_side. rewrite (proj2 (Z.ltb_lt i 32)) by lia. apply wp_ret. by rewrite Z.shiftr_div_pow2 by lia.
Qed.

Lemma level_bytes_bound w h i n : 0 <= w -> 0 <= h -> 0 <= i -> w * h * 4 <= n -> 0 <= level_bytes w h i <= n / 2 ^ i.
Proof using Type.
  intros Hw Hh Hi Hn. unfold level_bytes. pose proof (Z.pow_pos_nonneg 2 i ltac:(lia) Hi) as Hp.
  pose proof (Z.mul_div_le w (2 ^ i) Hp). pose proof (Z.mul_div_le h (2 ^ i) Hp).
  pose proof (Z.div_pos w (2 ^ i) Hw Hp). pose proof (Z.div_pos h (2 ^ i) Hh Hp).
  split; [nia|]. apply Z.div_le_lower_bound; [done|]. nia.
Qed.

Lemma levels_size_snoc k : forall n, levels_size (S k) n = levels_size k n + n / 2 ^ Z.of_nat k.
Proof using Type.
  induction k as [|k IH]; intros n; [cbn; rewrite Z.div_1_r; lia|]. cbn [levels_size] in *.
  rewrite IH, Z.div_div by lia. rewrite <- Z.pow_succ_r by lia. rewrite Nat2Z.inj_succ. lia.
Qed.

Lemma levels_before_le w h k n : 0 <= w -> 0 <= h -> w * h * 4 <= n -> 0 <= levels_before w h k <= levels_size k n.
Proof using Type.
  intros Hw Hh Hn. induction k as [|k IH]; [cbn; lia|]. rewrite levels_size_snoc. cbn [levels_before].
  pose proof (level_bytes_bound w h (Z.of_nat k) n Hw Hh ltac:(lia) Hn). lia.
Qed.

Lemma wp_mip_offset t level (s : gpu H) (Q : Z -> gpu H -> Prop) :
  0 <= t_width t -> 0 <= t_height t -> t_width t * t_height t < 2 ^ 32 -> 0 <= level <= 32 ->
  Q (levels_before (t_width t) (t_height t) (Z.to_nat level)) s -> wp (mip_offset t level) Q s.
Proof using Type.
  intros Hw Hh Hwh Hl HQ. unfold mip_offset. set (w := t_width t) in *. set (g := t_height t) in *.
  apply wp_loop with (I := fun '(i, off) s' => s' = s /\ 0 <= i <= level /\ off = levels_before w g (Z.to_nat i)) (m := fun '(i, _) _ => level - i).
  - intros [i off] s' (-> & Hi & ->). destruct (Z.ltb_spec i level) as [Hi'|Hi'].
    + apply wp_bind, wp_mip_side; [lia|]. apply wp_bind, wp_mip_side; [lia|]. apply wp_ret. cbn [turn].
      split; [|lia]. split; [done|]. split; [lia|].
      pose proof (level_bytes_bound w g i (w * g * 4) Hw Hh ltac:(lia) ltac:(lia)) as Hlb. unfold level_bytes in Hlb.
      assert (w * g * 4 / 2 ^ i <= w * g * 4) by (apply Z.div_le_upper_bound; [apply Z.pow_pos_nonneg; lia|]; pose proof (Z.pow_pos_nonneg 2 i ltac:(lia) ltac:(lia)); nia).
      rewrite (wrap_small 32) by lia.
      pose proof (levels_before_le w g (Z.to_nat i) (w * g * 4) Hw Hh ltac:(lia)).
      pose proof (levels_size_bound (Z.to_nat i) (w * g * 4) ltac:(nia)).
      rewrite wrap_small by lia. replace (Z.to_nat (i + 1)) with (S (Z.to_nat i)) by lia. cbn [levels_before]. unfold level_bytes.
      by rewrite Z2Nat.id by lia.
    + apply wp_ret. cbn [turn]. by replace i with level by lia.
  - split_and!; done || lia.
  - lia.
Qed.

(** ** Mapping a level *)

Definition texture_mapped (a : Z) (t : gpu_texture) (s : gpu H) : gpu H :=
  set_objs (<[a := O_texture (t_with_mapped true t)]> (g_objs s)) s.

Lemma wp_map_texture a t level slice s (Q : Z -> gpu H -> Prop) :
  0 < a -> g_objs s !! a = Some (O_texture t) -> t_mapped t = false -> 0 <= level < t_mip_levels t -> level <= 32 ->
  texture_sized (t_width t) (t_height t) (t_depth t) ->
  Q (u64 (t_data t + levels_before (t_width t) (t_height t) (Z.to_nat level))) (texture_mapped a t s) ->
  wp (gpu_map_texture a level slice) Q s.
Proof using Type.
  intros Ha Hs Hm Hl Hl2 (W & Hh & D & Hwh & _) HQ. unfold gpu_map_texture. rewrite (proj2 (Z.eqb_neq a 0)) by lia.
  apply wp_bind. unfold get_texture. apply wp_bind. apply wp_getf with (O_texture t); [done|]. apply wp_ret.
  rewrite Hm, (proj2 (Z.leb_gt _ _)) by lia. cbn [orb]. apply wp_bind, wp_modify, wp_bind. apply wp_mip_offset; [done|done|lia|lia|].
  by apply wp_ret.
Qed.

(** C32: Of a texture with 4-byte pixels and a depth of 1 or more, whose sides
    and depth multiply to less than 2^32 ([texture_sized]: otherwise the size
    of its block wraps, [texture_size_wraps]), and whose block lies in the
    address space, every level up to 32 is mapped inside the block.  For a
    level above 32 the code shifts by 32 ([map_texture_shifts]). *)
Theorem map_texture_inside s a t level slice :
  wf s -> 0 < a -> g_objs s !! a = Some (O_texture t) -> t_mapped t = false -> 0 <= level < t_mip_levels t -> level <= 32 ->
  texture_sized (t_width t) (t_height t) (t_depth t) -> 1 <= t_depth t -> pixel_size (t_format t) = 4 ->
  0 <= t_data t -> t_data t + texture_bytes t < 2 ^ 64 ->
  wp (gpu_map_texture a level slice) (fun p s' =>
      s' = texture_mapped a t s /\
      exists l, g_objs s' !! t_data t = Some (O_bytes l) /\
        t_data t <= p /\ p + level_bytes (t_width t) (t_height t) level <= t_data t + Z.of_nat (length l)) s.
Proof using HL.
  intros [Hh Hn W] Ha Hs Hm Hl Hl2 Hz Hd Hp Hd0 Hb. apply (wp_map_texture a t); try done. split; [done|].
  destruct (wf_child _ _ W a _ _ Hs eq_refl) as (o & Ho & F). destruct o; try done. exists l. cbn in F. rewrite F.
  split; [|]. { cbn. rewrite lookup_insert_ne; [done|]. intros E. by rewrite E, Ho in Hs. }
  destruct Hz as (Hw & Hh' & _ & Hwh & Hwhd). unfold texture_bytes in *. rewrite Hp, Z.max_r in * by lia.
  set (N := t_width t * t_height t * t_depth t * 4) in *. assert (t_width t * t_height t * 4 <= N) as HN by (unfold N; nia).
  pose proof (levels_before_le _ _ (S (Z.to_nat level)) N Hw Hh' HN) as H1. cbn [levels_before] in H1. rewrite Z2Nat.id in H1 by lia.
  pose proof (levels_size_le (S (Z.to_nat level)) (Z.to_nat (t_mip_levels t)) N ltac:(lia) ltac:(nia)).
  pose proof (levels_before_le _ _ (Z.to_nat level) N Hw Hh' HN).
  pose proof (level_bytes_bound _ _ level N Hw Hh' ltac:(lia) HN). rewrite wrap_small by lia. lia.
Qed.

(** The loop over the levels shifts by 32 on the way to level 33. *)
Theorem map_texture_shifts (s : gpu H) a t level slice :
  0 < a -> g_objs s !! a = Some (O_texture t) -> t_mapped t = false -> 32 < level < t_mip_levels t ->
  gpu_map_texture a level slice s = Fault.
Proof using Type.
  intros Ha Hs Hm Hl. unfold gpu_map_texture. rewrite (proj2 (Z.eqb_neq a 0)) by lia.
  assert (get_texture a s = Ok (t, s)) as E by (unfold get_texture, get_obj, bind, getf; by rewrite Hs).
  rewrite (bind_ok _ _ _ _ _ E), Hm, (proj2 (Z.leb_gt _ _)) by lia. cbn [orb]. unfold bind at 1, put_obj, modify, bind at 1.
  assert (forall s', mip_offset t level s' = Fault) as ->; [|done]. intros s'. unfold mip_offset.
  apply loop_faults with (I := fun '(i, _) _ => 0 <= i <= 32) (m := fun '(i, _) _ => 32 - i); [|lia|lia].
  intros [i off] s1 Hi. rewrite (proj2 (Z.ltb_lt i level)) by lia. unfold mip_side.
  destruct (Z.ltb_spec i 32) as [H32|H32]; [|done]. unfold bind, ret. cbn [fturn]. lia.
Qed.

(** Of a texture with one byte per pixel, every level but the first is
    mapped behind the block of the texture. *)
Theorem map_texture_outside s a t level slice :
  wf s -> 0 < a -> g_objs s !! a = Some (O_texture t) -> t_mapped t = false -> 1 <= level < t_mip_levels t -> level < 32 ->
  texture_sized (t_width t) (t_height t) (t_depth t) -> t_depth t = 1 -> t_format t = GPU_FORMAT_R8_UNORM ->
  0 < t_width t -> 0 < t_height t -> 0 <= t_data t < 2 ^ 64 - 2 ^ 36 ->
  wp (gpu_map_texture a level slice) (fun p s' =>
      exists l, g_objs s' !! t_data t = Some (O_bytes l) /\ t_data t + Z.of_nat (length l) < p) s.
Proof using HL.
  intros [Hh Hn W] Ha Hs Hm Hl Hl2 Hz Hd Hf Hw0 Hh0 Hb. apply (wp_map_texture a t); [done|done|done|lia|lia|done|].
  destruct (wf_child _ _ W a _ _ Hs eq_refl) as (o & Ho & F). destruct o; try done. exists l. cbn in F. rewrite F.
  split; [|]. { cbn. rewrite lookup_insert_ne; [done|]. intros E. by rewrite E, Ho in Hs. }
  destruct Hz as (Hw & Hh' & _ & Hwh & Hwhd). unfold texture_bytes in *. rewrite Hd, Hf, Z.max_r in * by lia. cbn [pixel_size].
  set (w := t_width t) in *. set (g := t_height t) in *. rewrite !Z.mul_1_r.
  pose proof (levels_size_bound (Z.to_nat (t_mip_levels t)) (w * g) ltac:(lia)).
  pose proof (levels_before_le w g (Z.to_nat level) (w * g * 4) Hw Hh' ltac:(lia)).
  pose proof (levels_size_bound (Z.to_nat level) (w * g * 4) ltac:(lia)).
  assert (w * g * 4 <= levels_before w g (Z.to_nat level)) as Hlow.
  { clear -Hl Hw Hh'. replace (Z.to_nat level) with (S (Z.to_nat (level - 1))) by lia. induction (Z.to_nat (level - 1)) as [|k IH].
    - cbn [levels_before Z.of_nat]. unfold level_bytes. rewrite Z.pow_0_r, !Z.div_1_r. lia.
    - cbn [levels_before] in *. pose proof (level_bytes_bound w g (Z.of_nat (S k)) (w * g * 4) Hw Hh' ltac:(lia) ltac:(lia)). lia. }
  assert (0 < w * g) by nia. rewrite wrap_small by lia. lia.
Qed.

(** ** Every call *)

Inductive call : Type :=
  | Init (desc : option gpu_init_desc_t) | Shutdown | FrameIndex
  | CreateBuffer (desc : option gpu_buffer_desc_t) | DestroyBuffer (b : Z) | MapBuffer (b : Z) | UnmapBuffer (b : Z)
  | CreateTexture (desc : option gpu_texture_desc_t) | DestroyTexture (t : Z)
  | MapTexture (t level slice : Z) | UnmapTexture (t level slice : Z)
  | CreatePipeline (desc : option gpu_pipeline_desc_t) | DestroyPipeline (p : Z)
  | CreateSampler (desc : option gpu_sampler_desc_t) | DestroySampler (x : Z)
  | BeginCommands | EndCommands (a : Z) | Submit (a : Z) (signal_fence : bool)
  | WaitFence (fe : Z) | DestroyFence (fe : Z)
  | Issue (a : Z) (c : command) | BindDescriptorSet (a set d : Z) | Present (t : Z).

Definition drop {A} (p : prog (gpu H) A) : prog (gpu H) unit := p ;; ret tt.

Definition exec (c : call) : prog (gpu H) unit :=
  match c with
  | Init d => drop (gpu_init d) | Shutdown => gpu_shutdown | FrameIndex => drop gpu_get_frame_index
  | CreateBuffer d => drop (gpu_create_buffer d) | DestroyBuffer b => gpu_destroy_buffer b
  | MapBuffer b => drop (gpu_map_buffer b) | UnmapBuffer b => gpu_unmap_buffer b
  | CreateTexture d => drop (gpu_create_texture d) | DestroyTexture t => gpu_destroy_texture t
  | MapTexture t l sl => drop (gpu_map_texture t l sl) | UnmapTexture t l sl => gpu_unmap_texture t l sl
  | CreatePipeline d => drop (gpu_create_pipeline d) | DestroyPipeline p => gpu_destroy_pipeline p
  | CreateSampler d => drop (gpu_create_sampler d) | DestroySampler x => gpu_destroy_sampler x
  | BeginCommands => drop gpu_begin_command_buffer | EndCommands a => gpu_end_command_buffer a
  | Submit a b => drop (gpu_submit_command_buffer a b)
  | WaitFence fe => gpu_wait_fence fe | DestroyFence fe => gpu_destroy_fence fe
  | Issue a c => issue a c | BindDescriptorSet a st d => gpu_cmd_bind_descriptor_set a st d | Present t => gpu_present t
  end.

(** The handle is null, or of a live object of the right kind. *)
Definition handle {A} (kind : A -> gobj) (m : gmap Z gobj) (a : Z) : Prop := a = 0 \/ exists x, m !! a = Some (kind x).

(** Initial data: none, or enough bytes. *)
Definition source (m : gmap Z gobj) (src n : Z) : Prop := src = 0 \/ exists l, m !! src = Some (O_bytes l) /\ n <= Z.of_nat (length l).

Definition valid (m : gmap Z gobj) (c : call) : Prop :=
  match c with
  | CreateBuffer (Some d) => 0 < bd_size d /\ source m (bd_initial_data d) (bd_size d)
  | CreateTexture (Some d) =>
      0 < td_width d /\ 0 < td_height d /\ 0 < td_depth d /\ td_mip_levels d < 2 ^ 32 /\
      texture_sized (td_width d) (td_height d) (td_depth d) /\ source m (td_initial_data d) (desc_bytes d)
  | DestroyBuffer b | MapBuffer b | UnmapBuffer b => handle O_buffer m b
  | DestroyTexture t | UnmapTexture t _ _ | Present t => handle O_texture m t
  | MapTexture t level _ => t = 0 \/ exists x, m !! t = Some (O_texture x) /\ texture_sized (t_width x) (t_height x) (t_depth x) /\ 0 <= level <= 32
  | DestroyPipeline p => handle O_pipeline m p
  | DestroySampler x => handle O_sampler m x
  | Submit a _ => handle O_commands m a
  | WaitFence fe | DestroyFence fe => handle O_fence m fe
  | Issue a _ => exists c, m !! a = Some (O_commands c) /\ c_count c < 2 ^ 60 - 7
  | _ => True
  end.

(** What every call keeps. *)
Definition kept (n : Z) (s : gpu H) : Prop := wf s /\ n <= next_resource_id s <= n + 1.

Section Creation.
Context (h : H) (m : gmap Z gobj) (n : Z) (f : Z) (out : list (String.string * list Z)).

Lemma wp_fill_block p src k (Q : unit -> gpu H -> Prop) :
  m !! p = Some (O_raw k) -> 0 <= k -> source m src k ->
  (forall l, Z.of_nat (length l) = k -> Q tt (Gpu h (<[p := O_bytes l]> m) n true f out)) ->
  wp (if negb (src =? 0) then copy_block p src k else clear_block p k) Q (Gpu h m n true f out).
Proof using Type.
  intros Hp Hk Hs HQ. destruct (Z.eqb_spec src 0) as [->|Hne]; cbn [negb].
  - unfold clear_block. eapply wp_init_obj; [exact Hp|done|]. apply HQ. rewrite length_replicate. lia.
  - destruct Hs as [?|(l & Hl & Hle)]; [done|]. unfold copy_block. apply wp_bind, (wp_get_gobj _ _ _ _ _ _ src _ _ Hl).
    rewrite (proj2 (Z.leb_le k _)) by done. eapply wp_init_obj; [exact Hp|done|]. apply HQ. rewrite length_take. lia.
Qed.
End Creation.

Section Creation2.
Context (h : H) (m : gmap Z gobj) (n : Z) (f : Z) (out : list (String.string * list Z)).

(** The block of a new object is filled. *)
Lemma wp_fill_pair a p o0 o1 o src k (Q : unit -> gpu H -> Prop) :
  held h (<[a := o]> (<[p := O_raw k]> (<[a := o1]> (<[a := o0]> m)))) -> wf_objs n m -> m !! a = None -> m !! p = None -> p <> a ->
  child o = Some p -> id_of o = Some n -> 1 <= n -> 0 <= k -> (forall l, Z.of_nat (length l) = k -> fits o (O_bytes l)) -> source m src k ->
  (forall m2, held h m2 -> wf_objs (n + 1) m2 -> m2 !! a = Some o -> Q tt (Gpu h m2 (n + 1) true f out)) ->
  wp (if negb (src =? 0) then copy_block p src k else clear_block p k) Q
    (Gpu h (<[a := o]> (<[p := O_raw k]> (<[a := o1]> (<[a := o0]> m)))) (n + 1) true f out).
Proof using HL.
  intros Hh W Ha Hp Hne Hc Hi Hn Hk F Hs HQ. apply wp_fill_block; [by rewrite lookup_insert_ne, lookup_insert_eq by done|done| |].
  - destruct Hs as [->|(l & Hl & Hle)]; [by left|right]. exists l. rewrite !lookup_insert_ne; [done|..]; intros ->; congruence.
  - intros l Hl. rewrite pair_writes by done. apply HQ; [| |by rewrite lookup_insert_eq].
    + rewrite <- (pair_writes m a p o0 o1 o (O_raw k) (O_bytes l)) by done. apply held_update; [done|].
      rewrite lookup_insert_ne, lookup_insert_eq by done. eauto.
    + apply wf_insert_pair with n; [done|done|done|done|done|done|done|by apply F|lia|]. intros j Hj. rewrite Hi in Hj. injection Hj as <-. lia.
Qed.

End Creation2.

Section Creation3.
Context (h : H) (m : gmap Z gobj) (n : Z) (f : Z) (out : list (String.string * list Z)).

Lemma wp_create_buffer d : held h m -> wf_objs n m -> 1 <= n < 2 ^ 32 - 1 -> 0 < bd_size d -> source m (bd_initial_data d) (bd_size d) ->
  wp (gpu_create_buffer (Some d)) (fun _ => kept n) (Gpu h m n true f out).
Proof using HL.
  intros Hh W Hn Hs Hsrc. unfold gpu_create_buffer. apply wp_bind, wp_gets. cbn [gpu_initialized negb].
  apply wp_bind, wp_malloc; [done|done|]. intros a h1 Ha Hma Hh1. rewrite (proj2 (Z.eqb_neq a 0)) by lia.
  apply wp_bind, wp_new_id; [lia|]. apply wp_bind. eapply wp_init_obj; [apply lookup_insert_eq|done|].
  apply wp_bind, wp_malloc; [apply held_update; [done|rewrite lookup_insert_eq; eauto]|done|].
  intros p h2 Hp Hmp Hh2. assert (p <> a) as Hne by (intros E; by rewrite E, lookup_insert_eq in Hmp). rewrite !lookup_insert_ne in Hmp by done.
  apply wp_bind, wp_put_obj. rewrite (proj2 (Z.eqb_neq p 0)) by lia. apply wp_bind.
  eapply wp_fill_pair; [apply held_update; [done|rewrite lookup_insert_ne, lookup_insert_eq by done; eauto]|
    done|done|done|done|done|done|lia|lia|done|done|].
  intros m2 Hh3 W2 Hm2. apply wp_bind. unfold get_buffer. apply wp_bind, (wp_get_gobj _ _ _ _ _ _ a _ _ Hm2), wp_ret, wp_bind, wp_printf, wp_ret.
  split; [split; cbn; (done || lia)|cbn; lia].
Qed.

Lemma wp_create_texture d : held h m -> wf_objs n m -> 1 <= n < 2 ^ 32 - 1 -> valid m (CreateTexture (Some d)) ->
  wp (gpu_create_texture (Some d)) (fun _ => kept n) (Gpu h m n true f out).
Proof using HL.
  intros Hh W Hn (Hw & Hg & Hd & Hm & Hz & Hsrc). assert (0 < desc_bytes d) as Hs.
  { unfold desc_bytes. destruct (Z.to_nat (Z.max 1 (td_mip_levels d))) as [|k] eqn:E; [lia|]. cbn [levels_size].
    pose proof (pixel_size_bound (td_format d)). destruct Hz as (_ & _ & _ & Hz1 & Hz2).
    assert (0 < td_width d * td_height d * td_depth d) as Hpos by nia.
    set (N := td_width d * td_height d * td_depth d * pixel_size (td_format d)). assert (0 < N) as HN by (unfold N; nia).
    pose proof (levels_size_bound k (N / 2) ltac:(apply Z.div_pos; lia)). lia. }
  unfold gpu_create_texture. apply wp_bind, wp_gets. cbn [gpu_initialized negb].
  apply wp_bind, wp_malloc; [done|done|]. intros a h1 Ha Hma Hh1. rewrite (proj2 (Z.eqb_neq a 0)) by lia.
  apply wp_bind, wp_new_id; [lia|]. cbn zeta. apply wp_bind. eapply wp_init_obj; [apply lookup_insert_eq|done|].
  apply wp_bind, wp_texture_size; [done|done|].
  apply wp_bind, wp_malloc; [apply held_update; [done|rewrite lookup_insert_eq; eauto]|done|].
  intros p h2 Hp Hmp Hh2. assert (p <> a) as Hne by (intros E; by rewrite E, lookup_insert_eq in Hmp). rewrite !lookup_insert_ne in Hmp by done.
  apply wp_bind, wp_put_obj. rewrite (proj2 (Z.eqb_neq p 0)) by lia. apply wp_bind.
  eapply wp_fill_pair; [apply held_update; [done|rewrite lookup_insert_ne, lookup_insert_eq by done; eauto]|
    done|done|done|done|done|done|lia|lia|done|done|].
  intros m2 Hh3 W2 Hm2. apply wp_bind. unfold get_texture. apply wp_bind, (wp_get_gobj _ _ _ _ _ _ a _ _ Hm2), wp_ret, wp_bind, wp_printf, wp_ret.
  split; [split; cbn; (done || lia)|cbn; lia].
Qed.

(** A resource without a block. *)
Lemma wf_new_plain a o h1 k : held h1 (<[a := O_raw k]> m) -> m !! a = None -> wf_objs n m -> 1 <= n -> child o = None -> id_of o = Some n ->
  held h1 (<[a := o]> m) /\ wf_objs (n + 1) (<[a := o]> m).
Proof using Type.
  intros Hh1 Ha W Hn Hc Hi. split.
  - rewrite <- (insert_insert_eq m a o (O_raw k)). apply held_update; [done|rewrite lookup_insert_eq; eauto].
  - apply wf_insert with n; [done|done|lia| |by rewrite Hc]. intros j Hj. rewrite Hi in Hj. injection Hj as <-. lia.
Qed.

Lemma wp_create_pipeline d : held h m -> wf_objs n m -> 1 <= n < 2 ^ 32 - 1 ->
  wp (gpu_create_pipeline (Some d)) (fun _ => kept n) (Gpu h m n true f out).
Proof using HL.
  intros Hh W Hn. unfold gpu_create_pipeline. apply wp_bind, wp_gets. cbn [gpu_initialized negb].
  apply wp_bind, wp_malloc; [done|done|]. intros a h1 Ha Hma Hh1. rewrite (proj2 (Z.eqb_neq a 0)) by lia.
  apply wp_bind, wp_new_id; [lia|]. apply wp_bind. eapply wp_init_obj; [apply lookup_insert_eq|done|]. rewrite insert_insert_eq.
  apply wp_bind, wp_printf, wp_ret. destruct (wf_new_plain a (O_pipeline (Pipeline n d)) h1 _ Hh1 Hma W ltac:(lia) eq_refl eq_refl).
  split; [split; cbn; (done || lia)|cbn; lia].
Qed.

Lemma wp_create_sampler d : held h m -> wf_objs n m -> 1 <= n < 2 ^ 32 - 1 ->
  wp (gpu_create_sampler (Some d)) (fun _ => kept n) (Gpu h m n true f out).
Proof using HL.
  intros Hh W Hn. unfold gpu_create_sampler. apply wp_bind, wp_gets. cbn [gpu_initialized negb].
  apply wp_bind, wp_malloc; [done|done|]. intros a h1 Ha Hma Hh1. rewrite (proj2 (Z.eqb_neq a 0)) by lia.
  apply wp_bind, wp_new_id; [lia|]. apply wp_bind. eapply wp_init_obj; [apply lookup_insert_eq|done|]. rewrite insert_insert_eq.
  apply wp_bind, wp_printf, wp_ret. destruct (wf_new_plain a (O_sampler (Sampler n d)) h1 _ Hh1 Hma W ltac:(lia) eq_refl eq_refl).
  split; [split; cbn; (done || lia)|cbn; lia].
Qed.
End Creation3.


Section Destruction.
Context (h : H) (m : gmap Z gobj) (n : Z) (i : bool) (f : Z) (out : list (String.string * list Z)).
Context (Hh : held h m) (W : wf_objs n m) (Hn : 1 <= n).

Lemma kept_now f' out' : kept n (Gpu h m n i f' out').
Proof using Hh W Hn. split; [split; cbn; (done || lia)|cbn; lia]. Qed.

Lemma kept_update a o o2 f' out' :
  m !! a = Some o -> child o2 = child o -> id_of o2 = id_of o -> (forall x, fits o x -> fits o2 x) -> (forall x, fits x o -> fits x o2) ->
  kept n (Gpu h (<[a := o2]> m) n i f' out').
Proof using Hh W Hn.
  intros Ha Hc Hi F1 F2. split; [|cbn; lia]. split; cbn; [|done|by apply (wf_update m n a o o2)].
  apply held_update; [done|eauto].
Qed.

Lemma handle_pos {A} (kind : A -> gobj) a : handle kind m a -> a = 0 \/ 0 < a /\ a <> 0 /\ exists x, m !! a = Some (kind x).
Proof using Hh. intros [->|[x Hx]]; [by left|right]. destruct Hh as [_ Hp]. pose proof (Hp a ltac:(eauto)). split; [done|]. split; [lia|eauto]. Qed.

(** A call that does nothing on a null handle, and reads the object of one
    that is not. *)
Lemma wp_handle {A B} (kind : A -> gobj) (getx : prog (gpu H) A) a (d : B) (k : A -> prog (gpu H) B) f' out' :
  (forall x, m !! a = Some (kind x) -> getx (Gpu h m n i f' out') = Ok (x, Gpu h m n i f' out')) -> handle kind m a ->
  (forall x, m !! a = Some (kind x) -> wp (k x) (fun _ => kept n) (Gpu h m n i f' out')) ->
  wp (if a =? 0 then ret d else let* x := getx in k x) (fun _ => kept n) (Gpu h m n i f' out').
Proof using Hh W Hn.
  intros Hg Hv Hk. destruct (Z.eqb_spec a 0) as [->|Hne]; [by apply wp_ret, kept_now|]. destruct Hv as [?|[x Hx]]; [done|].
  unfold wp. rewrite (bind_ok _ _ _ _ _ (Hg x Hx)). by apply Hk.
Qed.

(** The block is given back when there is one, and then the object. *)
Lemma wp_destroy a o p out' : m !! a = Some o -> child o = Some p ->
  wp ((if negb (p =? 0) then free p else ret tt) ;; free a) (fun _ => kept n) (Gpu h m n i f out').
Proof using HL Hh W Hn.
  intros Ha Hc. destruct (wf_child _ _ W a o p Ha Hc) as (o' & Hp & _). destruct Hh as [Hu Hpos].
  pose proof (Hpos p ltac:(eauto)). rewrite (proj2 (Z.eqb_neq p 0)) by lia. cbn [negb]. apply wp_bind.
  eapply wp_release; [done|done|exact Ha|done|]. intros h' Hh' W'. split; [split; cbn; (done || lia)|cbn; lia].
Qed.

Lemma wp_destroy_one a o out' : m !! a = Some o -> is_Some (id_of o) -> wp (free a) (fun _ => kept n) (Gpu h m n i f out').
Proof using HL Hh W Hn.
  intros Ha Hi. eapply wp_release_one; [done|done|exact Ha|done|]. intros h' Hh' W'. split; [split; cbn; (done || lia)|cbn; lia].
Qed.
End Destruction.

Lemma wp_drop {A} (p : prog (gpu H) A) n s : wp p (fun _ => kept n) s -> wp (drop p) (fun _ => kept n) s.
Proof using Type. intros Hp. apply wp_bind. eapply wp_mono; [exact Hp|]. intros x t Ht. by apply wp_ret. Qed.

#[local] Ltac on_handle kind x Hx :=
  eapply (wp_handle _ _ _ _ ltac:(eassumption) ltac:(eassumption) ltac:(eassumption) kind);
    [intros ? E; cbv [get_buffer get_texture get_pipeline get_sampler get_fence get_commands bind get_obj getf]; cbn [g_objs]; rewrite E; done|eassumption|intros x Hx].

(** C11: Every call on live handles runs without a fault, and the state it leaves
    is well formed, while the numbers of resources are below 2^32 - 1, the sides
    and the depth of a texture multiply to less than 2^32, and a mapped level is
    at most 32 ([valid]). *)
Theorem exec_safe s c :
  wf s -> next_resource_id s < 2 ^ 32 - 1 -> valid (g_objs s) c -> wp (exec c) (fun _ => kept (next_resource_id s)) s.
Proof using HL.
  destruct s as [h m n i f out]. intros [Hh Hn W] Hlt Hv. cbn [g_heap g_objs next_resource_id] in *.
  pose proof (kept_now h m n i Hh W Hn f out) as K0.
  destruct c as [d| | |d|b|b|b|d|t|t level sl|t level sl|d|p|d|x| |a|a fe|fe|fe|a c|a st d|t]; cbn [exec valid] in *; try apply wp_drop.
  - unfold gpu_init. apply wp_bind, wp_gets. cbn [gpu_initialized]. destruct i; [done|]. by apply kept_now.
  - unfold gpu_shutdown. apply wp_bind, wp_gets. cbn [gpu_initialized]. destruct i; [|done]. by apply kept_now.
  - done.
  - destruct d as [d|]; [|done]. destruct i; [|done]. destruct Hv. by apply wp_create_buffer.
  - on_handle O_buffer x Hx. apply wp_bind, wp_printf. by apply (wp_destroy h m n i f) with (O_buffer x).
  - on_handle O_buffer x Hx. destruct (b_mapped x); [done|].
    apply wp_bind, wp_put_obj, wp_ret. by apply (kept_update h m n i Hh W Hn b (O_buffer x)).
  - on_handle O_buffer x Hx. apply wp_put_obj. by apply (kept_update h m n i Hh W Hn b (O_buffer x)).
  - destruct d as [d|]; [|done]. destruct i; [|done]. by apply wp_create_texture.
  - on_handle O_texture x Hx. apply wp_bind, wp_printf. by apply (wp_destroy h m n i f) with (O_texture x).
  - destruct Hv as [->|(x & Hx & Hz & Hl)]; [done|]. unfold gpu_map_texture. destruct (Z.eqb_spec t 0) as [->|Ht]; [done|].
    apply wp_bind. unfold get_texture. apply wp_bind, (wp_get_gobj _ _ _ _ _ _ t _ _ Hx), wp_ret. destruct (t_mapped x || _); [done|].
    apply wp_bind, wp_put_obj, wp_bind. destruct Hz as (? & ? & ? & ? & _). apply wp_mip_offset; [done|done|lia|lia|]. apply wp_ret.
    by apply (kept_update h m n i Hh W Hn t (O_texture x)).
  - on_handle O_texture x Hx. apply wp_put_obj. by apply (kept_update h m n i Hh W Hn t (O_texture x)).
  - destruct d as [d|]; [|done]. destruct i; [|done]. by apply wp_create_pipeline.
  - on_handle O_pipeline x Hx. apply wp_bind, wp_printf. by apply (wp_destroy_one h m n i f) with (O_pipeline x).
  - destruct d as [d|]; [|done]. destruct i; [|done]. by apply wp_create_sampler.
  - on_handle O_sampler y Hx. apply wp_bind, wp_printf. by apply (wp_destroy_one h m n i f) with (O_sampler y).
  - destruct i; [|done]. apply wp_begin; [done|done|]. intros a h' m' _ R. split; [split; cbn; [apply R|done|apply R]|cbn; lia].
  - done.
  - destruct (handle_pos h m Hh O_commands a Hv) as [->|(Ha & _ & x & Hx)]; [done|]. destruct fe.
    + eapply wp_submit_fence; [done|done|done|exact Hx|lia|]. intros y h' m' _ Hh' W'. split; [split; cbn; (done || lia)|cbn; lia].
    + eapply wp_submit; [done|done|done|exact Hx|]. intros h' Hh' W'. split; [split; cbn; (done || lia)|cbn; lia].
  - on_handle O_fence x Hx. apply wp_put_obj. by apply (kept_update h m n i Hh W Hn fe (O_fence x)).
  - destruct (handle_pos h m Hh O_fence fe Hv) as [->|(_ & Hb & x & Hx)]; [done|]. unfold gpu_destroy_fence. rewrite (proj2 (Z.eqb_neq fe 0) Hb).
    by apply (wp_destroy_one h m n i f) with (O_fence x).
  - destruct Hv as (x & Hx & Hc). destruct (wf_recorded n m a x W Hx) as (l & Hl & El).
    eapply (wp_issue n i f out h m a l (rest a m)); [by split|lia|]. intros h' m' R. split; [split; cbn; [apply R|done|apply R]|cbn; lia].
  - done.
  - on_handle O_texture x Hx. apply wp_bind, wp_printf, wp_modify. by apply kept_now.
Qed.

Lemma wf_objs_empty n : wf_objs n ∅.
Proof using Type. split; intros *; by rewrite lookup_empty. Qed.
End Calls.

(** ** Concrete states *)

Module Witnesses.
#[local] Existing Instance counter_heap.
#[local] Existing Instance counter_heap_laws.

Definition fresh_gpu : gpu Z := Gpu 16 ∅ 1 true 0 [].

Lemma fresh_gpu_wf : wf fresh_gpu.
Proof.
  split; [|done|apply wf_objs_empty]. split.
  - exists ∅. split; [split; [done|set_solver]|]. intros a [x Hx]%elem_of_dom. cbn in Hx. by rewrite lookup_empty in Hx.
  - intros a [x Hx]. cbn in Hx. by rewrite lookup_empty in Hx.
Qed.

(** A texture of 4 times 4 pixels with two levels. *)
Definition a_texture (f : gpu_format_t) : gpu_texture := Texture 1 4 4 1 2 f 0 128 false.
Definition texture_state (f : gpu_format_t) : gpu Z :=
  Gpu 4096 (<[64 := O_texture (a_texture f)]> (<[128 := O_bytes (replicate (Z.to_nat (24 * pixel_size f)) 0)]> ∅)) 2 true 0 [].

Lemma texture_state_wf f : wf (texture_state f).
Proof.
  split; [|done|].
  - split.
    + exists {[64; 128]}. split; [split; [done|set_solver by lia]|]. cbn [g_objs texture_state]. rewrite !dom_insert_L, dom_empty_L. set_solver.
    + intros a [x Hx]. cbn in Hx. rewrite !lookup_insert_Some, lookup_empty in Hx. destruct Hx as [[<- _]|[_ [[<- _]|[_ ?]]]]; done.
  - cbn. apply wf_insert_pair with 1; [apply wf_objs_empty|done|done|done|done|done|done| |lia|intros i [= <-]; lia].
    cbn [fits]. rewrite length_replicate. by destruct f.
Qed.

Lemma texture_state_lookup f : g_objs (texture_state f) !! 64 = Some (O_texture (a_texture f)).
Proof. apply lookup_insert_eq. Qed.

Lemma exec_safe_witness : wf fresh_gpu /\
  wp (exec (CreateTexture (Some (TextureDesc 8 8 1 4 GPU_FORMAT_R8_UNORM 0 0)))) (fun _ => kept 1) fresh_gpu.
Proof.
  split; [exact fresh_gpu_wf|]. apply (exec_safe fresh_gpu (CreateTexture (Some (TextureDesc 8 8 1 4 GPU_FORMAT_R8_UNORM 0 0))) fresh_gpu_wf).
  - done.
  - cbn. unfold texture_sized. split_and!; try lia. by left.
Defined.

Lemma record_decode_witness : wf fresh_gpu /\ let cs := [SetPipeline (2 ^ 40 + 7); DrawIndexed 6 1 0 (-3) 0] in
  wp (let* a := gpu_begin_command_buffer in issue_all a cs ;; ret a) (fun a s1 =>
      exists ws, wf s1 /\ recorded (g_objs s1) a ws /\ decode ws = Some (map narrow cs) /\ rest a (g_objs s1) = g_objs fresh_gpu /\
        wp (gpu_submit_command_buffer a false) (fun fence s2 =>
           fence = None /\ wf s2 /\ g_objs s2 = g_objs fresh_gpu /\
           g_output s2 = g_output fresh_gpu ++ [("GPU: Executing %zu commands"%string, [Z.of_nat (length ws)])]) s1) fresh_gpu.
Proof.
  split; [exact fresh_gpu_wf|]. intros cs. apply (record_decode fresh_gpu cs fresh_gpu_wf eq_refl); [done|].
  repeat apply Forall_cons_2; try exact (Forall_nil_2 _); cbn; unfold is_u32; [done|]. split; [|lia]. repeat apply Forall_cons_2; try exact (Forall_nil_2 _); lia.
Defined.

Lemma map_texture_inside_witness : let s := texture_state GPU_FORMAT_R8G8B8A8_UNORM in let t := a_texture GPU_FORMAT_R8G8B8A8_UNORM in
  wf s /\ wp (gpu_map_texture 64 1 0) (fun p s' =>
      s' = texture_mapped 64 t s /\
      exists l, g_objs s' !! t_data t = Some (O_bytes l) /\
        t_data t <= p /\ p + level_bytes (t_width t) (t_height t) 1 <= t_data t + Z.of_nat (length l)) s.
Proof.
  intros s t. split; [apply texture_state_wf|].
  apply (map_texture_inside s 64 t 1 0 (texture_state_wf _)); try done.
Defined.

Lemma map_texture_outside_witness : let s := texture_state GPU_FORMAT_R8_UNORM in let t := a_texture GPU_FORMAT_R8_UNORM in
  wf s /\ wp (gpu_map_texture 64 1 0) (fun p s' =>
      exists l, g_objs s' !! t_data t = Some (O_bytes l) /\ t_data t + Z.of_nat (length l) < p) s.
Proof.
  intros s t. split; [apply texture_state_wf|].
  apply (map_texture_outside s 64 t 1 0 (texture_state_wf _)); try done.
Defined.
End Witnesses.
