(* ===== verification/CssObj.v ===== *)
(** * The objects of the CSS parser (html/include/css/css.h)

    The structures that css_parser.c allocates; they lie in the store of
    [DomObj], beside the strings and the nodes.  The parser writes a token
    type [CSS_TOKEN_INTEGER] that css.h does not declare, and a field
    [data.number] of the token, which css.h does not have and nothing reads:
    the type is a constructor here, the field is left out. *)

From S2P Require Import Prelude.

Inductive css_token_type_t : Type :=
  | CSS_TOKEN_IDENT | CSS_TOKEN_AT_KEYWORD | CSS_TOKEN_STRING | CSS_TOKEN_HASH | CSS_TOKEN_NUMBER | CSS_TOKEN_PERCENTAGE
  | CSS_TOKEN_DIMENSION | CSS_TOKEN_URL | CSS_TOKEN_BAD_STRING | CSS_TOKEN_BAD_URL | CSS_TOKEN_DELIM | CSS_TOKEN_COLON
  | CSS_TOKEN_SEMICOLON | CSS_TOKEN_COMMA | CSS_TOKEN_LEFT_BRACKET | CSS_TOKEN_RIGHT_BRACKET | CSS_TOKEN_LEFT_PAREN
  | CSS_TOKEN_RIGHT_PAREN | CSS_TOKEN_LEFT_BRACE | CSS_TOKEN_RIGHT_BRACE | CSS_TOKEN_INCLUDE_MATCH | CSS_TOKEN_DASH_MATCH
  | CSS_TOKEN_PREFIX_MATCH | CSS_TOKEN_SUFFIX_MATCH | CSS_TOKEN_SUBSTRING_MATCH | CSS_TOKEN_COLUMN | CSS_TOKEN_WHITESPACE
  | CSS_TOKEN_CDO | CSS_TOKEN_CDC | CSS_TOKEN_EOF | CSS_TOKEN_INTEGER.
#[export] Instance css_token_type_eq_dec : EqDecision css_token_type_t.
Proof. solve_decision. Defined.

Record css_token_t : Type := CssToken {
  ct_type : css_token_type_t; ct_value : Z; ct_length : Z; ct_line : Z; ct_column : Z; ct_offset : Z;
}.

Inductive css_value_type_t : Type :=
  | CSS_VALUE_INHERIT | CSS_VALUE_INITIAL | CSS_VALUE_UNSET | CSS_VALUE_REVERT | CSS_VALUE_STRING | CSS_VALUE_URL
  | CSS_VALUE_INTEGER | CSS_VALUE_NUMBER | CSS_VALUE_LENGTH | CSS_VALUE_PERCENTAGE | CSS_VALUE_COLOR | CSS_VALUE_KEYWORD
  | CSS_VALUE_FUNCTION | CSS_VALUE_CALC | CSS_VALUE_VAR | CSS_VALUE_DIMENSION.

(** The union of a value: cleared, or as one of its views; a [double] is the
    64 bits of its representation. *)
Inductive css_value_data : Type :=
  | CV_zero
  | CV_string (string : Z)
  | CV_number (number : Z)
  | CV_dimension (value unit : Z)
  | CV_color (r g b a : Z)
  | CV_function (name arguments arg_count : Z)
  | CV_keyword (keyword : Z).

Record css_value_t : Type := CssValue { cv_type : css_value_type_t; cv_data : css_value_data; cv_important : bool }.

Inductive css_selector_type_t : Type :=
  | CSS_SELECTOR_TYPE_ELEMENT | CSS_SELECTOR_TYPE_ID | CSS_SELECTOR_TYPE_CLASS | CSS_SELECTOR_TYPE_ATTRIBUTE
  | CSS_SELECTOR_TYPE_PSEUDO_CLASS | CSS_SELECTOR_TYPE_PSEUDO_ELEMENT | CSS_SELECTOR_TYPE_UNIVERSAL.

Inductive css_attr_matcher : Type :=
  | CSS_ATTR_MATCH_EXISTS | CSS_ATTR_MATCH_EQUALS | CSS_ATTR_MATCH_CONTAINS_WORD
  | CSS_ATTR_MATCH_STARTS_WITH | CSS_ATTR_MATCH_ENDS_WITH | CSS_ATTR_MATCH_CONTAINS.

Inductive css_combinator_type : Type :=
  | CSS_COMBINATOR_DESCENDANT | CSS_COMBINATOR_CHILD | CSS_COMBINATOR_ADJACENT_SIBLING | CSS_COMBINATOR_GENERAL_SIBLING.

Record css_selector_t : Type := CssSelector {
  cs_type : css_selector_type_t; cs_value : Z; cs_attr_name : Z; cs_attr_value : Z; cs_attr_matcher : css_attr_matcher;
  cs_is_pseudo_element : bool; cs_argument_selector : Z; cs_next : Z; cs_combinator : Z; cs_combinator_type : css_combinator_type;
}.

Record css_declaration_t : Type := CssDeclaration { cd_property : Z; cd_value : Z; cd_important : bool; cd_next : Z }.

Record css_rule_t : Type := CssRule {
  cr_selectors : Z; cr_declarations : Z; cr_specificity : Z; cr_media_query : Z; cr_next : Z;
}.

Record css_stylesheet_t : Type := CssStylesheet {
  ss_url : Z; ss_title : Z; ss_rules : Z; ss_at_rules : Z;
  ss_imports : Z; ss_media_rules : Z; ss_keyframe_rules : Z; ss_font_face_rules : Z;
}.

Record css_parser_t : Type := CssParser {
  cp_input : Z; cp_position : Z; cp_length : Z; cp_line : Z; cp_column : Z;
  cp_current_token : css_token_t; cp_token_ready : bool;
  cp_in_declaration : bool; cp_in_at_rule : bool; cp_in_media_rule : bool;
  cp_has_errors : bool; cp_error_message : list Z;
}.

Inductive css_obj : Type :=
  | C_token (t : css_token_t)
  | C_value (v : css_value_t)
  | C_selector (s : css_selector_t)
  | C_declaration (d : css_declaration_t)
  | C_rule (r : css_rule_t)
  | C_stylesheet (s : css_stylesheet_t)
  | C_parser (p : css_parser_t).

(** What [memset(p, 0, sizeof *p)] makes of each structure. *)
Definition zero_css_token : css_token_t := CssToken CSS_TOKEN_IDENT 0 0 0 0 0.
Definition zero_css_value : css_value_t := CssValue CSS_VALUE_INHERIT CV_zero false.
Definition zero_css_selector : css_selector_t :=
  CssSelector CSS_SELECTOR_TYPE_ELEMENT 0 0 0 CSS_ATTR_MATCH_EXISTS false 0 0 0 CSS_COMBINATOR_DESCENDANT.
Definition zero_css_declaration : css_declaration_t := CssDeclaration 0 0 false 0.
Definition zero_css_rule : css_rule_t := CssRule 0 0 0 0 0.
Definition zero_css_stylesheet : css_stylesheet_t := CssStylesheet 0 0 0 0 0 0 0 0.
Definition zero_css_parser : css_parser_t := CssParser 0 0 0 0 0 zero_css_token false false false false false [].

(** Sizes on a 64-bit machine. *)
Definition sizeof_css_token : Z := 48.
Definition sizeof_css_value : Z := 40.
Definition sizeof_css_selector : Z := 72.
Definition sizeof_css_declaration : Z := 32.
Definition sizeof_css_rule : Z := 40.
Definition sizeof_css_stylesheet : Z := 64.
Definition sizeof_css_parser : Z := 352.

Definition sizeof_css_obj (o : css_obj) : Z :=
  match o with
  | C_token _ => sizeof_css_token
  | C_value _ => sizeof_css_value
  | C_selector _ => sizeof_css_selector
  | C_declaration _ => sizeof_css_declaration
  | C_rule _ => sizeof_css_rule
  | C_stylesheet _ => sizeof_css_stylesheet
  | C_parser _ => sizeof_css_parser
  end.

(** ** Field updates *)

Definition ct_with_type (type : css_token_type_t) (t : css_token_t) : css_token_t :=
  CssToken type (ct_value t) (ct_length t) (ct_line t) (ct_column t) (ct_offset t).
Definition ct_with_value (value length : Z) (t : css_token_t) : css_token_t :=
  CssToken (ct_type t) value length (ct_line t) (ct_column t) (ct_offset t).
Definition ct_with_place (line column offset : Z) (t : css_token_t) : css_token_t :=
  CssToken (ct_type t) (ct_value t) (ct_length t) line column offset.
Definition cv_with_type (type : css_value_type_t) (v : css_value_t) : css_value_t := CssValue type (cv_data v) (cv_important v).
Definition cv_with_data (data : css_value_data) (v : css_value_t) : css_value_t := CssValue (cv_type v) data (cv_important v).
Definition cs_with_type (type : css_selector_type_t) (s : css_selector_t) : css_selector_t :=
  CssSelector type (cs_value s) (cs_attr_name s) (cs_attr_value s) (cs_attr_matcher s) (cs_is_pseudo_element s)
    (cs_argument_selector s) (cs_next s) (cs_combinator s) (cs_combinator_type s).
Definition cs_with_value (value : Z) (s : css_selector_t) : css_selector_t :=
  CssSelector (cs_type s) value (cs_attr_name s) (cs_attr_value s) (cs_attr_matcher s) (cs_is_pseudo_element s)
    (cs_argument_selector s) (cs_next s) (cs_combinator s) (cs_combinator_type s).
Definition cs_with_next (next : Z) (s : css_selector_t) : css_selector_t :=
  CssSelector (cs_type s) (cs_value s) (cs_attr_name s) (cs_attr_value s) (cs_attr_matcher s) (cs_is_pseudo_element s)
    (cs_argument_selector s) next (cs_combinator s) (cs_combinator_type s).
Definition cd_with_property (property : Z) (d : css_declaration_t) : css_declaration_t :=
  CssDeclaration property (cd_value d) (cd_important d) (cd_next d).
Definition cd_with_value (value : Z) (d : css_declaration_t) : css_declaration_t :=
  CssDeclaration (cd_property d) value (cd_important d) (cd_next d).
Definition cd_with_next (next : Z) (d : css_declaration_t) : css_declaration_t :=
  CssDeclaration (cd_property d) (cd_value d) (cd_important d) next.
Definition cr_with_selectors (selectors : Z) (r : css_rule_t) : css_rule_t :=
  CssRule selectors (cr_declarations r) (cr_specificity r) (cr_media_query r) (cr_next r).
Definition cr_with_declarations (declarations : Z) (r : css_rule_t) : css_rule_t :=
  CssRule (cr_selectors r) declarations (cr_specificity r) (cr_media_query r) (cr_next r).
Definition cr_with_specificity (specificity : Z) (r : css_rule_t) : css_rule_t :=
  CssRule (cr_selectors r) (cr_declarations r) specificity (cr_media_query r) (cr_next r).
Definition cr_with_next (next : Z) (r : css_rule_t) : css_rule_t :=
  CssRule (cr_selectors r) (cr_declarations r) (cr_specificity r) (cr_media_query r) next.
Definition ss_with_url (url : Z) (s : css_stylesheet_t) : css_stylesheet_t :=
  CssStylesheet url (ss_title s) (ss_rules s) (ss_at_rules s) (ss_imports s) (ss_media_rules s) (ss_keyframe_rules s) (ss_font_face_rules s).
Definition ss_with_rules (rules : Z) (s : css_stylesheet_t) : css_stylesheet_t :=
  CssStylesheet (ss_url s) (ss_title s) rules (ss_at_rules s) (ss_imports s) (ss_media_rules s) (ss_keyframe_rules s) (ss_font_face_rules s).
Definition cp_with_position (position : Z) (p : css_parser_t) : css_parser_t :=
  CssParser (cp_input p) position (cp_length p) (cp_line p) (cp_column p) (cp_current_token p) (cp_token_ready p)
    (cp_in_declaration p) (cp_in_at_rule p) (cp_in_media_rule p) (cp_has_errors p) (cp_error_message p).
(** The start of a parse. *)
Definition cp_with_input (input length : Z) (p : css_parser_t) : css_parser_t :=
  CssParser input 0 length 1 1 (cp_current_token p) (cp_token_ready p)
    (cp_in_declaration p) (cp_in_at_rule p) (cp_in_media_rule p) (cp_has_errors p) (cp_error_message p).
