(* ===== verification/DomObj.v ===== *)
(** * The objects of the DOM and of the HTML and CSS parsers (dom.h, html.h)

    The structures are typed objects in one store, keyed by their addresses.
    A node, document, element or text node is one object: the C structures
    begin with their [dom_node_t], so a pointer to one is a pointer to the
    other, and [node_ext] holds the fields behind it.  Strings, arrays of
    pointers and the structures of the CSS parser ([CssObj]) are objects, too.
    [malloc] leaves a [Raw] block of the size asked for, which the first
    initialisation turns into an object that fits ([init_obj]); [free] takes the object out.  An access to an address where
    no object of the right type lies is a [Fault].

    The allocator is the interface [LibcHeap]. *)

From S2P Require Import Prelude CMem Ctype Alloc CssObj.

Definition text : Type := list Z.

(** The characters of a literal. *)
Definition chars (s : string) : text :=
  map (fun a => Z.of_N (Ascii.N_of_ascii a)) (String.list_ascii_of_string s).
Arguments chars s%_string.

(** The string in an array of bytes: what comes before the first 0. *)
Fixpoint string_in (bytes : list Z) : text :=
  match bytes with
  | b :: r => if b =? 0 then [] else b :: string_in r
  | [] => []
  end.

(** A [const char *] argument: the address of a string object, 0 for the null
    pointer, or a string that no operation frees (a literal, or a part of the
    caller's buffer). *)
Inductive cstring : Type :=
  | Ptr (a : Z)
  | Lit (t : text).

Definition is_null (c : cstring) : bool :=
  match c with Ptr a => a =? 0 | Lit _ => false end.

(** ** dom.h *)

Inductive dom_node_type : Type :=
  | DOM_NODE_TYPE_ELEMENT | DOM_NODE_TYPE_TEXT | DOM_NODE_TYPE_COMMENT
  | DOM_NODE_TYPE_DOCUMENT | DOM_NODE_TYPE_DOCUMENT_FRAGMENT.
#[export] Instance dom_node_type_eq_dec : EqDecision dom_node_type.
Proof. solve_decision. Defined.

Inductive dom_event_type : Type :=
  | DOM_EVENT_CLICK | DOM_EVENT_MOUSEDOWN | DOM_EVENT_MOUSEUP | DOM_EVENT_MOUSEMOVE
  | DOM_EVENT_KEYDOWN | DOM_EVENT_KEYUP | DOM_EVENT_FOCUS | DOM_EVENT_BLUR
  | DOM_EVENT_LOAD | DOM_EVENT_RESIZE | DOM_EVENT_CHANGE | DOM_EVENT_SUBMIT.
#[export] Instance dom_event_type_eq_dec : EqDecision dom_event_type.
Proof. solve_decision. Defined.

Record dom_node : Type := DomNode {
  n_type : dom_node_type; n_tag_name : Z; n_id : Z;
  n_class_names : Z; n_class_count : Z; n_attr_names : Z;
  n_attr_values : Z; n_attr_count : Z; n_text_content : Z;
  n_parent : Z; n_first_child : Z; n_last_child : Z;
  n_prev_sibling : Z; n_next_sibling : Z; n_event_listeners : Z;
  n_event_listener_count : Z; n_computed_style : Z; n_layout_box : Z;
  n_ref_count : Z;
}.

(** The fields behind the node, by the structure that was allocated. *)
Record dom_document : Type := DomDocument {
  d_document_element : Z; d_url : Z; d_title : Z;
  d_ready : bool; d_loading : bool; d_global_listeners : Z;
  d_global_listener_count : Z;
}.

Record html_document : Type := HtmlDocument {
  h_html_element : Z; h_head_element : Z; h_body_element : Z;
  h_forms : Z; h_form_count : Z; h_images : Z;
  h_image_count : Z; h_links : Z; h_link_count : Z;
  h_scripts : Z; h_script_count : Z; h_stylesheets : Z;
  h_stylesheet_count : Z; h_dom_content_loaded : bool; h_load_complete : bool;
}.

Record dom_element : Type := DomElement {
  e_namespace : Z; e_is_void : bool; e_style : Z;
  e_class_attr : Z;
}.

Inductive node_ext : Type :=
  | NodeOnly
  | IsDocument (d : dom_document)
  | IsHtmlDocument (d : dom_document) (h : html_document)
  | IsElement (e : dom_element)
  | IsText (data : Z).

(** The union of an event: cleared, or as one of its views. *)
Inductive event_data : Type :=
  | NoData
  | Mouse (x y button buttons client_x client_y screen_x screen_y : Z)
  | Key (keycode char_code : Z) (ctrl_key shift_key alt_key meta_key : bool)
  | Change (old_value new_value : Z).

Record dom_event : Type := DomEvent {
  ev_type : dom_event_type; ev_target : Z; ev_current_target : Z;
  ev_timestamp : Z; ev_bubbles : bool; ev_cancelable : bool;
  ev_default_prevented : bool; ev_propagation_stopped : bool; ev_data : event_data;
}.

Record dom_event_listener : Type := DomListener {
  li_type : dom_event_type; li_handler : Z; li_user_data : Z;
  li_capture : bool; li_passive : bool; li_once : bool;
}.

(** ** html.h *)

Inductive html_token_type : Type :=
  | HTML_TOKEN_DOCTYPE | HTML_TOKEN_START_TAG | HTML_TOKEN_END_TAG
  | HTML_TOKEN_COMMENT | HTML_TOKEN_TEXT | HTML_TOKEN_EOF.
#[export] Instance html_token_type_eq_dec : EqDecision html_token_type.
Proof. solve_decision. Defined.

Record html_token : Type := HtmlToken {
  t_type : html_token_type; t_tag_name : Z; t_self_closing : bool;
  t_attr_names : Z; t_attr_values : Z; t_attr_count : Z;
  t_data : Z; t_line : Z; t_column : Z;
  t_offset : Z;
}.

Record html_parser : Type := HtmlParser {
  p_input : cstring; p_position : Z; p_length : Z;
  p_line : Z; p_column : Z; p_current_token : html_token;
  p_token_ready : bool; p_document : Z; p_current_node : Z;
  p_in_head : bool; p_in_body : bool; p_in_script : bool;
  p_in_style : bool; p_has_errors : bool; p_error_message : text;
}.

Inductive obj : Type :=
  | Raw (n : Z)
  | Str (t : text)
  | Ptrs (l : list (option Z))
  | Node (n : dom_node) (e : node_ext)
  | Listener (l : dom_event_listener)
  | Event (e : dom_event)
  | Token (t : html_token)
  | Parser (p : html_parser)
  | Css (c : css_obj).

(** What [memset(p, 0, sizeof *p)] makes of each structure. *)
Definition zero_node : dom_node :=
  DomNode DOM_NODE_TYPE_ELEMENT 0 0 0 0 0 0 0 0 0 0 0 0 0 0 0 0 0 0.
Definition zero_document : dom_document :=
  DomDocument 0 0 0 false false 0 0.
Definition zero_element : dom_element :=
  DomElement 0 false 0 0.
Definition zero_event : dom_event :=
  DomEvent DOM_EVENT_CLICK 0 0 0 false false false false NoData.
Definition zero_token : html_token :=
  HtmlToken HTML_TOKEN_DOCTYPE 0 false 0 0 0 0 0 0 0.
Definition zero_parser : html_parser :=
  HtmlParser (Ptr 0) 0 0 0 0 zero_token false 0 0 false false false false false [].

(** Sizes on a 64-bit machine. *)
Definition sizeof_dom_node : Z := 152.
Definition sizeof_dom_document : Z := 200.
Definition sizeof_dom_element : Z := 184.
Definition sizeof_dom_text : Z := 160.
Definition sizeof_dom_event : Z := 72.
Definition sizeof_dom_event_listener : Z := 32.
Definition sizeof_html_token : Z := 80.
Definition sizeof_html_parser : Z := 408.
Definition sizeof_html_document : Z := 312.

Definition sizeof_obj (o : obj) : Z :=
  match o with
  | Raw n => n
  | Str t => Z.of_nat (length t) + 1
  | Ptrs l => 8 * Z.of_nat (length l)
  | Node _ NodeOnly => sizeof_dom_node
  | Node _ (IsDocument _) => sizeof_dom_document
  | Node _ (IsHtmlDocument _ _) => sizeof_html_document
  | Node _ (IsElement _) => sizeof_dom_element
  | Node _ (IsText _) => sizeof_dom_text
  | Listener _ => sizeof_dom_event_listener
  | Event _ => sizeof_dom_event
  | Token _ => sizeof_html_token
  | Parser _ => sizeof_html_parser
  | Css c => sizeof_css_obj c
  end.

(** ** Field updates *)

Definition n_with_type (type_ : dom_node_type) (n : dom_node) : dom_node :=
  DomNode type_ (n_tag_name n) (n_id n) (n_class_names n) (n_class_count n) (n_attr_names n) (n_attr_values n)
    (n_attr_count n) (n_text_content n) (n_parent n) (n_first_child n) (n_last_child n) (n_prev_sibling n)
    (n_next_sibling n) (n_event_listeners n) (n_event_listener_count n) (n_computed_style n) (n_layout_box n)
    (n_ref_count n).
Definition n_with_ref_count (ref_count_ : Z) (n : dom_node) : dom_node :=
  DomNode (n_type n) (n_tag_name n) (n_id n) (n_class_names n) (n_class_count n) (n_attr_names n) (n_attr_values n)
    (n_attr_count n) (n_text_content n) (n_parent n) (n_first_child n) (n_last_child n) (n_prev_sibling n)
    (n_next_sibling n) (n_event_listeners n) (n_event_listener_count n) (n_computed_style n) (n_layout_box n)
    ref_count_.
Definition n_with_tag_name (tag_name_ : Z) (n : dom_node) : dom_node :=
  DomNode (n_type n) tag_name_ (n_id n) (n_class_names n) (n_class_count n) (n_attr_names n) (n_attr_values n)
    (n_attr_count n) (n_text_content n) (n_parent n) (n_first_child n) (n_last_child n) (n_prev_sibling n)
    (n_next_sibling n) (n_event_listeners n) (n_event_listener_count n) (n_computed_style n) (n_layout_box n)
    (n_ref_count n).
Definition n_with_id (id_ : Z) (n : dom_node) : dom_node :=
  DomNode (n_type n) (n_tag_name n) id_ (n_class_names n) (n_class_count n) (n_attr_names n) (n_attr_values n)
    (n_attr_count n) (n_text_content n) (n_parent n) (n_first_child n) (n_last_child n) (n_prev_sibling n)
    (n_next_sibling n) (n_event_listeners n) (n_event_listener_count n) (n_computed_style n) (n_layout_box n)
    (n_ref_count n).
Definition n_with_classes (class_names_ : Z) (class_count_ : Z) (n : dom_node) : dom_node :=
  DomNode (n_type n) (n_tag_name n) (n_id n) class_names_ class_count_ (n_attr_names n) (n_attr_values n)
    (n_attr_count n) (n_text_content n) (n_parent n) (n_first_child n) (n_last_child n) (n_prev_sibling n)
    (n_next_sibling n) (n_event_listeners n) (n_event_listener_count n) (n_computed_style n) (n_layout_box n)
    (n_ref_count n).
Definition n_with_attrs (attr_names_ : Z) (attr_values_ : Z) (attr_count_ : Z) (n : dom_node) : dom_node :=
  DomNode (n_type n) (n_tag_name n) (n_id n) (n_class_names n) (n_class_count n) attr_names_ attr_values_
    attr_count_ (n_text_content n) (n_parent n) (n_first_child n) (n_last_child n) (n_prev_sibling n)
    (n_next_sibling n) (n_event_listeners n) (n_event_listener_count n) (n_computed_style n) (n_layout_box n)
    (n_ref_count n).
Definition n_with_text_content (text_content_ : Z) (n : dom_node) : dom_node :=
  DomNode (n_type n) (n_tag_name n) (n_id n) (n_class_names n) (n_class_count n) (n_attr_names n) (n_attr_values n)
    (n_attr_count n) text_content_ (n_parent n) (n_first_child n) (n_last_child n) (n_prev_sibling n)
    (n_next_sibling n) (n_event_listeners n) (n_event_listener_count n) (n_computed_style n) (n_layout_box n)
    (n_ref_count n).
Definition n_with_parent (parent_ : Z) (n : dom_node) : dom_node :=
  DomNode (n_type n) (n_tag_name n) (n_id n) (n_class_names n) (n_class_count n) (n_attr_names n) (n_attr_values n)
    (n_attr_count n) (n_text_content n) parent_ (n_first_child n) (n_last_child n) (n_prev_sibling n)
    (n_next_sibling n) (n_event_listeners n) (n_event_listener_count n) (n_computed_style n) (n_layout_box n)
    (n_ref_count n).
Definition n_with_first_child (first_child_ : Z) (n : dom_node) : dom_node :=
  DomNode (n_type n) (n_tag_name n) (n_id n) (n_class_names n) (n_class_count n) (n_attr_names n) (n_attr_values n)
    (n_attr_count n) (n_text_content n) (n_parent n) first_child_ (n_last_child n) (n_prev_sibling n)
    (n_next_sibling n) (n_event_listeners n) (n_event_listener_count n) (n_computed_style n) (n_layout_box n)
    (n_ref_count n).
Definition n_with_last_child (last_child_ : Z) (n : dom_node) : dom_node :=
  DomNode (n_type n) (n_tag_name n) (n_id n) (n_class_names n) (n_class_count n) (n_attr_names n) (n_attr_values n)
    (n_attr_count n) (n_text_content n) (n_parent n) (n_first_child n) last_child_ (n_prev_sibling n)
    (n_next_sibling n) (n_event_listeners n) (n_event_listener_count n) (n_computed_style n) (n_layout_box n)
    (n_ref_count n).
Definition n_with_prev_sibling (prev_sibling_ : Z) (n : dom_node) : dom_node :=
  DomNode (n_type n) (n_tag_name n) (n_id n) (n_class_names n) (n_class_count n) (n_attr_names n) (n_attr_values n)
    (n_attr_count n) (n_text_content n) (n_parent n) (n_first_child n) (n_last_child n) prev_sibling_
    (n_next_sibling n) (n_event_listeners n) (n_event_listener_count n) (n_computed_style n) (n_layout_box n)
    (n_ref_count n).
Definition n_with_next_sibling (next_sibling_ : Z) (n : dom_node) : dom_node :=
  DomNode (n_type n) (n_tag_name n) (n_id n) (n_class_names n) (n_class_count n) (n_attr_names n) (n_attr_values n)
    (n_attr_count n) (n_text_content n) (n_parent n) (n_first_child n) (n_last_child n) (n_prev_sibling n)
    next_sibling_ (n_event_listeners n) (n_event_listener_count n) (n_computed_style n) (n_layout_box n)
    (n_ref_count n).
Definition n_with_listeners (event_listeners_ : Z) (event_listener_count_ : Z) (n : dom_node) : dom_node :=
  DomNode (n_type n) (n_tag_name n) (n_id n) (n_class_names n) (n_class_count n) (n_attr_names n) (n_attr_values n)
    (n_attr_count n) (n_text_content n) (n_parent n) (n_first_child n) (n_last_child n) (n_prev_sibling n)
    (n_next_sibling n) event_listeners_ event_listener_count_ (n_computed_style n) (n_layout_box n)
    (n_ref_count n).
Definition d_with_url (url_ : Z) (d : dom_document) : dom_document :=
  DomDocument (d_document_element d) url_ (d_title d) (d_ready d) (d_loading d) (d_global_listeners d) (d_global_listener_count d).
Definition h_with_html_element (html_element_ : Z) (h : html_document) : html_document :=
  HtmlDocument html_element_ (h_head_element h) (h_body_element h) (h_forms h) (h_form_count h) (h_images h)
    (h_image_count h) (h_links h) (h_link_count h) (h_scripts h) (h_script_count h) (h_stylesheets h)
    (h_stylesheet_count h) (h_dom_content_loaded h) (h_load_complete h).
Definition h_with_head_element (head_element_ : Z) (h : html_document) : html_document :=
  HtmlDocument (h_html_element h) head_element_ (h_body_element h) (h_forms h) (h_form_count h) (h_images h)
    (h_image_count h) (h_links h) (h_link_count h) (h_scripts h) (h_script_count h) (h_stylesheets h)
    (h_stylesheet_count h) (h_dom_content_loaded h) (h_load_complete h).
Definition h_with_body_element (body_element_ : Z) (h : html_document) : html_document :=
  HtmlDocument (h_html_element h) (h_head_element h) body_element_ (h_forms h) (h_form_count h) (h_images h)
    (h_image_count h) (h_links h) (h_link_count h) (h_scripts h) (h_script_count h) (h_stylesheets h)
    (h_stylesheet_count h) (h_dom_content_loaded h) (h_load_complete h).
Definition ev_with_target (target_ : Z) (current_target_ : Z) (timestamp_ : Z) (ev : dom_event) : dom_event :=
  DomEvent (ev_type ev) target_ current_target_ timestamp_ (ev_bubbles ev) (ev_cancelable ev) (ev_default_prevented ev)
    (ev_propagation_stopped ev) (ev_data ev).
Definition ev_with_created (type_ : dom_event_type) (bubbles_ : bool) (cancelable_ : bool) (ev : dom_event) : dom_event :=
  DomEvent type_ (ev_target ev) (ev_current_target ev) (ev_timestamp ev) bubbles_ cancelable_ (ev_default_prevented ev)
    (ev_propagation_stopped ev) (ev_data ev).
Definition t_with_type (type_ : html_token_type) (t : html_token) : html_token :=
  HtmlToken type_ (t_tag_name t) (t_self_closing t) (t_attr_names t) (t_attr_values t) (t_attr_count t)
    (t_data t) (t_line t) (t_column t) (t_offset t).
Definition t_with_tag_name (tag_name_ : Z) (t : html_token) : html_token :=
  HtmlToken (t_type t) tag_name_ (t_self_closing t) (t_attr_names t) (t_attr_values t) (t_attr_count t)
    (t_data t) (t_line t) (t_column t) (t_offset t).
Definition t_with_self_closing (self_closing_ : bool) (t : html_token) : html_token :=
  HtmlToken (t_type t) (t_tag_name t) self_closing_ (t_attr_names t) (t_attr_values t) (t_attr_count t)
    (t_data t) (t_line t) (t_column t) (t_offset t).
Definition t_with_attrs (attr_names_ : Z) (attr_values_ : Z) (attr_count_ : Z) (t : html_token) : html_token :=
  HtmlToken (t_type t) (t_tag_name t) (t_self_closing t) attr_names_ attr_values_ attr_count_ (t_data t)
    (t_line t) (t_column t) (t_offset t).
Definition t_with_data (data_ : Z) (t : html_token) : html_token :=
  HtmlToken (t_type t) (t_tag_name t) (t_self_closing t) (t_attr_names t) (t_attr_values t) (t_attr_count t)
    data_ (t_line t) (t_column t) (t_offset t).
Definition p_with_input (input_ : cstring) (length_ : Z) (position_ : Z) (line_ : Z) (column_ : Z) (p : html_parser) : html_parser :=
  HtmlParser input_ position_ length_ line_ column_ (p_current_token p) (p_token_ready p) (p_document p)
    (p_current_node p) (p_in_head p) (p_in_body p) (p_in_script p) (p_in_style p) (p_has_errors p)
    (p_error_message p).
Definition p_with_position (position_ : Z) (p : html_parser) : html_parser :=
  HtmlParser (p_input p) position_ (p_length p) (p_line p) (p_column p) (p_current_token p) (p_token_ready p)
    (p_document p) (p_current_node p) (p_in_head p) (p_in_body p) (p_in_script p) (p_in_style p)
    (p_has_errors p) (p_error_message p).
Definition p_with_document (document_ : Z) (current_node_ : Z) (p : html_parser) : html_parser :=
  HtmlParser (p_input p) (p_position p) (p_length p) (p_line p) (p_column p) (p_current_token p) (p_token_ready p)
    document_ current_node_ (p_in_head p) (p_in_body p) (p_in_script p) (p_in_style p) (p_has_errors p)
    (p_error_message p).
Definition p_with_current_node (current_node_ : Z) (p : html_parser) : html_parser :=
  HtmlParser (p_input p) (p_position p) (p_length p) (p_line p) (p_column p) (p_current_token p) (p_token_ready p)
    (p_document p) current_node_ (p_in_head p) (p_in_body p) (p_in_script p) (p_in_style p) (p_has_errors p)
    (p_error_message p).
Definition p_with_in_head (in_head_ : bool) (p : html_parser) : html_parser :=
  HtmlParser (p_input p) (p_position p) (p_length p) (p_line p) (p_column p) (p_current_token p) (p_token_ready p)
    (p_document p) (p_current_node p) in_head_ (p_in_body p) (p_in_script p) (p_in_style p) (p_has_errors p)
    (p_error_message p).
Definition p_with_in_body (in_body_ : bool) (p : html_parser) : html_parser :=
  HtmlParser (p_input p) (p_position p) (p_length p) (p_line p) (p_column p) (p_current_token p) (p_token_ready p)
    (p_document p) (p_current_node p) (p_in_head p) in_body_ (p_in_script p) (p_in_style p) (p_has_errors p)
    (p_error_message p).
Definition p_with_in_script (in_script_ : bool) (p : html_parser) : html_parser :=
  HtmlParser (p_input p) (p_position p) (p_length p) (p_line p) (p_column p) (p_current_token p) (p_token_ready p)
    (p_document p) (p_current_node p) (p_in_head p) (p_in_body p) in_script_ (p_in_style p) (p_has_errors p)
    (p_error_message p).
Definition p_with_in_style (in_style_ : bool) (p : html_parser) : html_parser :=
  HtmlParser (p_input p) (p_position p) (p_length p) (p_line p) (p_column p) (p_current_token p) (p_token_ready p)
    (p_document p) (p_current_node p) (p_in_head p) (p_in_body p) (p_in_script p) in_style_ (p_has_errors p)
    (p_error_message p).
Definition p_with_has_errors (has_errors_ : bool) (p : html_parser) : html_parser :=
  HtmlParser (p_input p) (p_position p) (p_length p) (p_line p) (p_column p) (p_current_token p) (p_token_ready p)
    (p_document p) (p_current_node p) (p_in_head p) (p_in_body p) (p_in_script p) (p_in_style p)
    has_errors_ (p_error_message p).
Definition p_with_error_message (error_message_ : text) (p : html_parser) : html_parser :=
  HtmlParser (p_input p) (p_position p) (p_length p) (p_line p) (p_column p) (p_current_token p) (p_token_ready p)
    (p_document p) (p_current_node p) (p_in_head p) (p_in_body p) (p_in_script p) (p_in_style p)
    (p_has_errors p) error_message_.

(** ** The state *)

Section Objects.
Context {H : Type} `{LibcHeap H}.

Record dom : Type := Dom {
  heap : H;
  objs : gmap Z obj;
}.

Definition set_objs (v : gmap Z obj) (s : dom) : dom := Dom (heap s) v.

Definition on_heap {A} (p : prog H A) : prog dom A :=
  fun s => match p (heap s) with
           | Ok (a, h) => Ok (a, Dom h (objs s))
           | Fault => Fault
           | Spin => Spin
           end.

Definition get_obj (a : Z) : prog dom obj := getf (fun s => objs s !! a).
Definition put_obj (a : Z) (o : obj) : prog dom unit :=
  modify (fun s => set_objs (<[a := o]> (objs s)) s).

(** *** Allocation *)

Definition malloc (n : Z) : prog dom Z :=
  let* p := on_heap (malloc_op n) in
  (if negb (p =? 0) then put_obj p (Raw n) else ret tt) ;;
  ret p.

(** [free]: the null pointer, or an object that is gone afterwards. *)
Definition free (p : Z) : prog dom unit :=
  if p =? 0 then ret tt
  else
    get_obj p ;;
    on_heap (free_op p) ;;
    modify (fun s => set_objs (delete p (objs s)) s).

(** The first writes to a block of [malloc], which make it the object [o]: a
    block that is absent or too small faults. *)
Definition init_obj (p : Z) (o : obj) : prog dom unit :=
  let* b := get_obj p in
  match b with
  | Raw n => if sizeof_obj o <=? n then put_obj p o else fault
  | _ => fault
  end.

(** [realloc] of the block at [p], whose object becomes [o]. *)
Definition move_obj (p n : Z) (o : obj) : prog dom Z :=
  let* q := on_heap (realloc_op p n) in
  (if negb (q =? 0) then modify (fun s => set_objs (<[q := o]> (delete p (objs s))) s) else ret tt) ;;
  ret q.

(** [realloc] of an array of pointers. *)
Definition realloc_ptrs (p n : Z) : prog dom Z :=
  let slots := Z.to_nat (n / 8) in
  if p =? 0 then
    let* q := malloc n in
    (if negb (q =? 0) then init_obj q (Ptrs (replicate slots None)) else ret tt) ;;
    ret q
  else
    let* o := get_obj p in
    match o with
    | Ptrs l => move_obj p n (Ptrs (take slots (l ++ replicate slots None)))
    | _ => fault
    end.

(** *** Access *)

Definition get_node (a : Z) : prog dom dom_node :=
  let* o := get_obj a in match o with Node n _ => ret n | _ => fault end.
Definition get_ext (a : Z) : prog dom node_ext :=
  let* o := get_obj a in match o with Node _ e => ret e | _ => fault end.
Definition upd_node (a : Z) (f : dom_node -> dom_node) : prog dom unit :=
  let* o := get_obj a in match o with Node n e => put_obj a (Node (f n) e) | _ => fault end.
Definition put_ext (a : Z) (e : node_ext) : prog dom unit :=
  let* o := get_obj a in match o with Node n _ => put_obj a (Node n e) | _ => fault end.
Definition get_listener (a : Z) : prog dom dom_event_listener :=
  let* o := get_obj a in match o with Listener l => ret l | _ => fault end.
Definition get_event (a : Z) : prog dom dom_event :=
  let* o := get_obj a in match o with Event e => ret e | _ => fault end.
Definition upd_event (a : Z) (f : dom_event -> dom_event) : prog dom unit :=
  let* e := get_event a in put_obj a (Event (f e)).
Definition get_token (a : Z) : prog dom html_token :=
  let* o := get_obj a in match o with Token t => ret t | _ => fault end.
Definition upd_token (a : Z) (f : html_token -> html_token) : prog dom unit :=
  let* t := get_token a in put_obj a (Token (f t)).
Definition get_parser (a : Z) : prog dom html_parser :=
  let* o := get_obj a in match o with Parser p => ret p | _ => fault end.
Definition upd_parser (a : Z) (f : html_parser -> html_parser) : prog dom unit :=
  let* p := get_parser a in put_obj a (Parser (f p)).

(** [array[i]], read and written. *)
Definition get_slot (a i : Z) : prog dom Z :=
  let* o := get_obj a in
  match o with
  | Ptrs l =>
      match (if i <? 0 then None else l !! Z.to_nat i) with
      | Some (Some p) => ret p
      | _ => fault
      end
  | _ => fault
  end.
Definition put_slot (a i p : Z) : prog dom unit :=
  let* o := get_obj a in
  match o with
  | Ptrs l =>
      if (0 <=? i) && (i <? Z.of_nat (length l))
      then put_obj a (Ptrs (<[Z.to_nat i := Some p]> l))
      else fault
  | _ => fault
  end.

(** The characters of a string. *)
Definition get_str (c : cstring) : prog dom text :=
  match c with
  | Lit t => ret t
  | Ptr a => let* o := get_obj a in match o with Str t => ret t | _ => fault end
  end.

(** [strcmp(a, b) == 0] *)
Definition str_eq (a b : cstring) : prog dom bool :=
  let* s := get_str a in
  let* t := get_str b in
  ret (bool_decide (s = t)).

(** A block of [malloc] with the characters of a string and its 0; [strdup]
    looks at what [malloc] answers. *)
Definition strdup (c : cstring) : prog dom Z :=
  let* t := get_str c in
  let* p := malloc (u64 (Z.of_nat (length t) + 1)) in
  if p =? 0 then ret 0
  else init_obj p (Str t) ;; ret p.
End Objects.
Arguments dom : clear implicits.

(** ** Lemmas *)

Lemma string_in_length (l : list Z) : (length (string_in l) <= length l)%nat.
Proof. induction l as [|b l IH]; [done|]. cbn. destruct (b =? 0); cbn; lia. Qed.
