(* ===== verification/Scan.v ===== *)
(** * Texts read from left to right

    What the specifications of the HTML and the CSS tokenizer share: the
    longest prefix of characters of a kind, and what comes behind it.  A
    character is a byte; the code compares it as a signed number. *)

From S2P Require Import Prelude CStr DomObj.

(** The characters that satisfy [P], and what comes after them. *)
Definition spanned (P : Z -> bool) (l : text) : nat := span_len (fun b => P (s8 b)) l.
Definition takew (P : Z -> bool) (l : text) : text := take (spanned P l) l.
Definition dropw (P : Z -> bool) (l : text) : text := drop (spanned P l) l.

Definition head_is (C : Z -> bool) (l : text) : bool :=
  match l with b :: _ => C (s8 b) | [] => false end.

Definition is_char (c : Z) (b : Z) : bool := s8 b =? c.

(** The text begins with the character [c]. *)
Definition starts (c : Z) (l : text) : bool :=
  match l with b :: _ => is_char c b | [] => false end.

Definition all_chars (P : Z -> bool) (w : text) : bool := forallb (fun b => P (s8 b)) w.
Definition is_word (P : Z -> bool) (w : text) : bool := bool_decide (w <> []) && all_chars P w.

Definition is_nil {A} (l : list A) : bool := match l with [] => true | _ => false end.

(** ** Lemmas *)

Lemma drop_1 {A} (b : A) l : drop 1 (b :: l) = l.
Proof. done. Qed.

Lemma spanned_le P l : (spanned P l <= length l)%nat.
Proof. apply span_len_le. Qed.

Lemma takew_dropw P l : takew P l ++ dropw P l = l.
Proof. apply take_drop. Qed.

Lemma dropw_length P l : (length (dropw P l) <= length l)%nat.
Proof. unfold dropw. rewrite length_drop. lia. Qed.

Lemma dropw_lt P l : takew P l <> [] -> (length (dropw P l) < length l)%nat.
Proof.
  intros Ht. rewrite <- (takew_dropw P l) at 2. rewrite length_app.
  destruct (takew P l); [done|]. cbn. lia.
Qed.

Lemma starts_length c l : starts c l = true -> (length (drop 1 l) < length l)%nat.
Proof. destruct l; [done|]. rewrite length_drop; cbn; lia. Qed.

Lemma spanned_app P w l : all_chars P w = true -> head_is P l = false -> spanned P (w ++ l) = length w.
Proof.
  intros Hw Hl. induction w as [|b w IH]; cbn in *.
  - destruct l as [|b l]; [done|]. unfold spanned. cbn in *. by rewrite Hl.
  - apply andb_prop in Hw as [Hb Hw]. unfold spanned in *. cbn. rewrite Hb. f_equal. by apply IH.
Qed.

Lemma takew_app P w l : all_chars P w = true -> head_is P l = false -> takew P (w ++ l) = w.
Proof. intros Hw Hl. unfold takew. rewrite spanned_app by done. apply take_app_length. Qed.

Lemma dropw_app P w l : all_chars P w = true -> head_is P l = false -> dropw P (w ++ l) = l.
Proof. intros Hw Hl. unfold dropw. rewrite spanned_app by done. apply drop_app_length. Qed.

Lemma dropw_none P l : head_is P l = false -> dropw P l = l.
Proof. intros Hl. by apply (dropw_app P [] l). Qed.

Lemma dropw_head P l : head_is P (dropw P l) = false.
Proof.
  unfold dropw, spanned. induction l as [|b l IH]; [done|]. cbn. destruct (P (s8 b)) eqn:E; [done|]. by cbn.
Qed.

Lemma is_word_inv P w : is_word P w = true -> all_chars P w = true /\ exists b w', w = b :: w' /\ P (s8 b) = true.
Proof.
  unfold is_word. intros [Hne Hw]%andb_prop. apply bool_decide_eq_true in Hne. split; [done|].
  destruct w as [|b w]; [done|]. apply andb_prop in Hw as [Hb _]. eauto.
Qed.

Lemma dropw_drop C t k : drop (k + spanned C (drop k t)) t = dropw C (drop k t).
Proof. unfold dropw. by rewrite drop_drop. Qed.

Lemma spanned_cons C b l : spanned C (b :: l) = if C (s8 b) then S (spanned C l) else 0%nat.
Proof. done. Qed.

Lemma drop_cases {A} (t : list A) k : (k <= length t)%nat ->
  (k = length t /\ drop k t = []) \/ exists b, t !! k = Some b /\ drop k t = b :: drop (S k) t.
Proof.
  intros Hk. destruct (decide (k = length t)) as [->|].
  - left. by rewrite drop_all.
  - right. destruct (lookup_lt_is_Some_2 t k ltac:(lia)) as [b Hb]. exists b. by rewrite (drop_S t b k).
Qed.

Lemma head_starts c l : head_is (fun x => x =? c) l = starts c l.
Proof. by destruct l. Qed.

Lemma dropw_step C b l : dropw C (b :: l) = if C (s8 b) then dropw C l else b :: l.
Proof. unfold dropw. rewrite spanned_cons. by destruct (C (s8 b)). Qed.
