(* ===== verification/Dom.v ===== *)
(** * The DOM (html/src/dom/dom.c)

    The operations on nodes, documents, elements, text nodes, events and their
    listeners, over the objects of [DomObj].  Event handlers are code of the
    program that registers them: [Handlers] says what calling one does. *)

From S2P Require Import Prelude CMem Alloc DomObj.

Class Handlers (H : Type) : Type := {
  call_handler : Z -> Z -> Z -> prog (dom H) unit;   (* handler, event, user_data *)
}.

Section Dom.
Context {H : Type} `{LibcHeap H} `{!Handlers H}.

(** ** Creation *)

Definition dom_node_create (type : dom_node_type) : prog (dom H) Z :=
  let* node := malloc sizeof_dom_node in
  if node =? 0 then ret 0
  else
    init_obj node (Node zero_node NodeOnly) ;;
    upd_node node (n_with_type type) ;;
    upd_node node (n_with_ref_count 1) ;;
    ret node.

Definition dom_document_create (url : cstring) : prog (dom H) Z :=
  let* doc := malloc sizeof_dom_document in
  if doc =? 0 then ret 0
  else
    init_obj doc (Node zero_node (IsDocument zero_document)) ;;
    upd_node doc (n_with_type DOM_NODE_TYPE_DOCUMENT) ;;
    upd_node doc (n_with_ref_count 1) ;;
    (if negb (is_null url) then
       let* u := strdup url in
       put_ext doc (IsDocument (d_with_url u zero_document))
     else ret tt) ;;
    ret doc.

Definition dom_element_create (tag_name : cstring) : prog (dom H) Z :=
  let* element := malloc sizeof_dom_element in
  if element =? 0 then ret 0
  else
    init_obj element (Node zero_node (IsElement zero_element)) ;;
    upd_node element (n_with_type DOM_NODE_TYPE_ELEMENT) ;;
    upd_node element (n_with_ref_count 1) ;;
    (if negb (is_null tag_name) then
       let* t := strdup tag_name in
       upd_node element (n_with_tag_name t)
     else ret tt) ;;
    ret element.

Definition dom_text_create (data : cstring) : prog (dom H) Z :=
  let* text := malloc sizeof_dom_text in
  if text =? 0 then ret 0
  else
    init_obj text (Node zero_node (IsText 0)) ;;
    upd_node text (n_with_type DOM_NODE_TYPE_TEXT) ;;
    upd_node text (n_with_ref_count 1) ;;
    (if negb (is_null data) then
       let* d := strdup data in
       put_ext text (IsText d) ;;
       let* c := strdup data in
       upd_node text (n_with_text_content c)
     else ret tt) ;;
    ret text.

(** ** The tree *)

(** The statements that [dom_node_remove_child] and [dom_node_destroy] share:
    the links of [parent] and of the siblings go past [child]. *)
Definition unlink_ends (parent child : Z) : prog (dom H) unit :=
  let* p := get_node parent in
  (if n_first_child p =? child
   then let* c := get_node child in upd_node parent (n_with_first_child (n_next_sibling c)) else ret tt) ;;
  let* p := get_node parent in
  if n_last_child p =? child
  then let* c := get_node child in upd_node parent (n_with_last_child (n_prev_sibling c)) else ret tt.

Definition unlink_siblings (child : Z) : prog (dom H) unit :=
  let* c := get_node child in
  (if negb (n_prev_sibling c =? 0)
   then upd_node (n_prev_sibling c) (n_with_next_sibling (n_next_sibling c)) else ret tt) ;;
  let* c := get_node child in
  if negb (n_next_sibling c =? 0)
  then upd_node (n_next_sibling c) (n_with_prev_sibling (n_prev_sibling c)) else ret tt.

Definition unlink_child (parent child : Z) : prog (dom H) unit :=
  unlink_ends parent child ;; unlink_siblings child.

Definition dom_node_remove_child (parent child : Z) : prog (dom H) unit :=
  let* own := (if (parent =? 0) || (child =? 0) then ret false
               else let* c := get_node child in ret (n_parent c =? parent)) in
  if negb own then ret tt
  else
    unlink_child parent child ;;
    upd_node child (n_with_parent 0) ;;
    upd_node child (n_with_prev_sibling 0) ;;
    upd_node child (n_with_next_sibling 0).

(** [// Add to new parent] *)
Definition link_last (parent child : Z) : prog (dom H) unit :=
  upd_node child (n_with_parent parent) ;;
  let* p := get_node parent in
  if n_first_child p =? 0 then
    upd_node parent (n_with_first_child child) ;;
    upd_node parent (n_with_last_child child)
  else
    upd_node (n_last_child p) (n_with_next_sibling child) ;;
    let* p := get_node parent in
    upd_node child (n_with_prev_sibling (n_last_child p)) ;;
    upd_node parent (n_with_last_child child).

Definition dom_node_append_child (parent child : Z) : prog (dom H) unit :=
  if (parent =? 0) || (child =? 0) then ret tt
  else
    let* c := get_node child in
    (if negb (n_parent c =? 0) then dom_node_remove_child (n_parent c) child else ret tt) ;;
    link_last parent child.

(** ** Destruction *)

(** [for (i = 0; i < count; i++) ..], the count read from the node each time. *)
Definition for_node (node : Z) (count : dom_node -> Z) (body : dom_node -> Z -> prog (dom H) unit) : prog (dom H) unit :=
  loop (fun i =>
    let* n := get_node node in
    if i <? count n then body n i ;; ret (Next (u64 (i + 1)))
    else ret (Done tt)) 0.

(** The attributes, the class names, the other strings and the listeners. *)
Definition free_strings (node : Z) : prog (dom H) unit :=
  for_node node n_attr_count (fun n i =>
    let* a := get_slot (n_attr_names n) i in free a ;;
    let* v := get_slot (n_attr_values n) i in free v) ;;
  let* n := get_node node in
  free (n_attr_names n) ;;
  free (n_attr_values n) ;;
  for_node node n_class_count (fun n i =>
    let* c := get_slot (n_class_names n) i in free c) ;;
  let* n := get_node node in
  free (n_class_names n) ;;
  free (n_tag_name n) ;;
  free (n_id n) ;;
  free (n_text_content n) ;;
  free (n_event_listeners n).

(** The recursion follows the tree: [fuel] bounds its depth. *)
Fixpoint dom_node_destroy (fuel : nat) (node : Z) : prog (dom H) unit :=
  match fuel with
  | O => spin
  | S fuel =>
      if node =? 0 then ret tt
      else
        free_strings node ;;
        let* n := get_node node in
        (if negb (n_parent n =? 0) then unlink_child (n_parent n) node else ret tt) ;;
        let* n := get_node node in
        loop (fun child =>
          if negb (child =? 0) then
            let* c := get_node child in
            let next := n_next_sibling c in
            dom_node_destroy fuel child ;;
            ret (Next next)
          else ret (Done tt)) (n_first_child n) ;;
        free node
  end.

Definition destroy_fuel : prog (dom H) nat := gets (fun s => S (size (objs s))).

Definition dom_node_ref (node : Z) : prog (dom H) Z :=
  (if negb (node =? 0) then upd_node node (fun n => n_with_ref_count (u32 (n_ref_count n + 1)) n)
   else ret tt) ;;
  ret node.

Definition dom_node_unref (node : Z) : prog (dom H) unit :=
  if node =? 0 then ret tt
  else
    upd_node node (fun n => n_with_ref_count (u32 (n_ref_count n - 1)) n) ;;
    let* n := get_node node in
    if n_ref_count n =? 0 then
      let* fuel := destroy_fuel in
      dom_node_destroy fuel node
    else ret tt.

Definition get_document (doc : Z) : prog (dom H) dom_document :=
  let* e := get_ext doc in
  match e with
  | IsDocument d | IsHtmlDocument d _ => ret d
  | _ => fault
  end.

Definition dom_document_destroy (doc : Z) : prog (dom H) unit :=
  if doc =? 0 then ret tt
  else
    let* d := get_document doc in
    free (d_url d) ;;
    free (d_title d) ;;
    free (d_global_listeners d) ;;
    let* fuel := destroy_fuel in
    dom_node_destroy fuel doc.

(** ** Attributes *)

(** The position of [name] among the first [count] names of the array. *)
Definition find_name (names count : Z) (name : cstring) : prog (dom H) (option Z) :=
  loop (fun i =>
    if i <? count then
      let* a := get_slot names i in
      let* eq := str_eq (Ptr a) name in
      if (eq : bool) then ret (Done (Some i)) else ret (Next (u64 (i + 1)))
    else ret (Done None)) 0.

Definition strdup_or_null (value : cstring) : prog (dom H) Z :=
  if negb (is_null value) then strdup value else ret 0.

Definition dom_node_set_attribute (node : Z) (name value : cstring) : prog (dom H) unit :=
  if (node =? 0) || is_null name then ret tt
  else
    let* n := get_node node in
    let* found := find_name (n_attr_names n) (n_attr_count n) name in
    match found with
    | Some i =>
        let* old := get_slot (n_attr_values n) i in
        free old ;;
        let* v := strdup_or_null value in
        put_slot (n_attr_values n) i v
    | None =>
        let* names := realloc_ptrs (n_attr_names n) (u64 (u64 (n_attr_count n + 1) * 8)) in
        upd_node node (fun n => n_with_attrs names (n_attr_values n) (n_attr_count n) n) ;;
        let* n := get_node node in
        let* values := realloc_ptrs (n_attr_values n) (u64 (u64 (n_attr_count n + 1) * 8)) in
        upd_node node (fun n => n_with_attrs (n_attr_names n) values (n_attr_count n) n) ;;
        let* a := strdup name in
        put_slot names (n_attr_count n) a ;;
        let* v := strdup_or_null value in
        put_slot values (n_attr_count n) v ;;
        upd_node node (fun n => n_with_attrs (n_attr_names n) (n_attr_values n) (u64 (n_attr_count n + 1)) n)
    end.

Definition dom_node_get_attribute (node : Z) (name : cstring) : prog (dom H) Z :=
  if (node =? 0) || is_null name then ret 0
  else
    let* n := get_node node in
    let* found := find_name (n_attr_names n) (n_attr_count n) name in
    match found with
    | Some i => get_slot (n_attr_values n) i
    | None => ret 0
    end.

(** ** Classes *)

Definition dom_node_add_class (node : Z) (class_name : cstring) : prog (dom H) unit :=
  if (node =? 0) || is_null class_name then ret tt
  else
    let* n := get_node node in
    let* found := find_name (n_class_names n) (n_class_count n) class_name in
    match found with
    | Some _ => ret tt
    | None =>
        let* names := realloc_ptrs (n_class_names n) (u64 (u64 (n_class_count n + 1) * 8)) in
        upd_node node (fun n => n_with_classes names (n_class_count n) n) ;;
        let* c := strdup class_name in
        put_slot names (n_class_count n) c ;;
        upd_node node (fun n => n_with_classes (n_class_names n) (u64 (n_class_count n + 1)) n)
    end.

Definition dom_node_has_class (node : Z) (class_name : cstring) : prog (dom H) bool :=
  if (node =? 0) || is_null class_name then ret false
  else
    let* n := get_node node in
    let* found := find_name (n_class_names n) (n_class_count n) class_name in
    ret (match found with Some _ => true | None => false end).

(** ** Text *)

Definition get_text_data (node : Z) : prog (dom H) Z :=
  let* e := get_ext node in
  match e with IsText d => ret d | _ => fault end.

Definition dom_node_set_text_content (node : Z) (text : cstring) : prog (dom H) unit :=
  if node =? 0 then ret tt
  else
    let* n := get_node node in
    free (n_text_content n) ;;
    let* c := strdup_or_null text in
    upd_node node (n_with_text_content c) ;;
    if decide (n_type n = DOM_NODE_TYPE_TEXT) then
      let* d := get_text_data node in
      free d ;;
      let* d := strdup_or_null text in
      put_ext node (IsText d)
    else ret tt.

Definition dom_node_get_text_content (node : Z) : prog (dom H) Z :=
  if node =? 0 then ret 0
  else
    let* n := get_node node in
    if decide (n_type n = DOM_NODE_TYPE_TEXT) then get_text_data node
    else ret (n_text_content n).

(** ** Events *)

Definition dom_add_event_listener (node : Z) (type : dom_event_type) (handler user_data : Z) : prog (dom H) unit :=
  if (node =? 0) || (handler =? 0) then ret tt
  else
    let* listener := malloc sizeof_dom_event_listener in
    init_obj listener (Listener (DomListener type handler user_data false false false)) ;;
    let* n := get_node node in
    let* l := realloc_ptrs (n_event_listeners n) (u64 (u64 (n_event_listener_count n + 1) * 8)) in
    upd_node node (fun n => n_with_listeners l (n_event_listener_count n) n) ;;
    put_slot l (n_event_listener_count n) listener ;;
    upd_node node (fun n => n_with_listeners (n_event_listeners n) (u64 (n_event_listener_count n + 1)) n).

Definition dom_dispatch_event (target event : Z) : prog (dom H) unit :=
  if (target =? 0) || (event =? 0) then ret tt
  else
    upd_event event (ev_with_target target target 0) ;;
    for_node target n_event_listener_count (fun n i =>
      let* a := get_slot (n_event_listeners n) i in
      let* l := get_listener a in
      let* e := get_event event in
      if decide (li_type l = ev_type e) then call_handler (li_handler l) event (li_user_data l)
      else ret tt).

Definition dom_event_create (type : dom_event_type) : prog (dom H) Z :=
  let* event := malloc sizeof_dom_event in
  if event =? 0 then ret 0
  else
    init_obj event (Event zero_event) ;;
    upd_event event (ev_with_created type true true) ;;
    ret event.

(** [data.change] of a cleared union is two null pointers. *)
Definition change_values (d : event_data) : option (Z * Z) :=
  match d with
  | NoData => Some (0, 0)
  | Change o n => Some (o, n)
  | _ => None
  end.

Definition dom_event_destroy (event : Z) : prog (dom H) unit :=
  if event =? 0 then ret tt
  else
    let* e := get_event event in
    (if decide (ev_type e = DOM_EVENT_CHANGE) then
       match change_values (ev_data e) with
       | Some (o, n) => free o ;; free n
       | None => fault
       end
     else ret tt) ;;
    free event.

(** ** Queries *)

Definition dom_node_has_type (type : dom_node_type) (node : Z) : prog (dom H) bool :=
  if node =? 0 then ret false
  else let* n := get_node node in ret (bool_decide (n_type n = type)).
Definition dom_node_is_element : Z -> prog (dom H) bool := dom_node_has_type DOM_NODE_TYPE_ELEMENT.
Definition dom_node_is_text : Z -> prog (dom H) bool := dom_node_has_type DOM_NODE_TYPE_TEXT.
Definition dom_node_is_document : Z -> prog (dom H) bool := dom_node_has_type DOM_NODE_TYPE_DOCUMENT.

Fixpoint dom_node_get_element_by_id_recursive (fuel : nat) (node : Z) (id : cstring) : prog (dom H) Z :=
  match fuel with
  | O => spin
  | S fuel =>
      if (node =? 0) || is_null id then ret 0
      else
        let* n := get_node node in
        let* element := dom_node_is_element node in
        let* eq := (if element && negb (n_id n =? 0) then str_eq (Ptr (n_id n)) id else ret false) in
        if (eq : bool) then ret node
        else
          loop (fun child =>
            if negb (child =? 0) then
              let* result := dom_node_get_element_by_id_recursive fuel child id in
              if negb (result =? 0) then ret (Done result)
              else let* c := get_node child in ret (Next (n_next_sibling c))
            else ret (Done 0)) (n_first_child n)
  end.

Definition dom_document_get_element_by_id (doc : Z) (id : cstring) : prog (dom H) Z :=
  if (doc =? 0) || is_null id then ret 0
  else
    let* d := get_node doc in
    let* fuel := destroy_fuel in
    dom_node_get_element_by_id_recursive fuel (n_first_child d) id.
End Dom.

(** No handlers: for the examples. *)
Definition no_handlers {H} : Handlers H := {| call_handler := fun _ _ _ => ret tt |}.
