(* ===== verification/DomTree.v ===== *)
(** * The tree of the DOM: appending and removing children

    [family m K] says that the links of the nodes in [m] are those of nodes
    with the lists [K a] of children: the sibling links run through [K a],
    [first_child] and [last_child] are its ends, and [parent] points back.
    [acyclic K] says that no node is below itself; both together, that the
    nodes form a forest.  [dom_node_append_child] and [dom_node_remove_child]
    change one list and keep all else; an append keeps the forest exactly when
    the new parent is not below the child, which the code does not look at. *)

From S2P Require Import Prelude CMem Links Alloc DomObj Dom.

#[export] Instance dom_node_linked : Linked dom_node := {|
  l_next := n_next_sibling; l_prev := n_prev_sibling;
  l_set_next := n_with_next_sibling; l_set_prev := n_with_prev_sibling;
  l_next_next := fun _ _ => eq_refl; l_prev_next := fun _ _ => eq_refl;
  l_next_prev := fun _ _ => eq_refl; l_prev_prev := fun _ _ => eq_refl;
|}.

Record family (m : gmap Z dom_node) (K : Z -> list Z) : Prop := {
  f_first : forall a n, m !! a = Some n -> seg m 0 (n_first_child n) (K a) 0;
  f_last : forall a n, m !! a = Some n -> n_last_child n = last_or 0 (K a);
  f_nodup : forall a, NoDup (K a);
  f_self : forall a, a ∉ K a;
  f_parent : forall a c, c ∈ K a -> exists nc, m !! c = Some nc /\ n_parent nc = a;
  f_child : forall c nc, m !! c = Some nc -> n_parent nc <> 0 ->
    is_Some (m !! n_parent nc) /\ c ∈ K (n_parent nc);
  f_root : forall c nc, m !! c = Some nc -> n_parent nc = 0 ->
    n_prev_sibling nc = 0 /\ n_next_sibling nc = 0;
  f_null : m !! 0 = None;
  f_none : K 0 = [];
}.

Definition without (c : Z) (l : list Z) : list Z := filter (fun x => x <> c) l.

Lemma without_out c l : c ∉ l -> without c l = l.
Proof using Type.
  unfold without. induction l as [|x l IH]; [done|]. intros [Hx Hl]%not_elem_of_cons.
  rewrite filter_cons_True by auto. by rewrite IH.
Qed.

Lemma without_mid c l1 l2 : NoDup (l1 ++ c :: l2) -> without c (l1 ++ c :: l2) = l1 ++ l2.
Proof using Type.
  intros (_ & N12 & N2)%NoDup_app. apply NoDup_cons in N2 as [Nc N2]. unfold without.
  rewrite filter_app, filter_cons_False by naive_solver. f_equal; apply without_out; [|done].
  intros Hx. apply (N12 c); [done|by left].
Qed.

Lemma without_in c l x : x ∈ without c l <-> x ∈ l /\ x <> c.
Proof. unfold without. rewrite list_elem_of_filter. tauto. Qed.

(** ** Forests *)

Definition child_of (K : Z -> list Z) (a c : Z) : Prop := c ∈ K a.
Definition acyclic (K : Z -> list Z) : Prop := forall a, ~ tc (child_of K) a a.

(** Children of a higher rank than their parents make no cycle. *)
Lemma rank_rtc K (rank : Z -> nat) : (forall a c, c ∈ K a -> (rank a < rank c)%nat) ->
  forall a c, rtc (child_of K) a c -> (rank a <= rank c)%nat.
Proof. intros Hr a c. induction 1 as [|a b c Hab _ IH]; [done|]. apply Hr in Hab. lia. Qed.

Lemma acyclic_rank K (rank : Z -> nat) : (forall a c, c ∈ K a -> (rank a < rank c)%nat) -> acyclic K.
Proof.
  intros Hr a Ha. inversion Ha as [? ? H|? b ? H Hb]; subst; [apply Hr in H; lia|].
  apply Hr in H. apply tc_rtc, (rank_rtc K rank Hr) in Hb. lia.
Qed.

Lemma acyclic_subset K K' : (forall a c, c ∈ K' a -> c ∈ K a) -> acyclic K -> acyclic K'.
Proof.
  intros Hs HK a Ha. apply (HK a). revert Ha. generalize a at 2 4. intros b.
  induction 1 as [x y H|x y z H _ IH]; [apply tc_once|eapply tc_l; [|exact IH]]; by apply Hs.
Qed.

(** [c] moves to the end of the children of [p]: this makes a cycle exactly
    when [p] is below [c]. *)
Lemma acyclic_move K p c : acyclic K ->
  let K' := fun a => if decide (a = p) then without c (K p) ++ [c] else without c (K a) in
  acyclic K' <-> ~ rtc (child_of K) c p.
Proof.
  intros HK K'.
  assert (forall x y, child_of K' x y <-> child_of K x y /\ y <> c \/ x = p /\ y = c) as HK'.
  { intros x y. unfold child_of, K'. destruct (decide (x = p)) as [->|]; rewrite ?elem_of_app, ?list_elem_of_singleton, without_in; naive_solver. }
  split.
  - intros Ha Hcp. apply (Ha c). apply tc_rtc_l with p; [|apply tc_once, HK'; auto].
    assert (forall q, rtc (child_of K) c q -> rtc (child_of K') c q) as Hkeep; [|by apply Hkeep].
    apply rtc_ind_r; [done|]. intros x y Hcx Hxy IH. destruct (decide (y = c)) as [->|]; [done|].
    eapply rtc_r; [exact IH|]. apply HK'. auto.
  - intros Hno a Ha.
    assert (forall x y, tc (child_of K') x y -> tc (child_of K) x y \/ rtc (child_of K) x p /\ rtc (child_of K) c y) as Hpath.
    { induction 1 as [x y H|x y z H _ IH]; apply HK' in H as [[H _]|[-> ->]].
      - left. by apply tc_once.
      - right. by split.
      - destruct IH as [IH|[IH1 IH2]]; [left; by eapply tc_l|right]. split; [by eapply rtc_l|done].
      - destruct IH as [IH|[IH1 _]]; [right; split; [done|by apply tc_rtc]|done]. }
    destruct (Hpath a a Ha) as [H|[H1 H2]]; [by apply (HK a)|]. apply Hno. by trans a.
Qed.

(** A node without its place in the tree. *)
Definition uprooted (n : dom_node) : dom_node :=
  n_with_parent 0 (n_with_first_child 0 (n_with_last_child 0
    (n_with_prev_sibling 0 (n_with_next_sibling 0 n)))).

(** The children of [p] become [l], where [c] is in or out. *)
Lemma family_update m m' K p c l np' nc' : family m K ->
  p <> c -> m' !! p = Some np' -> m' !! c = Some nc' ->
  (forall a, is_Some (m' !! a) <-> is_Some (m !! a)) ->
  (forall a n n', m !! a = Some n -> m' !! a = Some n' -> a ∉ K p -> a <> c ->
     n_next_sibling n' = n_next_sibling n /\ n_prev_sibling n' = n_prev_sibling n) ->
  (forall a n n', m !! a = Some n -> m' !! a = Some n' -> a <> p ->
     n_first_child n' = n_first_child n /\ n_last_child n' = n_last_child n) ->
  (forall a n n', m !! a = Some n -> m' !! a = Some n' -> a <> c -> n_parent n' = n_parent n) ->
  seg m' 0 (n_first_child np') l 0 -> n_last_child np' = last_or 0 l -> NoDup l ->
  (forall x, x ∈ l <-> (x ∈ K p /\ x <> c) \/ (x = c /\ n_parent nc' = p)) ->
  (forall a, a <> p -> c ∉ K a) ->
  (n_parent nc' = p \/ n_parent nc' = 0 /\ n_prev_sibling nc' = 0 /\ n_next_sibling nc' = 0) ->
  family m' (fun a => if decide (a = p) then l else K a).
Proof.
  intros F Hpc Hp Hc Hdom Hlink Hends Hpar Hs Hl Hnd Hin Hout Hnc.
  assert (forall a n', m' !! a = Some n' -> exists n, m !! a = Some n) as Hback
    by (intros a n' E; apply (Hdom a); by exists n').
  assert (forall a x, a <> p -> x ∈ K a -> x ∉ K p) as Hdisj.
  { intros a x Ha Hx Hx'. destruct (f_parent _ _ F a x Hx) as (n & Hn & <-).
    destruct (f_parent _ _ F p x Hx') as (n' & Hn' & ?). congruence. }
  assert (m' !! 0 = None) as H0.
  { destruct (m' !! 0) eqn:E; [|done]. destruct (Hback _ _ E) as [n E'].
    by rewrite (f_null _ _ F) in E'. }
  split.
  - intros a n' Hn'. destruct (decide (a = p)) as [->|Ha]; [by simplify_eq|].
    destruct (Hback _ _ Hn') as [n Hn]. destruct (Hends a n n' Hn Hn' Ha) as [-> _].
    apply seg_ext with (m := m); [|by apply (f_first _ _ F)].
    intros x t Hx Ht. destruct (proj2 (Hdom x) (ex_intro _ _ Ht)) as [t' Ht']. exists t'. split; [done|].
    apply (Hlink x t t' Ht Ht'); [by eapply Hdisj|]. intros ->. by apply (Hout a Ha).
  - intros a n' Hn'. destruct (decide (a = p)) as [->|Ha]; [by simplify_eq|].
    destruct (Hback _ _ Hn') as [n Hn]. destruct (Hends a n n' Hn Hn' Ha) as [_ ->]. by apply (f_last _ _ F).
  - intros a. destruct (decide (a = p)); [done|]. apply (f_nodup _ _ F).
  - intros a. destruct (decide (a = p)) as [->|]; [|apply (f_self _ _ F)].
    rewrite Hin. intros [[Hx _]|[? _]]; [|done]. by apply (f_self _ _ F p).
  - intros a x Hx. assert (x = c /\ n_parent nc' = a \/ x <> c /\ x ∈ K a) as [[-> ?]|[Hxc Hx']].
    { destruct (decide (a = p)) as [->|Ha]; [apply Hin in Hx; naive_solver|].
      right. split; [|done]. intros ->. by apply (Hout a Ha). }
    + by exists nc'.
    + destruct (f_parent _ _ F a x Hx') as (n & Hn & E).
      destruct (proj2 (Hdom x) (ex_intro _ _ Hn)) as [n' Hn']. exists n'. split; [done|].
      by rewrite (Hpar x n n').
  - intros x n' Hn' H1. destruct (decide (x = c)) as [->|Hx].
    + simplify_eq. destruct Hnc as [E|[E _]]; [|done]. rewrite E. rewrite decide_True by done.
      split; [by exists np'|]. apply Hin. by right.
    + destruct (Hback _ _ Hn') as [n Hn]. pose proof (Hpar x n n' Hn Hn' Hx) as Ep. rewrite Ep in *.
      destruct (f_child m K F x n Hn H1) as [Hd Hk]. split; [by apply Hdom|].
      destruct (decide (n_parent n = p)) as [E|]; [|done]. apply Hin. left. by rewrite <- E.
  - intros x n' Hn' H1. destruct (decide (x = c)) as [->|Hx].
    + simplify_eq. destruct Hnc as [E|[E ?]]; [|done]. exfalso. congruence.
    + destruct (Hback _ _ Hn') as [n Hn]. rewrite (Hpar x n n' Hn Hn' Hx) in H1.
      assert (x ∉ K p) as Hk.
      { intros Hk. destruct (f_parent _ _ F p x Hk) as (n2 & Hn2 & E). simplify_eq.
        destruct (Hdom (n_parent n)) as [[? Hd] _]; [by exists np'|]. rewrite H1, (f_null _ _ F) in Hd. done. }
      destruct (Hlink x n n' Hn Hn' Hk Hx) as [-> ->]. by apply (f_root m K F x n).
  - done.
  - rewrite decide_False by (intros <-; congruence). apply (f_none _ _ F).
Qed.

Lemma node_nonzero m K a n : family m K -> m !! a = Some n -> (a =? 0) = false.
Proof. intros F Hn. apply Z.eqb_neq. intros ->. by rewrite (f_null _ _ F) in Hn. Qed.

(** ** Programs on the nodes *)

Section Tree.
Context {H : Type} `{LibcHeap H} `{!Handlers H}.
Implicit Types (s : dom H).

Definition node_of (o : obj) : option dom_node :=
  match o with Node n _ => Some n | _ => None end.
Definition node_map s : gmap Z dom_node := omap node_of (objs s).

(** Everything but the places of the nodes in the tree. *)
Definition strip (o : obj) : obj :=
  match o with Node n e => Node (uprooted n) e | _ => o end.
Definition same_rest s s' : Prop := heap s' = heap s /\ strip <$> objs s' = strip <$> objs s.

Lemma same_rest_trans s1 s2 s3 : same_rest s1 s2 -> same_rest s2 s3 -> same_rest s1 s3.
Proof using Type. unfold same_rest. intros [-> E1] [-> E2]. by rewrite E2. Qed.

Lemma same_rest_refl s : same_rest s s.
Proof using Type. done. Qed.

Lemma node_map_Some s a n : node_map s !! a = Some n <-> exists e, objs s !! a = Some (Node n e).
Proof using Type.
  unfold node_map. rewrite lookup_omap. destruct (objs s !! a) as [[]|]; cbn; naive_solver.
Qed.

Lemma wp_dom_get_node s a n (Q : dom_node -> dom H -> Prop) :
  node_map s !! a = Some n -> Q n s -> wp (get_node a) Q s.
Proof using Type.
  intros [e He]%node_map_Some HQ. apply wp_bind, wp_getf with (Node n e); [done|]. by apply wp_ret.
Qed.

Lemma wp_upd_node s a n f (Q : unit -> dom H -> Prop) :
  node_map s !! a = Some n -> uprooted (f n) = uprooted n ->
  (forall s', node_map s' = alter f a (node_map s) -> same_rest s s' -> Q tt s') -> wp (upd_node a f) Q s.
Proof using Type.
  intros Hn Hf HQ. pose proof Hn as [e He]%node_map_Some.
  apply wp_bind, wp_getf with (Node n e); [done|]. cbn. apply wp_modify, HQ.
  - rewrite (alter_insert _ _ _ n) by done. unfold node_map. cbn. by rewrite (omap_insert_Some _ _ _ _ (f n)).
  - split; [done|]. cbn. rewrite fmap_insert. cbn. rewrite Hf. apply insert_id.
    by rewrite lookup_fmap, He.
Qed.

(** Steps that the code takes under a condition. *)
Lemma wp_upd_node_if (b : bool) s a f (Q : unit -> dom H -> Prop) :
  (b = true -> exists n, node_map s !! a = Some n /\ uprooted (f n) = uprooted n) ->
  (forall s', node_map s' = (if b then alter f a (node_map s) else node_map s) ->
     same_rest s s' -> Q tt s') ->
  wp (if b then upd_node a f else ret tt) Q s.
Proof using Type.
  intros Hb HQ. destruct b; [|by apply wp_ret, HQ].
  destruct Hb as (n & Hn & Hf); [done|]. by eapply wp_upd_node.
Qed.

(** [first_child] and [last_child] of the parent of [c], once [c] is cut out. *)
Definition cut_ends (c : dom_node) (p : dom_node) : dom_node :=
  let p1 := if n_prev_sibling c =? 0 then n_with_first_child (n_next_sibling c) p else p in
  if n_next_sibling c =? 0 then n_with_last_child (n_prev_sibling c) p1 else p1.

Lemma family_ends m K p c l1 l2 np nc : family m K -> K p = l1 ++ c :: l2 ->
  m !! p = Some np -> m !! c = Some nc ->
  (n_first_child np =? c) = (n_prev_sibling nc =? 0) /\
  (n_last_child np =? c) = (n_next_sibling nc =? 0).
Proof using Type.
  intros F HK Hp Hc. pose proof (f_first _ _ F p np Hp) as Hs. rewrite (f_last _ _ F p np Hp).
  pose proof (f_nodup _ _ F p) as Hnd. rewrite HK in *.
  apply seg_mid in Hs as Hm. destruct Hm as (nc' & Hc' & Hc0 & Hprev & H1 & H2). simplify_eq.
  cbn [l_prev dom_node_linked] in Hprev. cbn [l_next dom_node_linked] in H2.
  apply NoDup_app in Hnd as (_ & N12 & N2). apply NoDup_cons in N2 as [Nc _]. split.
  - rewrite Hprev. apply seg_head in Hs as Hh. destruct l1 as [|b l1]; cbn [app] in Hh; rewrite Hh.
    + by rewrite Z.eqb_refl.
    + destruct (seg_lookup _ _ _ _ _ b H1 (list_elem_of_here _ _)) as [Hb _].
      destruct (seg_lookup _ _ _ _ _ (last_or 0 (b :: l1)) H1 (last_or_in 0 (b :: l1) ltac:(done))) as [Hl _].
      rewrite (proj2 (Z.eqb_neq _ 0)) by done. apply Z.eqb_neq. intros ->. apply (N12 c); by left.
  - rewrite last_or_app, last_or_cons. destruct l2 as [|d l2].
    + cbn in H2. rewrite H2. unfold last_or. cbn. by rewrite Z.eqb_refl.
    + destruct H2 as (-> & Hd & _). rewrite (proj2 (Z.eqb_neq d 0)) by done. apply Z.eqb_neq.
      rewrite last_or_cons. intros E. apply Nc. rewrite <- E. destruct l2 as [|x l2]; [by left|].
      right. by apply last_or_in.
Qed.

Lemma wp_unlink_ends s K p c l1 l2 np nc (Q : unit -> dom H -> Prop) :
  family (node_map s) K -> K p = l1 ++ c :: l2 -> p <> c ->
  node_map s !! p = Some np -> node_map s !! c = Some nc ->
  (forall s', node_map s' = alter (cut_ends nc) p (node_map s) -> same_rest s s' -> Q tt s') ->
  wp (unlink_ends p c) Q s.
Proof using Type.
  intros F HK Hpc Hp Hc HQ. destruct (family_ends _ _ _ _ _ _ _ _ F HK Hp Hc) as [E1 E2].
  unfold unlink_ends. apply wp_bind. eapply wp_dom_get_node; [done|]. rewrite E1.
  apply wp_bind. eapply wp_mono with (P := fun _ s1 => same_rest s s1 /\
    node_map s1 = if n_prev_sibling nc =? 0 then alter (n_with_first_child (n_next_sibling nc)) p (node_map s) else node_map s).
  { destruct (n_prev_sibling nc =? 0); [|by apply wp_ret]. apply wp_bind. eapply wp_dom_get_node; [done|].
    eapply wp_upd_node; [done|done|]. auto. }
  intros _ s1 [R1 M1].
  assert (node_map s1 !! c = Some nc) as Hc1
    by (rewrite M1; destruct (n_prev_sibling nc =? 0); [by rewrite lookup_alter_ne|done]).
  assert (exists np1, node_map s1 !! p = Some np1 /\ n_last_child np1 = n_last_child np) as (np1 & Hp1 & El).
  { rewrite M1. destruct (n_prev_sibling nc =? 0); [|by eauto]. rewrite lookup_alter_eq, Hp. by eexists. }
  apply wp_bind. eapply wp_dom_get_node; [done|]. rewrite El, E2. unfold cut_ends in HQ.
  destruct (n_next_sibling nc =? 0).
  - apply wp_bind. eapply wp_dom_get_node; [done|]. eapply wp_upd_node; [done|done|].
    intros s2 M2 R2. apply HQ; [|by eapply same_rest_trans]. rewrite M2, M1.
    destruct (n_prev_sibling nc =? 0); [|done]. by rewrite alter_alter.
  - apply wp_ret, HQ; [|done]. rewrite M1. destruct (n_prev_sibling nc =? 0); [done|]. by rewrite alter_id.
Qed.

Lemma wp_unlink_siblings s c nc (Q : unit -> dom H -> Prop) :
  node_map s !! c = Some nc -> n_prev_sibling nc <> c ->
  (n_prev_sibling nc <> 0 -> is_Some (node_map s !! n_prev_sibling nc)) ->
  (n_next_sibling nc <> 0 -> is_Some (node_map s !! n_next_sibling nc)) ->
  (forall s', node_map s' = cut_links nc (node_map s) -> same_rest s s' -> Q tt s') ->
  wp (unlink_siblings c) Q s.
Proof using Type.
  intros Hc Hpc Hpr Hnx HQ. unfold unlink_siblings.
  apply wp_bind. eapply wp_dom_get_node; [done|]. apply wp_bind, wp_upd_node_if.
  { intros Hb%negb_true_iff%Z.eqb_neq. destruct (Hpr Hb) as [n Hn]. by exists n. }
  intros s1 M1 R1.
  assert (node_map s1 !! c = Some nc) as Hc1
    by (rewrite M1; destruct (negb _); [by rewrite lookup_alter_ne|done]).
  apply wp_bind. eapply wp_dom_get_node; [done|]. apply wp_upd_node_if.
  { intros Hb%negb_true_iff%Z.eqb_neq. assert (is_Some (node_map s1 !! n_next_sibling nc)) as [n Hn]
      by (rewrite M1; destruct (negb _); [rewrite lookup_alter_is_Some|]; auto).
    by exists n. }
  intros s2 M2 R2. apply HQ; [|by eapply same_rest_trans].
  rewrite M2, M1. unfold cut_links. cbn [l_prev l_next l_set_prev l_set_next dom_node_linked].
  by destruct (n_prev_sibling nc =? 0), (n_next_sibling nc =? 0).
Qed.

Lemma wp_unlink_child s K p c l1 l2 np nc (Q : unit -> dom H -> Prop) :
  family (node_map s) K -> K p = l1 ++ c :: l2 ->
  node_map s !! p = Some np -> node_map s !! c = Some nc ->
  (forall s', node_map s' = cut_links nc (alter (cut_ends nc) p (node_map s)) -> same_rest s s' -> Q tt s') ->
  wp (unlink_child p c) Q s.
Proof using Type.
  intros F HK Hp Hc HQ.
  assert (p <> c) as Hpc by (intros ->; apply (f_self _ _ F c); rewrite HK; set_solver).
  pose proof (f_first _ _ F p np Hp) as Hs. rewrite HK in Hs.
  apply seg_mid in Hs as (nc' & Hc' & Hc0 & Hprev & H1 & H2). simplify_eq.
  cbn [l_prev dom_node_linked] in Hprev. cbn [l_next dom_node_linked] in H2.
  pose proof (f_nodup _ _ F p) as Hnd. rewrite HK in Hnd. apply NoDup_app in Hnd as (_ & N12 & _).
  apply wp_bind. eapply wp_unlink_ends; [done..|]. intros s1 M1 R1.
  apply wp_unlink_siblings with nc; rewrite ?M1.
  - by rewrite lookup_alter_ne.
  - intros E. rewrite Hprev in E. apply (N12 c); [|by left]. rewrite <- E at 1. apply last_or_in.
    intros ->. by rewrite <- E in Hc0.
  - intros Hb. rewrite lookup_alter_is_Some, Hprev in *.
    by apply (seg_lookup _ _ _ _ _ _ H1), last_or_in; intros ->.
  - intros Hb. rewrite lookup_alter_is_Some. pose proof (seg_head _ _ _ _ _ H2) as E.
    destruct l2 as [|d l2]; [done|]. rewrite E. by apply (seg_lookup _ _ _ _ _ d H2 (list_elem_of_here _ _)).
  - intros s2 M2 R2. apply HQ; [done|by eapply same_rest_trans].
Qed.
(** *** Removing a child *)

(** The neighbours of a child are children of the same parent. *)
Lemma family_neighbours m K p c l1 l2 nc : family m K -> K p = l1 ++ c :: l2 -> m !! c = Some nc ->
  (n_prev_sibling nc <> 0 -> n_prev_sibling nc ∈ l1) /\ (n_next_sibling nc <> 0 -> n_next_sibling nc ∈ l2) /\
  n_parent nc = p.
Proof using Type.
  intros F HK Hc. destruct (f_parent _ _ F p c) as (nc' & Hc' & Hp); [rewrite HK; set_solver|]. simplify_eq.
  destruct (m !! n_parent nc) as [np|] eqn:Ep.
  - pose proof (f_first _ _ F _ np Ep) as Hs. rewrite HK in Hs.
    apply seg_mid in Hs as (nc' & Hc' & Hc0 & Hprev & H1 & H2). simplify_eq.
    cbn [l_prev dom_node_linked] in Hprev. cbn [l_next dom_node_linked] in H2. split; [|split; [|done]].
    + intros Hb. rewrite Hprev in *. apply last_or_in. by intros ->.
    + intros Hb. rewrite (seg_head _ _ _ _ _ H2) in *. destruct l2 as [|d l2]; [done|]. by left.
  - destruct (decide (n_parent nc = 0)) as [E|E].
    + destruct (f_root _ _ F c nc Hc E) as [-> ->]. done.
    + destruct (f_child _ _ F c nc Hc E) as [[? ?] _]. congruence.
Qed.

(** Links outside the list are not touched by cutting a child out. *)
Lemma cut_other m c x n n' : m !! x = Some n -> cut_links c m !! x = Some n' ->
  n_first_child n' = n_first_child n /\ n_last_child n' = n_last_child n /\ n_parent n' = n_parent n /\
  (x <> n_prev_sibling c -> n_next_sibling n' = n_next_sibling n) /\
  (x <> n_next_sibling c -> n_prev_sibling n' = n_prev_sibling n).
Proof using Type.
  intros Hn. unfold cut_links. cbn [l_prev l_next l_set_prev l_set_next dom_node_linked].
  generalize (n_prev_sibling c) (n_next_sibling c). intros a b. destruct (a =? 0), (b =? 0);
    rewrite ?lookup_alter, ?Hn; repeat case_decide; intros Hn'; subst; rewrite ?Hn in Hn';
    cbn in Hn'; simplify_eq/=; naive_solver.
Qed.

Lemma cut_is_Some m c x : is_Some (cut_links c m !! x) <-> is_Some (m !! x).
Proof using Type.
  unfold cut_links. by destruct (l_prev c =? 0), (l_next c =? 0); rewrite ?lookup_alter_is_Some.
Qed.

(** The map after a removal. *)
Definition removed (p c : Z) (nc : dom_node) (m : gmap Z dom_node) : gmap Z dom_node :=
  alter (fun n => n_with_next_sibling 0 (n_with_prev_sibling 0 (n_with_parent 0 n))) c
    (cut_links nc (alter (cut_ends nc) p m)).

Lemma removed_is_Some p c nc m x : is_Some (removed p c nc m !! x) <-> is_Some (m !! x).
Proof using Type. unfold removed. by rewrite lookup_alter_is_Some, cut_is_Some, lookup_alter_is_Some. Qed.

(** What a removal keeps of the nodes. *)
Lemma removed_lookup p c nc m x n n' : m !! x = Some n -> removed p c nc m !! x = Some n' ->
  n_first_child n' = n_first_child (if decide (x = p) then cut_ends nc n else n) /\
  n_last_child n' = n_last_child (if decide (x = p) then cut_ends nc n else n) /\
  (x <> c -> n_parent n' = n_parent n /\
     (x <> n_prev_sibling nc -> n_next_sibling n' = n_next_sibling n) /\
     (x <> n_next_sibling nc -> n_prev_sibling n' = n_prev_sibling n)).
Proof using Type.
  intros Hn Hn'. set (n1 := if decide (x = p) then cut_ends nc n else n).
  assert (alter (cut_ends nc) p m !! x = Some n1) as Hn1.
  { subst n1. destruct (decide (x = p)) as [->|]; [by rewrite lookup_alter_eq, Hn|by rewrite lookup_alter_ne]. }
  destruct (proj2 (cut_is_Some _ nc x) (ex_intro _ _ Hn1)) as [n2 Hn2].
  destruct (cut_other _ _ _ _ _ Hn1 Hn2) as (E1 & E2 & E3 & Hnx & Hpr).
  assert (n_parent n1 = n_parent n /\ n_next_sibling n1 = n_next_sibling n /\
    n_prev_sibling n1 = n_prev_sibling n) as (Ea & Eb & Ec).
  { subst n1. destruct (decide (x = p)); [|done]. unfold cut_ends.
    by destruct (n_prev_sibling nc =? 0), (n_next_sibling nc =? 0). }
  rewrite Ea, Eb, Ec in *. unfold removed in Hn'. rewrite lookup_alter in Hn'.
  destruct (decide (c = x)) as [->|Hx]; rewrite Hn2 in Hn'; cbn in Hn'; simplify_eq/=; naive_solver.
Qed.

Lemma removed_child p c nc m : is_Some (m !! c) ->
  exists nc', removed p c nc m !! c = Some nc' /\ n_parent nc' = 0 /\
    n_prev_sibling nc' = 0 /\ n_next_sibling nc' = 0.
Proof using Type.
  intros Hc. unfold removed. rewrite lookup_alter_eq.
  destruct (proj2 (cut_is_Some (alter (cut_ends nc) p m) nc c)) as [n2 ->]; [|by eexists].
  by rewrite lookup_alter_is_Some.
Qed.

(** The list of the parent after a removal. *)
Lemma removed_list m K p c l1 l2 np nc : family m K -> m !! p = Some np -> K p = l1 ++ c :: l2 ->
  m !! c = Some nc ->
  seg (removed p c nc m) 0 (n_first_child (cut_ends nc np)) (l1 ++ l2) 0 /\
  n_last_child (cut_ends nc np) = last_or 0 (l1 ++ l2).
Proof using Type.
  intros F Hp HK Hc. pose proof (f_first _ _ F p np Hp) as Hs.
  pose proof (f_nodup _ _ F p) as Hnd. pose proof (f_self _ _ F p) as Hself. rewrite HK in *. split.
  - assert (n_first_child (cut_ends nc np) =
      if n_prev_sibling nc =? 0 then n_next_sibling nc else n_first_child np) as ->
      by (unfold cut_ends; by destruct (n_prev_sibling nc =? 0), (n_next_sibling nc =? 0)).
    assert (seg (alter (cut_ends nc) p m) 0 (n_first_child np) (l1 ++ c :: l2) 0) as Hs1
      by (rewrite (alter_insert m _ p np) by done; by apply seg_insert_ne).
    apply seg_cut with (t := nc) in Hs1; [|done|rewrite lookup_alter_ne by set_solver; done].
    destruct (proj2 (cut_is_Some (alter (cut_ends nc) p m) nc c)) as [n2 Hn2];
      [rewrite lookup_alter_is_Some; by exists nc|].
    unfold removed. rewrite (alter_insert _ _ c n2) by done. apply seg_insert_ne; [|done].
    apply NoDup_app in Hnd as (_ & N12 & N2). apply NoDup_cons in N2 as [Nc N2].
    intros [Hin|Hin]%elem_of_app; [by apply (N12 c Hin); left|done].
  - rewrite last_or_app. pose proof (f_last _ _ F p np Hp) as Hl. rewrite HK, last_or_app, last_or_cons in Hl.
    apply seg_mid in Hs as (nc' & Hc' & _ & Hprev & _ & H2). simplify_eq.
    cbn [l_prev dom_node_linked] in Hprev. cbn [l_next dom_node_linked] in H2. unfold cut_ends.
    destruct l2 as [|d l2].
    + cbn [seg] in H2. rewrite H2. by destruct (n_prev_sibling nc =? 0).
    + destruct H2 as (-> & Hd & _). rewrite (proj2 (Z.eqb_neq d 0)) by done. rewrite last_or_cons in *.
      by destruct (n_prev_sibling nc =? 0).
Qed.

Lemma family_removed m K p c np nc : family m K -> m !! p = Some np -> c ∈ K p -> m !! c = Some nc ->
  family (removed p c nc m) (fun a => if decide (a = p) then without c (K p) else K a).
Proof using Type.
  intros F Hp Hk Hc. apply list_elem_of_split in Hk as (l1 & l2 & HK).
  destruct (family_neighbours _ _ _ _ _ _ _ F HK Hc) as (Hpr & Hnx & Hpar).
  assert (p ∉ l1 ++ c :: l2) as Hpl by (rewrite <- HK; apply (f_self _ _ F)).
  assert (p <> c) as Hpc by set_solver.
  pose proof (f_nodup _ _ F p) as Hnd. rewrite HK in Hnd.
  destruct (proj2 (removed_is_Some p c nc m p) (ex_intro _ _ Hp)) as [np' Hp'].
  destruct (removed_lookup _ _ _ _ _ _ _ Hp Hp') as (Ef & El & _).
  rewrite decide_True in Ef, El by done.
  destruct (removed_child p c nc m) as (nc' & Hc' & P0 & PV0 & NX0); [by exists nc|].
  destruct (removed_list _ _ _ _ _ _ _ _ F Hp HK Hc) as [Hs' Hl'].
  assert (without c (K p) = l1 ++ l2) as Ew by (rewrite HK; by apply without_mid).
  apply family_update with (m := m) (c := c) (np' := np') (nc' := nc'); try done.
  - apply removed_is_Some.
  - intros a n n' Hn Hn' Ha Hac. rewrite HK in Ha.
    destruct (removed_lookup _ _ _ _ _ _ _ Hn Hn') as (_ & _ & Ho). destruct (Ho Hac) as (_ & Enx & Epr).
    assert (forall b, (b <> 0 -> b ∈ l1 \/ b ∈ l2) -> a <> b) as Hab
      by (intros b Hb ->; destruct (decide (b = 0)) as [->|?]; [by rewrite (f_null _ _ F) in Hn|set_solver]).
    split; [apply Enx|apply Epr]; apply Hab; auto.
  - intros a n n' Hn Hn' Ha. destruct (removed_lookup _ _ _ _ _ _ _ Hn Hn') as (E1 & E2 & _).
    by rewrite decide_False in E1, E2.
  - intros a n n' Hn Hn' Ha. destruct (removed_lookup _ _ _ _ _ _ _ Hn Hn') as (_ & _ & Ho). by apply Ho.
  - rewrite Ew, Ef. done.
  - rewrite Ew, El. done.
  - apply NoDup_filter. rewrite HK. done.
  - intros x. unfold without. rewrite list_elem_of_filter, P0.
    assert (p <> 0) by (intros ->; by rewrite (f_null _ _ F) in Hp). naive_solver.
  - intros a Ha Hin. destruct (f_parent _ _ F a c Hin) as (? & ? & ?). congruence.
  - by right.
Qed.

(** [dom_node_remove_child] takes the child out of the list of its parent. *)
Lemma wp_remove_child s K p c np nc (Q : unit -> dom H -> Prop) :
  family (node_map s) K -> node_map s !! p = Some np -> node_map s !! c = Some nc -> c ∈ K p ->
  (forall s', node_map s' = removed p c nc (node_map s) -> same_rest s s' -> Q tt s') ->
  wp (dom_node_remove_child p c) Q s.
Proof using Type.
  intros F Hp Hc Hk HQ. pose proof Hk as (l1 & l2 & HK)%list_elem_of_split.
  destruct (family_neighbours _ _ _ _ _ _ _ F HK Hc) as (_ & _ & Hpar).
  unfold dom_node_remove_child. rewrite (node_nonzero _ K p np), (node_nonzero _ K c nc) by done. cbn [orb].
  do 2 apply wp_bind. eapply wp_dom_get_node; [done|]. apply wp_ret. rewrite Hpar, Z.eqb_refl. cbn [negb].
  apply wp_bind. eapply wp_unlink_child; [done..|]. intros s1 M1 R1.
  assert (is_Some (node_map s1 !! c)) as [n1 Hn1]
    by (rewrite M1, cut_is_Some, lookup_alter_is_Some; by exists nc).
  apply wp_bind. eapply wp_upd_node; [done|done|]. intros s2 M2 R2.
  apply wp_bind. eapply wp_upd_node; [by rewrite M2, lookup_alter_eq, Hn1|done|]. intros s3 M3 R3.
  eapply wp_upd_node; [by rewrite M3, lookup_alter_eq, M2, lookup_alter_eq, Hn1|done|]. intros s4 M4 R4.
  apply HQ; [|by eauto using same_rest_trans].
  rewrite M4, M3, M2, !alter_alter, M1. done.
Qed.
(** *** Appending a child *)

(** The map after a node without a parent is appended. *)
Definition added (p c : Z) (np : dom_node) (m : gmap Z dom_node) : gmap Z dom_node :=
  let m1 := alter (n_with_parent p) c m in
  if n_first_child np =? 0
  then alter (fun n => n_with_last_child c (n_with_first_child c n)) p m1
  else alter (n_with_last_child c) p
         (alter (n_with_prev_sibling (n_last_child np)) c
            (alter (n_with_next_sibling c) (n_last_child np) m1)).

Lemma added_is_Some p c np m x : is_Some (added p c np m !! x) <-> is_Some (m !! x).
Proof using Type. unfold added. by destruct (n_first_child np =? 0); rewrite !lookup_alter_is_Some. Qed.

Lemma added_lookup p c np m x n n' : m !! x = Some n -> added p c np m !! x = Some n' ->
  n_parent n' = (if decide (x = c) then p else n_parent n) /\
  n_first_child n' = (if decide (x = p) then if n_first_child np =? 0 then c else n_first_child n
                      else n_first_child n) /\
  n_last_child n' = (if decide (x = p) then c else n_last_child n) /\
  (n_first_child np = 0 \/ x <> n_last_child np -> n_next_sibling n' = n_next_sibling n) /\
  (n_first_child np = 0 \/ x <> c -> n_prev_sibling n' = n_prev_sibling n).
Proof using Type.
  intros Hn. unfold added. destruct (Z.eqb_spec (n_first_child np) 0) as [E|E].
  - rewrite !lookup_alter. generalize E. clear E. intros _.
    repeat case_decide; subst; rewrite Hn; intros Hn'; cbn in Hn'; simplify_eq/=; naive_solver.
  - generalize dependent (n_last_child np). intros b. rewrite !lookup_alter.
    repeat case_decide; subst; rewrite Hn; intros Hn'; cbn in Hn'; simplify_eq/=; naive_solver.
Qed.

(** The list of the parent after an append. *)
Lemma added_list m K p c np nc : family m K -> m !! p = Some np -> m !! c = Some nc -> p <> c ->
  n_parent nc = 0 ->
  seg (added p c np m) 0 (if n_first_child np =? 0 then c else n_first_child np) (K p ++ [c]) 0.
Proof using Type.
  intros F Hp Hc Hpc Hpar. pose proof (f_first _ _ F p np Hp) as Hs.
  pose proof (f_nodup _ _ F p) as Hnd. pose proof (f_self _ _ F p) as Hself.
  destruct (f_root _ _ F c nc Hc Hpar) as [Hpv Hnx].
  assert (c <> 0) as Hc0 by (intros ->; by rewrite (f_null _ _ F) in Hc).
  assert (c ∉ K p) as Hck.
  { intros Hin. destruct (f_parent _ _ F p c Hin) as (? & ? & E). simplify_eq. rewrite Hpar in Hp.
    by rewrite (f_null _ _ F) in Hp. }
  unfold added. rewrite (f_last _ _ F p np Hp).
  destruct (K p) as [|b l _] using rev_ind.
  - cbn [seg] in Hs. rewrite Hs. cbn [Z.eqb app seg].
    split; [done|]. split; [done|].
    exists (n_with_parent p nc). rewrite lookup_alter_ne, lookup_alter_eq, Hc by done. done.
  - assert (n_first_child np <> 0) as Hf.
    { intros E. rewrite E in Hs. destruct l; destruct Hs as (<- & ? & _); done. }
    rewrite (proj2 (Z.eqb_neq _ 0)) by done. unfold last_or. rewrite last_snoc. cbn [default from_option id].
    assert (p <> b) as Hpb by set_solver. assert (c <> b) as Hcb by set_solver.
    set (m1 := alter (n_with_parent p) c m).
    assert (m1 !! c = Some (n_with_parent p nc)) as Hc1 by (unfold m1; by rewrite lookup_alter_eq, Hc).
    assert (seg m1 0 (n_first_child np) (l ++ [b]) 0) as Hs1
      by (unfold m1; rewrite (alter_insert m _ c nc) by done; by apply seg_insert_ne).
    set (m2 := alter _ c _).
    assert (seg m2 0 (n_first_child np) ((l ++ [b]) ++ [c]) 0) as Hs2
      
      by (change m2 with (alter (l_set_prev b) c (alter (l_set_next c) b m1));
          by apply (seg_snoc m1 (n_first_child np) l b c (n_with_parent p nc))).
    destruct (m2 !! p) as [n2|] eqn:E2.
    + rewrite (alter_insert m2 _ p n2) by done. apply seg_insert_ne; [set_solver|done].
    + exfalso. subst m2 m1. by rewrite !lookup_alter_ne, Hp in E2 by done.
Qed.

Lemma family_added m K p c np nc : family m K -> m !! p = Some np -> m !! c = Some nc -> p <> c ->
  n_parent nc = 0 -> family (added p c np m) (fun a => if decide (a = p) then K p ++ [c] else K a).
Proof using Type.
  intros F Hp Hc Hpc Hpar. pose proof (added_list _ _ _ _ _ _ F Hp Hc Hpc Hpar) as Hs.
  pose proof (added_lookup p c np m) as Hl.
  assert (forall a, c ∉ K a) as Hck.
  { intros a Hin. destruct (f_parent _ _ F a c Hin) as (? & ? & E). simplify_eq.
    rewrite Hpar, (f_none _ _ F) in Hin. by apply elem_of_nil in Hin. }
  assert (n_first_child np <> 0 -> n_last_child np ∈ K p) as Hlast.
  { intros Hf. rewrite (f_last _ _ F p np Hp). apply last_or_in. intros E.
    pose proof (f_first _ _ F p np Hp) as Hs'. rewrite E in Hs'. done. }
  destruct (proj2 (added_is_Some p c np m p) (ex_intro _ _ Hp)) as [np' Hp'].
  destruct (proj2 (added_is_Some p c np m c) (ex_intro _ _ Hc)) as [nc' Hc'].
  destruct (Hl p np np' Hp Hp') as (_ & Ef & El & _). rewrite decide_True in Ef, El by done.
  destruct (Hl c nc nc' Hc Hc') as (Epar & _). rewrite decide_True in Epar by done.
  apply family_update with (m := m) (c := c) (np' := np') (nc' := nc'); try done.
  - apply added_is_Some.
  - intros a n n' Hn Hn' Ha Hac. destruct (Hl a n n' Hn Hn') as (_ & _ & _ & Enx & Epr). split; [|auto].
    apply Enx. destruct (decide (n_first_child np = 0)); [by left|]. right. intros ->. auto.
  - intros a n n' Hn Hn' Ha. destruct (Hl a n n' Hn Hn') as (_ & E1 & E2 & _).
    by rewrite decide_False in E1, E2.
  - intros a n n' Hn Hn' Ha. destruct (Hl a n n' Hn Hn') as (E & _). by rewrite decide_False in E.
  - by rewrite Ef.
  - rewrite El. unfold last_or. by rewrite last_snoc.
  - apply NoDup_app. split; [apply (f_nodup _ _ F)|]. split; [|apply NoDup_singleton].
    intros x Hx ->%list_elem_of_singleton. by apply (Hck p).
  - intros x. rewrite elem_of_app, list_elem_of_singleton. specialize (Hck p). naive_solver.
  - by left.
Qed.

Lemma wp_link_last s K p c np nc (Q : unit -> dom H -> Prop) :
  family (node_map s) K -> node_map s !! p = Some np -> node_map s !! c = Some nc -> p <> c ->
  n_parent nc = 0 ->
  (forall s', node_map s' = added p c np (node_map s) -> same_rest s s' -> Q tt s') ->
  wp (link_last p c) Q s.
Proof using Type.
  intros F Hp Hc Hpc Hpar HQ.
  assert (n_first_child np <> 0 -> n_last_child np ∈ K p) as Hlast.
  { intros Hf. rewrite (f_last _ _ F p np Hp). apply last_or_in. intros E.
    pose proof (f_first _ _ F p np Hp) as Hs'. rewrite E in Hs'. done. }
  apply wp_bind. eapply wp_upd_node; [done|done|]. intros s1 M1 R1.
  assert (node_map s1 !! p = Some np) as Hp1 by (rewrite M1; by rewrite lookup_alter_ne).
  apply wp_bind. eapply wp_dom_get_node; [done|]. unfold added in HQ.
  destruct (Z.eqb_spec (n_first_child np) 0) as [Hf|Hf].
  - apply wp_bind. eapply wp_upd_node; [done|done|]. intros s2 M2 R2.
    eapply wp_upd_node; [by rewrite M2, lookup_alter_eq, Hp1|done|]. intros s3 M3 R3.
    apply HQ; [by rewrite M3, M2, alter_alter, M1|by eauto using same_rest_trans].
  - specialize (Hlast Hf). destruct (f_parent _ _ F p _ Hlast) as (nb & Hnb & Eb).
    assert (n_last_child np <> c) as Hbc by (intros E; rewrite E in Hnb; simplify_eq; by rewrite Hpar, (f_null _ _ F) in Hp).
    assert (n_last_child np <> p) as Hbp by (intros E; rewrite E in Hlast; by apply (f_self _ _ F p)).
    apply wp_bind. eapply wp_upd_node; [rewrite M1; by rewrite lookup_alter_ne|done|]. intros s2 M2 R2.
    apply wp_bind. eapply wp_dom_get_node; [rewrite M2; by rewrite lookup_alter_ne|].
    apply wp_bind. eapply wp_upd_node; [rewrite M2, lookup_alter_ne, M1, lookup_alter_eq, Hc by done; done|done|].
    intros s3 M3 R3.
    eapply wp_upd_node; [rewrite M3, lookup_alter_ne, M2, lookup_alter_ne by done; done|done|]. intros s4 M4 R4.
    apply HQ; [by rewrite M4, M3, M2, M1|by eauto 6 using same_rest_trans].
Qed.
Lemma family_ext m K K' : (forall a, K a = K' a) -> family m K -> family m K'.
Proof using Type.
  intros E F. split; intros; rewrite <- ?E in *.
  - by apply (f_first _ _ F).
  - by apply (f_last _ _ F).
  - apply (f_nodup _ _ F).
  - apply (f_self _ _ F).
  - by apply (f_parent _ _ F).
  - by apply (f_child _ _ F).
  - by apply (f_root _ _ F c).
  - apply (f_null _ _ F).
  - apply (f_none _ _ F).
Qed.

Lemma not_child m K c nc a : family m K -> m !! c = Some nc -> a <> n_parent nc -> c ∉ K a.
Proof using Type. intros F Hc Ha Hin. destruct (f_parent _ _ F a c Hin) as (? & ? & ?). congruence. Qed.

(** *** The two operations on any nodes *)

(** [dom_node_remove_child] on two nodes of a tree takes the child out of
    the list of the parent; on a node that is not a child of [p] it does
    nothing.  All other contents of the store stay, and a forest stays one. *)
Theorem remove_child_correct s K p c : family (node_map s) K -> acyclic K ->
  is_Some (node_map s !! p) -> is_Some (node_map s !! c) ->
  let K' := fun a => if decide (a = p) then without c (K p) else K a in
  exists s', dom_node_remove_child p c s = Ok (tt, s') /\ same_rest s s' /\ family (node_map s') K' /\ acyclic K'.
Proof using Type.
  intros F Ha [np Hp] [nc Hc] K'.
  assert (acyclic K') as Ha'.
  { apply (acyclic_subset K); [|done]. intros a x. unfold K'. destruct (decide (a = p)) as [->|]; [|done].
    rewrite without_in. tauto. }
  enough (exists s', dom_node_remove_child p c s = Ok (tt, s') /\ same_rest s s' /\ family (node_map s') K')
    as (s' & H1 & H2 & H3) by (by exists s').
  apply wp_unit. destruct (decide (c ∈ K p)) as [Hk|Hk].
  - eapply wp_remove_child; [done..|]. intros s' -> R. split; [done|]. by eapply family_removed.
  - assert (n_parent nc <> p) as Hpar.
    { intros E. apply Hk. rewrite <- E. apply (f_child _ _ F c nc Hc).
      intros E0. rewrite <- E, E0, (f_null _ _ F) in Hp. done. }
    unfold dom_node_remove_child. rewrite (node_nonzero _ K p np), (node_nonzero _ K c nc) by done. cbn [orb].
    do 2 apply wp_bind. eapply wp_dom_get_node; [done|]. apply wp_ret.
    rewrite (proj2 (Z.eqb_neq _ _)) by done. cbn [negb]. apply wp_ret. split; [done|].
    eapply family_ext; [|done]. intros a. unfold K'. destruct (decide (a = p)) as [->|]; [|done].
    by rewrite without_out.
Qed.

(** C25: In a forest of nodes, [dom_node_append_child] moves a node, from
    wherever it is, to the end of the list of another node: it leaves the list
    it was in, the links fit the new lists, and all other contents of the
    store stay.  The nodes stay a forest exactly when the new parent is not
    below the node; if it is, the call makes a cycle. *)
Theorem append_child_correct s K p c : family (node_map s) K -> acyclic K ->
  is_Some (node_map s !! p) -> is_Some (node_map s !! c) -> p <> c ->
  let K' := fun a => if decide (a = p) then without c (K p) ++ [c] else without c (K a) in
  exists s', dom_node_append_child p c s = Ok (tt, s') /\ same_rest s s' /\ family (node_map s') K' /\
    (acyclic K' <-> ~ rtc (child_of K) c p).
Proof using Type.
  intros F Ha [np Hp] [nc Hc] Hpc K'. pose proof (acyclic_move K p c Ha) as Ha'.
  enough (exists s', dom_node_append_child p c s = Ok (tt, s') /\ same_rest s s' /\ family (node_map s') K')
    as (s' & H1 & H2 & H3) by (by exists s').
  clear Ha'. subst K'. apply wp_unit. unfold dom_node_append_child.
  rewrite (node_nonzero _ K p np), (node_nonzero _ K c nc) by done. cbn [orb].
  apply wp_bind. eapply wp_dom_get_node; [done|]. destruct (Z.eqb_spec (n_parent nc) 0) as [E|E]; cbn [negb].
  - apply wp_bind, wp_ret. eapply wp_link_last; [done..|]. intros s' -> R. split; [done|].
    assert (forall a, c ∉ K a) as Hck.
    { intros a. destruct (decide (a = 0)) as [->|]; [rewrite (f_none _ _ F); set_solver|].
      eapply not_child; [done..|]. congruence. }
    eapply family_ext; [|by eapply family_added]. intros a. cbn.
    by destruct (decide (a = p)) as [->|]; rewrite without_out.
  - destruct (f_child _ _ F c nc Hc E) as [[nq Hq] Hk]. set (q := n_parent nc) in *.
    apply wp_bind. eapply wp_remove_child; [done..|]. intros s1 M1 R1.
    pose proof (family_removed _ _ _ _ _ _ F Hq Hk Hc) as F1. rewrite <- M1 in F1.
    assert (is_Some (node_map s1 !! p)) as [np1 Hp1] by (rewrite M1, removed_is_Some; by exists np).
    destruct (removed_child q c nc (node_map s)) as (nc1 & Hc1 & P1 & _); [by exists nc|].
    rewrite <- M1 in Hc1.
    eapply wp_link_last; [done..|]. intros s2 M2 R2. split; [by eapply same_rest_trans|]. rewrite M2.
    eapply family_ext; [|by eapply family_added]. intros a. cbn.
    destruct (decide (a = p)) as [->|]; destruct (decide _) as [->|]; try done;
      rewrite ?without_out; try done; eapply not_child; done.
Qed.
End Tree.

(** ** Examples *)

(** Nodes without links are a tree without children. *)
Lemma family_orphans m :
  (forall a n, m !! a = Some n -> a <> 0 /\ n_first_child n = 0 /\ n_last_child n = 0 /\ n_parent n = 0 /\
     n_prev_sibling n = 0 /\ n_next_sibling n = 0) -> family m (fun _ => []).
Proof.
  intros Hm. split; try done.
  - intros a n Hn. by apply Hm in Hn as (? & -> & ?).
  - intros a n Hn. by apply Hm in Hn as (? & ? & -> & ?).
  - intros. apply NoDup_nil_2.
  - intros. apply not_elem_of_nil.
  - intros a c Hc. by apply elem_of_nil in Hc.
  - intros c nc Hc. by apply Hm in Hc as (? & ? & ? & ? & ?).
  - intros c nc Hc. by apply Hm in Hc as (? & ? & ? & ? & ?).
  - destruct (m !! 0) eqn:E; [|done]. by apply Hm in E as [? _].
Qed.

Section Examples.
#[local] Existing Instance counter_heap.
#[local] Existing Instance no_handlers.

(** Three elements, and then the second and the third below the first. *)
Definition three_nodes : dom Z :=
  Dom 64 (<[16 := Node zero_node NodeOnly]> (<[32 := Node zero_node NodeOnly]>
    (<[48 := Node zero_node NodeOnly]> ∅))).
Definition small_tree : dom Z :=
  match (dom_node_append_child 16 32 ;; dom_node_append_child 16 48) three_nodes with
  | Ok (_, s) => s
  | _ => three_nodes
  end.

Lemma three_nodes_family : family (node_map three_nodes) (fun _ => []).
Proof using Type.
  apply family_orphans. intros a n Hn. apply elem_of_map_to_list in Hn. revert Hn.
  vm_compute (map_to_list _). intros Hn. repeat (apply elem_of_cons in Hn as [[= -> ->]|Hn]; [done|]).
  by apply elem_of_nil in Hn.
Qed.

Lemma small_tree_family : family (node_map small_tree) (fun a => if decide (a = 16) then [32; 48] else []).
Proof using Type.
  pose proof (family_added _ _ 16 32 zero_node zero_node three_nodes_family eq_refl eq_refl ltac:(done) eq_refl) as F1.
  assert (exists np nc, added 16 32 zero_node (node_map three_nodes) !! 16 = Some np /\
    added 16 32 zero_node (node_map three_nodes) !! 48 = Some nc /\ n_parent nc = 0 /\
    node_map small_tree = added 16 48 np (added 16 32 zero_node (node_map three_nodes)))
    as (np & nc & Hp & Hc & Hn & ->) by (do 2 eexists; repeat split; by vm_compute).
  eapply family_ext; [|by apply (family_added _ _ 16 48 np nc F1)].
  intros a. cbn. destruct (decide (a = 16)) as [->|]; done.
Qed.

Definition small_kids (a : Z) : list Z := if decide (a = 16) then [32; 48] else [].

(** 16 is above its children. *)
Lemma small_rank a c : c ∈ small_kids a -> ((if decide (a = 16%Z) then 0 else 1) < (if decide (c = 16%Z) then 0 else 1))%nat.
Proof using Type.
  unfold small_kids. destruct (decide (a = 16)); [|by intros ?%elem_of_nil].
  rewrite elem_of_cons, list_elem_of_singleton. intros [-> | ->]; repeat case_decide; lia.
Qed.

Lemma small_tree_acyclic : acyclic small_kids.
Proof using Type. apply (acyclic_rank _ _ small_rank). Qed.

Lemma remove_child_correct_witness :
  exists s', dom_node_remove_child 16 32 small_tree = Ok (tt, s') /\ same_rest small_tree s' /\
    family (node_map s') (fun a => if decide (a = 16) then [48] else small_kids a) /\
    acyclic (fun a => if decide (a = 16) then [48] else small_kids a).
Proof using Type.
  apply (remove_child_correct small_tree _ 16 32 small_tree_family small_tree_acyclic); by eexists.
Defined.

(** The first child is moved behind the second. *)
Lemma append_child_correct_witness :
  exists s', dom_node_append_child 16 32 small_tree = Ok (tt, s') /\ same_rest small_tree s' /\
    family (node_map s') (fun a => if decide (a = 16) then [48; 32] else without 32 (small_kids a)) /\
    acyclic (fun a => if decide (a = 16) then [48; 32] else without 32 (small_kids a)).
Proof using Type.
  destruct (append_child_correct small_tree _ 16 32 small_tree_family small_tree_acyclic) as (s' & H1 & H2 & H3 & H4);
    [by eexists|by eexists|done|].
  exists s'. split; [exact H1|]. split; [exact H2|]. split; [exact H3|]. apply H4.
  intros H. apply (rank_rtc _ _ small_rank) in H. repeat case_decide; lia.
Defined.
End Examples.
