(* ===== verification/DomSpec.v ===== *)
(** * Attribute lists and class lists

    The association lists that the attribute arrays of a node stand for, and
    what the attribute and class operations of the DOM do to them. *)

From S2P Require Import Prelude DomObj.

(** The first position of a name. *)
Fixpoint find_text (t : text) (ts : list text) : option nat :=
  match ts with
  | [] => None
  | u :: ts => if decide (u = t) then Some 0%nat else S <$> find_text t ts
  end.

Lemma find_text_drop t ts k u : ts !! k = Some u ->
  find_text t (drop k ts) = if decide (u = t) then Some 0%nat else S <$> find_text t (drop (S k) ts).
Proof. intros Hu. by rewrite (drop_S ts u k Hu). Qed.


(** ** Attributes *)

(** An attribute gets a value: the first of its name, or a new one. *)
Definition set_attr (k : text) (v : option text) (l : list (text * option text)) : list (text * option text) :=
  match find_text k l.*1 with
  | Some i => <[i := (k, v)]> l
  | None => l ++ [(k, v)]
  end.

(** The value of an attribute; an attribute without a value is as if absent. *)
Definition get_attr (k : text) (l : list (text * option text)) : option text :=
  match find_text k l.*1 with
  | Some i => mjoin (snd <$> l !! i)
  | None => None
  end.

Lemma find_text_Some k ts i : find_text k ts = Some i -> ts !! i = Some k.
Proof.
  revert i. induction ts as [|u ts IH]; intros i; [done|]. cbn. destruct (decide (u = k)) as [->|].
  - by intros [= <-].
  - destruct (find_text k ts) as [j|]; [|done]. intros [= <-]. by apply IH.
Qed.

Lemma find_text_None k ts : find_text k ts = None <-> k ∉ ts.
Proof.
  induction ts as [|u ts IH]; cbn; [split; [intros _; apply not_elem_of_nil|done]|].
  rewrite not_elem_of_cons. destruct (decide (u = k)) as [->|Hu]; [naive_solver|].
  destruct (find_text k ts); cbn; naive_solver.
Qed.

Lemma find_text_app k ts us : k ∉ ts -> find_text k (ts ++ us) = Nat.add (length ts) <$> find_text k us.
Proof.
  induction ts as [|u ts IH]; cbn; [by destruct (find_text k us)|].
  rewrite not_elem_of_cons. intros [Hu Hk]. rewrite decide_False; [|done]. rewrite IH by done. by destruct (find_text k us).
Qed.

Lemma find_text_app_l k ts us i : find_text k ts = Some i -> find_text k (ts ++ us) = Some i.
Proof.
  revert i. induction ts as [|u ts IH]; intros i; cbn; [done|].
  destruct (decide (u = k)); [done|]. destruct (find_text k ts) as [j|]; [|done].
  intros [= <-]. by rewrite (IH j).
Qed.

(** What is set is found; other names are not touched. *)
Lemma get_set_attr k v l : get_attr k (set_attr k v l) = v.
Proof.
  unfold get_attr, set_attr. destruct (find_text k l.*1) as [i|] eqn:E.
  - pose proof (find_text_Some _ _ _ E) as Hi. rewrite list_lookup_fmap in Hi.
    destruct (l !! i) as [[k' v']|] eqn:Hl; [|done]. cbn in Hi. simplify_eq.
    rewrite list_fmap_insert, list_insert_id by (cbn; by rewrite list_lookup_fmap, Hl).
    rewrite E, list_lookup_insert_eq by (by eapply lookup_lt_Some). done.
  - apply find_text_None in E. rewrite fmap_app, find_text_app by done. cbn.
    rewrite decide_True by done. cbn. rewrite Nat.add_0_r, length_fmap, lookup_app_r by done. by rewrite Nat.sub_diag.
Qed.

Lemma get_set_attr_ne k k' v l : k' <> k -> get_attr k' (set_attr k v l) = get_attr k' l.
Proof.
  intros Hk. unfold get_attr, set_attr. destruct (find_text k l.*1) as [i|] eqn:E.
  - pose proof (find_text_Some _ _ _ E) as Hi. rewrite list_lookup_fmap in Hi.
    destruct (l !! i) as [[k0 v']|] eqn:Hl; [|done]. cbn in Hi. simplify_eq.
    rewrite list_fmap_insert, list_insert_id by (cbn; by rewrite list_lookup_fmap, Hl).
    destruct (find_text k' l.*1) as [j|] eqn:E'; [|done].
    rewrite list_lookup_insert_ne; [done|]. intros ->.
    apply find_text_Some in E'. rewrite list_lookup_fmap, Hl in E'. by simplify_eq/=.
  - destruct (find_text k' l.*1) as [j|] eqn:E'.
    + rewrite fmap_app, (find_text_app_l _ _ _ j) by done.
      rewrite lookup_app_l; [done|]. apply find_text_Some, lookup_lt_Some in E'. by rewrite length_fmap in E'.
    + apply find_text_None in E'. rewrite fmap_app, find_text_app by done. cbn.
      by rewrite decide_False.
Qed.

Lemma set_attr_Some k v l i : find_text k l.*1 = Some i ->
  (set_attr k v l).*1 = l.*1 /\ (set_attr k v l).*2 = <[i := v]> l.*2 /\ (i < length l)%nat.
Proof.
  intros E. unfold set_attr. rewrite E, !list_fmap_insert. cbn.
  pose proof (find_text_Some _ _ _ E) as Hi. pose proof (lookup_lt_Some _ _ _ Hi) as Hlt.
  rewrite length_fmap in Hlt. by rewrite list_insert_id.
Qed.

(** ** Classes *)

Definition add_class (c : text) (cs : list text) : list text :=
  match find_text c cs with Some _ => cs | None => cs ++ [c] end.

