(* ===== verification/DomSep.v ===== *)
(** * Separation logic for the objects of the DOM

    The state [dom] as a [Store], the access rules of [DomObj]'s operations,
    and the assertions for strings and for arrays of strings that the DOM and
    the HTML parser share. *)

From S2P Require Import Sep Prelude CMem Alloc DomObj Dom DomSpec.

Section DomSep.
Context {H : Type} `{LibcHeapLaws H} `{!Handlers H}.

#[export] Program Instance dom_store : Store (dom H) obj := {|
  store := objs;
  set_store := set_objs;
  sound s := used (heap s) (base.dom (objs s));
|}.
Next Obligation. done. Qed.
Next Obligation. intros m s Hm Hu. cbn. by rewrite Hm. Qed.

Abbreviation assn := (sprop obj).
Implicit Types (P Q : assn) (a p : Z).

(** ** Access *)

Lemma swp_get_obj a o (Q : obj -> assn) : a ↦ o ∗ (a ↦ o -∗ Q o) ⊢ swp (get_obj a) Q.
Proof using Type. exact (swp_load (S := dom H) a o Q). Qed.

Lemma swp_put_obj a o o' (Q : unit -> assn) : a ↦ o ∗ (a ↦ o' -∗ Q tt) ⊢ swp (put_obj a o') Q.
Proof using Type. exact (swp_store (S := dom H) a o o' Q). Qed.

Lemma swp_malloc n (Q : Z -> assn) : 0 < n ->
  (∀ p, ⌈0 < p⌉ -∗ p ↦ Raw n -∗ Q p) ⊢ swp (malloc n) Q.
Proof using Type.
  intros Hn. split=> σ HQ s σf Hd Hs Hw. apply wp_bind. unfold on_heap, wp at 1.
  pose proof (malloc_law _ _ n Hw Hn) as Hm. unfold wp in Hm.
  destruct (malloc_op n (heap s)) as [[p h]| |]; [|done..]. destruct Hm as (Hp & Hnin & Hu).
  apply not_elem_of_dom in Hnin. cbn in Hs, Hnin. rewrite Hs in Hnin. apply lookup_union_None in Hnin as [Hn1 Hn2].
  apply wp_bind. rewrite (proj2 (Z.eqb_neq p 0)); [|lia]. apply wp_modify, wp_ret. cbn.
  split; [by rewrite /= dom_insert_L|]. exists ({[p := Raw n]} ∪ σ). split.
  - apply map_disjoint_union_l. split; [by apply map_disjoint_singleton_l|done].
  - split; [by rewrite /= Hs -insert_union_singleton_l insert_union_l|].
    rewrite map_union_comm; [|by apply map_disjoint_singleton_l].
    specialize (HQ p ∅ (map_disjoint_empty_r _)). rewrite right_id_L in HQ.
    apply HQ; [split; done| |done]. by apply map_disjoint_singleton_r.
Qed.

Lemma swp_free a o (Q : unit -> assn) : a <> 0 -> a ↦ o ∗ Q tt ⊢ swp (free a) Q.
Proof using Type.
  intros Ha. split. intros σ (σ1 & σ2 & -> & Hd12 & -> & HQ) s σf Hd Hs Hw.
  unfold free. rewrite (proj2 (Z.eqb_neq a 0)) //.
  assert (objs s !! a = Some o) as Hao
    by (cbn in Hs; rewrite Hs; apply lookup_union_Some_l, lookup_union_Some_l, lookup_singleton_eq).
  apply map_disjoint_union_l in Hd as [Hd1 Hd2].
  apply map_disjoint_singleton_l in Hd12 as Ha2. apply map_disjoint_singleton_l in Hd1 as Haf.
  apply wp_bind. apply wp_getf with o; [done|]. apply wp_bind. unfold on_heap, wp at 1.
  pose proof (free_law _ _ a Hw (elem_of_dom_2 _ _ _ Hao)) as Hm. unfold wp in Hm.
  destruct (free_op a (heap s)) as [[[] h]| |]; [|done..]. apply wp_modify. split.
  - by rewrite /= dom_delete_L.
  - exists σ2. split; [done|]. split; [|done]. cbn in *. rewrite Hs -assoc_L -insert_union_singleton_l.
    apply delete_insert_id. by apply lookup_union_None.
Qed.

Lemma swp_free_null (Q : unit -> assn) : Q tt ⊢ swp (free 0) Q.
Proof using Type. apply swp_ret. Qed.

Lemma swp_init_obj a n o (Q : unit -> assn) : sizeof_obj o <= n ->
  a ↦ Raw n -∗ (a ↦ o -∗ Q tt) -∗ swp (init_obj a o) Q.
Proof using Type.
  intros Hn. iIntros "Ha HQ". iApply swp_bind. iApply swp_get_obj. iFrame "Ha". iIntros "Ha".
  rewrite (proj2 (Z.leb_le _ _) Hn). iApply swp_put_obj. iFrame.
Qed.

(** A field access: read the object, check its type, and go on. *)
Ltac access := unfold get_node, get_ext, upd_node, put_ext, get_listener, get_event, upd_event,
    get_token, upd_token, get_parser, upd_parser;
  iIntros "Ha HQ"; repeat iApply swp_bind; iApply swp_get_obj; iFrame "Ha"; iIntros "Ha";
  first [iApply swp_ret; iApply ("HQ" with "Ha")
        |iApply swp_put_obj; iFrame
        |iApply swp_ret; iApply swp_put_obj; iFrame].

Lemma swp_get_node a n e (Q : dom_node -> assn) :
  a ↦ Node n e -∗ (a ↦ Node n e -∗ Q n) -∗ swp (get_node a) Q.
Proof using Type. access. Qed.

Lemma swp_get_ext a n e (Q : node_ext -> assn) :
  a ↦ Node n e -∗ (a ↦ Node n e -∗ Q e) -∗ swp (get_ext a) Q.
Proof using Type. access. Qed.

Lemma swp_upd_node a n e f (Q : unit -> assn) :
  a ↦ Node n e -∗ (a ↦ Node (f n) e -∗ Q tt) -∗ swp (upd_node a f) Q.
Proof using Type. access. Qed.

Lemma swp_put_ext a n e e' (Q : unit -> assn) :
  a ↦ Node n e -∗ (a ↦ Node n e' -∗ Q tt) -∗ swp (put_ext a e') Q.
Proof using Type. access. Qed.

Lemma swp_get_token a t (Q : html_token -> assn) :
  a ↦ Token t -∗ (a ↦ Token t -∗ Q t) -∗ swp (get_token a) Q.
Proof using Type. access. Qed.

Lemma swp_upd_token a t f (Q : unit -> assn) :
  a ↦ Token t -∗ (a ↦ Token (f t) -∗ Q tt) -∗ swp (upd_token a f) Q.
Proof using Type. access. Qed.

Lemma swp_get_parser a (p : html_parser) (Q : html_parser -> assn) :
  a ↦ Parser p -∗ (a ↦ Parser p -∗ Q p) -∗ swp (get_parser a) Q.
Proof using Type. access. Qed.

Lemma swp_upd_parser a (p : html_parser) f (Q : unit -> assn) :
  a ↦ Parser p -∗ (a ↦ Parser (f p) -∗ Q tt) -∗ swp (upd_parser a f) Q.
Proof using Type. access. Qed.

(** ** Arrays *)

Lemma swp_get_slot a l i p (Q : Z -> assn) : l !! i = Some (Some p) ->
  a ↦ Ptrs l -∗ (a ↦ Ptrs l -∗ Q p) -∗ swp (get_slot a (Z.of_nat i)) Q.
Proof using Type.
  intros Hi. iIntros "Ha HQ". iApply swp_bind. iApply swp_get_obj. iFrame "Ha". iIntros "Ha".
  rewrite (proj2 (Z.ltb_ge (Z.of_nat i) 0)); [|lia]. rewrite Nat2Z.id Hi. iApply swp_ret. by iApply "HQ".
Qed.

Lemma swp_put_slot a l i p (Q : unit -> assn) : (i < length l)%nat ->
  a ↦ Ptrs l -∗ (a ↦ Ptrs (<[i := Some p]> l) -∗ Q tt) -∗ swp (put_slot a (Z.of_nat i) p) Q.
Proof using Type.
  intros Hi. iIntros "Ha HQ". iApply swp_bind. iApply swp_get_obj. iFrame "Ha". iIntros "Ha".
  rewrite (proj2 (Z.leb_le 0 (Z.of_nat i))); [|lia]. rewrite (proj2 (Z.ltb_lt (Z.of_nat i) (Z.of_nat (length l)))); [|lia].
  rewrite Nat2Z.id.
  iApply swp_put_obj. iFrame.
Qed.

Lemma swp_move_obj a o o' n (Q : Z -> assn) : 0 < n ->
  a ↦ o -∗ (∀ q, ⌈q <> 0⌉ -∗ q ↦ o' -∗ Q q) -∗ swp (move_obj a n o') Q.
Proof using Type.
  intros Hn. apply bi.entails_wand, bi.wand_intro_r. split.
  intros σ (σ1 & σ2 & -> & Hd12 & -> & HQ) s σf Hd Hs Hw. unfold move_obj.
  assert (objs s !! a = Some o) as Hao
    by (cbn in Hs; rewrite Hs; apply lookup_union_Some_l, lookup_union_Some_l, lookup_singleton_eq).
  apply map_disjoint_union_l in Hd as [Hd1 Hd2].
  apply map_disjoint_singleton_l in Hd12 as Ha2. apply map_disjoint_singleton_l in Hd1 as Haf.
  assert (delete a (objs s) = σ2 ∪ σf) as Hdel.
  { cbn in Hs. rewrite Hs -assoc_L -insert_union_singleton_l. apply delete_insert_id.
    by apply lookup_union_None. }
  apply wp_bind. unfold on_heap, wp at 1.
  pose proof (realloc_law _ _ a n Hw (elem_of_dom_2 _ _ _ Hao) Hn) as Hm. unfold wp in Hm.
  destruct (realloc_op a n (heap s)) as [[q h]| |]; [|done..]. destruct Hm as (Hq & Hnin & Hu).
  rewrite (proj2 (Z.eqb_neq q 0)); [|lia]. apply wp_bind, wp_modify, wp_ret. cbn in *.
  rewrite -dom_delete_L Hdel in Hnin, Hu. apply not_elem_of_dom, lookup_union_None in Hnin as [Hq2 Hqf].
  split; [by rewrite /= Hdel dom_insert_L|]. exists ({[q := o']} ∪ σ2). split.
  - apply map_disjoint_union_l. split; [by apply map_disjoint_singleton_l|done].
  - split; [by rewrite /= Hdel -insert_union_singleton_l insert_union_l|].
    specialize (HQ q ∅ (map_disjoint_empty_r _)). rewrite right_id_L in HQ.
    rewrite map_union_comm; [|by apply map_disjoint_singleton_l].
    apply HQ; [split; [done|change (q <> 0); lia]| |done]. by apply map_disjoint_singleton_r.
Qed.

Lemma swp_realloc a l n (Q : Z -> assn) : a <> 0 -> 0 < n ->
  a ↦ Ptrs l -∗
  (∀ q, ⌈q <> 0⌉ -∗ q ↦ Ptrs (take (Z.to_nat (n / 8)) (l ++ replicate (Z.to_nat (n / 8)) None)) -∗ Q q) -∗
  swp (realloc_ptrs a n) Q.
Proof using Type.
  intros Ha Hn. iIntros "Ha HQ". unfold realloc_ptrs. rewrite (proj2 (Z.eqb_neq a 0)) //.
  iApply swp_bind. iApply swp_get_obj. iFrame "Ha". iIntros "Ha". by iApply (swp_move_obj with "Ha").
Qed.

(** An array of the pointers [ps]; none is the null pointer. *)
Definition arr a (ps : list Z) : assn :=
  (⌈a = 0 /\ ps = []⌉ ∨ ⌈a <> 0⌉ ∗ a ↦ Ptrs (Some <$> ps))%I.

(** One more slot. *)
Lemma swp_grow a ps n (Q : Z -> assn) : n = 8 * (Z.of_nat (length ps) + 1) ->
  arr a ps -∗ (∀ q, ⌈q <> 0⌉ -∗ q ↦ Ptrs ((Some <$> ps) ++ [None]) -∗ Q q) -∗ swp (realloc_ptrs a n) Q.
Proof using Type.
  intros ->. assert (8 * (Z.of_nat (length ps) + 1) / 8 = Z.of_nat (S (length ps))) as E
    by (rewrite Z.mul_comm Z.div_mul; lia).
  iIntros "[%Ha|[%Ha Ha]] HQ".
  - destruct Ha as [-> ->]. unfold realloc_ptrs. cbn [Z.eqb]. rewrite E Nat2Z.id. iApply swp_bind.
    iApply swp_malloc; [lia|]. iIntros (q Hq) "Hq". rewrite (proj2 (Z.eqb_neq q 0)); [|lia]. cbn [negb].
    iApply swp_bind. iApply (swp_init_obj with "Hq"); [done|]. iIntros "Hq". iApply swp_ret.
    iApply ("HQ" with "[] Hq"). iPureIntro. lia.
  - iApply (swp_realloc with "Ha"); [done|lia|]. iIntros (q Hq) "Hq". iApply ("HQ" with "[//]").
    rewrite E Nat2Z.id.
    replace (take (S (length ps)) ((Some <$> ps) ++ replicate (S (length ps)) None))
      with ((Some <$> ps) ++ [None]); [done|].
    rewrite take_app length_fmap. rewrite take_ge; [|rewrite length_fmap; lia].
    by replace (S (length ps) - length ps)%nat with 1%nat by lia.
Qed.

(** ** Strings *)

(** A bound on the lengths, so that sizes do not wrap. *)
Definition text_bound : Z := 2 ^ 60.
Definition short {A} (l : list A) : Prop := Z.of_nat (length l) < text_bound.

Definition str_at a (t : text) : assn := (⌈a <> 0 /\ short t⌉ ∗ a ↦ Str t)%I.

(** A field that holds a string or the null pointer. *)
Definition ostr a (o : option text) : assn :=
  match o with Some t => str_at a t | None => ⌈a = 0⌉%I end.

(** What an operation reads through a [const char *]. *)
Definition cstr c (t : text) : assn :=
  match c with Lit t' => ⌈t' = t /\ short t⌉%I | Ptr a => str_at a t end.

(** An array of strings and its length. *)
Definition names_at a (n : Z) (ts : list (option text)) : assn :=
  (∃ ps, ⌈n = Z.of_nat (length ts) /\ short ts⌉ ∗ arr a ps ∗ [∗ list] p;o ∈ ps;ts, ostr p o)%I.

Lemma names_at_nil : ⊢ names_at 0 0 [].
Proof using Type. iExists []. iSplit; [by iPureIntro|]. cbn. iSplit; [iLeft; by iPureIntro|done]. Qed.

Lemma swp_get_str c t (Q : text -> assn) : cstr c t -∗ (cstr c t -∗ Q t) -∗ swp (get_str c) Q.
Proof using Type.
  iIntros "Hc HQ". destruct c as [a|t']; cbn [get_str cstr].
  - iDestruct "Hc" as "[%Ha Ha]". iApply swp_bind. iApply swp_get_obj. iFrame "Ha". iIntros "Ha".
    iApply swp_ret. iApply "HQ". by iFrame.
  - iDestruct "Hc" as %[-> Ht]. iApply swp_ret. by iApply "HQ".
Qed.

Lemma swp_str_eq c d t u (Q : bool -> assn) :
  cstr c t -∗ cstr d u -∗ (cstr c t -∗ cstr d u -∗ Q (bool_decide (t = u))) -∗ swp (str_eq c d) Q.
Proof using Type.
  iIntros "Hc Hd HQ". iApply swp_bind. iApply (swp_get_str with "Hc"). iIntros "Hc".
  iApply swp_bind. iApply (swp_get_str with "Hd"). iIntros "Hd". iApply swp_ret. iApply ("HQ" with "Hc Hd").
Qed.

Lemma str_at_pure a t : str_at a t ⊢ ⌈a <> 0 /\ short t⌉ ∗ str_at a t.
Proof using Type. iIntros "[%Ha Ha]". iFrame. iSplit; by iPureIntro. Qed.

Lemma cstr_short c t : cstr c t ⊢ ⌈short t⌉ ∗ cstr c t.
Proof using Type.
  destruct c; cbn [cstr].
  - iIntros "Ha". iDestruct (str_at_pure with "Ha") as "[%Ha $]". iPureIntro. tauto.
  - iIntros (Hc). iSplit; iPureIntro; tauto.
Qed.

Lemma short_size (t : text) : short t -> u64 (Z.of_nat (length t) + 1) = Z.of_nat (length t) + 1.
Proof using Type. unfold short, text_bound. intros. apply wrap_small. lia. Qed.

(** The block of a new string. *)
Lemma swp_new_str t n (Q : Z -> assn) : short t -> n = Z.of_nat (length t) + 1 ->
  (∀ p, str_at p t -∗ Q p) -∗ swp (let* p := malloc n in init_obj p (Str t) ;; ret p) Q.
Proof using Type.
  intros Ht ->. iIntros "HQ". iApply swp_bind. iApply swp_malloc; [lia|]. iIntros (p Hp) "Hp".
  iApply swp_bind. iApply (swp_init_obj with "Hp"); [done|]. iIntros "Hp". iApply swp_ret. iApply "HQ".
  iFrame. iPureIntro. split; [lia|done].
Qed.

Lemma swp_strdup c t (Q : Z -> assn) :
  cstr c t -∗ (∀ p, cstr c t -∗ str_at p t -∗ Q p) -∗ swp (strdup c) Q.
Proof using Type.
  iIntros "Hc HQ". iDestruct (cstr_short with "Hc") as "[%Ht Hc]".
  iApply swp_bind. iApply (swp_get_str with "Hc"). iIntros "Hc". rewrite short_size //.
  iApply swp_bind. iApply swp_malloc; [lia|]. iIntros (p Hp) "Hp". rewrite (proj2 (Z.eqb_neq p 0)); [|lia].
  iApply swp_bind. iApply (swp_init_obj with "Hp"); [done|]. iIntros "Hp". iApply swp_ret.
  iApply ("HQ" with "Hc"). iFrame. iPureIntro. split; [lia|done].
Qed.

(** A value that may be absent, as a [const char *] and as a field. *)
Definition ocstr c (o : option text) : assn :=
  match o with Some t => cstr c t | None => ⌈is_null c = true⌉%I end.

Lemma cstr_not_null c t : cstr c t ⊢ ⌈is_null c = false⌉ ∗ cstr c t.
Proof using Type.
  destruct c; cbn [cstr is_null].
  - iIntros "Ha". iDestruct (str_at_pure with "Ha") as "[%Ha $]". iPureIntro. apply Z.eqb_neq. tauto.
  - iIntros (Hc). iSplit; iPureIntro; tauto.
Qed.

Lemma ostr_cstr a o : ostr a o ⊣⊢ ocstr (Ptr a) o.
Proof using Type.
  destruct o; cbn; [done|]. f_equiv. f_equiv. by rewrite Z.eqb_eq.
Qed.

Lemma swp_strdup_or_null c o (Q : Z -> assn) :
  ocstr c o -∗ (∀ p, ocstr c o -∗ ostr p o -∗ Q p) -∗ swp (strdup_or_null c) Q.
Proof using Type.
  iIntros "Hc HQ". unfold strdup_or_null. destruct o as [t|]; cbn [ocstr ostr].
  - iDestruct (cstr_not_null with "Hc") as "[%Hn Hc]". rewrite Hn. cbn [negb].
    iApply (swp_strdup with "Hc"). iIntros (p) "Hc Hp". iApply ("HQ" with "Hc Hp").
  - iDestruct "Hc" as %Hn. rewrite Hn. cbn [negb]. iApply swp_ret. by iApply "HQ".
Qed.

Lemma swp_free_ostr a o (Q : unit -> assn) : ostr a o -∗ Q tt -∗ swp (free a) Q.
Proof using Type.
  iIntros "Ha HQ". destruct o as [t|]; cbn [ostr].
  - iDestruct "Ha" as "[%Ha Ha]". iApply swp_free; [tauto|]. iFrame.
  - iDestruct "Ha" as %->. by iApply swp_free_null.
Qed.

Lemma swp_free_arr a ps (Q : unit -> assn) : arr a ps -∗ Q tt -∗ swp (free a) Q.
Proof using Type.
  iIntros "[%Ha|[%Ha Ha]] HQ".
  - destruct Ha as [-> _]. by iApply swp_free_null.
  - iApply swp_free; [done|]. iFrame.
Qed.

(** ** Searching an array of names *)

Lemma swp_arr_slot a ps i p (Q : Z -> assn) : ps !! i = Some p ->
  arr a ps -∗ (arr a ps -∗ Q p) -∗ swp (get_slot a (Z.of_nat i)) Q.
Proof using Type.
  intros Hp. iIntros "[%Ha|[%Ha Ha]] HQ"; [by destruct Ha as [_ ->]|].
  iApply (swp_get_slot with "Ha"); [by rewrite list_lookup_fmap Hp|]. iIntros "Ha". iApply "HQ".
  iRight. by iFrame.
Qed.

Lemma swp_find_name a n ts c t (Q : option Z -> assn) :
  names_at a n (Some <$> ts) -∗ cstr c t -∗
  (names_at a n (Some <$> ts) -∗ cstr c t -∗ Q (Z.of_nat <$> find_text t ts)) -∗
  swp (find_name a n c) Q.
Proof using Type.
  iIntros "Ha Hc HQ". iDestruct "Ha" as (ps [-> Hs]) "[Harr Hps]". rewrite length_fmap.
  set (R := (arr a ps ∗ ([∗ list] p;o ∈ ps;(Some <$> ts), ostr p o) ∗ cstr c t ∗
    (names_at a (Z.of_nat (length ts)) (Some <$> ts) -∗ cstr c t -∗ Q (Z.of_nat <$> find_text t ts)))%I).
  iApply (swp_loop _ (fun m i => ∃ k, ⌈i = Z.of_nat k /\ (k <= length ts)%nat /\
    m = Z.of_nat (length ts) - i /\
    find_text t ts = Nat.add k <$> find_text t (drop k ts)⌉ ∗ R)%I _ (Z.of_nat (length ts))).
  - intros m i. iIntros "(%k & %Hk & Harr & Hps & Hc & HQ)". destruct Hk as (-> & Hk & -> & Hf).
    destruct (Z.ltb_spec (Z.of_nat k) (Z.of_nat (length ts))).
    + destruct (lookup_lt_is_Some_2 ts k ltac:(lia)) as [u Hu].
      iDestruct (big_sepL2_length with "Hps") as %Hl. rewrite length_fmap in Hl.
      assert (is_Some (ps !! k)) as [p Hp] by (apply lookup_lt_is_Some_2; lia).
      rewrite (find_text_drop t ts k u Hu) in Hf.
      iApply swp_bind. iApply (swp_arr_slot with "Harr"); [done|]. iIntros "Harr".
      iDestruct (big_sepL2_lookup_acc _ _ _ k p (Some u) with "Hps") as "[Hp Hps]"; [done|by rewrite list_lookup_fmap Hu|].
      iApply swp_bind. iApply (swp_str_eq (Ptr p) c with "Hp Hc"). iIntros "Hp Hc". iDestruct ("Hps" with "Hp") as "Hps".
      destruct (decide (u = t)) as [->|Hne].
      * rewrite bool_decide_eq_true_2 //. iApply swp_ret. cbn [sturn].
        assert (find_text t ts = Some k) as Hft by (rewrite Hf /=; f_equal; lia). rewrite Hft.
        iApply ("HQ" with "[Harr Hps] Hc"). iExists ps. iFrame. iPureIntro. by rewrite length_fmap.
      * rewrite bool_decide_eq_false_2 //. iApply swp_ret. cbn [sturn].
        iExists (Z.of_nat (length ts) - Z.of_nat (S k)). iSplit; [iPureIntro; lia|]. iExists (S k). iFrame.
        iPureIntro. unfold short, text_bound in Hs. rewrite length_fmap in Hs. rewrite wrap_small; [|lia].
        split; [lia|]. split; [lia|]. split; [lia|]. rewrite Hf.
        by destruct (find_text t (drop (S k) ts)); cbn; [f_equal; lia|].
    + iApply swp_ret. cbn [sturn]. assert (k = length ts) as -> by lia. rewrite drop_all in Hf. cbn in Hf. rewrite Hf.
      iApply ("HQ" with "[Harr Hps] Hc"). iExists ps. iFrame. iPureIntro. by rewrite length_fmap.
  - unfold short, text_bound in Hs. rewrite length_fmap in Hs. lia.
  - iExists 0%nat. iFrame. iPureIntro. split; [done|]. split; [lia|]. split; [lia|].
    rewrite drop_0. by destruct (find_text t ts).
Qed.

(** ** Growing an array of strings *)

Lemma names_at_length a n ts : names_at a n ts ⊢ ⌈n = Z.of_nat (length ts) /\ short ts⌉ ∗ names_at a n ts.
Proof using Type.
  iIntros "(%ps & %Hn & H)". iSplit; [by iPureIntro|]. iExists ps. iFrame. by iPureIntro.
Qed.

(** The pointers of an array that has one more slot, and the slot's use. *)
Definition grown q (n : Z) (ts : list (option text)) : assn :=
  (∃ ps, ⌈q <> 0 /\ n = Z.of_nat (length ts)⌉ ∗ q ↦ Ptrs ((Some <$> ps) ++ [None]) ∗
     [∗ list] p;o ∈ ps;ts, ostr p o)%I.

Lemma swp_grow_names a n ts m (Q : Z -> assn) : m = u64 (u64 (n + 1) * 8) ->
  names_at a n ts -∗ (∀ q, grown q n ts -∗ Q q) -∗ swp (realloc_ptrs a m) Q.
Proof using Type.
  intros ->. iIntros "(%ps & %Hn & Ha & Hps) HQ". destruct Hn as [-> Hs].
  iDestruct (big_sepL2_length with "Hps") as %Hl. unfold short, text_bound in Hs.
  iApply (swp_grow with "Ha"); [rewrite !wrap_small; lia|]. iIntros (q Hq) "Hq". iApply "HQ".
  iExists ps. iFrame. by iPureIntro.
Qed.

Lemma swp_put_grown q n ts p o (Q : unit -> assn) : short (ts ++ [o]) ->
  grown q n ts -∗ ostr p o -∗ (names_at q (u64 (n + 1)) (ts ++ [o]) -∗ Q tt) -∗ swp (put_slot q n p) Q.
Proof using Type.
  intros Hs. iIntros "(%ps & %Hq & Hq & Hps) Hp HQ". destruct Hq as [Hq ->].
  iDestruct (big_sepL2_length with "Hps") as %Hl. rewrite -Hl.
  iApply (swp_put_slot with "Hq"); [rewrite length_app length_fmap /=; lia|]. iIntros "Hq". iApply "HQ".
  pose proof Hs as Hs'. unfold short, text_bound in Hs'. rewrite length_app /= in Hs'.
  iExists (ps ++ [p]). iSplit.
  { iPureIntro. split; [|done]. rewrite length_app /= wrap_small; lia. }
  iSplitL "Hq".
  - iRight. iSplit; [by iPureIntro|]. rewrite fmap_app insert_app_r_alt; rewrite length_fmap; [|lia].
    by rewrite Nat.sub_diag.
  - iApply (big_sepL2_app with "Hps"). cbn. by iFrame.
Qed.

(** One slot of an array of strings. *)
Lemma names_at_slot a n ts i o : ts !! i = Some o ->
  names_at a n ts ⊢ ∃ ps p, ⌈ps !! i = Some p⌉ ∗ arr a ps ∗ ostr p o ∗
    (∀ p' o', arr a (<[i := p']> ps) -∗ ostr p' o' -∗ names_at a n (<[i := o']> ts)).
Proof using Type.
  intros Ho. iIntros "(%ps & %Hn & Ha & Hps)". iDestruct (big_sepL2_length with "Hps") as %Hl.
  destruct (lookup_lt_is_Some_2 ps i) as [p Hp]; [rewrite Hl; by eapply lookup_lt_Some|].
  iDestruct (big_sepL2_insert_acc with "Hps") as "[Hp Hps]"; [done..|].
  iExists ps, p. iFrame. iSplit; [by iPureIntro|]. iIntros (p' o') "Ha Hp". iExists (<[i := p']> ps).
  iFrame "Ha". iSplit; [iPureIntro; unfold short in *; by rewrite length_insert|]. by iApply "Hps".
Qed.

Lemma names_at_id a n ts i o ps p : ps !! i = Some p -> ts !! i = Some o ->
  (∀ p' o', arr a (<[i := p']> ps) -∗ ostr p' o' -∗ names_at a n (<[i := o']> ts)) -∗
  arr a ps -∗ ostr p o -∗ names_at a n ts.
Proof using Type.
  intros Hp Ho. iIntros "H Ha Hp". iDestruct ("H" $! p o) as "H". rewrite (list_insert_id ps i p Hp) (list_insert_id ts i o Ho).
  iApply ("H" with "Ha Hp").
Qed.

Lemma swp_put_arr a ps i p (Q : unit -> assn) : (i < length ps)%nat ->
  arr a ps -∗ (arr a (<[i := p]> ps) -∗ Q tt) -∗ swp (put_slot a (Z.of_nat i) p) Q.
Proof using Type.
  intros Hi. iIntros "[%Ha|[%Ha Ha]] HQ"; [destruct Ha as [_ ->]; cbn in Hi; lia|].
  iApply (swp_put_slot with "Ha"); [by rewrite length_fmap|]. iIntros "Ha". iApply "HQ". iRight.
  rewrite list_fmap_insert. by iFrame.
Qed.

(** ** Freeing *)

(** The strings from the position [i] on are still there. *)
Definition half_freed (a : Z) (ts : list (option text)) (i : nat) : assn :=
  (∃ ps, ⌈length ps = length ts⌉ ∗ arr a ps ∗ [∗ list] q;o ∈ drop i ps;drop i ts, ostr q o)%I.

Lemma half_freed_slot a ts i : (i < length ts)%nat ->
  half_freed a ts i ⊢ ∃ ps x o, ⌈ps !! i = Some x⌉ ∗ arr a ps ∗ ostr x o ∗ (arr a ps -∗ half_freed a ts (S i)).
Proof using Type.
  intros Hi. iIntros "(%ps & %Hl & Ha & Hps)".
  destruct (lookup_lt_is_Some_2 ps i ltac:(lia)) as [x Hx]. destruct (lookup_lt_is_Some_2 ts i Hi) as [o Ho].
  rewrite (drop_S ps x i Hx) (drop_S ts o i Ho). cbn. iDestruct "Hps" as "[Hx Hps]".
  iExists ps, x, o. iFrame "Ha Hx". iSplit; [by iPureIntro|]. iIntros "Ha". iExists ps. iFrame. by iPureIntro.
Qed.

Lemma half_freed_start a n ts : names_at a n ts ⊢ ⌈n = Z.of_nat (length ts) /\ short ts⌉ ∗ half_freed a ts 0.
Proof using Type.
  iIntros "(%ps & %Hn & Ha & Hps)". iDestruct (big_sepL2_length with "Hps") as %Hl.
  iSplit; [by iPureIntro|]. iExists ps. rewrite !drop_0. iFrame. by iPureIntro.
Qed.

Lemma swp_free_half a ts (Q : unit -> assn) : half_freed a ts (length ts) -∗ Q tt -∗ swp (free a) Q.
Proof using Type.
  iIntros "(%ps & %Hl & Ha & Hps) HQ". rewrite -{1}Hl !drop_all. iApply (swp_free_arr with "Ha").
  cbn. by iDestruct "Hps" as "_".
Qed.

(** [free(a[i])], and what comes after. *)
Lemma swp_free_slot {A} a ts i (k : prog (dom H) A) (Q : A -> assn) : (i < length ts)%nat ->
  half_freed a ts i -∗ (half_freed a ts (S i) -∗ swp k Q) -∗
  swp (let* x := get_slot a (Z.of_nat i) in free x ;; k) Q.
Proof using Type.
  intros Hi. iIntros "Ha Hk". iDestruct (half_freed_slot with "Ha") as (ps x o Hx) "(Ha & Hx & Hn)"; [done|].
  iApply swp_bind. iApply (swp_arr_slot with "Ha"); [done|]. iIntros "Ha".
  iApply swp_bind. iApply (swp_free_ostr with "Hx"). iApply "Hk". by iApply "Hn".
Qed.
(** ** The fuel of the destructions *)

(** The objects of [P] are [k] at least. *)
Definition holds_many (k : nat) (P : assn) : Prop := forall σ, P σ -> (k <= size σ)%nat.

Lemma many_sep k m (P Q : assn) : holds_many k P -> holds_many m Q -> holds_many (k + m) (P ∗ Q)%I.
Proof using Type.
  intros HP HQ σ (σ1 & σ2 & -> & Hd & H1'%HP & H2'%HQ). rewrite map_size_disj_union //. lia.
Qed.

Lemma many_exist {A} k (P : A -> assn) : (forall x, holds_many k (P x)) -> holds_many k (∃ x, P x)%I.
Proof using Type. intros HP σ [x Hx]. by apply (HP x). Qed.

Lemma many_any P : holds_many 0 P.
Proof using Type. intros σ _. lia. Qed.

Lemma many_pt a o : holds_many 1 (a ↦ o)%I.
Proof using Type. intros σ ->. by rewrite map_size_singleton. Qed.

Lemma swp_destroy_fuel k (P : assn) (Q : nat -> assn) : holds_many k P ->
  P -∗ (∀ f, ⌈(k < f)%nat⌉ -∗ P -∗ Q f) -∗ swp (gets (fun s : dom H => S (size (objs s)))) Q.
Proof using Type.
  intros HP. apply bi.entails_wand, bi.wand_intro_r. split.
  intros σ (σ1 & σ2 & -> & Hd12 & H1' & HQ) s σf Hd Hs Hw. apply wp_gets. split; [done|].
  exists (σ1 ∪ σ2). split; [done|]. split; [done|]. rewrite map_union_comm //.
  specialize (HQ (S (size (objs s))) ∅ (map_disjoint_empty_r _)). rewrite right_id_L in HQ.
  apply HQ; [|by symmetry|done]. split; [done|]. apply HP in H1'. cbn in Hs. change (k < S (size (objs s)))%nat.
  rewrite Hs !map_size_disj_union //. lia.
Qed.

End DomSep.

(** ** Runs of a parser *)

Section Runs.
Context {H : Type} `{LibcHeapLaws H}.
Implicit Types (s : dom H) (P a : Z) (o : obj) (t : text) (rest made : gmap Z obj).

(** The state holds the parser object [o] at [P], the text [t] at [a], and
    [rest]. *)
Definition loaded s P o a t rest : Prop :=
  objs s = <[P := o]> (<[a := Str t]> rest) /\ P <> 0 /\ a <> 0 /\ P <> a /\ rest !! P = None /\ rest !! a = None /\
  short t /\ sound s.

(** A specification in the logic, as a statement about runs; [mk] makes the
    parser's structure an object. *)
Lemma run_loaded {X A} (mk : X -> obj) (m : prog (dom H) A) (R : X -> A -> sprop obj) s P x a t rest :
  (P ↦ mk x ∗ str_at a t ⊢ swp m (fun y => ∃ x', P ↦ mk x' ∗ str_at a t ∗ R x' y)) ->
  loaded s P (mk x) a t rest ->
  exists y s' x' made, m s = Ok (y, s') /\ loaded s' P (mk x') a t (made ∪ rest) /\ made ##ₘ rest /\ R x' y made.
Proof using Type.
  intros Hm (Ho & HP & Ha & HPa & HrP & Hra & Ht & Hs).
  set (σ := {[P := mk x]} ∪ {[a := Str t]} : gmap Z obj).
  assert ({[P := mk x]} ##ₘ ({[a := Str t]} : gmap Z obj)) as Hd
    by (apply map_disjoint_singleton_l; by rewrite lookup_singleton_ne).
  destruct (swp_adequate m _ _ s σ rest Hm) as (y & s' & σ' & Hrun & Hd' & Hs' & Hpost & Hsound).
  - exists {[P := mk x]}, {[a := Str t]}. split; [done|]. split; [done|]. split; [done|].
    exists ∅, {[a := Str t]}. split; [by rewrite left_id_L|]. split; [apply map_disjoint_empty_l|]. split; [|done].
    by split.
  - apply map_disjoint_union_l. by split; apply map_disjoint_singleton_l.
  - cbn. rewrite Ho /σ -assoc_L -!insert_union_singleton_l. done.
  - done.
  - destruct Hpost as (x' & σ1 & σ2 & -> & Hd1 & -> & σ3 & σ4 & -> & Hd2 & Hstr & HR).
    destruct Hstr as (σ5 & σ6 & -> & _ & [-> [Ha' Ht']] & ->). rewrite left_id_L in Hd1, Hd2, Hs', Hd'.
    cbn in Hs'. rewrite !map_disjoint_union_l !map_disjoint_singleton_l in Hd'. destruct Hd' as (HP1 & Ha1 & Hd4).
    rewrite map_disjoint_union_r !map_disjoint_singleton_l in Hd1. destruct Hd1 as (_ & HP4).
    apply map_disjoint_singleton_l in Hd2 as Ha4. exists y, s', x', σ4. split; [done|]. split; [|done].
    split; [by rewrite Hs' -!assoc_L -!insert_union_singleton_l|]. do 3 (split; [done|]).
    split; [by apply lookup_union_None|]. split; [by apply lookup_union_None|]. by split.
Qed.
End Runs.

(** For the examples: the counting allocator answers for a store below its
    counter. *)
Section Example.
#[local] Existing Instance counter_heap.
#[local] Existing Instance counter_heap_laws.

Lemma counter_sound h (m : gmap Z obj) :
  0 < h -> forallb (fun x => x.1 <? h) (map_to_list m) = true -> sound (Dom h m).
Proof.
  intros Hh Hm. split; [done|]. intros a [o Ha]%elem_of_dom. cbn in Ha. apply elem_of_map_to_list in Ha.
  apply list_elem_of_In in Ha. rewrite forallb_forall in Hm. apply Z.ltb_lt. by apply (Hm (a, o)).
Qed.
End Example.
