(* ===== verification/DomProofs.v ===== *)
(** * The DOM: attributes, classes, text, and the creation of nodes

    What the operations of [Dom] do to the strings that a node owns, in the
    logic of [DomSep]: every string and array that an operation drops is
    freed, and every one that is left belongs to the node. *)

From S2P Require Import Sep Prelude CMem Alloc DomObj Dom DomSpec DomSep.

Section DomProofs.
Context {H : Type} `{LibcHeapLaws H} `{!Handlers H}.
Abbreviation assn := (sprop obj).
Implicit Types (a : Z) (n : dom_node) (e : node_ext).

(** ** Attributes *)

Definition attr_arrays (names values count : Z) (l : list (text * option text)) : assn :=
  (names_at names count (Some <$> l.*1) ∗ names_at values count l.*2)%I.

Definition attrs_at n (l : list (text * option text)) : assn :=
  attr_arrays (n_attr_names n) (n_attr_values n) (n_attr_count n) l.

(** The node [n'] is [n] but for its attributes. *)
Definition attrs_only n n' : Prop :=
  n' = n_with_attrs (n_attr_names n') (n_attr_values n') (n_attr_count n') n.

Lemma swp_set_old a n e l k v c i (Q : unit -> assn) : find_text k l.*1 = Some i ->
  attrs_at n l -∗ ocstr c v -∗ (attrs_at n (set_attr k v l) -∗ ocstr c v -∗ Q tt) -∗
  swp (let* old := get_slot (n_attr_values n) (Z.of_nat i) in
       free old ;; let* v := strdup_or_null c in put_slot (n_attr_values n) (Z.of_nat i) v) Q.
Proof using Type.
  intros E. destruct (set_attr_Some k v l i E) as (E1 & E2 & Hi).
  iIntros "[Hn Hv] Hc HQ".
  destruct (lookup_lt_is_Some_2 l.*2 i) as [o Ho]; [by rewrite length_fmap|].
  iDestruct (names_at_slot _ _ _ i o with "Hv") as (ps p Hp) "(Ha & Hp & Hv)"; [done|].
  iApply swp_bind. iApply (swp_arr_slot with "Ha"); [done|]. iIntros "Ha".
  iApply swp_bind. iApply (swp_free_ostr with "Hp"). iApply swp_bind.
  iApply (swp_strdup_or_null with "Hc"). iIntros (q) "Hc Hq".
  iApply (swp_put_arr with "Ha"); [by eapply lookup_lt_Some|]. iIntros "Ha".
  iApply ("HQ" with "[Hn Ha Hq Hv] Hc"). rewrite /attrs_at /attr_arrays E1 E2. iFrame "Hn". iApply ("Hv" with "Ha Hq").
Qed.

Lemma swp_set_attribute a n e l name k value v (Q : unit -> assn) :
  a <> 0 -> short (l ++ [(k, v)]) ->
  a ↦ Node n e -∗ attrs_at n l -∗ cstr name k -∗ ocstr value v -∗
  (∀ n', ⌈attrs_only n n'⌉ -∗ a ↦ Node n' e -∗ attrs_at n' (set_attr k v l) -∗
     cstr name k -∗ ocstr value v -∗ Q tt) -∗
  swp (dom_node_set_attribute a name value) Q.
Proof using Type.
  intros Ha Hs. iIntros "Ha Hl Hk Hv HQ". unfold dom_node_set_attribute.
  iDestruct (cstr_not_null with "Hk") as "[%Hnn Hk]". rewrite (proj2 (Z.eqb_neq a 0) Ha) Hnn. cbn [orb].
  iApply swp_bind. iApply (swp_get_node with "Ha"). iIntros "Ha". iDestruct "Hl" as "[Hn Hvs]".
  iApply swp_bind. iApply (swp_find_name with "Hn Hk"). iIntros "Hn Hk".
  destruct (find_text k l.*1) as [i|] eqn:E; cbn [fmap option_fmap option_map].
  - iApply (swp_set_old a n e l k v value i with "[$Hn $Hvs] Hv"); [done|]. iIntros "Hl Hv".
    iApply ("HQ" $! n with "[] Ha Hl Hk Hv"). iPureIntro. by destruct n.
  - iApply swp_bind. iApply (swp_grow_names with "Hn"); [done|]. iIntros (ns) "Hn".
    iApply swp_bind. iApply (swp_upd_node with "Ha"). iIntros "Ha".
    iApply swp_bind. iApply (swp_get_node with "Ha"). iIntros "Ha".
    iApply swp_bind. iApply (swp_grow_names with "Hvs"); [done|]. iIntros (vs) "Hvs".
    iApply swp_bind. iApply (swp_upd_node with "Ha"). iIntros "Ha".
    iApply swp_bind. iApply (swp_strdup with "Hk"). iIntros (p) "Hk Hp".
    assert (short (l.*1 ++ [k])) as Hs1 by (unfold short in *; rewrite !length_app length_fmap in Hs |- *; done).
    assert (short (l.*2 ++ [v])) as Hs2 by (unfold short in *; rewrite !length_app length_fmap in Hs |- *; done).
    iApply swp_bind. iApply (swp_put_grown _ _ _ _ (Some k) with "Hn Hp"); [unfold short; by rewrite -(fmap_app Some l.*1 [k]) length_fmap|].
    iIntros "Hn". iApply swp_bind. iApply (swp_strdup_or_null with "Hv"). iIntros (q) "Hv Hq".
    iApply swp_bind. iApply (swp_put_grown with "Hvs Hq"); [done|]. iIntros "Hvs".
    iApply (swp_upd_node with "Ha"). iIntros "Ha".
    iApply ("HQ" with "[] Ha [Hn Hvs] Hk Hv"); [by iPureIntro|].
    rewrite /attrs_at /attr_arrays /set_attr E !fmap_app. cbn. iFrame.
Qed.

(** The answer is the string of the attribute, which stays the node's. *)
Lemma swp_get_attribute a n e l name k (Q : Z -> assn) : a <> 0 ->
  a ↦ Node n e -∗ attrs_at n l -∗ cstr name k -∗
  (∀ p, ostr p (get_attr k l) -∗
     (ostr p (get_attr k l) -∗ a ↦ Node n e ∗ attrs_at n l ∗ cstr name k) -∗ Q p) -∗
  swp (dom_node_get_attribute a name) Q.
Proof using Type.
  intros Ha. iIntros "Ha [Hn Hvs] Hk HQ". unfold dom_node_get_attribute.
  iDestruct (cstr_not_null with "Hk") as "[%Hnn Hk]". rewrite (proj2 (Z.eqb_neq a 0) Ha) Hnn. cbn [orb].
  iApply swp_bind. iApply (swp_get_node with "Ha"). iIntros "Ha".
  iApply swp_bind. iApply (swp_find_name with "Hn Hk"). iIntros "Hn Hk". unfold get_attr.
  destruct (find_text k l.*1) as [i|] eqn:E; cbn [fmap option_fmap option_map].
  - destruct (lookup_lt_is_Some_2 l i) as [[k' v] Hl].
    { apply find_text_Some, lookup_lt_Some in E. by rewrite length_fmap in E. }
    rewrite Hl. cbn. assert (l.*2 !! i = Some v) as Hv by (by rewrite list_lookup_fmap Hl).
    iDestruct (names_at_slot _ _ _ i v with "Hvs") as (ps p Hp) "(Harr & Hp & Hvs)"; [done|].
    iApply (swp_arr_slot with "Harr"); [done|]. iIntros "Harr". iApply ("HQ" with "Hp"). iIntros "Hp".
    iFrame "Ha Hk Hn". iApply (names_at_id with "Hvs Harr Hp"); done.
  - iApply swp_ret. iApply "HQ"; [by iPureIntro|]. iIntros "_". iFrame.
Qed.

(** C30: an attribute that was set is found: after
    [dom_node_set_attribute(node, name, value)], [dom_node_get_attribute]
    answers with a new string that equals the value.  The node keeps its other
    attributes, the value that was replaced is freed, and nothing else in
    memory changes. *)
Theorem dom_node_set_get_attribute (s : dom H) a n e l name k value v made rest :
  objs s = made ∪ rest -> made ##ₘ rest -> sound s -> a <> 0 -> short (l ++ [(k, Some v)]) ->
  (a ↦ Node n e ∗ attrs_at n l ∗ str_at name k ∗ str_at value v)%I made ->
  exists p s' n' made',
    (dom_node_set_attribute a (Ptr name) (Ptr value) ;; dom_node_get_attribute a (Ptr name)) s = Ok (p, s') /\
    objs s' = made' ∪ rest /\ made' ##ₘ rest /\ sound s' /\ attrs_only n n' /\
    objs s' !! p = Some (Str v) /\ p <> value /\
    (forall k', k' <> k -> get_attr k' (set_attr k (Some v) l) = get_attr k' l) /\
    (a ↦ Node n' e ∗ attrs_at n' (set_attr k (Some v) l) ∗ str_at name k ∗ str_at value v)%I made'.
Proof using Type.
  intros Ho Hd Hs Ha Hl Hmade.
  set (R := fun n' => (a ↦ Node n' e ∗ attrs_at n' (set_attr k (Some v) l) ∗ str_at name k ∗ str_at value v)%I).
  destruct (swp_adequate (dom_node_set_attribute a (Ptr name) (Ptr value) ;; dom_node_get_attribute a (Ptr name))
    (a ↦ Node n e ∗ attrs_at n l ∗ str_at name k ∗ str_at value v)%I
    (fun p => ∃ n', ⌈attrs_only n n' /\ p <> value⌉ ∗ ((str_at p v ∗ True) ∧ R n'))%I s made rest)
    as (p & s' & made' & Hrun & Hd' & Hs' & Hpost & Hsound); [|done..|].
  - iIntros "(Ha & Hl & Hk & Hv)". iApply swp_bind.
    iApply (swp_set_attribute _ _ _ _ (Ptr name) k (Ptr value) (Some v) with "Ha Hl Hk Hv"); [done..|].
    iIntros (n' Hn') "Ha Hl Hk Hv". iApply (swp_get_attribute _ _ _ _ (Ptr name) k with "Ha Hl Hk"); [done|].
    iIntros (p) "Hp Hl". rewrite get_set_attr. cbn [ostr ocstr cstr]. iDestruct "Hp" as "[%Hp Hp]".
    iDestruct "Hv" as "[%Hv Hv]". iDestruct (pt_ne with "[$Hp $Hv]") as "(%Hne & Hp & Hv)".
    iExists n'. iSplit; [by iPureIntro|]. iSplit.
    + iSplitL "Hp"; [by iFrame|done].
    + iDestruct ("Hl" with "[$Hp]") as "(Ha & Hl & Hk)"; [by iPureIntro|]. unfold R. iFrame. by iPureIntro.
  - destruct Hpost as (n' & σ1 & σ2 & -> & _ & [-> [Hn' Hpv]] & Hstr & HR). rewrite left_id_L in Hs', Hd'.
    exists p, s', n', σ2. do 5 (split; [done|]). split; [|split; [done|split; [|done]]].
    + destruct Hstr as (σ3 & σ4 & -> & _ & (σ5 & σ6 & -> & _ & [-> _] & ->) & _). cbn in Hs'. rewrite Hs' left_id_L.
      apply lookup_union_Some_l, lookup_union_Some_l, lookup_singleton_eq.
    + intros. by apply get_set_attr_ne.
Qed.

(** ** Classes *)

Definition classes_at n (cs : list text) : assn :=
  names_at (n_class_names n) (n_class_count n) (Some <$> cs).

Definition classes_only n n' : Prop := n' = n_with_classes (n_class_names n') (n_class_count n') n.

Lemma swp_add_class a n e cs name c (Q : unit -> assn) : a <> 0 -> short (cs ++ [c]) ->
  a ↦ Node n e -∗ classes_at n cs -∗ cstr name c -∗
  (∀ n', ⌈classes_only n n'⌉ -∗ a ↦ Node n' e -∗ classes_at n' (add_class c cs) -∗ cstr name c -∗ Q tt) -∗
  swp (dom_node_add_class a name) Q.
Proof using Type.
  intros Ha Hs. iIntros "Ha Hcs Hc HQ". unfold dom_node_add_class.
  iDestruct (cstr_not_null with "Hc") as "[%Hnn Hc]". rewrite (proj2 (Z.eqb_neq a 0) Ha) Hnn. cbn [orb].
  iApply swp_bind. iApply (swp_get_node with "Ha"). iIntros "Ha".
  iApply swp_bind. iApply (swp_find_name with "Hcs Hc"). iIntros "Hcs Hc". unfold add_class.
  destruct (find_text c cs) as [i|] eqn:E; cbn [fmap option_fmap option_map].
  - iApply swp_ret. iApply ("HQ" $! n with "[] Ha Hcs Hc"). iPureIntro. by destruct n.
  - iApply swp_bind. iApply (swp_grow_names with "Hcs"); [done|]. iIntros (ns) "Hcs".
    iApply swp_bind. iApply (swp_upd_node with "Ha"). iIntros "Ha".
    iApply swp_bind. iApply (swp_strdup with "Hc"). iIntros (p) "Hc Hp".
    iApply swp_bind. iApply (swp_put_grown _ _ _ _ (Some c) with "Hcs Hp");
      [unfold short; by rewrite -(fmap_app Some cs [c]) length_fmap|].
    iIntros "Hcs". iApply (swp_upd_node with "Ha"). iIntros "Ha".
    iApply ("HQ" with "[] Ha [Hcs] Hc"); [by iPureIntro|]. rewrite /classes_at fmap_app. cbn. iFrame.
Qed.

Lemma swp_has_class a n e cs name c (Q : bool -> assn) : a <> 0 ->
  a ↦ Node n e -∗ classes_at n cs -∗ cstr name c -∗
  (a ↦ Node n e -∗ classes_at n cs -∗ cstr name c -∗ Q (bool_decide (c ∈ cs))) -∗
  swp (dom_node_has_class a name) Q.
Proof using Type.
  intros Ha. iIntros "Ha Hcs Hc HQ". unfold dom_node_has_class.
  iDestruct (cstr_not_null with "Hc") as "[%Hnn Hc]". rewrite (proj2 (Z.eqb_neq a 0) Ha) Hnn. cbn [orb].
  iApply swp_bind. iApply (swp_get_node with "Ha"). iIntros "Ha".
  iApply swp_bind. iApply (swp_find_name with "Hcs Hc"). iIntros "Hcs Hc". iApply swp_ret.
  assert (bool_decide (c ∈ cs) = match Z.of_nat <$> find_text c cs with Some _ => true | None => false end) as <-;
    [|iApply ("HQ" with "Ha Hcs Hc")].
  destruct (find_text c cs) as [i|] eqn:E; cbn.
  - apply bool_decide_eq_true_2. apply find_text_Some in E. by eapply list_elem_of_lookup_2.
  - apply bool_decide_eq_false_2. by apply find_text_None.
Qed.

(** ** New nodes *)

(** A node that was just created. *)
Definition new_node (ty : dom_node_type) (tag text : Z) : dom_node :=
  n_with_text_content text (n_with_tag_name tag (n_with_ref_count 1 (n_with_type ty zero_node))).

Lemma swp_element_create c t (Q : Z -> assn) :
  cstr c t -∗
  (∀ a p, ⌈a <> 0⌉ -∗ a ↦ Node (new_node DOM_NODE_TYPE_ELEMENT p 0) (IsElement zero_element) -∗
     str_at p t -∗ cstr c t -∗ Q a) -∗
  swp (dom_element_create c) Q.
Proof using Type.
  iIntros "Hc HQ". unfold dom_element_create. iDestruct (cstr_not_null with "Hc") as "[%Hnn Hc]".
  iApply swp_bind. iApply swp_malloc; [done|]. iIntros (a Ha) "Ha". rewrite (proj2 (Z.eqb_neq a 0)); [|lia].
  iApply swp_bind. iApply (swp_init_obj with "Ha"); [done|]. iIntros "Ha".
  iApply swp_bind. iApply (swp_upd_node with "Ha"). iIntros "Ha".
  iApply swp_bind. iApply (swp_upd_node with "Ha"). iIntros "Ha". rewrite Hnn. cbn [negb].
  iApply swp_bind. iApply swp_bind. iApply (swp_strdup with "Hc"). iIntros (p) "Hc Hp".
  iApply (swp_upd_node with "Ha"). iIntros "Ha". iApply swp_ret.
  iApply ("HQ" $! a p with "[] Ha Hp Hc"). iPureIntro. lia.
Qed.

Lemma swp_text_create c t (Q : Z -> assn) :
  cstr c t -∗
  (∀ a d p, ⌈a <> 0⌉ -∗ a ↦ Node (new_node DOM_NODE_TYPE_TEXT 0 p) (IsText d) -∗
     str_at d t -∗ str_at p t -∗ cstr c t -∗ Q a) -∗
  swp (dom_text_create c) Q.
Proof using Type.
  iIntros "Hc HQ". unfold dom_text_create. iDestruct (cstr_not_null with "Hc") as "[%Hnn Hc]".
  iApply swp_bind. iApply swp_malloc; [done|]. iIntros (a Ha) "Ha". rewrite (proj2 (Z.eqb_neq a 0)); [|lia].
  iApply swp_bind. iApply (swp_init_obj with "Ha"); [done|]. iIntros "Ha".
  iApply swp_bind. iApply (swp_upd_node with "Ha"). iIntros "Ha".
  iApply swp_bind. iApply (swp_upd_node with "Ha"). iIntros "Ha". rewrite Hnn. cbn [negb].
  iApply swp_bind. iApply swp_bind. iApply (swp_strdup with "Hc"). iIntros (d) "Hc Hd".
  iApply swp_bind. iApply (swp_put_ext with "Ha"). iIntros "Ha".
  iApply swp_bind. iApply (swp_strdup with "Hc"). iIntros (p) "Hc Hp".
  iApply (swp_upd_node with "Ha"). iIntros "Ha". iApply swp_ret.
  iApply ("HQ" $! a d p with "[] Ha Hd Hp Hc"). iPureIntro. lia.
Qed.

(** ** Appending a node that is not in the tree *)

(** Setting the links of the parent and of its last child; the caller gives
    the parent and, when there is one, its last child. *)
Lemma swp_append_first p np ep c nc ec (Q : unit -> assn) : p <> 0 -> c <> 0 -> n_parent nc = 0 ->
  n_first_child np = 0 ->
  p ↦ Node np ep -∗ c ↦ Node nc ec -∗
  (p ↦ Node (n_with_last_child c (n_with_first_child c np)) ep -∗ c ↦ Node (n_with_parent p nc) ec -∗ Q tt) -∗
  swp (dom_node_append_child p c) Q.
Proof using Type.
  intros Hp Hc Hpar Hf. iIntros "Hp Hc HQ". unfold dom_node_append_child.
  rewrite (proj2 (Z.eqb_neq p 0) Hp) (proj2 (Z.eqb_neq c 0) Hc). cbn [orb].
  iApply swp_bind. iApply (swp_get_node with "Hc"). iIntros "Hc". rewrite Hpar. cbn [Z.eqb negb].
  iApply swp_bind. iApply swp_ret. iApply swp_bind. iApply (swp_upd_node with "Hc"). iIntros "Hc".
  iApply swp_bind. iApply (swp_get_node with "Hp"). iIntros "Hp". rewrite Hf. cbn [Z.eqb].
  iApply swp_bind. iApply (swp_upd_node with "Hp"). iIntros "Hp".
  iApply (swp_upd_node with "Hp"). iIntros "Hp". iApply ("HQ" with "Hp Hc").
Qed.

Lemma swp_append_next p np ep b nb eb c nc ec (Q : unit -> assn) : p <> 0 -> c <> 0 -> n_parent nc = 0 ->
  n_first_child np <> 0 -> n_last_child np = b ->
  p ↦ Node np ep -∗ b ↦ Node nb eb -∗ c ↦ Node nc ec -∗
  (p ↦ Node (n_with_last_child c np) ep -∗ b ↦ Node (n_with_next_sibling c nb) eb -∗
   c ↦ Node (n_with_prev_sibling b (n_with_parent p nc)) ec -∗ Q tt) -∗
  swp (dom_node_append_child p c) Q.
Proof using Type.
  intros Hp Hc Hpar Hf Hl. iIntros "Hp Hb Hc HQ". unfold dom_node_append_child.
  rewrite (proj2 (Z.eqb_neq p 0) Hp) (proj2 (Z.eqb_neq c 0) Hc). cbn [orb].
  iApply swp_bind. iApply (swp_get_node with "Hc"). iIntros "Hc". rewrite Hpar. cbn [Z.eqb negb].
  iApply swp_bind. iApply swp_ret. iApply swp_bind. iApply (swp_upd_node with "Hc"). iIntros "Hc".
  iApply swp_bind. iApply (swp_get_node with "Hp"). iIntros "Hp". rewrite (proj2 (Z.eqb_neq _ 0) Hf) Hl.
  iApply swp_bind. iApply (swp_upd_node with "Hb"). iIntros "Hb".
  iApply swp_bind. iApply (swp_get_node with "Hp"). iIntros "Hp". rewrite Hl.
  iApply swp_bind. iApply (swp_upd_node with "Hc"). iIntros "Hc".
  iApply (swp_upd_node with "Hp"). iIntros "Hp". iApply ("HQ" with "Hp Hb Hc").
Qed.
End DomProofs.

(** ** Example *)

Section Example.
#[local] Existing Instance counter_heap.
#[local] Existing Instance counter_heap_laws.
#[local] Existing Instance no_handlers.

(** A node without attributes, a name and a value. *)
Definition named_objs : gmap Z obj :=
  <[16 := Node zero_node NodeOnly]> (<[32 := Str [105]]> (<[48 := Str [97; 98]]> ∅)).

Lemma dom_node_set_get_attribute_witness :
  exists p s' n' made',
    (dom_node_set_attribute 16 (Ptr 32) (Ptr 48) ;; dom_node_get_attribute 16 (Ptr 32)) (Dom 64 named_objs) = Ok (p, s') /\
    objs s' = made' ∪ ∅ /\ made' ##ₘ (∅ : gmap Z obj) /\ sound s' /\ attrs_only zero_node n' /\
    objs s' !! p = Some (Str [97; 98]) /\ p <> 48 /\
    (forall k', k' <> [105] -> get_attr k' (set_attr [105] (Some [97; 98]) []) = get_attr k' []) /\
    (16 ↦ Node n' NodeOnly ∗ attrs_at n' (set_attr [105] (Some [97; 98]) []) ∗ str_at 32 [105] ∗ str_at 48 [97; 98])%I made'.
Proof.
  apply (dom_node_set_get_attribute (Dom 64 named_objs) 16 zero_node NodeOnly [] 32 [105] 48 [97; 98] named_objs ∅).
  - by rewrite right_id_L.
  - apply map_disjoint_empty_r.
  - by apply counter_sound.
  - done.
  - done.
  - apply (holds_mono (16 ↦ Node zero_node NodeOnly ∗ 32 ↦ Str [105] ∗ 48 ↦ Str [97; 98] ∗ emp)).
    + iIntros "(Ha & Hk & Hv & _)". iFrame. iSplitR; [iSplitL; iApply names_at_nil|]. by iSplit.
    + by repeat apply pt_insert.
Defined.
End Example.
