(* ===== verification/Css.v ===== *)
(** * The CSS parser (html/src/css/css_parser.c)

    The objects are those of [CssObj], in the store of [DomObj]; the cursor
    is in the parser object.  What the file calls and src/ does not define is
    in [CssStrings], [strncasecmp] and [strtod] (the second as the bits of the
    number and the count of characters it reads), and in [CssLib], three
    functions that css_parser.c calls and no file declares or defines.  [strtoul] is libc's, run on
    the bytes of the string. *)

From S2P Require Import Prelude CMem Ctype Strtol Alloc CssObj DomObj.

Class CssStrings : Type := {
  strncasecmp : text -> text -> Z -> Z;
  strtod : text -> Z * nat;
}.

Class CssLib (H : Type) `{LibcHeap H} : Type := {
  css_parse_number_or_ident : Z -> Z -> prog (dom H) Z;
  css_declaration_create : prog (dom H) Z;
  css_declaration_destroy : Z -> prog (dom H) unit;
}.

Section Css.
Context {H : Type} `{CssLib H} `{!CssStrings}.

(** ** Access *)

Definition get_css (a : Z) : prog (dom H) css_obj :=
  let* o := get_obj a in match o with Css c => ret c | _ => fault end.
Definition put_css (a : Z) (c : css_obj) : prog (dom H) unit := put_obj a (Css c).

Definition css_token (a : Z) : prog (dom H) css_token_t := let* c := get_css a in match c with C_token t => ret t | _ => fault end.
Definition css_value (a : Z) : prog (dom H) css_value_t := let* c := get_css a in match c with C_value v => ret v | _ => fault end.
Definition css_selector (a : Z) : prog (dom H) css_selector_t := let* c := get_css a in match c with C_selector s => ret s | _ => fault end.
Definition css_declaration (a : Z) : prog (dom H) css_declaration_t :=
  let* c := get_css a in match c with C_declaration d => ret d | _ => fault end.
Definition css_rule (a : Z) : prog (dom H) css_rule_t := let* c := get_css a in match c with C_rule r => ret r | _ => fault end.
Definition css_stylesheet (a : Z) : prog (dom H) css_stylesheet_t :=
  let* c := get_css a in match c with C_stylesheet s => ret s | _ => fault end.
Definition css_parser (a : Z) : prog (dom H) css_parser_t := let* c := get_css a in match c with C_parser p => ret p | _ => fault end.

Definition upd_css_token (a : Z) (f : css_token_t -> css_token_t) : prog (dom H) unit :=
  let* t := css_token a in put_css a (C_token (f t)).
Definition upd_css_value (a : Z) (f : css_value_t -> css_value_t) : prog (dom H) unit :=
  let* v := css_value a in put_css a (C_value (f v)).
Definition upd_css_selector (a : Z) (f : css_selector_t -> css_selector_t) : prog (dom H) unit :=
  let* s := css_selector a in put_css a (C_selector (f s)).
Definition upd_css_declaration (a : Z) (f : css_declaration_t -> css_declaration_t) : prog (dom H) unit :=
  let* d := css_declaration a in put_css a (C_declaration (f d)).
Definition upd_css_rule (a : Z) (f : css_rule_t -> css_rule_t) : prog (dom H) unit :=
  let* r := css_rule a in put_css a (C_rule (f r)).
Definition upd_css_stylesheet (a : Z) (f : css_stylesheet_t -> css_stylesheet_t) : prog (dom H) unit :=
  let* s := css_stylesheet a in put_css a (C_stylesheet (f s)).
Definition upd_css_parser (a : Z) (f : css_parser_t -> css_parser_t) : prog (dom H) unit :=
  let* p := css_parser a in put_css a (C_parser (f p)).

(** ** The parser object and its cursor *)

Definition css_parser_create : prog (dom H) Z :=
  let* parser := malloc sizeof_css_parser in
  if parser =? 0 then ret 0
  else init_obj parser (Css (C_parser zero_css_parser)) ;; ret parser.

Definition css_parser_destroy (parser : Z) : prog (dom H) unit :=
  if parser =? 0 then ret tt
  else
    let* p := css_parser parser in
    free (ct_value (cp_current_token p)) ;;
    free parser.

Definition css_parser_has_errors (parser : Z) : prog (dom H) bool :=
  let* p := css_parser parser in ret (cp_has_errors p).
Definition css_parser_get_error_message (parser : Z) : prog (dom H) text :=
  let* p := css_parser parser in ret (cp_error_message p).

(** [input[i]], a signed character; the string ends with a 0. *)
Definition input_at (input i : Z) : prog (dom H) Z :=
  let* t := get_str (Ptr input) in
  match (if i <? 0 then None else (t ++ [0]) !! Z.to_nat i) with
  | Some b => ret (s8 b)
  | None => fault
  end.

Definition css_position (parser : Z) : prog (dom H) Z := let* p := css_parser parser in ret (cp_position p).

(** [position >= length] *)
Definition css_at_end (parser : Z) : prog (dom H) bool := let* p := css_parser parser in ret (cp_length p <=? cp_position p).

(** [position += n] *)
Definition css_advance (parser n : Z) : prog (dom H) unit :=
  upd_css_parser parser (fun p => cp_with_position (u64 (cp_position p + n)) p).

(** [position + n < length && cond(input[position + n])] *)
Definition css_at_char (parser n : Z) (cond : Z -> bool) : prog (dom H) bool :=
  let* p := css_parser parser in
  let i := u64 (cp_position p + n) in
  if i <? cp_length p then let* c := input_at (cp_input p) i in ret (cond c) else ret false.

(** [while (position < length && cond(input[position])) position++;] *)
Definition css_skip (parser : Z) (cond : Z -> bool) : prog (dom H) unit :=
  loop (fun _ =>
    let* go := css_at_char parser 0 cond in
    if (go : bool) then css_advance parser 1 ;; ret (Next tt) else ret (Done tt)) tt.

(** A new string with the characters of the input from [start] to the
    position: [malloc(length + 1)], [memcpy], and the 0. *)
Definition css_copy (parser start : Z) : prog (dom H) Z :=
  let* p := css_parser parser in
  let length := u64 (cp_position p - start) in
  let* block := malloc (u64 (length + 1)) in
  let* t := get_str (Ptr (cp_input p)) in
  if start + length <=? Z.of_nat (List.length t) + 1 then
    init_obj block (Str (take (Z.to_nat length) (drop (Z.to_nat start) t))) ;;
    ret block
  else fault.

(** ** Parts of tokens *)

Definition ident_start (c : Z) : bool := isalpha c || (c =? 45) || (c =? 95) || (c =? 92).
Definition ident_char (c : Z) : bool := isalnum c || (c =? 45) || (c =? 95) || (c =? 92).

Definition css_parse_ident (parser : Z) : prog (dom H) Z :=
  let* start := css_position parser in
  let* done := css_at_end parser in
  let* bad := (if (done : bool) then ret false
               else let* ok := css_at_char parser 0 ident_start in
                    if (ok : bool) then css_advance parser 1 ;; ret false else ret true) in
  if (bad : bool) then ret 0
  else
    css_skip parser ident_char ;;
    let* position := css_position parser in
    if start =? position then ret 0
    else css_copy parser start.

(** [while (position < length && input[position] != stop)], over characters
    behind a backslash. *)
Definition css_skip_to (parser stop : Z) : prog (dom H) unit :=
  loop (fun _ =>
    let* go := css_at_char parser 0 (fun c => negb (c =? stop)) in
    if (go : bool) then
      let* escape := css_at_char parser 0 (fun c => c =? 92) in
      (if (escape : bool) then
         css_advance parser 1 ;;
         let* done := css_at_end parser in
         (if negb (done : bool) then css_advance parser 1 else ret tt)
       else css_advance parser 1) ;;
      ret (Next tt)
    else ret (Done tt)) tt.

Definition css_parse_string (parser quote : Z) : prog (dom H) Z :=
  css_advance parser 1 ;;
  let* start := css_position parser in
  css_skip_to parser quote ;;
  let* done := css_at_end parser in
  if (done : bool) then ret 0
  else
    let* string := css_copy parser start in
    css_advance parser 1 ;;
    ret string.

Definition css_parse_url (parser : Z) : prog (dom H) Z :=
  css_advance parser 3 ;;
  css_skip parser isspace ;;
  let* double := css_at_char parser 0 (fun c => c =? 34) in
  let* single := css_at_char parser 0 (fun c => c =? 39) in
  let* url :=
    (if (double : bool) then let* url := css_parse_string parser 34 in ret (Some url)
     else if (single : bool) then let* url := css_parse_string parser 39 in ret (Some url)
     else
       let* start := css_position parser in
       css_skip_to parser 41 ;;
       let* done := css_at_end parser in
       if (done : bool) then ret None
       else let* url := css_copy parser start in ret (Some url)) in
  match url with
  | None => ret 0
  | Some url =>
      css_skip parser isspace ;;
      let* close := css_at_char parser 0 (fun c => c =? 41) in
      if (close : bool) then css_advance parser 1 ;; ret url
      else free url ;; ret 0
  end.

(** *** White space and comments *)

(** [while (position + 1 < length && !(input[position] == '*' && input[position + 1] == '/')) position++;] *)
Definition find_comment_end (parser : Z) : prog (dom H) unit :=
  loop (fun _ =>
    let* inside := css_at_char parser 1 (fun _ => true) in
    if (inside : bool) then
      let* star := css_at_char parser 0 (fun c => c =? 42) in
      let* slash := css_at_char parser 1 (fun c => c =? 47) in
      if star && slash then ret (Done tt)
      else css_advance parser 1 ;; ret (Next tt)
    else ret (Done tt)) tt.

Definition skip_blank (parser : Z) : prog (dom H) unit :=
  loop (fun _ =>
    let* space := css_at_char parser 0 isspace in
    if (space : bool) then css_advance parser 1 ;; ret (Next tt)
    else
      let* slash := css_at_char parser 0 (fun c => c =? 47) in
      let* star := css_at_char parser 1 (fun c => c =? 42) in
      if slash && star then
        css_advance parser 2 ;;
        find_comment_end parser ;;
        css_advance parser 2 ;;
        ret (Next tt)
      else ret (Done tt)) tt.

(** ** Tokens *)

(** [token->type = type; position += n; return token;] *)
Definition css_punct (parser token : Z) (type : css_token_type_t) (n : Z) : prog (dom H) bool :=
  upd_css_token token (ct_with_type type) ;;
  css_advance parser n ;;
  ret true.

(** A delimiter of the character [c]. *)
Definition css_delim (parser token c : Z) : prog (dom H) unit :=
  upd_css_token token (ct_with_type CSS_TOKEN_DELIM) ;;
  let* value := malloc 2 in
  init_obj value (Str [u8 c]) ;;
  upd_css_token token (ct_with_value value 1) ;;
  css_advance parser 1.

(** A token with the string [value]. *)
Definition css_with_string (token : Z) (type : css_token_type_t) (value : Z) : prog (dom H) unit :=
  let* t := get_str (Ptr value) in
  upd_css_token token (fun k => ct_with_value value (Z.of_nat (length t)) (ct_with_type type k)).

(** [if (position + 1 < length && input[position + 1] == next)] *)
Definition css_pair (parser token next : Z) (type : css_token_type_t) : prog (dom H) bool :=
  let* is_next := css_at_char parser 1 (fun c => c =? next) in
  if (is_next : bool) then css_punct parser token type 2 else ret false.

(** The [switch] on the character: whether it made the token. *)
Definition css_single_token (parser token c : Z) : prog (dom H) bool :=
  if c =? 58 then css_punct parser token CSS_TOKEN_COLON 1
  else if c =? 59 then css_punct parser token CSS_TOKEN_SEMICOLON 1
  else if c =? 44 then css_punct parser token CSS_TOKEN_COMMA 1
  else if c =? 40 then css_punct parser token CSS_TOKEN_LEFT_PAREN 1
  else if c =? 41 then css_punct parser token CSS_TOKEN_RIGHT_PAREN 1
  else if c =? 91 then css_punct parser token CSS_TOKEN_LEFT_BRACKET 1
  else if c =? 93 then css_punct parser token CSS_TOKEN_RIGHT_BRACKET 1
  else if c =? 123 then css_punct parser token CSS_TOKEN_LEFT_BRACE 1
  else if c =? 125 then css_punct parser token CSS_TOKEN_RIGHT_BRACE 1
  else if c =? 126 then css_pair parser token 61 CSS_TOKEN_INCLUDE_MATCH
  else if c =? 124 then
    let* dash := css_pair parser token 61 CSS_TOKEN_DASH_MATCH in
    if (dash : bool) then ret true else css_pair parser token 124 CSS_TOKEN_COLUMN
  else if c =? 94 then css_pair parser token 61 CSS_TOKEN_PREFIX_MATCH
  else if c =? 36 then css_pair parser token 61 CSS_TOKEN_SUFFIX_MATCH
  else if c =? 42 then
    let* substring := css_pair parser token 61 CSS_TOKEN_SUBSTRING_MATCH in
    if (substring : bool) then ret true
    else css_delim parser token c ;; ret true
  else ret false.

(** The type says whether a point or an exponent was read; the number itself
    goes into the field that css.h does not have. *)
Definition css_parse_number (parser token : Z) : prog (dom H) Z :=
  let* start := css_position parser in
  let* sign := css_at_char parser 0 (fun c => (c =? 43) || (c =? 45)) in
  (if (sign : bool) then css_advance parser 1 else ret tt) ;;
  css_skip parser isdigit ;;
  let* has_decimal := css_at_char parser 0 (fun c => c =? 46) in
  (if (has_decimal : bool) then css_advance parser 1 ;; css_skip parser isdigit else ret tt) ;;
  let* has_exponent := css_at_char parser 0 (fun c => (c =? 101) || (c =? 69)) in
  (if (has_exponent : bool) then
     css_advance parser 1 ;;
     let* sign := css_at_char parser 0 (fun c => (c =? 43) || (c =? 45)) in
     (if (sign : bool) then css_advance parser 1 else ret tt) ;;
     css_skip parser isdigit
   else ret tt) ;;
  let* number_str := css_copy parser start in
  css_with_string token (if has_decimal || has_exponent then CSS_TOKEN_NUMBER else CSS_TOKEN_INTEGER) number_str ;;
  ret token.

(** [if (value) { ...; return token; }], and the fallback. *)
Definition css_string_or_delim (parser token c : Z) (type : css_token_type_t) (value : Z) : prog (dom H) Z :=
  (if value =? 0 then css_delim parser token c else css_with_string token type value) ;;
  ret token.

(** [strncasecmp(input + position, "url(", 4) == 0] *)
Definition css_at_url (parser : Z) : prog (dom H) bool :=
  let* p := css_parser parser in
  if u64 (cp_position p + 3) <? cp_length p then
    let* t := get_str (Ptr (cp_input p)) in
    ret (strncasecmp (drop (Z.to_nat (cp_position p)) t) (chars "url(") 4 =? 0)
  else ret false.

(** The tokens of several characters. *)
Definition css_multi_token (parser token c : Z) : prog (dom H) Z :=
  if c =? 64 then
    css_advance parser 1 ;;
    let* ident := css_parse_ident parser in
    css_string_or_delim parser token c CSS_TOKEN_AT_KEYWORD ident
  else if c =? 35 then
    css_advance parser 1 ;;
    let* hex := css_at_char parser 0 isxdigit in
    if (hex : bool) then
      let* start := css_position parser in
      css_skip parser isxdigit ;;
      let* hash := css_copy parser start in
      css_with_string token CSS_TOKEN_HASH hash ;;
      ret token
    else css_delim parser token c ;; ret token
  else if c =? 46 then
    let* digit := css_at_char parser 1 isdigit in
    if (digit : bool) then css_parse_number parser token
    else css_delim parser token c ;; ret token
  else if (c =? 45) || isdigit c then css_parse_number_or_ident parser token
  else if (c =? 34) || (c =? 39) then
    let* string := css_parse_string parser c in
    css_string_or_delim parser token c CSS_TOKEN_STRING string
  else if (c =? 117) || (c =? 85) then
    let* is_url := css_at_url parser in
    if (is_url : bool) then
      let* url := css_parse_url parser in
      css_string_or_delim parser token c CSS_TOKEN_URL url
    else
      let* ident := css_parse_ident parser in
      css_string_or_delim parser token c CSS_TOKEN_IDENT ident
  else if isalpha c || (c =? 95) then
    let* ident := css_parse_ident parser in
    css_string_or_delim parser token c CSS_TOKEN_IDENT ident
  else css_delim parser token c ;; ret token.

Definition css_next_token (parser : Z) : prog (dom H) Z :=
  if parser =? 0 then ret 0
  else
    let* done := css_at_end parser in
    if (done : bool) then ret 0
    else
      skip_blank parser ;;
      let* done := css_at_end parser in
      if (done : bool) then ret 0
      else
        let* token := malloc sizeof_css_token in
        init_obj token (Css (C_token zero_css_token)) ;;
        let* p := css_parser parser in
        upd_css_token token (ct_with_place (cp_line p) (cp_column p) (cp_position p)) ;;
        let* c := input_at (cp_input p) (cp_position p) in
        let* single := css_single_token parser token c in
        if (single : bool) then ret token
        else css_multi_token parser token c.

(** ** Values *)

Definition css_value_create (type : css_value_type_t) : prog (dom H) Z :=
  let* value := malloc sizeof_css_value in
  if value =? 0 then ret 0
  else
    init_obj value (Css (C_value zero_css_value)) ;;
    upd_css_value value (cv_with_type type) ;;
    ret value.

Definition css_value_parse_string (str : cstring) : prog (dom H) Z :=
  if is_null str then ret 0
  else
    let* value := css_value_create CSS_VALUE_STRING in
    if value =? 0 then ret 0
    else
      let* string := strdup str in
      upd_css_value value (cv_with_data (CV_string string)) ;;
      ret value.

Definition css_value_parse_url (str : cstring) : prog (dom H) Z :=
  if is_null str then ret 0
  else
    let* value := css_value_create CSS_VALUE_URL in
    if value =? 0 then ret 0
    else
      let* string := strdup str in
      upd_css_value value (cv_with_data (CV_string string)) ;;
      ret value.

(** The text behind its white space. *)
Fixpoint skip_spaces (t : text) : text :=
  match t with
  | b :: r => if negb (s8 b =? 0) && isspace (s8 b) then skip_spaces r else t
  | [] => []
  end.

Definition css_value_parse_length (str : cstring) : prog (dom H) Z :=
  if is_null str then ret 0
  else
    let* value := css_value_create CSS_VALUE_LENGTH in
    if value =? 0 then ret 0
    else
      let* t := get_str str in
      let '(number, read) := strtod t in
      upd_css_value value (cv_with_data (CV_dimension number 0)) ;;
      let unit := skip_spaces (drop read t) in
      let* unit := strdup (Lit (match unit with [] => chars "px" | _ => unit end)) in
      upd_css_value value (cv_with_data (CV_dimension number unit)) ;;
      ret value.

(** [strtoul(str, NULL, 16)] on the bytes of the text. *)
Definition strtoul_hex (t : text) : prog (dom H) Z :=
  match strtoul 4096 0 16 (write 4096 (t ++ [0]) ∅) with
  | Ok (v, _) => ret v
  | _ => fault
  end.

Definition css_value_parse_color (str : cstring) : prog (dom H) Z :=
  if is_null str then ret 0
  else
    let* value := css_value_create CSS_VALUE_COLOR in
    if value =? 0 then ret 0
    else
      let* t := get_str str in
      match t with
      | 35 :: digits =>
          let* v := strtoul_hex digits in
          let color := u32 v in
          let nibble k := Z.land (Z.shiftr color k) 15 * 17 in
          let byte k := Z.land (Z.shiftr color k) 255 in
          let set r g b a := upd_css_value value (cv_with_data (CV_color r g b a)) in
          let len := Z.of_nat (length t) in
          (if len =? 4 then set (nibble 8) (nibble 4) (nibble 0) 255
           else if len =? 5 then set (nibble 12) (nibble 8) (nibble 4) (nibble 0)
           else if len =? 7 then set (byte 16) (byte 8) (byte 0) 255
           else if len =? 9 then set (byte 24) (byte 16) (byte 8) (byte 0)
           else ret tt) ;;
          ret value
      | _ => ret value
      end.

(** The pointers in the union, as the view of the type; the bytes of another
    view are not read as one. *)
Definition string_of (d : css_value_data) : prog (dom H) Z :=
  match d with CV_zero => ret 0 | CV_string p => ret p | _ => fault end.
Definition unit_of (d : css_value_data) : prog (dom H) Z :=
  match d with CV_zero => ret 0 | CV_dimension _ u => ret u | _ => fault end.
Definition keyword_of (d : css_value_data) : prog (dom H) Z :=
  match d with CV_zero => ret 0 | CV_keyword p => ret p | _ => fault end.
Definition function_of (d : css_value_data) : prog (dom H) (Z * Z * Z) :=
  match d with CV_zero => ret (0, 0, 0) | CV_function n a c => ret (n, a, c) | _ => fault end.

(** The recursion follows the arguments: [fuel] bounds its depth. *)
Fixpoint css_value_destroy_n (fuel : nat) (value : Z) : prog (dom H) unit :=
  match fuel with
  | O => spin
  | S fuel =>
      if value =? 0 then ret tt
      else
        let* v := css_value value in
        (match cv_type v with
         | CSS_VALUE_STRING => let* p := string_of (cv_data v) in free p
         | CSS_VALUE_DIMENSION => let* u := unit_of (cv_data v) in free u
         | CSS_VALUE_FUNCTION =>
             let* (name, arguments, arg_count) := function_of (cv_data v) in
             free name ;;
             loop (fun i =>
               if i <? arg_count then
                 let* a := get_slot arguments i in
                 css_value_destroy_n fuel a ;;
                 ret (Next (u64 (i + 1)))
               else ret (Done tt)) 0 ;;
             free arguments
         | CSS_VALUE_KEYWORD => let* p := keyword_of (cv_data v) in free p
         | _ => ret tt
         end) ;;
        free value
  end.

(** More levels than there are objects. *)
Definition css_fuel : prog (dom H) nat := gets (fun s => S (size (objs s))).

Definition css_value_destroy (value : Z) : prog (dom H) unit :=
  let* fuel := css_fuel in css_value_destroy_n fuel value.

(** ** Selectors *)

Definition css_selector_create (type : css_selector_type_t) (value : cstring) : prog (dom H) Z :=
  let* selector := malloc sizeof_css_selector in
  if selector =? 0 then ret 0
  else
    init_obj selector (Css (C_selector zero_css_selector)) ;;
    upd_css_selector selector (cs_with_type type) ;;
    (if negb (is_null value) then
       let* v := strdup value in
       upd_css_selector selector (cs_with_value v)
     else ret tt) ;;
    ret selector.

Fixpoint css_selector_destroy_n (fuel : nat) (selector : Z) : prog (dom H) unit :=
  match fuel with
  | O => spin
  | S fuel =>
      if selector =? 0 then ret tt
      else
        let* s := css_selector selector in
        free (cs_value s) ;;
        free (cs_attr_name s) ;;
        free (cs_attr_value s) ;;
        (if negb (cs_next s =? 0) then css_selector_destroy_n fuel (cs_next s) else ret tt) ;;
        free selector
  end.

Definition css_selector_destroy (selector : Z) : prog (dom H) unit :=
  let* fuel := css_fuel in css_selector_destroy_n fuel selector.

Definition specificity_of (type : css_selector_type_t) : Z :=
  match type with
  | CSS_SELECTOR_TYPE_ID => 1000
  | CSS_SELECTOR_TYPE_CLASS | CSS_SELECTOR_TYPE_ATTRIBUTE | CSS_SELECTOR_TYPE_PSEUDO_CLASS => 100
  | CSS_SELECTOR_TYPE_ELEMENT | CSS_SELECTOR_TYPE_PSEUDO_ELEMENT => 10
  | _ => 0
  end.

Definition css_selector_calculate_specificity (selector : Z) : prog (dom H) Z :=
  if selector =? 0 then ret 0
  else
    loop (fun '(selector, specificity) =>
      if negb (selector =? 0) then
        let* s := css_selector selector in
        ret (Next (cs_next s, u32 (specificity + specificity_of (cs_type s))))
      else ret (Done specificity)) (selector, 0).

(** ** Rules *)

Definition css_rule_create (selectors : Z) : prog (dom H) Z :=
  let* rule := malloc sizeof_css_rule in
  if rule =? 0 then ret 0
  else
    init_obj rule (Css (C_rule zero_css_rule)) ;;
    upd_css_rule rule (cr_with_selectors selectors) ;;
    (if negb (selectors =? 0) then
       let* specificity := css_selector_calculate_specificity selectors in
       upd_css_rule rule (cr_with_specificity specificity)
     else ret tt) ;;
    ret rule.

Definition css_rule_destroy (rule : Z) : prog (dom H) unit :=
  if rule =? 0 then ret tt
  else
    let* r := css_rule rule in
    loop (fun selector =>
      if negb (selector =? 0) then
        let* s := css_selector selector in
        let next := cs_next s in
        css_selector_destroy selector ;;
        ret (Next next)
      else ret (Done tt)) (cr_selectors r) ;;
    let* r := css_rule rule in
    loop (fun declaration =>
      if negb (declaration =? 0) then
        let* d := css_declaration declaration in
        let next := cd_next d in
        css_declaration_destroy declaration ;;
        ret (Next next)
      else ret (Done tt)) (cr_declarations r) ;;
    free rule.

Definition css_rule_add_declaration (rule declaration : Z) : prog (dom H) unit :=
  if (rule =? 0) || (declaration =? 0) then ret tt
  else
    let* r := css_rule rule in
    upd_css_declaration declaration (cd_with_next (cr_declarations r)) ;;
    upd_css_rule rule (cr_with_declarations declaration).

(** ** Style sheets *)

Definition css_stylesheet_create (url : cstring) : prog (dom H) Z :=
  let* stylesheet := malloc sizeof_css_stylesheet in
  if stylesheet =? 0 then ret 0
  else
    init_obj stylesheet (Css (C_stylesheet zero_css_stylesheet)) ;;
    (if negb (is_null url) then
       let* u := strdup url in
       upd_css_stylesheet stylesheet (ss_with_url u)
     else ret tt) ;;
    ret stylesheet.

Definition css_stylesheet_destroy (stylesheet : Z) : prog (dom H) unit :=
  if stylesheet =? 0 then ret tt
  else
    let* s := css_stylesheet stylesheet in
    free (ss_url s) ;;
    free (ss_title s) ;;
    loop (fun rule =>
      if negb (rule =? 0) then
        let* r := css_rule rule in
        let next := cr_next r in
        css_rule_destroy rule ;;
        ret (Next next)
      else ret (Done tt)) (ss_rules s) ;;
    free stylesheet.

Definition css_stylesheet_add_rule (stylesheet rule : Z) : prog (dom H) unit :=
  if (stylesheet =? 0) || (rule =? 0) then ret tt
  else
    let* s := css_stylesheet stylesheet in
    upd_css_rule rule (cr_with_next (ss_rules s)) ;;
    upd_css_stylesheet stylesheet (ss_with_rules rule).

(** ** Parsing rules *)

(** [free(token->value); free(token);] *)
Definition free_css_token (token : Z) : prog (dom H) unit :=
  let* t := css_token token in
  free (ct_value t) ;;
  free token.

Definition token_type (token : Z) : prog (dom H) css_token_type_t := let* t := css_token token in ret (ct_type t).

(** [while ((token = css_next_token(parser)) != NULL) { if (stop) break; free ... }] *)
Definition skip_tokens (parser : Z) (stop : css_token_type_t -> bool) : prog (dom H) Z :=
  loop (fun _ =>
    let* token := css_next_token parser in
    if token =? 0 then ret (Done 0)
    else
      let* type := token_type token in
      if stop type then ret (Done token)
      else free_css_token token ;; ret (Next tt)) tt.

Definition is_type (a b : css_token_type_t) : bool := bool_decide (a = b).

(** The block of an at-rule. *)
Definition skip_block (parser : Z) : prog (dom H) Z :=
  loop (fun brace_depth =>
    let* token := css_next_token parser in
    if token =? 0 then ret (Done 0)
    else
      let* type := token_type token in
      let brace_depth := (if is_type type CSS_TOKEN_LEFT_BRACE then s32 (brace_depth + 1)
                          else if is_type type CSS_TOKEN_RIGHT_BRACE then s32 (brace_depth - 1) else brace_depth) in
      if is_type type CSS_TOKEN_RIGHT_BRACE && (brace_depth =? 0) then ret (Done token)
      else free_css_token token ;; ret (Next brace_depth)) 1.

Definition css_parse_at_rule (parser stylesheet at_keyword : Z) : prog (dom H) unit :=
  let* token := skip_tokens parser (fun t => is_type t CSS_TOKEN_SEMICOLON || is_type t CSS_TOKEN_LEFT_BRACE) in
  let* token :=
    (if negb (token =? 0) then
       let* type := token_type token in
       if is_type type CSS_TOKEN_LEFT_BRACE then skip_block parser else ret token
     else ret token) in
  if negb (token =? 0) then free_css_token token else ret tt.

(** [realloc] to [n] bytes and two calls of [strcat]. *)
Definition append_value (value n token_value : Z) : prog (dom H) Z :=
  let* old := get_str (Ptr value) in
  let* new := get_str (Ptr token_value) in
  let* q := move_obj value n (Str (old ++ [32] ++ new)) in
  if (q =? 0) || (n <? Z.of_nat (length old + length new) + 2) then fault else ret q.

(** The values up to a semicolon or a closing brace, in one string. *)
Definition parse_value (parser : Z) : prog (dom H) (Z * Z) :=
  loop (fun value =>
    let* token := css_next_token parser in
    if token =? 0 then ret (Done (value, token))
    else
      let* t := css_token token in
      if is_type (ct_type t) CSS_TOKEN_SEMICOLON || is_type (ct_type t) CSS_TOKEN_RIGHT_BRACE then ret (Done (value, token))
      else
        let* value :=
          (if negb (value =? 0) then
             let* old := get_str (Ptr value) in
             let* new := get_str (Ptr (ct_value t)) in
             append_value value (u64 (Z.of_nat (length old) + Z.of_nat (length new) + 2)) (ct_value t)
           else strdup (Ptr (ct_value t))) in
        free_css_token token ;;
        ret (Next value)) 0.

Definition css_parse_declaration (parser rule property_token : Z) : prog (dom H) unit :=
  let* token := css_next_token parser in
  let* colon := (if token =? 0 then ret false else let* type := token_type token in ret (is_type type CSS_TOKEN_COLON)) in
  if negb (colon : bool) then
    (if negb (token =? 0) then free_css_token token else ret tt)
  else
    free_css_token token ;;
    let* (value, token) := parse_value parser in
    let* property := css_token property_token in
    (if negb (value =? 0) && negb (ct_value property =? 0) then
       let* declaration := css_declaration_create in
       (if negb (declaration =? 0) then
          let* p := strdup (Ptr (ct_value property)) in
          upd_css_declaration declaration (cd_with_property p) ;;
          let* v := css_value_parse_string (Ptr value) in
          upd_css_declaration declaration (cd_with_value v) ;;
          css_rule_add_declaration rule declaration
        else ret tt) ;;
       free value
     else ret tt) ;;
    if negb (token =? 0) then
      let* type := token_type token in
      (if negb (is_type type CSS_TOKEN_SEMICOLON) && negb (is_type type CSS_TOKEN_RIGHT_BRACE) then free_css_token token else ret tt)
    else ret tt.

(** The declarations up to the closing brace. *)
Definition parse_declarations (parser rule : Z) : prog (dom H) unit :=
  loop (fun _ =>
    let* token := css_next_token parser in
    if token =? 0 then ret (Done tt)
    else
      let* type := token_type token in
      if is_type type CSS_TOKEN_RIGHT_BRACE then ret (Done tt)
      else
        (if is_type type CSS_TOKEN_IDENT then css_parse_declaration parser rule token else ret tt) ;;
        free_css_token token ;;
        ret (Next tt)) tt.

Definition css_parse_style_rule (parser stylesheet first_token : Z) : prog (dom H) unit :=
  let* rule := css_rule_create 0 in
  if rule =? 0 then ret tt
  else
    let* first := css_token first_token in
    let* selector := css_selector_create CSS_SELECTOR_TYPE_ELEMENT (Ptr (ct_value first)) in
    (if negb (selector =? 0) then
       let* r := css_rule rule in
       upd_css_selector selector (cs_with_next (cr_selectors r)) ;;
       upd_css_rule rule (cr_with_selectors selector)
     else ret tt) ;;
    let* token := skip_tokens parser (fun t => is_type t CSS_TOKEN_LEFT_BRACE) in
    if token =? 0 then css_rule_destroy rule
    else
      free_css_token token ;;
      parse_declarations parser rule ;;
      css_stylesheet_add_rule stylesheet rule.

Definition css_parse_rule (parser stylesheet first_token : Z) : prog (dom H) unit :=
  let* type := token_type first_token in
  if is_type type CSS_TOKEN_AT_KEYWORD then css_parse_at_rule parser stylesheet first_token
  else if is_type type CSS_TOKEN_IDENT || is_type type CSS_TOKEN_HASH then css_parse_style_rule parser stylesheet first_token
  else ret tt.

Definition css_parser_parse (parser css : Z) : prog (dom H) Z :=
  if (parser =? 0) || (css =? 0) then ret 0
  else
    let* t := get_str (Ptr css) in
    upd_css_parser parser (cp_with_input css (Z.of_nat (length t))) ;;
    let* stylesheet := css_stylesheet_create (Ptr 0) in
    if stylesheet =? 0 then ret 0
    else
      loop (fun _ =>
        let* token := css_next_token parser in
        if token =? 0 then ret (Done tt)
        else
          css_parse_rule parser stylesheet token ;;
          free_css_token token ;;
          ret (Next tt)) tt ;;
      ret stylesheet.
End Css.
