(* ===== verification/CssSpec.v ===== *)
(** * What the CSS parser computes, on texts

    [css_scan] is the tokenizer on the text that is left: a token and the
    rest.  [sheet_of] is the rules that are read from a text, and how many
    tokens are never freed; it is [None] when the code uses the value of a
    token that has none.  [CssScan] and [CssProofs] show that the programs of
    [Css] do the same in memory. *)

From S2P Require Import Prelude CMem CStr Ctype Alloc CssObj DomObj Scan Css.

(** A function that css_parser.c calls and nothing defines: the type and the
    length of the token at the beginning of a text. *)
Class NumberOrIdent : Type := number_or_ident : text -> css_token_type_t * nat.

Record ctok : Type := CTok { ck_type : css_token_type_t; ck_value : option text }.

(** ** White space and comments *)

(** The text from the end of the comment on; one character or none when it
    does not end. *)
Fixpoint comment_end (l : text) : text :=
  match l with
  | b :: r => if is_nil r || is_char 42 b && starts 47 r then l else comment_end r
  | [] => []
  end.

Fixpoint blank_n (fuel : nat) (l : text) : text :=
  match fuel, l with
  | S fuel, b :: r =>
      if isspace (s8 b) then blank_n fuel r
      else if is_char 47 b && starts 42 r then blank_n fuel (drop 2 (comment_end (drop 1 r)))
      else l
  | _, _ => l
  end.

Definition blank (l : text) : text := blank_n (length l) l.

(** ** Parts of tokens *)

Definition scan_ident (l : text) : option text * text :=
  match l with
  | b :: r => if ident_start (s8 b) then (Some (b :: takew ident_char r), dropw ident_char r) else (None, l)
  | [] => (None, [])
  end.

(** The characters before [stop], over those behind a backslash. *)
Fixpoint span_to (stop : Z) (l : text) : nat :=
  match l with
  | [] => 0
  | b :: r =>
      if is_char stop b then 0
      else if is_char 92 b then match r with [] => 1 | _ :: r' => S (S (span_to stop r')) end
      else S (span_to stop r)
  end.

(** Behind the quote. *)
Definition scan_string (quote : Z) (l : text) : option text * text :=
  match drop (span_to quote l) l with
  | [] => (None, [])
  | _ :: r => (Some (take (span_to quote l) l), r)
  end.

Definition scan_url (l : text) : option text * text :=
  let l := dropw isspace (drop 3 l) in
  let close u r := let r := dropw isspace r in if starts 41 r then (u, drop 1 r) else (None, r) in
  if starts 34 l then let '(u, r) := scan_string 34 (drop 1 l) in close u r
  else if starts 39 l then let '(u, r) := scan_string 39 (drop 1 l) in close u r
  else match drop (span_to 41 l) l with
       | [] => (None, [])
       | r => close (Some (take (span_to 41 l) l)) r
       end.

Definition skip_sign (l : text) : text := if head_is (fun c => (c =? 43) || (c =? 45)) l then drop 1 l else l.

Definition scan_number (l : text) : css_token_type_t * text :=
  let l := dropw isdigit (skip_sign l) in
  let point := starts 46 l in
  let l := if point then dropw isdigit (drop 1 l) else l in
  let exponent := head_is (fun c => (c =? 101) || (c =? 69)) l in
  let l := if exponent then dropw isdigit (skip_sign (drop 1 l)) else l in
  (if point || exponent then CSS_TOKEN_NUMBER else CSS_TOKEN_INTEGER, l).

(** ** Tokens *)

Definition punct (ty : css_token_type_t) : option ctok := Some (CTok ty None).
Definition delim (c : Z) : ctok := CTok CSS_TOKEN_DELIM (Some [u8 c]).

(** The [switch] on the character [c] before [r]. *)
Definition scan_single (c : Z) (r : text) : option (ctok * text) :=
  let one ty := Some (CTok ty None, r) in
  let pair b ty := if starts b r then Some (CTok ty None, drop 1 r) else None in
  if c =? 58 then one CSS_TOKEN_COLON
  else if c =? 59 then one CSS_TOKEN_SEMICOLON
  else if c =? 44 then one CSS_TOKEN_COMMA
  else if c =? 40 then one CSS_TOKEN_LEFT_PAREN
  else if c =? 41 then one CSS_TOKEN_RIGHT_PAREN
  else if c =? 91 then one CSS_TOKEN_LEFT_BRACKET
  else if c =? 93 then one CSS_TOKEN_RIGHT_BRACKET
  else if c =? 123 then one CSS_TOKEN_LEFT_BRACE
  else if c =? 125 then one CSS_TOKEN_RIGHT_BRACE
  else if c =? 126 then pair 61 CSS_TOKEN_INCLUDE_MATCH
  else if c =? 124 then match pair 61 CSS_TOKEN_DASH_MATCH with Some k => Some k | None => pair 124 CSS_TOKEN_COLUMN end
  else if c =? 94 then pair 61 CSS_TOKEN_PREFIX_MATCH
  else if c =? 36 then pair 61 CSS_TOKEN_SUFFIX_MATCH
  else if c =? 42 then match pair 61 CSS_TOKEN_SUBSTRING_MATCH with Some k => Some k | None => Some (delim c, r) end
  else None.

(** The token with the string, or a delimiter that takes one character more. *)
Definition string_or_delim (c : Z) (ty : css_token_type_t) (x : option text * text) : ctok * text :=
  match x with
  | (Some w, r) => (CTok ty (Some w), r)
  | (None, r) => (delim c, drop 1 r)
  end.

(** The text that was read when [r] is left of [l]. *)
Definition read (l r : text) : text := take (length l - length r) l.

Section Spec.
Context `{CssStrings} `{NumberOrIdent}.

Definition is_url (l : text) : bool := (4 <=? length l)%nat && (strncasecmp l (chars "url(") 4 =? 0).

(** The tokens of several characters, of a text that begins with [b]. *)
Definition scan_multi (b : Z) (r : text) : ctok * text :=
  let l := b :: r in
  let c := s8 b in
  if c =? 64 then string_or_delim c CSS_TOKEN_AT_KEYWORD (scan_ident r)
  else if c =? 35 then
    if head_is isxdigit r then (CTok CSS_TOKEN_HASH (Some (takew isxdigit r)), dropw isxdigit r) else (delim c, drop 1 r)
  else if c =? 46 then
    if head_is isdigit r then let '(ty, r') := scan_number l in (CTok ty (Some (read l r')), r') else (delim c, r)
  else if (c =? 45) || isdigit c then
    let '(ty, n) := number_or_ident l in (CTok ty (Some (take n l)), drop n l)
  else if (c =? 34) || (c =? 39) then string_or_delim c CSS_TOKEN_STRING (scan_string c r)
  else if (c =? 117) || (c =? 85) then
    if is_url l then string_or_delim c CSS_TOKEN_URL (scan_url l) else string_or_delim c CSS_TOKEN_IDENT (scan_ident l)
  else if isalpha c || (c =? 95) then string_or_delim c CSS_TOKEN_IDENT (scan_ident l)
  else (delim c, r).

Definition css_scan (l : text) : option (ctok * text) :=
  match blank l with
  | [] => None
  | b :: r => Some (match scan_single (s8 b) r with Some k => k | None => scan_multi b r end)
  end.

(** ** Rules *)

(** Tokens up to one that [stop] holds of: that token, if any, and the rest. *)
Fixpoint skip_to (fuel : nat) (stop : css_token_type_t -> bool) (l : text) : option ctok * text :=
  match fuel with
  | O => (None, [])
  | S fuel =>
      match css_scan l with
      | None => (None, [])
      | Some (k, r) => if stop (ck_type k) then (Some k, r) else skip_to fuel stop r
      end
  end.

Fixpoint skip_braces (fuel : nat) (depth : Z) (l : text) : option ctok * text :=
  match fuel with
  | O => (None, [])
  | S fuel =>
      match css_scan l with
      | None => (None, [])
      | Some (k, r) =>
          let depth := if is_type (ck_type k) CSS_TOKEN_LEFT_BRACE then s32 (depth + 1)
                       else if is_type (ck_type k) CSS_TOKEN_RIGHT_BRACE then s32 (depth - 1) else depth in
          if is_type (ck_type k) CSS_TOKEN_RIGHT_BRACE && (depth =? 0) then (Some k, r) else skip_braces fuel depth r
      end
  end.

(** What is left of an at-rule, and how many tokens stay allocated: the
    opening brace. *)
Definition at_rule (l : text) : nat * text :=
  match skip_to (S (length l)) (fun t => is_type t CSS_TOKEN_SEMICOLON || is_type t CSS_TOKEN_LEFT_BRACE) l with
  | (Some k, r) =>
      if is_type (ck_type k) CSS_TOKEN_LEFT_BRACE then (1%nat, (skip_braces (S (length r)) 1 r).2) else (0%nat, r)
  | (None, r) => (0%nat, r)
  end.

(** The tokens of a value, joined by blanks; the outer [None] is a fault. *)
Fixpoint scan_values (fuel : nat) (acc : option text) (l : text) : option (option text * option ctok * text) :=
  match fuel with
  | O => None
  | S fuel =>
      match css_scan l with
      | None => Some (acc, None, [])
      | Some (k, r) =>
          if is_type (ck_type k) CSS_TOKEN_SEMICOLON || is_type (ck_type k) CSS_TOKEN_RIGHT_BRACE then Some (acc, Some k, r)
          else match ck_value k with
               | None => None
               | Some w => scan_values fuel (Some (match acc with None => w | Some v => v ++ [32] ++ w end)) r
               end
      end
  end.

Abbreviation decl := (text * text)%type.

(** The declaration of [property], the tokens that stay, and the rest. *)
Definition scan_decl (property : text) (l : text) : option (option decl * nat * text) :=
  match css_scan l with
  | None => Some (None, 0%nat, [])
  | Some (k, r) =>
      if is_type (ck_type k) CSS_TOKEN_COLON then
        match scan_values (S (length r)) None r with
        | None => None
        | Some (v, stop, r') => Some ((fun v => (property, v)) <$> v, match stop with Some _ => 1%nat | None => 0%nat end, r')
        end
      else Some (None, 0%nat, r)
  end.

(** The declarations of a rule, the last one first. *)
Fixpoint scan_decls (fuel : nat) (acc : list decl) (leaked : nat) (l : text) : option (list decl * nat * text) :=
  match fuel with
  | O => None
  | S fuel =>
      match css_scan l with
      | None => Some (acc, leaked, [])
      | Some (k, r) =>
          if is_type (ck_type k) CSS_TOKEN_RIGHT_BRACE then Some (acc, S leaked, r)
          else if is_type (ck_type k) CSS_TOKEN_IDENT then
            match ck_value k with
            | None => None
            | Some property =>
                match scan_decl property r with
                | None => None
                | Some (d, n, r') => scan_decls fuel (match d with Some d => d :: acc | None => acc end) (leaked + n) r'
                end
            end
          else scan_decls fuel acc leaked r
      end
  end.

Abbreviation srule := (text * list decl)%type.

(** A style rule with the selector [name]: none when the text ends first. *)
Definition style_rule (name : text) (l : text) : option (option srule * nat * text) :=
  match skip_to (S (length l)) (fun t => is_type t CSS_TOKEN_LEFT_BRACE) l with
  | (None, r) => Some (None, 0%nat, r)
  | (Some _, r) =>
      match scan_decls (S (length r)) [] 0 r with
      | None => None
      | Some (ds, n, r') => Some (Some (name, ds), n, r')
      end
  end.

(** The rules of a sheet, the last one first. *)
Fixpoint scan_rules (fuel : nat) (acc : list srule) (leaked : nat) (l : text) : option (list srule * nat) :=
  match fuel with
  | O => None
  | S fuel =>
      match css_scan l with
      | None => Some (acc, leaked)
      | Some (k, r) =>
          if is_type (ck_type k) CSS_TOKEN_AT_KEYWORD then
            let '(n, r') := at_rule r in scan_rules fuel acc (leaked + n) r'
          else if is_type (ck_type k) CSS_TOKEN_IDENT || is_type (ck_type k) CSS_TOKEN_HASH then
            match ck_value k with
            | None => None
            | Some name =>
                match style_rule name r with
                | None => None
                | Some (rule, n, r') => scan_rules fuel (match rule with Some x => x :: acc | None => acc end) (leaked + n) r'
                end
            end
          else scan_rules fuel acc leaked r
      end
  end.

Definition sheet_of (l : text) : option (list srule * nat) := scan_rules (S (length l)) [] 0 l.
End Spec.

(** ** The tokenizer makes progress *)

Implicit Types l r : text.

Lemma comment_end_length l : (length (comment_end l) <= length l)%nat.
Proof. induction l as [|b l IH]; [done|]. cbn [comment_end]. destruct (is_nil l || _); cbn [length]; lia. Qed.

Lemma blank_n_fuel f g l : (length l <= f)%nat -> (length l <= g)%nat -> blank_n f l = blank_n g l.
Proof.
  revert g l. induction f as [|f IH]; intros g l Hf Hg; [destruct l; [by destruct g|cbn in Hf; lia]|].
  destruct l as [|b r]; [by destruct g|]. cbn [length] in *. destruct g as [|g]; [lia|]. cbn [blank_n].
  destruct (isspace (s8 b)); [apply IH; lia|]. destruct (is_char 47 b && starts 42 r); [|done].
  pose proof (comment_end_length (drop 1 r)) as Hc. rewrite length_drop in Hc. apply IH; rewrite length_drop; lia.
Qed.

Lemma blank_step b r : blank (b :: r) =
  if isspace (s8 b) then blank r else if is_char 47 b && starts 42 r then blank (drop 2 (comment_end (drop 1 r))) else b :: r.
Proof.
  unfold blank at 1. cbn [length blank_n]. destruct (isspace (s8 b)); [done|]. destruct (is_char 47 b && starts 42 r); [|done].
  pose proof (comment_end_length (drop 1 r)) as Hc. rewrite length_drop in Hc. apply blank_n_fuel; rewrite ?length_drop; lia.
Qed.

Lemma suffix_dropw C l : exists w, l = w ++ dropw C l.
Proof. exists (takew C l). by rewrite takew_dropw. Qed.

Lemma suffix_sign l : exists w, l = w ++ skip_sign l.
Proof. unfold skip_sign. destruct (head_is _ l); [exists (take 1 l); by rewrite take_drop|by exists []]. Qed.

Lemma suffix_trans l1 l2 l3 : (exists w, l1 = w ++ l2) -> (exists w, l2 = w ++ l3) -> exists w, l1 = w ++ l3.
Proof. intros [w1 ->] [w2 ->]. exists (w1 ++ w2). by rewrite app_assoc. Qed.

Lemma suffix_drop n l : exists w, l = w ++ drop n l.
Proof. exists (take n l). by rewrite take_drop. Qed.

Lemma read_suffix l r : (exists w, l = w ++ r) -> l = read l r ++ r.
Proof. intros [w ->]. unfold read. rewrite length_app. replace (length w + length r - length r)%nat with (length w) by lia. by rewrite take_app_length. Qed.

Lemma scan_number_suffix l : exists w, l = w ++ (scan_number l).2.
Proof.
  unfold scan_number. cbn zeta. cbn [snd]. eapply suffix_trans; [apply suffix_sign|]. eapply suffix_trans; [apply (suffix_dropw isdigit)|].
  set (l1 := dropw isdigit (skip_sign l)). set (l2 := if starts 46 l1 then _ else _).
  eapply (suffix_trans _ l2).
  - unfold l2. destruct (starts 46 l1); [|by exists []]. eapply suffix_trans; [apply (suffix_drop 1)|apply suffix_dropw].
  - destruct (head_is _ l2); [|by exists []]. eapply suffix_trans; [apply (suffix_drop 1)|].
    eapply suffix_trans; [apply suffix_sign|apply suffix_dropw].
Qed.

Lemma take_span stop l : l = take (span_to stop l) l ++ drop (span_to stop l) l.
Proof. by rewrite take_drop. Qed.


Lemma blank_length l : (length (blank l) <= length l)%nat.
Proof.
  unfold blank. generalize (length l) at 1 as f. intros f. revert l. induction f as [|f IH]; intros l; [done|].
  destruct l as [|b r]; [done|]. cbn [blank_n]. destruct (isspace (s8 b)); [cbn [length]; specialize (IH r); lia|].
  destruct (is_char 47 b && starts 42 r); [|done]. pose proof (comment_end_length (drop 1 r)) as Hc. rewrite length_drop in Hc.
  specialize (IH (drop 2 (comment_end (drop 1 r)))). rewrite length_drop in IH. cbn [length]. lia.
Qed.

Lemma suffix_length {A} (l r : list A) : (exists w, l = w ++ r) -> (length r <= length l)%nat.
Proof. intros [w ->]. rewrite length_app. lia. Qed.

Lemma scan_ident_length c ty b r : (length (string_or_delim c ty (scan_ident (b :: r))).2 <= length r)%nat.
Proof. unfold scan_ident. destruct (ident_start (s8 b)); cbn [string_or_delim snd]; [apply dropw_length|by rewrite drop_1]. Qed.

Lemma scan_ident_le l : (length (scan_ident l).2 <= length l)%nat.
Proof. destruct l as [|b r]; [done|]. unfold scan_ident. destruct (ident_start (s8 b)); cbn; [pose proof (dropw_length ident_char r)|]; lia. Qed.

Lemma scan_string_le q l : (length (scan_string q l).2 <= length l)%nat.
Proof.
  unfold scan_string. pose proof (suffix_length _ _ (suffix_drop (span_to q l) l)) as Hd.
  destruct (drop (span_to q l) l); cbn in *; lia.
Qed.

Lemma string_or_delim_le c ty x n : (length x.2 <= n)%nat -> (length (string_or_delim c ty x).2 <= n)%nat.
Proof. destruct x as [[w|] r]; cbn; [done|]. rewrite length_drop. lia. Qed.

Lemma scan_url_le l : (length (scan_url l).2 <= length (drop 3 l))%nat.
Proof.
  unfold scan_url. cbn zeta. pose proof (dropw_length isspace (drop 3 l)) as H1. set (l1 := dropw isspace (drop 3 l)) in *.
  assert (forall (u : option text) r, (length r <= length l1)%nat ->
    (length (if starts 41 (dropw isspace r) then (u, drop 1 (dropw isspace r)) else (None, dropw isspace r)).2 <= length (drop 3 l))%nat) as Hc.
  { intros u r Hr. pose proof (dropw_length isspace r). destruct (starts 41 _); cbn; rewrite ?length_drop in *; lia. }
  destruct (starts 34 l1); [|destruct (starts 39 l1)].
  - pose proof (scan_string_le 34 (drop 1 l1)) as Hs. destruct (scan_string 34 (drop 1 l1)) as [u r]. apply Hc. cbn in Hs. rewrite length_drop in Hs. lia.
  - pose proof (scan_string_le 39 (drop 1 l1)) as Hs. destruct (scan_string 39 (drop 1 l1)) as [u r]. apply Hc. cbn in Hs. rewrite length_drop in Hs. lia.
  - pose proof (suffix_length _ _ (suffix_drop (span_to 41 l1) l1)) as Hd. destruct (drop (span_to 41 l1) l1); [cbn; lia|]. apply Hc. lia.
Qed.

Lemma scan_single_length c r k r' : scan_single c r = Some (k, r') -> (length r' <= length r)%nat.
Proof.
  unfold scan_single. cbn zeta.
  repeat (destruct (c =? _); [try (destruct (starts _ r)); try (destruct (starts _ r)); intros [= _ <-]; rewrite ?length_drop; lia|]). done.
Qed.

Lemma scan_number_length b r : s8 b = 46 -> (length (scan_number (b :: r)).2 <= length r)%nat.
Proof.
  intros E. unfold scan_number. cbn zeta.
  assert (dropw isdigit (skip_sign (b :: r)) = b :: r) as ->.
  { unfold skip_sign. cbn [head_is]. rewrite E. cbn [Z.eqb Pos.eqb orb]. by rewrite dropw_step, E. }
  assert (starts 46 (b :: r) = true) as -> by (cbn [starts]; unfold is_char; by rewrite E).
  cbn [orb snd]. rewrite drop_1. pose proof (dropw_length isdigit r) as H1. set (l2 := dropw isdigit r) in *.
  destruct (head_is _ l2); [|done]. pose proof (dropw_length isdigit (skip_sign (drop 1 l2))) as H2.
  pose proof (suffix_length _ _ (suffix_sign (drop 1 l2))) as H3. rewrite length_drop in H3. lia.
Qed.

(** The length that is taken lies within the text. *)
Class NumberOrIdentLength `{NumberOrIdent} : Prop :=
  number_or_ident_length : forall b l, (1 <= (number_or_ident (b :: l)).2 <= length (b :: l))%nat.

Section Progress.
Context `{CssStrings} `{NL : NumberOrIdentLength}.

Lemma scan_multi_length b r : (length (scan_multi b r).2 <= length r)%nat.
Proof using Type NL.
  unfold scan_multi. cbn zeta. destruct (s8 b =? 64); [apply string_or_delim_le, scan_ident_le|].
  destruct (s8 b =? 35); [destruct (head_is isxdigit r); cbn; [apply dropw_length|rewrite length_drop; lia]|].
  destruct (Z.eqb_spec (s8 b) 46) as [E|_].
  { destruct (head_is isdigit r); [|done]. pose proof (scan_number_length b r E) as Hn. by destruct (scan_number (b :: r)). }
  destruct ((s8 b =? 45) || isdigit (s8 b)).
  { pose proof (number_or_ident_length b r) as Hn. destruct (number_or_ident (b :: r)) as [ty n]. cbn [fst snd] in *. rewrite length_drop. cbn [length]. lia. }
  destruct ((s8 b =? 34) || (s8 b =? 39)); [apply string_or_delim_le, scan_string_le|].
  destruct ((s8 b =? 117) || (s8 b =? 85)).
  - destruct (is_url (b :: r)); [|apply scan_ident_length]. apply string_or_delim_le. etrans; [apply scan_url_le|]. rewrite length_drop. cbn [length]. lia.
  - destruct (isalpha (s8 b) || (s8 b =? 95)); [apply scan_ident_length|done].
Qed.

Lemma css_scan_length l k r : css_scan l = Some (k, r) -> (length r < length l)%nat.
Proof using Type NL.
  unfold css_scan. pose proof (blank_length l) as Hb. destruct (blank l) as [|b l1]; [done|]. cbn [length] in Hb. intros [= E].
  destruct (scan_single (s8 b) l1) as [[k1 r1]|] eqn:Es.
  - injection E as <- <-. apply scan_single_length in Es. lia.
  - pose proof (scan_multi_length b l1) as Hm. rewrite E in Hm. cbn in Hm. lia.
Qed.

(** The string of a token is not longer than what was taken. *)
Definition fits_in (l : text) (x : ctok * text) : Prop :=
  match ck_value x.1 with Some w => (length w + length x.2 <= length l)%nat | None => True end.

Lemma fits_delim c b r r' : (length r' <= length r)%nat -> fits_in (b :: r) (delim c, r').
Proof using Type. unfold fits_in. cbn. lia. Qed.

Lemma fits_string c ty x b r : (match x.1 with Some w => length w + length x.2 <= S (length r) | None => length (drop 1 x.2) <= length r end)%nat ->
  fits_in (b :: r) (string_or_delim c ty x).
Proof using Type. destruct x as [[w|] r']; unfold fits_in; cbn; lia. Qed.

Lemma fits_ident c ty b r l : l = b :: r \/ l = r -> fits_in (b :: r) (string_or_delim c ty (scan_ident l)).
Proof using Type.
  intros Hl. apply fits_string. destruct l as [|b' r']; cbn [scan_ident]; [cbn; lia|].
  assert (length r' <= length r)%nat as Hr by (destruct Hl as [[= -> ->]| <-]; cbn; lia).
  assert (length (b' :: r') <= S (length r))%nat as Hr2 by (cbn; lia).
  destruct (ident_start (s8 b')); cbn [fst snd].
  - pose proof (f_equal length (takew_dropw ident_char r')) as E. rewrite length_app in E. cbn [length]. lia.
  - rewrite drop_1. done.
Qed.

Lemma fits_span stop l : (length (take (span_to stop l) l) + length (drop (span_to stop l) l) = length l)%nat.
Proof using Type. rewrite <- length_app. by rewrite take_drop. Qed.

Lemma fits_scan_string c ty b r : fits_in (b :: r) (string_or_delim c ty (scan_string (s8 b) r)).
Proof using Type.
  apply fits_string. unfold scan_string. pose proof (fits_span (s8 b) r) as E. destruct (drop (span_to (s8 b) r) r); cbn in *; lia.
Qed.

Lemma url_value_le l w r : scan_url l = (Some w, r) -> (length w + length r <= length l)%nat.
Proof using Type.
  unfold scan_url. cbn zeta. pose proof (dropw_length isspace (drop 3 l)) as H1. rewrite length_drop in H1. set (l1 := dropw isspace (drop 3 l)) in *.
  assert (forall (u : option text) r', (if starts 41 (dropw isspace r') then (u, drop 1 (dropw isspace r')) else (None, dropw isspace r')) = (Some w, r) ->
    u = Some w /\ (length r <= length r')%nat) as Hc.
  { intros u r'. pose proof (dropw_length isspace r'). destruct (starts 41 _); [|done]. intros [= -> <-]. rewrite length_drop. split; [done|lia]. }
  destruct (starts 34 l1); [|destruct (starts 39 l1)].
  - unfold scan_string. pose proof (fits_span 34 (drop 1 l1)) as Hs. rewrite (length_drop l1) in Hs. destruct (drop (span_to 34 (drop 1 l1)) (drop 1 l1)); intros [[= <-] Hr]%Hc; cbn in *; lia.
  - unfold scan_string. pose proof (fits_span 39 (drop 1 l1)) as Hs. rewrite (length_drop l1) in Hs. destruct (drop (span_to 39 (drop 1 l1)) (drop 1 l1)); intros [[= <-] Hr]%Hc; cbn in *; lia.
  - pose proof (fits_span 41 l1) as Hs. destruct (drop (span_to 41 l1) l1); [done|]. intros [[= <-] Hr]%Hc; cbn in *; lia.
Qed.

Lemma fits_multi b r : fits_in (b :: r) (scan_multi b r).
Proof using Type NL.
  unfold scan_multi. cbn zeta. destruct (s8 b =? 64); [apply fits_ident; by right|].
  destruct (s8 b =? 35).
  { destruct (head_is isxdigit r); [|apply fits_delim; rewrite length_drop; lia]. unfold fits_in. cbn [fst snd ck_value length].
    pose proof (f_equal length (takew_dropw isxdigit r)) as E. rewrite length_app in E. lia. }
  destruct (s8 b =? 46).
  { destruct (head_is isdigit r); [|by apply fits_delim]. pose proof (read_suffix _ _ (scan_number_suffix (b :: r))) as E.
    destruct (scan_number (b :: r)) as [ty r']. unfold fits_in. cbn [fst snd ck_value] in *. apply (f_equal length) in E. rewrite length_app in E. lia. }
  destruct ((s8 b =? 45) || isdigit (s8 b)).
  { destruct (number_or_ident (b :: r)) as [ty n]. unfold fits_in. cbn [fst snd ck_value]. rewrite length_take, length_drop. lia. }
  destruct ((s8 b =? 34) || (s8 b =? 39)); [apply fits_scan_string|].
  destruct ((s8 b =? 117) || (s8 b =? 85)).
  - destruct (is_url (b :: r)); [|apply fits_ident; by left]. apply fits_string. pose proof (scan_url_le (b :: r)) as Hu. pose proof (url_value_le (b :: r)) as Hv.
    destruct (scan_url (b :: r)) as [[w|] r']; cbn [fst snd] in *; [by apply Hv|]. rewrite length_drop in *. cbn [length] in Hu. lia.
  - destruct (isalpha (s8 b) || (s8 b =? 95)); [apply fits_ident; by left|by apply fits_delim].
Qed.

Lemma fits_single c b r x : scan_single c r = Some x -> fits_in (b :: r) x.
Proof using Type.
  unfold scan_single. cbn zeta.
  repeat (destruct (c =? _); [try (destruct (starts _ r)); try (destruct (starts _ r)); intros [= <-]; first [exact I|by apply fits_delim]|]). done.
Qed.

Lemma css_scan_value l k r w : css_scan l = Some (k, r) -> ck_value k = Some w -> (length w + length r <= length l)%nat.
Proof using Type NL.
  unfold css_scan. pose proof (blank_length l) as Hb. destruct (blank l) as [|b l1]; [done|]. intros [= E] Hw.
  assert (fits_in (b :: l1) (k, r)) as Hf.
  { destruct (scan_single (s8 b) l1) as [x|] eqn:Es; [|rewrite <- E; apply fits_multi]. subst x. by apply (fits_single _ b) in Es. }
  unfold fits_in in Hf. cbn [fst snd] in Hf. rewrite Hw in Hf. lia.
Qed.

(** A text that ends leaves nothing. *)
Lemma skip_to_none f stop l : (skip_to f stop l).1 = None -> (skip_to f stop l).2 = [].
Proof using Type.
  revert l. induction f as [|f IH]; intros l; [done|]. cbn [skip_to]. destruct (css_scan l) as [[k r]|]; [|done].
  destruct (stop (ck_type k)); [done|apply IH].
Qed.

Lemma skip_braces_none f d l : (skip_braces f d l).1 = None -> (skip_braces f d l).2 = [].
Proof using Type.
  revert d l. induction f as [|f IH]; intros d l; [done|]. cbn [skip_braces]. destruct (css_scan l) as [[k r]|]; [|done].
  cbn zeta. destruct (is_type (ck_type k) CSS_TOKEN_RIGHT_BRACE && _); [done|apply IH].
Qed.

Lemma scan_values_length f acc l v k r : scan_values f acc l = Some (v, k, r) -> (length r <= length l)%nat.
Proof using Type NL.
  revert acc l. induction f as [|f IH]; intros acc l; [done|]. cbn [scan_values]. destruct (css_scan l) as [[k' r']|] eqn:E; [|intros [= _ _ <-]; cbn; lia].
  apply css_scan_length in E. destruct (is_type (ck_type k') CSS_TOKEN_SEMICOLON || _); [intros [= _ _ <-]; lia|].
  destruct (ck_value k'); [|done]. intros Hs%IH. lia.
Qed.

Lemma scan_decl_length name l d n r : scan_decl name l = Some (d, n, r) -> (length r <= length l)%nat.
Proof using Type NL.
  unfold scan_decl. destruct (css_scan l) as [[k rl]|] eqn:E; [|intros [= _ _ <-]; cbn; lia]. apply css_scan_length in E.
  destruct (is_type (ck_type k) CSS_TOKEN_COLON); [|intros [= _ _ <-]; lia].
  destruct (scan_values _ None rl) as [[[v k'] r']|] eqn:Ev; [|done]. apply scan_values_length in Ev. intros [= _ _ <-]. lia.
Qed.

Lemma scan_decls_length f acc m l ds n r : scan_decls f acc m l = Some (ds, n, r) -> (length r <= length l)%nat.
Proof using Type NL.
  revert acc m l. induction f as [|f IH]; intros acc m l; [done|]. cbn [scan_decls]. destruct (css_scan l) as [[k rl]|] eqn:E; [|intros [= _ _ <-]; cbn; lia].
  apply css_scan_length in E. destruct (is_type (ck_type k) CSS_TOKEN_RIGHT_BRACE); [intros [= _ _ <-]; lia|].
  destruct (is_type (ck_type k) CSS_TOKEN_IDENT); [|intros Hd%IH; lia].
  destruct (ck_value k); [|done]. destruct (scan_decl _ rl) as [[[d n1] r1]|] eqn:Ed; [|done]. apply scan_decl_length in Ed. intros Hd%IH. lia.
Qed.

Lemma skip_to_length f stop l : (length (skip_to f stop l).2 <= length l)%nat.
Proof using Type NL.
  revert l. induction f as [|f IH]; intros l; [cbn; lia|]. cbn [skip_to]. destruct (css_scan l) as [[k r]|] eqn:E; [|cbn; lia].
  apply css_scan_length in E. destruct (stop (ck_type k)); [cbn; lia|]. specialize (IH r). lia.
Qed.

Lemma skip_braces_length f d l : (length (skip_braces f d l).2 <= length l)%nat.
Proof using Type NL.
  revert d l. induction f as [|f IH]; intros d l; [cbn; lia|]. cbn [skip_braces]. destruct (css_scan l) as [[k r]|] eqn:E; [|cbn; lia].
  apply css_scan_length in E. cbn zeta. destruct (is_type (ck_type k) CSS_TOKEN_RIGHT_BRACE && _); [cbn; lia|].
  match goal with |- (length (skip_braces f ?d' r).2 <= _)%nat => specialize (IH d' r) end. lia.
Qed.

Lemma at_rule_length l : (length (at_rule l).2 <= length l)%nat.
Proof using Type NL.
  unfold at_rule. set (stop := fun ty => _). pose proof (skip_to_length (S (length l)) stop l) as Hs. destruct (skip_to _ stop l) as [[k|] r]; cbn [snd] in *; [|done].
  destruct (is_type _ _); [|done]. pose proof (skip_braces_length (S (length r)) 1 r). cbn [snd]. lia.
Qed.

Lemma style_rule_length name l x n r : style_rule name l = Some (x, n, r) -> (length r <= length l)%nat.
Proof using Type NL.
  unfold style_rule. set (stop := fun ty => _). pose proof (skip_to_length (S (length l)) stop l) as Hs. destruct (skip_to _ stop l) as [[k|] rl]; cbn [snd] in *; [|by intros [= _ _ <-]].
  destruct (scan_decls _ [] 0 rl) as [[[ds m] r']|] eqn:E; [|done]. apply scan_decls_length in E. intros [= _ _ <-]. lia.
Qed.
End Progress.
