(* ===== verification/CssScan.v ===== *)
(** * The CSS tokenizer refines [CssSpec.css_scan]

    [creading e P p t l] is a parser at [P] that reads the text [t] and has
    [l] left; its position is at most [e] behind the end, which happens after
    an unclosed comment or string.  Each function of the tokenizer moves the
    position as its specification on the rest of the text says, and returns a
    token that owns the specified string. *)

From S2P Require Import Sep Prelude CMem CStr Ctype Alloc CssObj DomObj Scan Dom DomSpec DomSep Css CssSpec.

Section CssScan.
Context {H : Type} `{LibcHeapLaws H} `{!CssLib H} `{!CssStrings} `{!NumberOrIdent}.
Abbreviation assn := (sprop obj).
Implicit Types (P : Z) (p : css_parser_t) (t l : text) (k e : nat).

(** ** Access *)

Ltac css_access := unfold css_token, css_value, css_selector, css_declaration, css_rule, css_stylesheet, css_parser,
    upd_css_token, upd_css_value, upd_css_selector, upd_css_declaration, upd_css_rule, upd_css_stylesheet, upd_css_parser,
    css_token, css_value, css_selector, css_declaration, css_rule, css_stylesheet, css_parser, get_css, put_css;
  iIntros "Ha HQ"; repeat iApply swp_bind; iApply swp_get_obj; iFrame "Ha"; iIntros "Ha";
  repeat iApply swp_ret;
  first [iApply ("HQ" with "Ha") | iApply swp_put_obj; iFrame].

Lemma swp_css_token a h (Q : css_token_t -> assn) :
  a ↦ Css (C_token h) -∗ (a ↦ Css (C_token h) -∗ Q h) -∗ swp (css_token a) Q.
Proof using Type. css_access. Qed.

Lemma swp_upd_css_token a h f (Q : unit -> assn) :
  a ↦ Css (C_token h) -∗ (a ↦ Css (C_token (f h)) -∗ Q tt) -∗ swp (upd_css_token a f) Q.
Proof using Type. css_access. Qed.

Lemma swp_css_parser a p (Q : css_parser_t -> assn) :
  a ↦ Css (C_parser p) -∗ (a ↦ Css (C_parser p) -∗ Q p) -∗ swp (css_parser a) Q.
Proof using Type. css_access. Qed.

Lemma swp_upd_css_parser a p f (Q : unit -> assn) :
  a ↦ Css (C_parser p) -∗ (a ↦ Css (C_parser (f p)) -∗ Q tt) -∗ swp (upd_css_parser a f) Q.
Proof using Type. css_access. Qed.

(** ** The cursor *)

Definition creader P p t k : assn :=
  (⌈cp_length p = Z.of_nat (length t) /\ (k <= length t + 2)%nat /\ short t⌉ ∗
   P ↦ Css (C_parser (cp_with_position (Z.of_nat k) p)) ∗ str_at (cp_input p) t)%I.

Definition creading e P p t l : assn := (∃ k, ⌈drop k t = l /\ (k <= length t + e)%nat⌉ ∗ creader P p t k)%I.

Lemma c_nonempty e P p t b l : creading e P p t (b :: l) ⊢ creading 0 P p t (b :: l).
Proof using Type.
  iIntros "(%k & %Hk & Hr)". iExists k. iFrame. iPureIntro. destruct Hk as [Hd Hk]. split; [done|].
  apply (f_equal length) in Hd. rewrite length_drop in Hd. cbn in Hd. lia.
Qed.

Lemma c_weaken e e' P p t l : (e <= e')%nat -> creading e P p t l ⊢ creading e' P p t l.
Proof using Type. intros He. iIntros "(%k & %Hk & Hr)". iExists k. iFrame. iPureIntro. destruct Hk. split; [done|lia]. Qed.

Lemma c_position e P p t l (Q : Z -> assn) :
  creading e P p t l -∗ (∀ k, ⌈drop k t = l /\ (k <= length t + e)%nat⌉ -∗ creading e P p t l -∗ Q (Z.of_nat k)) -∗ swp (css_position P) Q.
Proof using Type.
  iIntros "(%k & %Hk & [%Hr [HP Hi]]) HQ". iApply swp_bind. iApply (swp_css_parser with "HP"). iIntros "HP".
  iApply swp_ret. cbn [cp_position cp_with_position]. iApply ("HQ" with "[//]"). iExists k. iFrame. by iPureIntro.
Qed.

Lemma drop_nil_ge {A} k (t : list A) : drop k t = [] -> (length t <= k)%nat.
Proof using Type. intros E. apply (f_equal length) in E. rewrite length_drop in E. cbn in E. lia. Qed.

Lemma c_at_end e P p t l (Q : bool -> assn) :
  creading e P p t l -∗ (creading e P p t l -∗ Q (is_nil l)) -∗ swp (css_at_end P) Q.
Proof using Type.
  iIntros "(%k & %Hk & [%Hr [HP Hi]]) HQ". iApply swp_bind. iApply (swp_css_parser with "HP"). iIntros "HP".
  iApply swp_ret. destruct Hk as [Hd Hk], Hr as (Hl & Hk2 & Ht).
  assert ((cp_length (cp_with_position (Z.of_nat k) p) <=? cp_position (cp_with_position (Z.of_nat k) p)) = is_nil l) as ->.
  { cbn [cp_position cp_length cp_with_position]. rewrite Hl -Hd. destruct (drop k t) as [|b r] eqn:E; cbn [is_nil].
    - apply Z.leb_le. apply drop_nil_ge in E. lia.
    - apply Z.leb_gt. apply (f_equal length) in E. rewrite length_drop in E. cbn in E. lia. }
  iApply "HQ". iExists k. iFrame. by iPureIntro.
Qed.

Lemma c_at_char e P p t l n C (Q : bool -> assn) : (n <= 1)%nat ->
  creading e P p t l -∗ (creading e P p t l -∗ Q (head_is C (drop n l))) -∗ swp (css_at_char P (Z.of_nat n) C) Q.
Proof using Type.
  intros Hn. iIntros "(%k & %Hk & [%Hr [HP Hi]]) HQ". iApply swp_bind. iApply (swp_css_parser with "HP"). iIntros "HP".
  destruct Hk as [Hd Hk], Hr as (Hl & Hk2 & Ht). pose proof Ht as Hs. unfold short, text_bound in Hs.
  cbn [cp_position cp_length cp_input cp_with_position]. rewrite wrap_small; [|lia]. rewrite -Nat2Z.inj_add Hl.
  iAssert (creading e P p t l -∗ Q (head_is C (drop n l)))%I with "HQ" as "HQ".
  rewrite -Hd drop_drop. destruct (drop (k + n) t) as [|b r] eqn:E; cbn [head_is].
  - apply drop_nil_ge in E. rewrite (proj2 (Z.ltb_ge _ _)); [|lia]. iApply swp_ret. iApply "HQ". iExists k. iFrame. iPureIntro. by split.
  - assert (t !! (k + n)%nat = Some b) as Hb by (rewrite -(Nat.add_0_r (k + n)) -lookup_drop E; done).
    apply lookup_lt_Some in Hb as Hlt. rewrite (proj2 (Z.ltb_lt _ _)); [|lia].
    iApply swp_bind. iApply swp_bind. iApply (swp_get_str (Ptr (cp_input p)) with "Hi"). iIntros "Hi".
    rewrite (proj2 (Z.ltb_ge (Z.of_nat (k + n)) 0)); [|lia]. rewrite Nat2Z.id.
    rewrite (lookup_app_l_Some _ _ _ _ Hb). iApply swp_ret. iApply swp_ret. iApply "HQ". iExists k. iFrame. iPureIntro. by split.
Qed.

Lemma c_advance P p t l n m j (Q : unit -> assn) : m = Z.of_nat n -> (n <= length l + j)%nat -> (j <= 2)%nat ->
  creading 0 P p t l -∗ (creading j P p t (drop n l) -∗ Q tt) -∗ swp (css_advance P m) Q.
Proof using Type.
  intros -> Hn Hj. iIntros "(%k & %Hk & [%Hr [HP Hi]]) HQ". destruct Hk as [Hd Hk], Hr as (Hl & Hk2 & Ht).
  pose proof Ht as Hs. unfold short, text_bound in Hs.
  iApply (swp_upd_css_parser with "HP"). iIntros "HP". iApply "HQ". cbn [cp_position cp_with_position].
  rewrite -Hd length_drop in Hn. rewrite wrap_small; [|lia]. rewrite -Nat2Z.inj_add.
  iExists (k + n)%nat. iFrame "Hi HP". iPureIntro. rewrite -Hd drop_drop. repeat split; (done || lia).
Qed.

Lemma creading_short e P p t l : creading e P p t l ⊢ ⌈Z.of_nat (length l) < 2 ^ 60⌉ ∗ creading e P p t l.
Proof using Type.
  iIntros "(%k & %Hk & [%Hr Hr])". iSplit; [iPureIntro|iExists k; iFrame; by iPureIntro].
  destruct Hk as [<- _], Hr as (_ & _ & Ht). unfold short, text_bound in Ht. rewrite length_drop. lia.
Qed.

(** A loop that leaves less text with every turn. *)
Lemma c_loop_state {X A} (body : X -> prog (dom H) (step X A)) e P p t (I : X -> text -> assn) (Q : A -> assn) x l :
  (forall x l, creading e P p t l -∗ I x l -∗ swp (body x) (fun r => match r with
       | Next x' => ∃ l', ⌈(length l' < length l)%nat⌉ ∗ creading e P p t l' ∗ I x' l' | Done a => Q a end)) ->
  creading e P p t l -∗ I x l -∗ swp (loop body x) Q.
Proof using Type.
  intros Hb. iIntros "Hr HI". iDestruct (creading_short with "Hr") as "[%Hl Hr]".
  iApply (swp_loop body (fun m x => ∃ l, ⌈m = Z.of_nat (length l)⌉ ∗ creading e P p t l ∗ I x l)%I Q (Z.of_nat (length l)));
    [|lia|iExists l; iFrame; by iPureIntro].
  iIntros (m y) "(%l1 & -> & Hr & HI)". iApply (swp_wand with "[Hr HI]"); [iApply (Hb with "Hr HI")|].
  iIntros ([z|a]) "H"; [|done]. iDestruct "H" as (l' Hl') "[Hr HI]". iExists (Z.of_nat (length l')).
  iSplit; [iPureIntro; lia|]. iExists l'. iFrame. by iPureIntro.
Qed.

Lemma c_loop {A} (body : unit -> prog (dom H) (step unit A)) e P p t (I : text -> assn) (Q : A -> assn) l :
  (forall l, creading e P p t l -∗ I l -∗ swp (body tt) (fun r => match r with
       | Next _ => ∃ l', ⌈(length l' < length l)%nat⌉ ∗ creading e P p t l' ∗ I l' | Done a => Q a end)) ->
  creading e P p t l -∗ I l -∗ swp (loop body tt) Q.
Proof using Type. intros Hb. apply (c_loop_state body e P p t (fun _ => I) Q tt). intros []. exact Hb. Qed.

Lemma c_skip P p t l C (Q : unit -> assn) :
  creading 0 P p t l -∗ (creading 0 P p t (dropw C l) -∗ Q tt) -∗ swp (css_skip P C) Q.
Proof using Type.
  iIntros "Hr HQ". iApply (c_loop _ 0 P p t (fun l' => ⌈dropw C l' = dropw C l⌉ ∗ (creading 0 P p t (dropw C l) -∗ Q tt))%I with "Hr [HQ]");
    [|by iFrame].
  intros l'. iIntros "Hr [%E HQ]". iApply swp_bind. iApply (c_at_char _ _ _ _ _ 0 with "Hr"); [lia|]. iIntros "Hr".
  rewrite drop_0. destruct l' as [|b r]; cbn [head_is].
  - iApply swp_ret. rewrite -E. by iApply "HQ".
  - rewrite dropw_step in E. destruct (C (s8 b)).
    + iApply swp_bind. iApply (c_advance _ _ _ _ 1 _ 0 with "Hr"); [done|cbn; lia|lia|]. iIntros "Hr". iApply swp_ret.
      iExists r. iSplit; [iPureIntro; cbn; lia|]. iFrame. by iPureIntro.
    + iApply swp_ret. rewrite -E. by iApply "HQ".
Qed.

Lemma c_skip_to P p t l stop (Q : unit -> assn) :
  creading 0 P p t l -∗ (creading 0 P p t (drop (span_to stop l) l) -∗ Q tt) -∗ swp (css_skip_to P stop) Q.
Proof using Type.
  iIntros "Hr HQ".
  iApply (c_loop _ 0 P p t (fun l' => ⌈drop (span_to stop l') l' = drop (span_to stop l) l⌉ ∗
    (creading 0 P p t (drop (span_to stop l) l) -∗ Q tt))%I with "Hr [HQ]"); [|by iFrame].
  intros l'. iIntros "Hr [%E HQ]". iApply swp_bind. iApply (c_at_char _ _ _ _ _ 0 with "Hr"); [lia|]. iIntros "Hr".
  rewrite drop_0. destruct l' as [|b r]; cbn [head_is]; [iApply swp_ret; rewrite -E; by iApply "HQ"|].
  cbn [span_to] in E. fold (is_char stop b). destruct (is_char stop b); cbn [negb].
  { iApply swp_ret. rewrite -E. by iApply "HQ". }
  iApply swp_bind. iApply (c_at_char _ _ _ _ _ 0 with "Hr"); [lia|]. iIntros "Hr". rewrite drop_0. cbn [head_is]. fold (is_char 92 b).
  iApply swp_bind. destruct (is_char 92 b).
  - iApply swp_bind. iApply (c_advance _ _ _ _ 1 _ 0 with "Hr"); [done|cbn; lia|lia|]. iIntros "Hr". rewrite ?drop_1.
    iApply swp_bind. iApply (c_at_end with "Hr"). iIntros "Hr". destruct r as [|b' r]; cbn [is_nil negb].
    + iApply swp_ret. iApply swp_ret. iExists []. iSplit; [iPureIntro; cbn; lia|]. iFrame. by iPureIntro.
    + iApply (c_advance _ _ _ _ 1 _ 0 with "Hr"); [done|cbn; lia|lia|]. iIntros "Hr". iApply swp_ret.
      iExists r. iSplit; [iPureIntro; cbn; lia|]. iFrame. by iPureIntro.
  - iApply (c_advance _ _ _ _ 1 _ 0 with "Hr"); [done|cbn; lia|lia|]. iIntros "Hr". iApply swp_ret.
    iExists r. iSplit; [iPureIntro; cbn; lia|]. iFrame. by iPureIntro.
Qed.

(** ** White space and comments *)

Lemma c_comment_end P p t l (Q : unit -> assn) :
  creading 0 P p t l -∗ (creading 0 P p t (comment_end l) -∗ Q tt) -∗ swp (find_comment_end P) Q.
Proof using Type.
  iIntros "Hr HQ". iApply (c_loop _ 0 P p t (fun l' => ⌈comment_end l' = comment_end l⌉ ∗ (creading 0 P p t (comment_end l) -∗ Q tt))%I with "Hr [HQ]");
    [|by iFrame].
  intros l'. iIntros "Hr [%E HQ]". iApply swp_bind. iApply (c_at_char _ _ _ _ _ 1 with "Hr"); [lia|]. iIntros "Hr".
  destruct l' as [|b [|b' r]]; cbn [drop head_is].
  - iApply swp_ret. rewrite -E. by iApply "HQ".
  - iApply swp_ret. rewrite -E. by iApply "HQ".
  - cbn [comment_end is_nil orb] in E.
    iApply swp_bind. iApply (c_at_char _ _ _ _ _ 0 with "Hr"); [lia|]. iIntros "Hr".
    iApply swp_bind. iApply (c_at_char _ _ _ _ _ 1 with "Hr"); [lia|]. iIntros "Hr". cbn [drop head_is].
    change ((s8 b =? 42) && (s8 b' =? 47)) with (is_char 42 b && starts 47 (b' :: r)). destruct (is_char 42 b && starts 47 (b' :: r)).
    + iApply swp_ret. rewrite -E. by iApply "HQ".
    + iApply swp_bind. iApply (c_advance _ _ _ _ 1 _ 0 with "Hr"); [done|cbn; lia|lia|]. iIntros "Hr". iApply swp_ret.
      iExists (b' :: r). iSplit; [iPureIntro; cbn; lia|]. iFrame. by iPureIntro.
Qed.

Lemma c_blank P p t l (Q : unit -> assn) :
  creading 2 P p t l -∗ (creading 2 P p t (blank l) -∗ Q tt) -∗ swp (skip_blank P) Q.
Proof using Type.
  iIntros "Hr HQ". iApply (c_loop _ 2 P p t (fun l' => ⌈blank l' = blank l⌉ ∗ (creading 2 P p t (blank l) -∗ Q tt))%I with "Hr [HQ]");
    [|by iFrame].
  intros l'. iIntros "Hr [%E HQ]". iApply swp_bind. iApply (c_at_char _ _ _ _ _ 0 with "Hr"); [lia|]. iIntros "Hr". rewrite drop_0.
  destruct l' as [|b r]; cbn [head_is].
  - iApply swp_bind. iApply (c_at_char _ _ _ _ _ 0 with "Hr"); [lia|]. iIntros "Hr".
    iApply swp_bind. iApply (c_at_char _ _ _ _ _ 1 with "Hr"); [lia|]. iIntros "Hr". cbn [drop head_is andb].
    iApply swp_ret. rewrite -E. by iApply "HQ".
  - rewrite blank_step in E. iDestruct (c_nonempty with "Hr") as "Hr". destruct (isspace (s8 b)).
    + iApply swp_bind. iApply (c_advance _ _ _ _ 1 _ 0 with "Hr"); [done|cbn; lia|lia|]. iIntros "Hr". iApply swp_ret.
      iExists r. iSplit; [iPureIntro; cbn; lia|]. iFrame "HQ". iSplit; [|by iPureIntro]. iApply (c_weaken with "Hr"). lia.
    + iApply swp_bind. iApply (c_at_char _ _ _ _ _ 0 with "Hr"); [lia|]. iIntros "Hr".
      iApply swp_bind. iApply (c_at_char _ _ _ _ _ 1 with "Hr"); [lia|]. iIntros "Hr". cbn [drop head_is].
      change (head_is (fun c => c =? 42) (drop 0 r)) with (head_is (fun c => c =? 42) r). rewrite head_starts. fold (is_char 47 b).
      destruct (is_char 47 b && starts 42 r) eqn:Ec.
      * iApply swp_bind. iApply (c_advance _ _ _ _ 2 _ 0 with "Hr"); [done|destruct r; [by rewrite andb_false_r in Ec|cbn; lia]|lia|]. iIntros "Hr".
        change (drop 2 (b :: r)) with (drop 1 r). iApply swp_bind. iApply (c_comment_end with "Hr"). iIntros "Hr".
        iApply swp_bind. iApply (c_advance _ _ _ _ 2 _ 2 with "Hr"); [done|lia|lia|]. iIntros "Hr". iApply swp_ret.
        iExists _. iFrame "Hr HQ". iPureIntro. split; [|done]. pose proof (comment_end_length (drop 1 r)) as Hc. rewrite length_drop in Hc.
        rewrite length_drop. cbn [length]. lia.
      * iApply swp_ret. rewrite -E. iApply "HQ". iApply (c_weaken with "Hr"). lia.
Qed.

(** ** Strings from the input *)

Definition mark t l k : Prop := drop k t = l /\ (k <= length t)%nat.

Lemma c_mark P p t l (Q : Z -> assn) :
  creading 0 P p t l -∗ (∀ k, ⌈mark t l k⌉ -∗ creading 0 P p t l -∗ Q (Z.of_nat k)) -∗ swp (css_position P) Q.
Proof using Type.
  iIntros "Hr HQ". iApply (c_position with "Hr"). iIntros (k [Hd Hk]) "Hr". iApply ("HQ" with "[] Hr").
  iPureIntro. split; [done|lia].
Qed.

Lemma css_mark_eq t l w l' j k : l = w ++ l' -> mark t l j -> mark t l' k ->
  k = (j + length w)%nat /\ (Z.of_nat j =? Z.of_nat k) = is_nil w.
Proof using Type.
  intros -> [Hj Hjl] [Hk Hkl].
  assert (k = (j + length w)%nat) as ->.
  { apply (f_equal length) in Hj, Hk. rewrite length_app !length_drop in Hj, Hk. lia. }
  split; [done|]. destruct w; cbn [length is_nil]; [apply Z.eqb_eq|apply Z.eqb_neq]; lia.
Qed.

Lemma c_copy P p t l w l' j (Q : Z -> assn) : l = w ++ l' -> mark t l j ->
  creading 0 P p t l' -∗ (∀ a, creading 0 P p t l' -∗ str_at a w -∗ Q a) -∗ swp (css_copy P (Z.of_nat j)) Q.
Proof using Type.
  intros Hw Hj. iIntros "(%k & %Hk & [%Hr [HP Hi]]) HQ". destruct Hr as (Hl & Hk2 & Ht). pose proof Ht as Hs. unfold short, text_bound in Hs.
  assert (mark t l' k) as Hk' by (destruct Hk; split; [done|lia]). destruct (css_mark_eq t l w l' j k Hw Hj Hk') as [-> _].
  iApply swp_bind. iApply (swp_css_parser with "HP"). iIntros "HP". cbn [cp_position cp_input cp_with_position].
  assert (u64 (Z.of_nat (j + length w) - Z.of_nat j) = Z.of_nat (length w)) as -> by (rewrite wrap_small; lia).
  assert (u64 (Z.of_nat (length w) + 1) = Z.of_nat (length w) + 1) as -> by (rewrite wrap_small; lia).
  iApply swp_bind. iApply swp_malloc; [lia|]. iIntros (a Ha) "Ha".
  iApply swp_bind. iApply (swp_get_str (Ptr (cp_input p)) with "Hi"). iIntros "Hi".
  destruct Hk' as [_ Hk']. rewrite (proj2 (Z.leb_le _ _)); [|lia]. rewrite !Nat2Z.id. destruct Hj as [-> _]. rewrite Hw take_app_length.
  iApply swp_bind. iApply (swp_init_obj with "Ha"); [cbn; lia|]. iIntros "Ha". iApply swp_ret.
  iApply ("HQ" with "[HP Hi]"); [iExists (j + length w)%nat; iFrame; iPureIntro; by split|]. iFrame "Ha". iPureIntro. split; [lia|].
  unfold short, text_bound. lia.
Qed.

Lemma c_ident P p t l (Q : Z -> assn) :
  creading 0 P p t l -∗ (∀ a, creading 0 P p t (scan_ident l).2 -∗ ostr a (scan_ident l).1 -∗ Q a) -∗ swp (css_parse_ident P) Q.
Proof using Type.
  iIntros "Hr HQ". iApply swp_bind. iApply (c_mark with "Hr"). iIntros (j Hj) "Hr".
  iApply swp_bind. iApply (c_at_end with "Hr"). iIntros "Hr". iApply swp_bind. destruct l as [|b r]; cbn [is_nil].
  - iApply swp_ret. iApply swp_bind. iApply (c_skip with "Hr"). iIntros "Hr". change (dropw ident_char []) with ([] : text).
    iApply swp_bind. iApply (c_mark with "Hr"). iIntros (k Hk) "Hr". destruct (css_mark_eq t [] [] [] j k eq_refl Hj Hk) as [_ ->]. cbn [is_nil].
    iApply swp_ret. iApply ("HQ" with "Hr"). by iPureIntro.
  - iApply swp_bind. iApply (c_at_char _ _ _ _ _ 0 with "Hr"); [lia|]. iIntros "Hr". cbn [drop head_is].
    unfold scan_ident. destruct (ident_start (s8 b)).
    + iApply swp_bind. iApply (c_advance _ _ _ _ 1 _ 0 with "Hr"); [done|cbn; lia|lia|]. iIntros "Hr". iApply swp_ret. rewrite drop_1.
      iApply swp_bind. iApply (c_skip with "Hr"). iIntros "Hr". iApply swp_bind. iApply (c_mark with "Hr"). iIntros (k Hk) "Hr".
      assert (b :: r = (b :: takew ident_char r) ++ dropw ident_char r) as El by (cbn; by rewrite takew_dropw).
      destruct (css_mark_eq t _ _ _ j k El Hj Hk) as [_ ->]. cbn [is_nil].
      iApply (c_copy with "Hr"); [exact El|done|]. iIntros (a) "Hr Ha". iApply ("HQ" with "Hr Ha").
    + iApply swp_ret. iApply swp_ret. iApply ("HQ" with "Hr"). by iPureIntro.
Qed.

Lemma c_string P p t q l (quote : Z) (Q : Z -> assn) :
  creading 0 P p t (q :: l) -∗ (∀ a, creading 0 P p t (scan_string quote l).2 -∗ ostr a (scan_string quote l).1 -∗ Q a) -∗
  swp (css_parse_string P quote) Q.
Proof using Type.
  iIntros "Hr HQ". iApply swp_bind. iApply (c_advance _ _ _ _ 1 _ 0 with "Hr"); [done|cbn; lia|lia|]. iIntros "Hr". rewrite ?drop_1.
  iApply swp_bind. iApply (c_mark with "Hr"). iIntros (j Hj) "Hr". iApply swp_bind. iApply (c_skip_to with "Hr"). iIntros "Hr".
  iApply swp_bind. iApply (c_at_end with "Hr"). iIntros "Hr". unfold scan_string. pose proof (take_span quote l) as El.
  destruct (drop (span_to quote l) l) as [|b r] eqn:E; cbn [is_nil].
  - iApply swp_ret. iApply ("HQ" with "Hr"). by iPureIntro.
  - iApply swp_bind. iApply (c_copy with "Hr"); [exact El|done|]. iIntros (a) "Hr Ha".
    iApply swp_bind. iApply (c_advance _ _ _ _ 1 _ 0 with "Hr"); [done|cbn; lia|lia|]. iIntros "Hr". rewrite ?drop_1.
    iApply swp_ret. iApply ("HQ" with "Hr Ha").
Qed.

(** The end of an address, behind what was read of it. *)
Lemma c_url_close P p t u r a (Q : Z -> assn) :
  creading 0 P p t r -∗ ostr a u -∗
  (let x := if starts 41 (dropw isspace r) then (u, drop 1 (dropw isspace r)) else (None, dropw isspace r) in
   ∀ a, creading 0 P p t x.2 -∗ ostr a x.1 -∗ Q a) -∗
  swp (css_skip P isspace ;;
       let* close := css_at_char P 0 (fun c => c =? 41) in
       if (close : bool) then css_advance P 1 ;; ret a else free a ;; ret 0) Q.
Proof using Type.
  cbn zeta. iIntros "Hr Ha HQ". iApply swp_bind. iApply (c_skip with "Hr"). iIntros "Hr".
  iApply swp_bind. iApply (c_at_char _ _ _ _ _ 0 with "Hr"); [lia|]. iIntros "Hr". rewrite drop_0 head_starts.
  destruct (starts 41 (dropw isspace r)) eqn:E.
  - iApply swp_bind. iApply (c_advance _ _ _ _ 1 _ 0 with "Hr"); [done|apply starts_length in E; rewrite length_drop in E; lia|lia|].
    iIntros "Hr". iApply swp_ret. iApply ("HQ" with "Hr Ha").
  - iApply swp_bind. iApply (swp_free_ostr with "Ha"). iApply swp_ret. iApply ("HQ" with "Hr"). by iPureIntro.
Qed.

Lemma starts_cons c l : starts c l = true -> exists b r, l = b :: r.
Proof using Type. destruct l as [|b r]; [done|]. by exists b, r. Qed.

Lemma c_url P p t l (Q : Z -> assn) : (3 <= length l)%nat ->
  creading 0 P p t l -∗ (∀ a, creading 0 P p t (scan_url l).2 -∗ ostr a (scan_url l).1 -∗ Q a) -∗ swp (css_parse_url P) Q.
Proof using Type.
  intros Hl. iIntros "Hr HQ". iApply swp_bind. iApply (c_advance _ _ _ _ 3 _ 0 with "Hr"); [done|lia|lia|]. iIntros "Hr".
  iApply swp_bind. iApply (c_skip with "Hr"). iIntros "Hr".
  iApply swp_bind. iApply (c_at_char _ _ _ _ _ 0 with "Hr"); [lia|]. iIntros "Hr".
  iApply swp_bind. iApply (c_at_char _ _ _ _ _ 0 with "Hr"); [lia|]. iIntros "Hr". rewrite drop_0 !head_starts.
  unfold scan_url. cbn zeta. set (l1 := dropw isspace (drop 3 l)). iApply swp_bind. destruct (starts 34 l1) eqn:E34.
  - apply starts_cons in E34 as (b & r & E). rewrite E drop_1. iApply swp_bind. iApply (c_string with "Hr"). iIntros (a) "Hr Ha".
    iApply swp_ret. destruct (scan_string 34 r) as [u r']. iApply (c_url_close with "Hr Ha"). iApply "HQ".
  - destruct (starts 39 l1) eqn:E39.
    + apply starts_cons in E39 as (b & r & E). rewrite E drop_1. iApply swp_bind. iApply (c_string with "Hr"). iIntros (a) "Hr Ha".
      iApply swp_ret. destruct (scan_string 39 r) as [u r']. iApply (c_url_close with "Hr Ha"). iApply "HQ".
    + iApply swp_bind. iApply (c_mark with "Hr"). iIntros (j Hj) "Hr". iApply swp_bind. iApply (c_skip_to with "Hr"). iIntros "Hr".
      iApply swp_bind. iApply (c_at_end with "Hr"). iIntros "Hr". pose proof (take_span 41 l1) as El.
      destruct (drop (span_to 41 l1) l1) as [|b r] eqn:E; cbn [is_nil].
      * iApply swp_ret. iApply swp_ret. iApply ("HQ" with "Hr"). by iPureIntro.
      * iApply swp_bind. iApply (c_copy with "Hr"); [exact El|done|]. iIntros (a) "Hr Ha". iApply swp_ret.
        iApply (c_url_close _ _ _ (Some _) with "Hr Ha"). iApply "HQ".
Qed.

(** ** Tokens *)

(** A token object with its string. *)
Definition ctoken_at (a : Z) (k : ctok) : assn :=
  (∃ h, ⌈a <> 0 /\ ct_type h = ck_type k⌉ ∗ a ↦ Css (C_token h) ∗ ostr (ct_value h) (ck_value k))%I.

(** One that has no string yet. *)
Definition raw_token (a : Z) : assn := (∃ h, ⌈a <> 0 /\ ct_value h = 0⌉ ∗ a ↦ Css (C_token h))%I.

Lemma c_punct P p t l n m a ty (Q : bool -> assn) : m = Z.of_nat n -> (n <= length l)%nat ->
  creading 0 P p t l -∗ raw_token a -∗ (creading 1 P p t (drop n l) -∗ ctoken_at a (CTok ty None) -∗ Q true) -∗
  swp (css_punct P a ty m) Q.
Proof using Type.
  intros Hm Hn. iIntros "Hr (%h & %Hh & Ha) HQ". iApply swp_bind. iApply (swp_upd_css_token with "Ha"). iIntros "Ha".
  iApply swp_bind. iApply (c_advance _ _ _ _ n _ 0 with "Hr"); [done|lia|lia|]. iIntros "Hr". iApply swp_ret.
  iApply ("HQ" with "[Hr]"); [iApply (c_weaken with "Hr"); lia|]. iExists _. iFrame "Ha". iPureIntro. cbn.
  destruct Hh as [Ha Hv]. by split; [split|].
Qed.

Lemma c_pair P p t b r a x ty (Q : bool -> assn) :
  creading 0 P p t (b :: r) -∗ raw_token a -∗
  (match (if starts x r then Some (CTok ty None, drop 1 r) else None) with
   | Some (k, r') => creading 1 P p t r' -∗ ctoken_at a k -∗ Q true
   | None => creading 0 P p t (b :: r) -∗ raw_token a -∗ Q false
   end) -∗ swp (css_pair P a x ty) Q.
Proof using Type.
  iIntros "Hr Ha HQ". iApply swp_bind. iApply (c_at_char _ _ _ _ _ 1 with "Hr"); [lia|]. iIntros "Hr". rewrite drop_1 head_starts.
  destruct (starts x r) eqn:E.
  - apply starts_length in E. rewrite length_drop in E. iApply (c_punct _ _ _ _ 2 with "Hr Ha"); [done|cbn; lia|]. iIntros "Hr Ha".
    change (drop 2 (b :: r)) with (drop 1 r). iApply ("HQ" with "Hr Ha").
  - iApply swp_ret. iApply ("HQ" with "Hr Ha").
Qed.

Lemma c_delim P p t l a c (Q : unit -> assn) :
  creading 0 P p t l -∗ raw_token a -∗ (creading 1 P p t (drop 1 l) -∗ ctoken_at a (delim c) -∗ Q tt) -∗ swp (css_delim P a c) Q.
Proof using Type.
  iIntros "Hr (%h & %Hh & Ha) HQ". iApply swp_bind. iApply (swp_upd_css_token with "Ha"). iIntros "Ha".
  iApply swp_bind. iApply swp_malloc; [done|]. iIntros (v Hv) "Hv". iApply swp_bind. iApply (swp_init_obj with "Hv"); [done|]. iIntros "Hv".
  iApply swp_bind. iApply (swp_upd_css_token with "Ha"). iIntros "Ha".
  iApply (c_advance _ _ _ _ 1 _ 1 with "Hr"); [done|lia|lia|]. iIntros "Hr". iApply ("HQ" with "Hr"). iExists _. iFrame "Ha". cbn.
  destruct Hh as [Ha _]. iSplit; [by iPureIntro|]. iFrame "Hv". iPureIntro. split; [lia|]. done.
Qed.

Lemma c_with_string a ty v w (Q : unit -> assn) :
  raw_token a -∗ str_at v w -∗ (ctoken_at a (CTok ty (Some w)) -∗ Q tt) -∗ swp (css_with_string a ty v) Q.
Proof using Type.
  iIntros "(%h & %Hh & Ha) Hv HQ". iApply swp_bind. iApply (swp_get_str (Ptr v) with "Hv"). iIntros "Hv".
  iApply (swp_upd_css_token with "Ha"). iIntros "Ha". iApply "HQ". iExists _. iFrame "Ha Hv". by destruct Hh; iPureIntro.
Qed.

Lemma c_string_or_delim P p t x a c ty v (Q : Z -> assn) :
  creading 0 P p t x.2 -∗ ostr v x.1 -∗ raw_token a -∗
  (creading 1 P p t (string_or_delim c ty x).2 -∗ ctoken_at a (string_or_delim c ty x).1 -∗ Q a) -∗
  swp (css_string_or_delim P a c ty v) Q.
Proof using Type.
  iIntros "Hr Hv Ha HQ". unfold css_string_or_delim, string_or_delim. iApply swp_bind. destruct x as [[w|] r]; cbn [fst snd ostr].
  - iDestruct (str_at_pure with "Hv") as "[%Hv Hv]". rewrite (proj2 (Z.eqb_neq v 0)); [|tauto].
    iApply (c_with_string with "Ha Hv"). iIntros "Ha". iApply swp_ret. iApply ("HQ" with "[Hr] Ha"). iApply (c_weaken with "Hr"). lia.
  - iDestruct "Hv" as %->. cbn [Z.eqb]. iApply (c_delim with "Hr Ha"). iIntros "Hr Ha". iApply swp_ret. iApply ("HQ" with "Hr Ha").
Qed.

Lemma c_single P p t b r a (Q : bool -> assn) :
  creading 0 P p t (b :: r) -∗ raw_token a -∗
  (match scan_single (s8 b) r with
   | Some (k, r') => creading 1 P p t r' -∗ ctoken_at a k -∗ Q true
   | None => creading 0 P p t (b :: r) -∗ raw_token a -∗ Q false
   end) -∗ swp (css_single_token P a (s8 b)) Q.
Proof using Type.
  unfold css_single_token, scan_single. cbn zeta.
  repeat (destruct (s8 b =? _); [iIntros "Hr Ha HQ";
    first [iApply (c_punct _ _ _ _ 1 with "Hr Ha"); [done|cbn; lia|]; rewrite drop_1; iApply "HQ"
          |iApply (c_pair with "Hr Ha"); iApply "HQ"|iApply swp_bind; iApply (c_pair with "Hr Ha")]|]).
  - destruct (starts 61 r); iIntros "Hr Ha"; [iApply swp_ret; iApply ("HQ" with "Hr Ha")|]. iApply (c_pair with "Hr Ha"). iApply "HQ".
  - destruct (starts 61 r); iIntros "Hr Ha"; [iApply swp_ret; iApply ("HQ" with "Hr Ha")|]. iApply swp_bind.
    iApply (c_delim with "Hr Ha"). iIntros "Hr Ha". iApply swp_ret. rewrite drop_1. iApply ("HQ" with "Hr Ha").
  - iIntros "Hr Ha HQ". iApply swp_ret. iApply ("HQ" with "Hr Ha").
Qed.

(** Numbers *)
Lemma c_sign {A} P p t l (k : prog (dom H) A) (Q : A -> assn) :
  creading 0 P p t l -∗ (creading 0 P p t (skip_sign l) -∗ swp k Q) -∗
  swp (let* sign := css_at_char P 0 (fun c => (c =? 43) || (c =? 45)) in
       (if (sign : bool) then css_advance P 1 else ret tt) ;; k) Q.
Proof using Type.
  iIntros "Hr HQ". iApply swp_bind. iApply (c_at_char _ _ _ _ _ 0 with "Hr"); [lia|]. iIntros "Hr". rewrite drop_0. unfold skip_sign.
  iApply swp_bind. destruct (head_is _ l) eqn:E.
  - destruct l as [|b l]; [done|]. iApply (c_advance _ _ _ _ 1 _ 0 with "Hr"); [done|cbn; lia|lia|]. iApply "HQ".
  - iApply swp_ret. by iApply "HQ".
Qed.

Lemma c_number P p t l a (Q : Z -> assn) :
  creading 0 P p t l -∗ raw_token a -∗
  (creading 0 P p t (scan_number l).2 -∗ ctoken_at a (CTok (scan_number l).1 (Some (read l (scan_number l).2))) -∗ Q a) -∗
  swp (css_parse_number P a) Q.
Proof using Type.
  pose proof (read_suffix _ _ (scan_number_suffix l)) as El. revert El. unfold scan_number. cbn zeta. cbn [fst snd].
  set (l1 := dropw isdigit (skip_sign l)). set (l2 := if starts 46 l1 then _ else _). set (l3 := if head_is _ l2 then _ else _). intros El.
  iIntros "Hr Ha HQ". iApply swp_bind. iApply (c_mark with "Hr"). iIntros (j Hj) "Hr".
  iApply (c_sign with "Hr"). iIntros "Hr". iApply swp_bind. iApply (c_skip with "Hr"). iIntros "Hr". fold l1.
  iApply swp_bind. iApply (c_at_char _ _ _ _ _ 0 with "Hr"); [lia|]. iIntros "Hr". rewrite drop_0 head_starts.
  iApply swp_bind. iApply (swp_wand _ (fun _ => creading 0 P p t l2) with "[Hr]").
  { unfold l2. destruct (starts 46 l1) eqn:E; [|by iApply swp_ret]. apply starts_length in E. rewrite length_drop in E.
    iApply swp_bind. iApply (c_advance _ _ _ _ 1 _ 0 with "Hr"); [done|lia|lia|]. iIntros "Hr". iApply (c_skip with "Hr"). by iIntros. }
  iIntros (_) "Hr". iApply swp_bind. iApply (c_at_char _ _ _ _ _ 0 with "Hr"); [lia|]. iIntros "Hr". rewrite drop_0.
  iApply swp_bind. iApply (swp_wand _ (fun _ => creading 0 P p t l3) with "[Hr]").
  { unfold l3. destruct (head_is _ l2) eqn:E; [|by iApply swp_ret]. destruct l2 as [|b r]; [done|].
    iApply swp_bind. iApply (c_advance _ _ _ _ 1 _ 0 with "Hr"); [done|cbn; lia|lia|]. iIntros "Hr".
    iApply (c_sign with "Hr"). iIntros "Hr". iApply (c_skip with "Hr"). by iIntros. }
  iIntros (_) "Hr". iApply swp_bind. iApply (c_copy with "Hr"); [exact El|done|]. iIntros (v) "Hr Hv".
  iApply swp_bind. iApply (c_with_string with "Ha Hv"). iIntros "Ha". iApply swp_ret. iApply ("HQ" with "Hr Ha").
Qed.

Lemma c_at_url P p t b l (Q : bool -> assn) :
  creading 0 P p t (b :: l) -∗ (creading 0 P p t (b :: l) -∗ Q (is_url (b :: l))) -∗ swp (css_at_url P) Q.
Proof using Type.
  iIntros "(%k & %Hk & [%Hr [HP Hi]]) HQ". iApply swp_bind. iApply (swp_css_parser with "HP"). iIntros "HP".
  destruct Hk as [Hd Hk], Hr as (Hl & Hk2 & Ht). pose proof Ht as Hs. unfold short, text_bound in Hs.
  cbn [cp_position cp_length cp_input cp_with_position]. rewrite wrap_small; [|lia].
  assert (length (b :: l) = length t - k)%nat as El by (rewrite -Hd length_drop; done).
  unfold is_url. iAssert (creading 0 P p t (b :: l) -∗ Q ((4 <=? length (b :: l))%nat && (strncasecmp (b :: l) (chars "url(") 4 =? 0)))%I with "HQ" as "HQ".
  destruct (Z.ltb_spec (Z.of_nat k + 3) (cp_length p)).
  - iApply swp_bind. iApply (swp_get_str (Ptr (cp_input p)) with "Hi"). iIntros "Hi". iApply swp_ret.
    rewrite Nat2Z.id Hd. rewrite (proj2 (Nat.leb_le 4 _)); [|lia]. iApply "HQ". iExists k. iFrame. iPureIntro. by split.
  - iApply swp_ret. rewrite (proj2 (Nat.leb_gt 4 _)); [|lia]. iApply "HQ". iExists k. iFrame. iPureIntro. by split.
Qed.
End CssScan.

(** What is relied on of [css_parse_number_or_ident]: on a text that begins
    with a hyphen or a digit it takes some characters of it into the token. *)
Class CssNumberLaws (H : Type) `{LibcHeapLaws H} `{!CssLib H} `{!NumberOrIdent} : Type := {
  number_or_ident_law : forall P p t b l a (Q : Z -> sprop obj), (s8 b = 45) \/ isdigit (s8 b) = true ->
    creading 0 P p t (b :: l) -∗ raw_token a -∗
    (let '(ty, n) := number_or_ident (b :: l) in
     creading 0 P p t (drop n (b :: l)) -∗ ctoken_at a (CTok ty (Some (take n (b :: l)))) -∗ Q a) -∗
    swp (css_parse_number_or_ident P a) Q;
}.

Section CssToken.
Context {H : Type} `{LibcHeapLaws H} `{!CssLib H} `{!CssStrings} `{!NumberOrIdent} {NL : CssNumberLaws H}.
Abbreviation assn := (sprop obj).
Implicit Types (P : Z) (p : css_parser_t) (t l : text) (k e : nat).

Lemma c_multi P p t b r a (Q : Z -> assn) :
  creading 0 P p t (b :: r) -∗ raw_token a -∗
  (creading 1 P p t (scan_multi b r).2 -∗ ctoken_at a (scan_multi b r).1 -∗ Q a) -∗ swp (css_multi_token P a (s8 b)) Q.
Proof using Type NL.
  iIntros "Hr Ha HQ". unfold css_multi_token, scan_multi. cbn zeta.
  destruct (s8 b =? 64).
  { iApply swp_bind. iApply (c_advance _ _ _ _ 1 _ 0 with "Hr"); [done|cbn; lia|lia|]. iIntros "Hr". rewrite drop_1.
    iApply swp_bind. iApply (c_ident with "Hr"). iIntros (v) "Hr Hv". iApply (c_string_or_delim with "Hr Hv Ha HQ"). }
  destruct (s8 b =? 35).
  { iApply swp_bind. iApply (c_advance _ _ _ _ 1 _ 0 with "Hr"); [done|cbn; lia|lia|]. iIntros "Hr". rewrite drop_1.
    iApply swp_bind. iApply (c_at_char _ _ _ _ _ 0 with "Hr"); [lia|]. iIntros "Hr". rewrite drop_0. destruct (head_is isxdigit r).
    - iApply swp_bind. iApply (c_mark with "Hr"). iIntros (j Hj) "Hr". iApply swp_bind. iApply (c_skip with "Hr"). iIntros "Hr".
      iApply swp_bind. iApply (c_copy with "Hr"); [symmetry; apply takew_dropw|done|]. iIntros (v) "Hr Hv".
      iApply swp_bind. iApply (c_with_string with "Ha Hv"). iIntros "Ha". iApply swp_ret. iApply ("HQ" with "[Hr] Ha"). iApply (c_weaken with "Hr"). lia.
    - iApply swp_bind. iApply (c_delim with "Hr Ha"). iIntros "Hr Ha". iApply swp_ret. iApply ("HQ" with "Hr Ha"). }
  destruct (s8 b =? 46).
  { iApply swp_bind. iApply (c_at_char _ _ _ _ _ 1 with "Hr"); [lia|]. iIntros "Hr". rewrite drop_1. destruct (head_is isdigit r).
    - destruct (scan_number (b :: r)) as [ty r'] eqn:E. iApply (c_number with "Hr Ha"). rewrite E. iIntros "Hr Ha".
      iApply ("HQ" with "[Hr] Ha"). iApply (c_weaken with "Hr"). lia.
    - iApply swp_bind. iApply (c_delim with "Hr Ha"). rewrite drop_1. iIntros "Hr Ha". iApply swp_ret. iApply ("HQ" with "Hr Ha"). }
  destruct ((s8 b =? 45) || isdigit (s8 b)) eqn:En.
  { iApply (number_or_ident_law with "Hr Ha"); [apply orb_true_iff in En as [En|En]; [left; by apply Z.eqb_eq|by right]|].
    destruct (number_or_ident (b :: r)) as [ty n]. iIntros "Hr Ha". iApply ("HQ" with "[Hr] Ha"). iApply (c_weaken with "Hr"). lia. }
  destruct ((s8 b =? 34) || (s8 b =? 39)).
  { iApply swp_bind. iApply (c_string with "Hr"). iIntros (v) "Hr Hv". iApply (c_string_or_delim with "Hr Hv Ha HQ"). }
  destruct ((s8 b =? 117) || (s8 b =? 85)).
  { iApply swp_bind. iApply (c_at_url with "Hr"). iIntros "Hr". destruct (is_url (b :: r)) eqn:Eu; iApply swp_bind.
    - iApply (c_url with "Hr"); [unfold is_url in Eu; apply andb_prop in Eu as [Eu _]; apply Nat.leb_le in Eu; lia|].
      iIntros (v) "Hr Hv". iApply (c_string_or_delim with "Hr Hv Ha HQ").
    - iApply (c_ident with "Hr"). iIntros (v) "Hr Hv". iApply (c_string_or_delim with "Hr Hv Ha HQ"). }
  destruct (isalpha (s8 b) || (s8 b =? 95)).
  - iApply swp_bind. iApply (c_ident with "Hr"). iIntros (v) "Hr Hv". iApply (c_string_or_delim with "Hr Hv Ha HQ").
  - iApply swp_bind. iApply (c_delim with "Hr Ha"). rewrite drop_1. iIntros "Hr Ha". iApply swp_ret. iApply ("HQ" with "Hr Ha").
Qed.

(** A call of the tokenizer. *)
Lemma c_next_token P p t l (Q : Z -> assn) : P <> 0 ->
  creading 2 P p t l -∗
  match css_scan l with
  | Some (k, r) => ∀ a, creading 2 P p t r -∗ ctoken_at a k -∗ Q a
  | None => creading 2 P p t [] -∗ Q 0
  end -∗ swp (css_next_token P) Q.
Proof using Type NL.
  intros HP. iIntros "Hr HQ". unfold css_next_token, css_scan. rewrite (proj2 (Z.eqb_neq P 0)) //.
  iApply swp_bind. iApply (c_at_end with "Hr"). iIntros "Hr". destruct l as [|b0 l0]; cbn [is_nil].
  { iApply swp_ret. change (blank []) with ([] : text). by iApply "HQ". }
  iApply swp_bind. iApply (c_blank with "Hr"). iIntros "Hr". iApply swp_bind. iApply (c_at_end with "Hr"). iIntros "Hr".
  destruct (blank (b0 :: l0)) as [|b r]; cbn [is_nil]; [iApply swp_ret; by iApply "HQ"|].
  iDestruct (c_nonempty with "Hr") as "Hr".
  iApply swp_bind. iApply swp_malloc; [done|]. iIntros (a Ha) "Ha". iApply swp_bind. iApply (swp_init_obj with "Ha"); [done|]. iIntros "Ha".
  iDestruct "Hr" as "(%k & %Hk & [%Hr [HP Hi]])". destruct Hk as [Hd Hk].
  iApply swp_bind. iApply (swp_css_parser with "HP"). iIntros "HP". iApply swp_bind. iApply (swp_upd_css_token with "Ha"). iIntros "Ha".
  cbn [cp_position cp_input cp_with_position]. iApply swp_bind. iApply swp_bind. iApply (swp_get_str (Ptr (cp_input p)) with "Hi"). iIntros "Hi".
  assert (t !! k = Some b) as Hb by (rewrite -(Nat.add_0_r k) -lookup_drop Hd; done).
  rewrite (proj2 (Z.ltb_ge (Z.of_nat k) 0)); [|lia]. rewrite Nat2Z.id (lookup_app_l_Some _ _ _ _ Hb). iApply swp_ret.
  iApply swp_bind. iApply (c_single with "[HP Hi] [Ha]"); [iExists k; iFrame; by iPureIntro|iExists _; iFrame; iPureIntro; cbn; split; [lia|done]|].
  destruct (scan_single (s8 b) r) as [[k1 r1]|].
  - iIntros "Hr Ha". iApply swp_ret. iApply ("HQ" with "[Hr] Ha"). iApply (c_weaken with "Hr"). lia.
  - iIntros "Hr Ha". iApply (c_multi with "Hr Ha"). destruct (scan_multi b r) as [k1 r1]. iIntros "Hr Ha".
    iApply ("HQ" with "[Hr] Ha"). iApply (c_weaken with "Hr"). lia.
Qed.
End CssToken.
