(* ===== verification/CssProofs.v ===== *)
(** * The CSS parser refines [CssSpec.sheet_of]

    [sheet_at a rs] is a style sheet object at [a] with exactly the rules
    [rs], their selectors, declarations and strings.  Parsing a text makes
    the sheet of its rules; of the tokens, those that the code forgets stay
    allocated ([forgotten]), and all others are freed. *)

From S2P Require Import Sep Prelude CMem CStr Ctype Alloc CssObj DomObj Scan Dom DomSpec DomSep Css CssSpec CssScan.

Section CssProofs.
Context {H : Type} `{LibcHeapLaws H} `{!CssLib H} `{!CssStrings} `{!NumberOrIdent} `{NE : !NumberOrIdentLength} `{NL : !CssNumberLaws H}.
Abbreviation assn := (sprop obj).
Implicit Types (P : Z) (p : css_parser_t) (t l r : text).

(** ** Access *)

Ltac css_access := unfold css_token, css_value, css_selector, css_declaration, css_rule, css_stylesheet, css_parser,
    upd_css_token, upd_css_value, upd_css_selector, upd_css_declaration, upd_css_rule, upd_css_stylesheet, upd_css_parser,
    css_token, css_value, css_selector, css_declaration, css_rule, css_stylesheet, css_parser, get_css, put_css;
  iIntros "Ha HQ"; repeat iApply swp_bind; iApply swp_get_obj; iFrame "Ha"; iIntros "Ha";
  repeat iApply swp_ret;
  first [iApply ("HQ" with "Ha") | iApply swp_put_obj; iFrame].

Lemma swp_css_value a h (Q : css_value_t -> assn) : a ↦ Css (C_value h) -∗ (a ↦ Css (C_value h) -∗ Q h) -∗ swp (css_value a) Q.
Proof using Type. css_access. Qed.
Lemma swp_upd_value a h f (Q : unit -> assn) : a ↦ Css (C_value h) -∗ (a ↦ Css (C_value (f h)) -∗ Q tt) -∗ swp (upd_css_value a f) Q.
Proof using Type. css_access. Qed.
Lemma swp_css_selector a h (Q : css_selector_t -> assn) : a ↦ Css (C_selector h) -∗ (a ↦ Css (C_selector h) -∗ Q h) -∗ swp (css_selector a) Q.
Proof using Type. css_access. Qed.
Lemma swp_upd_selector a h f (Q : unit -> assn) : a ↦ Css (C_selector h) -∗ (a ↦ Css (C_selector (f h)) -∗ Q tt) -∗ swp (upd_css_selector a f) Q.
Proof using Type. css_access. Qed.
Lemma swp_css_declaration a h (Q : css_declaration_t -> assn) :
  a ↦ Css (C_declaration h) -∗ (a ↦ Css (C_declaration h) -∗ Q h) -∗ swp (css_declaration a) Q.
Proof using Type. css_access. Qed.
Lemma swp_upd_declaration a h f (Q : unit -> assn) :
  a ↦ Css (C_declaration h) -∗ (a ↦ Css (C_declaration (f h)) -∗ Q tt) -∗ swp (upd_css_declaration a f) Q.
Proof using Type. css_access. Qed.
Lemma swp_css_rule a h (Q : css_rule_t -> assn) : a ↦ Css (C_rule h) -∗ (a ↦ Css (C_rule h) -∗ Q h) -∗ swp (css_rule a) Q.
Proof using Type. css_access. Qed.
Lemma swp_upd_rule a h f (Q : unit -> assn) : a ↦ Css (C_rule h) -∗ (a ↦ Css (C_rule (f h)) -∗ Q tt) -∗ swp (upd_css_rule a f) Q.
Proof using Type. css_access. Qed.
Lemma swp_css_stylesheet a h (Q : css_stylesheet_t -> assn) :
  a ↦ Css (C_stylesheet h) -∗ (a ↦ Css (C_stylesheet h) -∗ Q h) -∗ swp (css_stylesheet a) Q.
Proof using Type. css_access. Qed.
Lemma swp_upd_stylesheet a h f (Q : unit -> assn) :
  a ↦ Css (C_stylesheet h) -∗ (a ↦ Css (C_stylesheet (f h)) -∗ Q tt) -∗ swp (upd_css_stylesheet a f) Q.
Proof using Type. css_access. Qed.

(** ** Tokens that were read *)

Lemma ctoken_nonzero a k : ctoken_at a k ⊢ ⌈a <> 0⌉ ∗ ctoken_at a k.
Proof using Type. iIntros "(%h & %Hh & Ha & Hv)". iSplit; [iPureIntro; tauto|]. iExists h. iFrame. by iPureIntro. Qed.

Lemma swp_free_css_token a k (Q : unit -> assn) : ctoken_at a k -∗ Q tt -∗ swp (free_css_token a) Q.
Proof using Type.
  iIntros "(%h & %Hh & Ha & Hv) HQ". iApply swp_bind. iApply (swp_css_token with "Ha"). iIntros "Ha".
  iApply swp_bind. iApply (swp_free_ostr with "Hv"). iApply swp_free; [tauto|]. iFrame.
Qed.

Lemma swp_token_type a k (Q : css_token_type_t -> assn) : ctoken_at a k -∗ (ctoken_at a k -∗ Q (ck_type k)) -∗ swp (token_type a) Q.
Proof using Type.
  iIntros "(%h & %Hh & Ha & Hv) HQ". iApply swp_bind. iApply (swp_css_token with "Ha"). iIntros "Ha". iApply swp_ret.
  destruct Hh as [Ha Ht]. rewrite Ht. iApply "HQ". iExists h. iFrame. by iPureIntro.
Qed.

(** The end of a loop over tokens. *)
Definition token_or_end P p t (o : option ctok * text) (Q : Z -> assn) : assn :=
  match o with
  | (Some k, r) => (∀ a, creading 2 P p t r -∗ ctoken_at a k -∗ Q a)%I
  | (None, _) => (creading 2 P p t [] -∗ Q 0)%I
  end.

Lemma c_skip_tokens P p t l stop (Q : Z -> assn) : P <> 0 ->
  creading 2 P p t l -∗ token_or_end P p t (skip_to (S (length l)) stop l) Q -∗ swp (skip_tokens P stop) Q.
Proof using Type NE NL.
  intros HP. iIntros "Hr HQ".
  iApply (c_loop _ 2 P p t (fun l => ∃ f, ⌈(length l < f)%nat⌉ ∗ token_or_end P p t (skip_to f stop l) Q)%I with "Hr [HQ]");
    [|iExists _; iFrame; iPureIntro; lia].
  clear l. intros l. iIntros "Hr (%f & %Hf & HQ)". destruct f as [|f]; [lia|]. cbn [skip_to].
  iApply swp_bind. iApply (c_next_token with "Hr"); [done|]. destruct (css_scan l) as [[k r]|] eqn:E.
  - iIntros (a) "Hr Ha". iDestruct (ctoken_nonzero with "Ha") as "[%Ha Ha]". rewrite (proj2 (Z.eqb_neq a 0)) //.
    iApply swp_bind. iApply (swp_token_type with "Ha"). iIntros "Ha". destruct (stop (ck_type k)).
    + iApply swp_ret. iApply ("HQ" with "Hr Ha").
    + iApply swp_bind. iApply (swp_free_css_token with "Ha"). iApply swp_ret. apply css_scan_length in E. iExists r. iFrame "Hr".
      iSplit; [iPureIntro; lia|]. iExists f. iFrame. iPureIntro. lia.
  - iIntros "Hr". cbn [Z.eqb]. iApply swp_ret. iApply ("HQ" with "Hr").
Qed.

Lemma c_skip_block P p t l (Q : Z -> assn) : P <> 0 ->
  creading 2 P p t l -∗ token_or_end P p t (skip_braces (S (length l)) 1 l) Q -∗ swp (skip_block P) Q.
Proof using Type NE NL.
  intros HP. iIntros "Hr HQ".
  iApply (c_loop_state _ 2 P p t (fun d l => ∃ f, ⌈(length l < f)%nat⌉ ∗ token_or_end P p t (skip_braces f d l) Q)%I with "Hr [HQ]");
    [|iExists _; iFrame; iPureIntro; lia].
  clear l. intros d l. iIntros "Hr (%f & %Hf & HQ)". destruct f as [|f]; [lia|]. cbn [skip_braces].
  iApply swp_bind. iApply (c_next_token with "Hr"); [done|]. destruct (css_scan l) as [[k r]|] eqn:E.
  - iIntros (a) "Hr Ha". iDestruct (ctoken_nonzero with "Ha") as "[%Ha Ha]". rewrite (proj2 (Z.eqb_neq a 0)) //.
    iApply swp_bind. iApply (swp_token_type with "Ha"). iIntros "Ha". cbn zeta. set (d' := if is_type _ _ then _ else _).
    destruct (is_type (ck_type k) CSS_TOKEN_RIGHT_BRACE && (d' =? 0)).
    + iApply swp_ret. iApply ("HQ" with "Hr Ha").
    + iApply swp_bind. iApply (swp_free_css_token with "Ha"). iApply swp_ret. apply css_scan_length in E. iExists r. iFrame "Hr".
      iSplit; [iPureIntro; lia|]. iExists f. iFrame. iPureIntro. lia.
  - iIntros "Hr". cbn [Z.eqb]. iApply swp_ret. iApply ("HQ" with "Hr").
Qed.

(** ** What the parser forgets *)

Fixpoint forgotten (n : nat) : assn :=
  match n with
  | O => emp%I
  | S n => ((∃ a k, ctoken_at a k) ∗ forgotten n)%I
  end.

Lemma forgotten_add n m : forgotten n -∗ forgotten m -∗ forgotten (n + m).
Proof using Type. iIntros "Hn Hm". iInduction n as [|n IH] "IH"; [done|]. cbn. iDestruct "Hn" as "[Ha Hn]". iFrame "Ha". iApply ("IH" with "Hn Hm"). Qed.

Lemma forget a k : ctoken_at a k -∗ forgotten 1.
Proof using Type. iIntros "Ha". iSplitL; [|done]. iExists a, k. iFrame. Qed.

Lemma c_at_rule P p t l ss a (Q : unit -> assn) : P <> 0 ->
  creading 2 P p t l -∗ (creading 2 P p t (at_rule l).2 -∗ forgotten (at_rule l).1 -∗ Q tt) -∗ swp (css_parse_at_rule P ss a) Q.
Proof using Type NE NL.
  intros HP. iIntros "Hr HQ". iApply swp_bind. iApply (c_skip_tokens with "Hr"); [done|]. unfold at_rule, token_or_end.
  set (stop := fun ty => _). pose proof (skip_to_none (S (length l)) stop l) as Hn. destruct (skip_to (S (length l)) stop l) as [[k|] r]; cbn [fst snd] in Hn.
  - iIntros (token) "Hr Ht". iDestruct (ctoken_nonzero with "Ht") as "[%Hnz Ht]". rewrite (proj2 (Z.eqb_neq token 0)) //. cbn [negb].
    iApply swp_bind. iApply swp_bind. iApply (swp_token_type with "Ht"). iIntros "Ht". destruct (is_type (ck_type k) CSS_TOKEN_LEFT_BRACE).
    + iApply (c_skip_block with "Hr"); [done|]. unfold token_or_end. iDestruct (forget with "Ht") as "Ht".
      pose proof (skip_braces_none (S (length r)) 1 r) as Hn2. destruct (skip_braces (S (length r)) 1 r) as [[k2|] r2]; cbn [fst snd] in *.
      * iIntros (token2) "Hr Ht2". iDestruct (ctoken_nonzero with "Ht2") as "[%Hnz2 Ht2]". rewrite (proj2 (Z.eqb_neq token2 0)) //.
        iApply (swp_free_css_token with "Ht2"). iApply ("HQ" with "Hr Ht").
      * iIntros "Hr". cbn [Z.eqb negb]. iApply swp_ret. rewrite Hn2 //. iApply ("HQ" with "Hr Ht").
    + iApply swp_ret. rewrite (proj2 (Z.eqb_neq token 0)) //. iApply (swp_free_css_token with "Ht"). by iApply ("HQ" with "Hr").
  - iIntros "Hr". cbn [Z.eqb negb]. iApply swp_bind. iApply swp_ret. cbn [Z.eqb negb]. iApply swp_ret. rewrite Hn //. by iApply ("HQ" with "Hr").
Qed.

(** ** Values and declarations *)

Lemma creading_le e P p t l : creading e P p t l ⊢ ⌈(length l <= length t)%nat⌉ ∗ creading e P p t l.
Proof using Type.
  iIntros "(%k & %Hk & Hr)". iSplit; [iPureIntro|iExists k; by iFrame]. destruct Hk as [<- _]. rewrite length_drop. lia.
Qed.

(** Texts so short that a value with a blank between its tokens is short, too. *)
Definition half_short t : Prop := Z.of_nat (length t) < 2 ^ 59.

Definition token_or_null (token : Z) (o : option ctok) : assn :=
  match o with Some k => ctoken_at token k | None => ⌈token = 0⌉%I end.

Definition acc_length (acc : option text) : nat := match acc with Some v => length v | None => 0 end.

Lemma swp_append v w old new n (Q : Z -> assn) : n = Z.of_nat (length old) + Z.of_nat (length new) + 2 -> short (old ++ [32] ++ new) ->
  str_at v old -∗ str_at w new -∗ (∀ q, str_at q (old ++ [32] ++ new) -∗ str_at w new -∗ Q q) -∗ swp (append_value v n w) Q.
Proof using Type.
  intros -> Hs. iIntros "Hv Hw HQ". iApply swp_bind. iApply (swp_get_str (Ptr v) with "Hv"). iIntros "Hv".
  iApply swp_bind. iApply (swp_get_str (Ptr w) with "Hw"). iIntros "Hw". iDestruct "Hv" as "[%Hv Hv]".
  iApply swp_bind. iApply (swp_move_obj with "Hv"); [lia|]. iIntros (q Hq) "Hv". rewrite (proj2 (Z.eqb_neq q 0)) // (proj2 (Z.ltb_ge _ _)); [|lia].
  cbn [orb]. iApply swp_ret. iApply ("HQ" with "[Hv] Hw"). iFrame. by iPureIntro.
Qed.

Lemma c_value P p t l v stop r (Q : Z * Z -> assn) : P <> 0 -> half_short t -> scan_values (S (length l)) None l = Some (v, stop, r) ->
  creading 2 P p t l -∗ (∀ value token, creading 2 P p t r -∗ ostr value v -∗ token_or_null token stop -∗ Q (value, token)) -∗
  swp (parse_value P) Q.
Proof using Type NE NL.
  intros HP Ht HR. iIntros "Hr HQ". iDestruct (creading_le with "Hr") as "[%Hle Hr]".
  iApply (c_loop_state _ 2 P p t (fun value l => ∃ f acc, ⌈(length l < f)%nat /\ scan_values f acc l = Some (v, stop, r) /\
      Z.of_nat (acc_length acc) + 2 * Z.of_nat (length l) < 2 ^ 60⌉ ∗ ostr value acc ∗
      (∀ value token, creading 2 P p t r -∗ ostr value v -∗ token_or_null token stop -∗ Q (value, token)))%I with "Hr [HQ]").
  2: { iExists _, None. iFrame "HQ". iSplit; [|by iPureIntro]. iPureIntro. split; [|split; [exact HR|]]; [lia|]. unfold half_short in Ht. cbn. lia. }
  clear l HR Hle. intros value l. iIntros "Hr (%f & %acc & %Hf & Hv & HQ)". destruct Hf as (Hf & HR & Hb). destruct f as [|f]; [lia|]. cbn [scan_values] in HR.
  iApply swp_bind. iApply (c_next_token with "Hr"); [done|]. destruct (css_scan l) as [[k rl]|] eqn:E.
  - iIntros (a) "Hr Ha". iDestruct "Ha" as "(%h & %Hh & Ha & Hav)". destruct Hh as [Ha Hk]. rewrite (proj2 (Z.eqb_neq a 0)) //.
    iApply swp_bind. iApply (swp_css_token with "Ha"). iIntros "Ha". rewrite Hk.
    destruct (is_type (ck_type k) CSS_TOKEN_SEMICOLON || is_type (ck_type k) CSS_TOKEN_RIGHT_BRACE).
    + injection HR as <- <- <-. iApply swp_ret. iApply ("HQ" with "Hr Hv"). iExists h. iFrame. by iPureIntro.
    + destruct (ck_value k) as [w|] eqn:Ew; [|done]. pose proof (css_scan_value _ _ _ _ E Ew) as Hw. apply css_scan_length in E.
      set (acc' := match acc with None => w | Some u => u ++ [32] ++ w end) in HR.
      assert (length acc' <= acc_length acc + 1 + length w)%nat as Hacc by (unfold acc'; destruct acc; rewrite ?length_app; cbn; lia).
      iApply swp_bind. iApply (swp_wand _ (fun value => str_at value acc' ∗ str_at (ct_value h) w)%I with "[Hv Hav]").
      { cbn [ostr]. destruct acc as [u|]; cbn [ostr].
        - iDestruct (str_at_pure with "Hv") as "[%Hv Hv]". rewrite (proj2 (Z.eqb_neq value 0)); [|tauto]. cbn [negb].
          iApply swp_bind. iApply (swp_get_str (Ptr value) with "Hv"). iIntros "Hv". iApply swp_bind. iApply (swp_get_str (Ptr (ct_value h)) with "Hav"). iIntros "Hav".
          cbn [acc_length] in *. iApply (swp_append with "Hv Hav"); [rewrite wrap_small; lia|unfold short, text_bound; fold acc'; lia|].
          iIntros (q) "Hq Hav". iFrame.
        - iDestruct "Hv" as %->. cbn [Z.eqb negb]. iApply (swp_strdup (Ptr (ct_value h)) with "Hav"). iIntros (q) "Hav Hq". iFrame. }
      iIntros (value') "[Hv Hav]". iApply swp_bind. iApply (swp_free_css_token a k with "[Ha Hav]"); [iExists h; rewrite Ew; iFrame; by iPureIntro|].
      iApply swp_ret. iExists rl. iFrame "Hr". iSplit; [iPureIntro; lia|]. iExists f, (Some acc'). iFrame. iPureIntro. cbn [acc_length]. split_and!; [lia|done|lia].
  - iIntros "Hr". injection HR as <- <- <-. cbn [Z.eqb]. iApply swp_ret. iApply ("HQ" with "Hr Hv"). by iPureIntro.
Qed.

Definition value_at (a : Z) (v : text) : assn :=
  (∃ s, ⌈a <> 0⌉ ∗ a ↦ Css (C_value (CssValue CSS_VALUE_STRING (CV_string s) false)) ∗ str_at s v)%I.

Fixpoint decls_at (a : Z) (ds : list (text * text)) : assn :=
  match ds with
  | [] => ⌈a = 0⌉%I
  | (k, v) :: ds => (∃ s x next, ⌈a <> 0⌉ ∗ a ↦ Css (C_declaration (CssDeclaration s x false next)) ∗ str_at s k ∗ value_at x v ∗ decls_at next ds)%I
  end.

Lemma swp_value_parse_string s v (Q : Z -> assn) :
  str_at s v -∗ (∀ a, value_at a v -∗ str_at s v -∗ Q a) -∗ swp (css_value_parse_string (Ptr s)) Q.
Proof using Type.
  iIntros "Hs HQ". iDestruct (str_at_pure with "Hs") as "[%Hs Hs]". unfold css_value_parse_string. cbn [is_null].
  rewrite (proj2 (Z.eqb_neq s 0)); [|tauto]. iApply swp_bind. iApply swp_bind. iApply swp_malloc; [done|]. iIntros (a Ha) "Ha".
  rewrite (proj2 (Z.eqb_neq a 0)); [|lia]. iApply swp_bind. iApply (swp_init_obj with "Ha"); [done|]. iIntros "Ha".
  iApply swp_bind. iApply (swp_upd_value with "Ha"). iIntros "Ha". iApply swp_ret. rewrite (proj2 (Z.eqb_neq a 0)); [|lia].
  iApply swp_bind. iApply (swp_strdup (Ptr s) with "Hs"). iIntros (q) "Hs Hq". iApply swp_bind. iApply (swp_upd_value with "Ha"). iIntros "Ha".
  iApply swp_ret. iApply ("HQ" with "[Ha Hq] Hs"). iExists q. iFrame. iPureIntro. lia.
Qed.

Lemma swp_add_declaration rule hr d hd ds k v (Q : unit -> assn) : rule <> 0 -> d <> 0 -> cd_important hd = false ->
  rule ↦ Css (C_rule hr) -∗ decls_at (cr_declarations hr) ds -∗
  d ↦ Css (C_declaration hd) -∗ str_at (cd_property hd) k -∗ value_at (cd_value hd) v -∗
  (rule ↦ Css (C_rule (cr_with_declarations d hr)) -∗ decls_at d ((k, v) :: ds) -∗ Q tt) -∗ swp (css_rule_add_declaration rule d) Q.
Proof using Type.
  intros Hr Hd Hi. iIntros "Hr Hds Hd Hk Hv HQ". unfold css_rule_add_declaration. rewrite (proj2 (Z.eqb_neq rule 0)) // (proj2 (Z.eqb_neq d 0)) //. cbn [orb].
  iApply swp_bind. iApply (swp_css_rule with "Hr"). iIntros "Hr". iApply swp_bind. iApply (swp_upd_declaration with "Hd"). iIntros "Hd".
  iApply (swp_upd_rule with "Hr"). iIntros "Hr". iApply ("HQ" with "Hr"). cbn [decls_at]. iExists _, _, (cr_declarations hr). iFrame "Hk Hv Hds".
  unfold cd_with_next. rewrite Hi. iFrame "Hd". by iPureIntro.
Qed.
End CssProofs.

(** What is relied on of the functions of declarations, which css.c calls and
    nothing defines: [css_declaration_create] makes a cleared object;
    [css_declaration_destroy] of a declaration, with its string and its value,
    returns, and works on the memory of these three alone.  What it leaves of
    them is any [discarded k v]: nothing, if it frees them all; all of it, if
    it does nothing. *)
Class CssLibLaws (H : Type) `{LibcHeapLaws H} `{!CssLib H} : Type := {
  declaration_create_law : forall (Q : Z -> sprop obj),
    (∀ a, ⌈a <> 0⌉ -∗ a ↦ Css (C_declaration zero_css_declaration) -∗ Q a) ⊢ swp css_declaration_create Q;
  discarded : text -> text -> sprop obj;
  declaration_destroy_law : forall a p x next k v (Q : unit -> sprop obj), a <> 0 ->
    a ↦ Css (C_declaration (CssDeclaration p x false next)) -∗ str_at p k -∗ value_at x v -∗ (discarded k v -∗ Q tt) -∗
    swp (css_declaration_destroy a) Q;
}.

(** What is left of declarations, and of the declarations of a sheet, when
    each has been destroyed once. *)
Definition discarded_decls {H : Type} `{CssLibLaws H} (ds : list (text * text)) : sprop obj :=
  ([∗ list] d ∈ ds, discarded d.1 d.2)%I.
Definition discarded_sheet {H : Type} `{CssLibLaws H} (rs : list (text * list (text * text))) : sprop obj :=
  ([∗ list] x ∈ rs, discarded_decls x.2)%I.

Section CssRules.
Context {H : Type} `{LibcHeapLaws H} `{!CssLib H} `{!CssStrings} `{!NumberOrIdent} `{NE : !NumberOrIdentLength} `{NL : !CssNumberLaws H} `{CL : !CssLibLaws H}.
Abbreviation assn := (sprop obj).
Implicit Types (P : Z) (p : css_parser_t) (t l r : text).

(** A rule in the making, with its declarations. *)
Definition open_rule (rule : Z) (h : css_rule_t) (ds : list (text * text)) : assn :=
  (∃ d, rule ↦ Css (C_rule (cr_with_declarations d h)) ∗ decls_at d ds)%I.

Lemma forgotten_stop token stop : token_or_null token stop -∗
  ⌈(token =? 0) = match stop with Some _ => false | None => true end⌉ ∗ token_or_null token stop.
Proof using Type.
  destruct stop as [k|]; iIntros "Ht".
  - iDestruct (ctoken_nonzero with "Ht") as "[%Hnz Ht]". iFrame. iPureIntro. by apply Z.eqb_neq.
  - iDestruct "Ht" as %->. by iPureIntro.
Qed.

Definition stop_count (stop : option ctok) : nat := match stop with Some _ => 1 | None => 0 end.

(** The values end at a semicolon or a brace. *)
Lemma scan_values_stop f acc l v k r : scan_values f acc l = Some (v, Some k, r) ->
  is_type (ck_type k) CSS_TOKEN_SEMICOLON || is_type (ck_type k) CSS_TOKEN_RIGHT_BRACE = true.
Proof using Type.
  revert acc l. induction f as [|f IH]; intros acc l; [done|]. cbn [scan_values]. destruct (css_scan l) as [[k' r']|]; [|done].
  destruct (is_type (ck_type k') CSS_TOKEN_SEMICOLON || is_type (ck_type k') CSS_TOKEN_RIGHT_BRACE) eqn:E; [by intros [= _ <- _]|].
  destruct (ck_value k'); [apply IH|done].
Qed.

Lemma c_declaration P p t l rule h tok ty name ds d n r (Q : unit -> assn) : P <> 0 -> rule <> 0 -> half_short t ->
  scan_decl name l = Some (d, n, r) ->
  creading 2 P p t l -∗ ctoken_at tok (CTok ty (Some name)) -∗ open_rule rule h ds -∗
  (creading 2 P p t r -∗ ctoken_at tok (CTok ty (Some name)) -∗ open_rule rule h (match d with Some d => d :: ds | None => ds end) -∗
   forgotten n -∗ Q tt) -∗
  swp (css_parse_declaration P rule tok) Q.
Proof using Type NE NL CL.
  intros HP Hrule Ht HR. iIntros "Hr Htok Hrule HQ". unfold scan_decl in HR. iApply swp_bind. iApply (c_next_token with "Hr"); [done|].
  destruct (css_scan l) as [[k rl]|] eqn:E.
  2: { iIntros "Hr". cbn [Z.eqb]. iApply swp_bind. iApply swp_ret. cbn [negb Z.eqb]. iApply swp_ret. injection HR as <- <- <-. by iApply ("HQ" with "Hr Htok Hrule"). }
  iIntros (a) "Hr Ha". iDestruct (ctoken_nonzero with "Ha") as "[%Ha Ha]". rewrite (proj2 (Z.eqb_neq a 0)) //.
  iApply swp_bind. iApply swp_bind. iApply (swp_token_type with "Ha"). iIntros "Ha". iApply swp_ret.
  destruct (is_type (ck_type k) CSS_TOKEN_COLON); cbn [negb].
  2: { iApply (swp_free_css_token with "Ha"). injection HR as <- <- <-. by iApply ("HQ" with "Hr Htok Hrule"). }
  destruct (scan_values (S (length rl)) None rl) as [[[v stop] r']|] eqn:Ev; [|done]. injection HR as <- <- <-.
  iApply swp_bind. iApply (swp_free_css_token with "Ha"). iApply swp_bind. iApply (c_value with "Hr"); [done|done|exact Ev|].
  iIntros (value token) "Hr Hv Hstop". iDestruct (forgotten_stop with "Hstop") as "[%Hz Hstop]".
  iDestruct "Htok" as "(%ht & %Hht & Htok & Hname)". cbn [ck_value ostr]. iDestruct (str_at_pure with "Hname") as "[%Hname Hname]".
  iApply swp_bind. iApply (swp_css_token with "Htok"). iIntros "Htok".
  iApply swp_bind. iApply (swp_wand _ (fun _ => open_rule rule h (match (fun v => (name, v)) <$> v with Some d => d :: ds | None => ds end) ∗ str_at (ct_value ht) name)%I with "[Hrule Hv Hname]").
  { destruct v as [v|]; cbn [ostr fmap option_fmap option_map].
    - iDestruct (str_at_pure with "Hv") as "[%Hv Hv]". rewrite (proj2 (Z.eqb_neq value 0)); [|tauto]. rewrite (proj2 (Z.eqb_neq (ct_value ht) 0)); [|tauto]. cbn [negb andb].
      iApply swp_bind. iApply declaration_create_law. iIntros (d Hd) "Hd". rewrite (proj2 (Z.eqb_neq d 0)) //. cbn [negb].
      iApply swp_bind. iApply swp_bind. iApply (swp_strdup (Ptr (ct_value ht)) with "Hname"). iIntros (q) "Hname Hq".
      iApply swp_bind. iApply (swp_upd_declaration with "Hd"). iIntros "Hd".
      iApply swp_bind. iApply (swp_value_parse_string with "Hv"). iIntros (x) "Hx Hv".
      iApply swp_bind. iApply (swp_upd_declaration with "Hd"). iIntros "Hd". iDestruct "Hrule" as (d0) "[Hrule Hds]".
      iApply (swp_add_declaration with "Hrule Hds Hd Hq Hx"); [done|done|done|]. iIntros "Hrule Hds".
      iApply (swp_free_ostr value (Some v) with "Hv"). iSplitR "Hname"; [|done]. iExists d. by iFrame.
    - iDestruct "Hv" as %->. cbn [Z.eqb negb andb]. iApply swp_ret. iFrame. }
  iIntros (_) "[Hrule Hname]". rewrite Hz. destruct stop as [k2|]; cbn [negb].
  - iApply swp_bind. iApply (swp_token_type with "Hstop"). iIntros "Hstop". pose proof (scan_values_stop _ _ _ _ _ _ Ev) as Hs.
    assert (negb (is_type (ck_type k2) CSS_TOKEN_SEMICOLON) && negb (is_type (ck_type k2) CSS_TOKEN_RIGHT_BRACE) = false) as ->
      by (by destruct (is_type (ck_type k2) CSS_TOKEN_SEMICOLON), (is_type (ck_type k2) CSS_TOKEN_RIGHT_BRACE)).
    iApply swp_ret. iApply ("HQ" with "Hr [Htok Hname] Hrule [Hstop]"); [iExists ht; iFrame; by iPureIntro|iApply (forget with "Hstop")].
  - iApply swp_ret. iApply ("HQ" with "Hr [Htok Hname] Hrule"); [iExists ht; iFrame; by iPureIntro|done].
Qed.

(** ** Selectors *)

(** A chain of selectors, each with its type and its value. *)
Fixpoint sels_at (a : Z) (ss : list (css_selector_type_t * option text)) : assn :=
  match ss with
  | [] => ⌈a = 0⌉%I
  | (ty, v) :: ss => (∃ s next, ⌈a <> 0⌉ ∗ a ↦ Css (C_selector (cs_with_next next (cs_with_value s (cs_with_type ty zero_css_selector)))) ∗
      ostr s v ∗ sels_at next ss)%I
  end.

Lemma sels_null a ss : sels_at a ss ⊢ ⌈(a =? 0) = is_nil ss⌉ ∗ sels_at a ss.
Proof using Type.
  destruct ss as [|[ty v] ss]; cbn [sels_at is_nil].
  - iIntros "->". by iPureIntro.
  - iIntros "(%s & %next & %Ha & Hs)". iSplit; [iPureIntro; by apply Z.eqb_neq|]. iExists s, next. iFrame. by iPureIntro.
Qed.

Lemma swp_selector_destroy_n f ss : forall a (Q : unit -> assn), (length ss <= f)%nat -> ss <> [] ->
  sels_at a ss -∗ Q tt -∗ swp (css_selector_destroy_n f a) Q.
Proof using Type.
  revert f. induction ss as [|[ty v] ss IH]; intros f a Q Hf Hne; [done|]. destruct f as [|f]; [cbn in Hf; lia|]. cbn [length] in Hf.
  cbn [sels_at css_selector_destroy_n]. iIntros "(%s & %next & %Ha & Hs & Hv & Hn) HQ". rewrite (proj2 (Z.eqb_neq a 0)) //.
  iApply swp_bind. iApply (swp_css_selector with "Hs"). iIntros "Hs". cbn [cs_value cs_attr_name cs_attr_value cs_next cs_with_next cs_with_value cs_with_type zero_css_selector].
  iApply swp_bind. iApply (swp_free_ostr with "Hv"). iApply swp_bind. iApply swp_free_null. iApply swp_bind. iApply swp_free_null.
  iDestruct (sels_null with "Hn") as "[%Hz Hn]". rewrite Hz. iApply swp_bind. destruct ss as [|x ss]; cbn [is_nil negb].
  - iApply swp_ret. iDestruct "Hn" as "->". iApply swp_free; [done|]. iFrame.
  - iApply (IH f with "Hn"); [cbn in *; lia|done|]. iApply swp_free; [done|]. iFrame.
Qed.

Lemma many_sels a ss : holds_many (length ss) (sels_at a ss).
Proof using Type.
  revert a. induction ss as [|[ty v] ss IH]; intros a; [apply many_any|]. apply many_exist. intros s. apply many_exist. intros next.
  apply (many_sep 0); [apply many_any|]. apply (many_sep 1); [apply many_pt|]. apply (many_sep 0); [apply many_any|apply IH].
Qed.

(** A chain of selectors is freed, all of it. *)
Lemma swp_selector_destroy a ss (Q : unit -> assn) : sels_at a ss -∗ Q tt -∗ swp (css_selector_destroy a) Q.
Proof using Type.
  iIntros "Hs HQ". iApply swp_bind. iApply (swp_destroy_fuel (length ss) with "Hs"); [apply many_sels|]. iIntros (f Hf) "Hs".
  destruct ss as [|x ss]; [|iApply (swp_selector_destroy_n with "Hs HQ"); [lia|done]].
  destruct f as [|f]; [lia|]. iDestruct "Hs" as "->". cbn. by iApply swp_ret.
Qed.

Fixpoint specificity (ss : list (css_selector_type_t * option text)) : Z :=
  match ss with
  | [] => 0
  | (ty, _) :: ss => specificity_of ty + specificity ss
  end.

Lemma specificity_bound ss : 0 <= specificity ss <= 1000 * Z.of_nat (length ss).
Proof using Type. induction ss as [|[ty v] ss IH]; cbn [specificity length]; [lia|]. destruct ty; cbn [specificity_of]; lia. Qed.

(** The sum of the weights, as a 32-bit number. *)
Lemma swp_specificity a ss (Q : Z -> assn) : Z.of_nat (length ss) < 2 ^ 60 ->
  sels_at a ss -∗ (sels_at a ss -∗ Q (u32 (specificity ss))) -∗ swp (css_selector_calculate_specificity a) Q.
Proof using Type.
  intros Hl. iIntros "Hs HQ". iDestruct (sels_null with "Hs") as "[%Hz Hs]". unfold css_selector_calculate_specificity.
  destruct (a =? 0) eqn:Ea; [destruct ss; [|done]; iApply swp_ret; by iApply ("HQ" with "Hs")|].
  iApply (swp_loop _ (fun m '(b, acc) => ∃ rest, ⌈m = Z.of_nat (length rest) /\ u32 (acc + specificity rest) = u32 (specificity ss) /\ u32 acc = acc⌉ ∗
     sels_at b rest ∗ (sels_at b rest -∗ sels_at a ss) ∗ (sels_at a ss -∗ Q (u32 (specificity ss))))%I _ (Z.of_nat (length ss))); [|lia|].
  2: { iExists ss. iFrame. iSplit; [by iPureIntro|]. by iIntros. }
  iIntros (m [b acc]) "(%rest & %Hm & Hb & Hback & HQ)". destruct Hm as (-> & He & Hacc). iDestruct (sels_null with "Hb") as "[%Hzb Hb]". rewrite Hzb.
  destruct rest as [|[ty v] rest]; cbn [is_nil negb].
  - iApply swp_ret. cbn [sturn]. cbn [specificity] in He. rewrite Z.add_0_r Hacc in He. rewrite He. iApply "HQ". by iApply "Hback".
  - cbn [sels_at]. iDestruct "Hb" as "(%s & %next & %Hb & Hb & Hv & Hn)". iApply swp_bind. iApply (swp_css_selector with "Hb"). iIntros "Hb".
    cbn [cs_next cs_type cs_with_next cs_with_value cs_with_type]. iApply swp_ret. cbn [sturn]. iExists (Z.of_nat (length rest)). iSplit; [iPureIntro; cbn; lia|].
    iExists rest. iFrame "Hn HQ". iSplit.
    + iPureIntro. split; [done|]. cbn [specificity] in He. split; [rewrite wrap_add_l -He; f_equal; lia|by rewrite wrap_wrap].
    + iIntros "Hn". iApply "Hback". iExists s, next. iFrame. by iPureIntro.
Qed.

(** ** Rules and sheets *)

Definition rule_fields (sel decls next : Z) : css_rule_t := CssRule sel decls 0 0 next.

(** A rule that is read: one selector of the type of elements, weight 0. *)
Definition rule_at (a next : Z) (name : text) (ds : list (text * text)) : assn :=
  (∃ s d, ⌈a <> 0⌉ ∗ a ↦ Css (C_rule (rule_fields s d next)) ∗ sels_at s [(CSS_SELECTOR_TYPE_ELEMENT, Some name)] ∗ decls_at d ds)%I.

Fixpoint rules_at (a : Z) (rs : list (text * list (text * text))) : assn :=
  match rs with
  | [] => ⌈a = 0⌉%I
  | (name, ds) :: rs => (∃ next, rule_at a next name ds ∗ rules_at next rs)%I
  end.

Definition sheet_at (a : Z) (rs : list (text * list (text * text))) : assn :=
  (∃ f, ⌈a <> 0⌉ ∗ a ↦ Css (C_stylesheet (ss_with_rules f zero_css_stylesheet)) ∗ rules_at f rs)%I.

Lemma c_decls P p t l rule h ds n r (Q : unit -> assn) : P <> 0 -> rule <> 0 -> half_short t ->
  scan_decls (S (length l)) [] 0 l = Some (ds, n, r) ->
  creading 2 P p t l -∗ open_rule rule h [] -∗
  (creading 2 P p t r -∗ open_rule rule h ds -∗ forgotten n -∗ Q tt) -∗ swp (parse_declarations P rule) Q.
Proof using Type NE NL CL.
  intros HP Hrule Ht HR. iIntros "Hr Hrule HQ".
  iApply (c_loop _ 2 P p t (fun l => ∃ f acc m, ⌈(length l < f)%nat /\ scan_decls f acc m l = Some (ds, n, r)⌉ ∗ open_rule rule h acc ∗ forgotten m ∗
      (creading 2 P p t r -∗ open_rule rule h ds -∗ forgotten n -∗ Q tt))%I with "Hr [Hrule HQ]").
  2: { iExists _, [], 0%nat. iFrame. iPureIntro. split; [|exact HR]. lia. }
  clear l HR. intros l. iIntros "Hr (%f & %acc & %m & %Hf & Hrule & Hm & HQ)". destruct Hf as [Hf HR]. destruct f as [|f]; [lia|]. cbn [scan_decls] in HR.
  iApply swp_bind. iApply (c_next_token with "Hr"); [done|]. destruct (css_scan l) as [[k rl]|] eqn:E.
  - iIntros (a) "Hr Ha". iDestruct (ctoken_nonzero with "Ha") as "[%Ha Ha]". rewrite (proj2 (Z.eqb_neq a 0)) //. apply css_scan_length in E.
    iApply swp_bind. iApply (swp_token_type with "Ha"). iIntros "Ha". destruct (is_type (ck_type k) CSS_TOKEN_RIGHT_BRACE).
    + injection HR as <- <- <-. iApply swp_ret. iApply ("HQ" with "Hr Hrule"). iSplitL "Ha"; [by iExists a, k|done].
    + iApply swp_bind. destruct (is_type (ck_type k) CSS_TOKEN_IDENT).
      * destruct (ck_value k) as [name|] eqn:Ek; [|done]. destruct (scan_decl name rl) as [[[d n1] r1]|] eqn:Ed; [|done].
        assert (k = CTok (ck_type k) (Some name)) as -> by (destruct k; cbn in *; by rewrite Ek).
        pose proof (scan_decl_length _ _ _ _ _ Ed) as Hlen. iApply (c_declaration with "Hr Ha Hrule"); [done|done|done|exact Ed|]. iIntros "Hr Ha Hrule Hn".
        iApply swp_bind. iApply (swp_free_css_token with "Ha"). iApply swp_ret. iExists r1. iFrame "Hr". iSplit; [iPureIntro; lia|].
        iDestruct (forgotten_add with "Hm Hn") as "Hm". iExists f, _, _. iFrame. iPureIntro. split; [lia|done].
      * iApply swp_ret. iApply swp_bind. iApply (swp_free_css_token with "Ha"). iApply swp_ret. iExists rl. iFrame "Hr". iSplit; [iPureIntro; lia|].
        iExists f, _, _. iFrame. iPureIntro. split; [lia|done].
  - iIntros "Hr". injection HR as <- <- <-. cbn [Z.eqb]. iApply swp_ret. iApply ("HQ" with "Hr Hrule Hm").
Qed.

(** A rule and a sheet are freed with all that they own; their declarations
    go to [css_declaration_destroy]. *)
Lemma swp_destroy_decls ds : forall a (Q : unit -> assn), Z.of_nat (length ds) < 2 ^ 60 ->
  decls_at a ds -∗ (discarded_decls ds -∗ Q tt) -∗
  swp (loop (fun declaration =>
      if negb (declaration =? 0) then
        let* d := css_declaration declaration in
        let next := cd_next d in
        css_declaration_destroy declaration ;;
        ret (Next next)
      else ret (Done tt)) a) Q.
Proof using Type CL.
  intros a Q Hl. iIntros "Hd HQ". iApply (swp_loop _ (fun m b => ∃ rest, ⌈m = Z.of_nat (length rest)⌉ ∗ decls_at b rest ∗ (discarded_decls rest -∗ Q tt))%I _ (Z.of_nat (length ds)));
    [|lia|iExists ds; iFrame; by iPureIntro].
  iIntros (m b) "(%rest & -> & Hb & HQ)". destruct rest as [|[k v] rest]; cbn [decls_at].
  - iDestruct "Hb" as "->". cbn [Z.eqb negb]. iApply swp_ret. cbn [sturn]. iApply "HQ". by rewrite /discarded_decls big_sepL_nil.
  - iDestruct "Hb" as "(%s & %x & %next & %Hb & Hb & Hk & Hv & Hn)". rewrite (proj2 (Z.eqb_neq b 0)) //. cbn [negb].
    iApply swp_bind. iApply (swp_css_declaration with "Hb"). iIntros "Hb". cbn [cd_next]. cbn zeta.
    iApply swp_bind. iApply (declaration_destroy_law with "Hb Hk Hv"); [done|]. iIntros "Hx". iApply swp_ret. cbn [sturn].
    iExists (Z.of_nat (length rest)). iSplit; [iPureIntro; cbn; lia|]. iExists rest. iFrame "Hn". iSplit; [by iPureIntro|].
    iIntros "Hrest". iApply "HQ". rewrite /discarded_decls big_sepL_cons. iFrame.
Qed.

Lemma swp_selector_create ty v w (Q : Z -> assn) :
  str_at v w -∗ (∀ a, ⌈a <> 0⌉ -∗ sels_at a [(ty, Some w)] -∗ str_at v w -∗ Q a) -∗ swp (css_selector_create ty (Ptr v)) Q.
Proof using Type.
  iIntros "Hv HQ". iDestruct (str_at_pure with "Hv") as "[%Hv Hv]". iApply swp_bind. iApply swp_malloc; [done|]. iIntros (a Ha) "Ha".
  rewrite (proj2 (Z.eqb_neq a 0)); [|lia]. iApply swp_bind. iApply (swp_init_obj with "Ha"); [done|]. iIntros "Ha".
  iApply swp_bind. iApply (swp_upd_selector with "Ha"). iIntros "Ha". cbn [is_null]. rewrite (proj2 (Z.eqb_neq v 0)); [|tauto]. cbn [negb].
  iApply swp_bind. iApply swp_bind. iApply (swp_strdup (Ptr v) with "Hv"). iIntros (q) "Hv Hq". iApply (swp_upd_selector with "Ha"). iIntros "Ha".
  iApply swp_ret. iApply ("HQ" with "[] [Ha Hq] Hv"); [iPureIntro; lia|]. iExists q, 0. iFrame. iPureIntro. split; [lia|done].
Qed.

(** The loop of [css_rule_destroy], on one selector. *)
Lemma swp_destroy_selector s ty v (Q : unit -> assn) :
  sels_at s [(ty, v)] -∗ Q tt -∗
  swp (loop (fun selector =>
      if negb (selector =? 0) then
        let* s := css_selector selector in
        let next := cs_next s in
        css_selector_destroy selector ;;
        ret (Next next)
      else ret (Done tt)) s) Q.
Proof using Type.
  iIntros "Hs HQ".
  iApply (swp_loop _ (fun m b => (⌈m = 1 /\ b = s⌉ ∗ sels_at s [(ty, v)] ∨ ⌈m = 0 /\ b = 0⌉) ∗ Q tt)%I _ 1); [|lia|iFrame; iLeft; iFrame; by iPureIntro].
  iIntros (m b) "[[[%Hm Hs]|%Hm] HQ]"; destruct Hm as [-> ->].
  - cbn [sels_at]. iDestruct "Hs" as "(%w & %nx & %Hs & Hs & Hv & ->)". rewrite (proj2 (Z.eqb_neq s 0)) //. cbn [negb].
    iApply swp_bind. iApply (swp_css_selector with "Hs"). iIntros "Hs". cbn [cs_next cs_with_next]. cbn zeta.
    iApply swp_bind. iApply (swp_selector_destroy s [(ty, v)] with "[Hs Hv]"); [iExists w, 0; iFrame; by iPureIntro|].
    iApply swp_ret. cbn [sturn]. iExists 0. iSplit; [iPureIntro; lia|]. iFrame. iRight. by iPureIntro.
  - cbn [Z.eqb negb]. by iApply swp_ret.
Qed.

Lemma swp_rule_destroy a next name ds (Q : unit -> assn) : Z.of_nat (length ds) < 2 ^ 60 ->
  rule_at a next name ds -∗ (discarded_decls ds -∗ Q tt) -∗ swp (css_rule_destroy a) Q.
Proof using Type CL.
  intros Hl. iIntros "(%s & %d & %Ha & Ha & Hs & Hd) HQ". unfold css_rule_destroy. rewrite (proj2 (Z.eqb_neq a 0)) //.
  iApply swp_bind. iApply (swp_css_rule with "Ha"). iIntros "Ha". cbn [cr_selectors rule_fields]. iApply swp_bind.
  iApply (swp_destroy_selector with "Hs"). iApply swp_bind. iApply (swp_css_rule with "Ha"). iIntros "Ha". cbn [cr_declarations rule_fields].
  iApply swp_bind. iApply (swp_destroy_decls with "Hd"); [done|]. iIntros "Hx". iApply swp_free; [done|]. iFrame "Ha". by iApply "HQ".
Qed.

Lemma swp_add_rule ss f a name ds rs (Q : unit -> assn) : ss <> 0 ->
  ss ↦ Css (C_stylesheet (ss_with_rules f zero_css_stylesheet)) -∗ rules_at f rs -∗ rule_at a 0 name ds -∗
  (sheet_at ss ((name, ds) :: rs) -∗ Q tt) -∗ swp (css_stylesheet_add_rule ss a) Q.
Proof using Type.
  intros Hss. iIntros "Hss Hrs (%s & %d & %Ha & Ha & Hs & Hd) HQ". unfold css_stylesheet_add_rule. rewrite (proj2 (Z.eqb_neq ss 0)) // (proj2 (Z.eqb_neq a 0)) //.
  cbn [orb]. iApply swp_bind. iApply (swp_css_stylesheet with "Hss"). iIntros "Hss". iApply swp_bind. iApply (swp_upd_rule with "Ha"). iIntros "Ha".
  iApply (swp_upd_stylesheet with "Hss"). iIntros "Hss". iApply "HQ". iExists a. iFrame "Hss". iSplit; [by iPureIntro|]. cbn [rules_at]. iExists f. iFrame "Hrs".
  iExists s, d. iFrame. by iPureIntro.
Qed.

Lemma c_style_rule P p t l ss rs tok ty name x n r (Q : unit -> assn) : P <> 0 -> half_short t -> style_rule name l = Some (x, n, r) ->
  creading 2 P p t l -∗ sheet_at ss rs -∗ ctoken_at tok (CTok ty (Some name)) -∗
  (creading 2 P p t r -∗ sheet_at ss (match x with Some y => y :: rs | None => rs end) -∗ ctoken_at tok (CTok ty (Some name)) -∗ forgotten n -∗ Q tt) -∗
  swp (css_parse_style_rule P ss tok) Q.
Proof using Type NE NL CL.
  intros HP Ht HR. iIntros "Hr Hss (%ht & %Hht & Htok & Hname) HQ". cbn [ck_value ostr].
  iApply swp_bind. iApply swp_bind. iApply swp_malloc; [done|]. iIntros (rule Hrule) "Hrule". rewrite (proj2 (Z.eqb_neq rule 0)); [|lia].
  iApply swp_bind. iApply (swp_init_obj with "Hrule"); [done|]. iIntros "Hrule". iApply swp_bind. iApply (swp_upd_rule with "Hrule"). iIntros "Hrule".
  cbn [Z.eqb negb]. iApply swp_bind. iApply swp_ret. iApply swp_ret. rewrite (proj2 (Z.eqb_neq rule 0)); [|lia].
  iApply swp_bind. iApply (swp_css_token with "Htok"). iIntros "Htok". iApply swp_bind. iApply (swp_selector_create with "Hname"). iIntros (s Hs) "Hsel Hname".
  rewrite (proj2 (Z.eqb_neq s 0)) //. cbn [negb]. iApply swp_bind. iApply swp_bind. iApply (swp_css_rule with "Hrule"). iIntros "Hrule".
  cbn [sels_at]. iDestruct "Hsel" as "(%v & %nx & _ & Hsel & Hv & ->)". iApply swp_bind. iApply (swp_upd_selector with "Hsel"). iIntros "Hsel".
  iApply (swp_upd_rule with "Hrule"). iIntros "Hrule".
  iAssert (sels_at s [(CSS_SELECTOR_TYPE_ELEMENT, Some name)]) with "[Hsel Hv]" as "Hsel"; [iExists v, 0; iFrame; by iPureIntro|].
  iAssert (ctoken_at tok (CTok ty (Some name))) with "[Htok Hname]" as "Htok"; [iExists ht; iFrame; by iPureIntro|].
  iApply swp_bind. iApply (c_skip_tokens with "Hr"); [done|]. unfold style_rule in HR. unfold token_or_end. set (stop := fun ty => _) in *.
  pose proof (skip_to_none (S (length l)) stop l) as Hnone. destruct (skip_to (S (length l)) stop l) as [[k|] rl]; cbn [fst snd] in Hnone.
  - destruct (scan_decls (S (length rl)) [] 0 rl) as [[[ds m] r']|] eqn:Ed; [|done]. injection HR as <- <- <-.
    iIntros (a) "Hr Ha". iDestruct (ctoken_nonzero with "Ha") as "[%Ha Ha]". rewrite (proj2 (Z.eqb_neq a 0)) //.
    iApply swp_bind. iApply (swp_free_css_token with "Ha"). iApply swp_bind.
    iApply (c_decls _ _ _ _ rule (rule_fields s 0 0) with "Hr [Hrule]"); [done|lia|done|exact Ed|iExists 0; iFrame; by iPureIntro|].
    iIntros "Hr (%d & Hrule & Hds) Hm". iDestruct "Hss" as "(%f & %Hss & Hss & Hrs)".
    iApply (swp_add_rule with "Hss Hrs [Hrule Hsel Hds]"); [done|iExists s, d; iFrame; iPureIntro; lia|]. iIntros "Hss". iApply ("HQ" with "Hr Hss Htok Hm").
  - injection HR as <- <- <-. iIntros "Hr". cbn [Z.eqb]. rewrite Hnone //.
    iApply (swp_rule_destroy rule 0 name [] with "[Hrule Hsel]"); [done|iExists s, 0; iFrame; iPureIntro; split; [lia|done]|].
    iIntros "_". by iApply ("HQ" with "Hr Hss Htok").
Qed.

(** ** Parsing a sheet *)

Lemma swp_stylesheet_create (Q : Z -> assn) : (∀ a, sheet_at a [] -∗ Q a) -∗ swp (css_stylesheet_create (Ptr 0)) Q.
Proof using Type.
  iIntros "HQ". iApply swp_bind. iApply swp_malloc; [done|]. iIntros (a Ha) "Ha". rewrite (proj2 (Z.eqb_neq a 0)); [|lia].
  iApply swp_bind. iApply (swp_init_obj with "Ha"); [done|]. iIntros "Ha". cbn [is_null Z.eqb negb]. iApply swp_bind. iApply swp_ret. iApply swp_ret.
  iApply "HQ". iExists 0. iFrame. iPureIntro. split; [lia|done].
Qed.

Lemma sheet_nonzero a rs : sheet_at a rs ⊢ ⌈a <> 0⌉ ∗ sheet_at a rs.
Proof using Type. iIntros "(%f & %Ha & Ha)". iSplit; [done|]. iExists f. by iFrame. Qed.

Lemma c_rules P p t ss l rs n (Q : unit -> assn) : P <> 0 -> half_short t -> scan_rules (S (length l)) [] 0 l = Some (rs, n) ->
  creading 2 P p t l -∗ sheet_at ss [] -∗ (creading 2 P p t [] -∗ sheet_at ss rs -∗ forgotten n -∗ Q tt) -∗
  swp (loop (fun _ =>
        let* token := css_next_token P in
        if token =? 0 then ret (Done tt)
        else
          css_parse_rule P ss token ;;
          free_css_token token ;;
          ret (Next tt)) tt) Q.
Proof using Type NE NL CL.
  intros HP Ht HR. iIntros "Hr Hss HQ".
  iApply (c_loop _ 2 P p t (fun l => ∃ f acc m, ⌈(length l < f)%nat /\ scan_rules f acc m l = Some (rs, n)⌉ ∗ sheet_at ss acc ∗ forgotten m ∗
      (creading 2 P p t [] -∗ sheet_at ss rs -∗ forgotten n -∗ Q tt))%I with "Hr [Hss HQ]").
  2: { iExists _, [], 0%nat. iFrame. iPureIntro. split; [|exact HR]. lia. }
  clear l HR. intros l. iIntros "Hr (%f & %acc & %m & %Hf & Hss & Hm & HQ)". destruct Hf as [Hf HR]. destruct f as [|f]; [lia|]. cbn [scan_rules] in HR.
  iApply swp_bind. iApply (c_next_token with "Hr"); [done|]. destruct (css_scan l) as [[k rl]|] eqn:E.
  2: { iIntros "Hr". injection HR as <- <-. cbn [Z.eqb]. iApply swp_ret. iApply ("HQ" with "Hr Hss Hm"). }
  iIntros (a) "Hr Ha". iDestruct (ctoken_nonzero with "Ha") as "[%Ha Ha]". rewrite (proj2 (Z.eqb_neq a 0)) //. apply css_scan_length in E.
  iApply swp_bind. iApply swp_bind. iApply (swp_token_type with "Ha"). iIntros "Ha". destruct (is_type (ck_type k) CSS_TOKEN_AT_KEYWORD).
  - pose proof (at_rule_length rl) as Hlen. destruct (at_rule rl) as [n1 r1] eqn:Eat. cbn [snd] in Hlen.
    iApply (c_at_rule with "Hr"); [done|]. rewrite Eat. iIntros "Hr Hn". iApply swp_bind. iApply (swp_free_css_token with "Ha"). iApply swp_ret.
    iExists r1. iFrame "Hr". iSplit; [iPureIntro; lia|]. iDestruct (forgotten_add with "Hm Hn") as "Hm". iExists f, acc, _. iFrame. iPureIntro. split; [lia|done].
  - destruct (is_type (ck_type k) CSS_TOKEN_IDENT || is_type (ck_type k) CSS_TOKEN_HASH).
    + destruct (ck_value k) as [name|] eqn:Ek; [|done]. destruct (style_rule name rl) as [[[x n1] r1]|] eqn:Es; [|done].
      assert (k = CTok (ck_type k) (Some name)) as -> by (destruct k; cbn in *; by rewrite Ek). pose proof (style_rule_length _ _ _ _ _ Es) as Hlen.
      iApply (c_style_rule with "Hr Hss Ha"); [done|done|exact Es|]. iIntros "Hr Hss Ha Hn". iApply swp_bind. iApply (swp_free_css_token with "Ha"). iApply swp_ret.
      iExists r1. iFrame "Hr". iSplit; [iPureIntro; lia|]. iDestruct (forgotten_add with "Hm Hn") as "Hm". iExists f, _, _. iFrame. iPureIntro. split; [lia|done].
    + iApply swp_ret. iApply swp_bind. iApply (swp_free_css_token with "Ha"). iApply swp_ret. iExists rl. iFrame "Hr". iSplit; [iPureIntro; lia|].
      iExists f, _, _. iFrame. iPureIntro. split; [lia|done].
Qed.

Lemma swp_css_parse (P a : Z) p t rs n (Q : Z -> assn) : P <> 0 -> half_short t -> sheet_of t = Some (rs, n) ->
  P ↦ Css (C_parser p) -∗ str_at a t -∗
  (∀ ss p', P ↦ Css (C_parser p') -∗ str_at a t -∗ sheet_at ss rs -∗ forgotten n -∗ Q ss) -∗ swp (css_parser_parse P a) Q.
Proof using Type NE NL CL.
  intros HP Ht HR. iIntros "HP Ha HQ". iDestruct (str_at_pure with "Ha") as "[%Ha Ha]". unfold css_parser_parse.
  rewrite (proj2 (Z.eqb_neq P 0)) // (proj2 (Z.eqb_neq a 0)); [|tauto]. cbn [orb].
  iApply swp_bind. iApply (swp_get_str (Ptr a) with "Ha"). iIntros "Ha". iApply swp_bind. iApply (swp_upd_css_parser with "HP"). iIntros "HP".
  iApply swp_bind. iApply swp_stylesheet_create. iIntros (ss) "Hss". iDestruct (sheet_nonzero with "Hss") as "[%Hss Hss]". rewrite (proj2 (Z.eqb_neq ss 0)) //.
  iApply swp_bind. iApply (c_rules P (cp_with_input a (Z.of_nat (length t)) p) t ss t with "[HP Ha] Hss"); [done|done|exact HR| |].
  - iExists 0%nat. iSplit; [iPureIntro; split; [done|lia]|]. iFrame. iPureIntro. cbn. split; [done|]. split; [lia|tauto].
  - iIntros "(%k & _ & [_ [HP Ha]]) Hss Hn". iApply swp_ret. iApply ("HQ" with "HP Ha Hss Hn").
Qed.

(** ** Destroying a sheet *)

Lemma swp_stylesheet_destroy a rs (Q : unit -> assn) : Z.of_nat (length rs) < 2 ^ 60 -> Forall (fun x => Z.of_nat (length x.2) < 2 ^ 60) rs ->
  sheet_at a rs -∗ (discarded_sheet rs -∗ Q tt) -∗ swp (css_stylesheet_destroy a) Q.
Proof using Type CL.
  intros Hl Hds. iIntros "(%f & %Ha & Ha & Hrs) HQ". unfold css_stylesheet_destroy. rewrite (proj2 (Z.eqb_neq a 0)) //.
  iApply swp_bind. iApply (swp_css_stylesheet with "Ha"). iIntros "Ha". cbn [ss_url ss_title ss_rules ss_with_rules zero_css_stylesheet].
  iApply swp_bind. iApply swp_free_null. iApply swp_bind. iApply swp_free_null. iApply swp_bind.
  iApply (swp_loop _ (fun m b => ∃ rest, ⌈m = Z.of_nat (length rest) /\ Forall (fun x => Z.of_nat (length x.2) < 2 ^ 60) rest⌉ ∗ rules_at b rest ∗
      a ↦ Css (C_stylesheet (ss_with_rules f zero_css_stylesheet)) ∗ (discarded_sheet rest -∗ Q tt))%I _ (Z.of_nat (length rs))); [|lia|iExists rs; iFrame; by iPureIntro].
  iIntros (m b) "(%rest & %Hm & Hb & Ha & HQ)". destruct Hm as [-> Hrest]. destruct rest as [|[name ds] rest]; cbn [rules_at].
  - iDestruct "Hb" as "->". cbn [Z.eqb negb]. iApply swp_ret. cbn [sturn]. iApply swp_free; [done|]. iFrame "Ha". iApply "HQ". by rewrite /discarded_sheet big_sepL_nil.
  - iDestruct "Hb" as "(%next & (%s & %d & %Hb & Hb & Hs & Hd) & Hn)". rewrite (proj2 (Z.eqb_neq b 0)) //. cbn [negb].
    apply Forall_cons in Hrest as [H1' Hrest].
    iApply swp_bind. iApply (swp_css_rule with "Hb"). iIntros "Hb". cbn [cr_next rule_fields]. cbn zeta.
    iApply swp_bind. iApply (swp_rule_destroy b next name ds with "[Hb Hs Hd]"); [done|iExists s, d; iFrame; by iPureIntro|].
    iIntros "Hx". iApply swp_ret. cbn [sturn]. iExists (Z.of_nat (length rest)). iSplit; [iPureIntro; cbn; lia|].
    iExists rest. iFrame "Hn Ha". iSplit; [by iPureIntro|]. iIntros "Hrest". iApply "HQ". rewrite /discarded_sheet big_sepL_cons. iFrame.
Qed.
End CssRules.
