(* ===== verification/CssPrint.v ===== *)
(** * Writing style sheets

    [print_sheet] writes rules with one selector and declarations of names and
    values that are sequences of identifiers.  [CssSpec.sheet_of] reads back
    what it wrote, with the rules, and the declarations of each rule, in
    reverse order: the parser puts each in front of the ones before. *)

From S2P Require Import Prelude CStr Ctype CssObj DomObj Scan Css CssSpec.

(** What is relied on of [strncasecmp]: it compares the first characters in
    lower case. *)
Class StrncaseLaws `{CssStrings} : Prop :=
  strncase_law : forall a b n, 0 <= n ->
    strncasecmp a b n = 0 <-> take (Z.to_nat n) (map tolower a) = take (Z.to_nat n) (map tolower b).

(** ** Printing *)

Abbreviation declaration := (text * list text)%type.
Abbreviation rule := (text * list declaration)%type.

(** The words with blanks between them. *)
Fixpoint join (ws : list text) : text :=
  match ws with
  | [] => []
  | [w] => w
  | w :: ws => w ++ 32 :: join ws
  end.

Definition print_decl (d : declaration) : text := 32 :: d.1 ++ [58; 32] ++ join d.2 ++ [59].
Definition print_rule (x : rule) : text := x.1 ++ [32; 123] ++ flat_map print_decl x.2 ++ [32; 125; 10].
Definition print_sheet (rs : list rule) : text := flat_map print_rule rs.

(** An identifier that begins with a letter or an underscore. *)
Definition is_ident (w : text) : bool :=
  match w with
  | b :: r => (isalpha (s8 b) || (s8 b =? 95)) && all_chars ident_char r
  | [] => false
  end.

Definition wf_decl (d : declaration) : bool := is_ident d.1 && negb (is_nil d.2) && forallb is_ident d.2.
Definition wf_rule (x : rule) : bool := is_ident x.1 && forallb wf_decl x.2.

(** What is read: the declarations and the rules in reverse, the words of a
    value joined; every declaration forgets its semicolon, every rule its
    closing brace. *)
Definition read_decl (d : declaration) : text * text := (d.1, join d.2).
Definition read_rule (x : rule) : text * list (text * text) := (x.1, rev (map read_decl x.2)).
Definition forgotten_tokens (rs : list rule) : nat := list_sum (map (fun x => S (length x.2)) rs).

Section Print.
Context `{CssStrings} `{!NumberOrIdent} `{SL : !StrncaseLaws}.
Implicit Types (w l r : text).

(** ** Tokens that were printed *)

Lemma css_scan_space b r : isspace (s8 b) = true -> css_scan (b :: r) = css_scan r.
Proof using Type. intros Hb. unfold css_scan. by rewrite blank_step, Hb. Qed.

Lemma css_scan_punct b r k : isspace (s8 b) = false -> is_char 47 b = false -> scan_single (s8 b) r = Some k -> css_scan (b :: r) = Some k.
Proof using Type. intros Hs Hc Hk. unfold css_scan. rewrite blank_step, Hs, Hc. cbn [andb]. by rewrite Hk. Qed.

Lemma ident_start_cases c : isalpha c || (c =? 95) = true -> (65 <= c <= 90 \/ 97 <= c <= 122 \/ c = 95).
Proof using Type. unfold isalpha, isupper, islower. lia. Qed.

Lemma is_ident_inv w : is_ident w = true ->
  exists b r, w = b :: r /\ isalpha (s8 b) || (s8 b =? 95) = true /\ all_chars ident_char r = true.
Proof using Type. destruct w as [|b r]; [done|]. cbn. intros [Hb Hr]%andb_prop. eauto. Qed.

Lemma lower_paren c : tolower c = 40 -> c = 40.
Proof using Type. unfold tolower, isupper. destruct ((65 <=? c) && (c <=? 90)) eqn:E; lia. Qed.

Lemma lower_letter c x : tolower c = x -> 97 <= x <= 122 -> ident_char (s8 c) = true.
Proof using Type.
  intros Hc Hx. unfold tolower, isupper in Hc. assert (65 <= c <= 90 \/ 97 <= c <= 122) as Hb.
  { destruct ((65 <=? c) && (c <=? 90)) eqn:E; lia. }
  rewrite swrap_small by lia. unfold ident_char, isalnum, isalpha. lia.
Qed.

(** The text of an identifier, and what ends it, has no parenthesis. *)
Lemma not_url w r : is_ident w = true -> head_is ident_char r = false -> head_is (fun c => c =? 40) r = false -> is_url (w ++ r) = false.
Proof using SL.
  intros Hw Hr Hp. unfold is_url. destruct (Z.eqb_spec (strncasecmp (w ++ r) (chars "url(") 4) 0) as [E|]; [|by rewrite andb_false_r].
  exfalso. apply strncase_law in E; [|done]. change (take (Z.to_nat 4) (map tolower (chars "url("))) with [117; 114; 108; 40] in E.
  apply is_ident_inv in Hw as (b & w' & -> & _ & Hw). destruct r as [|c r].
  - rewrite app_nil_r in E. destruct w' as [|x [|y [|z w']]]; [done..|]. cbn in E. injection E as _ _ _ E. apply lower_paren in E. subst z.
    cbn in Hw. rewrite !andb_false_r in Hw. done.
  - cbn [head_is] in Hr, Hp. assert (forall x, tolower c = x -> ~ 97 <= x <= 122) as Hn.
    { intros x E' Hx. by rewrite (lower_letter c x) in Hr. }
    destruct w' as [|x [|y [|z w']]]; cbn in E.
    + injection E as _ E _. by apply (Hn 114).
    + injection E as _ _ E _. by apply (Hn 108).
    + injection E as _ _ _ E. apply lower_paren in E. by subst c.
    + injection E as _ _ _ E. apply lower_paren in E. subst z. cbn in Hw. by rewrite !andb_false_r in Hw.
Qed.

Lemma css_scan_ident w r : is_ident w = true -> head_is ident_char r = false -> head_is (fun c => c =? 40) r = false ->
  css_scan (w ++ r) = Some (CTok CSS_TOKEN_IDENT (Some w), r).
Proof using SL.
  intros Hw Hr Hp. pose proof (not_url w r Hw Hr Hp) as Hu. apply is_ident_inv in Hw as (b & w' & -> & Hb & Hw).
  pose proof (ident_start_cases _ Hb) as Hc. unfold css_scan. cbn [app] in *. rewrite blank_step.
  assert (isspace (s8 b) = false /\ is_char 47 b = false) as [-> ->] by (unfold isspace, is_char; lia). cbn [andb].
  assert (scan_single (s8 b) (w' ++ r) = None) as ->.
  { unfold scan_single. repeat (rewrite (proj2 (Z.eqb_neq (s8 b) _)) by lia). done. }
  unfold scan_multi. cbn zeta. rewrite Hu, Hb.
  assert (scan_ident (b :: w' ++ r) = (Some (b :: w'), r)) as ->.
  { unfold scan_ident, ident_start. assert (isalpha (s8 b) || (s8 b =? 45) || (s8 b =? 95) || (s8 b =? 92) = true) as -> by (clear -Hb; revert Hb; destruct (isalpha (s8 b)), (s8 b =? 45), (s8 b =? 95); done).
    by rewrite takew_app, dropw_app. }
  cbn [string_or_delim]. unfold isdigit. repeat (rewrite (proj2 (Z.eqb_neq (s8 b) _)) by lia).
  replace ((48 <=? s8 b) && (s8 b <=? 57)) with false by lia. cbn [orb].
  by destruct ((s8 b =? 117) || (s8 b =? 85)).
Qed.

(** ** Declarations, rules and sheets that were printed *)

(** The comparisons of known types. *)
Ltac know_types := cbn [ck_type ck_value];
  repeat match goal with |- context [is_type ?a ?b] =>
    let v := eval vm_compute in (is_type a b) in first [constr_eq v true | constr_eq v false]; change (is_type a b) with v end;
  cbn [orb andb negb].

Definition extend (acc : option text) (w : text) : text := match acc with None => w | Some v => v ++ 32 :: w end.

Lemma scan_values_space f acc b l : isspace (s8 b) = true -> scan_values f acc (b :: l) = scan_values f acc l.
Proof using Type. intros Hb. destruct f; [done|]. cbn [scan_values]. by rewrite css_scan_space. Qed.

(** A token that ends a value, and the text that begins with it. *)
Definition value_end (tl : text) (k : ctok) (r : text) : Prop :=
  css_scan tl = Some (k, r) /\ is_type (ck_type k) CSS_TOKEN_SEMICOLON || is_type (ck_type k) CSS_TOKEN_RIGHT_BRACE = true /\
  head_is ident_char tl = false /\ head_is (fun c => c =? 40) tl = false.

Lemma semicolon_ends r : value_end (59 :: r) (CTok CSS_TOKEN_SEMICOLON None) r.
Proof using Type. split; [by apply css_scan_punct|done]. Qed.

Lemma brace_ends r : value_end (32 :: 125 :: r) (CTok CSS_TOKEN_RIGHT_BRACE None) r.
Proof using Type. split; [rewrite css_scan_space by done; by apply css_scan_punct|done]. Qed.

Lemma scan_values_print ws tl k r : value_end tl k r -> ws <> [] -> forallb is_ident ws = true -> forall f acc, (length ws < f)%nat ->
  scan_values f acc (join ws ++ tl) = Some (Some (extend acc (join ws)), Some k, r).
Proof using SL.
  intros (Htl & Hk & Hi & Hp). induction ws as [|w ws IH]; [done|]. intros _ [Hw Hws]%andb_prop f acc Hf. destruct f as [|f]; [cbn in Hf; lia|].
  destruct ws as [|w2 ws].
  - cbn [join scan_values]. rewrite css_scan_ident by done. know_types.
    destruct f as [|f]; [cbn in Hf; lia|]. cbn [scan_values]. by rewrite Htl, Hk.
  - change (join (w :: w2 :: ws)) with (w ++ [32] ++ join (w2 :: ws)). rewrite <- !app_assoc. cbn [scan_values app].
    rewrite css_scan_ident by done. know_types. change (match acc with Some v => v ++ 32 :: w | None => w end) with (extend acc w).
    rewrite scan_values_space by done.
    rewrite IH by first [done|cbn in *; lia]. do 3 f_equal. destruct acc; cbn [extend]; [by rewrite <- app_assoc|done].
Qed.

Lemma join_length ws : forallb is_ident ws = true -> (length ws <= length (join ws))%nat.
Proof using Type.
  induction ws as [|w ws IH]; [done|]. intros [Hw Hws]%andb_prop. apply is_ident_inv in Hw as (b & w' & -> & _).
  destruct ws as [|w2 ws]; [cbn; lia|]. specialize (IH Hws). change (join ((b :: w') :: w2 :: ws)) with ((b :: w') ++ 32 :: join (w2 :: ws)).
  rewrite length_app. cbn [length] in *. lia.
Qed.

Lemma scan_decl_print d tl k r : value_end tl k r -> wf_decl d = true ->
  scan_decl d.1 ([58; 32] ++ join d.2 ++ tl) = Some (Some (read_decl d), 1%nat, r).
Proof using SL.
  intros Htl. destruct d as [name ws]. intros [[_ Hne]%andb_prop Hws]%andb_prop. cbn [fst snd] in *. unfold scan_decl.
  change ([58; 32] ++ join ws ++ tl) with (58 :: 32 :: join ws ++ tl).
  rewrite (css_scan_punct 58 _ (CTok CSS_TOKEN_COLON None, 32 :: join ws ++ tl)) by done. know_types.
  assert (ws <> []) as Hne' by (by destruct ws). pose proof (join_length ws Hws) as Hl.
  rewrite scan_values_space by done. rewrite (scan_values_print ws tl k r) by first [done|cbn [length]; rewrite length_app; lia]. done.
Qed.

Lemma scan_decls_space f acc n b l : isspace (s8 b) = true -> scan_decls f acc n (b :: l) = scan_decls f acc n l.
Proof using Type. intros Hb. destruct f; [done|]. cbn [scan_decls]. by rewrite css_scan_space. Qed.

Lemma scan_decls_print ds : forallb wf_decl ds = true -> forall f acc n r, (length ds < f)%nat ->
  scan_decls f acc n (flat_map print_decl ds ++ [32; 125] ++ r) = Some (rev (map read_decl ds) ++ acc, (S (n + length ds))%nat, r).
Proof using SL.
  induction ds as [|d ds IH]; intros Hds f acc n r Hf.
  - destruct f as [|f]; [lia|]. cbn [flat_map app rev map length]. rewrite scan_decls_space by done. cbn [scan_decls].
    rewrite (css_scan_punct 125 r (CTok CSS_TOKEN_RIGHT_BRACE None, r)) by done. cbn. by rewrite Nat.add_0_r.
  - apply andb_prop in Hds as [Hd Hds]. destruct f as [|f]; [lia|]. cbn [length] in Hf. cbn [flat_map]. rewrite <- app_assoc. unfold print_decl at 1.
    cbn [app]. rewrite scan_decls_space by done. set (tl := flat_map print_decl ds ++ 32 :: 125 :: r).
    replace ((d.1 ++ 58 :: 32 :: join d.2 ++ [59]) ++ tl) with (d.1 ++ [58; 32] ++ join d.2 ++ 59 :: tl)
      by (rewrite <- !app_assoc; cbn [app]; by rewrite <- app_assoc).
    cbn [scan_decls]. pose proof Hd as [[Hp _]%andb_prop _]%andb_prop. rewrite css_scan_ident by done.
    know_types. rewrite (scan_decl_print _ _ _ _ (semicolon_ends tl)) by done. subst tl. change (32 :: 125 :: r) with ([32; 125] ++ r).
    rewrite IH by first [done|lia]. cbn [map rev length]. rewrite <- app_assoc. cbn [app]. by replace (n + 1 + length ds)%nat with (n + S (length ds))%nat by lia.
Qed.

Lemma decls_length ds : (length ds <= length (flat_map print_decl ds))%nat.
Proof using Type. induction ds as [|d ds IH]; [done|]. cbn [flat_map length]. rewrite length_app. unfold print_decl at 1. cbn [length]. lia. Qed.

Lemma style_rule_print x r : wf_rule x = true ->
  style_rule x.1 ([32; 123] ++ flat_map print_decl x.2 ++ [32; 125] ++ r) = Some (Some (read_rule x), S (length x.2), r).
Proof using SL.
  destruct x as [name ds]. cbn [fst snd]. intros [_ Hds]%andb_prop. cbn [fst snd] in Hds. unfold style_rule. cbn [skip_to app].
  rewrite css_scan_space by done. set (tl := flat_map print_decl ds ++ 32 :: 125 :: r).
  rewrite (css_scan_punct 123 tl (CTok CSS_TOKEN_LEFT_BRACE None, tl)) by done. know_types.
  pose proof (decls_length ds) as Hl. subst tl. change (32 :: 125 :: r) with ([32; 125] ++ r).
  rewrite scan_decls_print by first [done|rewrite length_app; lia]. by rewrite app_nil_r.
Qed.

Lemma scan_rules_print rs : forallb wf_rule rs = true -> forall f acc n, (2 * length rs < f)%nat ->
  scan_rules f acc n (print_sheet rs) = Some (rev (map read_rule rs) ++ acc, (n + forgotten_tokens rs)%nat).
Proof using SL.
  induction rs as [|x rs IH]; intros Hrs f acc n Hf.
  - destruct f; [lia|]. cbn. by rewrite Nat.add_0_r.
  - apply andb_prop in Hrs as [Hx Hrs]. destruct f as [|f]; [lia|]. cbn [length] in Hf. cbn [print_sheet flat_map]. fold (print_sheet rs).
    unfold print_rule at 1. rewrite <- !app_assoc. change ([32; 125; 10] ++ print_sheet rs) with ([32; 125] ++ 10 :: print_sheet rs).
    cbn [scan_rules]. pose proof Hx as [Hname _]%andb_prop. rewrite css_scan_ident by done.
    know_types. rewrite style_rule_print by done.
    destruct f as [|f]; [lia|].
    assert (forall acc n, scan_rules (S f) acc n (10 :: print_sheet rs) = scan_rules (S f) acc n (print_sheet rs)) as ->
      by (intros; cbn [scan_rules]; by rewrite css_scan_space).
    rewrite IH by first [done|lia]. cbn [map rev forgotten_tokens list_sum foldr]. rewrite <- app_assoc. cbn [app]. do 2 f_equal.
    unfold forgotten_tokens. cbn [map list_sum foldr]. fold (list_sum (map (fun x : rule => S (length x.2)) rs)). unfold list_sum. lia.
Qed.

Lemma print_rules_length rs : forallb wf_rule rs = true -> (2 * length rs <= length (print_sheet rs))%nat.
Proof using Type.
  induction rs as [|x rs IH]; [done|]. intros [_ Hrs]%andb_prop. specialize (IH Hrs). cbn [print_sheet flat_map]. fold (print_sheet rs).
  rewrite length_app. unfold print_rule at 1. rewrite !length_app. cbn [length]. lia.
Qed.

(** What was printed is read back. *)
Lemma sheet_of_print rs : forallb wf_rule rs = true ->
  sheet_of (print_sheet rs) = Some (rev (map read_rule rs), forgotten_tokens rs).
Proof using SL.
  intros Hrs. unfold sheet_of. pose proof (print_rules_length rs Hrs) as Hl. rewrite scan_rules_print by first [done|lia].
  by rewrite app_nil_r.
Qed.

(** ** A declaration without its semicolon *)

(** A rule with one declaration that has no semicolon. *)
Definition print_unclosed (name : text) (d : declaration) : text := name ++ [32; 123; 32] ++ d.1 ++ [58; 32] ++ join d.2 ++ [32; 125; 10].

(** The declarations of the rule [x] follow those of the rule before. *)
Lemma scan_decls_unclosed f d x r : wf_decl d = true -> wf_rule x = true -> (length x.2 + 2 < f)%nat ->
  scan_decls f [] 0 (32 :: d.1 ++ [58; 32] ++ join d.2 ++ 32 :: 125 :: 10 :: x.1 ++ 32 :: 123 :: flat_map print_decl x.2 ++ [32; 125] ++ r) =
  Some (rev (map read_decl x.2) ++ [read_decl d], (2 + length x.2)%nat, r).
Proof using SL.
  intros Hd [Hxn Hxd]%andb_prop Hf. pose proof Hd as [[Hp _]%andb_prop _]%andb_prop. destruct f as [|[|f]]; [lia..|].
  rewrite scan_decls_space by done. cbn [scan_decls]. rewrite css_scan_ident by done. know_types.
  rewrite (scan_decl_print _ _ _ _ (brace_ends _)) by done. rewrite css_scan_space by done. rewrite css_scan_ident by done. know_types.
  set (tl := flat_map print_decl x.2 ++ [32; 125] ++ r).
  assert (scan_decl x.1 (32 :: 123 :: tl) = Some (None, 0%nat, tl)) as ->.
  { unfold scan_decl. rewrite css_scan_space by done. by rewrite (css_scan_punct 123 tl (CTok CSS_TOKEN_LEFT_BRACE None, tl)). }
  subst tl. rewrite scan_decls_print by first [done|lia]. do 2 f_equal. 
Qed.

(** The closing brace is taken for the end of the value: the selector of the
    next rule is lost, and its declarations go to the first rule. *)
Lemma sheet_of_unclosed name d x rs : is_ident name = true -> wf_decl d = true -> wf_rule x = true -> forallb wf_rule rs = true ->
  sheet_of (print_unclosed name d ++ print_sheet (x :: rs)) =
  Some (rev (map read_rule rs) ++ [(name, rev (map read_decl x.2) ++ [read_decl d])], (2 + length x.2 + forgotten_tokens rs)%nat).
Proof using SL.
  intros Hn Hd Hx Hrs. pose proof (print_rules_length rs Hrs) as Hl. pose proof (decls_length x.2) as Hl2. unfold sheet_of.
  set (u := print_sheet rs).
  set (tl := 32 :: d.1 ++ [58; 32] ++ join d.2 ++ 32 :: 125 :: 10 :: x.1 ++ 32 :: 123 :: flat_map print_decl x.2 ++ [32; 125] ++ 10 :: u).
  assert (print_unclosed name d ++ print_sheet (x :: rs) = name ++ 32 :: 123 :: tl) as ->.
  { unfold print_unclosed, tl, u. cbn [print_sheet flat_map]. fold (print_sheet rs). unfold print_rule at 1. repeat progress (rewrite <- ?app_assoc; cbn [app]). done. }
  assert (length (flat_map print_decl x.2) + length u + 3 < length tl)%nat as Ht.
  { unfold tl. cbn [length]. repeat progress (rewrite ?length_app; cbn [length app]). lia. }
  assert (2 * length rs < length (name ++ [32; 123]%Z ++ tl))%nat as Hf by (unfold u in Ht; rewrite length_app; cbn [length app]; lia).
  cbn [app] in Hf. destruct (length (name ++ 32 :: 123 :: tl)) as [|f] eqn:Ef; [lia|]. clear Ef.
  cbn [scan_rules]. rewrite css_scan_ident by done. know_types. unfold style_rule. cbn [skip_to].
  rewrite css_scan_space by done. rewrite (css_scan_punct 123 tl (CTok CSS_TOKEN_LEFT_BRACE None, tl)) by done. know_types.
  unfold tl at 2. rewrite scan_decls_unclosed by first [done|lia]. cbn [scan_rules]. rewrite css_scan_space by done.
  pose proof (scan_rules_print rs Hrs (S f) [(name, rev (map read_decl x.2) ++ [read_decl d])] (0 + (2 + length x.2))%nat ltac:(lia)) as Hr.
  cbn [scan_rules] in Hr. exact Hr.
Qed.
End Print.
