(* ===== verification/CssParse.v ===== *)
(** * Parsing a style sheet, as a run of the program

    The theorems about css_parser.c on states: what [CssProofs] shows in the
    logic, read back as statements about runs, the round trip with
    [CssPrint.print_sheet], and runs that fault.  The examples instantiate the
    allocator and the functions that src/ does not define. *)

From S2P Require Import Sep Prelude CMem CStr Ctype Strtol Alloc CssObj DomObj Scan Dom DomSpec DomSep Css CssSpec CssScan CssProofs CssPrint.

(** ** The number of rules and declarations *)

Section Bounds.
Context `{CssStrings} `{NE : NumberOrIdentLength}.
Implicit Types (l r : text).

Lemma scan_decls_count f acc m l ds n r : scan_decls f acc m l = Some (ds, n, r) -> (length ds <= length acc + f)%nat.
Proof using Type.
  revert acc m l. induction f as [|f IH]; intros acc m l; [done|]. cbn [scan_decls].
  destruct (css_scan l) as [[k rl]|]; [|intros [= <- _ _]; lia]. destruct (is_type (ck_type k) CSS_TOKEN_RIGHT_BRACE); [intros [= <- _ _]; lia|].
  destruct (is_type (ck_type k) CSS_TOKEN_IDENT); [|intros Hd%IH; lia].
  destruct (ck_value k); [|done]. destruct (scan_decl _ rl) as [[[d n1] r1]|]; [|done]. intros Hd%IH. destruct d; cbn in Hd; lia.
Qed.

Definition small_rules (N : nat) (rs : list (text * list (text * text))) : Prop := Forall (fun x => (length x.2 <= N)%nat) rs.

Lemma style_rule_count name l x n r : style_rule name l = Some (Some x, n, r) -> (length x.2 <= S (length l))%nat.
Proof using NE.
  unfold style_rule. set (stop := fun ty => _). pose proof (skip_to_length (S (length l)) stop l) as Hs.
  destruct (skip_to _ stop l) as [[k|] rl]; cbn [snd] in Hs; [|done].
  destruct (scan_decls _ [] 0 rl) as [[[ds m] r']|] eqn:E; [|done]. apply scan_decls_count in E. intros [= <- _ _]. cbn in *. lia.
Qed.

Lemma scan_rules_count N f acc m l rs n : scan_rules f acc m l = Some (rs, n) -> (length l <= N)%nat ->
  (length rs <= length acc + f)%nat /\ (small_rules (S N) acc -> small_rules (S N) rs).
Proof using NE.
  revert acc m l. induction f as [|f IH]; intros acc m l; [done|]. cbn [scan_rules].
  destruct (css_scan l) as [[k rl]|] eqn:E; [|intros [= <- _]; split; [lia|done]]. apply css_scan_length in E.
  destruct (is_type (ck_type k) CSS_TOKEN_AT_KEYWORD).
  - pose proof (at_rule_length rl) as Ha. destruct (at_rule rl) as [n' r']. cbn [snd] in Ha. intros Hr Hl. apply IH in Hr as [? ?]; [|lia]. split; [lia|done].
  - destruct (is_type _ _ || _); [|intros Hr Hl; apply IH in Hr as [? ?]; [split; [lia|done]|lia]].
    destruct (ck_value k) as [name|]; [|done]. destruct (style_rule name rl) as [[[x n'] r']|] eqn:Es; [|done].
    pose proof (style_rule_length _ _ _ _ _ Es). intros Hr Hl. apply IH in Hr as [H1' H2']; [|lia]. destruct x as [x|].
    + apply style_rule_count in Es. split; [cbn in H1'; lia|]. intros Ha. apply H2'. constructor; [lia|done].
    + split; [lia|done].
Qed.

Lemma sheet_of_count t rs n : sheet_of t = Some (rs, n) -> (length rs <= S (length t))%nat /\ small_rules (S (length t)) rs.
Proof using NE. unfold sheet_of. intros Hr. destruct (scan_rules_count (length t) _ _ _ _ _ _ Hr (le_n _)) as [H1' H2']. split; [exact H1'|]. apply H2'. constructor. Qed.
End Bounds.

(** ** Runs *)

Section Parse.
Context {H : Type} `{LibcHeapLaws H} `{!CssLib H} `{!CssStrings} `{!NumberOrIdent} `{NE : !NumberOrIdentLength} `{NL : !CssNumberLaws H} `{CL : !CssLibLaws H}.
Implicit Types (s : dom H) (P a : Z) (p : css_parser_t) (t : text) (rest made left : gmap Z obj) (n : nat).

(** The state holds the parser [p] at [P], the text [t] at [a], and [rest]. *)
Definition css_parsing s P p a t rest : Prop := loaded s P (Css (C_parser p)) a t rest.

(** A run that ends with the sheet [ss] of the rules [rs]: what it allocated
    and did not free is exactly the sheet, [made], and [n] tokens, [left]; the
    text and the [rest] are what they were. *)
Definition css_parsed s' P a t rest (ss : Z) rs n : Prop :=
  exists p' made left, css_parsing s' P p' a t ((made ∪ left) ∪ rest) /\ (made ∪ left) ##ₘ rest /\ made ##ₘ left /\
    sheet_at ss rs made /\ forgotten n left.

Lemma css_run s P p a t rest rs n : css_parsing s P p a t rest -> half_short t -> sheet_of t = Some (rs, n) ->
  exists ss s', css_parser_parse P a s = Ok (ss, s') /\ css_parsed s' P a t rest ss rs n.
Proof using Type NE NL CL.
  intros Hp Ht HR. pose proof Hp as (_ & HP & _).
  destruct (run_loaded (fun p => Css (C_parser p)) (css_parser_parse P a) (fun _ ss => (sheet_at ss rs ∗ forgotten n)%I) s P p a t rest)
    as (ss & s' & p' & made & Hrun & Hp' & Hd & (m1 & m2 & -> & Hd12 & Hss & Hn)); [|done|].
  - iIntros "[HP Ha]". iApply (swp_css_parse with "HP Ha"); [done..|]. iIntros (ss p') "HP Ha Hss Hn". iExists p'. iFrame.
  - exists ss, s'. split; [done|]. by exists p', m1, m2.
Qed.

(** C2: [css_parser_parse] on a text from which the specification reads rules
    stops without a fault and builds exactly the sheet of these rules, with
    their selectors and declarations in their order in memory; nothing else
    is touched, and of all tokens exactly [n] are never freed. *)
Theorem css_parser_parse_correct s P p a t rest rs n : css_parsing s P p a t rest -> half_short t -> sheet_of t = Some (rs, n) ->
  exists ss s', css_parser_parse P a s = Ok (ss, s') /\ css_parsed s' P a t rest ss rs n.
Proof using Type NE NL CL. apply css_run. Qed.

(** C10: parsing what [print_sheet] wrote gives the sheet back, with the rules
    and the declarations of each rule in reverse order; one token per
    declaration and one per rule stays allocated. *)
Theorem css_parser_parse_print `{!StrncaseLaws} s P p a (sheet : list rule) rest : forallb wf_rule sheet = true ->
  css_parsing s P p a (print_sheet sheet) rest -> half_short (print_sheet sheet) ->
  exists ss s', css_parser_parse P a s = Ok (ss, s') /\
    css_parsed s' P a (print_sheet sheet) rest ss (rev (map read_rule sheet)) (forgotten_tokens sheet).
Proof using Type NE NL CL. intros Hw Hp Ht. apply (css_run _ _ p); [done..|]. by apply sheet_of_print. Qed.

(** C38: a declaration without its semicolon takes the closing brace of its
    rule: the selector of the next rule is lost, and the declarations of that
    rule are added to the first rule. *)
Theorem css_missing_semicolon `{!StrncaseLaws} s P p a name (d : declaration) (x : rule) (sheet : list rule) rest :
  let t := print_unclosed name d ++ print_sheet (x :: sheet) in
  is_ident name = true -> wf_decl d = true -> forallb wf_rule (x :: sheet) = true ->
  css_parsing s P p a t rest -> half_short t ->
  exists ss s', css_parser_parse P a s = Ok (ss, s') /\
    css_parsed s' P a t rest ss (rev (map read_rule sheet) ++ [(name, rev (map read_decl x.2) ++ [read_decl d])])
      (2 + length x.2 + forgotten_tokens sheet).
Proof using Type NE NL CL.
  cbn zeta. intros Hn Hd [Hx Hs]%andb_prop Hp Ht. apply (css_run _ _ p); [done..|]. by apply sheet_of_unclosed.
Qed.

(** C17: parsing a sheet and destroying it stops without a fault; the sheet,
    its rules, its selectors and their strings are freed, each once, and every
    declaration goes to [css_declaration_destroy] once.  What stays allocated
    is exactly the [n] tokens that the parser forgot, and what that function,
    of which nothing else is assumed, leaves of each declaration it gets. *)
Theorem css_stylesheet_destroy_correct s P p a t rest rs n : css_parsing s P p a t rest -> half_short t -> sheet_of t = Some (rs, n) ->
  exists s' p' left, (let* ss := css_parser_parse P a in css_stylesheet_destroy ss) s = Ok (tt, s') /\
    css_parsing s' P p' a t (left ∪ rest) /\ left ##ₘ rest /\ (forgotten n ∗ discarded_sheet rs)%I left.
Proof using Type NE NL CL.
  intros Hp Ht HR. pose proof Hp as (_ & HP & _). pose proof (sheet_of_count _ _ _ HR) as [Hl Hds]. pose proof Ht as Hh. unfold half_short in Hh.
  destruct (run_loaded (fun p => Css (C_parser p)) (let* ss := css_parser_parse P a in css_stylesheet_destroy ss) (fun _ _ => (forgotten n ∗ discarded_sheet rs)%I) s P p a t rest)
    as ([] & s' & p' & left & Hrun & Hp' & Hd & Hn); [|done|by exists s', p', left].
  iIntros "[HP Ha]". iApply swp_bind. iApply (swp_css_parse with "HP Ha"); [done..|]. iIntros (ss p') "HP Ha Hss Hn".
  iApply (swp_stylesheet_destroy with "Hss"); [lia| |iIntros "Hx"; iExists p'; iFrame].
  apply (Forall_impl _ _ _ Hds). intros x Hx. cbn in Hx. lia.
Qed.

(** C29: a call of [css_next_token] takes the next token of the text: it moves
    the position forward to the specified rest, at most two characters behind
    the end, and returns a token object that owns a copy of the specified
    string; when there is no token it returns the null pointer and leaves
    nothing allocated. *)
Theorem css_next_token_correct s P p a t k rest : css_parsing s P (cp_with_position (Z.of_nat k) p) a t rest ->
  cp_input p = a -> cp_length p = Z.of_nat (length t) -> (k <= length t + 2)%nat ->
  exists token s' k' made, css_next_token P s = Ok (token, s') /\ (k' <= length t + 2)%nat /\ made ##ₘ rest /\
    css_parsing s' P (cp_with_position (Z.of_nat k') p) a t (made ∪ rest) /\
    match css_scan (drop k t) with
    | Some (tk, r) => drop k' t = r /\ (k < k')%nat /\ ctoken_at token tk made
    | None => token = 0 /\ made = ∅ /\ drop k' t = []
    end.
Proof using Type NE NL.
  intros Hp Hi Hl Hk. pose proof Hp as (_ & HP & _).
  set (R := fun (p' : css_parser_t) token => (∃ k', ⌈p' = cp_with_position (Z.of_nat k') p /\ (k' <= length t + 2)%nat⌉ ∗
    match css_scan (drop k t) with
    | Some (tk, r) => ⌈drop k' t = r /\ (k < k')%nat⌉ ∗ ctoken_at token tk
    | None => ⌈token = 0 /\ drop k' t = []⌉
    end)%I).
  destruct (run_loaded (fun p => Css (C_parser p)) (css_next_token P) R s P (cp_with_position (Z.of_nat k) p) a t rest) with (2 := Hp)
    as (token & s' & p' & made & Hrun & Hp' & Hd & k' & σ1 & made' & -> & _ & [-> [-> Hk']] & HR).
  - iIntros "[HP Ha]". iDestruct (str_at_pure with "Ha") as "[%Ha Ha]". iApply (c_next_token P p t (drop k t) with "[HP Ha]"); [done| |].
    { iExists k. iSplit; [done|]. rewrite /creader Hi. iFrame. iPureIntro. by split; [|split; [|apply Ha]]. }
    unfold R. pose proof (css_scan_length (drop k t)) as Hlen. destruct (css_scan (drop k t)) as [[tk r]|].
    + iIntros (token) "(%k' & %Hk' & %Hr & HP & Hi) Ht". rewrite Hi. iExists _. iFrame "HP Hi". iExists k'. iFrame "Ht".
      iPureIntro. destruct Hr as (_ & Hle & _), Hk' as [Hk' _]. split; [done|]. split; [done|]. specialize (Hlen tk r eq_refl).
      rewrite -Hk' !length_drop in Hlen. lia.
    + iIntros "(%k' & %Hk' & %Hr & HP & Hi)". rewrite Hi. iExists _. iFrame "HP Hi". iExists k'.
      iPureIntro. destruct Hr as (_ & Hle & _), Hk' as [Hk' _]. done.
  - rewrite left_id_L in Hp', Hd. exists token, s', k', made'. split; [done|]. split; [done|]. split; [done|].
    split; [done|]. destruct (css_scan (drop k t)) as [[tk r]|].
    + destruct HR as (σ1 & σ2 & -> & _ & [-> [Hdr Hkk]] & Ht). by rewrite left_id_L.
    + by destruct HR as [-> [-> Hdr]].
Qed.
End Parse.

(** ** Colours *)

Section Colours.
Context {H : Type} `{LibcHeapLaws H}.
Implicit Types (s : dom H) (a : Z) (t ds : text) (rest : gmap Z obj).

(** The colour of a text: a number sign and three, four, six or eight
    hexadecimal digits. *)
Definition color_of (t : text) : option (Z * Z * Z * Z) :=
  match t with
  | 35 :: ds =>
      if forallb (is_digit 16) ds then
        match map digit_value ds with
        | [r; g; b] => Some (17 * r, 17 * g, 17 * b, 255)
        | [r; g; b; a] => Some (17 * r, 17 * g, 17 * b, 17 * a)
        | [r1; r0; g1; g0; b1; b0] => Some (16 * r1 + r0, 16 * g1 + g0, 16 * b1 + b0, 255)
        | [r1; r0; g1; g0; b1; b0; a1; a0] => Some (16 * r1 + r0, 16 * g1 + g0, 16 * b1 + b0, 16 * a1 + a0)
        | _ => None
        end
      else None
  | _ => None
  end.

Lemma digits_hex ds : forallb (is_digit 16) ds = true -> Forall (fun d => 0 <= d < 16) (map digit_value ds).
Proof using Type.
  induction ds as [|d ds IH]; [constructor|]. intros [Hd Hds]%andb_prop. constructor; [apply (is_digit_spec 16 d Hd)|by apply IH].
Qed.

(** A digit and the rest of the digits, as the number that they write. *)
Lemma hex_value_digits ds : value 16 ds = foldl (fun v d => v * 16 + d) 0 (map digit_value ds).
Proof using Type. unfold value, value_from. generalize 0. induction ds as [|d ds IH]; intros v; [done|]. apply IH. Qed.

Lemma hex_bound ds v : Forall (fun d => 0 <= d < 16) ds -> 0 <= v -> 0 <= foldl (fun v d => v * 16 + d) v ds < (v + 1) * 16 ^ Z.of_nat (length ds).
Proof using Type.
  intros Hds. revert v. induction Hds as [|d ds Hd _ IH]; intros v Hv; [cbn; lia|]. cbn [foldl length].
  specialize (IH (v * 16 + d) ltac:(lia)). rewrite Nat2Z.inj_succ Z.pow_succ_r; [|lia]. nia.
Qed.

Lemma swp_hex ds (Q : Z -> sprop obj) : forallb (is_digit 16) ds = true -> Forall cchar ds -> ds <> [] -> (length ds <= 8)%nat ->
  Q (value 16 ds) ⊢ swp (strtoul_hex ds) Q.
Proof using Type.
  intros Hds Hc Hne Hlen. unfold strtoul_hex.
  assert (numeral 16 16 [] [] [] ds []) as Hnum.
  { constructor; [constructor|by left| |by apply Forall_forall; intros d Hd; rewrite forallb_forall in Hds; apply Hds, list_elem_of_In|done|done|lia].
    right. split; [done|]. split; [done|]. intros _ x r E. rewrite app_nil_r in E. subst ds.
    split; intros ->; by vm_compute in Hds. }
  rewrite (strtoul_run 4096 0 16 16 [] [] [] ds []); [|done| |cbn [app]; rewrite app_nil_r; lia|by left].
  - pose proof (hex_bound _ 0 (digits_hex _ Hds) (Z.le_refl 0)) as Hb. rewrite -hex_value_digits length_map in Hb.
    assert (16 ^ Z.of_nat (length ds) <= 16 ^ 8) as Hp by (apply Z.pow_le_mono_r; lia).
    rewrite Z.min_r; [|unfold ULONG_MAX; lia]. iIntros "HQ". by iApply swp_ret.
  - cbn [app]. rewrite app_nil_r. by apply cstr_written.
Qed.

(** Parts of a number that is written in hexadecimal. *)
Lemma nibble_at v k : 0 <= k -> Z.land (Z.shiftr v k) 15 = (v / 2 ^ k) mod 16.
Proof using Type. intros Hk. rewrite (Z.land_ones _ 4); [|lia]. by rewrite Z.shiftr_div_pow2. Qed.
Lemma byte_at v k : 0 <= k -> Z.land (Z.shiftr v k) 255 = (v / 2 ^ k) mod 256.
Proof using Type. intros Hk. rewrite (Z.land_ones _ 8); [|lia]. by rewrite Z.shiftr_div_pow2. Qed.
End Colours.

Section ParseColour.
Context {H : Type} `{LibcHeapLaws H} `{!CssLib H}.
Implicit Types (s : dom H) (a : Z) (t ds : text).

Definition color_value (c : Z * Z * Z * Z) : css_value_t :=
  let '(r, g, b, al) := c in CssValue CSS_VALUE_COLOR (CV_color r g b al) false.

Ltac colour_case Hc Hhex :=
  injection Hc as <-; repeat apply Forall_cons in Hhex as [? Hhex]; cbn [length foldl];
  repeat match goal with |- context [Z.of_nat ?n =? ?m] =>
    let b := eval vm_compute in (Z.of_nat n =? m) in change (Z.of_nat n =? m) with b end; cbv iota;
  rewrite wrap_small; [|lia]; f_equal; Z.div_mod_to_equations; lia.

(** The fields of the number, by the count of its digits. *)
Lemma color_fields ds c : color_of (35 :: ds) = Some c ->
  forallb (is_digit 16) ds = true /\ ds <> [] /\ (length ds <= 8)%nat /\
  forall (set : Z -> Z -> Z -> Z -> prog (dom H) unit),
    (let color := u32 (value 16 ds) in
     let nibble k := Z.land (Z.shiftr color k) 15 * 17 in
     let byte k := Z.land (Z.shiftr color k) 255 in
     let len := Z.of_nat (length (35 :: ds)) in
     if len =? 4 then set (nibble 8) (nibble 4) (nibble 0) 255
     else if len =? 5 then set (nibble 12) (nibble 8) (nibble 4) (nibble 0)
     else if len =? 7 then set (byte 16) (byte 8) (byte 0) 255
     else if len =? 9 then set (byte 24) (byte 16) (byte 8) (byte 0)
     else ret tt) = let '(r, g, b, al) := c in set r g b al.
Proof using Type.
  unfold color_of. destruct (forallb (is_digit 16) ds) eqn:Hds; [|done]. intros Hc. split; [done|].
  apply digits_hex in Hds as Hhex. pose proof (hex_value_digits ds) as Hv.
  assert (length (map digit_value ds) = length ds) as Hl by apply length_map. revert Hc Hhex Hv Hl. generalize (map digit_value ds) as es.
  intros es Hc Hhex Hv Hl.
  assert (ds <> [] /\ (length ds <= 8)%nat) as [Hne Hle].
  { do 9 (destruct es as [|? es]; [cbn in Hl; destruct ds; [done|]; cbn in *; split; [done|lia]|]). done. }
  split; [done|]. split; [done|]. intros set. cbn zeta. rewrite !nibble_at // !byte_at //. cbn [length]. rewrite -Hl Hv. clear Hl Hv.
  do 9 (destruct es as [|? es]; [try discriminate Hc; colour_case Hc Hhex|]). done.
Qed.

Lemma swp_parse_color a t c (Q : Z -> sprop obj) : Forall cchar t -> color_of t = Some c -> str_at a t -∗
  (∀ v, ⌈v <> 0⌉ -∗ v ↦ Css (C_value (color_value c)) -∗ str_at a t -∗ Q v) -∗ swp (css_value_parse_color (Ptr a)) Q.
Proof using Type.
  intros Ht Hc. iIntros "Hs HQ". iDestruct (str_at_pure with "Hs") as "[%Hs Hs]". unfold css_value_parse_color. cbn [is_null].
  rewrite (proj2 (Z.eqb_neq a 0)); [|tauto]. iApply swp_bind. iApply swp_bind. iApply swp_malloc; [done|]. iIntros (v Hv) "Hv".
  rewrite (proj2 (Z.eqb_neq v 0)); [|lia]. iApply swp_bind. iApply (swp_init_obj with "Hv"); [done|]. iIntros "Hv".
  iApply swp_bind. iApply (swp_upd_value with "Hv"). iIntros "Hv". iApply swp_ret. rewrite (proj2 (Z.eqb_neq v 0)); [|lia].
  iApply swp_bind. iApply (swp_get_str (Ptr a) with "Hs"). iIntros "Hs".
  assert (exists ds, t = 35 :: ds) as [ds ->].
  { destruct t as [|b ds]; [done|]. exists ds. f_equal. revert Hc. unfold color_of. destruct b as [|p|p]; try done. do 6 (destruct p as [p|p|]; try done). }
  destruct (color_fields ds c Hc) as (Hds & Hne & Hl & Hset). apply Forall_cons in Ht as [_ Ht].
  iApply swp_bind. iApply swp_hex; [done..|]. cbv zeta beta.
  specialize (Hset (fun r g b al => upd_css_value v (cv_with_data (CV_color r g b al)))). cbv zeta beta in Hset. rewrite Hset.
  destruct c as [[[r g] b] al].
  iApply swp_bind. iApply (swp_upd_value with "Hv"). iIntros "Hv". iApply swp_ret. iApply ("HQ" with "[] Hv Hs"). iPureIntro. lia.
Qed.

(** C35: [css_value_parse_color] of a number sign and three, four, six or
    eight hexadecimal digits returns a new value with the colour's parts: a
    single digit stands for the digit doubled, and without an alpha part the
    colour is opaque; nothing else in memory changes. *)
Theorem css_value_parse_color_correct s a t c : objs s !! a = Some (Str t) -> a <> 0 -> short t -> Forall cchar t -> sound s ->
  color_of t = Some c ->
  exists v s', css_value_parse_color (Ptr a) s = Ok (v, s') /\ objs s !! v = None /\
    objs s' = <[v := Css (C_value (color_value c))]> (objs s) /\ sound s'.
Proof using Type.
  intros Ha Hna Hst Ht Hs Hc.
  destruct (swp_adequate (css_value_parse_color (Ptr a)) (str_at a t) (fun v => v ↦ Css (C_value (color_value c)) ∗ str_at a t)%I
    s {[a := Str t]} (delete a (objs s))) as (v & s' & σ' & Hrun & Hd & Hs' & Hpost & Hsound).
  - iIntros "Hs". iApply (swp_parse_color with "Hs"); [done..|]. iIntros (v _) "Hv Hs". iFrame.
  - exists ∅, {[a := Str t]}. split; [by rewrite left_id_L|]. split; [apply map_disjoint_empty_l|]. by split.
  - apply map_disjoint_singleton_l. apply lookup_delete_eq.
  - cbn. by rewrite -insert_union_singleton_l insert_delete_id.
  - done.
  - destruct Hpost as (σ1 & σ2 & -> & Hd12 & -> & (σ3 & σ4 & -> & _ & [-> _] & ->)). rewrite left_id_L in Hd12, Hd, Hs'.
    apply map_disjoint_singleton_l in Hd12. apply map_disjoint_union_l in Hd as [Hd _]. apply map_disjoint_singleton_l in Hd.
    apply lookup_singleton_None in Hd12. rewrite lookup_delete_ne in Hd; [|done].
    exists v, s'. split; [done|]. split; [done|]. split; [|done]. cbn in Hs'. rewrite Hs' -assoc_L -!insert_union_singleton_l.
    by rewrite insert_delete_id.
Qed.
End ParseColour.
