(* ===== verification/CssExamples.v ===== *)
(** * Runs of the CSS parser on concrete texts

    The interfaces of [Css], [CssSpec] and [CssProofs] with functions that
    satisfy their laws, the theorems of [CssParse] at concrete inputs, and two
    runs that fault. *)

From S2P Require Import Sep Prelude CMem CStr Ctype Strtol Alloc CssObj DomObj Scan Dom DomSpec DomSep Css CssSpec CssScan CssProofs CssPrint CssParse.

(** ** Functions that satisfy the laws *)

Section Instances.
Context {H : Type} `{LibcHeapLaws H}.

#[local] Instance plain_strings : CssStrings := {|
  strncasecmp a b n := if bool_decide (take (Z.to_nat n) (map tolower a) = take (Z.to_nat n) (map tolower b)) then 0 else 1;
  strtod _ := (0, 0%nat);
|}.

#[local] Instance plain_strncase : StrncaseLaws.
Proof. intros a b n _. cbn. by case_bool_decide. Qed.

#[local] Instance plain_lib : CssLib H := {|
  css_parse_number_or_ident := css_parse_number;
  css_declaration_create :=
    let* d := malloc sizeof_css_declaration in
    init_obj d (Css (C_declaration zero_css_declaration)) ;;
    ret d;
  css_declaration_destroy a :=
    let* d := css_declaration a in
    free (cd_property d) ;;
    css_value_destroy_n 1 (cd_value d) ;;
    free a;
|}.

(** A number, and at least one character. *)
#[local] Instance plain_number : NumberOrIdent := fun l =>
  let '(ty, r) := scan_number l in (ty, Nat.max 1 (length l - length r)).

#[local] Instance plain_number_length : NumberOrIdentLength.
Proof. intros b l. unfold number_or_ident, plain_number. destruct (scan_number (b :: l)) as [ty r]. cbn [snd length]. lia. Qed.

Lemma scan_number_reads b l : (s8 b = 45) \/ isdigit (s8 b) = true -> (length (scan_number (b :: l)).2 <= length l)%nat.
Proof.
  intros Hb. assert (length (dropw isdigit (skip_sign (b :: l))) <= length l)%nat as Hd.
  { unfold skip_sign. cbn [head_is]. destruct ((s8 b =? 43) || (s8 b =? 45)) eqn:E; [rewrite drop_1; apply dropw_length|].
    rewrite dropw_step. destruct Hb as [Hb|Hb]; [rewrite Hb in E; done|]. rewrite Hb. apply dropw_length. }
  assert (exists w, dropw isdigit (skip_sign (b :: l)) = w ++ (scan_number (b :: l)).2) as Hs.
  { unfold scan_number. cbn zeta. cbn [snd]. set (l1 := dropw isdigit (skip_sign (b :: l))). set (l2 := if starts 46 l1 then _ else _).
    eapply (suffix_trans _ l2).
    - unfold l2. destruct (starts 46 l1); [|by exists []]. eapply suffix_trans; [apply (suffix_drop 1)|apply suffix_dropw].
    - destruct (head_is _ l2); [|by exists []]. eapply suffix_trans; [apply (suffix_drop 1)|].
      eapply suffix_trans; [apply suffix_sign|apply suffix_dropw]. }
  apply suffix_length in Hs. lia.
Qed.

#[local] Instance plain_number_laws : CssNumberLaws H.
Proof.
  constructor. intros P p t b l a Q Hb. unfold number_or_ident, plain_number.
  pose proof (scan_number_reads b l Hb) as Hl. pose proof (read_suffix _ _ (scan_number_suffix (b :: l))) as Hr.
  pose proof (c_number P p t (b :: l) a Q) as Hn. cbn [css_parse_number_or_ident plain_lib].
  destruct (scan_number (b :: l)) as [ty r]. cbn [fst snd] in *.
  assert (Nat.max 1 (length (b :: l) - length r) = length (read (b :: l) r)) as ->.
  { rewrite /read length_take. cbn [length]. lia. }
  assert (take (length (read (b :: l) r)) (b :: l) = read (b :: l) r /\ drop (length (read (b :: l) r)) (b :: l) = r) as [-> ->]; [|done].
  { split; rewrite {2}Hr; [apply take_app_length|apply drop_app_length]. }
Qed.

#[local, refine] Instance plain_lib_laws : CssLibLaws H := {| discarded _ _ := emp%I |}.
Proof.
  - intros Q. iIntros "HQ". cbn [css_declaration_create plain_lib]. iApply swp_bind. iApply swp_malloc; [done|]. iIntros (a Ha) "Ha".
    iApply swp_bind. iApply (swp_init_obj with "Ha"); [done|]. iIntros "Ha". iApply swp_ret. iApply ("HQ" with "[] Ha"). iPureIntro. lia.
  - intros a p x next k v Q Ha. iIntros "Ha Hk (%s & %Hx & Hx & Hs) HQ". cbn [css_declaration_destroy plain_lib].
    iApply swp_bind. iApply (swp_css_declaration with "Ha"). iIntros "Ha". cbn [cd_property cd_value].
    iDestruct "Hk" as "[%Hp Hk]". iDestruct "Hs" as "[%Hsp Hs]". iApply swp_bind. iApply swp_free; [tauto|]. iFrame "Hk".
    cbn [css_value_destroy_n]. rewrite (proj2 (Z.eqb_neq x 0)) //. iApply swp_bind. iApply swp_bind. iApply (swp_css_value with "Hx"). iIntros "Hx".
    cbn [cv_type cv_data string_of]. iApply swp_bind. iApply swp_bind. iApply swp_ret. iApply swp_free; [tauto|]. iFrame "Hs".
    iApply swp_free; [done|]. iFrame "Hx". iApply swp_free; [done|]. iFrame "Ha". by iApply "HQ".
Defined.

End Instances.

(** ** The theorems at concrete inputs *)

Section Examples.
#[local] Existing Instances counter_heap counter_heap_laws plain_strings plain_strncase plain_lib plain_number plain_number_length plain_number_laws plain_lib_laws.

(** A parser and a text in memory. *)
Definition css_state (p : css_parser_t) (t : text) : dom Z := Dom 48 (<[16 := Css (C_parser p)]> (<[32 := Str t]> ∅)).

Lemma css_state_parsing p t : short t -> css_parsing (css_state p t) 16 p 32 t ∅.
Proof.
  intros Ht. split; [done|]. do 6 (split; [done|]). split; [done|]. by apply counter_sound.
Qed.

Definition page_style : text := chars "/* c */ @import x; p { color: red bold; top: 1.5; } .q{} h1{a:b;}".
Definition page_rules : list (text * list (text * text)) :=
  [(chars "h1", [(chars "a", chars "b")]); (chars "q", []); (chars "p", [(chars "top", chars "1.5"); (chars "color", chars "red bold")])].

Lemma page_style_rules : sheet_of page_style = Some (page_rules, 6%nat).
Proof. vm_compute. reflexivity. Qed.

Lemma css_parser_parse_correct_witness :
  exists ss s', css_parser_parse 16 32 (css_state zero_css_parser page_style) = Ok (ss, s') /\
    css_parsed s' 16 32 page_style ∅ ss page_rules 6.
Proof.
  apply (css_parser_parse_correct _ 16 zero_css_parser 32 page_style ∅ page_rules 6); [by apply css_state_parsing|done|].
  vm_compute. reflexivity.
Defined.

Definition small_sheet : list rule :=
  [(chars "p", [(chars "color", [chars "red"; chars "bold"]); (chars "url", [chars "url"])]); (chars "h1", [])].

Lemma css_parser_parse_print_witness :
  exists ss s', css_parser_parse 16 32 (css_state zero_css_parser (print_sheet small_sheet)) = Ok (ss, s') /\
    css_parsed s' 16 32 (print_sheet small_sheet) ∅ ss (rev (map read_rule small_sheet)) (forgotten_tokens small_sheet).
Proof.
  apply (css_parser_parse_print _ 16 zero_css_parser 32 small_sheet ∅); [reflexivity|by apply css_state_parsing|done].
Defined.

Definition unclosed_sheet : text :=
  print_unclosed (chars "p") (chars "a", [chars "b"]) ++ print_sheet [(chars "q", [(chars "c", [chars "d"])])].

Lemma css_missing_semicolon_witness :
  exists ss s', css_parser_parse 16 32 (css_state zero_css_parser unclosed_sheet) = Ok (ss, s') /\
    css_parsed s' 16 32 unclosed_sheet ∅ ss [(chars "p", [(chars "c", chars "d"); (chars "a", chars "b")])] 3.
Proof.
  apply (css_missing_semicolon _ 16 zero_css_parser 32 (chars "p") (chars "a", [chars "b"]) (chars "q", [(chars "c", [chars "d"])]) [] ∅);
    [reflexivity|reflexivity|reflexivity|by apply css_state_parsing|done].
Defined.

Lemma css_stylesheet_destroy_correct_witness :
  exists s' p' left, (let* ss := css_parser_parse 16 32 in css_stylesheet_destroy ss) (css_state zero_css_parser page_style) = Ok (tt, s') /\
    css_parsing s' 16 p' 32 page_style (left ∪ ∅) /\ left ##ₘ (∅ : gmap Z obj) /\ (forgotten 6 ∗ discarded_sheet page_rules)%I left.
Proof.
  apply (css_stylesheet_destroy_correct _ 16 zero_css_parser 32 page_style ∅ page_rules 6); [by apply css_state_parsing|done|].
  vm_compute. reflexivity.
Defined.

Lemma css_next_token_correct_witness :
  let t := chars " /**/ab:" in
  let p := cp_with_input 32 8 zero_css_parser in
  exists token s' k' made, css_next_token 16 (css_state p t) = Ok (token, s') /\ (k' <= length t + 2)%nat /\ made ##ₘ (∅ : gmap Z obj) /\
    css_parsing s' 16 (cp_with_position (Z.of_nat k') p) 32 t (made ∪ ∅) /\
    drop k' t = chars ":" /\ (0 < k')%nat /\ ctoken_at token (CTok CSS_TOKEN_IDENT (Some (chars "ab"))) made.
Proof.
  apply (css_next_token_correct _ 16 (cp_with_input 32 8 zero_css_parser) 32 (chars " /**/ab:") 0 ∅); try done.
  - by apply css_state_parsing.
  - cbn. lia.
Defined.

Lemma css_value_parse_color_correct_witness :
  exists v s', css_value_parse_color (Ptr 32) (css_state zero_css_parser (chars "#fA0")) = Ok (v, s') /\
    objs (css_state zero_css_parser (chars "#fA0")) !! v = None /\
    objs s' = <[v := Css (C_value (color_value (255, 170, 0, 255)))]> (objs (css_state zero_css_parser (chars "#fA0"))) /\ sound s'.
Proof.
  apply (css_value_parse_color_correct (css_state zero_css_parser (chars "#fA0")) 32 (chars "#fA0") (255, 170, 0, 255)); try done.
  - by repeat constructor.
  - by apply counter_sound.
Defined.

(** ** Runs that fault *)

(** A comma in a value is a token without a string, and
    [css_parse_declaration] takes the length of its null pointer. *)
Theorem css_comma_faults : css_parser_parse 16 32 (css_state zero_css_parser (chars "p { font: a, b; }")) = Fault.
Proof. vm_compute. reflexivity. Qed.

(** A rule with two selectors, the first linked to the second. *)
Definition two_selectors : dom Z :=
  Dom 64 (<[16 := Css (C_rule (cr_with_selectors 32 zero_css_rule))]> (<[32 := Css (C_selector (cs_with_next 48 zero_css_selector))]>
    (<[48 := Css (C_selector zero_css_selector)]> ∅))).

(** [css_rule_destroy] frees the chain of selectors through
    [css_selector_destroy], which frees all that follow, too; it then reads
    the second one. *)
Theorem css_rule_destroy_faults : css_rule_destroy 16 two_selectors = Fault.
Proof. vm_compute. reflexivity. Qed.
End Examples.
