(* ===== verification/Html.v ===== *)
(** * The HTML parser (html/src/html/html_parser.c)

    The tokenizer reads the input from a position in the parser object and
    allocates token objects; the tree builder turns each token into calls of
    the DOM and frees it.  What the file calls and src/ does not define is in
    [HtmlLib]: the comparisons of strings.h, and [html_document_create]
    (declared in html.h only). *)

From S2P Require Import Prelude CMem CStr Ctype Alloc DomObj Dom.

Class HtmlLib (H : Type) : Type := {
  strcasecmp : text -> text -> Z;
  strncasecmp : text -> text -> Z -> Z;
  html_document_create : cstring -> prog (dom H) Z;
}.

Section Html.
Context {H : Type} `{LibcHeap H} `{!Handlers H} `{!HtmlLib H}.

(** ** The parser *)

Definition html_parser_create : prog (dom H) Z :=
  let* parser := malloc sizeof_html_parser in
  if parser =? 0 then ret 0
  else init_obj parser (Parser zero_parser) ;; ret parser.

(** Freeing the first [count] names and values, and the arrays. *)
Definition free_attrs (names values count : Z) : prog (dom H) unit :=
  loop (fun i =>
    if i <? count then
      let* a := get_slot names i in free a ;;
      let* v := get_slot values i in free v ;;
      ret (Next (u64 (i + 1)))
    else ret (Done tt)) 0 ;;
  free names ;;
  free values.

Definition html_parser_destroy (parser : Z) : prog (dom H) unit :=
  if parser =? 0 then ret tt
  else
    let* p := get_parser parser in
    (if p_token_ready p then
       let t := p_current_token p in
       free (t_tag_name t) ;;
       free (t_data t) ;;
       free_attrs (t_attr_names t) (t_attr_values t) (t_attr_count t)
     else ret tt) ;;
    free parser.

(** [input[i]], a signed character; the string ends with a 0. *)
Definition char_at (input : cstring) (i : Z) : prog (dom H) Z :=
  let* t := get_str input in
  match (if i <? 0 then None else (t ++ [0]) !! Z.to_nat i) with
  | Some b => ret (s8 b)
  | None => fault
  end.

(** [while (position < length && cond(input[position])) position++;] *)
Definition skip_while (parser : Z) (cond : Z -> bool) : prog (dom H) unit :=
  loop (fun _ =>
    let* p := get_parser parser in
    if p_position p <? p_length p then
      let* c := char_at (p_input p) (p_position p) in
      if cond c then upd_parser parser (p_with_position (u64 (p_position p + 1))) ;; ret (Next tt)
      else ret (Done tt)
    else ret (Done tt)) tt.

(** [position < length && cond(input[position])] *)
Definition at_char (parser : Z) (cond : Z -> bool) : prog (dom H) bool :=
  let* p := get_parser parser in
  if p_position p <? p_length p then
    let* c := char_at (p_input p) (p_position p) in ret (cond c)
  else ret false.

(** [position += n] *)
Definition advance (parser n : Z) : prog (dom H) unit :=
  upd_parser parser (fun p => p_with_position (u64 (p_position p + n)) p).

Definition at_end (parser : Z) : prog (dom H) bool :=
  let* p := get_parser parser in ret (p_length p <=? p_position p).

Definition get_position (parser : Z) : prog (dom H) Z :=
  let* p := get_parser parser in ret (p_position p).

(** A new string with the characters of the input from [start] to the
    position: [malloc(length + 1)], [memcpy], and the 0. *)
Definition copy_from (parser start : Z) : prog (dom H) Z :=
  let* p := get_parser parser in
  let length := u64 (p_position p - start) in
  let* block := malloc (u64 (length + 1)) in
  let* t := get_str (p_input p) in
  if start + length <=? Z.of_nat (List.length t) + 1 then
    init_obj block (Str (take (Z.to_nat length) (drop (Z.to_nat start) t))) ;;
    ret block
  else fault.

(** ** Tokens *)

Definition is_name_char (c : Z) : bool := isalnum c || (c =? 45) || (c =? 95).

Definition html_parse_tag_name (parser : Z) : prog (dom H) Z :=
  let* start := get_position parser in
  skip_while parser is_name_char ;;
  let* position := get_position parser in
  if start =? position then ret 0
  else copy_from parser start.

Definition html_parse_attribute_value (parser : Z) : prog (dom H) Z :=
  skip_while parser isspace ;;
  let* done := at_end parser in
  if (done : bool) then ret 0
  else
    let* p := get_parser parser in
    let* quote := char_at (p_input p) (p_position p) in
    if (quote =? 34) || (quote =? 39) then
      advance parser 1 ;;
      let* start := get_position parser in
      skip_while parser (fun c => negb (c =? quote)) ;;
      let* done := at_end parser in
      if (done : bool) then ret 0
      else
        let* value := copy_from parser start in
        advance parser 1 ;;
        ret value
    else
      let* start := get_position parser in
      skip_while parser (fun c => negb (isspace c) && negb (c =? 62) && negb (c =? 47)) ;;
      copy_from parser start.

(** [// Add attribute to token] *)
Definition push_attr (token name value : Z) : prog (dom H) unit :=
  let* t := get_token token in
  let* names := realloc_ptrs (t_attr_names t) (u64 (u64 (t_attr_count t + 1) * 8)) in
  upd_token token (fun t => t_with_attrs names (t_attr_values t) (t_attr_count t) t) ;;
  let* t := get_token token in
  let* values := realloc_ptrs (t_attr_values t) (u64 (u64 (t_attr_count t + 1) * 8)) in
  upd_token token (fun t => t_with_attrs (t_attr_names t) values (t_attr_count t) t) ;;
  put_slot names (t_attr_count t) name ;;
  put_slot values (t_attr_count t) value ;;
  upd_token token (fun t => t_with_attrs (t_attr_names t) (t_attr_values t) (u64 (t_attr_count t + 1)) t).

(** One turn of the loop over the attributes. *)
Definition parse_attribute (parser token : Z) : prog (dom H) (step unit unit) :=
  let* done := at_end parser in
  if (done : bool) then ret (Done tt)
  else
    skip_while parser isspace ;;
    let* done := at_end parser in
    if (done : bool) then ret (Done tt)
    else
      let* p := get_parser parser in
      let* c := char_at (p_input p) (p_position p) in
      if (c =? 62) || (c =? 47) then ret (Done tt)
      else
        let* name_start := get_position parser in
        skip_while parser (fun c => negb (isspace c) && negb (c =? 61) && negb (c =? 62) && negb (c =? 47)) ;;
        let* position := get_position parser in
        if name_start =? position then ret (Done tt)
        else
          let* name := copy_from parser name_start in
          skip_while parser isspace ;;
          let* equals := at_char parser (fun c => c =? 61) in
          let* value := (if (equals : bool) then advance parser 1 ;; html_parse_attribute_value parser
                         else ret 0) in
          push_attr token name value ;;
          ret (Next tt).

Definition html_parse_attributes (parser token : Z) : prog (dom H) unit :=
  loop (fun _ => parse_attribute parser token) tt.

(** [malloc] and [memset] of a token, not checked. *)
Definition new_token (t : html_token) : prog (dom H) Z :=
  let* token := malloc sizeof_html_token in
  init_obj token (Token zero_token) ;;
  upd_token token (fun _ => t) ;;
  ret token.

Definition html_parse_tag (parser : Z) : prog (dom H) Z :=
  let* token := new_token zero_token in
  advance parser 1 ;;
  let* slash := at_char parser (fun c => c =? 47) in
  (if (slash : bool) then
     upd_token token (t_with_type HTML_TOKEN_END_TAG) ;;
     advance parser 1
   else upd_token token (t_with_type HTML_TOKEN_START_TAG)) ;;
  let* tag_name := html_parse_tag_name parser in
  upd_token token (t_with_tag_name tag_name) ;;
  if tag_name =? 0 then
    free token ;;
    ret 0
  else
    html_parse_attributes parser token ;;
    let* slash := at_char parser (fun c => c =? 47) in
    (if (slash : bool) then
       upd_token token (t_with_self_closing true) ;;
       advance parser 1
     else ret tt) ;;
    let* close := at_char parser (fun c => c =? 62) in
    if (close : bool) then
      advance parser 1 ;;
      ret token
    else
      let* t := get_token token in
      free (t_tag_name t) ;;
      free_attrs (t_attr_names t) (t_attr_values t) (t_attr_count t) ;;
      free token ;;
      ret 0.

Definition html_parse_text (parser : Z) : prog (dom H) Z :=
  let* start := get_position parser in
  skip_while parser (fun c => negb (c =? 60)) ;;
  let* position := get_position parser in
  if start =? position then ret 0
  else
    let* text := copy_from parser start in
    new_token (t_with_data text (t_with_type HTML_TOKEN_TEXT zero_token)).

(** The input goes on with the end of a comment. *)
Definition at_comment_end (p : html_parser) : prog (dom H) bool :=
  let* c0 := char_at (p_input p) (p_position p) in
  if c0 =? 45 then
    let* c1 := char_at (p_input p) (u64 (p_position p + 1)) in
    if c1 =? 45 then
      let* c2 := char_at (p_input p) (u64 (p_position p + 2)) in ret (c2 =? 62)
    else ret false
  else ret false.

Definition find_comment_end (parser : Z) : prog (dom H) unit :=
  loop (fun _ =>
    let* p := get_parser parser in
    if p_position p <? u64 (p_length p - 2) then
      let* found := at_comment_end p in
      if (found : bool) then ret (Done tt)
      else advance parser 1 ;; ret (Next tt)
    else ret (Done tt)) tt.

Definition html_parse_comment (parser : Z) : prog (dom H) Z :=
  advance parser 4 ;;
  let* start := get_position parser in
  find_comment_end parser ;;
  let* p := get_parser parser in
  if u64 (p_length p - 2) <=? p_position p then ret 0
  else
    let* comment := copy_from parser start in
    let* token := new_token (t_with_data comment (t_with_type HTML_TOKEN_COMMENT zero_token)) in
    advance parser 3 ;;
    ret token.

(** [strncasecmp(input + position, "<!DOCTYPE", 9) == 0] *)
Definition at_doctype (p : html_parser) : prog (dom H) bool :=
  let* t := get_str (p_input p) in
  ret (strncasecmp (drop (Z.to_nat (p_position p)) t) (chars "<!DOCTYPE") 9 =? 0).

(** [position + 3 < length] and the input goes on with the three characters. *)
Definition at_comment (p : html_parser) : prog (dom H) bool :=
  if u64 (p_position p + 3) <? p_length p then
    let* c1 := char_at (p_input p) (u64 (p_position p + 1)) in
    if c1 =? 33 then
      let* c2 := char_at (p_input p) (u64 (p_position p + 2)) in
      if c2 =? 45 then
        let* c3 := char_at (p_input p) (u64 (p_position p + 3)) in ret (c3 =? 45)
      else ret false
    else ret false
  else ret false.

Definition html_parser_next_token (parser : Z) : prog (dom H) Z :=
  if parser =? 0 then ret 0
  else
    let* done := at_end parser in
    if (done : bool) then ret 0
    else
      skip_while parser isspace ;;
      let* done := at_end parser in
      if (done : bool) then ret 0
      else
        let* p := get_parser parser in
        let* c := char_at (p_input p) (p_position p) in
        if c =? 60 then
          let* comment := at_comment p in
          if (comment : bool) then html_parse_comment parser
          else
            let* doctype := (if u64 (p_position p + 8) <? p_length p then at_doctype p else ret false) in
            if (doctype : bool) then
              skip_while parser (fun c => negb (c =? 62)) ;;
              let* done := at_end parser in
              (if negb (done : bool) then advance parser 1 else ret tt) ;;
              new_token (t_with_type HTML_TOKEN_DOCTYPE zero_token)
            else html_parse_tag parser
        else html_parse_text parser.

(** ** Names *)

Definition void_elements : list text :=
  map (fun s => chars s)
    ["area"; "base"; "br"; "col"; "embed"; "hr"; "img"; "input"; "keygen"; "link";
     "meta"; "param"; "source"; "track"; "wbr"]%string.

Definition same_name (a b : text) : bool := strcasecmp a b =? 0.

Definition html_is_void_element (tag_name : cstring) : prog (dom H) bool :=
  if is_null tag_name then ret false
  else
    let* t := get_str tag_name in
    ret (existsb (same_name t) void_elements).

Definition html_normalize_tag_name (tag_name : cstring) : prog (dom H) Z :=
  if is_null tag_name then ret 0
  else
    let* t := get_str tag_name in
    let* normalized := malloc (u64 (Z.of_nat (length t) + 1)) in
    init_obj normalized (Str (map (fun b => u8 (tolower (s8 b))) t)) ;;
    ret normalized.

(** ** Building the tree *)

(** [strtok(.., " ")] on the text it works on: the token, and what it keeps. *)
Definition strtok_space (s : option text) : option text * option text :=
  match s with
  | None => (None, None)
  | Some l =>
      match next_token [32] l with
      | None => (None, None)
      | Some (_, tok, rest) => (Some tok, rest)
      end
  end.

(** The loop over the words of a class attribute. *)
Definition add_classes (element : Z) (class_copy : text) : prog (dom H) unit :=
  let '(token, save) := strtok_space (Some class_copy) in
  loop (fun '(token, save) =>
    match token with
    | Some tok =>
        dom_node_add_class element (Lit tok) ;;
        let '(token, save) := strtok_space save in
        ret (Next (token, save))
    | None => ret (Done tt)
    end) (token, save).

(** A field of the document, seen as an [html_document_t]. *)
Definition upd_html_document (doc : Z) (f : html_document -> html_document) : prog (dom H) unit :=
  let* e := get_ext doc in
  match e with
  | IsHtmlDocument d h => put_ext doc (IsHtmlDocument d (f h))
  | _ => fault
  end.

Definition html_handle_special_start (parser element : Z) (name : text) : prog (dom H) unit :=
  let* p := get_parser parser in
  if same_name name (chars "html") then
    upd_html_document (p_document p) (h_with_html_element element) ;;
    upd_parser parser (p_with_in_body false)
  else if same_name name (chars "head") then
    upd_html_document (p_document p) (h_with_head_element element) ;;
    upd_parser parser (p_with_in_head true)
  else if same_name name (chars "body") then
    upd_html_document (p_document p) (h_with_body_element element) ;;
    upd_parser parser (p_with_in_body true)
  else if same_name name (chars "script") then upd_parser parser (p_with_in_script true)
  else if same_name name (chars "style") then upd_parser parser (p_with_in_style true)
  else ret tt.

(** [// Set attributes] *)
Definition set_attributes (element : Z) (t : html_token) : prog (dom H) unit :=
  loop (fun i =>
    if i <? t_attr_count t then
      let* name := get_slot (t_attr_names t) i in
      let* value := get_slot (t_attr_values t) i in
      dom_node_set_attribute element (Ptr name) (Ptr value) ;;
      ret (Next (u64 (i + 1)))
    else ret (Done tt)) 0.

(** [// Set ID] *)
Definition set_id (element : Z) : prog (dom H) unit :=
  let* id := dom_node_get_attribute element (Lit (chars "id")) in
  if negb (id =? 0) then
    let* copy := strdup (Ptr id) in
    upd_node element (n_with_id copy)
  else ret tt.

(** [// Set class] *)
Definition set_class (element : Z) : prog (dom H) unit :=
  let* class_attr := dom_node_get_attribute element (Lit (chars "class")) in
  if negb (class_attr =? 0) then
    let* class_copy := strdup (Ptr class_attr) in
    let* text := get_str (Ptr class_copy) in
    add_classes element text ;;
    free class_copy
  else ret tt.

Definition html_handle_start_tag (parser token : Z) : prog (dom H) unit :=
  let* t := get_token token in
  let* element := dom_element_create (Ptr (t_tag_name t)) in
  if element =? 0 then ret tt
  else
    set_attributes element t ;;
    set_id element ;;
    set_class element ;;
    let* p := get_parser parser in
    dom_node_append_child (p_current_node p) element ;;
    let* name := get_str (Ptr (t_tag_name t)) in
    html_handle_special_start parser element name ;;
    let* void := (if t_self_closing t then ret true else html_is_void_element (Ptr (t_tag_name t))) in
    if (void : bool) then ret tt
    else upd_parser parser (p_with_current_node element).

(** [// Find matching start tag] *)
Definition close_element (parser tag_name : Z) : prog (dom H) unit :=
  let* p := get_parser parser in
  loop (fun current =>
    if negb (current =? 0) && negb (current =? p_document p) then
      let* element := dom_node_is_element current in
      let* c := get_node current in
      let* found := (if (element : bool) then
        let* a := get_str (Ptr (n_tag_name c)) in
        let* b := get_str (Ptr tag_name) in
        ret (same_name a b)
      else ret false) in
      if (found : bool) then
        (if negb (n_parent c =? 0) then upd_parser parser (p_with_current_node (n_parent c)) else ret tt) ;;
        ret (Done tt)
      else ret (Next (n_parent c))
    else ret (Done tt)) (p_current_node p).

(** [// Handle special elements] *)
Definition html_handle_special_end (parser : Z) (name : text) : prog (dom H) unit :=
  if same_name name (chars "head") then upd_parser parser (p_with_in_head false)
  else if same_name name (chars "body") then upd_parser parser (p_with_in_body false)
  else if same_name name (chars "script") then upd_parser parser (p_with_in_script false)
  else if same_name name (chars "style") then upd_parser parser (p_with_in_style false)
  else ret tt.

Definition html_handle_end_tag (parser token : Z) : prog (dom H) unit :=
  let* t := get_token token in
  close_element parser (t_tag_name t) ;;
  let* name := get_str (Ptr (t_tag_name t)) in
  html_handle_special_end parser name.

Definition html_handle_text (parser token : Z) : prog (dom H) unit :=
  let* t := get_token token in
  let* empty := (if t_data t =? 0 then ret true
                 else let* d := get_str (Ptr (t_data t)) in ret (bool_decide (d = []))) in
  if (empty : bool) then ret tt
  else
    let* text := dom_text_create (Ptr (t_data t)) in
    if text =? 0 then ret tt
    else
      let* p := get_parser parser in
      dom_node_append_child (p_current_node p) text.

(** [// Clean up token] *)
Definition free_token (token : Z) : prog (dom H) unit :=
  let* t := get_token token in
  free (t_tag_name t) ;;
  free (t_data t) ;;
  free_attrs (t_attr_names t) (t_attr_values t) (t_attr_count t) ;;
  free token.

Definition html_build_dom_tree (parser : Z) : prog (dom H) Z :=
  let* doc := html_document_create (Lit (chars "about:blank")) in
  if doc =? 0 then ret 0
  else
    upd_parser parser (p_with_document doc doc) ;;
    loop (fun _ =>
      let* token := html_parser_next_token parser in
      if negb (token =? 0) then
        let* t := get_token token in
        match t_type t with
        | HTML_TOKEN_START_TAG => html_handle_start_tag parser token
        | HTML_TOKEN_END_TAG => html_handle_end_tag parser token
        | HTML_TOKEN_TEXT => html_handle_text parser token
        | _ => ret tt
        end ;;
        free_token token ;;
        ret (Next tt)
      else ret (Done tt)) tt ;;
    ret doc.

Definition html_parser_parse (parser : Z) (html : cstring) : prog (dom H) Z :=
  if (parser =? 0) || is_null html then ret 0
  else
    let* t := get_str html in
    upd_parser parser (p_with_input html (Z.of_nat (length t)) 0 1 1) ;;
    upd_parser parser (p_with_in_head false) ;;
    upd_parser parser (p_with_in_body false) ;;
    upd_parser parser (p_with_in_script false) ;;
    upd_parser parser (p_with_in_style false) ;;
    upd_parser parser (p_with_has_errors false) ;;
    html_build_dom_tree parser.

Definition html_parser_has_errors (parser : Z) : prog (dom H) bool :=
  let* p := get_parser parser in ret (p_has_errors p).

Definition html_parser_get_error_message (parser : Z) : prog (dom H) text :=
  let* p := get_parser parser in ret (p_error_message p).
End Html.
