(* ===== verification/HtmlSpec.v ===== *)
(** * What the HTML parser computes, on texts and trees

    [scan] is the tokenizer on the text that is left: a token and the rest.
    [tree_of] is the tree builder on a stack of open elements.  [HtmlProofs]
    shows that the programs of [Html] do the same in memory; here is what the
    functions themselves satisfy: every token takes input, and a tree that is
    written out as HTML is read back. *)

From S2P Require Import Prelude CMem CStr Ctype DomObj Scan Dom DomSpec Html.

(** ** Tokens *)

Abbreviation attr := (text * option text)%type.

Record tok : Type := Tok {
  k_type : html_token_type; k_name : option text; k_self : bool;
  k_attrs : list attr; k_data : option text;
}.

Definition is_quote (c : Z) : bool := (c =? 34) || (c =? 39).
Definition unquoted (c : Z) : bool := negb (isspace c) && negb (c =? 62) && negb (c =? 47).
Definition in_attr_name (c : Z) : bool :=
  negb (isspace c) && negb (c =? 61) && negb (c =? 62) && negb (c =? 47).

(** The value after an equals sign. *)
Definition scan_value (l : text) : option text * text :=
  let l := dropw isspace l in
  match l with
  | [] => (None, [])
  | q :: r =>
      if is_quote (s8 q) then
        let P := fun c => negb (c =? s8 q) in
        match dropw P r with
        | [] => (None, [])
        | _ :: r' => (Some (takew P r), r')
        end
      else (Some (takew unquoted l), dropw unquoted l)
  end.

(** One attribute, when one begins after the white space. *)
Definition scan_attr (l : text) : option (attr * text) :=
  let l := dropw isspace l in
  match takew in_attr_name l with
  | [] => None
  | name =>
      let l := dropw isspace (dropw in_attr_name l) in
      if starts 61 l then let '(v, r) := scan_value (drop 1 l) in Some (name, v, r)
      else Some (name, None, l)
  end.

(** Attributes until none begins; each takes a character at least, so the
    length of the text is enough fuel. *)
Fixpoint scan_attrs (fuel : nat) (l : text) : list attr * text :=
  match fuel with
  | O => ([], l)
  | S fuel =>
      match scan_attr l with
      | Some (a, r) => let '(l', r') := scan_attrs fuel r in (a :: l', r')
      | None => ([], dropw isspace l)
      end
  end.

(** A tag, behind its "less than" sign. *)
Definition scan_tag (l : text) : option (tok * text) :=
  let '(ty, l) := if starts 47 l then (HTML_TOKEN_END_TAG, drop 1 l) else (HTML_TOKEN_START_TAG, l) in
  match takew is_name_char l with
  | [] => None
  | name =>
      let l := dropw is_name_char l in
      let '(attrs, l) := scan_attrs (S (length l)) l in
      let '(self, l) := if starts 47 l then (true, drop 1 l) else (false, l) in
      if starts 62 l then Some (Tok ty (Some name) self attrs None, drop 1 l) else None
  end.

(** A comment, behind its opening. *)
Fixpoint scan_comment (l : text) : option (text * text) :=
  match l with
  | [] => None
  | b :: r =>
      if is_char 45 b && starts 45 r && starts 62 (drop 1 r) then Some ([], drop 2 r)
      else
        match scan_comment r with
        | Some (c, r') => Some (b :: c, r')
        | None => None
        end
  end.

Section Spec.
Context {H : Type} `{!HtmlLib H}.

Definition is_comment (r : text) : bool := starts 33 r && starts 45 (drop 1 r) && starts 45 (drop 2 r).
Definition is_doctype (l : text) : bool :=
  (8 <? Z.of_nat (length l)) && (strncasecmp l (chars "<!DOCTYPE") 9 =? 0).

(** The next token and the rest of the text. *)
Definition scan (l : text) : option (tok * text) :=
  let l := dropw isspace l in
  match l with
  | [] => None
  | b :: r =>
      if is_char 60 b then
        if is_comment r then
          match scan_comment (drop 3 r) with
          | Some (c, r') => Some (Tok HTML_TOKEN_COMMENT None false [] (Some c), r')
          | None => None
          end
        else if is_doctype l then
          Some (Tok HTML_TOKEN_DOCTYPE None false [] None, drop 1 (dropw (fun c => negb (c =? 62)) l))
        else scan_tag r
      else
        let P := fun c => negb (c =? 60) in
        Some (Tok HTML_TOKEN_TEXT None false [] (Some (takew P l)), dropw P l)
  end.

(** ** Trees *)

Inductive tree : Type :=
  | Elem (tag : text) (attrs : list attr) (kids : list tree)
  | Txt (data : text).

(** An open element: its name, its attributes and the children so far. *)
Definition frame : Type := text * list attr * list tree.

(** The open elements, the innermost first, and the children of the document. *)
Definition stack : Type := list frame * list tree.

Definition top_kids (z : stack) : list tree :=
  match z with
  | ([], root) => root
  | ((_, kids) :: _, _) => kids
  end.

Definition add_tree (t : tree) (z : stack) : stack :=
  match z with
  | ([], root) => ([], root ++ [t])
  | ((tag, attrs, kids) :: fs, root) => ((tag, attrs, kids ++ [t]) :: fs, root)
  end.

(** The innermost element ends. *)
Definition pop (z : stack) : stack :=
  match z with
  | ([], root) => ([], root)
  | ((tag, attrs, kids) :: fs, root) => add_tree (Elem tag attrs kids) (fs, root)
  end.

Fixpoint pops (n : nat) (z : stack) : stack :=
  match n with
  | O => z
  | S n => pops n (pop z)
  end.

(** The attributes of an element: a later one of the same name replaces the
    value of the first. *)
Definition element_attrs (l : list attr) : list attr :=
  foldl (fun acc a => set_attr a.1 a.2 acc) [] l.

(** The words of a class attribute: what [strtok] cuts at the spaces. *)
Fixpoint words (fuel : nat) (l : text) : list text :=
  match fuel with
  | O => []
  | S fuel =>
      match next_token [32] l with
      | None => []
      | Some (_, w, None) => [w]
      | Some (_, w, Some l) => w :: words fuel l
      end
  end.

Definition add_words (ws cs : list text) : list text := foldl (fun acc w => add_class w acc) cs ws.
Definition element_classes (attrs : list attr) : list text :=
  match get_attr (chars "class") attrs with
  | Some v => add_words (words (S (length v)) v) []
  | None => []
  end.
Definition element_id (attrs : list attr) : option text := get_attr (chars "id") attrs.

Definition is_void (name : text) : bool := existsb (same_name name) void_elements.

(** The innermost open element with this name. *)
Definition find_open (name : text) (fs : list frame) : option nat :=
  fst <$> list_find (fun f : frame => same_name f.1.1 name = true) fs.

(** What a token does to the open elements. *)
Definition handle (t : tok) (z : stack) : stack :=
  match k_type t, k_name t, k_data t with
  | HTML_TOKEN_START_TAG, Some name, _ =>
      let attrs := element_attrs (k_attrs t) in
      if k_self t || is_void name then add_tree (Elem name attrs []) z
      else ((name, attrs, []) :: z.1, z.2)
  | HTML_TOKEN_END_TAG, Some name, _ =>
      match find_open name z.1 with
      | Some i => pops (S i) z
      | None => z
      end
  | HTML_TOKEN_TEXT, _, Some d => if decide (d = []) then z else add_tree (Txt d) z
  | _, _, _ => z
  end.

(** All tokens, until there is none. *)
Fixpoint tree_of (fuel : nat) (l : text) (z : stack) : stack :=
  match fuel with
  | O => z
  | S fuel =>
      match scan l with
      | Some (t, r) => tree_of fuel r (handle t z)
      | None => z
      end
  end.

Definition close_all (z : stack) : list tree := (pops (length z.1) z).2.

(** The children of the document that the text makes. *)
Definition html_tree (l : text) : list tree := close_all (tree_of (S (length l)) l ([], [])).
End Spec.

(** ** Induction on trees *)

Section TreeInd.
Variable P : tree -> Prop.
Hypothesis P_elem : forall tag attrs kids, Forall P kids -> P (Elem tag attrs kids).
Hypothesis P_txt : forall d, P (Txt d).

Fixpoint tree_nested_ind (t : tree) : P t :=
  match t with
  | Elem tag attrs kids =>
      P_elem tag attrs kids
        ((fix go (ts : list tree) : Forall P ts :=
            match ts with
            | [] => Forall_nil_2 P
            | t :: ts => Forall_cons_2 P t ts (tree_nested_ind t) (go ts)
            end) kids)
  | Txt d => P_txt d
  end.
End TreeInd.

(** ** Every token takes input *)

Lemma scan_value_length l v r : scan_value l = (v, r) -> (length r <= length l)%nat.
Proof.
  unfold scan_value. pose proof (dropw_length isspace l) as Hd.
  destruct (dropw isspace l) as [|q r1] eqn:E; [intros [= <- <-]; cbn; lia|].
  destruct (is_quote (s8 q)).
  - cbv zeta. pose proof (dropw_length (fun c => negb (c =? s8 q)) r1) as Hd1. cbn in Hd.
    destruct (dropw (fun c => negb (c =? s8 q)) r1); intros [= _ <-]; cbn in *; lia.
  - intros [= <- <-]. pose proof (dropw_length unquoted (q :: r1)). lia.
Qed.

Lemma scan_attr_length l a r : scan_attr l = Some (a, r) -> (length r < length l)%nat.
Proof.
  unfold scan_attr. pose proof (dropw_length isspace l) as Hd.
  pose proof (dropw_lt in_attr_name (dropw isspace l)) as Hn.
  pose proof (dropw_length isspace (dropw in_attr_name (dropw isspace l))) as Hd2.
  destruct (takew in_attr_name _) as [|b name]; [done|]. specialize (Hn ltac:(done)).
  destruct (starts 61 _) eqn:E.
  - destruct (scan_value _) as [v r1] eqn:Ev. apply scan_value_length in Ev. apply starts_length in E.
    intros [= _ <-]. lia.
  - intros [= _ <-]. lia.
Qed.

Lemma scan_attrs_length fuel l attrs r : scan_attrs fuel l = (attrs, r) -> (length r <= length l)%nat.
Proof.
  revert l attrs. induction fuel as [|fuel IH]; intros l attrs; cbn; [by intros [= _ <-]|].
  destruct (scan_attr l) as [[a r1]|] eqn:E.
  - destruct (scan_attrs fuel r1) as [l' r'] eqn:E2. intros [= _ <-].
    apply IH in E2. apply scan_attr_length in E. lia.
  - intros [= _ <-]. apply dropw_length.
Qed.

(** The number of attributes is bounded by the text they take. *)
Lemma scan_attrs_count fuel l attrs r : scan_attrs fuel l = (attrs, r) ->
  (length attrs + length r <= length l)%nat.
Proof.
  revert l attrs. induction fuel as [|fuel IH]; intros l attrs; cbn; [by intros [= <- <-]|].
  destruct (scan_attr l) as [[a r1]|] eqn:E.
  - destruct (scan_attrs fuel r1) as [l' r'] eqn:E2. intros [= <- <-].
    apply IH in E2. apply scan_attr_length in E. cbn. lia.
  - intros [= <- <-]. cbn. apply dropw_length.
Qed.

(** More fuel than characters makes no difference. *)
Lemma scan_attrs_fuel f g l : (length l < f)%nat -> (length l < g)%nat -> scan_attrs f l = scan_attrs g l.
Proof.
  revert g l. induction f as [|f IH]; intros g l Hf Hg; [lia|]. destruct g as [|g]; [lia|]. cbn.
  destruct (scan_attr l) as [[a r]|] eqn:E; [|done]. apply scan_attr_length in E.
  by rewrite (IH g) by lia.
Qed.

Lemma scan_comment_length l c r : scan_comment l = Some (c, r) -> (length r < length l)%nat.
Proof.
  revert c. induction l as [|b l IH]; intros c; [done|]. cbn [scan_comment].
  destruct (is_char 45 b && starts 45 l && starts 62 (drop 1 l)).
  - intros [= _ <-]. rewrite length_drop. cbn. lia.
  - destruct (scan_comment l) as [[c' r']|]; [|done]. intros [= _ <-]. specialize (IH _ eq_refl). cbn. lia.
Qed.

Lemma scan_tag_length l t r : scan_tag l = Some (t, r) -> (length r < length l)%nat.
Proof.
  unfold scan_tag.
  set (p := if starts 47 l then _ else _). assert (length p.2 <= length l)%nat as Hp
    by (subst p; destruct (starts 47 l); cbn; rewrite ?length_drop; lia).
  destruct p as [ty l1]. cbn in Hp. pose proof (dropw_lt is_name_char l1) as Hn.
  destruct (takew is_name_char l1) as [|b name]; [done|]. specialize (Hn ltac:(done)).
  destruct (scan_attrs _ _) as [attrs l2] eqn:E. apply scan_attrs_length in E.
  set (p := if starts 47 l2 then _ else _). assert (length p.2 <= length l2)%nat as Hp2
    by (subst p; destruct (starts 47 l2); cbn; rewrite ?length_drop; lia).
  destruct p as [self l3]. cbn in Hp2. destruct (starts 62 l3); [|done].
  intros [= _ <-]. rewrite length_drop. lia.
Qed.

(** ** Words and attributes *)

Lemma next_token_length l k w rest : next_token [32] l = Some (k, w, rest) ->
  (length w <= length l)%nat /\ (1 <= length l)%nat /\
  match rest with Some l' => (length l' < length l)%nat | None => True end.
Proof.
  unfold next_token. set (l1 := drop _ l). assert (length l1 <= length l)%nat as Hl1
    by (subst l1; rewrite length_drop; lia).
  generalize (span_len (fun b => negb (mem_char [32] b)) l1). intros n.
  destruct l1 as [|b l1]; [done|]. intros [= <- <- <-].
  rewrite length_take. destruct (drop n (b :: l1)) as [|c r] eqn:E; cbn [length] in *.
  - split; [lia|]. split; [lia|done].
  - apply (f_equal length) in E. rewrite length_drop in E. cbn [length] in E. split; [lia|]. split; [lia|]. lia.
Qed.

Lemma words_fuel f g l : (length l < f)%nat -> (length l < g)%nat -> words f l = words g l.
Proof.
  revert g l. induction f as [|f IH]; intros g l Hf Hg; [lia|]. destruct g as [|g]; [lia|]. cbn [words].
  destruct (next_token [32] l) as [[[k w] [r|]]|] eqn:E; [|done..].
  apply next_token_length in E as (_ & _ & E). by rewrite (IH g) by lia.
Qed.

Lemma words_length f l : (length (words f l) <= length l)%nat.
Proof.
  revert l. induction f as [|f IH]; intros l; cbn [words length]; [lia|].
  destruct (next_token [32] l) as [[[k w] [r|]]|] eqn:E; [| |cbn; lia]; apply next_token_length in E as (_ & Hl & E).
  - specialize (IH r). cbn [length]. lia.
  - cbn [length]. lia.
Qed.

(** What the calls of [strtok] still give. *)
Definition words_of (s : option text) : list text :=
  match s with Some l => words (S (length l)) l | None => [] end.

Lemma strtok_words s :
  match strtok_space s with
  | (Some w, s') => words_of s = w :: words_of s' /\
      forall l, s = Some l -> (length w <= length l)%nat /\ forall l', s' = Some l' -> (length l' <= length l)%nat
  | (None, _) => words_of s = []
  end.
Proof.
  destruct s as [l|]; [|done]. unfold strtok_space, words_of. cbn [words].
  destruct (next_token [32] l) as [[[k w] rest]|] eqn:E; [|done].
  apply next_token_length in E as (Hw & _ & Hr). split.
  - destruct rest as [r|]; [|done]. f_equal. apply (words_fuel _ (S (length r))); lia.
  - intros ? [= <-]. split; [done|]. intros l' ->. lia.
Qed.

Lemma set_attr_length k v l : (length (set_attr k v l) <= S (length l))%nat.
Proof.
  unfold set_attr. destruct (find_text k l.*1); [rewrite length_insert; lia|]. rewrite length_app. cbn [length]. lia.
Qed.

Lemma element_attrs_snoc l a : element_attrs (l ++ [a]) = set_attr a.1 a.2 (element_attrs l).
Proof. unfold element_attrs. by rewrite foldl_app. Qed.

Lemma element_attrs_length l : (length (element_attrs l) <= length l)%nat.
Proof.
  induction l as [|a l IH] using rev_ind; [done|]. rewrite element_attrs_snoc, length_app. cbn [length].
  pose proof (set_attr_length a.1 a.2 (element_attrs l)). lia.
Qed.

Lemma add_class_length c cs : (length (add_class c cs) <= S (length cs))%nat.
Proof. unfold add_class. destruct (find_text c cs); [lia|]. rewrite length_app. cbn [length]. lia. Qed.

Lemma add_words_length ws cs : (length (add_words ws cs) <= length ws + length cs)%nat.
Proof.
  induction ws as [|w ws IH] using rev_ind; [done|]. unfold add_words in *. rewrite foldl_app, length_app. cbn.
  etrans; [apply add_class_length|]. cbn in *. lia.
Qed.

Section SpecProofs.
Context {H : Type} `{!HtmlLib H}.

Lemma scan_length l t r : scan l = Some (t, r) -> (length r < length l)%nat.
Proof using Type.
  unfold scan. pose proof (dropw_length isspace l) as Hd.
  destruct (dropw isspace l) as [|b l1] eqn:E; [done|]. cbn in Hd.
  destruct (is_char 60 b) eqn:Eb.
  - destruct (is_comment l1).
    + destruct (scan_comment (drop 3 l1)) as [[c r']|] eqn:Ec; [|done]. apply scan_comment_length in Ec.
      rewrite length_drop in Ec. intros [= _ <-]. lia.
    + destruct (is_doctype (b :: l1)).
      * intros [= _ <-]. assert (takew (fun c => negb (c =? 62)) (b :: l1) <> []) as Ht.
        { unfold takew, spanned, is_char in *. cbn [span_len]. apply Z.eqb_eq in Eb. by rewrite Eb. }
        pose proof (dropw_lt _ _ Ht) as Hlt. rewrite length_drop. cbn [length] in Hlt. lia.
      * intros Et. apply scan_tag_length in Et. lia.
  - intros [= _ <-]. assert (takew (fun c => negb (c =? 60)) (b :: l1) <> []) as Ht.
    { unfold takew, spanned. cbn [span_len]. unfold is_char in Eb. by rewrite Eb. }
    pose proof (dropw_lt _ _ Ht) as Hlt. cbn [length] in Hlt. lia.
Qed.

Lemma find_open_cons name (f : frame) fs :
  find_open name (f :: fs) = if same_name f.1.1 name then Some 0%nat else S <$> find_open name fs.
Proof using Type.
  unfold find_open. cbn [list_find]. destruct (same_name f.1.1 name); [by rewrite decide_True|].
  rewrite decide_False by done. by destruct (list_find _ fs) as [[i g]|].
Qed.

Lemma find_open_lookup name fs i : find_open name fs = Some i -> (i < length fs)%nat.
Proof using Type.
  unfold find_open. destruct (list_find _ fs) as [[j g]|] eqn:E; [|done]. intros [= <-].
  apply list_find_Some in E as (E & _). by apply lookup_lt_Some in E.
Qed.

(** A token opens one element at most. *)
Lemma add_tree_length t (z : stack) : length (add_tree t z).1 = length z.1.
Proof using Type. by destruct z as [[|[[tag attrs] kids] fs] root]. Qed.

Lemma pops_length n (z : stack) : (length (pops n z).1 <= length z.1)%nat.
Proof using Type.
  revert z. induction n as [|n IH]; intros z; [done|]. cbn [pops]. etrans; [apply IH|].
  destruct z as [[|[[tag attrs] kids] fs] root]; [done|]. unfold pop. rewrite add_tree_length. cbn. lia.
Qed.

Lemma handle_length t (z : stack) : (length (handle t z).1 <= S (length z.1))%nat.
Proof using Type.
  assert (forall n, length (pops n z).1 <= S (length z.1))%nat as Hpops by (intros n; pose proof (pops_length n z); lia).
  unfold handle. destruct (k_type t), (k_name t) as [name|], (k_data t) as [d|]; try lia;
    try (destruct (find_open name z.1); [apply Hpops|lia]);
    try (destruct (k_self t || is_void name); [rewrite add_tree_length|cbn]; lia);
    destruct (decide (d = [])); rewrite ?add_tree_length; lia.
Qed.

(** Tags have a name, and text tokens a text. *)
Lemma scan_tag_name l t r : scan_tag l = Some (t, r) -> is_Some (k_name t) /\ k_type t <> HTML_TOKEN_TEXT.
Proof using Type.
  unfold scan_tag. destruct (starts 47 l); destruct (takew is_name_char _) as [|b w]; try done;
    destruct (scan_attrs _ _) as [attrs l2]; destruct (starts 47 l2);
    match goal with |- context [starts 62 ?x] => destruct (starts 62 x); [|done] end; intros [= <- <-]; cbn; split; by eauto.
Qed.

Lemma scan_shape l t r : scan l = Some (t, r) ->
  match k_type t with
  | HTML_TOKEN_START_TAG | HTML_TOKEN_END_TAG => is_Some (k_name t)
  | HTML_TOKEN_TEXT => is_Some (k_data t)
  | _ => True
  end.
Proof using Type.
  unfold scan. destruct (dropw isspace l) as [|b l1]; [done|]. destruct (is_char 60 b); [|intros [= <- <-]; cbn; eauto].
  destruct (is_comment l1); [destruct (scan_comment _) as [[c r']|]; [|done]; by intros [= <- <-]|].
  destruct (is_doctype _); [by intros [= <- <-]|]. intros Ht. apply scan_tag_name in Ht as [Hn Ht]. by destruct (k_type t).
Qed.

Lemma tree_of_fuel f g l z : (length l < f)%nat -> (length l < g)%nat -> tree_of f l z = tree_of g l z.
Proof using Type.
  revert g l z. induction f as [|f IH]; intros g l z Hf Hg; [lia|]. destruct g as [|g]; [lia|]. cbn.
  destruct (scan l) as [[t r]|] eqn:E; [|done]. apply scan_length in E. apply IH; lia.
Qed.
End SpecProofs.
