(* ===== verification/HtmlScan.v ===== *)
(** * The tokenizer refines [HtmlSpec.scan]

    [reader P p t k] is a parser at [P] that reads the text [t] and stands at
    the position [k].  Each function of the tokenizer moves the position as
    its specification on the rest of the text says, and returns a token object
    that owns the strings of the specified token; nothing else is left. *)

From S2P Require Import Sep Prelude CMem CStr Ctype Alloc DomObj Scan Dom DomSpec DomSep DomProofs Html HtmlSpec.

Section HtmlScan.
Context {H : Type} `{LibcHeapLaws H} `{!Handlers H} `{!HtmlLib H}.
Abbreviation assn := (sprop obj).
Implicit Types (P : Z) (p : html_parser) (t : text) (k : nat).

Definition reader P p t k : assn :=
  (⌈p_length p = Z.of_nat (length t) /\ (k <= length t)%nat /\ short t⌉ ∗
   P ↦ Parser (p_with_position (Z.of_nat k) p) ∗ cstr (p_input p) t)%I.

Lemma reader_pure P p t k : reader P p t k ⊢
  ⌈p_length p = Z.of_nat (length t) /\ (k <= length t)%nat /\ Z.of_nat (length t) < 2 ^ 60⌉ ∗ reader P p t k.
Proof using Type. iIntros "[%Hr [HP Hi]]". iFrame. iSplit; by iPureIntro. Qed.

(** ** Looking at the input *)

Lemma swp_char_at c t k b (Q : Z -> assn) : (t ++ [0]) !! k = Some b ->
  cstr c t -∗ (cstr c t -∗ Q (s8 b)) -∗ swp (char_at c (Z.of_nat k)) Q.
Proof using Type.
  intros Hb. iIntros "Hc HQ". iApply swp_bind. iApply (swp_get_str with "Hc"). iIntros "Hc".
  rewrite (proj2 (Z.ltb_ge (Z.of_nat k) 0)); [|lia]. rewrite Nat2Z.id Hb. iApply swp_ret. by iApply "HQ".
Qed.

Lemma swp_reader_get P p t k (Q : html_parser -> assn) :
  reader P p t k -∗ (reader P p t k -∗ Q (p_with_position (Z.of_nat k) p)) -∗ swp (get_parser P) Q.
Proof using Type.
  iIntros "[%Hr [HP Hi]] HQ". iApply (swp_get_parser with "HP"). iIntros "HP". iApply "HQ".
  iFrame. by iPureIntro.
Qed.

Lemma swp_reader_char P p t k b (Q : Z -> assn) : t !! k = Some b ->
  reader P p t k -∗ (reader P p t k -∗ Q (s8 b)) -∗
  swp (char_at (p_input p) (Z.of_nat k)) Q.
Proof using Type.
  intros Hb. iIntros "[%Hr [HP Hi]] HQ". iApply (swp_char_at with "Hi").
  { apply lookup_app_l_Some. exact Hb. }
  iIntros "Hi". iApply "HQ". iFrame. by iPureIntro.
Qed.

Lemma swp_get_position P p t k (Q : Z -> assn) :
  reader P p t k -∗ (reader P p t k -∗ Q (Z.of_nat k)) -∗ swp (get_position P) Q.
Proof using Type.
  iIntros "Hr HQ". iApply swp_bind. iApply (swp_reader_get with "Hr"). iIntros "Hr".
  iApply swp_ret. by iApply "HQ".
Qed.

Lemma swp_at_end P p t k (Q : bool -> assn) :
  reader P p t k -∗ (reader P p t k -∗ Q (is_nil (drop k t))) -∗ swp (at_end P) Q.
Proof using Type.
  iIntros "Hr HQ". iDestruct (reader_pure with "Hr") as "[%Hk Hr]". destruct Hk as (Hl & Hk & Ht).
  iApply swp_bind. iApply (swp_reader_get with "Hr"). iIntros "Hr". iApply swp_ret. cbn [p_length p_with_position p_position].
  assert ((p_length p <=? Z.of_nat k) = is_nil (drop k t)) as ->; [|by iApply "HQ"].
  rewrite Hl. destruct (drop_cases t k Hk) as [[-> ->]|(b & Hb & ->)]; cbn [is_nil].
  - apply Z.leb_le. lia.
  - apply Z.leb_gt. apply lookup_lt_Some in Hb. lia.
Qed.

Lemma swp_at_char P p t k C (Q : bool -> assn) :
  reader P p t k -∗ (reader P p t k -∗ Q (head_is C (drop k t))) -∗ swp (at_char P C) Q.
Proof using Type.
  iIntros "Hr HQ". iDestruct (reader_pure with "Hr") as "[%Hk Hr]". destruct Hk as (Hl & Hk & Ht).
  iApply swp_bind. iApply (swp_reader_get with "Hr"). iIntros "Hr". cbn [p_length p_with_position p_position p_input].
  rewrite Hl. destruct (drop_cases t k Hk) as [[-> ->]|(b & Hb & ->)]; cbn [head_is].
  - rewrite Z.ltb_irrefl. iApply swp_ret. by iApply "HQ".
  - rewrite (proj2 (Z.ltb_lt _ _)); [|apply lookup_lt_Some in Hb; lia].
    iApply swp_bind. iApply (swp_reader_char with "Hr"); [done|]. iIntros "Hr". iApply swp_ret. by iApply "HQ".
Qed.

Lemma swp_advance P p t k n (Q : unit -> assn) : (k + n <= length t)%nat ->
  reader P p t k -∗ (reader P p t (k + n) -∗ Q tt) -∗ swp (advance P (Z.of_nat n)) Q.
Proof using Type.
  intros Hn. iIntros "[%Hr [HP Hi]] HQ". destruct Hr as (Hl & Hk & Ht). unfold short, text_bound in Ht.
  iApply (swp_upd_parser with "HP"). iIntros "HP". iApply "HQ".
  cbn [p_position p_with_position]. rewrite wrap_small; [|lia]. rewrite -Nat2Z.inj_add.
  iFrame "Hi". iSplit; [by iPureIntro|]. iExact "HP".
Qed.

Lemma swp_skip_while P p t k C (Q : unit -> assn) :
  reader P p t k -∗ (reader P p t (k + spanned C (drop k t)) -∗ Q tt) -∗ swp (skip_while P C) Q.
Proof using Type.
  iIntros "Hr HQ". iDestruct (reader_pure with "Hr") as "[%Hk Hr]". destruct Hk as (Hl & Hk & Ht).
  set (e := (k + spanned C (drop k t))%nat).
  iApply (swp_loop _ (fun m _ => ∃ j, ⌈m = Z.of_nat (length t) - Z.of_nat j /\ (j <= length t)%nat /\
    (j + spanned C (drop j t))%nat = e⌉ ∗ reader P p t j ∗ (reader P p t e -∗ Q tt))%I
    _ (Z.of_nat (length t) - Z.of_nat k)); [|lia|iExists k; iFrame; by iPureIntro].
  iIntros (m []) "(%j & %Hj & Hr & HQ)". destruct Hj as (-> & Hj & He).
  iApply swp_bind. iApply (swp_reader_get with "Hr"). iIntros "Hr". cbn [p_length p_with_position p_position p_input].
  rewrite Hl. destruct (drop_cases t j Hj) as [[-> Hd]|(b & Hb & Hd)]; rewrite Hd in He.
  - rewrite Z.ltb_irrefl. iApply swp_ret. cbn [sturn]. cbn in He. rewrite Nat.add_0_r in He. rewrite He. by iApply "HQ".
  - apply lookup_lt_Some in Hb as Hlt. rewrite (proj2 (Z.ltb_lt _ _)); [|lia].
    iApply swp_bind. iApply (swp_reader_char with "Hr"); [done|]. iIntros "Hr".
    rewrite spanned_cons in He. destruct (C (s8 b)).
    + iApply swp_bind. rewrite wrap_small; [|lia].
      iDestruct "Hr" as "[_ [HP Hi]]". iApply (swp_upd_parser with "HP"). iIntros "HP". iApply swp_ret. cbn [sturn].
      iExists (Z.of_nat (length t) - Z.of_nat (S j)). iSplit; [iPureIntro; lia|]. iExists (S j).
      iFrame "HQ Hi". replace (Z.of_nat j + 1) with (Z.of_nat (S j)) by lia. iFrame "HP".
      iPureIntro. split; [|split; [done|split; [lia|done]]]. split; [done|]. split; [lia|]. lia.
    + iApply swp_ret. cbn [sturn]. rewrite Nat.add_0_r in He. rewrite He. by iApply "HQ".
Qed.

(** A new string from the input. *)
Lemma swp_copy_from P p t j k (Q : Z -> assn) : (j <= k)%nat ->
  reader P p t k -∗ (∀ a, reader P p t k -∗ str_at a (take (k - j) (drop j t)) -∗ Q a) -∗
  swp (copy_from P (Z.of_nat j)) Q.
Proof using Type.
  intros Hj. iIntros "[%Hr [HP Hi]] HQ". destruct Hr as (Hl & Hk & Ht). pose proof Ht as Ht'.
  unfold short, text_bound in Ht'.
  iApply swp_bind. iApply (swp_get_parser with "HP"). iIntros "HP". cbn [p_position p_with_position p_input].
  assert (u64 (Z.of_nat k - Z.of_nat j) = Z.of_nat (k - j)) as -> by (rewrite wrap_small; lia).
  assert (u64 (Z.of_nat (k - j) + 1) = Z.of_nat (k - j) + 1) as -> by (rewrite wrap_small; lia).
  iApply swp_bind. iApply swp_malloc; [lia|]. iIntros (a Ha) "Ha".
  iApply swp_bind. iApply (swp_get_str with "Hi"). iIntros "Hi".
  rewrite (proj2 (Z.leb_le _ _)); [|lia]. rewrite !Nat2Z.id.
  iApply swp_bind. iApply (swp_init_obj with "Ha"); [cbn; rewrite length_take; lia|]. iIntros "Ha". iApply swp_ret.
  iApply ("HQ" with "[HP Hi]"); [by iFrame|]. iFrame "Ha". iPureIntro. split; [lia|].
  unfold short, text_bound. rewrite length_take length_drop. lia.
Qed.

(** ** Reading, by the text that is left *)

Definition reading P p t (l : text) : assn := (∃ k, ⌈drop k t = l⌉ ∗ reader P p t k)%I.

Lemma reading_short P p t l : reading P p t l ⊢ ⌈Z.of_nat (length l) < 2 ^ 60⌉ ∗ reading P p t l.
Proof using Type.
  iIntros "(%k & %Hk & Hr)". iDestruct (reader_pure with "Hr") as "[%Hr Hr]".
  iSplit; [iPureIntro|iExists k; by iFrame]. rewrite -Hk length_drop. lia.
Qed.

Lemma r_skip P p t l C (Q : unit -> assn) :
  reading P p t l -∗ (reading P p t (dropw C l) -∗ Q tt) -∗ swp (skip_while P C) Q.
Proof using Type.
  iIntros "(%k & %Hk & Hr) HQ". iApply (swp_skip_while with "Hr"). iIntros "Hr". iApply "HQ".
  iExists _. iFrame "Hr". iPureIntro. by rewrite dropw_drop Hk.
Qed.

Lemma r_end P p t l (Q : bool -> assn) :
  reading P p t l -∗ (reading P p t l -∗ Q (is_nil l)) -∗ swp (at_end P) Q.
Proof using Type.
  iIntros "(%k & %Hk & Hr) HQ". iApply (swp_at_end with "Hr"). iIntros "Hr". rewrite Hk. iApply "HQ".
  iExists k. by iFrame.
Qed.

Lemma r_char P p t l C (Q : bool -> assn) :
  reading P p t l -∗ (reading P p t l -∗ Q (head_is C l)) -∗ swp (at_char P C) Q.
Proof using Type.
  iIntros "(%k & %Hk & Hr) HQ". iApply (swp_at_char with "Hr"). iIntros "Hr". rewrite Hk. iApply "HQ".
  iExists k. by iFrame.
Qed.

Lemma r_advance P p t l n m (Q : unit -> assn) : m = Z.of_nat n -> (n <= length l)%nat ->
  reading P p t l -∗ (reading P p t (drop n l) -∗ Q tt) -∗ swp (advance P m) Q.
Proof using Type.
  intros -> Hn. iIntros "(%k & %Hk & Hr) HQ". iDestruct (reader_pure with "Hr") as "[%Hr Hr]".
  rewrite -Hk length_drop in Hn. iApply (swp_advance with "Hr"); [lia|]. iIntros "Hr". iApply "HQ".
  iExists _. iFrame "Hr". iPureIntro. by rewrite -Hk drop_drop.
Qed.

(** The position as a mark for [copy_from]. *)
Definition mark t (l : text) (j : nat) : Prop := drop j t = l /\ (j <= length t)%nat.

Lemma r_position P p t l (Q : Z -> assn) :
  reading P p t l -∗ (∀ j, ⌈mark t l j⌉ -∗ reading P p t l -∗ Q (Z.of_nat j)) -∗ swp (get_position P) Q.
Proof using Type.
  iIntros "(%k & %Hk & Hr) HQ". iDestruct (reader_pure with "Hr") as "[%Hr Hr]".
  iApply (swp_get_position with "Hr"). iIntros "Hr". iApply "HQ"; [|iExists k; by iFrame].
  iPureIntro. split; [done|lia].
Qed.

Lemma mark_eq t l w l' j k : l = w ++ l' -> mark t l j -> mark t l' k ->
  k = (j + length w)%nat /\ (Z.of_nat j =? Z.of_nat k) = is_nil w.
Proof using Type.
  intros -> [Hj Hjl] [Hk Hkl].
  assert (k = (j + length w)%nat) as ->.
  { apply (f_equal length) in Hj, Hk. rewrite length_app !length_drop in Hj, Hk. lia. }
  split; [done|]. destruct w; cbn [length is_nil].
  - apply Z.eqb_eq. lia.
  - apply Z.eqb_neq. lia.
Qed.

Lemma r_copy P p t l w l' j (Q : Z -> assn) : l = w ++ l' -> mark t l j ->
  reading P p t l' -∗ (∀ a, reading P p t l' -∗ str_at a w -∗ Q a) -∗ swp (copy_from P (Z.of_nat j)) Q.
Proof using Type.
  intros Hl Hj. iIntros "(%k & %Hk & Hr) HQ". iDestruct (reader_pure with "Hr") as "[%Hr Hr]".
  assert (mark t l' k) as Hk' by (split; [done|lia]).
  destruct (mark_eq t l w l' j k Hl Hj Hk') as [-> _].
  iApply (swp_copy_from with "Hr"); [lia|]. iIntros (a) "Hr Ha".
  replace (take (j + length w - j) (drop j t)) with w; [iApply ("HQ" with "[Hr] Ha"); iExists _; by iFrame|].
  destruct Hj as [-> _]. rewrite Hl. replace (j + length w - j)%nat with (length w) by lia. by rewrite take_app_length.
Qed.

(** The next character, when there is one. *)
Lemma r_next P p t b l {A} (k : html_parser -> Z -> prog (dom H) A) (Q : A -> assn) :
  reading P p t (b :: l) -∗
  (∀ p', ⌈p_input p' = p_input p /\ p_length p' = p_length p⌉ -∗ reading P p t (b :: l) -∗ swp (k p' (s8 b)) Q) -∗
  swp (let* p := get_parser P in let* c := char_at (p_input p) (p_position p) in k p c) Q.
Proof using Type.
  iIntros "(%j & %Hj & Hr) HQ". iApply swp_bind. iApply (swp_reader_get with "Hr"). iIntros "Hr".
  assert (t !! j = Some b) as Hb by (rewrite -(Nat.add_0_r j) -lookup_drop Hj; done).
  iApply swp_bind. cbn [p_position p_with_position p_input].
  iApply (swp_reader_char with "Hr"); [done|]. iIntros "Hr". iApply "HQ"; [by iPureIntro|]. iExists j. by iFrame.
Qed.

(** ** Names and values *)

Definition nonempty (w : text) : option text := match w with [] => None | _ => Some w end.

Lemma r_tag_name P p t l (Q : Z -> assn) :
  reading P p t l -∗
  (∀ a, reading P p t (dropw is_name_char l) -∗ ostr a (nonempty (takew is_name_char l)) -∗ Q a) -∗
  swp (html_parse_tag_name P) Q.
Proof using Type.
  iIntros "Hr HQ". unfold html_parse_tag_name.
  iApply swp_bind. iApply (r_position with "Hr"). iIntros (j Hj) "Hr".
  iApply swp_bind. iApply (r_skip with "Hr"). iIntros "Hr".
  iApply swp_bind. iApply (r_position with "Hr"). iIntros (k Hk) "Hr".
  pose proof (eq_sym (takew_dropw is_name_char l)) as Hl.
  destruct (mark_eq _ _ _ _ _ _ Hl Hj Hk) as [_ ->].
  destruct (takew is_name_char l) as [|b w]; cbn [is_nil nonempty].
  - iApply swp_ret. iApply ("HQ" with "Hr"). by iPureIntro.
  - iApply (r_copy with "Hr"); [done|done|]. iIntros (a) "Hr Ha". iApply ("HQ" with "Hr Ha").
Qed.

Lemma r_value P p t l (Q : Z -> assn) :
  reading P p t l -∗
  (∀ a, reading P p t (scan_value l).2 -∗ ostr a (scan_value l).1 -∗ Q a) -∗
  swp (html_parse_attribute_value P) Q.
Proof using Type.
  iIntros "Hr HQ". unfold html_parse_attribute_value, scan_value.
  iApply swp_bind. iApply (r_skip with "Hr"). iIntros "Hr".
  iApply swp_bind. iApply (r_end with "Hr"). iIntros "Hr".
  destruct (dropw isspace l) as [|q r]; cbn [is_nil].
  - iApply swp_ret. iApply ("HQ" with "Hr"). by iPureIntro.
  - iApply (r_next with "Hr"). iIntros (p' Hp') "Hr". fold (is_quote (s8 q)). destruct (is_quote (s8 q)).
    + set (C := fun c => negb (c =? s8 q)).
      iApply swp_bind. iApply (r_advance _ _ _ _ 1 with "Hr"); [done|cbn; lia|]. iIntros "Hr".
      change (drop 1 (q :: r)) with r.
      iApply swp_bind. iApply (r_position with "Hr"). iIntros (j Hj) "Hr".
      iApply swp_bind. iApply (r_skip with "Hr"). iIntros "Hr".
      iApply swp_bind. iApply (r_end with "Hr"). iIntros "Hr".
      pose proof (eq_sym (takew_dropw C r)) as Hr. destruct (dropw C r) as [|b r'] eqn:E; cbn [is_nil].
      * iApply swp_ret. iApply ("HQ" with "Hr"). by iPureIntro.
      * iApply swp_bind. iApply (r_copy with "Hr"); [done|done|]. iIntros (a) "Hr Ha".
        iApply swp_bind. iApply (r_advance _ _ _ _ 1 with "Hr"); [done|cbn; lia|]. iIntros "Hr".
        iApply swp_ret. iApply ("HQ" with "Hr Ha").
    + iApply swp_bind. iApply (r_position with "Hr"). iIntros (j Hj) "Hr".
      iApply swp_bind. iApply (r_skip with "Hr"). iIntros "Hr".
      pose proof (eq_sym (takew_dropw unquoted (q :: r))) as Hl.
      iApply (r_copy with "Hr"); [exact Hl|done|]. iIntros (a) "Hr Ha". iApply ("HQ" with "Hr Ha").
Qed.

(** ** Token objects *)

Definition token_attrs (h : html_token) (l : list attr) : assn :=
  attr_arrays (t_attr_names h) (t_attr_values h) (t_attr_count h) l.

Definition token_at (a : Z) (t : tok) : assn :=
  (∃ h, ⌈a <> 0 /\ t_type h = k_type t /\ t_self_closing h = k_self t⌉ ∗ a ↦ Token h ∗
     ostr (t_tag_name h) (k_name t) ∗ token_attrs h (k_attrs t) ∗ ostr (t_data h) (k_data t))%I.

Lemma token_attrs_nil h : t_attr_names h = 0 -> t_attr_values h = 0 -> t_attr_count h = 0 -> ⊢ token_attrs h [].
Proof using Type. intros E1 E2 E3. rewrite /token_attrs /attr_arrays E1 E2 E3. iSplitL; iApply names_at_nil. Qed.

Lemma swp_new_token h (Q : Z -> assn) :
  (∀ a, ⌈a <> 0⌉ -∗ a ↦ Token h -∗ Q a) -∗ swp (new_token h) Q.
Proof using Type.
  iIntros "HQ". iApply swp_bind. iApply swp_malloc; [done|]. iIntros (a Ha) "Ha".
  iApply swp_bind. iApply (swp_init_obj with "Ha"); [done|]. iIntros "Ha".
  iApply swp_bind. iApply (swp_upd_token with "Ha"). iIntros "Ha". iApply swp_ret.
  iApply ("HQ" with "[] Ha"). iPureIntro. lia.
Qed.

(** The token [h'] is [h] but for its attributes. *)
Definition token_only (h h' : html_token) : Prop :=
  h' = t_with_attrs (t_attr_names h') (t_attr_values h') (t_attr_count h') h.

Lemma swp_push_attr a h l name (k : text) value v (Q : unit -> assn) : short (l ++ [(k, v)]) ->
  a ↦ Token h -∗ token_attrs h l -∗ str_at name k -∗ ostr value v -∗
  (∀ h', ⌈token_only h h'⌉ -∗ a ↦ Token h' -∗ token_attrs h' (l ++ [(k, v)]) -∗ Q tt) -∗
  swp (push_attr a name value) Q.
Proof using Type.
  intros Hs. iIntros "Ha [Hn Hvs] Hk Hv HQ". unfold push_attr.
  iApply swp_bind. iApply (swp_get_token with "Ha"). iIntros "Ha".
  iApply swp_bind. iApply (swp_grow_names with "Hn"); [done|]. iIntros (ns) "Hn".
  iApply swp_bind. iApply (swp_upd_token with "Ha"). iIntros "Ha".
  iApply swp_bind. iApply (swp_get_token with "Ha"). iIntros "Ha".
  iApply swp_bind. iApply (swp_grow_names with "Hvs"); [done|]. iIntros (vs) "Hvs".
  iApply swp_bind. iApply (swp_upd_token with "Ha"). iIntros "Ha".
  assert (short (l.*1 ++ [k])) as Hs1 by (unfold short in *; rewrite !length_app length_fmap in Hs |- *; done).
  assert (short (l.*2 ++ [v])) as Hs2 by (unfold short in *; rewrite !length_app length_fmap in Hs |- *; done).
  iApply swp_bind. iApply (swp_put_grown _ _ _ _ (Some k) with "Hn Hk");
    [unfold short; by rewrite -(fmap_app Some l.*1 [k]) length_fmap|].
  iIntros "Hn". iApply swp_bind. iApply (swp_put_grown with "Hvs Hv"); [done|]. iIntros "Hvs".
  iApply (swp_upd_token with "Ha"). iIntros "Ha".
  iApply ("HQ" with "[] Ha [Hn Hvs]"); [by iPureIntro|].
  rewrite /token_attrs /attr_arrays !fmap_app. cbn. iFrame.
Qed.

(** *** Attributes *)

(** One turn of the loop. *)
Lemma r_attribute P p t l a h acc (Q : step unit unit -> assn) :
  Z.of_nat (length acc + length l) < 2 ^ 60 ->
  reading P p t l -∗ a ↦ Token h -∗ token_attrs h acc -∗
  match scan_attr l with
  | Some (nm, v, r) => ∀ h', ⌈token_only h h'⌉ -∗ reading P p t r -∗ a ↦ Token h' -∗
      token_attrs h' (acc ++ [(nm, v)]) -∗ Q (Next tt)
  | None => reading P p t (dropw isspace l) -∗ a ↦ Token h -∗ token_attrs h acc -∗ Q (Done tt)
  end -∗ swp (parse_attribute P a) Q.
Proof using Type.
  intros Hs. iIntros "Hr Ha Hl HQ". unfold scan_attr, parse_attribute.
  iApply swp_bind. iApply (r_end with "Hr"). iIntros "Hr".
  destruct l as [|b0 l0]; cbn [is_nil].
  { iApply swp_ret. iApply ("HQ" with "Hr Ha Hl"). }
  set (l := b0 :: l0) in *.
  iApply swp_bind. iApply (r_skip with "Hr"). iIntros "Hr".
  iApply swp_bind. iApply (r_end with "Hr"). iIntros "Hr".
  pose proof (dropw_length isspace l) as Hlen. set (l1 := dropw isspace l) in *.
  pose proof (eq_sym (takew_dropw in_attr_name l1)) as Hl1.
  destruct l1 as [|b r0] eqn:El; cbn [is_nil].
  { iApply swp_ret. iApply ("HQ" with "Hr Ha Hl"). }
  iApply (r_next with "Hr"). iIntros (p' Hp') "Hr".
  destruct ((s8 b =? 62) || (s8 b =? 47)) eqn:Eb.
  { assert (takew in_attr_name (b :: r0) = []) as ->.
    { unfold takew, spanned. cbn [span_len]. unfold in_attr_name.
      by apply orb_true_iff in Eb as [->| ->]; rewrite ?andb_false_r. }
    iApply swp_ret. iApply ("HQ" with "Hr Ha Hl"). }
  iApply swp_bind. iApply (r_position with "Hr"). iIntros (j Hj) "Hr".
  iApply swp_bind. iApply (r_skip with "Hr"). iIntros "Hr". fold in_attr_name.
  iApply swp_bind. iApply (r_position with "Hr"). iIntros (k Hk) "Hr".
  destruct (mark_eq _ _ _ _ _ _ Hl1 Hj Hk) as [_ ->].
  destruct (takew in_attr_name (b :: r0)) as [|c0 w0]; cbn [is_nil].
  { cbn [app] in Hl1. rewrite -Hl1. iApply swp_ret. iApply ("HQ" with "Hr Ha Hl"). }
  set (w := c0 :: w0) in *. set (r1 := dropw in_attr_name (b :: r0)) in *.
  assert (forall v : option text, short (acc ++ [(w, v)])) as Hsh
    by (intros v; unfold short, text_bound; rewrite length_app /=; subst l; cbn in Hs, Hlen; lia).
  iApply swp_bind. iApply (r_copy with "Hr"); [exact Hl1|done|]. iIntros (nm) "Hr Hnm".
  iApply swp_bind. iApply (r_skip with "Hr"). iIntros "Hr".
  iApply swp_bind. iApply (r_char with "Hr"). iIntros "Hr". rewrite head_starts.
  set (l2 := dropw isspace r1) in *. iApply swp_bind. destruct (starts 61 l2) eqn:Est.
  - assert (1 <= length l2)%nat by (destruct l2; [done|cbn; lia]).
    iApply swp_bind. iApply (r_advance _ _ _ _ 1 with "Hr"); [done|lia|]. iIntros "Hr".
    iApply (r_value with "Hr"). iIntros (v) "Hr Hv". destruct (scan_value (drop 1 l2)) as [sv sr]. cbn [fst snd].
    iApply swp_bind. iApply (swp_push_attr with "Ha Hl Hnm Hv"); [apply Hsh|].
    iIntros (h') "Hh Ha Hl". iApply swp_ret. iApply ("HQ" with "Hh Hr Ha Hl").
  - iApply swp_ret. iApply swp_bind. iApply (swp_push_attr _ _ _ _ w 0 None with "Ha Hl Hnm []"); [apply Hsh|by iPureIntro|].
    iIntros (h') "Hh Ha Hl". iApply swp_ret. iApply ("HQ" with "Hh Hr Ha Hl").
Qed.

Lemma r_attributes P p t l a h (Q : unit -> assn) :
  reading P p t l -∗ a ↦ Token h -∗ token_attrs h [] -∗
  (∀ h', ⌈token_only h h'⌉ -∗ reading P p t (scan_attrs (S (length l)) l).2 -∗ a ↦ Token h' -∗
     token_attrs h' (scan_attrs (S (length l)) l).1 -∗ Q tt) -∗
  swp (html_parse_attributes P a) Q.
Proof using Type.
  iIntros "Hr Ha Hl HQ". iDestruct (reading_short with "Hr") as "[%Hs Hr]". unfold html_parse_attributes.
  destruct (scan_attrs (S (length l)) l) as [attrs rest] eqn:E. cbn [fst snd].
  iApply (swp_loop _ (fun m _ => ∃ l1 h1 acc, ⌈m = Z.of_nat (length l1) /\
      (length acc + length l1 <= length l)%nat /\ token_only h h1 /\
      (acc ++ (scan_attrs (S (length l1)) l1).1, (scan_attrs (S (length l1)) l1).2) = (attrs, rest)⌉ ∗
    reading P p t l1 ∗ a ↦ Token h1 ∗ token_attrs h1 acc ∗
    (∀ h', ⌈token_only h h'⌉ -∗ reading P p t rest -∗ a ↦ Token h' -∗ token_attrs h' attrs -∗ Q tt))%I
    _ (Z.of_nat (length l))); [|lia|].
  - iIntros (m []) "(%l1 & %h1 & %acc & %Hi & Hr & Ha & Hl & HQ)". destruct Hi as (-> & Hlen & Hh & He).
    iApply (r_attribute with "Hr Ha Hl"); [lia|]. cbn [scan_attrs] in He.
    destruct (scan_attr l1) as [[[nm v] r]|] eqn:Ea.
    + pose proof (scan_attr_length _ _ _ Ea) as Hlt. iIntros (h') "%Hh' Hr Ha Hl". cbn [sturn].
      iExists (Z.of_nat (length r)). iSplit; [iPureIntro; lia|]. iExists r, h', (acc ++ [(nm, v)]).
      iFrame. iPureIntro. split; [done|]. split; [rewrite length_app /=; lia|].
      split; [unfold token_only in *; rewrite Hh' Hh; done|].
      rewrite (scan_attrs_fuel (length l1) (S (length r))) in He; [|lia..].
      destruct (scan_attrs (S (length r)) r) as [l' r']. cbn [fst snd] in *. by rewrite -assoc_L.
    + iIntros "Hr Ha Hl". cbn [sturn fst snd] in *. rewrite app_nil_r in He. injection He as -> ->.
      iApply ("HQ" with "[] Hr Ha Hl"). by iPureIntro.
  - iExists l, h, []. rewrite E. iFrame. iPureIntro. cbn. split; [done|]. split; [lia|]. split; [by destruct h|done].
Qed.

(** ** Freeing the attributes *)

Lemma swp_free_attrs names values count l (Q : unit -> assn) :
  attr_arrays names values count l -∗ Q tt -∗ swp (free_attrs names values count) Q.
Proof using Type.
  iIntros "[Hn Hv] HQ". iDestruct (half_freed_start with "Hn") as "[%Hc Hn]". destruct Hc as [-> Hs].
  iDestruct (half_freed_start with "Hv") as "[_ Hv]". unfold free_attrs.
  unfold short, text_bound in Hs. rewrite !length_fmap in Hs |- *.
  set (R i := (half_freed names (Some <$> l.*1) i ∗ half_freed values l.*2 i)%I).
  iApply swp_bind. iApply (swp_loop _ (fun m i => ∃ j, ⌈i = Z.of_nat j /\ (j <= length l)%nat /\
      m = Z.of_nat (length l) - Z.of_nat j⌉ ∗ R j ∗ Q tt)%I _ (Z.of_nat (length l))); [|lia|].
  - iIntros (m i) "(%j & %Hj & [Hn Hv] & HQ)". destruct Hj as (-> & Hj & ->).
    destruct (Z.ltb_spec (Z.of_nat j) (Z.of_nat (length l))).
    + iApply (swp_free_slot with "Hn"); [rewrite !length_fmap; lia|]. iIntros "Hn".
      iApply (swp_free_slot with "Hv"); [rewrite length_fmap; lia|]. iIntros "Hv". iApply swp_ret. cbn [sturn]. iExists (Z.of_nat (length l) - Z.of_nat (S j)). iSplit; [iPureIntro; lia|].
      iExists (S j). iFrame. iPureIntro. rewrite wrap_small; lia.
    + iApply swp_ret. cbn [sturn]. assert (j = length l) as -> by lia.
      iApply swp_bind. iApply (swp_free_half _ (Some <$> l.*1) with "[Hn]"); [by rewrite !length_fmap|].
      iApply (swp_free_half _ l.*2 with "[Hv] HQ"). by rewrite length_fmap.
  - iExists 0%nat. iFrame. iPureIntro. lia.
Qed.

(** ** Tags *)

Lemma r_tag P p t b l (Q : Z -> assn) :
  reading P p t (b :: l) -∗
  match scan_tag l with
  | Some (tk, r) => ∀ a, reading P p t r -∗ token_at a tk -∗ Q a
  | None => ∀ r, reading P p t r -∗ Q 0
  end -∗ swp (html_parse_tag P) Q.
Proof using Type.
  iIntros "Hr HQ". unfold html_parse_tag, scan_tag.
  iApply swp_bind. iApply swp_new_token. iIntros (a Ha) "Ha".
  iApply swp_bind. iApply (r_advance _ _ _ _ 1 with "Hr"); [done|cbn; lia|]. iIntros "Hr".
  change (drop 1 (b :: l)) with l.
  iApply swp_bind. iApply (r_char with "Hr"). iIntros "Hr". rewrite head_starts.
  set tyl := (if starts 47 l then (HTML_TOKEN_END_TAG, _) else _).
  iApply swp_bind. iApply (swp_wand _ (fun _ => reading P p t tyl.2 ∗ a ↦ Token (t_with_type tyl.1 zero_token))%I with "[Hr Ha]").
  { subst tyl. destruct (starts 47 l) eqn:E; cbn [fst snd].
    - iApply swp_bind. iApply (swp_upd_token with "Ha"). iIntros "Ha".
      iApply (r_advance _ _ _ _ 1 with "Hr"); [done|destruct l; [done|cbn; lia]|]. iIntros "Hr". iFrame.
    - iApply (swp_upd_token with "Ha"). iIntros "Ha". iFrame. }
  iIntros (_) "[Hr Ha]". destruct tyl as [ty l1]. cbn [fst snd].
  iApply swp_bind. iApply (r_tag_name with "Hr"). iIntros (nm) "Hr Hnm".
  iApply swp_bind. iApply (swp_upd_token with "Ha"). iIntros "Ha".
  destruct (takew is_name_char l1) as [|c w]; cbn [nonempty ostr].
  { iDestruct "Hnm" as %->. cbn [Z.eqb]. iApply swp_bind. iApply swp_free; [done|]. iFrame "Ha".
    iApply swp_ret. iApply ("HQ" with "Hr"). }
  iDestruct (str_at_pure with "Hnm") as "[%Hnm Hnm]". rewrite (proj2 (Z.eqb_neq nm 0)); [|tauto].
  iApply swp_bind. iApply (r_attributes with "Hr Ha []"); [by iApply token_attrs_nil|].
  iIntros (h') "%Hh Hr Ha Hl". destruct (scan_attrs _ _) as [attrs l2]. cbn [fst snd].
  iApply swp_bind. iApply (r_char with "Hr"). iIntros "Hr". rewrite head_starts.
  set sl := (if starts 47 l2 then (true, _) else _).
  iApply swp_bind. iApply (swp_wand _ (fun _ => reading P p t sl.2 ∗
    a ↦ Token (t_with_self_closing sl.1 h'))%I with "[Hr Ha]").
  { subst sl. destruct (starts 47 l2) eqn:E; cbn [fst snd].
    - iApply swp_bind. iApply (swp_upd_token with "Ha"). iIntros "Ha".
      iApply (r_advance _ _ _ _ 1 with "Hr"); [done|destruct l2; [done|cbn; lia]|]. iIntros "Hr". iFrame.
    - iApply swp_ret. iFrame "Hr".
      replace (t_with_self_closing false h') with h'; [done|]. by rewrite Hh. }
  iIntros (_) "[Hr Ha]". destruct sl as [self l3]. cbn [fst snd].
  iApply swp_bind. iApply (r_char with "Hr"). iIntros "Hr". rewrite head_starts.
  destruct (starts 62 l3) eqn:E.
  - iApply swp_bind. iApply (r_advance _ _ _ _ 1 with "Hr"); [done|destruct l3; [done|cbn; lia]|]. iIntros "Hr".
    iApply swp_ret. iApply ("HQ" with "Hr"). iExists _. iFrame "Ha". rewrite Hh. iFrame "Hl". cbn. iFrame "Hnm".
    iSplit; iPureIntro; [|done]. split; [lia|]. done.
  - iApply swp_bind. iApply (swp_get_token with "Ha"). iIntros "Ha".
    iApply swp_bind. iApply (swp_free_ostr _ (Some (c :: w)) with "[Hnm]"); [by rewrite Hh|].
    iApply swp_bind. iApply (swp_free_attrs with "Hl").
    iApply swp_bind. iApply swp_free; [done|]. iFrame "Ha". iApply swp_ret. iApply ("HQ" with "Hr").
Qed.

(** ** Texts and comments *)

(** A token without attributes. *)
Lemma token_at_plain a h ty o : a <> 0 -> h = t_with_data (t_data h) (t_with_type ty zero_token) ->
  a ↦ Token h -∗ ostr (t_data h) o -∗ token_at a (Tok ty None false [] o).
Proof using Type.
  intros Ha ->. iIntros "Ha Ho". iExists _. iFrame "Ha Ho". iSplit; [iPureIntro; done|].
  iSplitR; [by iPureIntro|]. by iApply token_attrs_nil.
Qed.

Definition in_text (c : Z) : bool := negb (c =? 60).

Lemma r_text P p t l (Q : Z -> assn) : takew in_text l <> [] ->
  reading P p t l -∗
  (∀ a, reading P p t (dropw in_text l) -∗
     token_at a (Tok HTML_TOKEN_TEXT None false [] (Some (takew in_text l))) -∗ Q a) -∗
  swp (html_parse_text P) Q.
Proof using Type.
  intros Hne. iIntros "Hr HQ". unfold html_parse_text.
  iApply swp_bind. iApply (r_position with "Hr"). iIntros (j Hj) "Hr".
  iApply swp_bind. iApply (r_skip with "Hr"). iIntros "Hr". fold in_text.
  iApply swp_bind. iApply (r_position with "Hr"). iIntros (k Hk) "Hr".
  pose proof (eq_sym (takew_dropw in_text l)) as Hl.
  destruct (mark_eq _ _ _ _ _ _ Hl Hj Hk) as [_ ->].
  destruct (takew in_text l) as [|b w]; [done|]. cbn [is_nil].
  iApply swp_bind. iApply (r_copy with "Hr"); [done|done|]. iIntros (d) "Hr Hd".
  iApply swp_new_token. iIntros (a Ha) "Ha". iApply ("HQ" with "Hr").
  by iApply (token_at_plain _ _ _ (Some (b :: w)) with "Ha Hd").
Qed.

(** The search for the end of a comment. *)
Definition comment_ends (l : text) : bool := starts 45 l && starts 45 (drop 1 l) && starts 62 (drop 2 l).

Lemma scan_comment_step b l : scan_comment (b :: l) =
  if comment_ends (b :: l) then Some ([], drop 3 (b :: l))
  else match scan_comment l with Some (c, r) => Some (b :: c, r) | None => None end.
Proof using Type. cbn [scan_comment]. unfold comment_ends. cbn. by rewrite !drop_0. Qed.

(** [c]: the characters before the end; None when there is no end. *)
Fixpoint comment_split (l : text) : option (text * text) :=
  match l with
  | [] => None
  | b :: r => if comment_ends l then Some ([], l) else
      match comment_split r with Some (c, r') => Some (b :: c, r') | None => None end
  end.

Lemma comment_split_scan l :
  scan_comment l = match comment_split l with Some (c, r) => Some (c, drop 3 r) | None => None end.
Proof using Type.
  induction l as [|b l IH]; [done|]. rewrite scan_comment_step. cbn [comment_split].
  destruct (comment_ends (b :: l)); [done|]. rewrite IH. by destruct (comment_split l) as [[c r]|].
Qed.

Lemma comment_split_app l c r : comment_split l = Some (c, r) -> l = c ++ r /\ (3 <= length r)%nat.
Proof using Type.
  revert c. induction l as [|b l IH]; intros c; [done|]. cbn [comment_split].
  destruct (comment_ends (b :: l)) eqn:E.
  - intros [= <- <-]. split; [done|]. unfold comment_ends in E. cbn in E. rewrite drop_0 in E.
    destruct l as [|b1 [|b2 l]]; cbn in *; rewrite ?andb_false_r in E; try done. lia.
  - destruct (comment_split l) as [[c' r']|]; [|done]. intros [= <- <-].
    destruct (IH c' eq_refl) as [-> ?]. done.
Qed.

Lemma comment_split_short l : (length l < 3)%nat -> comment_split l = None.
Proof using Type.
  intros Hl. destruct (comment_split l) as [[c r]|] eqn:E; [|done].
  apply comment_split_app in E as [-> Hr]. rewrite length_app in Hl. lia.
Qed.

(** Characters further on. *)
Lemma swp_ahead P p t k n b m (Q : Z -> assn) : t !! (k + n)%nat = Some b -> m = Z.of_nat n ->
  reader P p t k -∗ (reader P p t k -∗ Q (s8 b)) -∗
  swp (char_at (p_input p) (u64 (Z.of_nat k + m))) Q.
Proof using Type.
  intros Hb ->. iIntros "Hr HQ". iDestruct (reader_pure with "Hr") as "[%Hr Hr]".
  apply lookup_lt_Some in Hb as Hlt.
  replace (u64 (Z.of_nat k + Z.of_nat n)) with (Z.of_nat (k + n)) by (rewrite wrap_small; lia).
  iDestruct "Hr" as "[%Hp [HP Hi]]". iApply (swp_char_at with "Hi").
  { apply lookup_app_l_Some. exact Hb. }
  iIntros "Hi". iApply "HQ". iFrame. by iPureIntro.
Qed.

Lemma swp_comment_end P p t k l (Q : bool -> assn) : drop k t = l -> (3 <= length l)%nat ->
  reader P p t k -∗ (reader P p t k -∗ Q (comment_ends l)) -∗
  swp (at_comment_end (p_with_position (Z.of_nat k) p)) Q.
Proof using Type.
  intros Hl Hlen. destruct l as [|b0 [|b1 [|b2 l]]]; cbn in Hlen; [lia..|].
  assert (forall n, t !! (k + n)%nat = (b0 :: b1 :: b2 :: l) !! n) as Ht by (intros n; by rewrite -Hl lookup_drop).
  iIntros "Hr HQ". unfold at_comment_end, comment_ends. cbn [p_input p_with_position p_position].
  iApply swp_bind. iApply (swp_reader_char with "Hr"); [by rewrite -(Nat.add_0_r k) (Ht 0%nat)|]. iIntros "Hr".
  change (starts 45 (b0 :: b1 :: b2 :: l)) with (s8 b0 =? 45).
  change (starts 45 (drop 1 (b0 :: b1 :: b2 :: l))) with (s8 b1 =? 45).
  change (starts 62 (drop 2 (b0 :: b1 :: b2 :: l))) with (s8 b2 =? 62).
  destruct (s8 b0 =? 45); cbn [andb]; [|iApply swp_ret; by iApply "HQ"].
  iApply swp_bind. iApply (swp_ahead _ _ _ _ 1 with "Hr"); [by rewrite (Ht 1%nat)|done|]. iIntros "Hr".
  destruct (s8 b1 =? 45); cbn [andb]; [|iApply swp_ret; by iApply "HQ"].
  iApply swp_bind. iApply (swp_ahead _ _ _ _ 2 with "Hr"); [by rewrite (Ht 2%nat)|done|]. iIntros "Hr".
  iApply swp_ret. by iApply "HQ".
Qed.

Lemma r_find_end P p t l (Q : unit -> assn) : (2 <= length t)%nat ->
  reading P p t l -∗
  (∀ r, ⌈match comment_split l with Some (_, r') => r = r' | None => (length r < 3)%nat end⌉ -∗
     reading P p t r -∗ Q tt) -∗
  swp (find_comment_end P) Q.
Proof using Type.
  intros Ht2. iIntros "Hr HQ". iDestruct (reading_short with "Hr") as "[%Hs Hr]".
  iApply (swp_loop _ (fun m _ => ∃ l1 c1, ⌈m = Z.of_nat (length l1) /\ (length l1 <= length l)%nat /\
      comment_split l = match comment_split l1 with Some (c, r) => Some (c1 ++ c, r) | None => None end⌉ ∗
    reading P p t l1 ∗ (∀ r, ⌈match comment_split l with Some (_, r') => r = r' | None => (length r < 3)%nat end⌉ -∗
     reading P p t r -∗ Q tt))%I _ (Z.of_nat (length l))); [|lia|].
  - iIntros (m []) "(%l1 & %c1 & %Hl & (%k & %Hk & Hr) & HQ)". destruct Hl as (-> & Hlen & Hsp).
    iDestruct (reader_pure with "Hr") as "[%Hr Hr]". destruct Hr as (Hpl & Hkl & Hts).
    assert (length l1 = length t - k)%nat as Hl1 by (by rewrite -Hk length_drop).
    iApply swp_bind. iApply (swp_reader_get with "Hr"). iIntros "Hr". cbn [p_length p_position p_with_position].
    rewrite Hpl (wrap_small 64); [|lia]. destruct (Z.ltb_spec (Z.of_nat k) (Z.of_nat (length t) - 2)).
    + iApply swp_bind. iApply (swp_comment_end with "Hr"); [done|lia|]. iIntros "Hr".
      destruct l1 as [|b l1]; [cbn in Hl1; lia|]. cbn [comment_split] in Hsp.
      destruct (comment_ends (b :: l1)).
      * iApply swp_ret. cbn [sturn]. iApply ("HQ" $! (b :: l1)); [|iExists k; by iFrame]. iPureIntro. by rewrite Hsp.
      * iApply swp_bind. iApply (swp_advance _ _ _ _ 1 with "Hr"); [lia|]. iIntros "Hr". iApply swp_ret. cbn [sturn].
        iExists (Z.of_nat (length l1)). cbn in Hlen. iSplit; [iPureIntro; cbn; lia|]. iExists l1, (c1 ++ [b]).
        iSplit; [iPureIntro|iFrame "HQ"; iExists _; iFrame "Hr"; iPureIntro; by rewrite -drop_drop Hk].
        split; [done|]. split; [lia|]. rewrite Hsp. destruct (comment_split l1) as [[c r]|]; [|done].
        by rewrite -assoc_L.
    + iApply swp_ret. cbn [sturn]. iApply ("HQ" $! l1); [|iExists k; by iFrame]. iPureIntro.
      rewrite (comment_split_short l1) in Hsp; [|lia]. rewrite Hsp. lia.
  - iExists l, []. iFrame. iPureIntro. split; [done|]. split; [lia|]. by destruct (comment_split l) as [[c r]|].
Qed.

Lemma r_comment P p t l (Q : Z -> assn) : (4 <= length l)%nat ->
  reading P p t l -∗
  match scan_comment (drop 4 l) with
  | Some (c, r) => ∀ a, reading P p t r -∗ token_at a (Tok HTML_TOKEN_COMMENT None false [] (Some c)) -∗ Q a
  | None => ∀ r, reading P p t r -∗ Q 0
  end -∗ swp (html_parse_comment P) Q.
Proof using Type.
  intros Hl. iIntros "Hr HQ". unfold html_parse_comment.
  iAssert (⌈(4 <= length t)%nat⌉ ∗ reading P p t l)%I with "[Hr]" as "[%Ht Hr]".
  { iDestruct "Hr" as (k Hk) "Hr". iSplit; [iPureIntro|iExists k; by iFrame]. rewrite -Hk length_drop in Hl. lia. }
  iApply swp_bind. iApply (r_advance _ _ _ _ 4 with "Hr"); [done|done|]. iIntros "Hr".
  set (l1 := drop 4 l) in *. rewrite comment_split_scan.
  iApply swp_bind. iApply (r_position with "Hr"). iIntros (j Hj) "Hr".
  iApply swp_bind. iApply (r_find_end with "Hr"); [lia|]. iIntros (r Hr) "(%k & %Hk & Hr)".
  iDestruct (reader_pure with "Hr") as "[%Hrd Hr]". destruct Hrd as (Hpl & Hkl & Hts).
  assert (length r = length t - k)%nat as Hlr by (by rewrite -Hk length_drop).
  iApply swp_bind. iApply (swp_reader_get with "Hr"). iIntros "Hr". cbn [p_length p_position p_with_position].
  rewrite Hpl (wrap_small 64); [|lia].
  destruct (comment_split l1) as [[c r']|] eqn:E.
  - subst r'. apply comment_split_app in E as [Hl1 Hr3]. rewrite (proj2 (Z.leb_gt _ _)); [|lia].
    iApply swp_bind. iApply (r_copy with "[Hr]"); [exact Hl1|done|iExists k; by iFrame|]. iIntros (d) "Hr Hd".
    iApply swp_bind. iApply swp_new_token. iIntros (a Ha) "Ha".
    iApply swp_bind. iApply (r_advance _ _ _ _ 3 with "Hr"); [done|done|]. iIntros "Hr".
    iApply swp_ret. iApply ("HQ" with "Hr"). by iApply (token_at_plain _ _ _ (Some c) with "Ha Hd").
  - rewrite (proj2 (Z.leb_le _ _)); [|lia]. iApply swp_ret. iApply ("HQ" $! r). iExists k. by iFrame.
Qed.

(** ** The next token *)

Lemma swp_at_comment P p t k b l (Q : bool -> assn) : drop k t = b :: l ->
  reader P p t k -∗ (reader P p t k -∗ Q (is_comment l)) -∗
  swp (at_comment (p_with_position (Z.of_nat k) p)) Q.
Proof using Type.
  intros Hl. iIntros "Hr HQ". iDestruct (reader_pure with "Hr") as "[%Hr Hr]". destruct Hr as (Hpl & Hkl & Hts).
  assert (length t = k + S (length l))%nat as Hlen.
  { apply (f_equal length) in Hl. rewrite length_drop /= in Hl. lia. }
  assert (forall n, t !! (k + n)%nat = (b :: l) !! n) as Ht by (intros n; by rewrite -Hl lookup_drop).
  unfold at_comment. cbn [p_input p_with_position p_position p_length].
  rewrite Hpl {1}(wrap_small 64 (Z.of_nat k + 3)); [|lia]. destruct (Z.ltb_spec (Z.of_nat k + 3) (Z.of_nat (length t))).
  - destruct l as [|b1 [|b2 [|b3 l]]]; cbn in Hlen; [lia..|].
    change (is_comment (b1 :: b2 :: b3 :: l)) with ((s8 b1 =? 33) && (s8 b2 =? 45) && (s8 b3 =? 45)).
    iApply swp_bind. iApply (swp_ahead _ _ _ _ 1 with "Hr"); [by rewrite (Ht 1%nat)|done|]. iIntros "Hr".
    destruct (s8 b1 =? 33); cbn [andb]; [|iApply swp_ret; by iApply "HQ"].
    iApply swp_bind. iApply (swp_ahead _ _ _ _ 2 with "Hr"); [by rewrite (Ht 2%nat)|done|]. iIntros "Hr".
    destruct (s8 b2 =? 45); cbn [andb]; [|iApply swp_ret; by iApply "HQ"].
    iApply swp_bind. iApply (swp_ahead _ _ _ _ 3 with "Hr"); [by rewrite (Ht 3%nat)|done|]. iIntros "Hr".
    iApply swp_ret. by iApply "HQ".
  - assert (is_comment l = false) as Hc.
    { unfold is_comment. destruct l as [|b1 [|b2 [|b3 l]]]; cbn in Hlen |- *; rewrite ?andb_false_r //. lia. }
    rewrite Hc. iApply swp_ret. by iApply "HQ".
Qed.

Lemma swp_at_doctype P p t k l (Q : bool -> assn) : drop k t = l ->
  reader P p t k -∗ (reader P p t k -∗ Q (is_doctype l)) -∗
  swp (if u64 (p_position (p_with_position (Z.of_nat k) p) + 8) <? p_length (p_with_position (Z.of_nat k) p)
       then at_doctype (p_with_position (Z.of_nat k) p) else ret false) Q.
Proof using Type.
  intros Hl. iIntros "Hr HQ". iDestruct (reader_pure with "Hr") as "[%Hr Hr]". destruct Hr as (Hpl & Hkl & Hts).
  assert (length l = length t - k)%nat as Hlen by (by rewrite -Hl length_drop).
  cbn [p_position p_with_position p_length]. rewrite Hpl (wrap_small 64); [|lia]. unfold is_doctype.
  assert ((Z.of_nat k + 8 <? Z.of_nat (length t)) = (8 <? Z.of_nat (length l))) as ->.
  { destruct (Z.ltb_spec 8 (Z.of_nat (length l))); [apply Z.ltb_lt|apply Z.ltb_ge]; lia. }
  destruct (8 <? Z.of_nat (length l)); cbn [andb].
  - iDestruct "Hr" as "[%Hp [HP Hi]]". iApply swp_bind. cbn [p_input p_with_position].
    iApply (swp_get_str with "Hi"). iIntros "Hi". iApply swp_ret. rewrite Nat2Z.id Hl. iApply "HQ".
    iFrame. by iPureIntro.
  - iApply swp_ret. by iApply "HQ".
Qed.

Lemma r_doctype P p t l (Q : Z -> assn) :
  reading P p t l -∗
  (∀ a, reading P p t (drop 1 (dropw (fun c => negb (c =? 62)) l)) -∗
     token_at a (Tok HTML_TOKEN_DOCTYPE None false [] None) -∗ Q a) -∗
  swp (skip_while P (fun c => negb (c =? 62)) ;;
       let* done := at_end P in
       (if negb (done : bool) then advance P 1 else ret tt) ;;
       new_token (t_with_type HTML_TOKEN_DOCTYPE zero_token)) Q.
Proof using Type.
  iIntros "Hr HQ". iApply swp_bind. iApply (r_skip with "Hr"). iIntros "Hr".
  iApply swp_bind. iApply (r_end with "Hr"). iIntros "Hr". set (l1 := dropw _ l) in *.
  iApply swp_bind. iApply (swp_wand _ (fun _ => reading P p t (drop 1 l1)) with "[Hr]").
  { destruct l1 as [|b l1]; cbn [is_nil negb]; [by iApply swp_ret|].
    iApply (r_advance _ _ _ _ 1 with "Hr"); [done|cbn; lia|]. by iIntros "Hr". }
  iIntros (_) "Hr". iApply swp_new_token. iIntros (a Ha) "Ha". iApply ("HQ" with "Hr").
  iApply (token_at_plain _ _ _ None with "Ha"); [done|done|]. by iPureIntro.
Qed.

(** [html_parser_next_token] is [scan]: it allocates the next token, or
    returns the null pointer when there is none. *)
Lemma r_next_token P p t l (Q : Z -> assn) : P <> 0 ->
  reading P p t l -∗
  match scan l with
  | Some (tk, r) => ∀ a, reading P p t r -∗ token_at a tk -∗ Q a
  | None => ∀ r, reading P p t r -∗ Q 0
  end -∗ swp (html_parser_next_token P) Q.
Proof using Type.
  intros HP. iIntros "Hr HQ". unfold html_parser_next_token, scan. rewrite (proj2 (Z.eqb_neq P 0) HP).
  iApply swp_bind. iApply (r_end with "Hr"). iIntros "Hr".
  destruct l as [|b0 l0]; cbn [is_nil]; [iApply swp_ret; iApply ("HQ" with "Hr")|]. set (l := b0 :: l0).
  iApply swp_bind. iApply (r_skip with "Hr"). iIntros "Hr".
  iApply swp_bind. iApply (r_end with "Hr"). iIntros "Hr".
  destruct (dropw isspace l) as [|b r]; cbn [is_nil]; [iApply swp_ret; iApply ("HQ" with "Hr")|].
  iDestruct "Hr" as (k Hk) "Hr". iApply swp_bind. iApply (swp_reader_get with "Hr"). iIntros "Hr".
  assert (t !! k = Some b) as Hb by (rewrite -(Nat.add_0_r k) -lookup_drop Hk; done).
  iApply swp_bind. cbn [p_position p_with_position p_input]. iApply (swp_reader_char with "Hr"); [done|]. iIntros "Hr".
  change (s8 b =? 60) with (is_char 60 b). destruct (is_char 60 b) eqn:E60.
  - iApply swp_bind. iApply (swp_at_comment with "Hr"); [done|]. iIntros "Hr". destruct (is_comment r) eqn:Ec.
    + iApply (r_comment with "[Hr] [HQ]"); [|iExists k; by iFrame|].
      { unfold is_comment in Ec. destruct r as [|b1 [|b2 [|b3 r]]]; cbn in Ec |- *; rewrite ?andb_false_r // in Ec; lia. }
      change (drop 4 (b :: r)) with (drop 3 r). by destruct (scan_comment (drop 3 r)) as [[c r']|].
    + iApply swp_bind. iApply (swp_at_doctype with "Hr"); [done|]. iIntros "Hr".
      destruct (is_doctype (b :: r)).
      * iApply (r_doctype with "[Hr]"); [iExists k; by iFrame|]. iExact "HQ".
      * iApply (r_tag with "[Hr]"); [iExists k; by iFrame|]. iExact "HQ".
  - iApply (r_text with "[Hr]"); [|iExists k; by iFrame|iExact "HQ"].
    unfold takew, spanned, in_text. cbn [span_len]. unfold is_char in E60. by rewrite E60.
Qed.
End HtmlScan.
