(* ===== verification/HtmlTree.v ===== *)
(** * Trees and open elements in memory

    [tree_at par prev a nxt t] is the tree [t] with its root at [a], between
    its siblings, below [par]; it owns the nodes of [t] and all their strings.
    [open_at doc fs root ..] is the document with the open elements [fs]: what
    the tree builder has made so far.  Here are the logical steps of the tree
    builder: appending a node to the innermost element, opening and closing. *)

From S2P Require Import Sep Prelude CMem CStr Ctype Alloc DomObj Scan Dom DomTree DomSpec DomSep DomProofs Html HtmlSpec.

Section HtmlTree.
Context {H : Type} `{LibcHeapLaws H} `{!Handlers H} `{!HtmlLib H}.
Abbreviation assn := (sprop obj).
Implicit Types (n : dom_node) (t : tree) (ts : list tree) (par prev a nxt : Z).

(** ** Trees *)

Definition links n par prev nxt : Prop :=
  n_parent n = par /\ n_prev_sibling n = prev /\ n_next_sibling n = nxt.

(** Nothing is set in a node but what the builder sets. *)
Definition element_payload n : Prop :=
  uprooted n = n_with_attrs (n_attr_names n) (n_attr_values n) (n_attr_count n)
    (n_with_classes (n_class_names n) (n_class_count n)
      (n_with_id (n_id n) (new_node DOM_NODE_TYPE_ELEMENT (n_tag_name n) 0))).
Definition text_payload n : Prop :=
  uprooted n = new_node DOM_NODE_TYPE_TEXT 0 (n_text_content n) /\ n_first_child n = 0 /\ n_last_child n = 0.

(** What an element owns besides its node. *)
Definition element_owned n (tag : text) (attrs : list attr) : assn :=
  (str_at (n_tag_name n) tag ∗ ostr (n_id n) (element_id attrs) ∗
   classes_at n (element_classes attrs) ∗ attrs_at n attrs)%I.

(** The children [ts] from [p] on, behind [prev]; the last of them is [last],
    and what follows it is [nxt]. *)
Definition kids_at (T : Z -> Z -> Z -> tree -> assn) : list tree -> Z -> Z -> Z -> Z -> assn :=
  fix go ts prev p last nxt :=
    match ts with
    | [] => ⌈p = nxt /\ last = prev⌉%I
    | t :: ts => (∃ q, T prev p q t ∗ go ts p q last nxt)%I
    end.

Fixpoint tree_at (par prev a nxt : Z) (t : tree) {struct t} : assn :=
  match t with
  | Txt d =>
      (∃ n dp, ⌈a <> 0 /\ links n par prev nxt /\ text_payload n⌉ ∗ a ↦ Node n (IsText dp) ∗
         str_at dp d ∗ str_at (n_text_content n) d)%I
  | Elem tag attrs kids =>
      (∃ n, ⌈a <> 0 /\ links n par prev nxt /\ element_payload n⌉ ∗
         a ↦ Node n (IsElement zero_element) ∗ element_owned n tag attrs ∗
         kids_at (fun prev q nxt t => tree_at a prev q nxt t) kids 0 (n_first_child n) (n_last_child n) 0)%I
  end.

Definition kids par := kids_at (fun prev q nxt t => tree_at par prev q nxt t).

Lemma kids_cons par t ts prev p last nxt :
  kids par (t :: ts) prev p last nxt ⊣⊢ ∃ q, tree_at par prev p q t ∗ kids par ts p q last nxt.
Proof using Type. done. Qed.

(** The successor of a tree can be changed. *)
Lemma tree_at_next par prev a nxt t : tree_at par prev a nxt t ⊢
  ∃ n e, ⌈a <> 0 /\ n_next_sibling n = nxt⌉ ∗ a ↦ Node n e ∗
    (∀ nxt', a ↦ Node (n_with_next_sibling nxt' n) e -∗ tree_at par prev a nxt' t).
Proof using Type.
  destruct t as [tag attrs ks|d]; cbn [tree_at].
  - iIntros "(%n & %Hn & Ha & Ho & Hk)". destruct Hn as (Ha & (Hp & Hv & Hx) & He).
    iExists n, _. iFrame "Ha". iSplit; [by iPureIntro|]. iIntros (nxt') "Ha". iExists _. iFrame "Ha Ho Hk".
    by iPureIntro.
  - iIntros "(%n & %dp & %Hn & Ha & Ho)". destruct Hn as (Ha & (Hp & Hv & Hx) & He).
    iExists n, _. iFrame "Ha". iSplit; [by iPureIntro|]. iIntros (nxt') "Ha". iExists _, _. iFrame "Ha Ho".
    by iPureIntro.
Qed.

Lemma tree_at_nonzero par prev a nxt t : tree_at par prev a nxt t ⊢ ⌈a <> 0⌉ ∗ tree_at par prev a nxt t.
Proof using Type.
  destruct t as [tag attrs ks|d]; cbn [tree_at].
  - iIntros "(%n & %Hn & H)". iSplit; [iPureIntro; tauto|]. iExists n. iFrame. by iPureIntro.
  - iIntros "(%n & %dp & %Hn & H)". iSplit; [iPureIntro; tauto|]. iExists n, dp. iFrame. by iPureIntro.
Qed.

(** One more child. *)
Lemma kids_snoc par ts prev p last c nxt t :
  kids par ts prev p last c ∗ tree_at par last c nxt t ⊢ kids par (ts ++ [t]) prev p c nxt.
Proof using Type.
  revert prev p. induction ts as [|u ts IH]; intros prev p; iIntros "[Hk Ht]".
  - cbn. iDestruct "Hk" as %[-> ->]. iExists nxt. iFrame. by iPureIntro.
  - rewrite -app_comm_cons !kids_cons. iDestruct "Hk" as (q) "[Hu Hk]". iExists q. iFrame "Hu".
    iApply IH. iFrame.
Qed.

Lemma kids_ends par ts prev p last nxt : kids par ts prev p last nxt ⊢
  ⌈match ts with [] => p = nxt /\ last = prev | _ => p <> 0 /\ last <> 0 end⌉ ∗ kids par ts prev p last nxt.
Proof using Type.
  revert prev p. induction ts as [|u ts IH]; intros prev p.
  - iIntros "#H". by iFrame "H".
  - rewrite kids_cons. iIntros "(%q & Hu & Hk)". iDestruct (tree_at_nonzero with "Hu") as "[%Hp Hu]".
    iDestruct (IH with "Hk") as "[%Hk Hk]". iSplit; [|iExists q; by iFrame]. iPureIntro. split; [done|].
    destruct ts; [|tauto]. by destruct Hk as [_ ->].
Qed.

Lemma kids_last par ts prev p last nxt : ts <> [] -> kids par ts prev p last nxt ⊢
  ∃ n e, ⌈n_next_sibling n = nxt⌉ ∗ last ↦ Node n e ∗
    (∀ nxt', last ↦ Node (n_with_next_sibling nxt' n) e -∗ kids par ts prev p last nxt').
Proof using Type.
  revert prev p. induction ts as [|u ts IH]; intros prev p Hts; [done|]. rewrite kids_cons.
  iIntros "(%q & Hu & Hk)". destruct ts as [|v ts].
  - cbn. iDestruct "Hk" as %[-> ->]. iDestruct (tree_at_next with "Hu") as (n e) "(%Hn & Hp & Hu)".
    iExists n, e. iFrame "Hp". iSplit; [iPureIntro; tauto|]. iIntros (nxt') "Hp".
    iExists nxt'. iSplitL; [by iApply "Hu"|]. by iPureIntro.
  - iDestruct (IH with "Hk") as (n e) "(%Hn & Hl & Hk)"; [done|]. iExists n, e. iFrame "Hl".
    iSplit; [by iPureIntro|]. iIntros (nxt') "Hl". rewrite kids_cons. iExists q. iFrame "Hu". by iApply "Hk".
Qed.

(** ** Open elements *)

(** The open elements with their addresses, innermost first, and the children
    of the document. *)
Definition opened : Type := list (Z * frame) * list tree.

Definition to_stack (z : opened) : stack := (snd <$> z.1, z.2).
Definition addr_of (doc : Z) (z : opened) : Z := match z.1 with [] => doc | (a, _) :: _ => a end.

(** The innermost open node has the children that are done, up to [prev];
    [c] is what follows them, and [lst] its last child: [c] is 0, or a child
    that was just appended. *)
Fixpoint open_at (doc : Z) (fs : list (Z * frame)) (root : list tree) (prev c lst : Z) : assn :=
  match fs with
  | [] =>
      (∃ n d h, ⌈doc <> 0 /\ links n 0 0 0 /\ n_last_child n = lst⌉ ∗
         doc ↦ Node n (IsHtmlDocument d h) ∗ kids doc root 0 (n_first_child n) prev c)%I
  | (a, (tag, attrs, ks)) :: fs =>
      (∃ n pv, ⌈a <> 0 /\ links n (addr_of doc (fs, root)) pv 0 /\ element_payload n /\ n_last_child n = lst⌉ ∗
         a ↦ Node n (IsElement zero_element) ∗ element_owned n tag attrs ∗
         kids a ks 0 (n_first_child n) prev c ∗ open_at doc fs root pv a a)%I
  end.

Definition set_kids (ks : list tree) (z : opened) : opened :=
  match z with
  | ([], _) => ([], ks)
  | ((a, (tag, attrs, _)) :: fs, root) => ((a, (tag, attrs, ks)) :: fs, root)
  end.

Lemma set_kids_stack ks z t : ks = top_kids (to_stack z) ++ [t] -> to_stack (set_kids ks z) = add_tree t (to_stack z).
Proof using Type. intros ->. by destruct z as [[|[a [[tag attrs] ks]] fs] root]. Qed.

Lemma set_kids_addr doc ks z : addr_of doc (set_kids ks z) = addr_of doc z.
Proof using Type. by destruct z as [[|[a [[tag attrs] ks']] fs] root]. Qed.

(** The innermost open node itself. *)
Lemma open_top doc z prev c lst : open_at doc z.1 z.2 prev c lst ⊢
  ∃ n e, ⌈addr_of doc z <> 0 /\ n_last_child n = lst⌉ ∗ addr_of doc z ↦ Node n e ∗
    kids (addr_of doc z) (top_kids (to_stack z)) 0 (n_first_child n) prev c ∗
    (∀ fc lc ks prev' c', addr_of doc z ↦ Node (n_with_last_child lc (n_with_first_child fc n)) e -∗
       kids (addr_of doc z) ks 0 fc prev' c' -∗
       open_at doc (set_kids ks z).1 (set_kids ks z).2 prev' c' lc).
Proof using Type.
  destruct z as [[|[a [[tag attrs] ks]] fs] root]; cbn [fst snd open_at to_stack addr_of top_kids fmap list_fmap set_kids].
  - iIntros "(%n & %d & %h & %Hn & Ha & Hk)". destruct Hn as (Hd & Hl & Hlst). iExists n, _. iFrame "Ha Hk".
    iSplit; [by iPureIntro|]. iIntros (fc lc ks prev' c') "Ha Hk". iExists _, d, h. iFrame "Ha Hk".
    by iPureIntro.
  - iIntros "(%n & %pv & %Hn & Ha & Ho & Hk & Hr)". destruct Hn as (Hd & Hl & Hp & Hlst). iExists n, _.
    iFrame "Ha Hk". iSplit; [by iPureIntro|]. iIntros (fc lc ks' prev' c') "Ha Hk". iExists _, pv.
    iFrame "Ha Ho Hk Hr". by iPureIntro.
Qed.

(** ** Appending to the innermost open node *)

Lemma swp_append_open doc z last c nc ec (Q : unit -> assn) : c <> 0 -> links nc 0 0 0 ->
  open_at doc z.1 z.2 last 0 last -∗ c ↦ Node nc ec -∗
  (open_at doc z.1 z.2 last c c -∗
   c ↦ Node (n_with_prev_sibling last (n_with_parent (addr_of doc z) nc)) ec -∗ Q tt) -∗
  swp (dom_node_append_child (addr_of doc z) c) Q.
Proof using Type.
  intros Hc (Hp & Hv & Hx). iIntros "Ho Hc HQ".
  iDestruct (open_top with "Ho") as (n e) "(%Hn & Ha & Hk & Ho)". destruct Hn as [Ha Hl].
  iDestruct (kids_ends with "Hk") as "[%Hk Hk]".
  assert (forall ks, ks = top_kids (to_stack z) -> set_kids ks z = z) as Hset
    by (intros ks ->; by destruct z as [[|[a [[tag attrs] ks]] fs] root]).
  destruct (top_kids (to_stack z)) as [|t ts] eqn:E.
  - destruct Hk as [Hf ->]. iApply (swp_append_first with "Ha Hc"); [done..|]. iIntros "Ha Hc".
    iDestruct ("Ho" $! c c [] 0 c with "Ha []") as "Ho"; [by iPureIntro|]. rewrite Hset //. iApply ("HQ" with "Ho").
    by replace (n_with_prev_sibling 0 (n_with_parent (addr_of doc z) nc)) with (n_with_parent (addr_of doc z) nc)
      by (by destruct nc; cbn in *; subst).
  - destruct Hk as [Hf Hl0]. iDestruct (kids_last with "Hk") as (nb eb) "(%Hb & Hb & Hk)"; [done|].
    iApply (swp_append_next with "Ha Hb Hc"); [done..|]. iIntros "Ha Hb Hc".
    iDestruct ("Hk" with "Hb") as "Hk". iDestruct ("Ho" $! (n_first_child n) c with "[Ha] Hk") as "Ho".
    { by destruct n. }
    rewrite Hset //. iApply ("HQ" with "Ho Hc").
Qed.

(** What was appended is a complete tree. *)
Lemma open_add doc z last c t :
  open_at doc z.1 z.2 last c c ∗ tree_at (addr_of doc z) last c 0 t ⊢
  open_at doc (set_kids (top_kids (to_stack z) ++ [t]) z).1 (set_kids (top_kids (to_stack z) ++ [t]) z).2 c 0 c.
Proof using Type.
  iIntros "[Ho Ht]". iDestruct (open_top with "Ho") as (n e) "(%Hn & Ha & Hk & Ho)". destruct Hn as [Ha <-].
  iApply ("Ho" $! (n_first_child n) (n_last_child n) with "[Ha]"); [by destruct n|].
  iApply kids_snoc. iFrame.
Qed.

(** ** Elements begin and end *)

Lemma open_push doc z last c n tag attrs :
  c <> 0 -> links n (addr_of doc z) last 0 -> element_payload n -> n_first_child n = 0 -> n_last_child n = 0 ->
  open_at doc z.1 z.2 last c c ∗ c ↦ Node n (IsElement zero_element) ∗ element_owned n tag attrs ⊢
  open_at doc ((c, (tag, attrs, [])) :: z.1) z.2 0 0 0.
Proof using Type.
  intros Hc Hl Hp Hf Hla. iIntros "(Ho & Hc & Hn)". cbn [open_at]. iExists n, last. iFrame "Hc Hn".
  rewrite -surjective_pairing. iFrame "Ho". by iPureIntro.
Qed.

Lemma open_pop doc a tag attrs ks fs root last :
  let z' := set_kids (top_kids (to_stack (fs, root)) ++ [Elem tag attrs ks]) (fs, root) in
  open_at doc ((a, (tag, attrs, ks)) :: fs) root last 0 last ⊢ open_at doc z'.1 z'.2 a 0 a.
Proof using Type.
  cbn zeta. cbn [open_at]. iIntros "(%n & %pv & %Hn & Ha & Ho & Hk & Hr)". destruct Hn as (Ha & Hl & Hp & <-).
  iApply (open_add doc (fs, root) pv a). iFrame "Hr". cbn [tree_at]. iExists n. iFrame "Ha Ho Hk". by iPureIntro.
Qed.

(** The open elements [z] in memory, with nothing pending. *)
Definition opened_at (doc : Z) (z : opened) : assn := (∃ last, open_at doc z.1 z.2 last 0 last)%I.

(** The [k] innermost elements end. *)
Lemma opened_pops doc k z : (k <= length z.1)%nat -> opened_at doc z ⊢
  ∃ z', ⌈to_stack z' = pops k (to_stack z) /\ z'.1.*1 = drop k z.1.*1⌉ ∗ opened_at doc z'.
Proof using Type.
  revert z. induction k as [|k IH]; intros z Hk; iIntros "Ho".
  - iExists z. iFrame. by iPureIntro.
  - destruct z as [[|[a [[tag attrs] ks]] fs] root]; cbn in Hk; [lia|]. iDestruct "Ho" as (last) "Ho".
    iDestruct (open_pop with "Ho") as "Ho". set (z1 := set_kids _ _) in *.
    assert (z1.1.*1 = fs.*1) as Hz1 by (subst z1; by destruct fs as [|[b [[tag' attrs'] ks']] fs]).
    iDestruct (IH z1 with "[Ho]") as (z') "[%Hz' Ho]"; [|iExists a; iExact "Ho"|].
    { rewrite -(length_fmap fst z1.1) Hz1 length_fmap. lia. }
    iExists z'. iFrame "Ho". iPureIntro. destruct Hz' as [-> ->]. rewrite Hz1. split; [|done].
    cbn [pops]. f_equal. unfold z1. by rewrite (set_kids_stack _ _ (Elem tag attrs ks)).
Qed.

(** ** Looking at an open element *)

Lemma open_frame doc fs root k a tag attrs ks prev c lst : fs !! k = Some (a, (tag, attrs, ks)) ->
  open_at doc fs root prev c lst ⊢
  ∃ n e, ⌈a <> 0 /\ n_type n = DOM_NODE_TYPE_ELEMENT /\ n_parent n = addr_of doc (drop (S k) fs, root)⌉ ∗
    a ↦ Node n e ∗ str_at (n_tag_name n) tag ∗
    (a ↦ Node n e -∗ str_at (n_tag_name n) tag -∗ open_at doc fs root prev c lst).
Proof using Type.
  revert fs prev c lst. induction k as [|k IH]; intros [|[a1 [[tag1 attrs1] ks1]] fs] prev c lst Hk; try done;
    cbn [open_at]; iIntros "(%n & %pv & %Hn & Ha & Ho & Hk & Hr)".
  - cbn in Hk. injection Hk as -> -> -> ->. iDestruct "Ho" as "(Ht & Ho)". iExists n, _. iFrame "Ha Ht".
    iSplit; [iPureIntro; destruct Hn as (? & (? & ?) & He & ?); split; [done|]; split; [|done]|].
    { by apply (f_equal n_type) in He. }
    iIntros "Ha Ht". iExists n, pv. iFrame. by iPureIntro.
  - cbn in Hk. iDestruct (IH _ _ _ _ Hk with "Hr") as (n' e') "(%Hn' & Ha' & Ht & Hr)". iExists n', e'. iFrame "Ha' Ht".
    iSplit; [by iPureIntro|]. iIntros "Ha' Ht". iExists n, pv. iFrame "Ha Ho Hk". iSplit; [by iPureIntro|].
    iApply ("Hr" with "Ha' Ht").
Qed.

(** ** Looking at the document *)

Lemma open_document doc fs root prev c lst : open_at doc fs root prev c lst ⊢
  ∃ n d h, ⌈doc <> 0⌉ ∗ doc ↦ Node n (IsHtmlDocument d h) ∗
    (∀ d' h', doc ↦ Node n (IsHtmlDocument d' h') -∗ open_at doc fs root prev c lst).
Proof using Type.
  revert prev c lst. induction fs as [|[a [[tag attrs] ks]] fs IH]; intros prev c lst; cbn [open_at].
  - iIntros "(%n & %d & %h & %Hn & Ha & Hk)". iExists n, d, h. iFrame "Ha". iSplit; [iPureIntro; tauto|].
    iIntros (d' h') "Ha". iExists n, d', h'. iFrame. by iPureIntro.
  - iIntros "(%n & %pv & %Hn & Ha & Ho & Hk & Hr)". iDestruct (IH with "Hr") as (nd d h) "(%Hd & Hd & Hr)".
    iExists nd, d, h. iFrame "Hd". iSplit; [by iPureIntro|]. iIntros (d' h') "Hd". iExists n, pv.
    iFrame "Ha Ho Hk". iSplit; [by iPureIntro|]. by iApply "Hr".
Qed.

Lemma open_frame_not_doc doc fs root k f prev c lst : fs !! k = Some f -> open_at doc fs root prev c lst ⊢
  ⌈f.1 <> doc⌉ ∗ open_at doc fs root prev c lst.
Proof using Type.
  revert fs prev c lst. induction k as [|k IH]; intros [|[a [[tag attrs] ks]] fs] prev c lst Hk; try done; cbn [open_at];
    iIntros "(%n & %pv & %Hn & Ha & Ho & Hk & Hr)"; cbn in Hk.
  - injection Hk as <-. iDestruct (open_document with "Hr") as (nd d h) "(%Hd & Hd & Hr)".
    iDestruct (pt_ne with "[$Ha $Hd]") as "(%Hne & Ha & Hd)". iSplit; [by iPureIntro|]. iExists n, pv. iFrame "Ha Ho Hk".
    iSplit; [by iPureIntro|]. by iApply "Hr".
  - iDestruct (IH _ _ _ _ Hk with "Hr") as "[%Hf Hr]". iSplit; [by iPureIntro|]. iExists n, pv. iFrame. by iPureIntro.
Qed.

Lemma open_addr doc k z prev c lst : open_at doc z.1 z.2 prev c lst ⊢
  ⌈addr_of doc (drop k z.1, z.2) <> 0⌉ ∗ open_at doc z.1 z.2 prev c lst.
Proof using Type.
  iIntros "Ho". destruct (drop k z.1) as [|[a f] fs] eqn:E.
  - iDestruct (open_document with "Ho") as (n d h) "(%Hd & Hd & Ho)". iSplit; [by iPureIntro|]. by iApply "Ho".
  - destruct f as [[tag attrs] ks]. assert (z.1 !! k = Some (a, (tag, attrs, ks))) as Hk
      by (rewrite -(Nat.add_0_r k) -lookup_drop E; done).
    iDestruct (open_frame _ _ _ _ _ _ _ _ _ _ _ Hk with "Ho") as (n e) "(%Hn & Ha & Ht & Ho)".
    iSplit; [iPureIntro; cbn; tauto|]. iApply ("Ho" with "Ha Ht").
Qed.

Lemma addr_of_firsts doc z fs root : z.1.*1 = fs.*1 -> addr_of doc z = addr_of doc (fs, root).
Proof using Type. destruct z as [[|[a f] zs] root']; destruct fs as [|[b g] fs]; cbn; congruence. Qed.
End HtmlTree.
