(* ===== verification/HtmlProofs.v ===== *)
(** * The tree builder refines [HtmlSpec.handle]

    [building doc z P t l] is the parser at [P] in the middle of its work: it
    has read the text [t] up to [l], and has made the tree [z] with its open
    elements.  Each handler takes it from [z] to the tree that
    [HtmlSpec.handle] says; the main loop takes all of the text. *)

From S2P Require Import Sep Prelude CMem CStr Ctype Alloc DomObj Scan Dom DomTree DomSpec DomSep DomProofs Html HtmlSpec HtmlScan HtmlTree.

Section HtmlProofs.
Context {H : Type} `{LibcHeapLaws H} `{!Handlers H} `{!HtmlLib H}.
Abbreviation assn := (sprop obj).
Implicit Types (P : Z) (n : dom_node) (z : opened).
Context (inp : cstring).

(** ** The element that a start tag makes *)

(** A new element, before it is in the tree. *)
Definition new_element n (tag : Z) : Prop :=
  exists id names count anames avalues acount,
    n = n_with_attrs anames avalues acount (n_with_classes names count
          (n_with_id id (new_node DOM_NODE_TYPE_ELEMENT tag 0))).

Lemma new_element_created tag : new_element (new_node DOM_NODE_TYPE_ELEMENT tag 0) tag.
Proof using Type. by exists 0, 0, 0, 0, 0, 0. Qed.

Lemma new_element_attrs n n' tag : new_element n tag -> attrs_only n n' -> new_element n' tag.
Proof using Type.
  intros (id & cn & cc & an & av & ac & ->). unfold attrs_only.
  generalize (n_attr_names n') (n_attr_values n') (n_attr_count n'). intros x y w ->. by exists id, cn, cc, x, y, w.
Qed.

Lemma new_element_classes n n' tag : new_element n tag -> classes_only n n' -> new_element n' tag.
Proof using Type.
  intros (id & cn & cc & an & av & ac & ->). unfold classes_only.
  generalize (n_class_names n') (n_class_count n'). intros x y ->. by exists id, x, y, an, av, ac.
Qed.

Lemma new_element_id n id tag : new_element n tag -> new_element (n_with_id id n) tag.
Proof using Type. intros (id' & cn & cc & an & av & ac & ->). by exists id, cn, cc, an, av, ac. Qed.

(** What a new element is once it has its parent and its predecessor. *)
Lemma new_element_linked n tag par prev : new_element n tag ->
  let n' := n_with_prev_sibling prev (n_with_parent par n) in
  links n' par prev 0 /\ element_payload n' /\ n_first_child n' = 0 /\ n_last_child n' = 0.
Proof using Type. intros (id' & cn & cc & an & av & ac & ->). vm_compute. repeat split. Qed.

Definition fresh_element (a : Z) (tag : text) (id : option text) (attrs : list attr) (cs : list text) : assn :=
  (∃ n, ⌈a <> 0 /\ new_element n (n_tag_name n)⌉ ∗ a ↦ Node n (IsElement zero_element) ∗ str_at (n_tag_name n) tag ∗
     ostr (n_id n) id ∗ classes_at n cs ∗ attrs_at n attrs)%I.

Lemma fresh_set_attribute a tag id attrs cs name k value v (Q : unit -> assn) : short (attrs ++ [(k, v)]) ->
  fresh_element a tag id attrs cs -∗ str_at name k -∗ ostr value v -∗
  (fresh_element a tag id (set_attr k v attrs) cs -∗ str_at name k -∗ ostr value v -∗ Q tt) -∗
  swp (dom_node_set_attribute a (Ptr name) (Ptr value)) Q.
Proof using Type.
  intros Hs. iIntros "(%n & %Hn & Ha & Ht & Hi & Hc & Hl) Hk Hv HQ". destruct Hn as [Ha Hn]. rewrite (ostr_cstr value v).
  iApply (swp_set_attribute _ _ _ _ (Ptr name) k (Ptr value) v with "Ha Hl Hk Hv"); [done..|]. iIntros (n' Hn') "Ha Hl Hk Hv".
  iApply ("HQ" with "[Ha Ht Hi Hc Hl] Hk Hv"). iExists n'.
  pose proof (new_element_attrs _ _ _ Hn Hn') as Hnew.
  assert (n_tag_name n' = n_tag_name n /\ n_id n' = n_id n /\ n_class_names n' = n_class_names n /\
    n_class_count n' = n_class_count n) as (E1 & E2 & E3 & E4).
  { unfold attrs_only in Hn'. revert Hn'. generalize (n_attr_names n') (n_attr_values n') (n_attr_count n').
    intros ? ? ? ->. repeat split. }
  rewrite /classes_at E1 E2 E3 E4. iFrame. by iPureIntro.
Qed.

Lemma fresh_get_attribute a tag id attrs cs (k : text) (Q : Z -> assn) : short k ->
  fresh_element a tag id attrs cs -∗
  (∀ p, ostr p (get_attr k attrs) -∗
     (ostr p (get_attr k attrs) -∗ fresh_element a tag id attrs cs) -∗ Q p) -∗
  swp (dom_node_get_attribute a (Lit k)) Q.
Proof using Type.
  intros Hk. iIntros "(%n & %Hn & Ha & Ht & Hi & Hc & Hl) HQ". destruct Hn as [Ha Hn].
  iApply (swp_get_attribute with "Ha Hl"); [done|by iPureIntro|]. iIntros (p) "Hp Hl". iApply ("HQ" with "Hp").
  iIntros "Hp". iDestruct ("Hl" with "Hp") as "(Ha & Hl & _)". iExists n. iFrame. by iPureIntro.
Qed.

Lemma fresh_add_class a tag id attrs cs (c : text) (Q : unit -> assn) : short (cs ++ [c]) -> short c ->
  fresh_element a tag id attrs cs -∗ (fresh_element a tag id attrs (add_class c cs) -∗ Q tt) -∗
  swp (dom_node_add_class a (Lit c)) Q.
Proof using Type.
  intros Hs Hc. iIntros "(%n & %Hn & Ha & Ht & Hi & Hc & Hl) HQ". destruct Hn as [Ha Hn].
  iApply (swp_add_class with "Ha Hc"); [done|exact Hs|by iPureIntro|]. iIntros (n' Hn') "Ha Hc _".
  iApply "HQ". iExists n'. pose proof (new_element_classes _ _ _ Hn Hn') as Hnew.
  assert (n_tag_name n' = n_tag_name n /\ n_id n' = n_id n /\ n_attr_names n' = n_attr_names n /\
    n_attr_values n' = n_attr_values n /\ n_attr_count n' = n_attr_count n) as (E1 & E2 & E3 & E4 & E5).
  { unfold classes_only in Hn'. revert Hn'. generalize (n_class_names n') (n_class_count n').
    intros ? ? ->. repeat split. }
  rewrite /attrs_at E1 E2 E3 E4 E5. iFrame. by iPureIntro.
Qed.

(** ** The three parts of a new element *)

Lemma attr_arrays_slot names values count l i k v : l !! i = Some (k, v) ->
  attr_arrays names values count l ⊢
  ∃ ps pv p q, ⌈ps !! i = Some p /\ pv !! i = Some q⌉ ∗ arr names ps ∗ arr values pv ∗ str_at p k ∗ ostr q v ∗
    (arr names ps -∗ arr values pv -∗ str_at p k -∗ ostr q v -∗ attr_arrays names values count l).
Proof using Type.
  intros Hi. iIntros "[Hn Hv]".
  assert ((Some <$> l.*1) !! i = Some (Some k)) as Hk by (by rewrite !list_lookup_fmap Hi).
  assert (l.*2 !! i = Some v) as Hv by (by rewrite list_lookup_fmap Hi).
  iDestruct (names_at_slot _ _ _ i (Some k) with "Hn") as (ps p Hp) "(Ha & Hp & Hn)"; [done|].
  iDestruct (names_at_slot _ _ _ i v with "Hv") as (pv q Hq) "(Hb & Hq & Hv)"; [done|].
  iExists ps, pv, p, q. iFrame "Ha Hb Hp Hq". iSplit; [by iPureIntro|]. iIntros "Ha Hb Hp Hq". iSplitL "Hn Ha Hp".
  - by iApply (names_at_id _ _ _ i (Some k) with "Hn Ha Hp").
  - by iApply (names_at_id _ _ _ i v with "Hv Hb Hq").
Qed.

Lemma attr_arrays_length names values count l : attr_arrays names values count l ⊢
  ⌈count = Z.of_nat (length l) /\ short l⌉ ∗ attr_arrays names values count l.
Proof using Type.
  iIntros "[Hn Hv]". iDestruct (names_at_length with "Hv") as "[%Hl Hv]". iFrame. iPureIntro.
  unfold short in *. by rewrite length_fmap in Hl.
Qed.

Lemma swp_set_attributes a tag id cs t l (Q : unit -> assn) :
  fresh_element a tag id [] cs -∗ token_attrs t l -∗
  (fresh_element a tag id (element_attrs l) cs -∗ token_attrs t l -∗ Q tt) -∗
  swp (set_attributes a t) Q.
Proof using Type.
  iIntros "Ha Hl HQ". iDestruct (attr_arrays_length with "Hl") as "[%Hc Hl]". destruct Hc as [Hc Hs].
  unfold short, text_bound in Hs.
  iApply (swp_loop _ (fun m i => ∃ k, ⌈i = Z.of_nat k /\ (k <= length l)%nat /\ m = Z.of_nat (length l) - Z.of_nat k⌉ ∗
     fresh_element a tag id (element_attrs (take k l)) cs ∗ token_attrs t l ∗
     (fresh_element a tag id (element_attrs l) cs -∗ token_attrs t l -∗ Q tt))%I _ (Z.of_nat (length l))); [|lia|].
  - iIntros (m i) "(%k & %Hk & Ha & Hl & HQ)". destruct Hk as (-> & Hk & ->). rewrite Hc.
    destruct (Z.ltb_spec (Z.of_nat k) (Z.of_nat (length l))).
    + destruct (lookup_lt_is_Some_2 l k ltac:(lia)) as [[nm v] Hkl].
      iDestruct (attr_arrays_slot _ _ _ _ k with "Hl") as (ps pv p q Hpq) "(Hps & Hpv & Hp & Hq & Hl)"; [done|].
      destruct Hpq as [Hp Hq].
      iApply swp_bind. iApply (swp_arr_slot with "Hps"); [done|]. iIntros "Hps".
      iApply swp_bind. iApply (swp_arr_slot with "Hpv"); [done|]. iIntros "Hpv".
      iApply swp_bind. iApply (fresh_set_attribute with "Ha Hp Hq").
      { unfold short, text_bound. rewrite length_app /=. pose proof (element_attrs_length (take k l)) as He.
        rewrite length_take in He. lia. }
      iIntros "Ha Hp Hq". iDestruct ("Hl" with "Hps Hpv Hp Hq") as "Hl". iApply swp_ret. cbn [sturn].
      iExists (Z.of_nat (length l) - Z.of_nat (S k)). iSplit; [iPureIntro; lia|]. iExists (S k).
      rewrite (take_S_r l k (nm, v)) // element_attrs_snoc. iFrame. iPureIntro. rewrite wrap_small; lia.
    + iApply swp_ret. cbn [sturn]. assert (k = length l) as -> by lia. rewrite firstn_all.
      iApply ("HQ" with "Ha Hl").
  - iExists 0%nat. rewrite take_0. iFrame. iPureIntro. lia.
Qed.

Lemma swp_set_id a tag attrs cs (Q : unit -> assn) :
  fresh_element a tag None attrs cs -∗ (fresh_element a tag (element_id attrs) attrs cs -∗ Q tt) -∗
  swp (set_id a) Q.
Proof using Type.
  iIntros "Ha HQ". unfold set_id, element_id. iApply swp_bind. iApply (fresh_get_attribute with "Ha"); [done|].
  iIntros (p) "Hp Ha". destruct (get_attr (chars "id") attrs) as [v|]; cbn [ostr].
  - iDestruct (str_at_pure with "Hp") as "[%Hp Hp]". rewrite (proj2 (Z.eqb_neq p 0)); [|tauto]. cbn [negb].
    iApply swp_bind. iApply (swp_strdup (Ptr p) with "Hp"). iIntros (q) "Hp Hq".
    iDestruct ("Ha" with "Hp") as (n) "(%Hn & Ha & Ht & _ & Hc & Hl)". destruct Hn as [Ha Hn].
    iApply (swp_upd_node with "Ha"). iIntros "Ha". iApply "HQ". iExists (n_with_id q n). iFrame "Ha Hc Hl Ht Hq".
    iPureIntro. split; [done|]. by apply new_element_id.
  - iDestruct "Hp" as %->. cbn [Z.eqb negb]. iApply swp_ret. iApply "HQ". by iApply "Ha".
Qed.

Lemma swp_add_classes a tag id attrs cs (v : text) (Q : unit -> assn) : short v -> (length cs = 0)%nat ->
  fresh_element a tag id attrs cs -∗
  (fresh_element a tag id attrs (add_words (words (S (length v)) v) cs) -∗ Q tt) -∗
  swp (add_classes a v) Q.
Proof using Type.
  intros Hv Hcs. iIntros "Ha HQ". unfold add_classes. set (all := words (S (length v)) v).
  assert (Z.of_nat (length all) < 2 ^ 60) as Hall
    by (pose proof (words_length (S (length v)) v) as Hwl; fold all in Hwl; unfold short, text_bound in Hv; lia).
  pose proof (strtok_words (Some v)) as Hw. destruct (strtok_space (Some v)) as [tok save]. cbv match beta.
  set (left := fun (x : option text * option text) => match x with (Some w, s) => w :: words_of s | (None, _) => [] end).
  set (fits := fun (x : option text * option text) => match x with (o, s) =>
    (forall w, o = Some w -> (length w <= length v)%nat) /\ (forall l, s = Some l -> (length l <= length v)%nat) end).
  assert (left (tok, save) = all /\ (fits (tok, save) \/ tok = None)) as [Hleft Hfits].
  { destruct tok as [w|]; [|by split; [|right]]. destruct Hw as [Hw1 Hw2]. split; [exact (eq_sym Hw1)|left].
    destruct (Hw2 v eq_refl). split; [by intros ? [= <-]|done]. }
  iApply (swp_loop _ (fun m x => ∃ done, ⌈m = Z.of_nat (length (left x)) /\ all = done ++ left x /\ (fits x \/ x.1 = None)⌉ ∗
     fresh_element a tag id attrs (add_words done cs) ∗
     (fresh_element a tag id attrs (add_words all cs) -∗ Q tt))%I _ (Z.of_nat (length all))); [|lia|].
  - iIntros (m [[w|] s]) "(%done & %Hx & Ha & HQ)"; destruct Hx as (-> & Hd & Hf).
    + destruct Hf as [[Hf1 Hf2]|]; [|done]. iApply swp_bind. iApply (fresh_add_class with "Ha").
      { unfold short, text_bound. rewrite length_app /=.
        pose proof (add_words_length done cs) as Hlen.
        apply (f_equal length) in Hd. rewrite length_app /= in Hd. lia. }
      { specialize (Hf1 w eq_refl). unfold short, text_bound in *. lia. }
      iIntros "Ha". pose proof (strtok_words s) as Hs. destruct (strtok_space s) as [tok' save']. iApply swp_ret. cbn [sturn].
      assert (words_of s = left (tok', save')) as Hws by (by destruct tok'; [destruct Hs|]).
      iExists (Z.of_nat (length (left (tok', save')))). iSplit; [iPureIntro; change (left (Some w, s)) with (w :: words_of s); rewrite Hws; cbn [length]; lia|].
      iExists (done ++ [w]). rewrite /add_words foldl_app. iFrame. iPureIntro. split; [done|]. split.
      { rewrite Hd -assoc_L -Hws //. }
      destruct tok' as [w'|]; [left|by right]. destruct Hs as [_ Hs]. destruct s as [l|]; [|done].
      specialize (Hf2 l eq_refl). destruct (Hs l eq_refl) as [Hs1 Hs2]. split; [intros ? [= <-]; lia|].
      intros l' Hl'. specialize (Hs2 l' Hl'). lia.
    + iApply swp_ret. cbn [sturn]. change (left (None, s)) with (@nil text) in Hd. rewrite app_nil_r in Hd. rewrite Hd. by iApply "HQ".
  - iExists []. rewrite Hleft. iFrame. iPureIntro. done.
Qed.

Lemma swp_set_class a tag id attrs (Q : unit -> assn) :
  fresh_element a tag id attrs [] -∗ (fresh_element a tag id attrs (element_classes attrs) -∗ Q tt) -∗
  swp (set_class a) Q.
Proof using Type.
  iIntros "Ha HQ". unfold set_class, element_classes. iApply swp_bind. iApply (fresh_get_attribute with "Ha"); [done|].
  iIntros (p) "Hp Ha". destruct (get_attr (chars "class") attrs) as [v|]; cbn [ostr].
  - iDestruct (str_at_pure with "Hp") as "[%Hp Hp]". rewrite (proj2 (Z.eqb_neq p 0)); [|tauto]. cbn [negb].
    iApply swp_bind. iApply (swp_strdup (Ptr p) with "Hp"). iIntros (q) "Hp Hq". iDestruct ("Ha" with "Hp") as "Ha".
    iApply swp_bind. iApply (swp_get_str (Ptr q) with "Hq"). iIntros "Hq".
    iApply swp_bind. iApply (swp_add_classes with "Ha"); [tauto|done|]. iIntros "Ha".
    iApply (swp_free_ostr q (Some v) with "Hq"). by iApply "HQ".
  - iDestruct "Hp" as %->. cbn [Z.eqb negb]. iApply swp_ret. iApply "HQ". by iApply "Ha".
Qed.

(** ** The parser between tokens *)

Definition building (doc : Z) z P (t l : text) : assn :=
  (∃ p, ⌈p_document p = doc /\ p_current_node p = addr_of doc z /\ p_input p = inp⌉ ∗ reading P p t l ∗ opened_at doc z)%I.

(** An update of the fields that the tokenizer does not use. *)
Definition keeps_input (f : html_parser -> html_parser) : Prop :=
  forall p k, f (p_with_position k p) = p_with_position k (f p) /\ p_input (f p) = p_input p /\ p_length (f p) = p_length p.

Lemma r_upd P (p : html_parser) (t l : text) f (Q : unit -> assn) : keeps_input f ->
  reading P p t l -∗ (reading P (f p) t l -∗ Q tt) -∗ swp (upd_parser P f) Q.
Proof using Type.
  intros Hf. iIntros "(%k & %Hk & %Hr & HP & Hi) HQ". iApply (swp_upd_parser with "HP"). iIntros "HP". iApply "HQ".
  destruct (Hf p (Z.of_nat k)) as (-> & Ei & El). iExists k. iSplit; [by iPureIntro|]. rewrite /reader Ei El.
  iFrame. by iPureIntro.
Qed.

Lemma r_get P (p : html_parser) (t l : text) (Q : html_parser -> assn) :
  reading P p t l -∗ (∀ k, reading P p t l -∗ Q (p_with_position k p)) -∗ swp (get_parser P) Q.
Proof using Type.
  iIntros "(%k & %Hk & Hr) HQ". iApply (swp_reader_get with "Hr"). iIntros "Hr". iApply "HQ". iExists k. by iFrame.
Qed.

(** The elements of the document that have a field of their own. *)
Lemma swp_special_start P p (t l : text) doc fs root pv c lst a name (Q : unit -> assn) : p_document p = doc ->
  reading P p t l -∗ open_at doc fs root pv c lst -∗
  (∀ p', ⌈p_document p' = doc /\ p_current_node p' = p_current_node p /\ p_input p' = p_input p⌉ -∗
     reading P p' t l -∗ open_at doc fs root pv c lst -∗ Q tt) -∗
  swp (html_handle_special_start P a name) Q.
Proof using Type.
  intros Hd. iIntros "Hr Ho HQ". unfold html_handle_special_start. iApply swp_bind. iApply (r_get with "Hr").
  iIntros (k) "Hr". cbn [p_document p_with_position]. rewrite Hd.
  assert (forall f (R : unit -> assn), open_at doc fs root pv c lst -∗ (open_at doc fs root pv c lst -∗ R tt) -∗
    swp (upd_html_document doc f) R) as Hdoc.
  { intros f R. iIntros "Ho HR". iDestruct (open_document with "Ho") as (n d h) "(_ & Hd & Ho)". iApply swp_bind.
    iApply (swp_get_ext with "Hd"). iIntros "Hd". iApply (swp_put_ext with "Hd"). iIntros "Hd". iApply "HR".
    by iApply "Ho". }
  assert (forall f, keeps_input f -> p_document (f p) = doc /\ p_current_node (f p) = p_current_node p /\ p_input (f p) = p_input p ->
    reading P p t l -∗ open_at doc fs root pv c lst -∗
    (∀ p', ⌈p_document p' = doc /\ p_current_node p' = p_current_node p /\ p_input p' = p_input p⌉ -∗
     reading P p' t l -∗ open_at doc fs root pv c lst -∗ Q tt) -∗ swp (upd_parser P f) Q) as Hupd.
  { intros f Hf Hp. iIntros "Hr Ho HQ". iApply (r_upd with "Hr"); [done|]. iIntros "Hr". by iApply ("HQ" with "[//] Hr Ho"). }
  destruct (same_name name (chars "html")).
  { iApply swp_bind. iApply (Hdoc with "Ho"). iIntros "Ho". by iApply (Hupd with "Hr Ho HQ"). }
  destruct (same_name name (chars "head")).
  { iApply swp_bind. iApply (Hdoc with "Ho"). iIntros "Ho". by iApply (Hupd with "Hr Ho HQ"). }
  destruct (same_name name (chars "body")).
  { iApply swp_bind. iApply (Hdoc with "Ho"). iIntros "Ho". by iApply (Hupd with "Hr Ho HQ"). }
  destruct (same_name name (chars "script")); [by iApply (Hupd with "Hr Ho HQ")|].
  destruct (same_name name (chars "style")); [by iApply (Hupd with "Hr Ho HQ")|].
  iApply swp_ret. by iApply ("HQ" $! p with "[] Hr Ho").
Qed.

Lemma swp_special_end P p (t l : text) doc a name (Q : unit -> assn) :
  p_document p = doc /\ p_current_node p = a /\ p_input p = inp ->
  reading P p t l -∗
  (∀ p', ⌈p_document p' = doc /\ p_current_node p' = a /\ p_input p' = inp⌉ -∗ reading P p' t l -∗ Q tt) -∗
  swp (html_handle_special_end P name) Q.
Proof using Type.
  intros Hp. iIntros "Hr HQ". unfold html_handle_special_end.
  assert (forall f, keeps_input f -> p_document (f p) = doc /\ p_current_node (f p) = a /\ p_input (f p) = inp ->
    reading P p t l -∗ (∀ p', ⌈p_document p' = doc /\ p_current_node p' = a /\ p_input p' = inp⌉ -∗ reading P p' t l -∗ Q tt) -∗
    swp (upd_parser P f) Q) as Hupd.
  { intros f Hf Hp'. iIntros "Hr HQ". iApply (r_upd with "Hr"); [done|]. iIntros "Hr". by iApply ("HQ" with "[//] Hr"). }
  repeat (destruct (same_name name _); [by iApply (Hupd with "Hr HQ")|]).
  iApply swp_ret. by iApply ("HQ" $! p with "[] Hr").
Qed.

(** ** Start tags *)

Lemma fresh_appended doc z last a tag A : addr_of doc z <> 0 ->
  (∃ n, ⌈a <> 0 /\ new_element n (n_tag_name n)⌉ ∗
     a ↦ Node (n_with_prev_sibling last (n_with_parent (addr_of doc z) n)) (IsElement zero_element) ∗
     str_at (n_tag_name n) tag ∗ ostr (n_id n) (element_id A) ∗ classes_at n (element_classes A) ∗ attrs_at n A) ⊢
  ∃ n, ⌈a <> 0 /\ links n (addr_of doc z) last 0 /\ element_payload n /\ n_first_child n = 0 /\ n_last_child n = 0⌉ ∗
     a ↦ Node n (IsElement zero_element) ∗ element_owned n tag A.
Proof using Type.
  intros Hz. iIntros "(%n & %Hn & Ha & Ht & Hi & Hc & Hl)". destruct Hn as [Ha Hn].
  destruct (new_element_linked n _ (addr_of doc z) last Hn) as (H1' & H2' & H3' & H4').
  iExists _. iFrame "Ha". iSplit; [by iPureIntro|]. unfold element_owned.
  iFrame "Ht Hi". iFrame.
Qed.

Lemma building_current doc z P (t l : text) : building doc z P t l ⊢
  ⌈addr_of doc z <> 0⌉ ∗ building doc z P t l.
Proof using Type.
  iIntros "(%p & %Hp & Hr & %last & Ho)". iDestruct (open_top with "Ho") as (n e) "(%Hn & Ha & Hk & Ho)".
  iSplit; [iPureIntro; tauto|]. iExists p. iFrame "Hr". iSplit; [by iPureIntro|]. iExists last.
  iDestruct ("Ho" $! (n_first_child n) (n_last_child n) with "[Ha] Hk") as "Ho"; [by destruct n|].
  destruct Hn as [_ <-]. by destruct z as [[|[a [[tag attrs] ks]] fs] root].
Qed.

Lemma swp_is_void a (name : text) (Q : bool -> assn) :
  str_at a name -∗ (str_at a name -∗ Q (is_void name)) -∗ swp (html_is_void_element (Ptr a)) Q.
Proof using Type.
  iIntros "Ha HQ". unfold html_is_void_element. iDestruct (cstr_not_null (Ptr a) with "Ha") as "[%Hnn Ha]". rewrite Hnn.
  iApply swp_bind. iApply (swp_get_str (Ptr a) with "Ha"). iIntros "Ha". iApply swp_ret. by iApply "HQ".
Qed.

Lemma swp_start_tag doc z P (t l : text) a tk name (Q : unit -> assn) :
  k_type tk = HTML_TOKEN_START_TAG -> k_name tk = Some name ->
  building doc z P t l -∗ token_at a tk -∗
  (∀ z', ⌈to_stack z' = handle tk (to_stack z)⌉ -∗ building doc z' P t l -∗ token_at a tk -∗ Q tt) -∗
  swp (html_handle_start_tag P a) Q.
Proof using Type.
  intros Hty Hname. iIntros "Hb (%h & %Hh & Ha & Hn & Hat & Hd) HQ". rewrite Hname. cbn [ostr].
  destruct Hh as (Ha0 & Hht & Hself). unfold handle in *. rewrite Hty Hname.
  iDestruct (building_current with "Hb") as "[%Hz Hb]".
  iApply swp_bind. iApply (swp_get_token with "Ha"). iIntros "Ha".
  iApply swp_bind. iApply (swp_element_create (Ptr (t_tag_name h)) with "Hn"). iIntros (c tagp Hc) "Hc Hct Hn".
  rewrite (proj2 (Z.eqb_neq c 0) Hc). set (A := element_attrs (k_attrs tk)).
  iApply swp_bind. iApply (swp_set_attributes c name None [] with "[Hc Hct] Hat").
  { iExists _. iFrame "Hc Hct". iSplit; [iPureIntro; split; [done|apply new_element_created]|].
    iSplitR; [by iPureIntro|]. iSplitR; [iApply names_at_nil|]. iSplitL; iApply names_at_nil. }
  iIntros "Hc Hat". iApply swp_bind. iApply (swp_set_id with "Hc"). iIntros "Hc".
  iApply swp_bind. iApply (swp_set_class with "Hc"). iIntros "(%n & %Hne & Hc & Hct & Hci & Hcc & Hca)".
  iDestruct "Hb" as "(%p & %Hp & Hr & %last & Ho)". destruct Hp as (Hpd & Hpc & Hpi).
  iApply swp_bind. iApply (r_get with "Hr"). iIntros (k) "Hr". cbn [p_current_node p_with_position]. rewrite Hpc.
  iApply swp_bind. iApply (swp_append_open with "Ho Hc"); [done|..].
  { destruct Hne as [_ (? & ? & ? & ? & ? & ? & ->)]. by vm_compute. }
  iIntros "Ho Hc". iDestruct (fresh_appended doc z last c name A with "[Hc Hct Hci Hcc Hca]") as (n') "(%Hn' & Hc & Hown)"; [done| |].
  { iExists n. iFrame. by iPureIntro. }
  iApply swp_bind. iApply (swp_get_str (Ptr (t_tag_name h)) with "Hn"). iIntros "Hn".
  iApply swp_bind. iApply (swp_special_start with "Hr Ho"); [done|]. iIntros (p' Hp') "Hr Ho".
  destruct Hp' as (Hpd' & Hpc' & Hpi'). rewrite Hpc in Hpc'. rewrite Hpi in Hpi'.
  iApply swp_bind. iApply (swp_wand _ (fun b => ⌈b = k_self tk || is_void name⌉ ∗ str_at (t_tag_name h) name)%I with "[Hn]").
  { rewrite Hself. destruct (k_self tk); [iApply swp_ret; by iFrame|]. iApply (swp_is_void with "Hn").
    iIntros "Hn". by iFrame. }
  iIntros (b) "[%Hb Hn]". subst b.
  iAssert (token_at a tk) with "[Ha Hn Hat Hd]" as "Ht".
  { iExists h. rewrite Hname. iFrame. by iPureIntro. }
  destruct Hn' as (_ & Hl & Hpay & Hf & Hla).
  destruct (k_self tk || is_void name).
  - iApply swp_ret. iApply ("HQ" $! (set_kids (top_kids (to_stack z) ++ [Elem name A []]) z) with "[] [Hr Ho Hc Hown] Ht").
    + iPureIntro. by apply set_kids_stack.
    + iExists p'. iFrame "Hr". iSplit; [|iExists c; iApply (open_add _ z last c (Elem name A [])); iFrame "Ho"].
      * iPureIntro. by rewrite set_kids_addr.
      * cbn [tree_at]. iExists n'. iFrame "Hc Hown". iSplit; [by iPureIntro|]. cbn. by rewrite Hf Hla.
  - iApply (r_upd with "Hr"); [done|]. iIntros "Hr".
    iApply ("HQ" $! ((c, (name, A, [])) :: z.1, z.2) with "[//] [Hr Ho Hc Hown] Ht").
    iExists _. iFrame "Hr". iSplit; [by iPureIntro|]. iExists 0. iApply (open_push with "[$Ho $Hc $Hown]"); done.
Qed.

(** ** End tags *)

Lemma swp_has_type ty a n e (Q : bool -> assn) : a <> 0 ->
  a ↦ Node n e -∗ (a ↦ Node n e -∗ Q (bool_decide (n_type n = ty))) -∗ swp (dom_node_has_type ty a) Q.
Proof using Type.
  intros Ha. iIntros "Ha HQ". unfold dom_node_has_type. rewrite (proj2 (Z.eqb_neq a 0) Ha).
  iApply swp_bind. iApply (swp_get_node with "Ha"). iIntros "Ha". iApply swp_ret. by iApply "HQ".
Qed.

Definition close (name : text) (z : stack) : stack :=
  match find_open name z.1 with Some i => pops (S i) z | None => z end.

Lemma swp_close_element doc z P (t l : text) tagp name (Q : unit -> assn) : (length z.1 < 2 ^ 60)%Z ->
  building doc z P t l -∗ str_at tagp name -∗
  (∀ z', ⌈to_stack z' = close name (to_stack z)⌉ -∗ building doc z' P t l -∗ str_at tagp name -∗ Q tt) -∗
  swp (close_element P tagp) Q.
Proof using Type.
  intros Hlen. iIntros "(%p & %Hp & Hr & %last & Ho) Hn HQ". destruct Hp as (Hpd & Hpc & Hpi). unfold close_element.
  iApply swp_bind. iApply (r_get with "Hr"). iIntros (pos) "Hr". cbn [p_document p_current_node p_with_position].
  rewrite Hpd Hpc.
  iApply (swp_loop _ (fun m cur => ∃ k, ⌈cur = addr_of doc (drop k z.1, z.2) /\ (k <= length z.1)%nat /\
      m = Z.of_nat (length z.1) - Z.of_nat k /\
      find_open name (to_stack z).1 = Nat.add k <$> find_open name (drop k (to_stack z).1)⌉ ∗
    reading P p t l ∗ open_at doc z.1 z.2 last 0 last ∗ str_at tagp name ∗
    (∀ z', ⌈to_stack z' = close name (to_stack z)⌉ -∗ building doc z' P t l -∗ str_at tagp name -∗ Q tt))%I
    _ (Z.of_nat (length z.1))); [|lia|].
  - iIntros (m cur) "(%k & %Hk & Hr & Ho & Hn & HQ)". destruct Hk as (-> & Hk & -> & Hf).
    iDestruct (open_addr doc k z with "Ho") as "[%Hz Ho]". rewrite (proj2 (Z.eqb_neq _ 0) Hz). cbn [negb andb].
    destruct (drop_cases z.1 k Hk) as [[-> Hd]|([a [[tag attrs] ks]] & Hzk & Hd)]; rewrite Hd; cbn [addr_of fst snd].
    + rewrite Z.eqb_refl. cbn [negb]. iApply swp_ret. cbn [sturn].
      iApply ("HQ" $! z with "[] [Hr Ho] Hn"); [|iExists p; iFrame; by iPureIntro].
      iPureIntro. unfold close. rewrite Hf. unfold to_stack. cbn [fst]. by rewrite -fmap_drop Hd.
    + iDestruct (open_frame_not_doc _ _ _ k with "Ho") as "[%Hne Ho]"; [done|]. cbn in Hne.
      rewrite (proj2 (Z.eqb_neq a doc) Hne). cbn [negb].
      iDestruct (open_frame _ _ _ _ _ _ _ _ _ _ _ Hzk with "Ho") as (n e) "(%Hn & Ha & Ht & Ho)".
      destruct Hn as (Ha & Hty & Hpar).
      iApply swp_bind. iApply (swp_has_type with "Ha"); [done|]. iIntros "Ha". rewrite bool_decide_eq_true_2 //.
      iApply swp_bind. iApply (swp_get_node with "Ha"). iIntros "Ha".
      iApply swp_bind. iApply swp_bind. iApply (swp_get_str (Ptr (n_tag_name n)) with "Ht"). iIntros "Ht".
      iApply swp_bind. iApply (swp_get_str (Ptr tagp) with "Hn"). iIntros "Hn". iApply swp_ret.
      iDestruct ("Ho" with "Ha Ht") as "Ho".
      assert (drop k (to_stack z).1 = (tag, attrs, ks) :: drop (S k) (to_stack z).1) as Hdk.
      { unfold to_stack. cbn [fst]. by rewrite -!fmap_drop Hd. }
      rewrite Hdk find_open_cons in Hf. cbn [fst] in Hf. destruct (same_name tag name).
      * iDestruct (open_addr doc (S k) z with "Ho") as "[%Hz' Ho]". rewrite Hpar (proj2 (Z.eqb_neq _ 0) Hz'). cbn [negb].
        iApply swp_bind. iApply (r_upd with "Hr"); [done|]. iIntros "Hr". iApply swp_ret. cbn [sturn].
        iDestruct (opened_pops doc (S k) z with "[Ho]") as (z') "[%Hz'' Ho]";
          [by apply lookup_lt_Some in Hzk|iExists last; iExact "Ho"|]. destruct Hz'' as [Hs Hfs].
        iApply ("HQ" $! z' with "[] [Hr Ho] Hn").
        { iPureIntro. unfold close. rewrite Hf Hs. cbn. by rewrite Nat.add_0_r. }
        iExists _. iFrame "Hr Ho". iPureIntro. split; [done|]. cbn.
        rewrite (addr_of_firsts doc z' (drop (S k) z.1) z.2) // Hfs. by rewrite fmap_drop.
      * iApply swp_ret. cbn [sturn]. iExists (Z.of_nat (length z.1) - Z.of_nat (S k)).
        apply lookup_lt_Some in Hzk. iSplit; [iPureIntro; lia|]. iExists (S k). iFrame. iPureIntro.
        split; [done|]. split; [lia|]. split; [done|]. rewrite Hf.
        by destruct (find_open name (drop (S k) (to_stack z).1)); cbn; [f_equal; lia|].
  - iExists 0%nat. iFrame "Hr Ho Hn HQ". iPureIntro. rewrite !drop_0. split; [by destruct z|]. split; [lia|]. split; [lia|].
    by destruct (find_open name _).
Qed.

Lemma swp_end_tag doc z P (t l : text) a tk name (Q : unit -> assn) : (length z.1 < 2 ^ 60)%Z ->
  k_type tk = HTML_TOKEN_END_TAG -> k_name tk = Some name ->
  building doc z P t l -∗ token_at a tk -∗
  (∀ z', ⌈to_stack z' = handle tk (to_stack z)⌉ -∗ building doc z' P t l -∗ token_at a tk -∗ Q tt) -∗
  swp (html_handle_end_tag P a) Q.
Proof using Type.
  intros Hlen Hty Hname. iIntros "Hb (%h & %Hh & Ha & Hn & Hat & Hd) HQ". rewrite Hname. cbn [ostr].
  unfold handle in *. rewrite Hty Hname.
  iApply swp_bind. iApply (swp_get_token with "Ha"). iIntros "Ha".
  iApply swp_bind. iApply (swp_close_element with "Hb Hn"); [done|]. iIntros (z' Hz') "(%p & %Hp & Hr & Ho) Hn".
  iApply swp_bind. iApply (swp_get_str (Ptr (t_tag_name h)) with "Hn"). iIntros "Hn".
  iApply (swp_special_end with "Hr"); [done|]. iIntros (p' Hp') "Hr".
  iApply ("HQ" $! z' with "[//] [Hr Ho]"); [iExists p'; iFrame; by iPureIntro|].
  iExists h. rewrite Hname. iFrame. by iPureIntro.
Qed.

(** ** Text *)

Lemma swp_text doc z P (t l : text) a tk d (Q : unit -> assn) :
  k_type tk = HTML_TOKEN_TEXT -> k_data tk = Some d ->
  building doc z P t l -∗ token_at a tk -∗
  (∀ z', ⌈to_stack z' = handle tk (to_stack z)⌉ -∗ building doc z' P t l -∗ token_at a tk -∗ Q tt) -∗
  swp (html_handle_text P a) Q.
Proof using Type.
  intros Hty Hdata. iIntros "Hb (%h & %Hh & Ha & Hn & Hat & Hd) HQ". rewrite Hdata. cbn [ostr].
  assert (handle tk (to_stack z) = if decide (d = []) then to_stack z else add_tree (Txt d) (to_stack z)) as ->.
  { unfold handle. rewrite Hty Hdata. by destruct (k_name tk). }
  iDestruct (building_current with "Hb") as "[%Hz Hb]". iDestruct (str_at_pure with "Hd") as "[%Hd0 Hd]".
  iApply swp_bind. iApply (swp_get_token with "Ha"). iIntros "Ha". rewrite (proj2 (Z.eqb_neq _ 0) (proj1 Hd0)).
  iApply swp_bind. iApply swp_bind. iApply (swp_get_str (Ptr (t_data h)) with "Hd"). iIntros "Hd". iApply swp_ret.
  iAssert (str_at (t_data h) d -∗ token_at a tk)%I with "[Ha Hn Hat]" as "Ht".
  { iIntros "Hd". iExists h. rewrite Hdata. iFrame. by iPureIntro. }
  case_bool_decide as Hde.
  { rewrite decide_True //. iApply swp_ret. iApply ("HQ" $! z with "[//] Hb"). by iApply "Ht". }
  rewrite decide_False //.
  iApply swp_bind. iApply (swp_text_create (Ptr (t_data h)) with "Hd"). iIntros (c dp q Hc) "Hc Hdp Hq Hd".
  rewrite (proj2 (Z.eqb_neq c 0) Hc). iDestruct "Hb" as "(%p & %Hp & Hr & %last & Ho)". destruct Hp as (Hpd & Hpc & Hpi).
  iApply swp_bind. iApply (r_get with "Hr"). iIntros (k) "Hr". cbn [p_current_node p_with_position]. rewrite Hpc.
  iApply (swp_append_open with "Ho Hc"); [done|done|]. iIntros "Ho Hc".
  iApply ("HQ" $! (set_kids (top_kids (to_stack z) ++ [Txt d]) z) with "[] [Hr Ho Hc Hdp Hq]").
  - iPureIntro. by apply set_kids_stack.
  - iExists p. iFrame "Hr". iSplit; [iPureIntro; by rewrite set_kids_addr|]. iExists c.
    iApply (open_add _ z last c (Txt d)). iFrame "Ho". cbn [tree_at]. iExists _, dp. iFrame "Hc Hdp Hq". by iPureIntro.
  - by iApply "Ht".
Qed.

(** ** All tokens *)

Lemma swp_free_token a tk (Q : unit -> assn) : token_at a tk -∗ Q tt -∗ swp (free_token a) Q.
Proof using Type.
  iIntros "(%h & %Hh & Ha & Hn & Hat & Hd) HQ". destruct Hh as (Ha & _ & _).
  iApply swp_bind. iApply (swp_get_token with "Ha"). iIntros "Ha".
  iApply swp_bind. iApply (swp_free_ostr with "Hn"). iApply swp_bind. iApply (swp_free_ostr with "Hd").
  iApply swp_bind. iApply (swp_free_attrs with "Hat"). iApply swp_free; [done|]. iFrame.
Qed.

Lemma swp_handle_token doc z P (t l l0 : text) a tk (Q : unit -> assn) : (length z.1 < 2 ^ 60)%Z ->
  scan l0 = Some (tk, l) ->
  building doc z P t l -∗ token_at a tk -∗
  (∀ z', ⌈to_stack z' = handle tk (to_stack z)⌉ -∗ building doc z' P t l -∗ token_at a tk -∗ Q tt) -∗
  swp (match k_type tk with
       | HTML_TOKEN_START_TAG => html_handle_start_tag P a
       | HTML_TOKEN_END_TAG => html_handle_end_tag P a
       | HTML_TOKEN_TEXT => html_handle_text P a
       | _ => ret tt
       end) Q.
Proof using Type.
  intros Hlen Hscan%scan_shape. iIntros "Hb Ht HQ". destruct (k_type tk) eqn:E.
  all: try (iApply swp_ret; iApply ("HQ" $! z with "[] Hb Ht"); iPureIntro; unfold handle; rewrite E;
            by destruct (k_name tk), (k_data tk)).
  - destruct Hscan as [name Hname]. by iApply (swp_start_tag with "Hb Ht HQ").
  - destruct Hscan as [name Hname]. by iApply (swp_end_tag with "Hb Ht HQ").
  - destruct Hscan as [d Hd]. by iApply (swp_text with "Hb Ht HQ").
Qed.

(** The main loop: the tree builder is [tree_of]. *)
Lemma swp_build_loop doc z P (t l : text) (Q : Z -> assn) : P <> 0 -> short t -> length z.1 = 0%nat -> l = t ->
  building doc z P t l -∗
  (∀ z' r, ⌈to_stack z' = tree_of (S (length l)) l (to_stack z) /\ (length z'.1 < 2 ^ 60)%Z⌉ -∗ building doc z' P t r -∗ Q doc) -∗
  swp (loop (fun _ =>
      let* token := html_parser_next_token P in
      if negb (token =? 0) then
        let* t := get_token token in
        match t_type t with
        | HTML_TOKEN_START_TAG => html_handle_start_tag P token
        | HTML_TOKEN_END_TAG => html_handle_end_tag P token
        | HTML_TOKEN_TEXT => html_handle_text P token
        | _ => ret tt
        end ;;
        free_token token ;;
        ret (Next tt)
      else ret (Done tt)) tt ;;
    ret doc) Q.
Proof using Type.
  intros HP Hs Hz0 Hl. iIntros "Hb HQ". iApply swp_bind. unfold short, text_bound in Hs.
  iApply (swp_loop _ (fun m _ => ∃ z1 l1, ⌈m = Z.of_nat (length l1) /\ (length z1.1 + length l1 <= length t)%nat /\
      tree_of (S (length l)) l (to_stack z) = tree_of (S (length l1)) l1 (to_stack z1)⌉ ∗ building doc z1 P t l1 ∗
    (∀ z' r, ⌈to_stack z' = tree_of (S (length l)) l (to_stack z) /\ (length z'.1 < 2 ^ 60)%Z⌉ -∗ building doc z' P t r -∗ Q doc))%I
    _ (Z.of_nat (length l))); [|subst l; lia|iExists z, l; iFrame; iPureIntro; subst l; split; [done|]; split; [lia|done]].
  iIntros (m []) "(%z1 & %l1 & %Hm & (%p & %Hp & Hr & Ho) & HQ)". destruct Hm as (-> & Hlen & Htree).
  assert (Z.of_nat (length z1.1) < 2 ^ 60) as Hz1 by lia.
  change (tree_of (S (length l1)) l1 (to_stack z1)) with
    (match scan l1 with Some (tk, r) => tree_of (length l1) r (handle tk (to_stack z1)) | None => to_stack z1 end) in Htree.
  iApply swp_bind. iApply (r_next_token with "Hr"); [done|]. destruct (scan l1) as [[tk r]|] eqn:Escan.
  - iIntros (a) "Hr Ht". iDestruct "Ht" as (h) "(%Hh & Ha & Ht)". destruct Hh as (Ha & Hty & Hself).
    rewrite (proj2 (Z.eqb_neq a 0) Ha). cbn [negb]. iApply swp_bind. iApply (swp_get_token with "Ha"). iIntros "Ha".
    rewrite Hty. iApply swp_bind.
    iApply (swp_handle_token doc z1 P t r l1 a tk with "[Hr Ho] [Ha Ht]"); [done|done|iExists p; by iFrame|iExists h; by iFrame|].
    iIntros (z') "%Hz' Hb Ht". iApply swp_bind. iApply (swp_free_token with "Ht"). iApply swp_ret. cbn [sturn].
    apply scan_length in Escan. iExists (Z.of_nat (length r)). iSplit; [iPureIntro; lia|]. iExists z', r. iFrame.
    iPureIntro. split; [done|]. split.
    + pose proof (handle_length tk (to_stack z1)) as Hh. rewrite -Hz' in Hh. unfold to_stack in Hh. cbn [fst] in Hh.
      rewrite !length_fmap in Hh. lia.
    + rewrite Htree Hz'. apply tree_of_fuel; lia.
  - iIntros (r) "Hr". cbn [Z.eqb negb]. iApply swp_ret. cbn [sturn]. iApply swp_ret.
    iApply ("HQ" $! z1 r); [by iPureIntro|]. iExists p. iFrame. by iPureIntro.
Qed.
End HtmlProofs.

(** ** The whole parser *)

(** What is relied on of [html_document_create]: an empty document comes
    back.  [document_owned] is what else belongs to it. *)
Class HtmlLibLaws (H : Type) `{LibcHeapLaws H} `{!Handlers H} `{!HtmlLib H} : Type := {
  document_owned : dom_document -> html_document -> sprop obj;
  document_law : forall url (Q : Z -> sprop obj),
    (∀ a n d h, ⌈a <> 0 /\ links n 0 0 0 /\ n_first_child n = 0 /\ n_last_child n = 0⌉ -∗
       a ↦ Node n (IsHtmlDocument d h) -∗ document_owned d h -∗ Q a) ⊢ swp (html_document_create url) Q;
}.

Section Parse.
Context {H : Type} `{HtmlLibLaws H}.
Abbreviation assn := (sprop obj).

(** The document at [doc] with the children [ts], and all that it owns. *)
Definition document_at (doc : Z) (ts : list tree) : assn :=
  (∃ n d h d0 h0, ⌈doc <> 0 /\ links n 0 0 0⌉ ∗ doc ↦ Node n (IsHtmlDocument d h) ∗
     kids doc ts 0 (n_first_child n) (n_last_child n) 0 ∗ document_owned d0 h0)%I.

Lemma swp_parse (P a : Z) (p : html_parser) (t : text) (Q : Z -> assn) : P <> 0 ->
  P ↦ Parser p -∗ str_at a t -∗
  (∀ doc p', P ↦ Parser p' -∗ str_at a t -∗ document_at doc (html_tree t) -∗ Q doc) -∗
  swp (html_parser_parse P (Ptr a)) Q.
Proof using Type.
  intros HP. iIntros "HP Ha HQ". unfold html_parser_parse. iDestruct (str_at_pure with "Ha") as "[%Ha Ha]".
  destruct Ha as [Ha Ht]. cbn [is_null]. rewrite (proj2 (Z.eqb_neq P 0) HP) (proj2 (Z.eqb_neq a 0) Ha). cbn [orb].
  iApply swp_bind. iApply (swp_get_str (Ptr a) with "Ha"). iIntros "Ha".
  do 6 (iApply swp_bind; iApply (swp_upd_parser with "HP"); iIntros "HP").
  set (p1 := p_with_has_errors _ _). unfold html_build_dom_tree.
  iApply swp_bind. iApply document_law. iIntros (doc n d h) "%Hn Hd Hown". destruct Hn as (Hd & Hl & Hf & Hla).
  rewrite (proj2 (Z.eqb_neq doc 0) Hd). iApply swp_bind. iApply (swp_upd_parser with "HP"). iIntros "HP".
  iApply (swp_build_loop (Ptr a) doc ([], []) P t t with "[HP Ha Hd]"); [done..| |].
  { iExists (p_with_document doc doc p1). iSplit; [by iPureIntro|]. iSplitL "HP Ha".
    - iExists 0%nat. iSplit; [by iPureIntro|]. iSplit; [iPureIntro; split; [done|]; split; [lia|done]|]. iFrame.
    - iExists 0. cbn [open_at fst snd]. iExists n, d, h. iFrame "Hd". iSplit; [by iPureIntro|].
      rewrite Hf. by iPureIntro. }
  iIntros (z r) "%Hz (%p2 & %Hp2 & Hr & Ho)". destruct Hz as [Hz Hlen]. destruct Hp2 as (_ & _ & Hi2).
  iDestruct (opened_pops doc (length z.1) z with "Ho") as (z') "[%Hz' Ho]"; [done|]. destruct Hz' as [Hs Hfs].
  rewrite drop_ge in Hfs; [|by rewrite length_fmap]. destruct z' as [[|f fs] root]; [|done]. clear Hfs.
  iDestruct "Ho" as (last) "(%n' & %d' & %h' & %Hn' & Hd & Hk)". destruct Hn' as (_ & Hl' & Hla').
  iDestruct "Hr" as (k) "(%Hk & %Hr & HP & Hi)". rewrite Hi2. iApply ("HQ" with "HP Hi"). iExists n', d', h', d, h.
  assert (root = html_tree t) as ->.
  { unfold html_tree, close_all. apply (f_equal snd) in Hs. change (tree_of _ t ([], [])) with
      (tree_of (S (length t)) t (to_stack ([], []))). rewrite -Hz. unfold to_stack at 2. cbn [fst snd] in *.
    by rewrite length_fmap -Hs. }
  rewrite Hla'. iFrame. by iPureIntro.
Qed.
End Parse.
