(* ===== verification/HtmlPrint.v ===== *)
(** * Writing trees as HTML

    [print] writes a tree the way a document is written: tags with quoted
    attributes, text between them, no end tag for a void element.  For the
    trees that HTML can express, [HtmlSpec.html_tree] reads back what [print]
    wrote. *)

From S2P Require Import Prelude CMem CStr Ctype DomObj Scan Dom DomSpec Html HtmlSpec.

(** ** Printing *)

Definition print_attr (a : attr) : text :=
  32 :: a.1 ++ match a.2 with Some v => 61 :: 34 :: v ++ [34] | None => [] end.

Definition print_tag (tag : text) (attrs : list attr) : text :=
  60 :: tag ++ flat_map print_attr attrs ++ [62].

Section Print.
Context {H : Type} `{!HtmlLib H}.

Fixpoint print (t : tree) : text :=
  match t with
  | Txt d => d
  | Elem tag attrs kids =>
      print_tag tag attrs ++
      if is_void tag then [] else flat_map print kids ++ 60 :: 47 :: tag ++ [62]
  end.

(** ** The trees that can be written *)

Definition wf_attr (a : attr) : bool :=
  is_word in_attr_name a.1 &&
  match a.2 with Some v => all_chars (fun c => negb (c =? 34)) v | None => true end.

Definition is_txt (t : tree) : bool := match t with Txt _ => true | Elem _ _ _ => false end.

(** No text comes right after a text. *)
Fixpoint apart (ts : list tree) : bool :=
  match ts with
  | t :: (u :: _) as us => negb (is_txt t && is_txt u) && apart us
  | _ => true
  end.

(** A text does not begin with white space, and has no "less than" sign; names
    consist of their characters; attributes are named once; a void element
    has no children. *)
Fixpoint wf_tree (t : tree) : bool :=
  match t with
  | Txt d => bool_decide (d <> []) && negb (head_is isspace d) && all_chars (fun c => negb (c =? 60)) d
  | Elem tag attrs kids =>
      is_word is_name_char tag && forallb wf_attr attrs && bool_decide (NoDup attrs.*1) &&
      if is_void tag then bool_decide (kids = []) else forallb wf_tree kids && apart kids
  end.
End Print.

Definition wf_trees {H : Type} `{!HtmlLib H} (ts : list tree) : bool := forallb wf_tree ts && apart ts.

(** ** Scanning what was printed *)

(** Names do not begin with white space, and are not mistaken for what ends them. *)
Lemma name_not_space c : in_attr_name c = true -> isspace c = false.
Proof. unfold in_attr_name. by destruct (isspace c). Qed.

Lemma scan_attr_space l : scan_attr (dropw isspace l) = scan_attr l.
Proof. unfold scan_attr. by rewrite (dropw_none _ (dropw isspace l)) by apply dropw_head. Qed.

Lemma scan_attrs_space f l : scan_attrs (S f) (dropw isspace l) = scan_attrs (S f) l.
Proof. cbn. rewrite scan_attr_space. by rewrite (dropw_none _ (dropw isspace l)) by apply dropw_head. Qed.

Definition ends_attr (l : text) : Prop := head_is in_attr_name l = false /\ starts 61 (dropw isspace l) = false.

Lemma scan_value_print v l : all_chars (fun c => negb (c =? 34)) v = true ->
  scan_value (34 :: v ++ 34 :: l) = (Some v, l).
Proof.
  intros Hv. unfold scan_value. rewrite dropw_none by done. change (is_quote (s8 34)) with true. cbn [negb].
  change (s8 34) with 34. by rewrite takew_app, dropw_app by done.
Qed.

Lemma scan_attr_print a l : wf_attr a = true -> ends_attr l ->
  exists l', scan_attr (print_attr a ++ l) = Some (a, l') /\ (l' = l \/ l' = dropw isspace l).
Proof.
  destruct a as [k v]. unfold wf_attr, print_attr. cbn [fst snd]. intros [Hk Hv]%andb_prop [He1 He2].
  apply is_word_inv in Hk as (Hk & b & k' & -> & Hb). unfold scan_attr.
  set (tl := match v with Some v => 61 :: 34 :: v ++ [34] | None => [] end).
  change ((32 :: (b :: k') ++ tl) ++ l) with (([32] ++ (b :: k') ++ tl) ++ l). rewrite <- !app_assoc.
  rewrite (dropw_app isspace [32]) by first [done|by apply name_not_space].
  assert (head_is in_attr_name (tl ++ l) = false) as Ht by (subst tl; by destruct v).
  rewrite takew_app, dropw_app by done. subst tl. destruct v as [v|].
  - exists l. split; [|by left]. cbn [app]. rewrite <- app_assoc. rewrite dropw_none by done.
    change (starts 61 (61 :: 34 :: v ++ [34] ++ l)) with true. cbn [drop app]. by rewrite scan_value_print.
  - cbn [app]. rewrite He2. exists (dropw isspace l). split; [done|by right].
Qed.

Lemma scan_attrs_print attrs f l : forallb wf_attr attrs = true -> (length attrs < f)%nat ->
  scan_attrs f (flat_map print_attr attrs ++ 62 :: l) = (attrs, 62 :: l).
Proof.
  revert f. induction attrs as [|a attrs IH]; intros f Hw Hf; (destruct f as [|f]; [cbn in Hf; lia|]).
  - cbn [flat_map app]. cbn [scan_attrs]. unfold scan_attr. by rewrite dropw_none.
  - cbn [forallb] in Hw. apply andb_prop in Hw as [Ha Hw]. cbn [flat_map scan_attrs]. rewrite <- app_assoc.
    assert (ends_attr (flat_map print_attr attrs ++ 62 :: l)) as He.
    { destruct attrs as [|[k v] attrs]; [done|]. split; [done|]. cbn [forallb] in Hw. apply andb_prop in Hw as [Hk _].
      unfold wf_attr in Hk. apply andb_prop in Hk as [Hk _]. apply is_word_inv in Hk as (_ & b & k' & Ek & Hb).
      cbn [fst] in Ek. subst k. cbn [flat_map print_attr fst app].
      match goal with |- starts 61 (dropw isspace (32 :: b :: ?r)) = _ => change (32 :: b :: r) with ([32] ++ b :: r) end.
      rewrite dropw_app by first [done|by apply name_not_space].
      unfold starts, is_char. unfold in_attr_name in Hb. by destruct (s8 b =? 61); rewrite ?andb_false_r in Hb. }
    destruct (scan_attr_print a _ Ha He) as (l' & -> & Hl'). cbn [length] in Hf.
    assert (scan_attrs f l' = (attrs, 62 :: l)) as ->; [|done].
    rewrite <- (IH f) by (done || lia). destruct Hl' as [->| ->]; [done|]. destruct f; [lia|]. apply scan_attrs_space.
Qed.

Lemma print_attrs_length attrs : (length attrs <= length (flat_map print_attr attrs))%nat.
Proof. induction attrs as [|a attrs IH]; [done|]. cbn [flat_map length]. rewrite length_app. cbn. lia. Qed.

(** A tag behind its "less than" sign. *)
Lemma scan_tag_print (slash : bool) tag attrs l : is_word is_name_char tag = true -> forallb wf_attr attrs = true ->
  scan_tag ((if slash then [47] else []) ++ tag ++ flat_map print_attr attrs ++ 62 :: l) =
  Some (Tok (if slash then HTML_TOKEN_END_TAG else HTML_TOKEN_START_TAG) (Some tag) false attrs None, l).
Proof.
  intros Ht Ha. apply is_word_inv in Ht as (Ht & b & w & -> & Hb). unfold scan_tag.
  set (body := (b :: w) ++ flat_map print_attr attrs ++ 62 :: l) in *.
  assert (starts 47 body = false) as H47.
  { subst body. cbn. unfold is_char. unfold is_name_char in Hb. destruct (Z.eqb_spec (s8 b) 47) as [E|]; [|done].
    by rewrite E in Hb. }
  assert (head_is is_name_char (flat_map print_attr attrs ++ 62 :: l) = false) as Hh by (by destruct attrs).
  assert (takew is_name_char body = b :: w /\ dropw is_name_char body = flat_map print_attr attrs ++ 62 :: l) as [E1 E2]
    by (subst body; by rewrite takew_app, dropw_app).
  destruct slash; cbn [app].
  - change (starts 47 (47 :: body)) with true. cbv match. change (drop 1 (47 :: body)) with body. rewrite E1, E2.
    rewrite scan_attrs_print; [done|done|rewrite length_app; pose proof (print_attrs_length attrs); lia].
  - rewrite H47. cbv match. rewrite E1, E2.
    rewrite scan_attrs_print; [done|done|rewrite length_app; pose proof (print_attrs_length attrs); lia].
Qed.

(** What is relied on of the comparisons of strings.h: they compare the texts
    in lower case. *)
Definition lower (t : text) : text := map tolower t.

Class StrcaseLaws (H : Type) `{!HtmlLib H} : Prop := {
  strcasecmp_law : forall a b, strcasecmp a b = 0 <-> lower a = lower b;
  strncasecmp_law : forall a b n, 0 <= n ->
    strncasecmp a b n = 0 <-> take (Z.to_nat n) (lower a) = take (Z.to_nat n) (lower b);
}.

Section PrintProofs.
Context {H : Type} `{!HtmlLib H} `{!StrcaseLaws H}.

Lemma same_name_refl a : same_name a a = true.
Proof using All. unfold same_name. by apply Z.eqb_eq, strcasecmp_law. Qed.

Lemma not_doctype b l : s8 b <> 33 -> is_doctype (60 :: b :: l) = false.
Proof using All.
  intros Hb. unfold is_doctype. apply andb_false_iff. right. apply Z.eqb_neq. intros E.
  apply strncasecmp_law in E; [|done]. apply (f_equal (fun t => t !! 1%nat)) in E. cbn in E.
  injection E as E. change (tolower b = 33) in E. apply Hb. unfold tolower in E. destruct (isupper b) eqn:U.
  - unfold isupper in U. apply andb_prop in U as [U1 U2]. apply Z.leb_le in U1. lia.
  - by subst b.
Qed.

Lemma scan_open tag attrs l : is_word is_name_char tag = true -> forallb wf_attr attrs = true ->
  scan (print_tag tag attrs ++ l) = Some (Tok HTML_TOKEN_START_TAG (Some tag) false attrs None, l).
Proof using All.
  intros Ht Ha. pose proof (scan_tag_print false tag attrs l Ht Ha) as Hs. cbn [app] in Hs.
  apply is_word_inv in Ht as (_ & b & w & -> & Hb). unfold print_tag, scan.
  assert (s8 b <> 33) as Hb33 by (intros E; by rewrite E in Hb).
  replace ((60 :: (b :: w) ++ flat_map print_attr attrs ++ [62]) ++ l)
    with (60 :: (b :: w) ++ flat_map print_attr attrs ++ 62 :: l) by (cbn; by rewrite <- !app_assoc).
  rewrite dropw_none by done. change (is_char 60 60) with true. cbv match.
  assert (is_comment ((b :: w) ++ flat_map print_attr attrs ++ 62 :: l) = false) as ->.
  { unfold is_comment, starts, is_char. cbn [app]. by rewrite (proj2 (Z.eqb_neq _ _) Hb33). }
  cbn [app]. rewrite not_doctype by done. exact Hs.
Qed.

Lemma scan_close tag l : is_word is_name_char tag = true ->
  scan (60 :: 47 :: tag ++ 62 :: l) = Some (Tok HTML_TOKEN_END_TAG (Some tag) false [] None, l).
Proof using All.
  intros Ht. unfold scan. rewrite dropw_none by done. change (is_char 60 60) with true. cbv match.
  rewrite not_doctype by done. exact (scan_tag_print true tag [] l Ht eq_refl).
Qed.

Lemma scan_text d l : wf_tree (Txt d) = true -> head_is (fun c => negb (c =? 60)) l = false ->
  scan (d ++ l) = Some (Tok HTML_TOKEN_TEXT None false [] (Some d), l).
Proof using Type.
  cbn [wf_tree]. intros [[Hd Hs]%andb_prop Ha]%andb_prop Hl. apply bool_decide_eq_true in Hd.
  destruct d as [|b d]; [done|]. unfold scan. cbn [app head_is] in *. rewrite dropw_none; [|by apply negb_true_iff].
  change (is_char 60 b) with (s8 b =? 60). pose proof Ha as Hb. cbn in Hb. apply andb_prop in Hb as [Hb _].
  destruct (s8 b =? 60); [done|]. change (b :: d ++ l) with ((b :: d) ++ l). by rewrite takew_app, dropw_app.
Qed.

(** ** Building what was printed *)

Definition tree_full (l : text) (z : stack) : stack := tree_of (S (length l)) l z.

Lemma tree_full_step l t r z : scan l = Some (t, r) -> tree_full l z = tree_full r (handle t z).
Proof using Type.
  intros E. unfold tree_full. change (tree_of (S (length l)) l z) with
    (match scan l with Some (t, r) => tree_of (length l) r (handle t z) | None => z end).
  rewrite E. apply scan_length in E. apply tree_of_fuel; lia.
Qed.

Lemma element_attrs_nodup attrs : NoDup attrs.*1 -> element_attrs attrs = attrs.
Proof using Type.
  induction attrs as [|a attrs IH] using rev_ind; [done|]. rewrite fmap_app. intros (H1 & H2 & _)%NoDup_app.
  rewrite element_attrs_snoc, IH by done. unfold set_attr.
  rewrite (proj2 (find_text_None _ _)); [by destruct a|]. intros Hin. apply (H2 _ Hin). cbn. apply list_elem_of_here.
Qed.

Definition add_trees (ts : list tree) (z : stack) : stack := foldl (fun z t => add_tree t z) z ts.

Lemma add_trees_top tag attrs kids fs root ts :
  add_trees ts ((tag, attrs, kids) :: fs, root) = ((tag, attrs, kids ++ ts) :: fs, root).
Proof using Type.
  unfold add_trees. revert kids. induction ts as [|t ts IH]; intros kids; cbn; [by rewrite app_nil_r|].
  rewrite IH. by rewrite <- app_assoc.
Qed.

Lemma add_trees_root root ts : add_trees ts ([], root) = ([], root ++ ts).
Proof using Type.
  unfold add_trees. revert root. induction ts as [|t ts IH]; intros root; cbn; [by rewrite app_nil_r|].
  rewrite IH. by rewrite <- app_assoc.
Qed.

(** [t] is read where it was written, before [l]. *)
Definition reads (t : tree) : Prop := wf_tree t = true -> forall l z,
  (is_txt t = true -> head_is (fun c => negb (c =? 60)) l = false) ->
  tree_full (print t ++ l) z = tree_full l (add_tree t z).

Lemma reads_list ts l z : Forall reads ts -> wf_trees ts = true -> head_is (fun c => negb (c =? 60)) l = false ->
  tree_full (flat_map print ts ++ l) z = tree_full l (add_trees ts z).
Proof using Type.
  unfold wf_trees. revert z. induction ts as [|t ts IH]; intros z; [done|]. intros [Ht Hts]%Forall_cons Hw Hl.
  cbn [forallb] in Hw. apply andb_prop in Hw as [[Hwt Hwts]%andb_prop Hap].
  cbn [flat_map]. rewrite <- app_assoc, Ht; [|done|].
  - cbn [add_trees foldl]. apply IH; [done| |done]. apply andb_true_intro. split; [done|].
    destruct ts; [done|]. cbn [apart] in Hap. by apply andb_prop in Hap as [_ Hap].
  - intros Htxt. destruct ts as [|u ts]; [done|]. cbn [apart] in Hap. apply andb_prop in Hap as [Hu _].
    rewrite Htxt in Hu. by destruct u.
Qed.

Lemma reads_tree t : reads t.
Proof using All.
  induction t as [tag attrs kids IH|d] using tree_nested_ind; intros Hw l z Hl.
  - cbn [wf_tree] in Hw. apply andb_prop in Hw as [[[Ht Ha]%andb_prop Hn]%andb_prop Hk].
    apply bool_decide_eq_true in Hn. cbn [print]. rewrite <- app_assoc.
    erewrite tree_full_step by (by apply scan_open). unfold handle at 1. cbn [k_type k_name k_attrs k_self orb].
    rewrite element_attrs_nodup by done. destruct (is_void tag).
    + apply bool_decide_eq_true in Hk. by subst kids.
    + rewrite <- app_assoc. rewrite reads_list; [|done|done|done]. rewrite add_trees_top. cbn [app].
      rewrite <- app_assoc. erewrite tree_full_step by (by apply scan_close). unfold handle at 1. cbn [k_type k_name fst].
      rewrite find_open_cons. cbn [fst]. rewrite same_name_refl. cbn [pops pop]. by destruct z.
  - cbn [print]. erewrite tree_full_step by (apply scan_text; [done|by apply Hl]). unfold handle. cbn [k_type k_name k_data].
    cbn [wf_tree] in Hw. apply andb_prop in Hw as [[Hd _]%andb_prop _]. apply bool_decide_eq_true in Hd.
    by rewrite decide_False.
Qed.

Lemma html_tree_print ts : wf_trees ts = true -> html_tree (flat_map print ts) = ts.
Proof using All.
  intros Hw. unfold html_tree. change (tree_of _ _ ([], [])) with (tree_full (flat_map print ts) ([], [])).
  rewrite <- (app_nil_r (flat_map print ts)), reads_list; [|by apply Forall_true, reads_tree|done|done].
  by rewrite add_trees_root.
Qed.
End PrintProofs.
