(* ===== verification/HtmlParse.v ===== *)
(** * Parsing a document, as a run of the program

    The theorems about [html_parser_parse] on states: what [HtmlProofs] shows
    in the logic, read back as a statement about the run, and the round trip
    with [HtmlPrint.print].  The examples instantiate the allocator and the
    functions that src/ declares only. *)

From S2P Require Import Sep Prelude CMem CStr Ctype Alloc DomObj Scan Dom DomTree DomSpec DomSep DomProofs Html HtmlSpec HtmlScan HtmlTree HtmlProofs HtmlPrint.

Section Parse.
Context {H : Type} `{HtmlLibLaws H}.
Implicit Types (s : dom H) (P a doc : Z) (p : html_parser) (t : text) (rest made : gmap Z obj).

(** The state holds the parser [p] at [P], the text [t] at [a], and [rest]. *)
Definition parsing s P p a t rest : Prop := loaded s P (Parser p) a t rest.

(** A run that ends with the document [doc] of the children [ts]: what it
    allocated and did not free, [made], is exactly the document with its
    nodes and strings; the text and the [rest] are what they were. *)
Definition parsed s' P a t rest doc ts : Prop :=
  exists p' made, parsing s' P p' a t (made ∪ rest) /\ made ##ₘ rest /\ document_at doc ts made.

Lemma parse_run s P p a t rest : parsing s P p a t rest ->
  exists doc s', html_parser_parse P (Ptr a) s = Ok (doc, s') /\ parsed s' P a t rest doc (html_tree t).
Proof using Type.
  intros Hp. pose proof Hp as (_ & HP & _).
  destruct (run_loaded Parser (html_parser_parse P (Ptr a)) (fun _ doc => document_at doc (html_tree t)) s P p a t rest)
    as (doc & s' & p' & made & Hrun & Hp' & Hd & Hdoc); [|done|exists doc, s'; split; [done|]; by exists p', made].
  iIntros "[HP Ha]". iApply (swp_parse with "HP Ha"); [done|]. iIntros (doc p') "HP Ha Hd". iExists p'. iFrame.
Qed.

(** C1: [html_parser_parse] on any text stops without a fault, for every
    input, well formed or not, and builds exactly the tree that the
    specification reads from the text: the document's nodes carry the tags,
    attributes, ids, classes and texts of [html_tree], linked as parents,
    children and siblings; no token or copy is leaked, and nothing else in
    memory is touched. *)
Theorem html_parser_parse_correct s P p a t rest : parsing s P p a t rest ->
  exists doc s', html_parser_parse P (Ptr a) s = Ok (doc, s') /\ parsed s' P a t rest doc (html_tree t).
Proof using Type. apply parse_run. Qed.

(** C9: parsing what [print] wrote gives the tree back: for every forest
    that HTML can express, [html_parser_parse] of the printed text builds that
    forest. *)
Theorem html_parser_parse_print `{!StrcaseLaws H} s P p a ts rest : wf_trees ts = true ->
  parsing s P p a (flat_map print ts) rest ->
  exists doc s', html_parser_parse P (Ptr a) s = Ok (doc, s') /\ parsed s' P a (flat_map print ts) rest doc ts.
Proof using Type. intros Hw Hp%parse_run. by rewrite html_tree_print in Hp. Qed.

(** a call of [html_parser_next_token] takes the next token of the text:
    it moves the position to the specified rest, and returns a token object
    that owns copies of the specified strings; when there is no token it
    returns the null pointer and leaves nothing allocated. *)
Theorem html_parser_next_token_correct s P p a t k rest : parsing s P (p_with_position (Z.of_nat k) p) a t rest ->
  p_input p = Ptr a -> p_length p = Z.of_nat (length t) -> (k <= length t)%nat ->
  exists token s' k' made, html_parser_next_token P s = Ok (token, s') /\ (k' <= length t)%nat /\ made ##ₘ rest /\
    parsing s' P (p_with_position (Z.of_nat k') p) a t (made ∪ rest) /\
    match scan (drop k t) with
    | Some (tk, r) => drop k' t = r /\ (k < k')%nat /\ token_at token tk made
    | None => token = 0 /\ made = ∅
    end.
Proof using Type.
  intros Hp Hi Hl Hk. pose proof Hp as (_ & HP & _).
  set (R := fun (p' : html_parser) token => (∃ k', ⌈p' = p_with_position (Z.of_nat k') p /\ (k' <= length t)%nat⌉ ∗
    match scan (drop k t) with
    | Some (tk, r) => ⌈drop k' t = r /\ (k < k')%nat⌉ ∗ token_at token tk
    | None => ⌈token = 0⌉
    end)%I).
  destruct (run_loaded Parser (html_parser_next_token P) R s P (p_with_position (Z.of_nat k) p) a t rest) with (2 := Hp)
    as (token & s' & p' & made & Hrun & Hp' & Hd & k' & σ1 & made' & -> & _ & [-> [-> Hk']] & HR).
  - iIntros "[HP Ha]". iDestruct (str_at_pure with "Ha") as "[%Ha Ha]".
    iApply (r_next_token P p t (drop k t) with "[HP Ha]"); [done| |].
    { iExists k. iSplit; [done|]. rewrite /reader Hi. iFrame. iPureIntro. by split; [|split; [|apply Ha]]. }
    unfold R. pose proof (scan_length (drop k t)) as Hlen. destruct (scan (drop k t)) as [[tk r]|].
    + iIntros (token) "(%k' & %Hk' & %Hr & HP & Hi) Ht". rewrite Hi. iExists _. iFrame "HP Hi". iExists k'. iFrame "Ht".
      iPureIntro. destruct Hr as (_ & Hle & _). split; [done|]. split; [done|]. specialize (Hlen tk r eq_refl).
      rewrite -Hk' !length_drop in Hlen. lia.
    + iIntros (r) "(%k' & %Hk' & %Hr & HP & Hi)". rewrite Hi. iExists _. iFrame "HP Hi". iExists k'.
      iPureIntro. destruct Hr as (_ & Hle & _). done.
  - rewrite left_id_L in Hp', Hd. exists token, s', k', made'. split; [done|]. split; [done|]. split; [done|].
    split; [done|]. destruct (scan (drop k t)) as [[tk r]|].
    + destruct HR as (σ1 & σ2 & -> & _ & [-> [Hdr Hkk]] & Ht). by rewrite left_id_L.
    + by destruct HR as [-> ->].
Qed.
End Parse.

(** ** Functions that satisfy the laws *)

Definition empty_document : node_ext :=
  IsHtmlDocument zero_document (HtmlDocument 0 0 0 0 0 0 0 0 0 0 0 0 0 false false).

Section Instances.
Context {H : Type} `{LibcHeapLaws H} `{!Handlers H}.

#[local] Instance ascii_lib : HtmlLib H := {|
  strcasecmp a b := if bool_decide (lower a = lower b) then 0 else 1;
  strncasecmp a b n := if bool_decide (take (Z.to_nat n) (lower a) = take (Z.to_nat n) (lower b)) then 0 else 1;
  html_document_create _ :=
    let* p := malloc sizeof_html_document in
    init_obj p (Node (n_with_type DOM_NODE_TYPE_DOCUMENT zero_node) empty_document) ;;
    ret p;
|}.

#[local] Instance ascii_strcase : StrcaseLaws H.
Proof. split; intros; cbn; by case_bool_decide. Qed.

#[local] Program Instance ascii_laws : HtmlLibLaws H := {| document_owned _ _ := emp%I |}.
Next Obligation.
  intros url Q. iIntros "HQ". iApply swp_bind. iApply swp_malloc; [done|]. iIntros (p Hp) "Hp".
  iApply swp_bind. iApply (swp_init_obj with "Hp"); [done|]. iIntros "Hp". iApply swp_ret.
  iApply ("HQ" with "[] Hp"); [|done]. iPureIntro. split; [lia|done].
Qed.
End Instances.

(** ** Examples *)

Section Examples.
#[local] Existing Instances counter_heap counter_heap_laws no_handlers ascii_lib ascii_strcase ascii_laws.

(** A parser and a text in memory. *)
Definition reading_state (p : html_parser) (t : text) : dom Z :=
  Dom 48 (<[16 := Parser p]> (<[32 := Str t]> ∅)).

Lemma reading_state_parsing p t : short t -> parsing (reading_state p t) 16 p 32 t ∅.
Proof.
  intros Ht. split; [done|]. do 6 (split; [done|]). split; [done|]. intros a Ha. cbn in Ha.
  rewrite !dom_insert_L dom_empty_L in Ha.
  apply elem_of_union in Ha as [->%elem_of_singleton|Ha]; [done|].
  apply elem_of_union in Ha as [->%elem_of_singleton|Ha]; [done|set_solver].
Qed.

Definition small_page : text := chars "<p id=a>x<br></q></p> y".

Lemma html_parser_parse_correct_witness :
  exists doc s', html_parser_parse 16 (Ptr 32) (reading_state zero_parser small_page) = Ok (doc, s') /\
    parsed s' 16 32 small_page ∅ doc
      [Elem (chars "p") [(chars "id", Some (chars "a"))] [Txt (chars "x"); Elem (chars "br") [] []]; Txt (chars "y")].
Proof.
  replace [Elem _ _ _; _] with (html_tree small_page) by (vm_compute; reflexivity).
  apply (html_parser_parse_correct _ 16 zero_parser 32 small_page ∅). by apply reading_state_parsing.
Defined.

Definition small_forest : list tree :=
  [Elem (chars "ul") [(chars "class", Some (chars "a b"))] [Elem (chars "li") [(chars "hidden", None)] [Txt (chars "x y ")]];
   Txt (chars "z"); Elem (chars "BR") [] []].

Lemma html_parser_parse_print_witness :
  exists doc s', html_parser_parse 16 (Ptr 32) (reading_state zero_parser (flat_map print small_forest)) = Ok (doc, s') /\
    parsed s' 16 32 (flat_map print small_forest) ∅ doc small_forest.
Proof.
  apply (html_parser_parse_print _ 16 zero_parser 32 small_forest ∅); [reflexivity|]. by apply reading_state_parsing.
Defined.

Lemma html_parser_next_token_correct_witness :
  let t := chars "<p>x" in
  let p := p_with_input (Ptr 32) 4 0 1 1 zero_parser in
  exists token s' k' made, html_parser_next_token 16 (reading_state p t) = Ok (token, s') /\
    (k' <= length t)%nat /\ made ##ₘ (∅ : gmap Z obj) /\ parsing s' 16 (p_with_position (Z.of_nat k') p) 32 t (made ∪ ∅) /\
    drop k' t = chars "x" /\ (0 < k')%nat /\ token_at token (Tok HTML_TOKEN_START_TAG (Some (chars "p")) false [] None) made.
Proof.
  apply (html_parser_next_token_correct _ 16 (p_with_input (Ptr 32) 4 0 1 1 zero_parser) 32 (chars "<p>x") 0 ∅); try done.
  - by apply reading_state_parsing.
  - cbn. lia.
Defined.
End Examples.
