(* ===== verification/HtmlDestroy.v ===== *)
(** * Destroying a tree

    [dom_node_destroy] on the trees of [HtmlTree]: it ends, every node and
    every string of the tree is freed once, and one thing is left: the second
    copy of each text that [dom_text_create] made ([texts]), which nothing
    points to any more. *)

From S2P Require Import Sep Prelude CMem Alloc DomObj Scan Dom DomTree DomSpec DomSep DomProofs Html HtmlSpec HtmlScan HtmlTree.

(** The texts of a tree, and the number of its nodes. *)
Fixpoint texts (t : tree) : list text :=
  match t with Txt d => [d] | Elem _ _ kids => flat_map texts kids end.
Fixpoint nodes (t : tree) : nat :=
  match t with Txt _ => 1 | Elem _ _ kids => S (list_sum (map nodes kids)) end.
Definition sub_trees (t : tree) : list tree := match t with Elem _ _ kids => kids | Txt _ => [] end.

Section Destroy.
Context {H : Type} `{LibcHeapLaws H} `{!Handlers H}.
Abbreviation assn := (sprop obj).
Implicit Types (n np : dom_node) (e ep : node_ext) (t u : tree) (ts ks : list tree) (par prev a nxt last : Z).

(** Strings that nothing points to. *)
Definition leaked (ds : list text) : assn := ([∗ list] d ∈ ds, ∃ p, str_at p d)%I.

(** ** The strings of a node *)

Definition node_owned n (tag id data : option text) (cs : list text) (l : list attr) : assn :=
  (⌈n_event_listeners n = 0⌉ ∗ ostr (n_tag_name n) tag ∗ ostr (n_id n) id ∗ ostr (n_text_content n) data ∗
   classes_at n cs ∗ attrs_at n l)%I.

(** A tree is its root, what the root owns, and its children. *)
Lemma tree_at_root par prev a nxt t : tree_at par prev a nxt t ⊢
  ∃ n e tag id data cs l, ⌈a <> 0 /\ links n par prev nxt /\ n_ref_count n = 1⌉ ∗ a ↦ Node n e ∗ node_owned n tag id data cs l ∗
    kids a (sub_trees t) 0 (n_first_child n) (n_last_child n) 0 ∗
    leaked (match t with Txt d => [d] | _ => [] end).
Proof using Type.
  destruct t as [tag attrs ks|d]; cbn [tree_at sub_trees].
  - iIntros "(%n & %Hn & Ha & (Ht & Hi & Hc & Hl) & Hk)". destruct Hn as (Ha & Hlk & Hp).
    iExists n, _, (Some tag), (element_id attrs), None, (element_classes attrs), attrs. unfold node_owned.
    iFrame "Ha Ht Hi Hc Hl Hk". apply (f_equal n_event_listeners) in Hp as E1.
    apply (f_equal n_text_content) in Hp as E2. apply (f_equal n_ref_count) in Hp as E3. cbn. iPureIntro. done.
  - iIntros "(%n & %dp & %Hn & Ha & Hd & Ht)". destruct Hn as (Ha & Hlk & Hp & Hf & Hla).
    iExists n, _, None, None, (Some d), [], []. unfold node_owned, classes_at, attrs_at, attr_arrays.
    assert (n_event_listeners n = 0 /\ n_tag_name n = 0 /\ n_id n = 0 /\ n_class_names n = 0 /\ n_class_count n = 0 /\
      n_attr_names n = 0 /\ n_attr_values n = 0 /\ n_attr_count n = 0 /\ n_ref_count n = 1)
      as (-> & -> & -> & -> & -> & -> & -> & -> & Hr).
    { repeat split; [by apply (f_equal n_event_listeners) in Hp|by apply (f_equal n_tag_name) in Hp|
        by apply (f_equal n_id) in Hp|by apply (f_equal n_class_names) in Hp|by apply (f_equal n_class_count) in Hp|
        by apply (f_equal n_attr_names) in Hp|by apply (f_equal n_attr_values) in Hp|by apply (f_equal n_attr_count) in Hp|
        by apply (f_equal n_ref_count) in Hp]. }
    iFrame "Ha Ht". iSplit; [by iPureIntro|]. rewrite Hf Hla. iSplitR.
    + do 3 (iSplitR; [by iPureIntro|]). iSplitR; [iApply names_at_nil|]. iSplitR; iApply names_at_nil.
    + iSplitR; [by iPureIntro|]. cbn. iSplitL; [|done]. iExists dp. iFrame.
Qed.

Lemma swp_for_node a n e (count : dom_node -> Z) body (I : nat -> assn) (k : nat) (Q : unit -> assn) :
  count n = Z.of_nat k -> Z.of_nat k < text_bound ->
  (forall i, (i < k)%nat -> I i -∗ swp (body n (Z.of_nat i)) (fun _ => I (S i))) ->
  a ↦ Node n e -∗ I 0%nat -∗ (a ↦ Node n e -∗ I k -∗ Q tt) -∗ swp (for_node a count body) Q.
Proof using Type.
  unfold text_bound. intros Hc Hk Hbody. iIntros "Ha HI HQ".
  iApply (swp_loop _ (fun m i => ∃ j, ⌈i = Z.of_nat j /\ (j <= k)%nat /\ m = Z.of_nat k - Z.of_nat j⌉ ∗
    a ↦ Node n e ∗ I j ∗ (a ↦ Node n e -∗ I k -∗ Q tt))%I _ (Z.of_nat k)); [|lia|].
  - iIntros (m i) "(%j & %Hj & Ha & HI & HQ)". destruct Hj as (-> & Hj & ->).
    iApply swp_bind. iApply (swp_get_node with "Ha"). iIntros "Ha". rewrite Hc.
    destruct (Z.ltb_spec (Z.of_nat j) (Z.of_nat k)).
    + iApply swp_bind. iApply (swp_wand with "[HI]"); [iApply (Hbody with "HI"); lia|]. iIntros (_) "HI".
      iApply swp_ret. cbn [sturn]. iExists (Z.of_nat k - Z.of_nat (S j)). iSplit; [iPureIntro; lia|].
      iExists (S j). iFrame. iPureIntro. rewrite wrap_small; lia.
    + iApply swp_ret. cbn [sturn]. assert (j = k) as -> by lia. iApply ("HQ" with "Ha HI").
  - iExists 0%nat. iFrame. iPureIntro. lia.
Qed.

Lemma swp_free_strings a n e tag id data cs l (Q : unit -> assn) :
  a ↦ Node n e -∗ node_owned n tag id data cs l -∗ (a ↦ Node n e -∗ Q tt) -∗ swp (free_strings a) Q.
Proof using Type.
  iIntros "Ha (%Hlist & Ht & Hi & Hd & Hc & [Hn Hv]) HQ".
  iDestruct (half_freed_start with "Hn") as "[%Hl Hn]". iDestruct (half_freed_start with "Hv") as "[_ Hv]".
  iDestruct (half_freed_start with "Hc") as "[%Hcs Hc]". destruct Hl as [Hl Hls]. destruct Hcs as [Hcn Hcs].
  unfold short in Hls, Hcs. unfold free_strings.
  iApply swp_bind. iApply (swp_for_node _ _ _ _ _
    (fun i => half_freed (n_attr_names n) (Some <$> l.*1) i ∗ half_freed (n_attr_values n) l.*2 i)%I with "Ha [$Hn $Hv]");
    [exact Hl|done| |].
  { intros i Hi'. rewrite !length_fmap in Hi'. iIntros "[Hn Hv]". iApply (swp_free_slot with "Hn"); [by rewrite !length_fmap|].
    iIntros "Hn". iApply swp_bind. iDestruct (half_freed_slot with "Hv") as (ps x o Hx) "(Ha & Hx & Hv)"; [by rewrite length_fmap|].
    iApply (swp_arr_slot with "Ha"); [done|]. iIntros "Ha". iApply (swp_free_ostr with "Hx"). iFrame "Hn".
    by iApply "Hv". }
  iIntros "Ha [Hn Hv]". iApply swp_bind. iApply (swp_get_node with "Ha"). iIntros "Ha".
  iApply swp_bind. iApply (swp_free_half with "Hn"). iApply swp_bind.
  replace (length (Some <$> l.*1)) with (length l.*2) by (by rewrite !length_fmap). iApply (swp_free_half with "Hv").
  iApply swp_bind. iApply (swp_for_node _ _ _ _ _ (half_freed (n_class_names n) (Some <$> cs)) with "Ha Hc"); [exact Hcn|done| |].
  { intros i Hi'. iIntros "Hc". iDestruct (half_freed_slot with "Hc") as (ps x o Hx) "(Ha & Hx & Hv)"; [done|].
    iApply swp_bind. iApply (swp_arr_slot with "Ha"); [done|]. iIntros "Ha". iApply (swp_free_ostr with "Hx"). by iApply "Hv". }
  iIntros "Ha Hc". iApply swp_bind. iApply (swp_get_node with "Ha"). iIntros "Ha".
  iApply swp_bind. iApply (swp_free_half with "Hc"). iApply swp_bind. iApply (swp_free_ostr with "Ht").
  iApply swp_bind. iApply (swp_free_ostr with "Hi"). iApply swp_bind. iApply (swp_free_ostr with "Hd").
  rewrite Hlist. iApply swp_free_null. by iApply "HQ".
Qed.

(** ** The links around a first child *)

Lemma tree_at_prev par prev a nxt t : tree_at par prev a nxt t ⊢
  ∃ n e, a ↦ Node n e ∗ (∀ prev', a ↦ Node (n_with_prev_sibling prev' n) e -∗ tree_at par prev' a nxt t).
Proof using Type.
  destruct t as [tag attrs ks|d]; cbn [tree_at].
  - iIntros "(%n & %Hn & Ha & Ho & Hk)". destruct Hn as (Ha & (Hp & Hv & Hx) & He).
    iExists n, _. iFrame "Ha". iIntros (nxt') "Ha". iExists _. iFrame "Ha Ho Hk". by iPureIntro.
  - iIntros "(%n & %dp & %Hn & Ha & Ho)". destruct Hn as (Ha & (Hp & Hv & Hx) & He).
    iExists n, _. iFrame "Ha". iIntros (nxt') "Ha". iExists _, _. iFrame "Ha Ho". by iPureIntro.
Qed.

Lemma swp_unlink_first par np ep a n e ts nxt (Q : unit -> assn) :
  n_first_child np = a -> links n par 0 nxt ->
  par ↦ Node np ep -∗ a ↦ Node n e -∗ kids par ts a nxt (n_last_child np) 0 -∗
  (∀ np', ⌈n_first_child np' = nxt⌉ -∗ par ↦ Node np' ep -∗ a ↦ Node n e -∗
     kids par ts 0 nxt (n_last_child np') 0 -∗ Q tt) -∗
  swp (unlink_child par a) Q.
Proof using Type.
  intros Hf (_ & Hv & Hx). iIntros "Hp Ha Hk HQ". unfold unlink_child, unlink_ends, unlink_siblings.
  iApply swp_bind. iApply swp_bind. iApply (swp_get_node with "Hp"). iIntros "Hp". rewrite Hf Z.eqb_refl.
  iApply swp_bind. iApply swp_bind. iApply (swp_get_node with "Ha"). iIntros "Ha". rewrite Hx.
  iApply (swp_upd_node with "Hp"). iIntros "Hp". iApply swp_bind. iApply (swp_get_node with "Hp"). iIntros "Hp".
  cbn [n_last_child n_with_first_child]. destruct ts as [|u ts].
  - cbn. iDestruct "Hk" as %[-> ->]. rewrite Z.eqb_refl. iApply swp_bind. iApply (swp_get_node with "Ha"). iIntros "Ha".
    iApply (swp_upd_node with "Hp"). iIntros "Hp". rewrite Hv.
    iApply swp_bind. iApply (swp_get_node with "Ha"). iIntros "Ha". rewrite Hv. cbn [Z.eqb negb].
    iApply swp_bind. iApply swp_ret. iApply swp_bind. iApply (swp_get_node with "Ha"). iIntros "Ha". rewrite Hx.
    cbn [Z.eqb negb]. iApply swp_ret. iApply ("HQ" with "[] Hp Ha"); by iPureIntro.
  - iDestruct (kids_last with "Hk") as (nl el) "(%Hnl & Hl & Hk)"; [done|].
    iDestruct (pt_ne with "[$Ha $Hl]") as "(%Hne & Ha & Hl)". rewrite (proj2 (Z.eqb_neq _ _) (not_eq_sym Hne)).
    iApply swp_ret. iDestruct ("Hk" $! (n_next_sibling nl) with "[Hl]") as "Hk"; [by destruct nl|]. rewrite Hnl.
    iDestruct (kids_ends with "Hk") as "[%Hk Hk]". destruct Hk as [Hn0 _].
    iApply swp_bind. iApply (swp_get_node with "Ha"). iIntros "Ha". rewrite Hv. cbn [Z.eqb negb].
    iApply swp_bind. iApply swp_ret. iApply swp_bind. iApply (swp_get_node with "Ha"). iIntros "Ha". rewrite Hx Hv.
    rewrite (proj2 (Z.eqb_neq _ _) Hn0). cbn [negb]. rewrite kids_cons. iDestruct "Hk" as (q) "[Hu Hk]".
    iDestruct (tree_at_prev with "Hu") as (nu eu) "[Hnu Hu]". iApply (swp_upd_node with "Hnu"). iIntros "Hnu".
    iApply ("HQ" with "[] Hp Ha"); [by iPureIntro|]. rewrite kids_cons. iExists q. iFrame "Hk". by iApply "Hu".
Qed.

(** ** Destruction *)

(** [t], the first child of [par], is destroyed. *)
Definition destroys t : Prop := forall fuel par np ep a q ts (Q : unit -> assn),
  (nodes t <= fuel)%nat -> Z.of_nat (nodes t) < 2 ^ 60 -> par <> 0 -> n_first_child np = a ->
  par ↦ Node np ep -∗ tree_at par 0 a q t -∗ kids par ts a q (n_last_child np) 0 -∗
  (∀ np', ⌈n_first_child np' = q⌉ -∗ par ↦ Node np' ep -∗ kids par ts 0 q (n_last_child np') 0 -∗ leaked (texts t) -∗ Q tt) -∗
  swp (dom_node_destroy fuel a) Q.

Lemma list_sum_le (l : list nat) : Forall (fun x => (1 <= x)%nat) l -> (length l <= list_sum l)%nat.
Proof using Type. unfold list_sum. induction 1 as [|x l Hx _ IH]; cbn in *; lia. Qed.

Lemma nodes_pos t : (1 <= nodes t)%nat.
Proof using Type. destruct t; cbn; lia. Qed.

(** The children of a node, one after the other. *)
Lemma swp_destroy_kids a n e ks fuel (Q : unit -> assn) : a <> 0 -> Forall destroys ks ->
  (list_sum (map nodes ks) <= fuel)%nat -> Z.of_nat (list_sum (map nodes ks)) < 2 ^ 60 ->
  a ↦ Node n e -∗ kids a ks 0 (n_first_child n) (n_last_child n) 0 -∗
  (∀ n', a ↦ Node n' e -∗ leaked (flat_map texts ks) -∗ Q tt) -∗
  swp (loop (fun child =>
          if negb (child =? 0) then
            let* c := get_node child in
            let next := n_next_sibling c in
            dom_node_destroy fuel child ;;
            ret (Next next)
          else ret (Done tt)) (n_first_child n)) Q.
Proof using Type.
  intros Ha Hks Hfuel Hsmall. iIntros "Ha Hk HQ".
  iApply (swp_loop _ (fun m child => ∃ n' ks' done, ⌈child = n_first_child n' /\ m = Z.of_nat (length ks') /\ ks = done ++ ks'⌉ ∗
    a ↦ Node n' e ∗ kids a ks' 0 (n_first_child n') (n_last_child n') 0 ∗ leaked (flat_map texts done) ∗
    (∀ n', a ↦ Node n' e -∗ leaked (flat_map texts ks) -∗ Q tt))%I _ (Z.of_nat (length ks))).
  - iIntros (m child) "(%n' & %ks' & %done & %Hc & Ha & Hk & Hd & HQ)". destruct Hc as (-> & -> & Hd).
    iDestruct (kids_ends with "Hk") as "[%Hends Hk]". destruct ks' as [|t ts].
    + destruct Hends as [-> _]. cbn [Z.eqb negb]. iApply swp_ret. cbn [sturn]. rewrite app_nil_r in Hd. rewrite Hd.
      iApply ("HQ" with "Ha Hd").
    + destruct Hends as [Hf _]. rewrite (proj2 (Z.eqb_neq _ _) Hf). cbn [negb]. rewrite kids_cons.
      iDestruct "Hk" as (q) "[Ht Hk]". iDestruct (tree_at_next with "Ht") as (nt et) "(%Hnt & Hnt & Ht)".
      destruct Hnt as [_ Hnt]. iApply swp_bind. iApply (swp_get_node with "Hnt"). iIntros "Hnt".
      iDestruct ("Ht" $! q with "[Hnt]") as "Ht"; [by subst q; destruct nt|]. rewrite Hnt.
      rewrite Hd in Hks Hfuel Hsmall. rewrite map_app list_sum_app /= in Hfuel Hsmall.
      apply Forall_app in Hks as [_ [Htd Hks]%Forall_cons].
      iApply swp_bind. iApply (Htd with "Ha Ht Hk"); [lia|lia|done|done|].
      iIntros (np') "%Hq Ha Hk Ht". iApply swp_ret. cbn [sturn]. iExists (Z.of_nat (length ts)).
      iSplit; [iPureIntro; cbn; lia|]. iExists np', ts, (done ++ [t]). rewrite Hq. iFrame "Ha Hk HQ".
      iSplit; [iPureIntro; by rewrite Hd -assoc_L|]. rewrite /leaked flat_map_app /= app_nil_r big_sepL_app. iFrame.
  - assert (length ks <= list_sum (map nodes ks))%nat; [|lia]. rewrite -(length_map nodes ks). apply list_sum_le.
    apply Forall_map, Forall_true, nodes_pos.
  - iExists n, ks, []. iFrame. iSplit; [by iPureIntro|]. by rewrite /leaked.
Qed.

(** Destruction of a node: the strings, the links, the children, the node. *)
Lemma swp_destroy_node fuel a n e t tag id data cs l (I J : assn) (Q : unit -> assn) :
  a <> 0 -> Forall destroys (sub_trees t) -> (nodes t <= S fuel)%nat -> Z.of_nat (nodes t) < 2 ^ 60 ->
  (a ↦ Node n e -∗ I -∗
     swp (if negb (n_parent n =? 0) then unlink_child (n_parent n) a else ret tt) (fun _ => a ↦ Node n e ∗ J)) ->
  a ↦ Node n e -∗ node_owned n tag id data cs l -∗ kids a (sub_trees t) 0 (n_first_child n) (n_last_child n) 0 -∗
  leaked (match t with Txt d => [d] | _ => [] end) -∗ I -∗
  (J -∗ leaked (texts t) -∗ Q tt) -∗ swp (dom_node_destroy (S fuel) a) Q.
Proof using Type.
  intros Ha Hks Hfuel Hsmall Hunlink. iIntros "Ha Ho Hk Hd HI HQ". cbn [dom_node_destroy].
  rewrite (proj2 (Z.eqb_neq a 0) Ha). iApply swp_bind. iApply (swp_free_strings with "Ha Ho"). iIntros "Ha".
  iApply swp_bind. iApply (swp_get_node with "Ha"). iIntros "Ha".
  iApply swp_bind. iApply (swp_wand with "[Ha HI]"); [iApply (Hunlink with "Ha HI")|]. iIntros (_) "[Ha HJ]".
  iApply swp_bind. iApply (swp_get_node with "Ha"). iIntros "Ha". iApply swp_bind.
  assert (list_sum (map nodes (sub_trees t)) < nodes t)%nat as Hsum by (destruct t; [apply Nat.lt_succ_diag_r|apply Nat.lt_0_succ]).
  iApply (swp_destroy_kids with "Ha Hk"); [done|done|lia|lia|]. iIntros (n') "Ha Ht".
  iApply swp_free; [done|]. iFrame "Ha". iApply ("HQ" with "HJ"). destruct t; cbn [sub_trees texts flat_map]; done.
Qed.

Lemma destroys_step t : Forall destroys (sub_trees t) -> destroys t.
Proof using Type.
  intros IH fuel par np ep a q ts Q Hfuel Hsmall Hpar Hf. iIntros "Hp Ht Hk HQ".
  iDestruct (tree_at_root with "Ht") as (n e tg id data cs l) "(%Hn & Ha & Ho & Hks & Hd)". destruct Hn as (Ha & Hl & _).
  destruct fuel as [|fuel]; [pose proof (nodes_pos t); lia|].
  iApply (swp_destroy_node _ _ _ _ t _ _ _ _ _ (par ↦ Node np ep ∗ kids par ts a q (n_last_child np) 0)%I
    (∃ np', ⌈n_first_child np' = q⌉ ∗ par ↦ Node np' ep ∗ kids par ts 0 q (n_last_child np') 0)%I
    with "Ha Ho Hks Hd [$Hp $Hk]"); [done..| |].
  - iIntros "Ha [Hp Hk]". destruct Hl as (Hlp & Hlv & Hlx). rewrite Hlp (proj2 (Z.eqb_neq par 0) Hpar). cbn [negb].
    iApply (swp_unlink_first with "Hp Ha Hk"); [done|done|]. iIntros (np') "%Hq Hp Ha Hk". iFrame "Ha".
    iExists np'. iFrame. by iPureIntro.
  - iIntros "(%np' & %Hq & Hp & Hk) Ht". by iApply ("HQ" with "[//] Hp Hk Ht").
Qed.

Lemma destroys_all ts : Forall destroys ts.
Proof using Type.
  apply Forall_true. intros t. induction t as [tag attrs ks IH|d] using tree_nested_ind; by apply destroys_step.
Qed.

(** A root, whose reference count may have changed. *)
Lemma swp_destroy_root fuel a n e t tag id data cs l (Q : unit -> assn) :
  a <> 0 -> n_parent n = 0 -> (nodes t <= fuel)%nat -> Z.of_nat (nodes t) < 2 ^ 60 ->
  a ↦ Node n e -∗ node_owned n tag id data cs l -∗ kids a (sub_trees t) 0 (n_first_child n) (n_last_child n) 0 -∗
  leaked (match t with Txt d => [d] | _ => [] end) -∗ (leaked (texts t) -∗ Q tt) -∗ swp (dom_node_destroy fuel a) Q.
Proof using Type.
  intros Ha Hp Hfuel Hsmall. iIntros "Ha Ho Hk Hd HQ". destruct fuel as [|fuel]; [pose proof (nodes_pos t); lia|].
  iApply (swp_destroy_node _ _ _ _ t _ _ _ _ _ emp%I emp%I with "Ha Ho Hk Hd []"); [done|apply destroys_all|done|done| |done|].
  - iIntros "Ha _". rewrite Hp. cbn [Z.eqb negb]. iApply swp_ret. by iFrame.
  - iIntros "_". iExact "HQ".
Qed.

(** ** The fuel *)

Lemma many_kids par ts prev p last nxt :
  Forall (fun t => forall par prev a nxt, holds_many (nodes t) (tree_at par prev a nxt t)) ts ->
  holds_many (list_sum (map nodes ts)) (kids par ts prev p last nxt).
Proof using Type.
  intros Hts. revert prev p. induction Hts as [|t ts Ht _ IH]; intros prev p; [apply many_any|].
  apply many_exist. intros q. apply (many_sep (nodes t)); [apply Ht|apply IH].
Qed.

Lemma many_tree par prev a nxt t : holds_many (nodes t) (tree_at par prev a nxt t).
Proof using Type.
  revert par prev a nxt. induction t as [tag attrs ks IH|d] using tree_nested_ind; intros par prev a nxt.
  - apply many_exist. intros n. apply (many_sep 0); [apply many_any|]. apply (many_sep 1); [apply many_pt|].
    apply (many_sep 0); [apply many_any|]. by apply many_kids.
  - apply many_exist. intros n. apply many_exist. intros dp. apply (many_sep 0); [apply many_any|].
    apply (many_sep 1 0); [apply many_pt|apply many_any].
Qed.

Lemma swp_unref a t (Q : unit -> assn) : Z.of_nat (nodes t) < 2 ^ 60 ->
  tree_at 0 0 a 0 t -∗ (leaked (texts t) -∗ Q tt) -∗ swp (dom_node_unref a) Q.
Proof using Type.
  intros Hsmall. iIntros "Ht HQ". unfold dom_node_unref.
  iDestruct (tree_at_root with "Ht") as (n e tag id data cs l) "(%Hn & Ha & Ho & Hk & Hd)". destruct Hn as (Ha & Hl & Hr).
  rewrite (proj2 (Z.eqb_neq a 0) Ha). iApply swp_bind. iApply (swp_upd_node with "Ha"). iIntros "Ha".
  iApply swp_bind. iApply (swp_get_node with "Ha"). iIntros "Ha". rewrite Hr. change (u32 (1 - 1)) with 0.
  cbn [n_ref_count n_with_ref_count Z.eqb]. iApply swp_bind.
  iApply (swp_destroy_fuel (nodes t) (a ↦ Node (n_with_ref_count 0 n) e ∗
    kids a (sub_trees t) 0 (n_first_child n) (n_last_child n) 0)%I with "[$Ha $Hk]").
  { assert (list_sum (map nodes (sub_trees t)) + 1 = nodes t)%nat as <- by (destruct t; [apply Nat.add_comm|done]).
    rewrite Nat.add_comm. apply (many_sep 1); [apply many_pt|]. apply many_kids, Forall_true. intros; apply many_tree. }
  iIntros (f) "%Hf [Ha Hk]". iApply (swp_destroy_root with "Ha Ho Hk Hd HQ"); [done|apply Hl|lia|done].
Qed.

(** C16: the last reference to a tree that stands alone is dropped: the
    recursion of [dom_node_destroy] ends, every node is unlinked and freed
    with its strings, each once, and of what the tree held in memory only the
    second copies of its texts are left. *)
Theorem dom_node_unref_correct (s : dom H) a t made rest :
  objs s = made ∪ rest -> made ##ₘ rest -> tree_at 0 0 a 0 t made -> Z.of_nat (nodes t) < 2 ^ 60 -> sound s ->
  exists s' left, dom_node_unref a s = Ok (tt, s') /\ objs s' = left ∪ rest /\ left ##ₘ rest /\ leaked (texts t) left /\
    sound s'.
Proof using Type.
  intros Ho Hd Ht Hsmall Hs.
  destruct (swp_adequate (dom_node_unref a) (tree_at 0 0 a 0 t) (fun _ => leaked (texts t)) s made rest)
    as ([] & s' & left & Hrun & Hd' & Hs' & Hl & Hsound); [|done..|by exists s', left].
  iIntros "Ht". iApply (swp_unref with "Ht"); [done|]. by iIntros "H".
Qed.
End Destroy.

(** ** Example *)

Section Example.
#[local] Existing Instance counter_heap.
#[local] Existing Instance counter_heap_laws.
#[local] Existing Instance no_handlers.

Definition p_node : dom_node := n_with_last_child 48 (n_with_first_child 48 (new_node DOM_NODE_TYPE_ELEMENT 32 0)).
Definition x_node : dom_node := n_with_parent 16 (new_node DOM_NODE_TYPE_TEXT 0 64).
Definition small_objs : gmap Z obj :=
  <[16 := Node p_node (IsElement zero_element)]> (<[32 := Str (chars "p")]> (<[48 := Node x_node (IsText 80)]>
    (<[64 := Str (chars "x")]> (<[80 := Str (chars "x")]> ∅)))).

Lemma dom_node_unref_correct_witness :
  exists s' left, dom_node_unref 16 (Dom 96 small_objs) = Ok (tt, s') /\ objs s' = left ∪ ∅ /\ left ##ₘ (∅ : gmap Z obj) /\
    leaked [chars "x"] left /\ sound s'.
Proof.
  apply (dom_node_unref_correct (Dom 96 small_objs) 16 (Elem (chars "p") [] [Txt (chars "x")]) small_objs ∅).
  - by rewrite right_id_L.
  - apply map_disjoint_empty_r.
  - apply (holds_mono (16 ↦ Node p_node (IsElement zero_element) ∗ 32 ↦ Str (chars "p") ∗ 48 ↦ Node x_node (IsText 80) ∗
      64 ↦ Str (chars "x") ∗ 80 ↦ Str (chars "x") ∗ emp)).
    + iIntros "(Ha & Ht & Hb & Hx & Hd & _)". cbn [tree_at kids_at]. iExists p_node. iFrame "Ha".
      iSplitR; [iPureIntro; vm_compute; done|]. iSplitL "Ht".
      * unfold element_owned, classes_at, attrs_at, attr_arrays. iFrame "Ht". iSplitR; [by iPureIntro|].
        iSplitR; [by iPureIntro|]. iSplitR; [iApply names_at_nil|]. iSplitR; iApply names_at_nil.
      * iExists 0. iSplitL; [|by iPureIntro]. iExists x_node, 80. iFrame "Hb Hx Hd". iPureIntro. vm_compute. done.
    + by repeat apply pt_insert.
  - done.
  - by apply counter_sound.
Defined.
End Example.
