(* ===== verification/HtmlQuery.v ===== *)
(** * Finding an element by its id

    [dom_document_get_element_by_id] on the documents of [HtmlTree]: it visits
    the first child of the document and what is below it, in document order,
    and no other child of the document. *)

From S2P Require Import Sep Prelude CMem Alloc DomObj Scan Dom DomTree DomSpec DomSep DomProofs Html HtmlSpec HtmlScan HtmlTree HtmlProofs HtmlDestroy HtmlParse.

(** The first element with the id, in document order. *)
Fixpoint with_id (id : text) (t : tree) : option tree :=
  match t with
  | Txt _ => None
  | Elem _ attrs kids =>
      if decide (element_id attrs = Some id) then Some t
      else
        (fix go (ts : list tree) : option tree :=
           match ts with
           | [] => None
           | t :: ts => match with_id id t with Some u => Some u | None => go ts end
           end) kids
  end.

Fixpoint first_with_id (id : text) (ts : list tree) : option tree :=
  match ts with
  | [] => None
  | t :: ts => match with_id id t with Some u => Some u | None => first_with_id id ts end
  end.

Lemma with_id_Elem id tag attrs kids : with_id id (Elem tag attrs kids) =
  if decide (element_id attrs = Some id) then Some (Elem tag attrs kids) else first_with_id id kids.
Proof. cbn. destruct (decide _); [done|]. induction kids as [|t ts IH]; [done|]. cbn. by destruct (with_id id t). Qed.

Section Query.
Context {H : Type} `{LibcHeapLaws H} `{!Handlers H}.
Abbreviation assn := (sprop obj).
Implicit Types (n : dom_node) (e : node_ext) (t u : tree) (ts ks : list tree) (par prev a nxt last : Z) (P : assn).

(** The tree [u] stands at [r], as a part of [P]. *)
Definition part u r P : assn :=
  (∃ par prev nxt, ⌈r <> 0⌉ ∗ tree_at par prev r nxt u ∗ (tree_at par prev r nxt u -∗ P))%I.

Lemma part_wand u r P P' : part u r P -∗ (P -∗ P') -∗ part u r P'.
Proof using Type.
  iIntros "(%par & %prev & %nxt & %Hr & Hu & HP) HP'". iExists par, prev, nxt. iFrame "Hu". iSplit; [by iPureIntro|].
  iIntros "Hu". iApply "HP'". by iApply "HP".
Qed.

(** What a search answers: the null pointer, or the address of the tree. *)
Definition answers (o : option tree) P (Q : Z -> assn) : assn :=
  match o with
  | Some u => ∀ r, part u r P -∗ Q r
  | None => P -∗ Q 0
  end%I.

Definition finds (id : text) t : Prop := forall fuel par prev a nxt c (Q : Z -> assn), (nodes t <= fuel)%nat ->
  Z.of_nat (nodes t) < 2 ^ 60 ->
  tree_at par prev a nxt t -∗ cstr c id -∗ answers (with_id id t) (tree_at par prev a nxt t ∗ cstr c id) Q -∗
  swp (dom_node_get_element_by_id_recursive fuel a c) Q.

Lemma kids_app par ts us prev p last nxt :
  kids par (ts ++ us) prev p last nxt ⊣⊢ ∃ q m, kids par ts prev p m q ∗ kids par us m q last nxt.
Proof using Type.
  revert prev p. induction ts as [|t ts IH]; intros prev p; cbn [app].
  - iSplit.
    + iIntros "H". iExists p, prev. iFrame. by iPureIntro.
    + iIntros "(%q & %m & H1 & H2)". iDestruct "H1" as %[-> ->]. iFrame.
  - rewrite !kids_cons. iSplit.
    + iIntros "(%q & Ht & Hk)". rewrite IH. iDestruct "Hk" as (q' m) "[H1 H2]". iExists q', m. iFrame "H2".
      rewrite kids_cons. iExists q. iFrame.
    + iIntros "(%q & %m & H1 & H2)". rewrite kids_cons. iDestruct "H1" as (q') "[Ht H1]". iExists q'. iFrame "Ht".
      rewrite IH. iExists q, m. iFrame.
Qed.

(** The loop over the children [ks] from [p] on. *)
Lemma swp_find_kids id a ks first last c fuel (Q : Z -> assn) : Forall (finds id) ks ->
  (list_sum (map nodes ks) <= fuel)%nat -> Z.of_nat (list_sum (map nodes ks)) < 2 ^ 60 ->
  kids a ks 0 first last 0 -∗ cstr c id -∗ answers (first_with_id id ks) (kids a ks 0 first last 0 ∗ cstr c id) Q -∗
  swp (loop (fun child =>
            if negb (child =? 0) then
              let* result := dom_node_get_element_by_id_recursive fuel child c in
              if negb (result =? 0) then ret (Done result)
              else let* c := get_node child in ret (Next (n_next_sibling c))
            else ret (Done 0)) first) Q.
Proof using Type.
  intros Hks Hfuel Hsmall. iIntros "Hk Hc HQ".
  iApply (swp_loop _ (fun m p => ∃ done rest prev, ⌈m = Z.of_nat (length rest) /\ ks = done ++ rest /\
      first_with_id id ks = first_with_id id rest⌉ ∗
    kids a done 0 first prev p ∗ kids a rest prev p last 0 ∗ cstr c id ∗
    answers (first_with_id id ks) (kids a ks 0 first last 0 ∗ cstr c id) Q)%I _ (Z.of_nat (length ks))).
  - iIntros (m p) "(%done & %rest & %prev & %Hd & Hd & Hr & Hc & HQ)". destruct Hd as (-> & Hd & Hf).
    iDestruct (kids_ends with "Hr") as "[%Hends Hr]". destruct rest as [|t ts].
    + destruct Hends as [-> ->]. cbn [Z.eqb negb]. iApply swp_ret. cbn [sturn]. rewrite Hf. cbn [first_with_id answers].
      iApply "HQ". iFrame "Hc". rewrite Hd app_nil_r. iExact "Hd".
    + destruct Hends as [Hp _]. rewrite (proj2 (Z.eqb_neq _ _) Hp). cbn [negb]. rewrite kids_cons.
      iDestruct "Hr" as (q) "[Ht Hk]". rewrite Hd in Hks Hfuel Hsmall. rewrite map_app list_sum_app /= in Hfuel Hsmall.
      apply Forall_app in Hks as [_ [Htd Hks]%Forall_cons].
      iAssert (tree_at a prev p q t ∗ cstr c id -∗ kids a done 0 first prev p -∗ kids a ts p q last 0 -∗
        kids a ks 0 first last 0 ∗ cstr c id)%I as "Hback".
      { iIntros "[Ht Hc] Hd Hk". iFrame "Hc". rewrite Hd kids_app. iExists p, prev. iFrame "Hd". rewrite kids_cons.
        iExists q. iFrame. }
      iApply swp_bind. iApply (Htd with "Ht Hc"); [lia|lia|]. cbn [first_with_id] in Hf. rewrite Hf.
      destruct (with_id id t) as [u|]; cbn [answers].
      * iIntros (r) "Hp". iAssert (⌈r <> 0⌉ ∗ part u r (tree_at a prev p q t ∗ cstr c id))%I with "[Hp]" as "[%Hr Hp]".
        { iDestruct "Hp" as (par' prev' nxt') "[%Hr Hp]". iSplit; [by iPureIntro|]. iExists par', prev', nxt'. iFrame.
          by iPureIntro. }
        rewrite (proj2 (Z.eqb_neq r 0) Hr). cbn [negb]. iApply swp_ret. cbn [sturn]. iApply "HQ".
        iApply (part_wand with "Hp"). iIntros "Ht". iApply ("Hback" with "Ht Hd Hk").
      * iClear "Hback". iIntros "[Ht Hc]". cbn [Z.eqb negb].
        iDestruct (tree_at_next with "Ht") as (nt et) "(%Hnt & Hnt & Ht)". destruct Hnt as [_ Hnt].
        iApply swp_bind. iApply (swp_get_node with "Hnt"). iIntros "Hnt". iApply swp_ret. cbn [sturn].
        iDestruct ("Ht" $! q with "[Hnt]") as "Ht"; [by subst q; destruct nt|]. rewrite Hnt.
        iExists (Z.of_nat (length ts)). iSplit; [iPureIntro; cbn; lia|]. iExists (done ++ [t]), ts, p. rewrite -Hf.
        iFrame "Hk Hc HQ". iSplit; [iPureIntro; by rewrite Hd -assoc_L|]. rewrite kids_app. iExists p, prev. iFrame "Hd".
        rewrite kids_cons. iExists q. iFrame. by iPureIntro.
  - assert (length ks <= list_sum (map nodes ks))%nat; [|lia]. rewrite -(length_map nodes ks). apply list_sum_le.
    apply Forall_map, Forall_true, nodes_pos.
  - iExists [], ks, 0. iFrame. by iPureIntro.
Qed.

Lemma recursive_step fuel a c : dom_node_get_element_by_id_recursive (H := H) (S fuel) a c =
  if (a =? 0) || is_null c then ret 0
  else
    let* n := get_node a in
    let* element := dom_node_is_element a in
    let* eq := (if element && negb (n_id n =? 0) then str_eq (Ptr (n_id n)) c else ret false) in
    if (eq : bool) then ret a
    else
      loop (fun child =>
        if negb (child =? 0) then
          let* result := dom_node_get_element_by_id_recursive fuel child c in
          if negb (result =? 0) then ret (Done result)
          else let* c := get_node child in ret (Next (n_next_sibling c))
        else ret (Done 0)) (n_first_child n).
Proof using Type. done. Qed.

Lemma finds_elem id tag attrs ks : Forall (finds id) ks -> finds id (Elem tag attrs ks).
Proof using Type.
  intros Hks fuel par prev a nxt c Q Hfuel Hsmall. iIntros "Ht Hc HQ". destruct fuel as [|fuel]; [cbn in Hfuel; lia|].
  iDestruct (cstr_not_null with "Hc") as "[%Hnn Hc]". iDestruct (tree_at_nonzero with "Ht") as "[%Ha Ht]".
  rewrite recursive_step (proj2 (Z.eqb_neq a 0) Ha) Hnn. cbn [orb].
  assert (list_sum (map nodes ks) < nodes (Elem tag attrs ks))%nat as Hsum by (apply Nat.lt_succ_diag_r).
  rewrite with_id_Elem. cbn [tree_at]. iDestruct "Ht" as (n) "(%Hn & Ha & (Hg & Hi & Hown) & Hk)".
  destruct Hn as (_ & Hl & Hp). iApply swp_bind. iApply (swp_get_node with "Ha"). iIntros "Ha".
  iApply swp_bind. iApply (swp_has_type with "Ha"); [done|]. iIntros "Ha".
  rewrite bool_decide_eq_true_2; [|by apply (f_equal n_type) in Hp]. cbn [andb].
  iApply swp_bind. iApply (swp_wand _ (fun b => ⌈b = bool_decide (element_id attrs = Some id)⌉ ∗ ostr (n_id n) (element_id attrs) ∗
    cstr c id)%I with "[Hi Hc]").
  { destruct (element_id attrs) as [v|]; cbn [ostr].
    - iDestruct (str_at_pure with "Hi") as "[%Hi Hi]". rewrite (proj2 (Z.eqb_neq _ 0) (proj1 Hi)). cbn [negb].
      iApply (swp_str_eq (Ptr (n_id n)) with "Hi Hc"). iIntros "Hi Hc". iFrame. iPureIntro.
      apply bool_decide_ext. split; [by intros ->|by intros [= ->]].
    - iDestruct "Hi" as %->. cbn [Z.eqb negb]. iApply swp_ret. iFrame. by iPureIntro. }
  iIntros (b) "(-> & Hi & Hc)". case_bool_decide as Hid.
  - rewrite decide_True //. iApply swp_ret. cbn [answers]. iApply "HQ". iExists par, prev, nxt. iSplit; [by iPureIntro|].
    iSplitR "Hc"; [|iIntros "Ht"; iFrame].
    cbn [tree_at]. iExists n. iFrame. by iPureIntro.
  - rewrite decide_False //. iApply (swp_find_kids id a ks with "Hk Hc"); [done|lia|lia|].
    assert (forall R S : assn, (R -∗ S) ⊢ answers (first_with_id id ks) S Q -∗ answers (first_with_id id ks) R Q) as Hmono.
    { intros R S. iIntros "HRS HQ". destruct (first_with_id id ks) as [u|]; cbn [answers].
      - iIntros (r) "Hp". iApply "HQ". iApply (part_wand with "Hp HRS").
      - iIntros "HR". iApply "HQ". by iApply "HRS". }
    iApply (Hmono with "[Ha Hg Hi Hown] HQ"). iIntros "[Hk Hc]". iFrame "Hc". iExists n. iFrame. by iPureIntro.
Qed.

Lemma finds_txt id d : finds id (Txt d).
Proof using Type.
  intros fuel par prev a nxt c Q Hfuel Hsmall. iIntros "Ht Hc HQ". destruct fuel as [|fuel]; [cbn in Hfuel; lia|].
  iDestruct (cstr_not_null with "Hc") as "[%Hnn Hc]". iDestruct (tree_at_nonzero with "Ht") as "[%Ha Ht]".
  rewrite recursive_step (proj2 (Z.eqb_neq a 0) Ha) Hnn. cbn [orb tree_at]. iDestruct "Ht" as (n dp) "(%Hn & Ha & Hd)".
  destruct Hn as (_ & Hl & Hp & Hf & Hla). iApply swp_bind. iApply (swp_get_node with "Ha"). iIntros "Ha".
  iApply swp_bind. iApply (swp_has_type with "Ha"); [done|]. iIntros "Ha".
  rewrite bool_decide_eq_false_2; [|apply (f_equal n_type) in Hp; cbn in Hp; by rewrite Hp]. cbn [andb].
  iApply swp_bind. iApply swp_ret. rewrite Hf.
  iApply (swp_find_kids id a [] 0 0 with "[] Hc"); [done|cbn; lia|cbn; lia|by iPureIntro|]. cbn [first_with_id with_id answers].
  iIntros "[_ Hc]". iApply "HQ". iFrame "Hc". iExists n, dp. iFrame. by iPureIntro.
Qed.

Lemma finds_tree id t : finds id t.
Proof using Type.
  induction t as [tag attrs ks IH|d] using tree_nested_ind; [by apply finds_elem|apply finds_txt].
Qed.
End Query.

(** ** The document *)

Section Document.
Context {H : Type} `{HtmlLibLaws H}.

Definition small_trees (ts : list tree) : Prop := Forall (fun t => Z.of_nat (nodes t) < 2 ^ 60) ts.

Lemma swp_get_element_by_id doc ts id (Q : Z -> sprop obj) : short id -> small_trees ts ->
  document_at doc ts -∗ answers (head ts ≫= with_id id) (document_at doc ts) Q -∗
  swp (dom_document_get_element_by_id doc (Lit id)) Q.
Proof using Type.
  intros Hid Hts. iIntros "Hd HQ". unfold dom_document_get_element_by_id.
  iDestruct "Hd" as (n d h d0 h0) "(%Hn & Hd & Hk & Hown)". destruct Hn as [Hdoc Hl].
  rewrite (proj2 (Z.eqb_neq doc 0) Hdoc). cbn [is_null orb]. iApply swp_bind. iApply (swp_get_node with "Hd"). iIntros "Hd".
  iAssert (doc ↦ Node n (IsHtmlDocument d h) -∗ kids doc ts 0 (n_first_child n) (n_last_child n) 0 -∗ document_owned d0 h0 -∗
    document_at doc ts)%I as "Hback".
  { iIntros "Hd Hk Hown". iExists n, d, h, d0, h0. iFrame. by iPureIntro. }
  iApply swp_bind. destruct ts as [|t ts]; cbn [head mbind option_bind].
  - iApply (swp_destroy_fuel 0 emp%I); [apply many_any|done|]. iIntros (f) "%Hf _". destruct f as [|f]; [lia|].
    iDestruct "Hk" as %[-> Hk]. cbn [answers]. iApply swp_ret. iApply "HQ". iApply ("Hback" with "Hd [] Hown"). by iPureIntro.
  - apply Forall_cons in Hts as [Ht _]. rewrite kids_cons. iDestruct "Hk" as (q) "[Ht Hk]".
    iApply (swp_destroy_fuel (nodes t) with "Ht"); [apply many_tree|]. iIntros (f) "%Hf Ht".
    iApply (finds_tree id t f with "Ht []"); [lia|done|by iPureIntro|]. destruct (with_id id t) as [u|]; cbn [answers].
    + iIntros (r) "Hp". iApply "HQ". iApply (part_wand with "Hp"). iIntros "[Ht _]". iApply ("Hback" with "Hd [Ht Hk] Hown").
      iExists q. iFrame.
    + iIntros "[Ht _]". iApply "HQ". iApply ("Hback" with "Hd [Ht Hk] Hown"). iExists q. iFrame.
Qed.

(** C31: [dom_document_get_element_by_id] answers with the first element, in
    document order, that has the id, among the first child of the document and
    what is below it; with the null pointer when there is none.  The other
    children of the document are never looked at. *)
Theorem dom_document_get_element_by_id_correct (s : dom H) doc ts id made rest :
  objs s = made ∪ rest -> made ##ₘ rest -> document_at doc ts made -> sound s -> short id -> small_trees ts ->
  exists r s' made', dom_document_get_element_by_id doc (Lit id) s = Ok (r, s') /\
    objs s' = made' ∪ rest /\ made' ##ₘ rest /\ sound s' /\
    match head ts ≫= with_id id with
    | Some u => part u r (document_at doc ts) made'
    | None => r = 0 /\ document_at doc ts made'
    end.
Proof using Type.
  intros Ho Hd Hdoc Hs Hid Hts.
  destruct (swp_adequate (dom_document_get_element_by_id doc (Lit id)) (document_at doc ts)
    (fun r => match head ts ≫= with_id id with
              | Some u => part u r (document_at doc ts)
              | None => ⌈r = 0⌉ ∗ document_at doc ts
              end)%I s made rest) as (r & s' & made' & Hrun & Hd' & Hs' & Hpost & Hsound); [|done..|].
  - iIntros "Hd". iApply (swp_get_element_by_id with "Hd"); [done|done|]. destruct (head ts ≫= with_id id); cbn [answers].
    + iIntros (r) "Hp". iExact "Hp".
    + iIntros "Hd". iFrame. by iPureIntro.
  - exists r, s', made'. do 4 (split; [done|]). destruct (head ts ≫= with_id id); [done|].
    destruct Hpost as (σ1 & σ2 & -> & _ & [-> ->] & Hp). by rewrite left_id_L.
Qed.
End Document.

(** ** Example *)

Section Example.
#[local] Existing Instances counter_heap counter_heap_laws no_handlers ascii_lib ascii_laws.

(** The document with the one child <br id=a>. *)
Definition br_document : dom_node :=
  n_with_last_child 32 (n_with_first_child 32 (n_with_type DOM_NODE_TYPE_DOCUMENT zero_node)).
Definition br_node : dom_node :=
  n_with_parent 16 (n_with_attrs 80 112 1 (n_with_id 64 (new_node DOM_NODE_TYPE_ELEMENT 48 0))).
Definition br_tree : tree := Elem (chars "br") [(chars "id", Some (chars "a"))] [].
Definition br_objs : gmap Z obj :=
  <[16 := Node br_document empty_document]> (<[32 := Node br_node (IsElement zero_element)]> (<[48 := Str (chars "br")]>
    (<[64 := Str (chars "a")]> (<[80 := Ptrs [Some 96]]> (<[96 := Str (chars "id")]> (<[112 := Ptrs [Some 128]]>
    (<[128 := Str (chars "a")]> ∅))))))).

Lemma br_objs_document : document_at 16 [br_tree] br_objs.
Proof.
  apply (holds_mono (16 ↦ Node br_document empty_document ∗ 32 ↦ Node br_node (IsElement zero_element) ∗
    48 ↦ Str (chars "br") ∗ 64 ↦ Str (chars "a") ∗ 80 ↦ Ptrs [Some 96] ∗ 96 ↦ Str (chars "id") ∗
    112 ↦ Ptrs [Some 128] ∗ 128 ↦ Str (chars "a") ∗ emp)); [|by repeat apply pt_insert].
  iIntros "(Hd & Ha & Ht & Hi & Hn & Hk & Hv & Hx & _)". iExists br_document, _, _, zero_document, (HtmlDocument 0 0 0 0 0 0 0 0 0 0 0 0 0 false false).
  iFrame "Hd". iSplitR; [by iPureIntro|]. iSplitL; [|done]. rewrite kids_cons. iExists 0. iSplitL; [|by iPureIntro].
  cbn [tree_at br_tree kids_at]. iExists br_node. iFrame "Ha". iSplitR; [iPureIntro; vm_compute; done|].
  iSplitL; [|by iPureIntro]. iFrame "Ht". iSplitR; [by iPureIntro|]. iSplitL "Hi"; [iFrame; by iPureIntro|].
  iSplitR; [iApply names_at_nil|]. iSplitL "Hn Hk".
  - iExists [96]. iSplitR; [by iPureIntro|]. iSplitL "Hn"; [iRight; iFrame; by iPureIntro|]. cbn. iFrame. by iPureIntro.
  - iExists [128]. iSplitR; [by iPureIntro|]. iSplitL "Hv"; [iRight; iFrame; by iPureIntro|]. cbn. iFrame. by iPureIntro.
Qed.

Lemma dom_document_get_element_by_id_correct_witness :
  exists r s' made', dom_document_get_element_by_id 16 (Lit (chars "a")) (Dom 144 br_objs) = Ok (r, s') /\
    objs s' = made' ∪ ∅ /\ made' ##ₘ (∅ : gmap Z obj) /\ sound s' /\ part br_tree r (document_at 16 [br_tree]) made'.
Proof.
  apply (dom_document_get_element_by_id_correct (Dom 144 br_objs) 16 [br_tree] (chars "a") br_objs ∅).
  - by rewrite right_id_L.
  - apply map_disjoint_empty_r.
  - apply br_objs_document.
  - by apply counter_sound.
  - done.
  - by repeat constructor.
Defined.
End Example.
