(* ===== verification/SourceFile.v ===== *)
(** * Parsing a file (html_parser_parse_file, css_parser_parse_file)

    Both functions open a file, read all of it into a block of the heap, parse
    the string in the block and free it.  The functions of stdio.h are the
    interface [Stdio], on the state of the allocator, since a stream lies in
    its memory; [StdioLaws] says what is relied on of them: a stream on a file
    knows the bytes and the position, and [malloc] and the stream operations
    leave each other's data alone. *)

From S2P Require Import Sep Prelude CMem CStr Ctype Strtol Alloc CssObj DomObj Scan Dom DomTree DomSpec DomSep DomProofs Html HtmlSpec HtmlScan HtmlTree HtmlProofs HtmlParse.
From S2P Require Css CssSpec CssScan CssProofs CssParse CssExamples.

(** ** Operations *)

Definition SEEK_SET : Z := 0.
Definition SEEK_END : Z := 2.

(** [fopen_op] takes the name and the mode; [fread_op file n] is
    [fread(block, 1, n, file)], and answers the bytes it puts into the block. *)
Class Stdio (H : Type) : Type := {
  fopen_op : text -> text -> prog H Z;
  fseek_op : Z -> Z -> Z -> prog H Z;
  ftell_op : Z -> prog H Z;
  fread_op : Z -> Z -> prog H (list Z);
  fclose_op : Z -> prog H Z;
}.

(** The two fields that a failure to open the file sets. *)
Definition p_with_error (message : text) (p : html_parser) : html_parser :=
  p_with_has_errors true (p_with_error_message message p).
Definition cp_with_error (message : list Z) (p : css_parser_t) : css_parser_t :=
  CssParser (cp_input p) (cp_position p) (cp_length p) (cp_line p) (cp_column p) (cp_current_token p) (cp_token_ready p)
    (cp_in_declaration p) (cp_in_at_rule p) (cp_in_media_rule p) true message.

(** [snprintf(error_message, 256, "Cannot open file: %s", filename)] *)
Definition open_error (filename : text) : text := take 255 (chars "Cannot open file: " ++ filename).

Section ParseFile.
Context {H : Type} `{LibcHeap H} `{!Stdio H}.

(** From the first [fseek] to [fclose]: the address of the string, or 0.  A
    size below 0 puts the final zero before the block; when less than the size
    is read and no zero is in it, the parser reads bytes that nothing wrote. *)
Definition read_file (file : Z) : prog (dom H) Z :=
  on_heap (fseek_op file 0 SEEK_END) ;;
  let* size := on_heap (ftell_op file) in
  on_heap (fseek_op file 0 SEEK_SET) ;;
  let* block := malloc (u64 (size + 1)) in
  if block =? 0 then on_heap (fclose_op file) ;; ret 0
  else
    let* bytes := on_heap (fread_op file (u64 size)) in
    if (0 <=? size) && ((Z.of_nat (length bytes) =? size) || bool_decide (0 ∈ bytes)) then
      init_obj block (Str (string_in bytes)) ;;
      on_heap (fclose_op file) ;;
      ret block
    else fault.

Definition html_parser_parse_file `{!Handlers H} `{!HtmlLib H} (parser : Z) (filename : cstring) : prog (dom H) Z :=
  let* name := get_str filename in
  let* file := on_heap (fopen_op name (chars "r")) in
  if file =? 0 then
    upd_parser parser (p_with_error (open_error name)) ;;
    ret 0
  else
    let* html := read_file file in
    if html =? 0 then ret 0
    else
      let* doc := html_parser_parse parser (Ptr html) in
      free html ;;
      ret doc.

Definition css_parser_parse_file `{!Css.CssLib H} `{!Css.CssStrings} (parser : Z) (filename : cstring) : prog (dom H) Z :=
  let* name := get_str filename in
  let* file := on_heap (fopen_op name (chars "r")) in
  if file =? 0 then
    Css.upd_css_parser parser (cp_with_error (open_error name)) ;;
    ret 0
  else
    let* css := read_file file in
    if css =? 0 then ret 0
    else
      let* stylesheet := Css.css_parser_parse parser css in
      free css ;;
      ret stylesheet.
End ParseFile.

(** ** What is relied on of stdio.h *)

(** [on_disk h name] is what the file holds that [fopen] can open for reading
    in [h], and [stream_at h f bytes k] says that the stream [f] is on these
    bytes, at position [k]. *)
Class StdioLaws (H : Type) `{LibcHeapLaws H} `{!Stdio H} : Type := {
  on_disk : H -> text -> option (list Z);
  stream_at : H -> Z -> list Z -> nat -> Prop;
  fopen_law : forall h L name, used h L ->
    wp (fopen_op name (chars "r")) (fun f h' => used h' L /\
      match on_disk h name with Some bytes => f <> 0 /\ stream_at h' f bytes 0 | None => f = 0 end) h;
  fseek_law : forall h L f bytes k whence, used h L -> stream_at h f bytes k -> whence = SEEK_SET \/ whence = SEEK_END ->
    wp (fseek_op f 0 whence) (fun _ h' => used h' L /\ stream_at h' f bytes (if whence =? SEEK_SET then 0%nat else length bytes)) h;
  ftell_law : forall h L f bytes k, used h L -> stream_at h f bytes k ->
    wp (ftell_op f) (fun r h' => r = Z.of_nat k /\ used h' L /\ stream_at h' f bytes k) h;
  fread_law : forall h L f bytes k n, used h L -> stream_at h f bytes k -> 0 <= n ->
    wp (fread_op f n) (fun l h' => l = take (Z.to_nat n) (drop k bytes) /\ used h' L /\ stream_at h' f bytes (k + length l)) h;
  fclose_law : forall h L f bytes k, used h L -> stream_at h f bytes k ->
    wp (fclose_op f) (fun _ h' => used h' L) h;
  malloc_stream_law : forall h L f bytes k n, used h L -> stream_at h f bytes k -> 0 < n ->
    wp (malloc_op n) (fun _ h' => stream_at h' f bytes k) h;
}.

(** ** Reading the file *)

Lemma wp_and {S A} (m : prog S A) (P Q : A -> S -> Prop) s : wp m P s -> wp m Q s -> wp m (fun a s' => P a s' /\ Q a s') s.
Proof. unfold wp. by destruct (m s) as [[a s']| |]. Qed.

Section Reading.
Context {H : Type} `{StdioLaws H}.
Implicit Types (s : dom H) (P a f doc : Z) (o : obj) (t : text) (bytes : list Z) (rest made left : gmap Z obj).

(** The state holds the object [o] at [P] and [rest]. *)
Definition holding s P o rest : Prop := objs s = <[P := o]> rest /\ P <> 0 /\ rest !! P = None /\ sound s.

Lemma wp_lift_heap {A} (p : prog H A) (Q : A -> dom H -> Prop) s :
  wp p (fun x h => Q x (Dom h (objs s))) (heap s) -> wp (on_heap p) Q s.
Proof using Type. unfold wp, on_heap. by destruct (p (heap s)) as [[x h]| |]. Qed.

Lemma wp_read_file s P o rest f bytes k : holding s P o rest -> stream_at (heap s) f bytes k -> short bytes ->
  wp (read_file f) (fun a s' => loaded s' P o a (string_in bytes) rest) s.
Proof using Type.
  intros (Ho & HP & HrP & Hu) Hf Hs. cbn in Hu. set (L := base.dom (objs s)) in *. unfold read_file.
  wp_step. apply wp_lift_heap. eapply wp_mono; [eapply (fseek_law _ L); eauto|]. cbn. intros _ h1 [Hu1 Hf1].
  wp_step. apply wp_lift_heap. eapply wp_mono; [eapply (ftell_law _ L); eauto|]. cbn. intros _ h2 (-> & Hu2 & Hf2).
  wp_step. apply wp_lift_heap. eapply wp_mono; [eapply (fseek_law _ L); eauto|]. cbn. intros _ h3 [Hu3 Hf3].
  pose proof (short_size bytes Hs) as Hn. set (n := Z.of_nat (length bytes)) in *. unfold short, text_bound in Hs. fold n in Hs.
  rewrite Hn. unfold malloc. do 2 wp_step. apply wp_lift_heap.
  eapply wp_mono; [apply wp_and; [eapply (malloc_law _ L); [done|lia]|eapply (malloc_stream_law _ L); [done..|lia]]|].
  cbn. intros b h4 [(Hb & HbL & Hu4) Hf4]. rewrite (proj2 (Z.eqb_neq b 0)); [|lia]. cbn [negb].
  apply wp_bind, wp_modify, wp_ret. cbn. rewrite (proj2 (Z.eqb_neq b 0)); [|lia].
  wp_step. apply wp_lift_heap. rewrite (wrap_small 64 n); [|lia].
  eapply wp_mono; [eapply (fread_law _ ({[b]} ∪ L)); [done..|lia]|]. cbn. intros _ h5 (-> & Hu5 & Hf5).
  rewrite drop_0 take_ge in Hf5 |- *; [|lia..].
  rewrite (proj2 (Z.leb_le 0 n)); [|lia]. rewrite (Z.eqb_refl n). cbn [andb orb].
  unfold init_obj, get_obj, put_obj. do 2 wp_step. eapply wp_getf; [cbn; apply lookup_insert_eq|].
  pose proof (string_in_length bytes). cbn [sizeof_obj]. rewrite (proj2 (Z.leb_le _ (n + 1))); [|lia].
  wp_step. wp_step. apply wp_lift_heap. eapply wp_mono; [eapply (fclose_law _ ({[b]} ∪ L)); eauto|]. cbn.
  intros _ h6 Hu6. rewrite insert_insert_eq. apply not_elem_of_dom in HbL. rewrite Ho in HbL.
  apply lookup_insert_None in HbL as [Hrb HPb]. split; [|split; [done|split; [lia|split; [done|split; [done|split; [done|split]]]]]].
  - cbn. by rewrite Ho insert_insert_ne.
  - unfold short, text_bound. lia.
  - cbn. by rewrite dom_insert_L.
Qed.

Lemma wp_free_text s P o a t rest : loaded s P o a t rest -> wp (free a) (fun _ s' => holding s' P o rest) s.
Proof using Type.
  intros (Ho & HP & Ha & HPa & HrP & Hra & _ & Hu). cbn in Hu. unfold free. rewrite (proj2 (Z.eqb_neq a 0)) //.
  assert (objs s !! a = Some (Str t)) as Hat by (rewrite Ho lookup_insert_ne // lookup_insert_eq //).
  apply wp_bind. apply wp_getf with (Str t); [done|]. apply wp_bind, wp_lift_heap.
  eapply wp_mono; [apply (free_law _ _ a Hu); by eapply elem_of_dom_2|]. cbn. intros _ h Hh.
  split; [|split; [done|split; [done|]]]; cbn.
  - rewrite Ho delete_insert_ne // delete_insert_id //.
  - by rewrite dom_delete_L.
Qed.
End Reading.

(** ** Runs *)

Section HtmlFile.
Context {H : Type} `{HtmlLibLaws H} `{!Stdio H} `{!StdioLaws H}.
Implicit Types (s : dom H) (P doc : Z) (p : html_parser) (bytes : list Z) (rest made : gmap Z obj).

(** A file that can be opened is read to its end: the result is the document
    of the text before the first zero byte of the file; the block with the text
    is freed, and nothing stays allocated but the document. *)
Theorem html_parser_parse_file_correct s P p filename name bytes rest :
  holding s P (Parser p) rest -> get_str filename s = Ok (name, s) -> on_disk (heap s) name = Some bytes -> short bytes ->
  exists doc s' p' made, html_parser_parse_file P filename s = Ok (doc, s') /\
    holding s' P (Parser p') (made ∪ rest) /\ made ##ₘ rest /\ document_at doc (html_tree (string_in bytes)) made.
Proof using Type.
  intros Hp Hname Hdisk Hs. pose proof Hp as (Ho & HP & HrP & Hu). cbn in Hu.
  enough (wp (html_parser_parse_file P filename) (fun doc s' => exists p' made,
    holding s' P (Parser p') (made ∪ rest) /\ made ##ₘ rest /\ document_at doc (html_tree (string_in bytes)) made) s) as Hw
    by (apply wp_run in Hw as (doc & s' & Hrun & p' & made & Hpost); by exists doc, s', p', made).
  unfold html_parser_parse_file. apply wp_bind. unfold wp at 1. rewrite Hname. apply wp_bind, wp_lift_heap.
  eapply wp_mono; [by apply (fopen_law _ _ name Hu)|]. cbn. rewrite Hdisk. intros f h (Hu' & Hf & Hst).
  rewrite (proj2 (Z.eqb_neq f 0)) //. apply wp_bind. eapply wp_mono; [by eapply (wp_read_file _ P (Parser p) rest f bytes 0)|].
  cbn. intros a s1 Hl. pose proof Hl as (_ & _ & Ha & _). rewrite (proj2 (Z.eqb_neq a 0)) //.
  destruct (parse_run s1 P p a _ rest Hl) as (doc & s2 & Hrun & p' & made & Hl' & Hd & Hdoc).
  apply wp_bind. unfold wp at 1. rewrite Hrun. apply wp_bind. eapply wp_mono; [by apply (wp_free_text _ _ _ _ _ _ Hl')|].
  intros ? s3 Hh. apply wp_ret. by exists p', made.
Qed.

(** A file that cannot be opened: the null pointer, the flag and the message
    in the parser, and nothing else has changed. *)
Theorem html_parser_parse_file_missing s P p filename name rest :
  holding s P (Parser p) rest -> get_str filename s = Ok (name, s) -> on_disk (heap s) name = None ->
  exists s', html_parser_parse_file P filename s = Ok (0, s') /\
    holding s' P (Parser (p_with_error (open_error name) p)) rest.
Proof using Type.
  intros (Ho & HP & HrP & Hu) Hname Hdisk. cbn in Hu.
  enough (wp (html_parser_parse_file P filename) (fun r s' => r = 0 /\ holding s' P (Parser (p_with_error (open_error name) p)) rest) s) as Hw
    by (apply wp_run in Hw as (r & s' & Hrun & -> & Hpost); by exists s').
  unfold html_parser_parse_file. apply wp_bind. unfold wp at 1. rewrite Hname. apply wp_bind, wp_lift_heap.
  eapply wp_mono; [by apply (fopen_law _ _ name Hu)|]. cbn. rewrite Hdisk. intros f h [Hu' ->]. cbn [Z.eqb].
  unfold upd_parser, get_parser, get_obj, put_obj. do 3 wp_step. eapply wp_getf; [cbn; rewrite Ho; apply lookup_insert_eq|].
  wp_steps. split; [done|]. split; [|split; [done|split; [done|]]]; cbn.
  - by rewrite Ho insert_insert_eq.
  - by rewrite dom_insert_lookup_L; [|rewrite Ho lookup_insert_eq].
Qed.
End HtmlFile.

Section CssFile.
Import Css CssSpec CssScan CssProofs CssParse.
Context {H : Type} `{LibcHeapLaws H} `{!CssLib H} `{!CssStrings} `{!NumberOrIdent} `{NE : !NumberOrIdentLength} `{NL : !CssNumberLaws H} `{CL : !CssLibLaws H} `{!Stdio H} `{!StdioLaws H}.
Implicit Types (s : dom H) (P ss : Z) (p : css_parser_t) (bytes : list Z) (rest made left : gmap Z obj).

(** The same for a style sheet: the result is the sheet of the rules that the
    specification reads from the file, and beside it the tokens that the parser
    forgets stay allocated. *)
Theorem css_parser_parse_file_correct s P p filename name bytes rs n rest :
  holding s P (Css (C_parser p)) rest -> get_str filename s = Ok (name, s) -> on_disk (heap s) name = Some bytes ->
  half_short bytes -> sheet_of (string_in bytes) = Some (rs, n) ->
  exists ss s' p' made left, css_parser_parse_file P filename s = Ok (ss, s') /\
    holding s' P (Css (C_parser p')) ((made ∪ left) ∪ rest) /\ (made ∪ left) ##ₘ rest /\ made ##ₘ left /\
    sheet_at ss rs made /\ forgotten n left.
Proof using Type NE NL CL.
  intros Hp Hname Hdisk Hs Hrs. pose proof Hp as (Ho & HP & HrP & Hu). cbn in Hu.
  enough (wp (css_parser_parse_file P filename) (fun ss s' => exists p' made left,
    holding s' P (Css (C_parser p')) ((made ∪ left) ∪ rest) /\ (made ∪ left) ##ₘ rest /\ made ##ₘ left /\
    sheet_at ss rs made /\ forgotten n left) s) as Hw
    by (apply wp_run in Hw as (ss & s' & Hrun & p' & made & left & Hpost); by exists ss, s', p', made, left).
  unfold css_parser_parse_file. apply wp_bind. unfold wp at 1. rewrite Hname. apply wp_bind, wp_lift_heap.
  eapply wp_mono; [by apply (fopen_law _ _ name Hu)|]. cbn. rewrite Hdisk. intros f h (Hu' & Hf & Hst).
  rewrite (proj2 (Z.eqb_neq f 0)) //. apply wp_bind.
  eapply wp_mono; [eapply (wp_read_file _ P (Css (C_parser p)) rest f bytes 0); [done..|unfold half_short in Hs; unfold short, text_bound; lia]|].
  cbn. intros a s1 Hl. pose proof Hl as (_ & _ & Ha & _). rewrite (proj2 (Z.eqb_neq a 0)) //.
  destruct (css_run s1 P p a _ rest rs n Hl) as (ss & s2 & Hrun & p' & made & left & Hl' & Hd); [|done|].
  { revert Hs. unfold half_short. pose proof (string_in_length bytes). lia. }
  apply wp_bind. unfold wp at 1. rewrite Hrun. apply wp_bind. eapply wp_mono; [by apply (wp_free_text _ _ _ _ _ _ Hl')|].
  intros ? s3 Hh. apply wp_ret. by exists p', made, left.
Qed.
End CssFile.

(** ** Examples *)

(** An allocator that counts, with one stream on the two files of a disk. *)
Record libc_state : Type := LibcState { brk : Z; stream : option (list Z * nat) }.

Definition page_file : list Z := chars "<p>x" ++ [0; 60].
Definition disk (name : text) : option (list Z) :=
  if bool_decide (name = chars "page.html") then Some page_file
  else if bool_decide (name = chars "page.css") then Some CssExamples.page_style
  else None.

#[local] Instance libc_heap : LibcHeap libc_state := {|
  malloc_op _ := let* s := get in modify (fun s => LibcState (brk s + 16) (stream s)) ;; ret (brk s);
  realloc_op _ _ := let* s := get in modify (fun s => LibcState (brk s + 16) (stream s)) ;; ret (brk s);
  free_op _ := ret tt;
|}.

#[local] Instance libc_stdio : Stdio libc_state := {|
  fopen_op name _ :=
    match disk name with
    | Some bytes => modify (fun s => LibcState (brk s) (Some (bytes, 0%nat))) ;; ret 8
    | None => ret 0
    end;
  fseek_op _ _ whence :=
    let* x := getf stream in
    modify (fun s => LibcState (brk s) (Some (x.1, if whence =? SEEK_SET then 0%nat else length x.1))) ;; ret 0;
  ftell_op _ := let* x := getf stream in ret (Z.of_nat x.2);
  fread_op _ n :=
    let* x := getf stream in
    let l := take (Z.to_nat n) (drop x.2 x.1) in
    modify (fun s => LibcState (brk s) (Some (x.1, x.2 + length l)%nat)) ;; ret l;
  fclose_op _ := modify (fun s => LibcState (brk s) None) ;; ret 0;
|}.

#[local] Instance libc_heap_laws : LibcHeapLaws libc_state.
Proof.
  refine {| used h L := counter_used (brk h) L |}.
  - intros h L n Hu Hn. exact (counter_used_fresh _ _ n Hu Hn).
  - intros h L p n HL _ Hn. refine (counter_used_fresh _ _ n _ Hn).
    apply (counter_used_le _ L); [set_solver|done].
  - intros h L p HL _. apply (counter_used_le _ L); [set_solver|done].
Defined.

#[local] Instance libc_stdio_laws : StdioLaws libc_state.
Proof.
  refine {| on_disk _ := disk; stream_at h _ bytes k := stream h = Some (bytes, k) |}; intros h L; intros; cbn.
  - destruct (disk name) as [bytes|]; wp_steps; done.
  - wp_step. eapply wp_getf; [done|]. wp_steps. done.
  - wp_step. eapply wp_getf; [done|]. wp_steps. done.
  - wp_step. eapply wp_getf; [done|]. wp_steps. done.
  - wp_steps. done.
  - wp_steps. done.
Defined.

#[local] Existing Instances no_handlers ascii_lib ascii_strcase ascii_laws.

Definition file_state (o : obj) : dom libc_state := Dom (LibcState 48 None) (<[16 := o]> ∅).

Lemma file_state_holding o : holding (file_state o) 16 o ∅.
Proof.
  split; [done|]. do 2 (split; [done|]). split; [done|]. intros a Ha. cbn in Ha.
  rewrite dom_insert_L dom_empty_L in Ha. apply elem_of_union in Ha as [->%elem_of_singleton|Ha]; [done|set_solver].
Qed.

Lemma html_parser_parse_file_correct_witness :
  exists doc s' p' made, html_parser_parse_file 16 (Lit (chars "page.html")) (file_state (Parser zero_parser)) = Ok (doc, s') /\
    holding s' 16 (Parser p') (made ∪ ∅) /\ made ##ₘ (∅ : gmap Z obj) /\ document_at doc [Elem (chars "p") [] [Txt (chars "x")]] made.
Proof.
  replace [Elem _ _ _] with (html_tree (string_in page_file)) by (vm_compute; reflexivity).
  apply (html_parser_parse_file_correct _ 16 zero_parser (Lit (chars "page.html")) (chars "page.html") page_file ∅); try done.
  apply file_state_holding.
Defined.

Lemma html_parser_parse_file_missing_witness :
  exists s', html_parser_parse_file 16 (Lit (chars "none")) (file_state (Parser zero_parser)) = Ok (0, s') /\
    holding s' 16 (Parser (p_with_error (chars "Cannot open file: none") zero_parser)) ∅.
Proof.
  apply (html_parser_parse_file_missing _ 16 zero_parser (Lit (chars "none")) (chars "none") ∅); try done.
  apply file_state_holding.
Defined.

Section CssExample.
Import Css CssSpec CssScan CssProofs CssParse CssExamples.
#[local] Existing Instances plain_strings plain_strncase plain_lib plain_number plain_number_length plain_number_laws plain_lib_laws.

Lemma css_parser_parse_file_correct_witness :
  exists ss s' p' made left,
    css_parser_parse_file 16 (Lit (chars "page.css")) (file_state (Css (C_parser zero_css_parser))) = Ok (ss, s') /\
    holding s' 16 (Css (C_parser p')) ((made ∪ left) ∪ ∅) /\ (made ∪ left) ##ₘ (∅ : gmap Z obj) /\ made ##ₘ left /\
    sheet_at ss page_rules made /\ forgotten 6 left.
Proof.
  apply (css_parser_parse_file_correct _ 16 zero_css_parser (Lit (chars "page.css")) (chars "page.css") page_style page_rules 6 ∅); [apply file_state_holding|done|done|done|].
  vm_compute. reflexivity.
Defined.
End CssExample.
