(* ===== verification/Screen.v ===== *)
(** * Drawing in the kernel

    [Graphics] is what desktop.c and kernel_html.c expect of the drawing
    functions.  Two files define them.  kernel_graphics.c, which the Makefile
    links, calls stubs of the graphics interface ([Kernel]).
    simple_graphics.c, which the Makefile does not link, writes to the memory
    of the display adapter; the model is [screen], whose memory holds these
    bytes and whatever else is mapped.

    [paint] is the specification: the memory with a region of the screen in
    one colour. *)

From S2P Require Import Prelude CMem.

(** [graphics_draw_text] takes the characters of a string, or a null pointer;
    [gfx_log] is [printk] of a text without conversions. *)
Class Graphics (S : Type) : Type := {
  gfx_init : prog S unit;
  gfx_clear : Z -> prog S unit;
  gfx_rect : Z -> Z -> Z -> Z -> Z -> prog S unit;
  gfx_text : Z -> Z -> option (list Z) -> Z -> prog S unit;
  gfx_log : string -> prog S unit;
}.

(** ** kernel/simple_graphics.c *)

Inductive event : Type :=
  | Message (s : string)
  | Bios (interrupt al ah : Z).

Record screen : Type := Screen { frame : mem; events : list event }.

Definition framebuffer : Z := 655360.
Definition screen_width : Z := 320.
Definition screen_height : Z := 200.

Definition on_frame {A} (p : prog mem A) : prog screen A :=
  fun s => match p (frame s) with
           | Ok (a, m) => Ok (a, Screen m (events s))
           | Fault => Fault
           | Spin => Spin
           end.

Definition emit (e : event) : prog screen unit := modify (fun s => Screen (frame s) (events s ++ [e])).
Definition log (s : string) : prog screen unit := emit (Message s).

Definition graphics_init : prog screen unit :=
  log "Initializing simple graphics subsystem..." ;;
  emit (Bios 16 19 0) ;;
  log "Graphics initialized (320x200x256)".

(** [framebuffer[i] = color], an element of two bytes. *)
Definition put_pixel (i color : Z) : prog mem unit := stores (framebuffer + 2 * i) (le_bytes 2 color).

(** [(uint16_t)(color & 0xFF)] *)
Definition fill_color (color : Z) : Z := Z.land color 255.

Definition graphics_clear_screen (color : Z) : prog mem unit :=
  for_ 0 (screen_width * screen_height) (fun i => put_pixel i (fill_color color)).

Definition graphics_draw_rect (x y width height color : Z) : prog mem unit :=
  let x := if x <? 0 then 0 else x in
  let y := if y <? 0 then 0 else y in
  let width := if screen_width <? s32 (x + width) then s32 (screen_width - x) else width in
  let height := if screen_height <? s32 (y + height) then s32 (screen_height - y) else height in
  for_ y (s32 (y + height)) (fun py =>
    for_ x (s32 (x + width)) (fun px =>
      if (px <? screen_width) && (py <? screen_height) then put_pixel (s32 (py * screen_width + px)) (fill_color color)
      else ret tt)).

(** One character, a block: [for (py = y; py < y + 8 && py < screen_height; py++)]
    and the same for [px]. *)
Definition draw_block (x y color : Z) : prog mem unit :=
  for_ y (Z.min (s32 (y + 8)) screen_height) (fun py =>
    for_ x (Z.min (s32 (x + 8)) screen_width) (fun px => put_pixel (s32 (py * screen_width + px)) color)).

(** [text[i] && x + i * char_width < screen_width]; [text] is what is left of
    the string from [i] on, and [x] the place of its first character. *)
Fixpoint draw_chars (x y : Z) (text : list Z) (color : Z) : prog mem unit :=
  match text with
  | [] => ret tt
  | _ :: text =>
      if x <? screen_width then draw_block x y color ;; draw_chars (s32 (x + 8)) y text color
      else ret tt
  end.

Definition graphics_draw_text (x y : Z) (text : option (list Z)) (color : Z) : prog mem unit :=
  match text with
  | None => ret tt
  | Some text => draw_chars x y text (fill_color color)
  end.

Definition graphics_present : prog screen unit := ret tt.

#[export] Instance screen_graphics : Graphics screen := {|
  gfx_init := graphics_init;
  gfx_clear color := on_frame (graphics_clear_screen color);
  gfx_rect x y width height color := on_frame (graphics_draw_rect x y width height color);
  gfx_text x y text color := on_frame (graphics_draw_text x y text color);
  gfx_log := log;
|}.

(** ** kernel/kernel_graphics.c *)

Module Kernel.
(** The messages are all that the functions of this file leave behind. *)
Abbreviation console := (list string).

Definition printk (s : string) : prog console unit := modify (fun l => l ++ [s]).

(** The stubs at the end of the file. *)
Definition gpu_init : prog console Z := ret 0.
Definition gpu_begin_command_buffer : prog console Z := ret 305419896.
Definition gpu_end_command_buffer (cmd_buffer : Z) : prog console unit := ret tt.
(** [*signal_fence] keeps the value [fence]. *)
Definition gpu_submit_command_buffer (cmd_buffer fence : Z) : prog console Z := ret fence.
Definition gpu_wait_fence (fence : Z) : prog console unit := ret tt.
Definition gpu_destroy_fence (fence : Z) : prog console unit := ret tt.

Definition graphics_init : prog console unit :=
  printk "Initializing kernel graphics subsystem..." ;;
  let* r := gpu_init in
  if negb (r =? 0) then printk "Failed to initialize GPU"
  else printk "Graphics subsystem initialized".

(** The body that the three drawing functions have in common. *)
Definition draw_nothing : prog console unit :=
  let* cmd_buf := gpu_begin_command_buffer in
  if negb (cmd_buf =? 0) then
    gpu_end_command_buffer cmd_buf ;;
    let* fence := gpu_submit_command_buffer cmd_buf 0 in
    (if negb (fence =? 0) then gpu_wait_fence fence ;; gpu_destroy_fence fence else ret tt)
  else ret tt.

Definition graphics_clear_screen (color : Z) : prog console unit := draw_nothing.
Definition graphics_draw_rect (x y width height color : Z) : prog console unit := draw_nothing.
Definition graphics_draw_text (x y : Z) (text : option (list Z)) (color : Z) : prog console unit :=
  match text with None => ret tt | Some _ => draw_nothing end.
Definition graphics_present : prog console unit := ret tt.

#[export] Instance kernel_graphics : Graphics console := {|
  gfx_init := graphics_init;
  gfx_clear := graphics_clear_screen;
  gfx_rect := graphics_draw_rect;
  gfx_text := graphics_draw_text;
  gfx_log := printk;
|}.
End Kernel.

(** ** Specification *)

Abbreviation region := (Z -> bool).

Definition pixels : Z := screen_width * screen_height.

(** The pixels of the columns from [x0] and the rows from [y0] on, up to [x1]
    and [y1]; a pixel is the number of its element. *)
Definition area (x0 x1 y0 y1 : Z) : region := fun i =>
  (x0 <=? i mod screen_width) && (i mod screen_width <? x1) && (y0 <=? i / screen_width) && (i / screen_width <? y1).

Definition in_frame (a : Z) : bool := (framebuffer <=? a) && (a <? framebuffer + 2 * pixels).
Definition pixel_of (a : Z) : Z := (a - framebuffer) / 2.

(** The byte at [a] of a pixel with the colour [c]. *)
Definition pixel_byte (c a : Z) : Z := if (a - framebuffer) mod 2 =? 0 then c mod 256 else c / 256 mod 256.

Definition paint (R : region) (c : Z) (m : mem) : mem :=
  map_imap (fun a b => Some (if in_frame a && R (pixel_of a) then pixel_byte c a else b)) m.

(** The bytes that simple_graphics.c takes for the frame buffer are mapped:
    two for each pixel, 128000 from 0xA0000 on.  The video mode that
    [graphics_init] sets has one byte for each pixel, 64000 in all; the rest
    lies behind its frame buffer, up to and over the text console. *)
Definition frame_mapped (m : mem) : Prop := mapped m framebuffer (2 * pixels).

(** ** Lemmas *)

Section Paint.
Implicit Types (m : mem) (R : region) (c i a : Z).

Lemma paint_lookup R c m a : paint R c m !! a = (fun b => if in_frame a && R (pixel_of a) then pixel_byte c a else b) <$> m !! a.
Proof. unfold paint. rewrite map_lookup_imap. by destruct (m !! a). Qed.

Lemma paint_mapped R c m a n : mapped m a n -> mapped (paint R c m) a n.
Proof. intros H k Hk. rewrite paint_lookup. destruct (H k Hk) as [b ->]. by eexists. Qed.

Lemma pixel_range a : in_frame a = true -> 0 <= pixel_of a < pixels.
Proof.
  unfold in_frame, pixel_of. rewrite andb_true_iff, Z.leb_le, Z.ltb_lt. intros Ha.
  split; [apply Z.div_pos; lia|apply Z.div_lt_upper_bound; lia].
Qed.

Lemma paint_ext R R' c m : (forall i, 0 <= i < pixels -> R i = R' i) -> paint R c m = paint R' c m.
Proof.
  intros HR. apply map_eq. intros a. rewrite !paint_lookup. destruct (m !! a) as [b|]; [|done]. cbn. f_equal.
  destruct (in_frame a) eqn:Ea; [|done]. cbn. by rewrite HR by by apply pixel_range.
Qed.

Lemma paint_none R c m : (forall i, 0 <= i < pixels -> R i = false) -> paint R c m = m.
Proof.
  intros HR. rewrite (paint_ext R (fun _ => false)) by done. apply map_eq. intros a. rewrite paint_lookup, andb_false_r. by destruct (m !! a).
Qed.

Lemma paint_paint R R' c m : paint R c (paint R' c m) = paint (fun i => R i || R' i) c m.
Proof.
  apply map_eq. intros a. rewrite !paint_lookup. destruct (m !! a) as [b|]; [|done]. cbn. f_equal.
  by destruct (in_frame a), (R (pixel_of a)), (R' (pixel_of a)).
Qed.

Lemma wp_put_pixel i c (Q : unit -> mem -> Prop) m : 0 <= i < pixels -> frame_mapped m ->
  Q tt (paint (fun j => j =? i) c m) -> wp (put_pixel i c) Q m.
Proof.
  intros Hi Hm HQ. apply wp_stores; [|apply le_bytes_byte|].
  - rewrite le_bytes_length. intros k Hk. apply Hm. lia.
  - assert (write (framebuffer + 2 * i) (le_bytes 2 c) m = paint (fun j => j =? i) c m) as ->; [|done].
    apply map_eq. intros a. rewrite paint_lookup. cbn [le_bytes write].
    destruct (decide (a = framebuffer + 2 * i + 1)) as [->|H1].
    + rewrite lookup_insert_eq. destruct (Hm (framebuffer + 2 * i + 1)) as [b ->]; [lia|]. cbn. f_equal. unfold in_frame, pixel_of, pixel_byte.
      rewrite !(proj2 (Z.leb_le _ _)), !(proj2 (Z.ltb_lt _ _)) by lia. cbn [andb].
      replace (framebuffer + 2 * i + 1 - framebuffer) with (1 + i * 2) by lia. rewrite Z_div_plus by lia. rewrite Z_mod_plus by lia.
      change (1 / 2) with 0. change (1 mod 2) with 1. by rewrite (proj2 (Z.eqb_eq _ i)) by lia.
    + rewrite lookup_insert_ne by done. destruct (decide (a = framebuffer + 2 * i)) as [->|H2].
      * rewrite lookup_insert_eq. destruct (Hm (framebuffer + 2 * i)) as [b ->]; [lia|]. cbn. f_equal. unfold in_frame, pixel_of, pixel_byte.
        rewrite !(proj2 (Z.leb_le _ _)), !(proj2 (Z.ltb_lt _ _)) by lia. cbn [andb].
        replace (framebuffer + 2 * i - framebuffer) with (0 + i * 2) by lia. rewrite Z_div_plus by lia. rewrite Z_mod_plus by lia.
        change (0 / 2) with 0. change (0 mod 2) with 0. by rewrite (proj2 (Z.eqb_eq _ i)) by lia.
      * rewrite lookup_insert_ne by done. destruct (m !! a) as [b|]; [|done]. cbn. f_equal.
        destruct (in_frame a) eqn:Ea; [|done]. cbn. destruct (Z.eqb_spec (pixel_of a) i) as [E|]; [|done].
        unfold pixel_of in E. exfalso. pose proof (Z.div_mod (a - framebuffer) 2 ltac:(lia)). pose proof (Z.mod_pos_bound (a - framebuffer) 2 ltac:(lia)). lia.
Qed.

Lemma wp_paint_all c m (Q : unit -> mem -> Prop) : frame_mapped m ->
  Q tt (paint (fun _ => true) (fill_color c) m) -> wp (graphics_clear_screen c) Q m.
Proof.
  intros Hm HQ. apply wp_for with (I := fun i m' => m' = paint (fun j => j <? i) (fill_color c) m); [done|done| | |].
  - symmetry. apply paint_none. intros i Hi. lia.
  - intros i m' Hi ->. apply wp_put_pixel; [done|by apply paint_mapped|]. rewrite paint_paint. apply paint_ext. intros j Hj.
    destruct (Z.eqb_spec j i), (Z.ltb_spec j i), (Z.ltb_spec j (i + 1)); cbn; lia.
  - intros m' ->. rewrite (paint_ext _ (fun _ => true)); [done|]. intros i Hi. change (screen_width * screen_height) with pixels. lia.
Qed.
End Paint.

(** ** Rectangles and characters *)

Lemma wp_for_empty {S} lo hi (body : Z -> prog S unit) Q s : hi <= lo -> Q tt s -> wp (for_ lo hi body) Q s.
Proof.
  intros Hle HQ. unfold for_. apply wp_loop with (I := fun i s' => i = lo /\ s' = s) (m := fun _ _ => 0); [|done|done].
  intros i s' [-> ->]. rewrite (proj2 (Z.ltb_ge _ _)) by done. by apply wp_ret.
Qed.

Section Areas.
Implicit Types (m : mem) (R : region) (c i j : Z).

(** A pixel is its column and its row. *)
Lemma pixel_xy j px py : 0 <= px < screen_width ->
  (j =? py * screen_width + px) = (j mod screen_width =? px) && (j / screen_width =? py).
Proof.
  intros Hp. unfold screen_width in *. pose proof (Z.div_mod j 320 ltac:(lia)). pose proof (Z.mod_pos_bound j 320 ltac:(lia)).
  destruct (Z.eqb_spec j (py * 320 + px)), (Z.eqb_spec (j mod 320) px), (Z.eqb_spec (j / 320) py); cbn; nia || done.
Qed.

Lemma pixel_on_screen j : 0 <= j < pixels -> 0 <= j mod screen_width < screen_width /\ 0 <= j / screen_width < screen_height.
Proof.
  intros Hj. unfold pixels, screen_width, screen_height in *. split; [apply Z.mod_pos_bound; lia|].
  split; [apply Z.div_pos; lia|apply Z.div_lt_upper_bound; lia].
Qed.

(** A loop whose turns paint regions paints what [U] collects of them. *)
Lemma wp_for_paint (U : Z -> region) lo hi (body : Z -> prog mem unit) c (Q : unit -> mem -> Prop) m :
  hi - lo < 2 ^ 64 -> frame_mapped m ->
  (forall j, 0 <= j < pixels -> U lo j = false) ->
  (forall i m', lo <= i < hi -> frame_mapped m' -> wp (body i) (fun _ m'' => exists R, m'' = paint R c m' /\
     forall j, 0 <= j < pixels -> U (i + 1) j = R j || U i j) m') ->
  Q tt (paint (U (Z.max lo hi)) c m) -> wp (for_ lo hi body) Q m.
Proof.
  intros Hb Hm H0 Hbody HQ. destruct (Z.leb_spec lo hi) as [Hle|Hgt].
  - apply wp_for with (I := fun i m' => m' = paint (U i) c m); [done|done|by rewrite paint_none| |].
    + intros i m' Hi ->. eapply wp_mono; [apply Hbody; [done|by apply paint_mapped]|]. intros _ m'' (R & -> & HR).
      rewrite paint_paint. apply paint_ext. intros j Hj. by rewrite HR.
    + intros m' ->. by rewrite Z.max_r in HQ by done.
  - apply wp_for_empty; [lia|]. rewrite Z.max_l, paint_none in HQ by (done || lia). done.
Qed.

#[local] Ltac areas := unfold area;
  repeat match goal with |- context [?x <=? ?y] => destruct (Z.leb_spec x y) | |- context [?x <? ?y] => destruct (Z.ltb_spec x y)
    | |- context [?x =? ?y] => destruct (Z.eqb_spec x y) end; cbn; lia || done.

(** The pixels of a row, those that are on the screen. *)
Lemma wp_row py x0 x1 c (Q : unit -> mem -> Prop) m (put : Z -> prog mem unit) : 0 <= py -> 0 <= x0 -> x1 < 2 ^ 32 -> frame_mapped m ->
  (forall px m' (Q' : unit -> mem -> Prop), x0 <= px < x1 -> frame_mapped m' ->
     (if (px <? screen_width) && (py <? screen_height) then Q' tt (paint (fun j => j =? py * screen_width + px) c m') else Q' tt m') -> wp (put px) Q' m') ->
  Q tt (paint (area x0 (Z.max x0 x1) py (py + 1)) c m) -> wp (for_ x0 x1 put) Q m.
Proof.
  intros Hy Hx Hx1 Hm Hput HQ. apply (wp_for_paint (fun k => area x0 k py (py + 1)) x0 x1 put c); [lia|done| | |done].
  - intros j Hj. areas.
  - intros px m' Hpx Hm'. apply Hput; [done|done|]. destruct (Z.ltb_spec px screen_width) as [H1|H1]; cbn [andb].
    + destruct (Z.ltb_spec py screen_height) as [H2|H2].
      * exists (fun j => j =? py * screen_width + px). split; [done|]. intros j Hj. rewrite pixel_xy by lia. areas.
      * exists (fun _ => false). split; [by rewrite paint_none|]. intros j Hj. apply pixel_on_screen in Hj. areas.
    + exists (fun _ => false). split; [by rewrite paint_none|]. intros j Hj. apply pixel_on_screen in Hj. areas.
Qed.

(** Numbers far from the bounds of [int]. *)
Definition moderate (x : Z) : Prop := - 2 ^ 29 <= x <= 2 ^ 29.

Lemma wp_rect x y w h color (Q : unit -> mem -> Prop) m : moderate x -> moderate y -> moderate w -> moderate h -> frame_mapped m ->
  Q tt (paint (area (Z.max 0 x) (Z.max 0 x + w) (Z.max 0 y) (Z.max 0 y + h)) (fill_color color) m) ->
  wp (graphics_draw_rect x y w h color) Q m.
Proof.
  unfold moderate. intros Hx Hy Hw Hh Hm HQ. unfold graphics_draw_rect. cbv zeta.
  replace (if x <? 0 then 0 else x) with (Z.max 0 x) by (destruct (Z.ltb_spec x 0); lia).
  replace (if y <? 0 then 0 else y) with (Z.max 0 y) by (destruct (Z.ltb_spec y 0); lia).
  set (x0 := Z.max 0 x) in *. set (y0 := Z.max 0 y) in *. assert (0 <= x0 <= 2 ^ 29 /\ 0 <= y0 <= 2 ^ 29) as [? ?] by lia.
  set (w' := if _ <? s32 (x0 + w) then _ else w). set (h' := if _ <? s32 (y0 + h) then _ else h).
  assert (w' = if screen_width <? x0 + w then screen_width - x0 else w) as Ew.
  { unfold w', screen_width. rewrite !swrap_small by lia. done. }
  assert (h' = if screen_height <? y0 + h then screen_height - y0 else h) as Eh.
  { unfold h', screen_height. rewrite !swrap_small by lia. done. }
  assert (s32 (x0 + w') = x0 + w') as Es by (rewrite Ew; unfold screen_width; destruct (Z.ltb_spec 320 (x0 + w)); rewrite swrap_small; lia).
  assert (s32 (y0 + h') = y0 + h') as Et by (rewrite Eh; unfold screen_height; destruct (Z.ltb_spec 200 (y0 + h)); rewrite swrap_small; lia).
  rewrite Es, Et. assert (x0 + w' < 2 ^ 31 /\ y0 + h' < 2 ^ 31) as [? ?].
  { rewrite Ew, Eh. unfold screen_width, screen_height. destruct (Z.ltb_spec 320 (x0 + w)), (Z.ltb_spec 200 (y0 + h)); lia. }
  apply (wp_for_paint (fun k => area x0 (Z.max x0 (x0 + w')) y0 k) _ _ _ (fill_color color)); [lia|done|intros j Hj; areas| |].
  - intros py m' Hpy Hm'. apply (wp_row py x0 (x0 + w') (fill_color color)); [lia|lia|lia|done| |].
    + intros px m2 Q' Hpx Hm2 HQ'. destruct ((px <? screen_width) && (py <? screen_height)) eqn:E; [|by apply wp_ret].
      apply andb_prop in E as [E1%Z.ltb_lt E2%Z.ltb_lt]. unfold screen_width, screen_height in *.
      rewrite swrap_small by lia. apply wp_put_pixel; [unfold pixels, screen_width, screen_height; lia|done|done].
    + eexists. split; [done|]. intros j Hj. areas.
  - assert (paint (area x0 (Z.max x0 (x0 + w')) y0 (Z.max y0 (y0 + h'))) (fill_color color) m =
      paint (area x0 (x0 + w) y0 (y0 + h)) (fill_color color) m) as ->; [|done].
    apply paint_ext. intros j Hj. apply pixel_on_screen in Hj. rewrite Ew, Eh.
    destruct (Z.ltb_spec screen_width (x0 + w)), (Z.ltb_spec screen_height (y0 + h)); areas.
Qed.

Lemma wp_block x y color (Q : unit -> mem -> Prop) m : 0 <= x <= 2 ^ 29 -> 0 <= y <= 2 ^ 29 -> frame_mapped m ->
  Q tt (paint (area x (x + 8) y (y + 8)) color m) -> wp (draw_block x y color) Q m.
Proof.
  intros Hx Hy Hm HQ. unfold draw_block. rewrite !swrap_small by lia.
  apply (wp_for_paint (fun k => area x (Z.max x (Z.min (x + 8) screen_width)) y k) _ _ _ color); [lia|done|intros j Hj; areas| |].
  - intros py m' Hpy Hm'. apply (wp_row py x (Z.min (x + 8) screen_width) color); [lia|lia|lia|done| |].
    + intros px m2 Q' Hpx Hm2 HQ'. assert ((px <? screen_width) && (py <? screen_height) = true) as E by lia. rewrite E in HQ'.
      unfold screen_width, screen_height in *. rewrite swrap_small by lia. apply wp_put_pixel; [unfold pixels, screen_width, screen_height; lia|done|done].
    + eexists. split; [done|]. intros j Hj. areas.
  - assert (paint (area x (Z.max x (Z.min (x + 8) screen_width)) y (Z.max y (Z.min (y + 8) screen_height))) color m =
      paint (area x (x + 8) y (y + 8)) color m) as ->; [|done].
    apply paint_ext. intros j Hj. apply pixel_on_screen in Hj. areas.
Qed.

Lemma wp_text text : forall x y color (Q : unit -> mem -> Prop) m, 0 <= x -> x + 8 * Z.of_nat (length text) <= 2 ^ 29 -> 0 <= y <= 2 ^ 29 -> frame_mapped m ->
  Q tt (paint (area x (x + 8 * Z.of_nat (length text)) y (y + 8)) color m) -> wp (draw_chars x y text color) Q m.
Proof.
  induction text as [|b text IH]; intros x y color Q m Hx Hl Hy Hm HQ; cbn [draw_chars length] in *.
  - apply wp_ret. rewrite paint_none in HQ; [done|]. intros j Hj. areas.
  - destruct (Z.ltb_spec x screen_width) as [H1|H1].
    + apply wp_bind, wp_block; [lia|done|done|]. rewrite swrap_small by lia. apply IH; [lia|lia|done|by apply paint_mapped|].
      rewrite paint_paint. erewrite paint_ext; [exact HQ|]. intros j Hj. areas.
    + apply wp_ret. rewrite paint_none in HQ; [done|]. intros j Hj. apply pixel_on_screen in Hj. areas.
Qed.
End Areas.

(** ** Theorems *)

(** C33: [graphics_draw_rect] of a rectangle whose coordinates and sides are
    between -2^29 and 2^29 writes only into the 128000 bytes that the code
    takes for the frame buffer ([frame_mapped]), and paints exactly the pixels of the screen in the columns
    from [max 0 x] up to [max 0 x + w] and the rows from [max 0 y] up to
    [max 0 y + h]: what lies beyond the right and the lower edge is cut off,
    but a rectangle beyond the left or the upper edge is moved, not cut. *)
Theorem graphics_draw_rect_correct x y w h color m :
  moderate x -> moderate y -> moderate w -> moderate h -> frame_mapped m ->
  graphics_draw_rect x y w h color m =
    Ok (tt, paint (area (Z.max 0 x) (Z.max 0 x + w) (Z.max 0 y) (Z.max 0 y + h)) (fill_color color) m).
Proof. intros. apply wp_det. by apply wp_rect. Qed.

(** [graphics_draw_text] at a place that is not negative paints a row
    of blocks of 8 by 8 pixels, one for each character, as far as they are on
    the screen, and nothing else. *)
Theorem graphics_draw_text_correct x y text color m :
  0 <= x -> x + 8 * Z.of_nat (length text) <= 2 ^ 29 -> 0 <= y <= 2 ^ 29 -> frame_mapped m ->
  graphics_draw_text x y (Some text) color m =
    Ok (tt, paint (area x (x + 8 * Z.of_nat (length text)) y (y + 8)) (fill_color color) m).
Proof. intros. apply wp_det. by apply wp_text. Qed.

Lemma bind_fault {A B} (p : prog mem A) (k : A -> prog mem B) m : p m = Fault -> bind p k m = Fault.
Proof. unfold bind. by intros ->. Qed.

Lemma for_fault lo hi (body : Z -> prog mem unit) m : lo < hi -> body lo m = Fault -> for_ lo hi body m = Fault.
Proof.
  intros Hlt Hb. unfold for_. apply loop_faults with (I := fun i m' => i = lo /\ m' = m) (m := fun _ _ => 0); [|done|done].
  intros i m' [-> ->]. rewrite (proj2 (Z.ltb_lt _ _)) by done. by rewrite bind_fault.
Qed.

(** [graphics_draw_text] does not cut off what lies above the screen:
    a text at a negative row is written in front of the frame buffer, and
    faults when there is no memory. *)
Theorem graphics_draw_text_above x y b text color m :
  0 <= x < screen_width -> - 2 ^ 20 <= y < 0 -> m !! (framebuffer + 2 * (y * screen_width + x)) = None ->
  graphics_draw_text x y (Some (b :: text)) color m = Fault.
Proof.
  intros Hx Hy Hm. cbn [graphics_draw_text draw_chars]. rewrite (proj2 (Z.ltb_lt x _)) by lia. apply bind_fault. unfold draw_block.
  unfold screen_width, screen_height in *. rewrite !swrap_small by lia. apply for_fault; [lia|]. apply for_fault; [lia|].
  rewrite swrap_small by lia. unfold put_pixel. cbn [le_bytes stores]. apply bind_fault. unfold store8. by rewrite Hm.
Qed.

(** The cells of the text console lie in the frame buffer. *)
Definition text_buffer : Z := 753664.

(** [graphics_clear_screen] paints the whole frame buffer; since its
    elements have two bytes, it reaches over the buffer of the text console,
    whose 4000 bytes all become the colour and zeros. *)
Theorem graphics_clear_screen_correct color m : frame_mapped m ->
  exists m', graphics_clear_screen color m = Ok (tt, m') /\ m' = paint (fun _ => true) (fill_color color) m /\
    forall k, 0 <= k < 4000 -> m' !! (text_buffer + k) = Some (if k mod 2 =? 0 then Z.land color 255 else 0).
Proof.
  intros Hm. eexists. split; [apply wp_det, wp_paint_all; done|]. split; [done|]. intros k Hk. rewrite paint_lookup.
  assert (framebuffer <= text_buffer + k < framebuffer + 2 * pixels) as Hr
    by (unfold framebuffer, text_buffer, pixels, screen_width, screen_height; lia).
  destruct (Hm _ Hr) as [b ->]. unfold in_frame. rewrite (proj2 (Z.leb_le _ _)), (proj2 (Z.ltb_lt _ _)) by lia. cbn [andb fmap option_fmap option_map].
  f_equal. unfold pixel_byte, fill_color. rewrite (Z.land_ones _ 8) by lia.
  replace (text_buffer + k - framebuffer) with (k + 49152 * 2) by (unfold text_buffer, framebuffer; lia). rewrite Z_mod_plus by lia.
  pose proof (Z.mod_pos_bound color 256 ltac:(lia)). destruct (k mod 2 =? 0).
  - apply Z.mod_small. done.
  - change (2 ^ 8) with 256. by rewrite (Z.div_small (color mod 256) 256) by done.
Qed.

(** ** Examples *)

Definition small_frame : mem := write framebuffer (replicate (Z.to_nat (2 * pixels)) 0) ∅.

Lemma small_frame_mapped : frame_mapped small_frame.
Proof.
  unfold frame_mapped, small_frame. intros k Hk.
  replace k with (framebuffer + Z.of_nat (Z.to_nat (k - framebuffer))) by lia. exists 0.
  apply write_lookup_in. apply lookup_replicate_2. lia.
Qed.

Lemma graphics_draw_rect_correct_witness :
  graphics_draw_rect (-5) 190 20 30 4 small_frame = Ok (tt, paint (area 0 20 190 220) 4 small_frame).
Proof. apply (graphics_draw_rect_correct (-5) 190 20 30 4 small_frame); [unfold moderate; lia..|apply small_frame_mapped]. Defined.

Lemma graphics_draw_text_correct_witness :
  graphics_draw_text 310 10 (Some [72; 105]) 7 small_frame = Ok (tt, paint (area 310 326 10 18) 7 small_frame).
Proof. apply (graphics_draw_text_correct 310 10 [72; 105] 7 small_frame); [lia|cbn; lia|lia|apply small_frame_mapped]. Defined.

Lemma below_small_frame a : a < framebuffer -> small_frame !! a = None.
Proof. intros Ha. unfold small_frame. rewrite write_lookup_out by (by left). apply lookup_empty. Qed.

Lemma graphics_draw_text_above_witness : graphics_draw_text 3 (-8) (Some [72]) 7 small_frame = Fault.
Proof. apply (graphics_draw_text_above 3 (-8) 72 [] 7 small_frame); [done|lia|apply below_small_frame; done]. Defined.

Lemma graphics_clear_screen_correct_witness :
  exists m', graphics_clear_screen 3038295 small_frame = Ok (tt, m') /\ m' = paint (fun _ => true) (fill_color 3038295) small_frame /\
    forall k, 0 <= k < 4000 -> m' !! (text_buffer + k) = Some (if k mod 2 =? 0 then Z.land 3038295 255 else 0).
Proof. apply (graphics_clear_screen_correct 3038295 small_frame). apply small_frame_mapped. Defined.
