(* ===== verification/Desktop.v ===== *)
(** * The desktop (kernel/desktop.c) and the page display (kernel/kernel_html.c,
    kernel_js.c)

    The state is the kernel's allocator, the state of the drawing functions,
    the windows, and the two variables of desktop.c.  The allocator and the
    drawing functions are the interfaces [KAlloc] and [Graphics]; [Screen]
    implements the second.  The window manager's specification is [scene], the
    drawing commands for a list of windows; that of the page display is
    [layout], the places of the characters. *)

From S2P Require Import Prelude CMem Alloc DomObj Screen.

(** ** Data *)

Definition DESKTOP_BG : Z := 3031127.
Definition TASKBAR_BG : Z := 1973790.
Definition TASKBAR_HEIGHT : Z := 40.
Definition WINDOW_BG : Z := 16777215.
Definition WINDOW_BORDER : Z := 0.
Definition TEXT_COLOR : Z := 0.

Record desktop_window : Type := Window {
  w_x : Z; w_y : Z; w_width : Z; w_height : Z; w_title : list Z; w_visible : Z; w_next : Z;
}.
Definition sizeof_desktop_window : Z := 96.

(** What [strncpy(window->title, title, 63)] and the final zero make of the
    64 bytes. *)
Definition title_bytes (title : list Z) : list Z := resize 63 0 title ++ [0].

Record desktop (H S : Type) : Type := Desk {
  d_heap : H; d_canvas : S; d_store : gmap Z desktop_window; d_windows : Z; d_focused : Z;
}.
Arguments Desk {H S}.
Arguments d_heap {H S}.
Arguments d_canvas {H S}.
Arguments d_store {H S}.
Arguments d_windows {H S}.
Arguments d_focused {H S}.

(** [strstr(script, word)] is not null. *)
Fixpoint contains (word script : text) : bool :=
  bool_decide (word `prefix_of` script) || match script with [] => false | _ :: script => contains word script end.

(** What [%s] prints of a string. *)
Definition printed (t : text) : string :=
  String.string_of_list_ascii (map (fun b => Ascii.ascii_of_N (Z.to_N b)) t).

(** ** Operations *)

Section Desktop.
Context {H S : Type} `{KAlloc H} `{Graphics S}.
Abbreviation desk := (desktop H S).

Definition on_canvas {A} (p : prog S A) : prog desk A :=
  fun s => match p (d_canvas s) with
           | Ok (a, c) => Ok (a, Desk (d_heap s) c (d_store s) (d_windows s) (d_focused s))
           | Fault => Fault
           | Spin => Spin
           end.

Definition on_kernel {A} (p : prog H A) : prog desk A :=
  fun s => match p (d_heap s) with
           | Ok (a, h) => Ok (a, Desk h (d_canvas s) (d_store s) (d_windows s) (d_focused s))
           | Fault => Fault
           | Spin => Spin
           end.

Definition printk (s : string) : prog desk unit := on_canvas (gfx_log s).
Definition graphics_clear_screen (color : Z) : prog desk unit := on_canvas (gfx_clear color).
Definition graphics_draw_rect (x y width height color : Z) : prog desk unit := on_canvas (gfx_rect x y width height color).
Definition graphics_draw_text (x y : Z) (text : list Z) (color : Z) : prog desk unit := on_canvas (gfx_text x y (Some text) color).

Definition get_window (a : Z) : prog desk desktop_window := getf (fun s => d_store s !! a).
Definition put_window (a : Z) (w : desktop_window) : prog desk unit :=
  modify (fun s => Desk (d_heap s) (d_canvas s) (<[a := w]> (d_store s)) (d_windows s) (d_focused s)).
Definition set_windows (a : Z) : prog desk unit :=
  modify (fun s => Desk (d_heap s) (d_canvas s) (d_store s) a (d_focused s)).
Definition set_focused (a : Z) : prog desk unit :=
  modify (fun s => Desk (d_heap s) (d_canvas s) (d_store s) (d_windows s) a).

Definition html_init : prog desk unit :=
  printk "Initializing kernel HTML subsystem..." ;;
  printk "HTML subsystem initialized".
Definition js_init : prog desk unit :=
  printk "Initializing kernel JavaScript subsystem..." ;;
  printk "JavaScript subsystem initialized".

(** The task bar with its button. *)
Definition draw_taskbar : prog desk unit :=
  graphics_draw_rect 0 0 1024 TASKBAR_HEIGHT TASKBAR_BG ;;
  graphics_draw_rect 5 5 80 30 5025616 ;;
  graphics_draw_text 25 15 (chars "Start") 16777215.

Definition desktop_init : prog desk unit :=
  printk "Initializing desktop environment..." ;;
  on_canvas gfx_init ;;
  html_init ;;
  js_init ;;
  graphics_clear_screen DESKTOP_BG ;;
  draw_taskbar ;;
  printk "Desktop initialized".

Definition desktop_create_window (x y width height : Z) (title : list Z) : prog desk Z :=
  let* window := on_kernel (kmalloc_op sizeof_desktop_window) in
  if window =? 0 then ret 0
  else
    let* next := gets d_windows in
    put_window window (Window x y width height (title_bytes title) 1 next) ;;
    set_windows window ;;
    ret window.

Definition desktop_draw_window (window : Z) : prog desk unit :=
  if window =? 0 then ret tt
  else
    let* w := get_window window in
    if w_visible w =? 0 then ret tt
    else
      let x := w_x w in let y := w_y w in let width := w_width w in let height := w_height w in
      graphics_draw_rect x y width height WINDOW_BG ;;
      graphics_draw_rect x y width 2 WINDOW_BORDER ;;
      graphics_draw_rect x (s32 (s32 (y + height) - 2)) width 2 WINDOW_BORDER ;;
      graphics_draw_rect x y 2 height WINDOW_BORDER ;;
      graphics_draw_rect (s32 (s32 (x + width) - 2)) y 2 height WINDOW_BORDER ;;
      graphics_draw_rect x y width 25 4359668 ;;
      graphics_draw_text (s32 (x + 5)) (s32 (y + 8)) (string_in (w_title w)) 16777215 ;;
      graphics_draw_rect (s32 (s32 (x + width) - 25)) (s32 (y + 5)) 20 15 16007990 ;;
      graphics_draw_text (s32 (s32 (x + width) - 20)) (s32 (y + 8)) (chars "X") 16777215.

Definition desktop_redraw : prog desk unit :=
  graphics_clear_screen DESKTOP_BG ;;
  draw_taskbar ;;
  let* first := gets d_windows in
  loop (fun window =>
    if negb (window =? 0) then
      desktop_draw_window window ;;
      let* w := get_window window in
      ret (Next (w_next w))
    else ret (Done tt)) first.

Definition desktop_shell_window : prog desk unit :=
  let* shell_win := desktop_create_window 100 100 600 400 (chars "Shell") in
  if negb (shell_win =? 0) then
    set_focused shell_win ;;
    desktop_redraw ;;
    let* w := get_window shell_win in
    graphics_draw_rect (s32 (w_x w + 5)) (s32 (w_y w + 30)) (s32 (w_width w - 10)) (s32 (w_height w - 35)) 16119285 ;;
    graphics_draw_text (s32 (w_x w + 10)) (s32 (w_y w + 40)) (chars "Modern OS Shell v1.0") TEXT_COLOR ;;
    graphics_draw_text (s32 (w_x w + 10)) (s32 (w_y w + 60)) (chars "Type 'help' for available commands") TEXT_COLOR ;;
    graphics_draw_text (s32 (w_x w + 10)) (s32 (w_y w + 90)) (chars "$ ") TEXT_COLOR
  else ret tt.

Definition desktop_browser_window : prog desk unit :=
  let* browser_win := desktop_create_window 150 150 700 500 (chars "Web Browser") in
  if negb (browser_win =? 0) then
    desktop_redraw ;;
    let* w := get_window browser_win in
    graphics_draw_rect (s32 (w_x w + 5)) (s32 (w_y w + 30)) (s32 (w_width w - 10)) (s32 (w_height w - 35)) 16777215 ;;
    graphics_draw_rect (s32 (w_x w + 5)) (s32 (w_y w + 30)) (s32 (w_width w - 10)) 25 15790320 ;;
    graphics_draw_text (s32 (w_x w + 10)) (s32 (w_y w + 37)) (chars "file:///desktop.html") TEXT_COLOR ;;
    graphics_draw_text (s32 (w_x w + 10)) (s32 (w_y w + 70)) (chars "Modern OS Browser") TEXT_COLOR ;;
    graphics_draw_text (s32 (w_x w + 10)) (s32 (w_y w + 90)) (chars "Rendering HTML with JavaScript support") TEXT_COLOR ;;
    graphics_draw_text (s32 (w_x w + 10)) (s32 (w_y w + 110)) (chars "Built with our custom HTML/CSS/JS engine") TEXT_COLOR
  else ret tt.

(** The loop of [html_render_page] from a character on; [prev] is the
    character before, which the first one does not have. *)
Fixpoint render_chars (prev : option Z) (in_tag : bool) (x y : Z) (html_content : text) : prog desk unit :=
  match html_content with
  | [] => ret tt
  | c :: rest =>
      if c =? 60 then render_chars (Some c) true x y rest
      else if c =? 62 then
        match prev with
        | None => fault
        | Some p =>
            if (p =? 112) || (p =? 80) then render_chars (Some c) false 10 (s32 (y + 20)) rest
            else render_chars (Some c) false x y rest
        end
      else if negb in_tag && negb (c =? 10) && negb (c =? 13) then
        graphics_draw_text x y [c] 0 ;;
        let x := s32 (x + 8) in
        if 300 <? x then render_chars (Some c) in_tag 10 (s32 (y + 12)) rest
        else render_chars (Some c) in_tag x y rest
      else render_chars (Some c) in_tag x y rest
  end.

Definition html_render_page (html_content : option text) : prog desk unit :=
  match html_content with
  | None => ret tt
  | Some t =>
      printk "Rendering HTML page..." ;;
      render_chars None false 10 40 t
  end.

Definition js_execute_script (script : option text) : prog desk unit :=
  match script with
  | None => ret tt
  | Some t =>
      printk (String.append "Executing JavaScript: " (printed t)) ;;
      (if contains (chars "console.log") t then printk "JS Console output detected" else ret tt) ;;
      (if contains (chars "graphics.clear") t then graphics_clear_screen 3031127 else ret tt) ;;
      (if contains (chars "graphics.drawRect") t then printk "JS Draw rect command detected" else ret tt)
  end.
End Desktop.
