(* ===== verification/DesktopProofs.v ===== *)
(** * The desktop draws its scene

    [scene] lists the commands that redraw the desktop.  The theorems show
    that [desktop_redraw] runs exactly them, for any drawing functions; on the
    frame buffer of simple_graphics.c, that the oldest window covers the
    others; that with kernel_graphics.c nothing is drawn; and that [html_render_page] draws the characters outside tags, in
    their order, within the columns of the screen. *)

From Stdlib Require Import Sorting.Sorted.
From S2P Require Import Prelude CMem Alloc DomObj Screen Desktop.

(** ** Commands *)

Inductive draw : Type :=
  | Clear (color : Z)
  | Rect (x y width height color : Z)
  | Text (x y : Z) (text : list Z) (color : Z).

Section Commands.
Context {S : Type} `{Graphics S}.

Definition run_draw (d : draw) : prog S unit :=
  match d with
  | Clear c => gfx_clear c
  | Rect x y w h c => gfx_rect x y w h c
  | Text x y t c => gfx_text x y (Some t) c
  end.

Fixpoint run_draws (ds : list draw) : prog S unit :=
  match ds with
  | [] => ret tt
  | d :: ds => run_draw d ;; run_draws ds
  end.
End Commands.

Definition taskbar : list draw := [Rect 0 0 1024 40 TASKBAR_BG; Rect 5 5 80 30 5025616; Text 25 15 (chars "Start") 16777215].

Definition window_scene (w : desktop_window) : list draw :=
  let x := w_x w in let y := w_y w in let r := s32 (x + w_width w) in let b := s32 (y + w_height w) in
  if w_visible w =? 0 then []
  else [Rect x y (w_width w) (w_height w) WINDOW_BG; Rect x y (w_width w) 2 WINDOW_BORDER; Rect x (s32 (b - 2)) (w_width w) 2 WINDOW_BORDER;
    Rect x y 2 (w_height w) WINDOW_BORDER; Rect (s32 (r - 2)) y 2 (w_height w) WINDOW_BORDER; Rect x y (w_width w) 25 4359668;
    Text (s32 (x + 5)) (s32 (y + 8)) (string_in (w_title w)) 16777215; Rect (s32 (r - 25)) (s32 (y + 5)) 20 15 16007990;
    Text (s32 (r - 20)) (s32 (y + 8)) (chars "X") 16777215].

(** The desktop with its windows, the newest first. *)
Definition scene (ws : list desktop_window) : list draw := Clear DESKTOP_BG :: taskbar ++ flat_map window_scene ws.

(** The windows that are linked from [a]. *)
Fixpoint window_list (m : gmap Z desktop_window) (a : Z) (ws : list desktop_window) : Prop :=
  match ws with
  | [] => a = 0
  | w :: ws => a <> 0 /\ m !! a = Some w /\ window_list m (w_next w) ws
  end.

(** ** Lemmas *)

Lemma wp_bind_inv {S A B} (p : prog S A) (k : A -> prog S B) Q s : wp (bind p k) Q s -> wp p (fun a t => wp (k a) Q t) s.
Proof. unfold wp, bind. by destruct (p s) as [[a t]| |]. Qed.

Section Draws.
Context {H S : Type} `{KAlloc H} `{Graphics S}.
Abbreviation desk := (desktop H S).
Implicit Types (s : desk) (ds : list draw) (ws : list desktop_window).

Definition with_canvas (c : S) s : desk := Desk (d_heap s) c (d_store s) (d_windows s) (d_focused s).

Lemma wp_on_canvas {A} (p : prog S A) (Q : A -> desk -> Prop) s :
  wp p (fun a c => Q a (with_canvas c s)) (d_canvas s) -> wp (on_canvas p) Q s.
Proof using Type. unfold wp, on_canvas. by destruct (p (d_canvas s)) as [[a c]| |]. Qed.

Lemma wp_on_kernel {A} (p : prog H A) (Q : A -> desk -> Prop) s :
  wp p (fun a h => Q a (Desk h (d_canvas s) (d_store s) (d_windows s) (d_focused s))) (d_heap s) -> wp (on_kernel p) Q s.
Proof using Type. unfold wp, on_kernel. by destruct (p (d_heap s)) as [[a h]| |]. Qed.

Lemma wp_run_app ds ds' (Q : unit -> S -> Prop) c : wp (run_draws (ds ++ ds')) Q c -> wp (run_draws ds) (fun _ => wp (run_draws ds') Q) c.
Proof using Type.
  revert c. induction ds as [|d ds IH]; intros c Hw; [by apply wp_ret|]. cbn [app run_draws] in *.
  apply wp_bind_inv in Hw. apply wp_bind. eapply wp_mono; [exact Hw|]. intros [] c' Hc. by apply IH.
Qed.

(** Some commands, and then the rest of the program. *)
Lemma wp_draw d ds (Q : unit -> S -> Prop) (k : unit -> prog desk unit) (Q' : unit -> desk -> Prop) s :
  wp (run_draws (d :: ds)) Q (d_canvas s) ->
  (forall c, wp (run_draws ds) Q c -> wp (k tt) Q' (with_canvas c s)) -> wp (bind (on_canvas (run_draw d)) k) Q' s.
Proof using Type.
  intros Hd Hk. apply wp_bind, wp_on_canvas. cbn [run_draws] in Hd. apply wp_bind_inv in Hd.
  eapply wp_mono; [exact Hd|]. intros [] c Hc. by apply Hk.
Qed.

Lemma wp_draw_last d (Q : unit -> S -> Prop) (Q' : unit -> desk -> Prop) s :
  wp (run_draws [d]) Q (d_canvas s) -> (forall c, Q tt c -> Q' tt (with_canvas c s)) -> wp (on_canvas (run_draw d)) Q' s.
Proof using Type.
  intros Hd Hk. apply wp_on_canvas. cbn [run_draws] in Hd. apply wp_bind_inv in Hd.
  eapply wp_mono; [exact Hd|]. intros [] c Hc. apply Hk. unfold wp, ret in Hc. exact Hc.
Qed.

#[local] Ltac draw_step :=
  lazymatch goal with
  | |- wp (bind (graphics_draw_rect ?x ?y ?w ?h ?c) _) _ _ => change (graphics_draw_rect x y w h c) with (on_canvas (H := H) (run_draw (Rect x y w h c)))
  | |- wp (bind (graphics_draw_text ?x ?y ?t ?c) _) _ _ => change (graphics_draw_text x y t c) with (on_canvas (H := H) (run_draw (Text x y t c)))
  | |- wp (bind (graphics_clear_screen ?c) _) _ _ => change (graphics_clear_screen c) with (on_canvas (H := H) (run_draw (Clear c)))
  end; eapply wp_draw; [eassumption|].

Lemma wp_draw_window a w (Q : unit -> S -> Prop) (Q' : unit -> desk -> Prop) s : a <> 0 -> d_store s !! a = Some w ->
  wp (run_draws (window_scene w)) Q (d_canvas s) -> (forall c, Q tt c -> Q' tt (with_canvas c s)) -> wp (desktop_draw_window a) Q' s.
Proof using Type.
  intros Ha Hw Hr Hk. unfold desktop_draw_window. rewrite (proj2 (Z.eqb_neq a 0)) by done.
  apply wp_bind, wp_getf with w; [done|]. unfold window_scene in Hr. destruct (w_visible w =? 0).
  - apply wp_ret. destruct s. apply (Hk d_canvas). unfold wp in Hr. exact Hr.
  - cbv zeta in *. do 8 (draw_step; intros ?c ?Hr).
    eapply (wp_draw_last (Text _ _ _ _)); [eassumption|]. intros c' Hc. destruct s. by apply Hk.
Qed.

(** What is drawn is the scene of the windows. *)
Lemma wp_redraw ws (Q : unit -> S -> Prop) (Q' : unit -> desk -> Prop) s : Z.of_nat (length ws) < 2 ^ 64 ->
  window_list (d_store s) (d_windows s) ws ->
  wp (run_draws (scene ws)) Q (d_canvas s) -> (forall c, Q tt c -> Q' tt (with_canvas c s)) -> wp desktop_redraw Q' s.
Proof using Type.
  intros Hlen Hl Hr Hk. unfold desktop_redraw, scene in *. draw_step. clear Hr. intros c1 Hr. unfold draw_taskbar, taskbar in *. cbn [app] in Hr.
  apply wp_bind. draw_step. clear Hr. intros c2 Hr. draw_step. clear Hr. intros c3 Hr.
  change (graphics_draw_text 25 15 (chars "Start") 16777215) with (on_canvas (H := H) (run_draw (Text 25 15 (chars "Start") 16777215))).
  change (Text 25 15 (chars "Start") 16777215 :: flat_map window_scene ws) with ([Text 25 15 (chars "Start") 16777215] ++ flat_map window_scene ws) in Hr.
  apply wp_run_app in Hr. eapply wp_draw_last; [exact Hr|]. clear Hr. intros c4 Hr. cbn beta in Hr. apply wp_bind, wp_gets. cbn [d_windows with_canvas].
  apply wp_loop_n with (n := Z.of_nat (length ws)) (I := fun n a s' => exists c rest, n = Z.of_nat (length rest) /\ s' = with_canvas c s /\
      window_list (d_store s) a rest /\ wp (run_draws (flat_map window_scene rest)) Q c); [|by exists c4, ws|lia].
  clear Hr Hl Hlen c1 c2 c3 c4 ws. intros n a s' (c & rest & -> & -> & Hl & Hr). destruct rest as [|w rest]; cbn [window_list flat_map] in *.
  - subst a. cbn [Z.eqb negb]. apply wp_ret. cbn [turn]. apply Hk. unfold wp in Hr. exact Hr.
  - destruct Hl as (Ha & Hw & Hl). rewrite (proj2 (Z.eqb_neq a 0)) by done. cbn [negb]. apply wp_run_app in Hr. apply wp_bind.
    eapply (wp_draw_window a w); [done|done|exact Hr|]. intros c' Hc. apply wp_bind, wp_getf with w; [done|]. apply wp_ret. cbn [turn].
    exists (Z.of_nat (length rest)). split; [|cbn [length]; lia]. exists c', rest. by repeat split.
Qed.

(** [desktop_redraw] draws exactly the scene of the windows that are
    linked from the list: the background, the task bar, and every visible
    window, the newest first; it changes nothing but the screen. *)
Theorem desktop_redraw_correct s ws c : Z.of_nat (length ws) < 2 ^ 64 ->
  window_list (d_store s) (d_windows s) ws -> run_draws (scene ws) (d_canvas s) = Ok (tt, c) ->
  desktop_redraw s = Ok (tt, with_canvas c s).
Proof using Type.
  intros Hn Hl Hr. apply wp_det. eapply (wp_redraw ws (fun _ c' => c' = c)); [done|done|by unfold wp; rewrite Hr|]. by intros c' ->.
Qed.
End Draws.

(** ** Windows *)

Section Windows.
Context {H S : Type} `{KAllocLaws H} `{Graphics S}.
Abbreviation desk := (desktop H S).
Implicit Types (s : desk) (ws : list desktop_window) (m : gmap Z desktop_window).

Lemma window_list_insert m a b w ws : m !! b = None -> window_list m a ws -> window_list (<[b := w]> m) a ws.
Proof using Type.
  intros Hb. revert a. induction ws as [|v ws IH]; intros a; cbn; [done|]. intros (Ha & Hv & Hl). split; [done|]. split; [|by apply IH].
  rewrite lookup_insert_ne; [done|]. intros ->. by rewrite Hb in Hv.
Qed.

Lemma string_in_zeros n : string_in (replicate n 0) = [].
Proof using Type. by destruct n. Qed.

Lemma string_in_app l r : Forall (fun b => b <> 0) l -> string_in (l ++ r) = l ++ string_in r.
Proof using Type. induction 1 as [|b l Hb _ IH]; [done|]. cbn. rewrite (proj2 (Z.eqb_neq b 0)) by done. by rewrite IH. Qed.

(** The 64 bytes of a title always end: it is cut to 63 characters. *)
Lemma title_string title : Forall (fun b => b <> 0) title -> string_in (title_bytes title) = take 63 title.
Proof using Type.
  intros Ht. unfold title_bytes. destruct (decide (63 <= length title)%nat).
  - rewrite resize_le, string_in_app by first [done|by apply Forall_take]. by rewrite app_nil_r.
  - rewrite resize_ge, <- app_assoc, string_in_app by first [done|lia]. rewrite take_ge by lia.
    replace (replicate (63 - length title) 0 ++ [0]) with (replicate (63 - length title + 1) 0) by by rewrite replicate_add.
    by rewrite string_in_zeros, app_nil_r.
Qed.

(** [desktop_create_window] returns the null pointer and leaves the
    windows as they were when there is no memory; else it returns a new
    window, visible, with the title cut to 63 characters, in front of the
    windows before, which keep their fields and their order. *)
Theorem desktop_create_window_correct s L ws x y w h title :
  owned (d_heap s) L -> base.dom (d_store s) ⊆ L -> window_list (d_store s) (d_windows s) ws -> Forall (fun b => b <> 0) title ->
  wp (desktop_create_window x y w h title) (fun a s' =>
      d_canvas s' = d_canvas s /\ d_focused s' = d_focused s /\
      (a = 0 /\ d_store s' = d_store s /\ d_windows s' = d_windows s /\ owned (d_heap s') L \/
       0 < a /\ (a ∉ L) /\ owned (d_heap s') ({[a]} ∪ L) /\ d_windows s' = a /\
       exists new, d_store s' = <[a := new]> (d_store s) /\ window_list (d_store s') a (new :: ws) /\
         w_x new = x /\ w_y new = y /\ w_width new = w /\ w_height new = h /\ w_visible new = 1 /\
         string_in (w_title new) = take 63 title)) s.
Proof using Type.
  intros Ho Hd Hl Ht. unfold desktop_create_window. apply wp_bind, wp_on_kernel.
  eapply wp_mono; [by apply kmalloc_law with (L := L)|]. intros a h' [[-> Ho']|(Ha & HaL & Ho')]; cbn [Z.eqb].
  - apply wp_ret. split; [done|]. split; [done|]. by left.
  - rewrite (proj2 (Z.eqb_neq a 0)) by lia. apply wp_bind, wp_gets, wp_bind, wp_modify, wp_bind, wp_modify, wp_ret. cbn [d_canvas d_focused d_store d_windows d_heap].
    split; [done|]. split; [done|]. right. do 4 (split; [done|]). eexists. split; [done|]. split; [|do 5 (split; [done|]); exact (title_string title Ht)].
    split; [lia|]. split; [apply lookup_insert_eq|]. apply window_list_insert; [|done]. apply not_elem_of_dom. set_solver.
Qed.
End Windows.

(** ** The desktop on the frame buffer *)

Definition effect (m : mem) (d : draw) : mem :=
  match d with
  | Clear c => paint (fun _ => true) (fill_color c) m
  | Rect x y w h c => paint (area (Z.max 0 x) (Z.max 0 x + w) (Z.max 0 y) (Z.max 0 y + h)) (fill_color c) m
  | Text x y t c => paint (area x (x + 8 * Z.of_nat (length t)) y (y + 8)) (fill_color c) m
  end.

(** Commands that stay in the frame buffer. *)
Definition sane (d : draw) : Prop :=
  match d with
  | Clear _ => True
  | Rect x y w h _ => moderate x /\ moderate y /\ moderate w /\ moderate h
  | Text x y t _ => 0 <= x /\ x + 8 * Z.of_nat (length t) <= 2 ^ 29 /\ 0 <= y <= 2 ^ 29
  end.

Lemma effect_mapped d m : frame_mapped m -> frame_mapped (effect m d).
Proof. intros Hm. destruct d; by apply paint_mapped. Qed.

Lemma effects_mapped ds m : frame_mapped m -> frame_mapped (foldl effect m ds).
Proof. revert m. induction ds as [|d ds IH]; intros m Hm; [done|]. by apply IH, effect_mapped. Qed.

Lemma wp_on_frame {A} (p : prog mem A) Q s : wp p (fun a m => Q a (Screen m (events s))) (frame s) -> wp (on_frame p) Q s.
Proof. unfold wp, on_frame. by destruct (p (frame s)) as [[a m]| |]. Qed.

Lemma run_sane ds s : Forall sane ds -> frame_mapped (frame s) ->
  run_draws ds s = Ok (tt, Screen (foldl effect (frame s) ds) (events s)).
Proof.
  intros Hds Hm. apply wp_det. revert s Hm. induction Hds as [|d ds Hd _ IH]; intros s Hm; cbn [run_draws foldl].
  - apply wp_ret. split; [done|by destruct s].
  - apply wp_bind. assert (wp (run_draw d) (fun _ s' => s' = Screen (effect (frame s) d) (events s)) s) as Hw.
    { destruct d; cbn [run_draw gfx_clear gfx_rect gfx_text screen_graphics]; apply wp_on_frame; cbn [sane effect] in *.
      - by apply wp_paint_all.
      - destruct Hd as (? & ? & ? & ?). by apply wp_rect.
      - destruct Hd as (? & ? & ?). by apply wp_text. }
    eapply wp_mono; [exact Hw|]. intros _ s' ->. by apply (IH (Screen _ _)), effect_mapped.
Qed.

(** The pixel [i] has the colour [c]. *)
Definition shows (m : mem) (i c : Z) : Prop :=
  m !! (framebuffer + 2 * i) = Some (c mod 256) /\ m !! (framebuffer + 2 * i + 1) = Some (c / 256 mod 256).

Lemma pixel_bytes i : 0 <= i < pixels -> in_frame (framebuffer + 2 * i) = true /\ in_frame (framebuffer + 2 * i + 1) = true /\
  pixel_of (framebuffer + 2 * i) = i /\ pixel_of (framebuffer + 2 * i + 1) = i.
Proof.
  intros Hi. unfold in_frame, pixel_of. rewrite !andb_true_iff, !Z.leb_le, !Z.ltb_lt.
  replace (framebuffer + 2 * i - framebuffer) with (0 + i * 2) by lia. replace (framebuffer + 2 * i + 1 - framebuffer) with (1 + i * 2) by lia.
  rewrite !Z_div_plus by lia. change (0 / 2) with 0. change (1 / 2) with 0. lia.
Qed.

Lemma shows_in R c m i : 0 <= i < pixels -> frame_mapped m -> R i = true -> shows (paint R c m) i c.
Proof.
  intros Hi Hm HR. pose proof (pixel_bytes i Hi) as (H1 & H2 & H3 & H4). unfold shows. rewrite !paint_lookup, H1, H2, H3, H4, HR.
  destruct (Hm (framebuffer + 2 * i)) as [b ->]; [lia|]. destruct (Hm (framebuffer + 2 * i + 1)) as [b' ->]; [lia|]. cbn. unfold pixel_byte.
  replace (framebuffer + 2 * i - framebuffer) with (0 + i * 2) by lia. replace (framebuffer + 2 * i + 1 - framebuffer) with (1 + i * 2) by lia.
  by rewrite !Z_mod_plus by lia.
Qed.

Lemma shows_out R c m i c' : 0 <= i < pixels -> R i = false -> shows m i c' -> shows (paint R c m) i c'.
Proof.
  intros Hi HR [S1 S2]. pose proof (pixel_bytes i Hi) as (H1 & H2 & H3 & H4). unfold shows.
  by rewrite !paint_lookup, H1, H2, H3, H4, HR, S1, S2.
Qed.

(** A window whose parts lie to the right of and below the corner of the screen. *)
Definition placed (w : desktop_window) : Prop :=
  0 <= w_x w <= 2 ^ 27 /\ 0 <= w_y w <= 2 ^ 27 /\ 25 <= w_width w <= 2 ^ 27 /\ 2 <= w_height w <= 2 ^ 27 /\ (length (w_title w) <= 64)%nat.

Lemma window_sane w : placed w -> Forall sane (window_scene w).
Proof.
  unfold placed. intros (Hx & Hy & Hw & Hh & Ht). pose proof (string_in_length (w_title w)) as Hs. unfold window_scene. cbv zeta.
  destruct (w_visible w =? 0); [constructor|]. rewrite (swrap_small 32 (w_x w + w_width w)), (swrap_small 32 (w_y w + w_height w)), !swrap_small by lia.
  repeat (apply Forall_cons; split); [..|constructor]; cbn [sane]; unfold moderate; change (length (chars "X")) with 1%nat; lia.
Qed.

Lemma scene_sane ws : Forall placed ws -> Forall sane (scene ws).
Proof.
  intros Hws. unfold scene, taskbar. apply Forall_cons. split; [done|]. apply Forall_app. split.
  - repeat (apply Forall_cons; split); [..|constructor]; cbn [sane]; unfold moderate; change (length (chars "Start")) with 5%nat; lia.
  - induction Hws as [|w ws Hw _ IH]; cbn [flat_map]; [constructor|]. apply Forall_app. split; [by apply window_sane|done].
Qed.

(** The inner part of a window: inside the border and below the title bar. *)
Definition interior (w : desktop_window) (px py : Z) : Prop :=
  w_x w + 2 <= px < w_x w + w_width w - 2 /\ w_y w + 25 <= py < w_y w + w_height w - 2.

Lemma window_shows w m px py : placed w -> w_visible w <> 0 -> frame_mapped m -> interior w px py -> px < screen_width -> py < screen_height ->
  shows (foldl effect m (window_scene w)) (py * screen_width + px) 255.
Proof.
  unfold placed, interior. intros (Hx & Hy & Hw & Hh & Ht) Hv Hm [Hpx Hpy] Hpx2 Hpy2. pose proof (string_in_length (w_title w)) as Hs.
  unfold window_scene. cbv zeta. rewrite (proj2 (Z.eqb_neq _ 0)) by done. rewrite (swrap_small 32 (w_x w + w_width w)), (swrap_small 32 (w_y w + w_height w)), !swrap_small by lia.
  set (i := py * screen_width + px). assert (0 <= i < pixels) as Hi by (unfold i, pixels, screen_width, screen_height in *; lia).
  assert (i mod screen_width = px /\ i / screen_width = py) as [E1 E2].
  { pose proof (pixel_xy i px py ltac:(lia)) as E. rewrite (proj2 (Z.eqb_eq i _)) in E by done. symmetry in E. apply andb_prop in E. lia. }
  cbn [foldl effect]. change (fill_color WINDOW_BG) with 255. change (length (chars "X")) with 1%nat.
  do 8 (apply shows_out; [done|unfold area; rewrite E1, E2; lia|]).
  apply shows_in; [done|done|unfold area; rewrite E1, E2; lia].
Qed.

Section Composition.
Context {H : Type} `{KAlloc H}.
Implicit Types (s : desktop H screen) (ws : list desktop_window).

(** C40: The window that was created first is painted last.  With the drawing
    functions of simple_graphics.c, when no window has a part to the left of
    or above the screen ([placed]: corners from 0 and sides up to 2^27, a
    width of 25 or more), [desktop_redraw] ends, and every pixel of the
    screen in the inner part of the oldest window, if it is visible, shows the
    background of that window, whatever newer windows, the focused one too,
    lie over it.  (The Makefile links kernel_graphics.c, with which nothing is
    drawn: [kernel_redraw_blank].) *)
Theorem redraw_oldest_on_top s ws w :
  Z.of_nat (length (ws ++ [w])) < 2 ^ 64 -> window_list (d_store s) (d_windows s) (ws ++ [w]) -> Forall placed (ws ++ [w]) ->
  w_visible w <> 0 -> frame_mapped (frame (d_canvas s)) ->
  exists c, desktop_redraw s = Ok (tt, with_canvas c s) /\
    forall px py, interior w px py -> px < screen_width -> py < screen_height -> shows (frame c) (py * screen_width + px) 255.
Proof using Type.
  intros Hn Hl Hp Hv Hm. pose proof (scene_sane _ Hp) as Hs. pose proof (run_sane _ (d_canvas s) Hs Hm) as Hr.
  set (c := Screen (foldl effect (frame (d_canvas s)) (scene (ws ++ [w]))) (events (d_canvas s))) in *. exists c. split.
  - apply wp_det. apply (wp_redraw (ws ++ [w]) (fun _ c' => c' = c)); [done|done|unfold wp; by rewrite Hr|]. by intros c' ->.
  - intros px py Hi Hx Hy. unfold c. cbn [frame].
    assert (scene (ws ++ [w]) = scene ws ++ window_scene w) as ->.
    { unfold scene. rewrite flat_map_app. cbn [flat_map]. rewrite app_nil_r.
      by rewrite <- app_comm_cons, <- app_assoc. }
    rewrite foldl_app.
    apply window_shows; [|done|by apply effects_mapped|done..]. apply Forall_app in Hp as [_ Hp]. by apply Forall_cons in Hp as [Hp _].
Qed.
End Composition.

(** ** The drawing functions of kernel_graphics.c *)

#[local] Existing Instance Kernel.kernel_graphics.

Lemma kernel_draws_nothing ds (l : list string) : run_draws ds l = Ok (tt, l).
Proof. apply wp_det. induction ds as [|d ds IH]; [done|]. apply wp_bind. destruct d; exact IH. Qed.

(** In the kernel that the Makefile links, the desktop draws nothing: whatever windows
    there are, [desktop_redraw] leaves the whole state as it was, since every
    drawing function of kernel_graphics.c submits an empty command buffer to
    stubs. *)
Theorem kernel_redraw_blank {H : Type} `{KAlloc H} (s : desktop H (list string)) ws : Z.of_nat (length ws) < 2 ^ 64 ->
  window_list (d_store s) (d_windows s) ws -> desktop_redraw s = Ok (tt, s).
Proof.
  intros Hn Hl. apply wp_det. apply (wp_redraw ws (fun _ c => c = d_canvas s)); [done|done|unfold wp; by rewrite kernel_draws_nothing|].
  intros c ->. split; [done|]. by destruct s.
Qed.

(** ** Pages *)

(** The characters outside tags, without line ends. *)
Fixpoint visible (in_tag : bool) (t : text) : text :=
  match t with
  | [] => []
  | c :: r =>
      if c =? 60 then visible true r
      else if c =? 62 then visible false r
      else if in_tag || (c =? 10) || (c =? 13) then visible in_tag r
      else c :: visible in_tag r
  end.

Abbreviation place := (Z * Z)%type.

(** A block of 8 by 8 pixels at [p] lies to the left of the one at [q], or above it. *)
Definition before (p q : place) : Prop := p.2 + 8 <= q.2 \/ p.2 = q.2 /\ p.1 + 8 <= q.1.

Definition in_columns (p : place) : Prop := 10 <= p.1 /\ p.1 + 8 <= 310 /\ 40 <= p.2.

Definition draw_char (p : place) (c : Z) : draw := Text p.1 p.2 [c] 0.

Section Pages.
Context {H S : Type} `{KAlloc H} `{Graphics S}.
Implicit Types (s : desktop H S) (t : text).

Lemma wp_render t : forall prev in_tag x y, 10 <= x <= 300 -> 40 <= y -> y + 20 * Z.of_nat (length t) < 2 ^ 31 ->
  (prev = None -> head t <> Some 62) ->
  exists places, length places = length (visible in_tag t) /\ Forall in_columns places /\
    Forall (fun q => x <= q.1 /\ y = q.2 \/ y + 8 <= q.2) places /\ StronglySorted before places /\
    forall (s : desktop H S) (Q : unit -> S -> Prop) (Q' : unit -> desktop H S -> Prop),
      wp (run_draws (zip_with draw_char places (visible in_tag t))) Q (d_canvas s) ->
      (forall c, Q tt c -> Q' tt (with_canvas c s)) -> wp (render_chars prev in_tag x y t) Q' s.
Proof using Type.
  induction t as [|c t IH]; intros prev in_tag x y Hx Hy Hl Hp; cbn [render_chars visible length] in *.
  - exists []. repeat split; try constructor. intros s Q Q' Hr Hk. apply wp_ret. destruct s. apply (Hk d_canvas). exact Hr.
  - destruct (c =? 60); [apply IH; [done|done|lia|done]|]. destruct (Z.eqb_spec c 62) as [->|Hc].
    + destruct prev as [p|]; [|by specialize (Hp eq_refl)]. destruct ((p =? 112) || (p =? 80)); [|apply IH; [done|done|lia|done]].
      destruct (IH (Some 62) false 10 (s32 (y + 20))) as (places & Hn & Hi & Ha & Hs & Hw); [lia|rewrite swrap_small; lia..|done|].
      rewrite swrap_small in Ha by lia. exists places. split; [done|]. split; [done|]. split; [|done].
      eapply Forall_impl; [exact Ha|]. cbn. lia.
    + destruct in_tag; cbn [negb andb orb]; [apply IH; [done|done|lia|done]|].
      destruct (c =? 10); cbn [negb andb orb]; [apply IH; [done|done|lia|done]|].
      destruct (c =? 13); cbn [negb andb orb]; [apply IH; [done|done|lia|done]|].
      rewrite (swrap_small 32 (x + 8)) by lia.
      set (x' := if 300 <? x + 8 then 10 else x + 8). set (y' := if 300 <? x + 8 then s32 (y + 12) else y).
      assert (10 <= x' <= 300 /\ (y' = y /\ x' = x + 8 \/ y' = y + 12)) as [Hx' Hy'].
      { unfold x', y'. destruct (Z.ltb_spec 300 (x + 8)); [rewrite swrap_small|]; lia. }
      destruct (IH (Some c) false x' y') as (places & Hn & Hi & Ha & Hs & Hw); [done|lia|lia|done|].
      exists ((x, y) :: places). split; [cbn; lia|]. split; [constructor; [unfold in_columns; cbn; lia|done]|].
      split; [constructor; [cbn; lia|eapply Forall_impl; [exact Ha|]; cbn; lia]|].
      split; [constructor; [done|]; eapply Forall_impl; [exact Ha|]; unfold before; cbn; lia|].
      intros s Q Q' Hr Hk. cbn [zip_with] in Hr.
      change (graphics_draw_text x y [c] 0) with (on_canvas (H := H) (run_draw (draw_char (x, y) c))).
      eapply wp_draw; [exact Hr|]. intros c1 Hr1. cbv zeta.
      assert (wp (render_chars (Some c) false x' y' t) Q' (with_canvas c1 s)) as Hw'; [|by unfold x', y' in Hw'; destruct (300 <? x + 8)].
      apply (Hw (with_canvas c1 s) Q); [done|]. intros c2 Hc2. by apply Hk.
Qed.

(** C34: [html_render_page] on a text of less than 2^30 / 20 characters that
    does not begin with a "greater than" sign (where the code reads in front
    of the text: [html_render_page_faults]) ends and draws exactly the
    characters outside tags but line ends ([visible]), in their order, each as
    one block at a place within the 320 columns of the screen, and no block
    over another. *)
Theorem html_render_page_correct t : 20 * Z.of_nat (length t) < 2 ^ 30 -> head t <> Some 62 ->
  exists places, length places = length (visible false t) /\ Forall in_columns places /\ StronglySorted before places /\
    forall s c, (gfx_log "Rendering HTML page..." ;; run_draws (zip_with draw_char places (visible false t))) (d_canvas s) = Ok (tt, c) ->
      html_render_page (Some t) s = Ok (tt, with_canvas c s).
Proof using Type.
  intros Hl Hh. destruct (wp_render t None false 10 40) as (places & Hn & Hi & _ & Hs & Hw); [lia|lia|lia|done|].
  exists places. split; [done|]. split; [done|]. split; [done|]. intros s c Hr. apply wp_det. cbn [html_render_page].
  assert (wp (gfx_log "Rendering HTML page..." ;; run_draws (zip_with draw_char places (visible false t))) (fun _ c' => c' = c) (d_canvas s)) as Hr'
    by (unfold wp; by rewrite Hr).
  apply wp_bind_inv in Hr'. apply wp_bind, wp_on_canvas. eapply wp_mono; [exact Hr'|]. intros [] c1 Hc1.
  apply (Hw (with_canvas c1 s) (fun _ c' => c' = c)); [exact Hc1|]. by intros c2 ->.
Qed.

(** A page that begins with a "greater than" sign is read in front of its
    first character. *)
Lemma html_render_page_faults t s : (forall c, exists c', gfx_log "Rendering HTML page..." c = Ok (tt, c')) ->
  html_render_page (Some (62 :: t)) s = Fault.
Proof using Type.
  intros Hg. destruct (Hg (d_canvas s)) as [c' Hc]. cbn [html_render_page]. unfold bind, printk, on_canvas. by rewrite Hc.
Qed.
End Pages.

(** ** The demo script interpreter *)

Lemma contains_spec w t : contains w t = true <-> exists a b, t = a ++ w ++ b.
Proof.
  induction t as [|c t IH]; cbn [contains]; rewrite orb_true_iff, bool_decide_eq_true.
  - split; [intros [[b Hb]|]; [by exists [], b|done]|]. intros (a & b & Hb). left. symmetry in Hb.
    apply app_eq_nil in Hb as [_ [-> ->]%app_eq_nil]. by exists [].
  - rewrite IH. split.
    + intros [[b Hb]|(a & b & ->)]; [by exists [], b|by exists (c :: a), b].
    + intros ([|a0 a] & b & Hb); cbn in Hb; [left; by exists b|]. injection Hb as -> ->. right. by exists a, b.
Qed.

Definition script_messages (t : text) : list string :=
  String.append "Executing JavaScript: " (printed t) ::
  (if contains (chars "console.log") t then ["JS Console output detected"%string] else []) ++
  (if contains (chars "graphics.drawRect") t then ["JS Draw rect command detected"%string] else []).

Section Script.
Context {H : Type} `{KAlloc H}.
Implicit Types (s : desktop H screen).

Lemma wp_printk x (Q : unit -> desktop H screen -> Prop) s :
  Q tt (with_canvas (Screen (frame (d_canvas s)) (events (d_canvas s) ++ [Message x])) s) -> wp (printk x) Q s.
Proof. intros HQ. apply wp_on_canvas. by apply wp_modify. Qed.

Lemma wp_clear color (Q : unit -> desktop H screen -> Prop) s : frame_mapped (frame (d_canvas s)) ->
  Q tt (with_canvas (Screen (paint (fun _ => true) (fill_color color) (frame (d_canvas s))) (events (d_canvas s))) s) ->
  wp (graphics_clear_screen color) Q s.
Proof. intros Hm HQ. apply wp_on_canvas, wp_on_frame. by apply wp_paint_all. Qed.

(** Whatever the script, the interpreter ends; all it does is print at
    most three messages and, when "graphics.clear" stands anywhere in the text,
    paint the whole screen in one colour. *)
Theorem js_execute_script_correct s t : frame_mapped (frame (d_canvas s)) ->
  exists m', js_execute_script (Some t) s = Ok (tt, with_canvas (Screen m' (events (d_canvas s) ++ map Message (script_messages t))) s) /\
    ((exists a b, t = a ++ chars "graphics.clear" ++ b) /\ m' = paint (fun _ => true) (fill_color 3031127) (frame (d_canvas s)) \/
     ~ (exists a b, t = a ++ chars "graphics.clear" ++ b) /\ m' = frame (d_canvas s)).
Proof.
  intros Hm. exists (if contains (chars "graphics.clear") t then paint (fun _ => true) (fill_color 3031127) (frame (d_canvas s)) else frame (d_canvas s)).
  split.
  - apply wp_det. unfold js_execute_script, script_messages.
    destruct (contains (chars "console.log") t), (contains (chars "graphics.clear") t), (contains (chars "graphics.drawRect") t);
      repeat first [wp_step | apply wp_printk; cbn | apply wp_clear; [exact Hm|]; cbn]; (split; [done|]); by rewrite <- ?app_assoc.
  - destruct (contains (chars "graphics.clear") t) eqn:E; [left|right]; (split; [|done]).
    + by apply contains_spec.
    + intros Hc%contains_spec. by rewrite E in Hc.
Qed.
End Script.
