(* ===== verification/DesktopExamples.v ===== *)
(** * The desktop at concrete inputs

    The theorems of [DesktopProofs] with the bump allocator of simple_mm.c,
    with the drawing functions of simple_graphics.c or kernel_graphics.c. *)

From Stdlib Require Import Sorting.Sorted.
From S2P Require Import Prelude CMem Alloc SimpleMm DomObj Screen Desktop DesktopProofs.

#[local] Existing Instance Kernel.kernel_graphics.

Definition new_window : desktop_window := Window 150 150 700 500 (title_bytes (chars "Web Browser")) 1 4096.
Definition old_window : desktop_window := Window 100 100 600 400 (title_bytes (chars "Shell")) 1 0.
Definition two_windows : gmap Z desktop_window := <[8192 := new_window]> (<[4096 := old_window]> ∅).

Definition console_desk : desktop smm (list string) := Desk (Smm ∅ 0) [] two_windows 8192 0.
Definition frame_desk : desktop smm screen := Desk (Smm ∅ 0) (Screen small_frame []) two_windows 8192 8192.

Lemma two_windows_linked : window_list two_windows 8192 [new_window; old_window].
Proof. split; [done|]. split; [done|]. split; [done|]. split; [done|]. reflexivity. Qed.

Lemma desktop_redraw_correct_witness : desktop_redraw console_desk = Ok (tt, with_canvas [] console_desk).
Proof.
  apply (desktop_redraw_correct console_desk [new_window; old_window] []); [done|exact two_windows_linked|].
  apply kernel_draws_nothing.
Defined.

Lemma kernel_redraw_blank_witness : desktop_redraw console_desk = Ok (tt, console_desk).
Proof. apply (kernel_redraw_blank console_desk [new_window; old_window]); [done|exact two_windows_linked]. Defined.

Lemma desktop_create_window_correct_witness :
  wp (desktop_create_window 5 6 70 80 (chars "Shell")) (fun a s' =>
      d_canvas s' = [] /\ d_focused s' = 0 /\
      (a = 0 /\ d_store s' = ∅ /\ d_windows s' = 0 /\ owned (d_heap s') ∅ \/
       0 < a /\ (a ∉ (∅ : gset Z)) /\ owned (d_heap s') ({[a]} ∪ ∅) /\ d_windows s' = a /\
       exists new, d_store s' = <[a := new]> ∅ /\ window_list (d_store s') a [new] /\
         w_x new = 5 /\ w_y new = 6 /\ w_width new = 70 /\ w_height new = 80 /\ w_visible new = 1 /\
         string_in (w_title new) = take 63 (chars "Shell"))) (Desk (Smm ∅ 0) ([] : list string) ∅ 0 0).
Proof.
  apply (desktop_create_window_correct (Desk (Smm ∅ 0) ([] : list string) ∅ 0 0) ∅ [] 5 6 70 80 (chars "Shell")).
  - split; [done|]. intros p Hp. by apply elem_of_empty in Hp.
  - cbn. by rewrite dom_empty_L.
  - reflexivity.
  - by repeat constructor.
Defined.

Lemma redraw_oldest_on_top_witness :
  exists c, desktop_redraw frame_desk = Ok (tt, with_canvas c frame_desk) /\
    forall px py, interior old_window px py -> px < screen_width -> py < screen_height ->
      shows (frame c) (py * screen_width + px) 255.
Proof.
  apply (redraw_oldest_on_top frame_desk [new_window] old_window); [done|exact two_windows_linked| |done|exact small_frame_mapped].
  repeat (apply Forall_cons; split); [..|constructor]; unfold placed; cbn [w_x w_y w_width w_height w_title new_window old_window];
    unfold title_bytes; rewrite length_app, length_resize; cbn [length]; lia.
Defined.

Definition small_html : text := chars "<h1>Hi</h1> there<p>you".

Lemma html_render_page_correct_witness :
  exists places, length places = length (chars "Hi thereyou") /\ Forall in_columns places /\ StronglySorted before places /\
    forall (s : desktop smm (list string)) c,
      (gfx_log "Rendering HTML page..." ;; run_draws (zip_with draw_char places (chars "Hi thereyou"))) (d_canvas s) = Ok (tt, c) ->
      html_render_page (Some small_html) s = Ok (tt, with_canvas c s).
Proof. apply (html_render_page_correct small_html); done. Defined.

Definition demo_script : text := chars "graphics.clear(); console.log(1)".

Definition demo_messages : list event :=
  [Message "Executing JavaScript: graphics.clear(); console.log(1)"; Message "JS Console output detected"].

Lemma js_execute_script_correct_witness :
  exists m', js_execute_script (Some demo_script) frame_desk = Ok (tt, with_canvas (Screen m' (events (d_canvas frame_desk) ++ demo_messages)) frame_desk) /\
    ((exists a b, demo_script = a ++ chars "graphics.clear" ++ b) /\
       m' = paint (fun _ => true) (fill_color 3031127) (frame (d_canvas frame_desk)) \/
     ~ (exists a b, demo_script = a ++ chars "graphics.clear" ++ b) /\ m' = frame (d_canvas frame_desk)).
Proof.
  replace demo_messages with (map Message (script_messages demo_script)) by (vm_compute; reflexivity).
  apply (js_execute_script_correct frame_desk demo_script). exact small_frame_mapped.
Defined.
