(* ===== verification/SimpleKernel.v ===== *)
(** * The small kernels (kernel/simple_main.c, minimal_main.c, simple_process.c,
    simple_interrupts.c, simple_fs.c)

    Two entry points that write a message to the memory of the text screen and
    halt, the [panic] of one of them, and the process list of the 32-bit
    kernel, over any allocator.  Halting is a loop that never ends: the
    instruction changes nothing that the code sees. *)

From S2P Require Import Prelude CMem CStr Alloc DomObj.
From S2P Require SimpleMm.

(** ** Entry points *)

Definition vga : Z := 753664.

(** [while (1) hlt;] *)
Definition halt {S A} : prog S A := loop (fun _ => ret (Next tt)) tt.

(** [vga[i * 2] = c; vga[i * 2 + 1] = color;] *)
Definition put_cell (i c color : Z) : prog mem unit :=
  store8 (vga + s32 (i * 2)) c ;;
  store8 (vga + s32 (s32 (i * 2) + 1)) color.

(** The loop over the characters of a literal. *)
Fixpoint put_literal (i : Z) (msg : list Z) (color : Z) : prog mem unit :=
  match msg with
  | [] => ret tt
  | c :: msg => put_cell i c color ;; put_literal (s32 (i + 1)) msg color
  end.

(** The loop over a string in memory, whose character [i] goes to the cell
    [i + 14]. *)
Definition put_string (message color : Z) : prog mem unit :=
  loop (fun i =>
    let* c := load8 (message + i) in
    if c =? 0 then ret (Done tt)
    else
      let* c := load8 (message + i) in
      put_cell (s32 (i + 14)) c color ;;
      ret (Next (s32 (i + 1)))) 0.

Module Simple.
Definition msg : list Z := chars "Modern OS Kernel v1.0 - Booted successfully!" ++ [10].
Definition boot : prog mem unit := put_literal 0 msg 15.
Definition kernel_main : prog mem unit := boot ;; halt.
End Simple.

Module Minimal.
Definition msg : list Z := chars "Modern OS Kernel v1.0 - Full kernel booted successfully!" ++ [10].
Definition boot : prog mem unit := put_literal 0 msg 15.
Definition kernel_main : prog mem unit := boot ;; halt.

Definition panic_msg : list Z := chars "KERNEL PANIC: ".
Definition report (message : Z) : prog mem unit :=
  put_literal 0 panic_msg 4 ;;
  put_string message 4.
Definition panic (message : Z) : prog mem unit := report message ;; halt.
End Minimal.

(** ** Processes *)

Record simple_process : Type := SimpleProcess { pid : Z; state : Z; next : Z }.
Definition sizeof_simple_process : Z := 12.

Record processes (H : Type) : Type := Processes {
  p_heap : H; p_store : gmap Z simple_process; current_process : Z; next_pid : Z;
}.
Arguments Processes {H}.
Arguments p_heap {H}.
Arguments p_store {H}.
Arguments current_process {H}.
Arguments next_pid {H}.

Section Processes.
Context {H : Type} `{KAlloc H}.
Abbreviation sps := (processes H).

Definition on_kheap {A} (p : prog H A) : prog sps A :=
  fun s => match p (p_heap s) with
           | Ok (a, h) => Ok (a, Processes h (p_store s) (current_process s) (next_pid s))
           | Fault => Fault
           | Spin => Spin
           end.

Definition set_current (p : Z) : prog sps unit :=
  modify (fun s => Processes (p_heap s) (p_store s) p (next_pid s)).

(** [proc->pid = next_pid++; proc->state = 0; proc->next = NULL;] *)
Definition start_process (proc : Z) : prog sps unit :=
  modify (fun s => Processes (p_heap s) (<[proc := SimpleProcess (next_pid s) 0 0]> (p_store s)) (current_process s) (u32 (next_pid s + 1))).

Definition process_init : prog sps unit :=
  let* p := on_kheap (kmalloc_op sizeof_simple_process) in
  set_current p ;;
  if negb (p =? 0) then start_process p else ret tt.

Definition process_create : prog sps Z :=
  let* proc := on_kheap (kmalloc_op sizeof_simple_process) in
  if proc =? 0 then ret 0
  else start_process proc ;; ret proc.

Definition process_destroy (proc : Z) : prog sps unit :=
  on_kheap (kfree_op proc) ;;
  modify (fun s => Processes (p_heap s) (delete proc (p_store s)) (current_process s) (next_pid s)).

Definition process_get_current : prog sps Z := gets current_process.
Definition process_switch (next : Z) : prog sps unit := set_current next.
Definition scheduler_start : prog sps unit := halt.

(** simple_interrupts.c and simple_fs.c *)
Definition interrupts_init : prog sps unit := ret tt.
Definition syscall_init : prog sps unit := ret tt.
Definition fs_init : prog sps unit := ret tt.
End Processes.

(** ** The text screen *)

(** The bytes of the cells with the characters [l]. *)
Definition cells (color : Z) (l : list Z) : list Z := flat_map (fun c => [c; color]) l.

Section Screen.
Implicit Types (m : mem) (i c color : Z) (l : list Z).

Lemma halt_spins {S A} (s : S) : (halt : prog S A) s = Spin.
Proof. unfold halt. apply (loop_spins _ (fun _ _ => True)); [|done]. intros x t _. by exists tt, t. Qed.

Lemma cells_length color l : length (cells color l) = (2 * length l)%nat.
Proof. induction l as [|c l IH]; [done|]. unfold cells in *. cbn. rewrite IH. lia. Qed.

Lemma wp_put_cell i c color m (Q : unit -> mem -> Prop) : 0 <= i < 2 ^ 29 -> byte c -> byte color -> mapped m (vga + 2 * i) 2 ->
  Q tt (write (vga + 2 * i) [c; color] m) -> wp (put_cell i c color) Q m.
Proof.
  intros Hi Hc Hk Hm HQ. unfold put_cell. rewrite !(swrap_small 32) by lia. rewrite Z.mul_comm, Z.add_assoc. wp_step.
  apply wp_store8; [apply Hm; lia|]. apply wp_store8; [rewrite lookup_insert_ne by lia; apply Hm; lia|].
  unfold byte in *. by rewrite !wrap_small by lia.
Qed.

Lemma wp_put_literal l : forall i color m (Q : unit -> mem -> Prop), 0 <= i -> i + Z.of_nat (length l) < 2 ^ 29 -> Forall byte l -> byte color ->
  mapped m (vga + 2 * i) (2 * Z.of_nat (length l)) -> Q tt (write (vga + 2 * i) (cells color l) m) -> wp (put_literal i l color) Q m.
Proof.
  induction l as [|c l IH]; intros i color m Q Hi Hl Hb Hk Hm HQ; cbn [put_literal]; [by wp_step|].
  apply Forall_cons in Hb as [Hc Hb]. cbn [length] in *. wp_step.
  apply wp_put_cell; [lia|done|done|apply mapped_le with (1 := Hm); lia|]. rewrite (swrap_small 32) by lia.
  apply IH; [lia|lia|done|done| |].
  - apply write_mapped, mapped_le with (1 := Hm); lia.
  - by replace (vga + 2 * (i + 1)) with (vga + 2 * i + 1 + 1) by lia.
Qed.

Lemma cells_snoc color l c : cells color (l ++ [c]) = cells color l ++ [c; color].
Proof. unfold cells. by rewrite flat_map_app. Qed.

(** The string does not lie in the part of the screen that is written. *)
Lemma wp_put_string message l color m (Q : unit -> mem -> Prop) : cstr m message l -> Z.of_nat (length l) < 2 ^ 28 -> byte color ->
  mapped m (vga + 28) (2 * Z.of_nat (length l)) ->
  message + Z.of_nat (length l) < vga + 28 \/ vga + 28 + 2 * Z.of_nat (length l) <= message ->
  Q tt (write (vga + 28) (cells color l) m) -> wp (put_string message color) Q m.
Proof.
  intros [Hc Hs] Hl Hk Hm Hd HQ. unfold put_string.
  apply wp_loop with (m := fun i _ => Z.of_nat (length l) - i)
    (I := fun i m' => 0 <= i <= Z.of_nat (length l) /\ m' = write (vga + 28) (cells color (take (Z.to_nat i) l)) m);
    [|split; [lia|by rewrite take_0]|lia].
  intros i m' [Hi ->].
  assert (forall b, (l ++ [0]) !! Z.to_nat i = Some b ->
    write (vga + 28) (cells color (take (Z.to_nat i) l)) m !! (message + i) = Some b) as Hrd.
  { intros b Eb. rewrite write_lookup_out by (rewrite cells_length, length_take; lia). rewrite <- (Hs _ _ Eb). f_equal. lia. }
  destruct (decide (i = Z.of_nat (length l))) as [->|Hne].
  - wp_step. apply wp_load8 with 0; [apply Hrd; rewrite Nat2Z.id; by apply list_lookup_middle|]. cbn [Z.eqb]. wp_step.
    by rewrite take_ge in * by lia.
  - destruct (lookup_lt_is_Some_2 l (Z.to_nat i)) as [b Eb]; [lia|]. assert (cchar b) as Hb by (by eapply Forall_lookup_1 in Hc).
    assert ((l ++ [0]) !! Z.to_nat i = Some b) as Eb' by (by apply lookup_app_l_Some).
    wp_step. apply wp_load8 with b; [by apply Hrd|]. rewrite (cchar_neq b) by done. wp_step. apply wp_load8 with b; [by apply Hrd|].
    wp_step. rewrite !(swrap_small 32) by lia. apply wp_put_cell; [lia|by apply cchar_byte|done| |].
    + apply write_mapped, mapped_le with (1 := Hm); lia.
    + wp_step. split; [|lia]. split; [lia|]. replace (Z.to_nat (i + 1)) with (S (Z.to_nat i)) by lia.
      rewrite (take_S_r _ _ _ Eb), cells_snoc, write_app, cells_length, length_take. f_equal. lia.
Qed.
End Screen.

(** [panic] of minimal_main.c writes "KERNEL PANIC: " and the message, in red
    on black, to consecutive cells of the text screen, changes no other byte
    of the memory, and never returns. *)
Theorem minimal_panic_correct message l m :
  cstr m message l -> Z.of_nat (length l) < 2 ^ 28 -> mapped m vga (28 + 2 * Z.of_nat (length l)) ->
  message + Z.of_nat (length l) < vga \/ vga + 28 + 2 * Z.of_nat (length l) <= message ->
  Minimal.report message m = Ok (tt, write vga (cells 4 (Minimal.panic_msg ++ l)) m) /\ Minimal.panic message m = Spin.
Proof.
  intros Hc Hl Hm Hd.
  assert (Minimal.report message m = Ok (tt, write vga (cells 4 (Minimal.panic_msg ++ l)) m)) as Hr.
  { apply wp_det. unfold Minimal.report. wp_step.
    apply wp_put_literal; [lia|cbn; lia|by eapply Forall_impl; [apply all_cchars|apply cchar_byte]|done|apply mapped_le with (1 := Hm); cbn; lia|].
    replace (vga + 2 * 0) with vga by lia.
    apply (wp_put_string message l); [|done|done| |lia|].
    - apply cstr_write_out; [done|]. rewrite cells_length. cbn. lia.
    - apply write_mapped, mapped_le with (1 := Hm); lia.
    - split; [done|]. unfold cells. rewrite flat_map_app. rewrite write_app. f_equal. }
  split; [done|]. unfold Minimal.panic. by rewrite (bind_ok _ _ _ _ _ Hr), halt_spins.
Qed.

(** ** The process list *)

Section ProcessList.
Context {H : Type} `{KFreeLaws H}.
Abbreviation sps := (processes H).
Implicit Types (s : sps) (p a : Z).

Lemma wp_on_kheap {A} (p : prog H A) (Q : A -> sps -> Prop) s :
  wp p (fun x h => Q x (Processes h (p_store s) (current_process s) (next_pid s))) (p_heap s) -> wp (on_kheap p) Q s.
Proof. unfold wp, on_kheap. by destruct (p (p_heap s)) as [[x h]| |]. Qed.

(** The processes are in use in the heap, and their numbers were given out,
    each once. *)
Record good s : Prop := {
  good_owned : owned (p_heap s) (base.dom (p_store s));
  good_next : 1 <= next_pid s;
  good_pid : forall a q, p_store s !! a = Some q -> 1 <= pid q < next_pid s;
  good_inj : forall a b q r, p_store s !! a = Some q -> p_store s !! b = Some r -> pid q = pid r -> a = b;
}.

(** What [process_create] and [process_init] do once memory is there. *)
Lemma good_start s p h : good s -> next_pid s < 2 ^ 32 - 1 -> (p ∉ base.dom (p_store s)) -> owned h ({[p]} ∪ base.dom (p_store s)) ->
  forall c, good (Processes h (<[p := SimpleProcess (next_pid s) 0 0]> (p_store s)) c (u32 (next_pid s + 1))).
Proof.
  intros [Ho Hn Hp Hi] Hw Hf Hh c. rewrite wrap_small by lia. split; cbn.
  - by rewrite dom_insert_L.
  - lia.
  - intros a q [[_ <-]|[_ Ha%Hp]]%lookup_insert_Some; cbn; lia.
  - intros a b q r [[<- <-]|[Hna Ha]]%lookup_insert_Some [[<- <-]|[Hnb Hb]]%lookup_insert_Some; cbn; [done| | |by apply Hi].
    + apply Hp in Hb. lia.
    + apply Hp in Ha. lia.
Qed.

Lemma wp_process_create s : good s -> next_pid s < 2 ^ 32 - 1 ->
  wp process_create (fun p s' => (good s' /\ current_process s' = current_process s /\
    (p = 0 /\ p_store s' = p_store s \/
     p_store s !! p = None /\ p_store s' = <[p := SimpleProcess (next_pid s) 0 0]> (p_store s) /\
     forall a q, p_store s !! a = Some q -> pid q <> next_pid s)) /\ next_pid s' <= next_pid s + 1) s.
Proof.
  intros Hg Hw. pose proof Hg as [Ho Hn Hp Hi]. unfold process_create. wp_step. apply wp_on_kheap.
  eapply wp_mono; [apply (kmalloc_law _ _ sizeof_simple_process Ho); unfold sizeof_simple_process; lia|].
  intros p h [[-> Hh]|(Hp0 & Hf & Hh)].
  - wp_steps. split; [|cbn; lia]. split; [by split|]. split; [done|]. by left.
  - rewrite (proj2 (Z.eqb_neq p 0)) by lia. unfold start_process. wp_steps. split; [|cbn; rewrite wrap_small; lia].
    split; [by apply (good_start s)|]. split; [done|].
    right. split; [by apply not_elem_of_dom|]. split; [done|]. intros a q Ha%Hp. lia.
Qed.

Lemma wp_process_destroy s a : good s -> is_Some (p_store s !! a) ->
  wp (process_destroy a) (fun _ s' => (good s' /\ p_store s' = delete a (p_store s) /\ current_process s' = current_process s) /\
    next_pid s' = next_pid s) s.
Proof.
  intros [Ho Hn Hp Hi] Ha. unfold process_destroy. wp_step. apply wp_on_kheap.
  eapply wp_mono; [apply (kfree_law _ _ a Ho); by apply elem_of_dom|]. intros ? h Hh. wp_step. split; [|done]. split; [|done].
  split; cbn.
  - by rewrite dom_delete_L.
  - done.
  - intros b q [_ Hb]%lookup_delete_Some. by apply (Hp b).
  - intros b c q r [_ Hb]%lookup_delete_Some [_ Hc]%lookup_delete_Some. by apply Hi.
Qed.

(** A new process has a fresh address and a number that no process has. *)
Theorem process_create_correct s : good s -> next_pid s < 2 ^ 32 - 1 ->
  exists p s', process_create s = Ok (p, s') /\ good s' /\ current_process s' = current_process s /\
    (p = 0 /\ p_store s' = p_store s \/
     p_store s !! p = None /\ p_store s' = <[p := SimpleProcess (next_pid s) 0 0]> (p_store s) /\
     forall a q, p_store s !! a = Some q -> pid q <> next_pid s).
Proof. intros Hg Hw. destruct (proj1 (wp_run _ _ _) (wp_process_create s Hg Hw)) as (p & s' & Hr & Hc & _). by exists p, s'. Qed.

(** Destroying a process takes it from the list and keeps the others; the
    current process may be the destroyed one, and stays current. *)
Theorem process_destroy_correct s a : good s -> is_Some (p_store s !! a) ->
  exists s', process_destroy a s = Ok (tt, s') /\ good s' /\ p_store s' = delete a (p_store s) /\ current_process s' = current_process s.
Proof. intros Hg Ha. destruct (proj1 (wp_run _ _ _) (wp_process_destroy s a Hg Ha)) as ([] & s' & Hr & Hc & _). by exists s'. Qed.

(** *** Histories *)

Inductive op : Type := Create | Destroy (a : Z) | Switch (a : Z).

Definition run_op (o : op) : prog sps unit :=
  match o with
  | Create => process_create ;; ret tt
  | Destroy a => process_destroy a
  | Switch a => process_switch a
  end.

(** [process_destroy] takes a process that is there. *)
Definition allowed (o : op) s : Prop :=
  match o with Destroy a => is_Some (p_store s !! a) | _ => True end.

Inductive reaches : sps -> nat -> sps -> Prop :=
  | reaches_start s h : p_store s = ∅ -> next_pid s = 1 -> owned (p_heap s) ∅ -> process_init s = Ok (tt, h) -> reaches s 1 h
  | reaches_step s k s1 o s2 : reaches s k s1 -> allowed o s1 -> run_op o s1 = Ok (tt, s2) ->
      reaches s (match o with Create => S k | _ => k end) s2.

Lemma init_good s s' : p_store s = ∅ -> next_pid s = 1 -> owned (p_heap s) ∅ -> process_init s = Ok (tt, s') ->
  good s' /\ next_pid s' <= 2.
Proof.
  intros Hs Hn Ho Hr. assert (wp process_init (fun _ s' => good s' /\ next_pid s' <= 2) s) as Hw; [|unfold wp in Hw; by rewrite Hr in Hw].
  assert (forall h c, owned h ∅ -> good (Processes h (p_store s) c (next_pid s))) as Hg.
  { intros h c Hh. split; cbn; rewrite ?Hs, ?dom_empty_L; [done|lia|done|done]. }
  unfold process_init. wp_step. apply wp_on_kheap.
  eapply wp_mono; [apply (kmalloc_law _ _ sizeof_simple_process Ho); unfold sizeof_simple_process; lia|].
  intros p h [[-> Hh]|(Hp0 & Hf & Hh)]; unfold set_current; wp_step; wp_step.
  - wp_step. cbn. split; [by apply Hg|lia].
  - rewrite (proj2 (Z.eqb_neq p 0)) by lia. cbn [negb]. unfold start_process. wp_step. cbn. split; [|rewrite Hn; done].
    apply (good_start (Processes (p_heap s) (p_store s) p (next_pid s))); cbn; rewrite ?Hn, ?Hs, ?dom_empty_L; [|lia|done|done].
    rewrite <- Hs, <- Hn. by apply (Hg (p_heap s)).
Qed.

Lemma step_good o s s' : good s -> next_pid s < 2 ^ 32 - 1 -> allowed o s -> run_op o s = Ok (tt, s') ->
  good s' /\ next_pid s' <= next_pid s + (match o with Create => 1 | _ => 0 end).
Proof.
  intros Hg Hn Ha Hr.
  assert (wp (run_op o) (fun _ s' => good s' /\ next_pid s' <= next_pid s + (match o with Create => 1 | _ => 0 end)) s) as Hw;
    [|unfold wp in Hw; by rewrite Hr in Hw].
  destruct o as [|a|a]; cbn [run_op].
  - wp_step. eapply wp_mono; [by apply wp_process_create|]. intros p s1 [[Hg1 _] Hn1]. by wp_step.
  - eapply wp_mono; [by apply wp_process_destroy|]. intros _ s1 [[Hg1 _] Hn1]. split; [done|lia].
  - pose proof Hg as [Ho Hn1 Hp Hi]. unfold process_switch, set_current. wp_step. cbn. split; [by split|lia].
Qed.

(** However processes are created, destroyed and switched to, two of
    them never have the same number, as long as fewer than 2^32 - 2 were
    created. *)
Theorem pids_distinct s k s' : reaches s k s' -> Z.of_nat k < 2 ^ 32 - 2 ->
  forall a b q r, p_store s' !! a = Some q -> p_store s' !! b = Some r -> pid q = pid r -> a = b.
Proof.
  intros Hr Hk. enough (good s' /\ next_pid s' <= Z.of_nat k + 1) as [[] _] by done.
  induction Hr as [s s' Hs Hn Ho Hr|s k s1 o s2 _ IH Ha Hr].
  - destruct (init_good s s' Hs Hn Ho Hr) as [? ?]. split; [done|lia].
  - destruct IH as [Hg Hn]; [destruct o; lia|]. apply step_good in Hr as [Hg' Hn']; [|done|destruct o; lia|done].
    split; [done|]. destruct o; lia.
Qed.

(** The counter wraps: the process after number [2^32 - 1] has number 0,
    and the numbers start again. *)
Theorem next_pid_wraps s : next_pid s = 2 ^ 32 - 1 -> forall p, exists s', start_process p s = Ok (tt, s') /\
  p_store s' !! p = Some (SimpleProcess (2 ^ 32 - 1) 0 0) /\ next_pid s' = 0.
Proof. intros Hn p. eexists. split; [done|]. cbn. rewrite Hn, lookup_insert_eq. done. Qed.
End ProcessList.

(** ** Examples *)

(** The string "oops" and the first cells of the text screen. *)
Definition boot_mem : mem := write 4096 (chars "oops" ++ [0]) (write vga (replicate 40 0) ∅).

Lemma minimal_panic_correct_witness :
  Minimal.report 4096 boot_mem = Ok (tt, write vga (cells 4 (chars "KERNEL PANIC: oops")) boot_mem) /\
  Minimal.panic 4096 boot_mem = Spin.
Proof.
  apply (minimal_panic_correct 4096 (chars "oops") boot_mem); [|done| |].
  - apply cstr_written. by apply all_cchars.
  - apply write_mapped, (mapped_le _ vga 40); [exact (bytes_at_mapped _ _ _ (write_bytes_at vga (replicate 40 0) ∅))|unfold vga; lia|cbn; lia].
  - left. unfold vga. cbn. lia.
Defined.

Section Examples.
Import SimpleMm.

(** No process; one process, number 1; and the state after a second one. *)
Definition no_processes : processes smm := Processes (Smm ∅ 0) ∅ 0 1.
Definition one_process : processes smm :=
  Processes (Smm ∅ 12) (<[16777216 := SimpleProcess 1 0 0]> ∅) 16777216 2.
Definition two_processes : processes smm :=
  Processes (Smm ∅ 24) (<[16777228 := SimpleProcess 2 0 0]> (p_store one_process)) 16777216 3.

Lemma bump_nothing s : 0 <= heap_size s <= max_heap_size -> bump_owned s ∅.
Proof. intros Hs. split; [done|]. intros p Hp. by apply elem_of_empty in Hp. Qed.

Lemma one_process_reached : reaches no_processes 1 one_process.
Proof. constructor; [done|done|by apply bump_nothing|by vm_compute]. Qed.

Lemma one_process_good : good one_process.
Proof. apply (init_good no_processes); [done|done|by apply bump_nothing|by vm_compute]. Qed.

Lemma process_create_correct_witness :
  exists p s', process_create one_process = Ok (p, s') /\ good s' /\ current_process s' = 16777216 /\
    (p = 0 /\ p_store s' = p_store one_process \/
     p_store one_process !! p = None /\ p_store s' = <[p := SimpleProcess 2 0 0]> (p_store one_process) /\
     forall a q, p_store one_process !! a = Some q -> pid q <> 2).
Proof. apply (process_create_correct one_process); [exact one_process_good|done]. Defined.

Lemma process_destroy_correct_witness :
  exists s', process_destroy 16777216 one_process = Ok (tt, s') /\ good s' /\
    p_store s' = delete 16777216 (p_store one_process) /\ current_process s' = 16777216.
Proof. apply (process_destroy_correct one_process 16777216); [exact one_process_good|by eexists]. Defined.

Lemma pids_distinct_witness : forall a b q r, p_store two_processes !! a = Some q -> p_store two_processes !! b = Some r -> pid q = pid r -> a = b.
Proof.
  apply (pids_distinct no_processes 2 two_processes); [|done].
  apply (reaches_step no_processes 1 one_process Create two_processes one_process_reached); [done|by vm_compute].
Defined.

Lemma next_pid_wraps_witness :
  exists s', start_process 16 (Processes (Smm ∅ 0) ∅ 0 (2 ^ 32 - 1)) = Ok (tt, s') /\
    p_store s' !! 16 = Some (SimpleProcess (2 ^ 32 - 1) 0 0) /\ next_pid s' = 0.
Proof. by apply (next_pid_wraps (Processes (Smm ∅ 0) ∅ 0 (2 ^ 32 - 1))). Defined.
End Examples.
